(* ===== verification/_CoqProject ===== *)
-Q . S2P
Prelude.v
Buf.v
Ide.v
Bio.v
Log.v
BlockRuns.v
CString.v
Printf.v
UserProgs.v
Ring.v
Console.v
Pipe.v
Spinlock.v
Kalloc.v
Vm.v
Uvm.v
UvmGrow.v
Kvm.v
UvmCopy.v
UvmWrite.v
Proc.v
ProcInv.v
Sleep.v
Blocks.v
Fs.v
Balloc.v
Inode.v
FileData.v
Path.v
Icache.v
Dir.v
Mount.v
FsRuns.v
Syscall.v
Exec.v
Boot.v
ExecMem.v
ExecLoad.v
ExecStack.v
ExecOk.v
ExecFs.v
Sysproc.v
MemRuns.v
Trap.v
Mp.v
Devices.v
File.v
Sysfile.v
Refs.v
Tables.v
SysfileInv.v
CallRuns.v
Grep.v
Sh.v
ShPrint.v
ShRun.v
Umalloc.v
Mkfs.v
Txn.v
MkfsFile.v
MkfsPart.v
MkfsOk.v
MkfsMain.v
