(* ===== verification/Prelude.v ===== *)
(** * A verification library for the os4 kernel (xv6 with disk partitions)

    The program is a small Unix-like kernel for the x86 with its user programs and the tool that
    builds its disk image.  This library translates its C functions into Rocq functions, one
    definition per function and under its name where that is possible, and proves what the functions promise
    each other.  Integers are [Z] with the wrap-around of their C type written out
    ([u8], [u16], [u32], [s32]); bytes are [Z] from 0 to 255 in lists; a pointer is an address or the index
    of the object it points to.  Code that changes state runs in the monad [M] below:
    its outcome is a result with a new state, a call of [panic], a sleep, an access that C leaves undefined,
    or fuel that did not last.  [wp m Q s] says that [m] returns, and in a state that satisfies [Q]; [triple]
    speaks of the runs that return; [moves] of what every run that returns keeps.

    ** The parts and their files

    - Disk blocks.  Buf.v: struct buf.  Ide.v: ide.c and memide.c, the request queue and the transfers,
      over a parametric ATA controller.  Bio.v: the buffer cache of bio.c.  Log.v: the redo log of log.c
      with crashes.  BlockRuns.v: concrete runs.  Txn.v: system calls that share one transaction, as interleaved runs of
      [begin_op], [log_write] and [end_op], and the log area that mkfs makes.
    - Strings and output.  CString.v: string.c and the string routines of ulib.c.  Printf.v: printf.c and [cprintf].
      Ring.v, Console.v: console.c and kbd.c.
    - Memory.  Kalloc.v: kalloc.c.  Vm.v: vm.c and the macros of mmu.h.  Uvm.v: what it means that an address space owns
      its pages.  UvmGrow.v, Kvm.v, UvmCopy.v, UvmWrite.v: [allocuvm] and [deallocuvm], [setupkvm], [copyuvm], and
      [copyout] and [clearpteu] in those terms.  MemRuns.v: concrete runs.
    - Processes.  Spinlock.v: spinlock.c at the grain of instructions.  Proc.v and ProcInv.v: proc.c.  Sleep.v:
      the protocol of [sleep] and [wakeup].  Pipe.v: pipe.c with the wakeups, and schedules of a writer and a reader.  Sysproc.v: sysproc.c and [growproc].  Trap.v: trap.c.
    - The file system.  Blocks.v: what fs.c expects of the block layer.  Fs.v: fs.c.  Balloc.v, Inode.v, FileData.v,
      Path.v, Icache.v, Dir.v, Mount.v: theorems on its parts.  FsRuns.v: concrete file systems.
    - System calls.  Syscall.v: syscall.c.  File.v: file.c.  Sysfile.v: sysfile.c.  Refs.v, Tables.v, SysfileInv.v: the
      reference counts of files, pipes and inodes over all calls.  CallRuns.v: concrete runs.
    - Loading programs.  Exec.v: exec.c, elf.h and [sys_exec].  ExecMem.v, ExecLoad.v, ExecStack.v: the memory, the segments
      and the stack of the new program.  ExecOk.v: [exec] against its specification.  ExecFs.v: the file system as the file
      layer of [exec].
    - The machine.  Boot.v: bootmain.c.  Mp.v: mp.c.  Devices.v: ioapic.c, picirq.c, timer.c, uart.c, lapic.c.
    - User programs.  Grep.v: grep.c.  Sh.v, ShPrint.v, ShRun.v: sh.c.  Umalloc.v: umalloc.c.  UserProgs.v: cat.c, wc.c,
      echo.c, ls.c, and [gets] and [stat] of ulib.c.
    - The image builder.  Mkfs.v: mkfs.c.  MkfsFile.v, MkfsPart.v, MkfsOk.v, MkfsMain.v: the image it writes.

    ** How the parts meet

    A part that calls another is proved against a type class that states what it relies on, and the called part
    has the instance: [Blocks] between fs.c and the block layer (Blocks.v; the instance is bio.c with log.c),
    [BlockDevice] between the block layer and the two disk drivers (Buf.v, Ide.v), [Files] and [Inodes] between proc.c and
    exec.c and the file system (Proc.v, Exec.v; the instances in ExecFs.v),
    [IdeController] for the disk, which is busy for a while after a command (Ide.v; used by ide.c and bootmain.c), [Interrupts] for the handlers
    that trap.c dispatches to, [Unix] and its laws for the system calls under the user programs, [Hardware] for ports and
    registers.  The files named [...Runs] and the modules named [Toy] hold instances and runs on concrete states, which show
    that the hypotheses of the theorems can hold together.

    ** What the theorems show

    - Disk: a crash at any write of a commit leaves, after recovery, all or nothing of a transaction
      ([commit_crash_safe]); the space reserved for an operation suffices, and does not for the log
      that mkfs makes ([reservation_suffices], [mkfs_log_overflows]).
    - Files: reads and writes against the bytes of a file, the bitmap, inodes on disk and in the cache, directories, paths
      and mounted partitions (FileData.v to Mount.v); over all file system calls the tables keep their
      types and reference counts ([file_calls_typed]).
    - Memory: pages have one owner ([kalloc_exclusive]), page tables map what was asked for ([mappages_maps]),
      [copyuvm] makes an equal and disjoint space or fails, with the pages it then loses ([copyuvm_copies]), [growproc] on every branch ([growproc_sizes]).
    - Processes: the process table stays consistent over all interleavings of its operations ([ptable_safe]),
      [sleep] loses no wakeup ([no_lost_wakeup]), locks exclude ([spinlock_mutual_exclusion]), pipes deliver in order and
      all ([pipe_fifo], [pipe_transfer]), [kill] takes effect ([kill_takes_effect]), sleeping ends ([sleep_ticks]).
    - System calls check their arguments ([argument_bounds]); [exec] starts the program a specification of
      ELF describes or changes nothing, for files with aligned segments that the free memory has room for ([exec_refines]), and
      does so on the file system of fs.c ([fs_serves]).
    - Machine: the boot loader puts the kernel in place ([bootmain_loads]); the tables of processors are found
      and read ([mpinit_configures]); interrupts enabled are the ones delivered ([ioapic_routes], [pic_unmasks]); the
      time read is one the clock showed ([cmostime_reads]).
    - Programs: the shell's parser ends and inverts a printer ([parsecmd_terminates], [parse_print]), pipelines are wired
      right ([pipeline_wiring]), [match] decides the language of a pattern ([match_decides]), [malloc] gives
      out disjoint memory for requests below 2 GB ([malloc_safe]), [wc] counts ([wc_counts]), the image of mkfs is read back by the
      kernel's decoders ([mkfs_image_readable]).
    - Errors that the code has are stated as theorems too: [kill_zero_dooms_child], [empty_path_panics],
      [mkfs_log_overflows], [unknown_entry_hangs].

    ** Bounds and fuel

    A loop with a counter recurses on the number of its rounds, computed from its bounds as the code computes them.  A loop
    over memory or lists (page ranges, free lists, sectors, bytes of a file) has as fuel the number of steps
    that its range allows, and its theorem, a [wp], shows that this is enough.  The parser of the shell has [parse_fuel],
    four steps for each character: no call recurses more often without consuming input.  A loop that waits
    for a device has a bound as an argument or a constant such as [IDE_POLLS], and a law of the device says that it
    answers within it.  Loops over [read] take a fuel that the theorem relates to the length of the input.  The routines
    that sleep are cut into the rounds between two sleeps, and the theorems are about all interleavings of the rounds.
    Sizes of tables (NPROC, NINODE, NBUF, NFILE, LOGSIZE, ...) are those of param.h.

    ** Not modelled

    - Assembly (bootasm.S, entry.S, entryother.S, initcode.S, swtch.S, trapasm.S, usys.S) and the generated vectors.
    - Loads of segment, task and page directory registers ([seginit], [switchkvm], most of [switchuvm], [tvinit],
      [idtinit]), and main.c, which calls the initialisation routines in turn: their effect is in the processor.
    - [procdump], [getcallerpcs], [consolewrite] and the printing part of [panic]: diagnostics and a loop over [cgaputc].
    - Programs that pass their arguments to one system call (rm, ln, mkdir, kill, mount), init and zombie; the programs that
      test the kernel (usertests, forktest, stressfs, test, oldtest); oldmkfs and oldmkfs2, which are not built.
    - Concurrency inside a routine that holds its lock: routines under one lock are single steps, by
      [spinlock_mutual_exclusion]. *)

From stdpp Require Export base numbers list gmap strings sets fin_maps.
From Stdlib Require Export ZArith Lia.
#[global] Open Scope Z_scope.
#[export] Set Warnings "-clear-no-such-hyp".

(** ** Outcomes of kernel code

    A kernel routine either returns, calls [panic], blocks in [sleep], performs
    an access C leaves undefined (a null or out of range pointer), or does not
    come back within the fuel its loop was given. *)

Inductive outcome (S A : Type) : Type :=
| Done (a : A) (s : S)
| Panic (msg : string)
| Sleep (chan : string)
| Fault (what : string)
| NoFuel.
Arguments Done {S A} a s.
Arguments Panic {S A} msg.
Arguments Sleep {S A} chan.
Arguments Fault {S A} what.
Arguments NoFuel {S A}.

Definition M (S A : Type) : Type := S -> outcome S A.

Definition ret {S A} (a : A) : M S A := fun s => Done a s.
Definition bind {S A B} (m : M S A) (k : A -> M S B) : M S B :=
  fun s => match m s with
           | Done a s' => k a s'
           | Panic msg => Panic msg
           | Sleep c => Sleep c
           | Fault w => Fault w
           | NoFuel => NoFuel
           end.
Definition panic {S A} (msg : string) : M S A := fun _ => Panic msg.
Definition sleep_on {S A} (c : string) : M S A := fun _ => Sleep c.
Definition fault {S A} (w : string) : M S A := fun _ => Fault w.
Definition nofuel {S A} : M S A := fun _ => NoFuel.
Definition gets {S A} (f : S -> A) : M S A := fun s => Done (f s) s.
Definition modify {S} (f : S -> S) : M S unit := fun s => Done tt (f s).
Definition of_option {S A} (w : string) (o : option A) : M S A :=
  match o with Some a => ret a | None => fault w end.

(** Run a routine of a component on its part of a larger state. *)
Definition lift {S T A} (get : S -> T) (set : T -> S -> S) (m : M T A) : M S A := fun s =>
  match m (get s) with
  | Done a t => Done a (set t s)
  | Panic msg => Panic msg
  | Sleep c => Sleep c
  | Fault w => Fault w
  | NoFuel => NoFuel
  end.

Declare Scope xv6_scope.
Delimit Scope xv6_scope with xv6.
Notation "x <- m ;; k" := (bind m (fun x => k))
  (at level 100, m at next level, right associativity) : xv6_scope.
Notation "m ;;; k" := (bind m (fun _ => k))
  (at level 100, right associativity) : xv6_scope.
#[global] Open Scope xv6_scope.

(** [for_ n i body] is [for(; n iterations left; i++) body]: the body ends the
    loop by returning [Some r] (a [break] or a [return] of the C loop). *)
Fixpoint for_ {S R} (n : nat) (i : Z) (body : Z -> M S (option R)) : M S (option R) :=
  match n with
  | O => ret None
  | Datatypes.S n' =>
      r <- body i ;;
      match r with
      | Some _ => ret r
      | None => for_ n' (i + 1) body
      end
  end.

(** The same loop with a body that never leaves it. *)
Fixpoint for_each {S} (n : nat) (i : Z) (body : Z -> M S unit) : M S unit :=
  match n with
  | O => ret tt
  | Datatypes.S n' => body i ;;; for_each n' (i + 1) body
  end.

(** ** Total correctness *)

(** [wp m Q s]: run from [s], [m] returns and its result satisfies [Q]. *)
Definition wp {S A} (m : M S A) (Q : A -> S -> Prop) (s : S) : Prop :=
  match m s with Done a s' => Q a s' | _ => False end.

(** [panics m msg s]: run from [s], [m] ends in [panic(msg)]. *)
Definition panics {S A} (m : M S A) (msg : string) (s : S) : Prop := m s = Panic msg.

Section Wp.
Context {S : Type}.
Implicit Type s : S.

Lemma wp_ret {A} (a : A) (Q : A -> S -> Prop) s : Q a s -> wp (ret a) Q s.
Proof. done. Qed.

Lemma wp_bind {A B} (m : M S A) (k : A -> M S B) Q s :
  wp m (fun a s' => wp (k a) Q s') s -> wp (bind m k) Q s.
Proof. unfold wp, bind. destruct (m s); done. Qed.

Lemma panics_bind {A B} (m : M S A) (k : A -> M S B) msg s :
  wp m (fun a s' => panics (k a) msg s') s -> panics (bind m k) msg s.
Proof. unfold wp, panics, bind. by destruct (m s). Qed.
Lemma panics_first {A B} (m : M S A) (k : A -> M S B) msg s : panics m msg s -> panics (bind m k) msg s.
Proof. unfold panics, bind. by intros ->. Qed.

Lemma wp_bind_ret {A} (m : M S A) (Q : A -> S -> Prop) s : wp (x <- m ;; ret x) Q s -> wp m Q s.
Proof. unfold wp, bind. by destruct (m s). Qed.

Lemma wp_mono {A} (m : M S A) (P Q : A -> S -> Prop) s :
  wp m P s -> (forall a s', P a s' -> Q a s') -> wp m Q s.
Proof. unfold wp. destruct (m s); naive_solver. Qed.

Lemma wp_gets {A} (f : S -> A) (Q : A -> S -> Prop) s : Q (f s) s -> wp (gets f) Q s.
Proof. done. Qed.

Lemma wp_modify (f : S -> S) (Q : unit -> S -> Prop) s : Q tt (f s) -> wp (modify f) Q s.
Proof. done. Qed.

Lemma wp_option {A} w (o : option A) (a : A) (Q : A -> S -> Prop) s :
  o = Some a -> Q a s -> wp (of_option w o) Q s.
Proof. by intros ->. Qed.

Lemma wp_lift {T A} (get : S -> T) (set : T -> S -> S) (m : M T A) (Q : A -> S -> Prop) s :
  wp m (fun a t => Q a (set t s)) (get s) -> wp (lift get set m) Q s.
Proof. unfold wp, lift. by destruct (m (get s)). Qed.

Lemma wp_inv {A} (m : M S A) (Q : A -> S -> Prop) s :
  wp m Q s <-> exists a s', m s = Done a s' /\ Q a s'.
Proof.
  unfold wp. destruct (m s) as [a s'| | | |]; [by split; [eauto|intros (?&?&[= <- <-]&?)]|..];
    by split; [|intros (?&?&?&?)].
Qed.

Lemma wp_for {R} n i0 (body : Z -> M S (option R)) (I : Z -> S -> Prop) Q s :
  I i0 s ->
  (forall i t, i0 <= i < i0 + Z.of_nat n -> I i t ->
    wp (body i) (fun r t' => match r with
                             | None => I (i + 1) t'
                             | Some x => Q (Some x) t'
                             end) t) ->
  (forall t, I (i0 + Z.of_nat n) t -> Q None t) ->
  wp (for_ n i0 body) Q s.
Proof.
  revert i0 s. induction n as [|n IH]; intros i0 s HI Hbody Hend; simpl.
  - apply wp_ret, Hend. by rewrite Z.add_0_r.
  - apply wp_bind. eapply wp_mono; [apply Hbody; [lia|done]|].
    intros [x|] t HQ; [done|]. apply IH; [done| |].
    + intros i t' Hi. apply Hbody. lia.
    + intros t'. replace (i0 + 1 + Z.of_nat n) with (i0 + Z.of_nat (Datatypes.S n)) by lia.
      apply Hend.
Qed.

Lemma wp_for_each n i0 (body : Z -> M S unit) (I : Z -> S -> Prop) (Q : unit -> S -> Prop) s :
  I i0 s ->
  (forall i t, i0 <= i < i0 + Z.of_nat n -> I i t -> wp (body i) (fun _ t' => I (i + 1) t') t) ->
  (forall t, I (i0 + Z.of_nat n) t -> Q tt t) ->
  wp (for_each n i0 body) Q s.
Proof.
  revert i0 s. induction n as [|n IH]; intros i0 s HI Hbody Hend; simpl.
  - apply wp_ret, Hend. by rewrite Z.add_0_r.
  - apply wp_bind. eapply wp_mono; [apply Hbody; [lia|done]|].
    intros [] t HQ. apply IH; [done| |].
    + intros i t' Hi. apply Hbody. lia.
    + intros t'. replace (i0 + 1 + Z.of_nat n) with (i0 + Z.of_nat (Datatypes.S n)) by lia.
      apply Hend.
Qed.
End Wp.

Lemma bind_done {S A B} (m : M S A) (k : A -> M S B) s b s' :
  bind m k s = Done b s' -> exists a t, m s = Done a t /\ k a t = Done b s'.
Proof. unfold bind. destruct (m s); naive_solver. Qed.

(** ** What a routine never does

    [moves R m]: wherever [m] returns, it leads from the initial state to one related by the
    preorder [R]; nothing is claimed of runs that do not return. *)
Definition moves {S A} (R : S -> S -> Prop) (m : M S A) : Prop := forall s r s', m s = Done r s' -> R s s'.

Section Moves.
Context {S : Type} (R : S -> S -> Prop) `{!PreOrder R}.

Lemma moves_ret {A} (a : A) : moves R (ret a).
Proof. by intros s r s' [= _ <-]. Qed.
Lemma moves_bind {A B} (m : M S A) (k : A -> M S B) : moves R m -> (forall a, moves R (k a)) -> moves R (bind m k).
Proof.
  intros Hm Hk s r s'. unfold bind. destruct (m s) as [a t| | | |] eqn:E; try done.
  intros Hs. etransitivity; [by eapply Hm|by eapply Hk].
Qed.
Lemma moves_panic {A} msg : moves R (panic (A := A) msg).
Proof. done. Qed.
Lemma moves_sleep {A} c : moves R (sleep_on (A := A) c).
Proof. done. Qed.
Lemma moves_fault {A} w : moves R (fault (A := A) w).
Proof. done. Qed.
Lemma moves_nofuel {A} : moves R (nofuel (A := A)).
Proof. done. Qed.
Lemma moves_gets {A} (f : S -> A) : moves R (gets f).
Proof. by intros s r s' [= _ <-]. Qed.
Lemma moves_modify (f : S -> S) : (forall s, R s (f s)) -> moves R (modify f).
Proof. by intros Hf s r s' [= _ <-]. Qed.
Lemma moves_option {A} w (o : option A) : moves R (of_option w o).
Proof. destruct o; [apply moves_ret|apply moves_fault]. Qed.
Lemma moves_lift {T A} (get : S -> T) (set : T -> S -> S) (m : M T A) : (forall t s, R s (set t s)) -> moves R (lift get set m).
Proof. intros Hs s r s'. unfold lift. destruct (m (get s)); try done. by intros [= _ <-]. Qed.
Lemma moves_for {B} n i (body : Z -> M S (option B)) : (forall i, moves R (body i)) -> moves R (for_ n i body).
Proof.
  intros Hb. revert i. induction n as [|n IH]; intros i; simpl; [apply moves_ret|].
  apply moves_bind; [apply Hb|]. intros [b|]; [apply moves_ret|apply IH].
Qed.
Lemma moves_for_each n i (body : Z -> M S unit) : (forall i, moves R (body i)) -> moves R (for_each n i body).
Proof.
  intros Hb. revert i. induction n as [|n IH]; intros i; simpl; [apply moves_ret|]. apply moves_bind; [apply Hb|]. auto.
Qed.
End Moves.

Create HintDb moves.
#[export] Hint Resolve moves_ret moves_panic moves_sleep moves_fault moves_nofuel moves_gets moves_option : moves.

(** Follow the structure of a routine down to its calls. *)
Ltac moves :=
  repeat (cbv beta zeta; lazymatch goal with
  | |- moves _ (bind _ _) => apply moves_bind; [try apply _| |intros ?]
  | |- moves _ (for_ _ _ _) => apply moves_for; [try apply _|intros ?]
  | |- moves _ (for_each _ _ _) => apply moves_for_each; [try apply _|intros ?]
  | |- moves _ (let (_, _) := ?x in _) => destruct x
  | |- moves _ (if ?b then _ else _) => destruct b
  | |- moves _ (match ?x with _ => _ end) => destruct x
  end); eauto with moves typeclass_instances.

(** ** What a routine guarantees if it returns

    [triple P m Q]: every run of [m] from a state with [P] that returns leads to [Q]. *)
Definition triple {S A} (P : S -> Prop) (m : M S A) (Q : A -> S -> Prop) : Prop :=
  forall s r s', P s -> m s = Done r s' -> Q r s'.

Section Triple.
Context {S : Type}.
Implicit Type P : S -> Prop.

Lemma triple_ret {A} P (a : A) (Q : A -> S -> Prop) : (forall s, P s -> Q a s) -> triple P (ret a) Q.
Proof. intros HQ s r s' Hs [= <- <-]. auto. Qed.
Lemma triple_bind {A B} P (m : M S A) (k : A -> M S B) (R : A -> S -> Prop) (Q : B -> S -> Prop) :
  triple P m R -> (forall a, triple (R a) (k a) Q) -> triple P (bind m k) Q.
Proof. intros Hm Hk s r s' Hs. unfold bind. destruct (m s) as [a t| | | |] eqn:E; try done. eapply Hk, Hm; eauto. Qed.
Lemma triple_conseq {A} P P' (m : M S A) (Q Q' : A -> S -> Prop) :
  triple P m Q -> (forall s, P' s -> P s) -> (forall a s, Q a s -> Q' a s) -> triple P' m Q'.
Proof. intros Hm HP HQ s r s' Hs E. eapply HQ, Hm; eauto. Qed.
Lemma triple_weaken {A} P P' (m : M S A) Q : triple P m Q -> (forall s, P' s -> P s) -> triple P' m Q.
Proof. intros Hm HP s r s' Hs. apply Hm. auto. Qed.
Lemma triple_stuck {A} P (m : M S A) (Q : A -> S -> Prop) : (forall s r s', m s <> Done r s') -> triple P m Q.
Proof. intros Hm s r s' _ E. by apply Hm in E. Qed.
Lemma triple_gets {A} P (f : S -> A) (Q : A -> S -> Prop) : (forall s, P s -> Q (f s) s) -> triple P (gets f) Q.
Proof. intros HQ s r s' Hs [= <- <-]. auto. Qed.
Lemma triple_modify P (f : S -> S) (Q : unit -> S -> Prop) : (forall s, P s -> Q tt (f s)) -> triple P (modify f) Q.
Proof. intros HQ s r s' Hs [= <- <-]. auto. Qed.
Lemma triple_lift {T A} P (get : S -> T) (set : T -> S -> S) (m : M T A) (Q : A -> S -> Prop) :
  (forall s, P s -> triple (eq (get s)) m (fun a t => Q a (set t s))) -> triple P (lift get set m) Q.
Proof. intros Hm s r s' Hs. unfold lift. destruct (m (get s)) as [a t| | | |] eqn:E; try done. intros [= <- <-]. by eapply Hm. Qed.
Lemma triple_for {B} n i0 (body : Z -> M S (option B)) P (Q : option B -> S -> Prop) :
  (forall i, triple P (body i) (fun r s => match r with None => P s | Some x => Q (Some x) s end)) ->
  (forall s, P s -> Q None s) -> triple P (for_ n i0 body) Q.
Proof.
  intros Hb Hend. revert i0. induction n as [|n IH]; intros i0; simpl; [by apply triple_ret|].
  eapply triple_bind; [apply Hb|]. intros [x|]; [by apply triple_ret|apply IH].
Qed.
Lemma triple_pre {A} P (m : M S A) (Q : A -> S -> Prop) : (forall s, P s -> triple (eq s) m Q) -> triple P m Q.
Proof. intros Hm s r s' Hs E. by eapply Hm. Qed.
End Triple.

(** One step of a total-correctness proof: open binds, reads and writes. *)
Ltac wp_step :=
  lazymatch goal with
  | |- wp (bind _ _) _ _ => apply wp_bind
  | |- wp (ret _) _ _ => apply wp_ret
  | |- wp (gets _) _ _ => apply wp_gets
  | |- wp (modify _) _ _ => apply wp_modify
  end; cbv beta.
Ltac wp_steps := repeat wp_step.

(** ** Machine integers *)

Definition u8 (z : Z) : Z := z mod 2 ^ 8.
Definition u16 (z : Z) : Z := z mod 2 ^ 16.
Definition u32 (z : Z) : Z := z mod 2 ^ 32.
Definition s8 (z : Z) : Z := if u8 z <? 2 ^ 7 then u8 z else u8 z - 2 ^ 8.
Definition s16 (z : Z) : Z := if u16 z <? 2 ^ 15 then u16 z else u16 z - 2 ^ 16.
Definition s32 (z : Z) : Z := if u32 z <? 2 ^ 31 then u32 z else u32 z - 2 ^ 32.

(** [lia] for goals with division or remainder by a constant. *)
Ltac zlia :=
  change (2 ^ 8) with 256 in *; change (2 ^ 16) with 65536 in *;
  change (2 ^ 32) with 4294967296 in *; change (2 ^ 7) with 128 in *;
  change (2 ^ 15) with 32768 in *; change (2 ^ 31) with 2147483648 in *;
  Z.div_mod_to_equations; lia.

Lemma u8_range z : 0 <= u8 z < 256.
Proof. apply Z.mod_pos_bound. lia. Qed.
Lemma u16_range z : 0 <= u16 z < 65536.
Proof. apply Z.mod_pos_bound. lia. Qed.
Lemma u32_range z : 0 <= u32 z < 4294967296.
Proof. apply Z.mod_pos_bound. lia. Qed.
Lemma u32_small z : 0 <= z < 4294967296 -> u32 z = z.
Proof. intros. apply Z.mod_small. lia. Qed.
Lemma u8_small z : 0 <= z < 256 -> u8 z = z.
Proof. intros. apply Z.mod_small. lia. Qed.
Lemma u16_small z : 0 <= z < 65536 -> u16 z = z.
Proof. intros. apply Z.mod_small. lia. Qed.
Lemma s32_small z : - 2147483648 <= z < 2147483648 -> s32 z = z.
Proof. intros. unfold s32, u32. destruct (Z.ltb_spec (z mod 2 ^ 32) (2 ^ 31)); zlia. Qed.
Lemma s32_u32 z : s32 (u32 z) = s32 z.
Proof. unfold s32, u32. by rewrite Zmod_mod. Qed.
Lemma s16_small z : - 32768 <= z < 32768 -> s16 z = z.
Proof. intros. unfold s16, u16. destruct (Z.ltb_spec (z mod 2 ^ 16) (2 ^ 15)); zlia. Qed.

(** A bit field above another one. *)
Lemma lor_shiftl_add n hi lo :
  0 <= n -> 0 <= lo < 2 ^ n -> Z.lor (Z.shiftl hi n) lo = hi * 2 ^ n + lo.
Proof.
  intros Hn Hlo. rewrite <- Z.lxor_lor, <- Z.add_nocarry_lxor; rewrite ?Z.shiftl_mul_pow2 by done; try done.
  all: apply Z.bits_inj'; intros k Hk; rewrite Z.land_spec, Z.bits_0.
  all: destruct (decide (k < n)); [by rewrite Z.mul_pow2_bits_low|].
  all: rewrite <- (Z.mod_small lo (2 ^ n)), Z.mod_pow2_bits_high by lia; apply andb_false_r.
Qed.

(** ** Byte arrays *)

(** The [n] bytes of [l] from offset [off], and [l] with the bytes of [w]
    written over it from [off] (what [memmove] into a buffer does). *)
Definition bslice (off n : nat) (l : list Z) : list Z := take n (drop off l).
Definition bsplice (off : nat) (w l : list Z) : list Z :=
  take off l ++ w ++ drop (off + length w)%nat l.

Section Splice.
Implicit Types (l w : list Z) (off n : nat).
Local Open Scope nat_scope.

Lemma bsplice_length off w l : off + length w <= length l -> length (bsplice off w l) = length l.
Proof. intros. unfold bsplice. rewrite !length_app, length_take, length_drop. lia. Qed.

Lemma bslice_length off n l : off + n <= length l -> length (bslice off n l) = n.
Proof. intros. unfold bslice. rewrite length_take, length_drop. lia. Qed.

Lemma bslice_lookup off n l i : i < n -> bslice off n l !! i = l !! (off + i).
Proof. intros. unfold bslice. by rewrite lookup_take_lt, lookup_drop. Qed.

Lemma bslice_lookup_ge off n l i : n <= i -> bslice off n l !! i = None.
Proof. intros. unfold bslice. apply lookup_ge_None_2. rewrite length_take. lia. Qed.

Lemma bsplice_lookup off w l i :
  off + length w <= length l ->
  bsplice off w l !! i =
    if decide (off <= i < off + length w) then w !! (i - off) else l !! i.
Proof.
  intros Hlen. unfold bsplice. case_decide as Hi.
  - rewrite lookup_app_r by (rewrite length_take; lia).
    rewrite lookup_app_l by (rewrite length_take; lia).
    f_equal. rewrite length_take. lia.
  - destruct (decide (i < off)).
    + rewrite lookup_app_l by (rewrite length_take; lia).
      by rewrite lookup_take_lt.
    + rewrite lookup_app_r by (rewrite length_take; lia).
      rewrite lookup_app_r by (rewrite length_take; lia).
      rewrite lookup_drop, length_take. f_equal. lia.
Qed.

Lemma bslice_bsplice_same off w l :
  off + length w <= length l -> bslice off (length w) (bsplice off w l) = w.
Proof.
  intros. unfold bslice, bsplice.
  rewrite drop_app_length' by (rewrite length_take; lia).
  by rewrite take_app_length.
Qed.

Lemma bslice_bsplice_other off w l off' n :
  off + length w <= length l ->
  off' + n <= off \/ off + length w <= off' ->
  bslice off' n (bsplice off w l) = bslice off' n l.
Proof.
  intros Hl Hdis. apply list_eq. intros i.
  destruct (decide (i < n)).
  - rewrite !bslice_lookup, bsplice_lookup by done. case_decide; [lia|done].
  - by rewrite !bslice_lookup_ge by lia.
Qed.

Lemma bsplice_nil off l : off <= length l -> bsplice off [] l = l.
Proof. intros. unfold bsplice. simpl. rewrite Nat.add_0_r. apply take_drop. Qed.

Lemma bsplice_all w l : length w = length l -> bsplice 0 w l = w.
Proof.
  intros H. unfold bsplice. simpl. rewrite drop_ge by lia. by rewrite app_nil_r.
Qed.
End Splice.

(** Little-endian integers of [n] bytes, the byte order of every on-disk and
    in-memory integer of the program. *)
Fixpoint le_bytes (n : nat) (z : Z) : list Z :=
  match n with
  | O => []
  | S n' => z mod 256 :: le_bytes n' (z / 256)
  end.
Fixpoint le_val (l : list Z) : Z :=
  match l with
  | [] => 0
  | b :: l' => b + 256 * le_val l'
  end.
Definition is_byte (b : Z) : Prop := 0 <= b < 256.
Abbreviation bytes_ok := (Forall is_byte).

Lemma le_bytes_length n z : length (le_bytes n z) = n.
Proof. revert z. induction n; intros; simpl; auto. Qed.

Lemma le_bytes_ok n z : bytes_ok (le_bytes n z).
Proof.
  revert z. induction n; intros; simpl; constructor; auto.
  unfold is_byte. apply Z.mod_pos_bound. lia.
Qed.

Lemma le_val_bytes n z : le_val (le_bytes n z) = z mod 256 ^ Z.of_nat n.
Proof.
  revert z. induction n as [|n IH]; intros z.
  - simpl. by rewrite Z.mod_1_r.
  - cbn [le_bytes le_val]. rewrite IH, Nat2Z.inj_succ, Z.pow_succ_r by lia.
    rewrite Z.rem_mul_r; lia.
Qed.

Lemma le_val_range l : bytes_ok l -> 0 <= le_val l < 256 ^ Z.of_nat (length l).
Proof.
  induction 1 as [|b l Hb Hl IH]; [simpl; lia|].
  cbn [le_val length]. rewrite Nat2Z.inj_succ, Z.pow_succ_r by lia.
  unfold is_byte in Hb. nia.
Qed.

Lemma le_bytes_val l : bytes_ok l -> le_bytes (length l) (le_val l) = l.
Proof.
  induction 1 as [|b l Hb Hl IH]; [done|].
  cbn [le_val length le_bytes]. unfold is_byte in Hb. f_equal.
  - rewrite Z.mul_comm, Z_mod_plus_full. apply Z.mod_small. lia.
  - rewrite Z.mul_comm, Z.div_add by lia. rewrite Z.div_small by lia. by rewrite Z.add_0_l.
Qed.

(** Reading and writing a [ushort] and a [uint] inside a byte array. *)
Definition get16 (off : nat) (l : list Z) : Z := le_val (bslice off 2 l).
Definition get32 (off : nat) (l : list Z) : Z := le_val (bslice off 4 l).
Definition put16 (off : nat) (z : Z) (l : list Z) : list Z := bsplice off (le_bytes 2 z) l.
Definition put32 (off : nat) (z : Z) (l : list Z) : list Z := bsplice off (le_bytes 4 z) l.

Lemma le_val_bytes2 z : le_val (le_bytes 2 z) = u16 z.
Proof. rewrite le_val_bytes. done. Qed.
Lemma le_val_bytes4 z : le_val (le_bytes 4 z) = u32 z.
Proof. rewrite le_val_bytes. done. Qed.

Section GetPut.
Local Open Scope nat_scope.
Implicit Types (l : list Z) (off : nat).

Lemma put16_length off z l : off + 2 <= length l -> length (put16 off z l) = length l.
Proof. intros. apply bsplice_length. by rewrite le_bytes_length. Qed.
Lemma put32_length off z l : off + 4 <= length l -> length (put32 off z l) = length l.
Proof. intros. apply bsplice_length. by rewrite le_bytes_length. Qed.
Lemma get_put16 off z l : off + 2 <= length l -> get16 off (put16 off z l) = u16 z.
Proof.
  intros. rewrite <- le_val_bytes2. unfold get16, put16. f_equal.
  apply (bslice_bsplice_same off (le_bytes 2 z)). by rewrite le_bytes_length.
Qed.
Lemma get_put32 off z l : off + 4 <= length l -> get32 off (put32 off z l) = u32 z.
Proof.
  intros. rewrite <- le_val_bytes4. unfold get32, put32. f_equal.
  apply (bslice_bsplice_same off (le_bytes 4 z)). by rewrite le_bytes_length.
Qed.
Lemma get32_put32_ne off off' z l :
  off + 4 <= length l -> off' + 4 <= off \/ off + 4 <= off' ->
  get32 off' (put32 off z l) = get32 off' l.
Proof.
  intros. unfold get32, put32. f_equal.
  apply bslice_bsplice_other; rewrite le_bytes_length; lia.
Qed.
End GetPut.

Lemma bytes_ok_slice off n l : bytes_ok l -> bytes_ok (bslice off n l).
Proof. intros. by apply Forall_take, Forall_drop. Qed.
Lemma bytes_ok_check l : forallb (fun x => (0 <=? x) && (x <? 256)) l = true -> bytes_ok l.
Proof.
  intros H. apply Forall_forall. intros x Hx. rewrite forallb_forall in H. apply list_elem_of_In, H in Hx. unfold is_byte. lia.
Qed.
Lemma bytes_ok_splice off w l : bytes_ok w -> bytes_ok l -> bytes_ok (bsplice off w l).
Proof.
  intros. unfold bsplice. rewrite !Forall_app. split_and!; auto using Forall_take, Forall_drop.
Qed.
Lemma get32_range off l : bytes_ok l -> 0 <= get32 off l < 2 ^ 32.
Proof.
  intros H. unfold get32. pose proof (le_val_range _ (bytes_ok_slice off 4 l H)) as Hr.
  assert (length (bslice off 4 l) <= 4)%nat by (unfold bslice; rewrite length_take; lia).
  assert (256 ^ Z.of_nat (length (bslice off 4 l)) <= 256 ^ 4) by (apply Z.pow_le_mono_r; lia).
  change (2 ^ 32) with (256 ^ 4). lia.
Qed.

Create HintDb xv6.
Create Rewrite HintDb xv6_len.
#[export] Hint Resolve le_bytes_ok bytes_ok_slice bytes_ok_splice u8_range u16_range u32_range
  : xv6.
#[export] Hint Rewrite le_bytes_length put32_length put16_length bsplice_length using lia : xv6_len.

(** The C string in a buffer. *)
Fixpoint cstr (l : list Z) : list Z :=
  match l with c :: l' => if c =? 0 then [] else c :: cstr l' | [] => [] end.

Lemma cstr_all l : Forall (fun c => c <> 0) l -> cstr l = l.
Proof. induction 1 as [|c l Hc _ IH]; [done|]. simpl. destruct (Z.eqb_spec c 0); [done|]. by rewrite IH. Qed.
Lemma cstr_nul l t : Forall (fun c => c <> 0) l -> cstr (l ++ 0 :: t) = l.
Proof. induction 1 as [|c l Hc _ IH]; [done|]. simpl. destruct (Z.eqb_spec c 0); [done|]. by rewrite IH. Qed.

(** ** The flags of fcntl.h, which programs and kernel share *)

Definition O_RDONLY : Z := 0x000.
Definition O_WRONLY : Z := 0x001.
Definition O_RDWR : Z := 0x002.
Definition O_CREATE : Z := 0x200.
