(* ===== verification/Buf.v ===== *)
(** * Disk buffers and what the buffer cache needs from a disk driver

    [struct buf] (buf.h), the array [bcache.buf] with [bcache.head] behind it
    (bio.c), the in-memory log (log.c), and [BlockDevice], the interface that
    both disk drivers of the repository (ide.c, memide.c) implement. *)

From S2P Require Import Prelude.

(** ** param.h, fs.h, buf.h *)

Definition MAXOPBLOCKS : Z := 10.
Definition LOGSIZE : Z := MAXOPBLOCKS * 3.
Definition NBUF : Z := MAXOPBLOCKS * 3.
Definition FSSIZE : Z := 1000.
Definition BSIZE : Z := 512.
Abbreviation BSIZEn := 512%nat.

Definition B_BUSY : Z := 1.
Definition B_VALID : Z := 2.
Definition B_DIRTY : Z := 4.

(** The null pointer among buffer indices. *)
Definition NULLB : Z := -1.
(** [&bcache.head], the element behind the array [bcache.buf]. *)
Definition HEAD : Z := NBUF.

Record buf := mkBuf {
  b_flags : Z;
  b_dev : Z;
  b_blockno : Z;
  b_prev : Z;
  b_next : Z;
  b_qnext : Z;
  b_data : list Z
}.

Definition set_flags (f : Z) (b : buf) : buf :=
  mkBuf f (b_dev b) (b_blockno b) (b_prev b) (b_next b) (b_qnext b) (b_data b).
Definition set_key (d n f : Z) (b : buf) : buf :=
  mkBuf f d n (b_prev b) (b_next b) (b_qnext b) (b_data b).
Definition set_prev (p : Z) (b : buf) : buf :=
  mkBuf (b_flags b) (b_dev b) (b_blockno b) p (b_next b) (b_qnext b) (b_data b).
Definition set_next (n : Z) (b : buf) : buf :=
  mkBuf (b_flags b) (b_dev b) (b_blockno b) (b_prev b) n (b_qnext b) (b_data b).
Definition set_qnext (q : Z) (b : buf) : buf :=
  mkBuf (b_flags b) (b_dev b) (b_blockno b) (b_prev b) (b_next b) q (b_data b).
Definition set_data (d : list Z) (b : buf) : buf :=
  mkBuf (b_flags b) (b_dev b) (b_blockno b) (b_prev b) (b_next b) (b_qnext b) d.

Definition flag (f bit : Z) : bool := negb (Z.land f bit =? 0).
Definition busy (b : buf) : bool := flag (b_flags b) B_BUSY.
Definition valid (b : buf) : bool := flag (b_flags b) B_VALID.
Definition dirty (b : buf) : bool := flag (b_flags b) B_DIRTY.

(** ** log.c: [struct logheader] and [struct log] (its spinlock is in Spinlock.v) *)

Record logheader := mkLh { lh_n : Z; lh_block : list Z }.
Record log := mkLog {
  log_start : Z;
  log_size : Z;
  log_outstanding : Z;
  log_committing : Z;
  log_dev : Z;
  log_lh : logheader
}.

(** ** The state of the block layer

    [D] is the state of the disk driver.  [st_writes] is a history variable:
    the sectors [bwrite] has sent to the disk, oldest first. *)
Record bst (D : Type) := mkBst {
  st_bufs : list buf;
  st_drv : D;
  st_log : log;
  st_writes : list (Z * Z * list Z)
}.
Arguments mkBst {D}.
Arguments st_bufs {D}.
Arguments st_drv {D}.
Arguments st_log {D}.
Arguments st_writes {D}.

Section State.
Context {D : Type}.

Definition with_bufs (l : list buf) (s : bst D) : bst D :=
  mkBst l (st_drv s) (st_log s) (st_writes s).
Definition with_drv (d : D) (s : bst D) : bst D :=
  mkBst (st_bufs s) d (st_log s) (st_writes s).
Definition with_log (l : log) (s : bst D) : bst D :=
  mkBst (st_bufs s) (st_drv s) l (st_writes s).
Definition with_writes (w : list (Z * Z * list Z)) (s : bst D) : bst D :=
  mkBst (st_bufs s) (st_drv s) (st_log s) w.

(** [b->...] through a pointer: a null or wild index is undefined behaviour. *)
Definition getb (i : Z) : M (bst D) buf :=
  fun s => if i <? 0 then Fault "buf pointer" else
    match st_bufs s !! Z.to_nat i with
    | Some b => Done b s
    | None => Fault "buf pointer"
    end.
Definition updb (i : Z) (f : buf -> buf) : M (bst D) unit :=
  b <- getb i ;; modify (fun s => with_bufs (<[Z.to_nat i := f b]> (st_bufs s)) s).

(** The buffer at a valid index. *)
Definition buf_at (s : bst D) (i : Z) (b : buf) : Prop :=
  0 <= i /\ st_bufs s !! Z.to_nat i = Some b.

Lemma wp_getb i b Q (s : bst D) : buf_at s i b -> Q b s -> wp (getb i) Q s.
Proof.
  intros [Hi Hb] HQ. unfold wp, getb. destruct (Z.ltb_spec i 0); [lia|]. by rewrite Hb.
Qed.

Lemma wp_updb i b f (Q : unit -> bst D -> Prop) (s : bst D) :
  buf_at s i b -> Q tt (with_bufs (<[Z.to_nat i := f b]> (st_bufs s)) s) ->
  wp (updb i f) Q s.
Proof.
  intros Hb HQ. unfold updb. apply wp_bind. eapply wp_getb; [done|]. by apply wp_modify.
Qed.

Lemma buf_at_det (s : bst D) i b b' : buf_at s i b -> buf_at s i b' -> b = b'.
Proof. intros [? H] [? H']. congruence. Qed.

Lemma buf_at_upd_same (s : bst D) i b b' :
  buf_at s i b -> buf_at (with_bufs (<[Z.to_nat i := b']> (st_bufs s)) s) i b'.
Proof.
  intros [? H]. split; [done|]. simpl. apply list_lookup_insert_eq.
  by apply lookup_lt_Some in H.
Qed.

Lemma buf_at_upd_other (s : bst D) i j b' x :
  0 <= i -> i <> j ->
  buf_at (with_bufs (<[Z.to_nat i := b']> (st_bufs s)) s) j x <-> buf_at s j x.
Proof.
  intros Hi Hne. unfold buf_at. simpl. split; intros [? H]; split; try done.
  - rewrite list_lookup_insert_ne in H by lia. done.
  - by rewrite list_lookup_insert_ne by lia.
Qed.
End State.

(** ** Flag arithmetic *)

(** The flag word only ever holds the three bits of buf.h. *)
Definition flags_ok (f : Z) : Prop := 0 <= f < 8.

Lemma flags_cases f :
  flags_ok f -> f = 0 \/ f = 1 \/ f = 2 \/ f = 3 \/ f = 4 \/ f = 5 \/ f = 6 \/ f = 7.
Proof. unfold flags_ok. lia. Qed.

(** Decide a fact about a flag word by looking at its eight values. *)
Ltac flag_crush H :=
  apply flags_cases in H;
  repeat (destruct H as [H|H]); rewrite H; vm_compute; intuition (try done).

(** What a finished disk request leaves in the flags. *)
Definition synced (f : Z) : Z := Z.land (Z.lor f B_VALID) (Z.lnot B_DIRTY).

Lemma synced_busy f : flags_ok f -> flag f B_BUSY = true -> synced f = Z.lor B_BUSY B_VALID.
Proof. intros H. flag_crush H. Qed.

(** ** The disk driver interface

    What bio.c relies on from [iderw] (the comment in front of it in both
    drivers): a busy buffer is synchronised with the disk.  A dirty buffer is
    written and becomes clean; an invalid one is read; both end valid. *)
Definition upd_blk (p : Z -> Z -> list Z) (d n : Z) (x : list Z) : Z -> Z -> list Z :=
  fun d' n' => if decide (d' = d /\ n' = n) then x else p d' n'.

Definition blk_ok (x : list Z) : Prop := length x = BSIZEn /\ bytes_ok x.

(** A sector of zeroes. *)
Definition zero_blk : list Z := replicate BSIZEn 0.
Arguments zero_blk : simpl never.

Lemma zero_blk_ok : blk_ok zero_blk.
Proof. split; [done|]. by apply Forall_replicate. Qed.

(** The in-memory log is not touched. *)
Definition same_log {D} (s s' : bst D) : Prop := st_log s' = st_log s.
#[global] Instance same_log_preorder {D} : PreOrder (@same_log D).
Proof. split; [done|]. intros s1 s2 s3 H1 H2. unfold same_log in *. congruence. Qed.
Lemma moves_getb {D} (R : bst D -> bst D -> Prop) `{!PreOrder R} i : moves R (getb i).
Proof. intros s r s'. unfold getb. destruct (i <? 0); [done|]. destruct (st_bufs s !! Z.to_nat i); [|done]. by intros [= _ <-]. Qed.
Lemma same_log_updb {D} i f : moves (@same_log D) (updb i f).
Proof. apply moves_bind; [apply _|apply moves_getb, _|]. intros b. by apply moves_modify. Qed.
#[export] Hint Resolve moves_getb same_log_updb : moves.

Class BlockDevice (D : Type) := {
  iderw : Z -> M (bst D) unit;
  (** the driver has nothing to do with the log *)
  iderw_log : forall i, moves same_log (iderw i);
  (** the sector contents the device holds *)
  platter : D -> Z -> Z -> list Z;
  (** no request is in flight *)
  drv_idle : D -> Prop;
  (** the (device, block) pairs the driver serves *)
  drv_serves : D -> Z -> Z -> Prop;
  serves_dev : forall d x y, drv_serves d x y -> 0 <= x < 2 ^ 32 - 1;
  platter_ok : forall d x y, drv_idle d -> blk_ok (platter d x y);
  iderw_write : forall s i b,
    drv_idle (st_drv s) -> buf_at s i b -> i < NBUF -> flags_ok (b_flags b) ->
    busy b = true -> dirty b = true ->
    drv_serves (st_drv s) (b_dev b) (b_blockno b) -> blk_ok (b_data b) ->
    wp (iderw i) (fun _ s' => exists d' q,
      s' = with_bufs (<[Z.to_nat i := set_qnext q (set_flags (synced (b_flags b)) b)]> (st_bufs s))
             (with_drv d' s) /\
      drv_idle d' /\ (forall x y, drv_serves d' x y <-> drv_serves (st_drv s) x y) /\
      forall x y, platter d' x y =
                  upd_blk (platter (st_drv s)) (b_dev b) (b_blockno b) (b_data b) x y) s;
  iderw_read : forall s i b,
    drv_idle (st_drv s) -> buf_at s i b -> i < NBUF -> flags_ok (b_flags b) ->
    busy b = true -> dirty b = false -> valid b = false ->
    drv_serves (st_drv s) (b_dev b) (b_blockno b) ->
    wp (iderw i) (fun _ s' => exists d' q,
      s' = with_bufs (<[Z.to_nat i :=
             set_qnext q (set_data (platter (st_drv s) (b_dev b) (b_blockno b))
               (set_flags (synced (b_flags b)) b))]> (st_bufs s)) (with_drv d' s) /\
      drv_idle d' /\ (forall x y, drv_serves d' x y <-> drv_serves (st_drv s) x y) /\
      forall x y, platter d' x y = platter (st_drv s) x y) s
}.
