(* ===== verification/Ide.v ===== *)
(** * The two disk drivers: ide.c and memide.c

    ide.c talks to an ATA controller through port I/O.  The controller is a
    parameter ([IdeController]); its laws are the documented behaviour of
    single-sector LBA28 PIO transfers.  After a command the controller is busy
    for a while, and only its status register tells when it is not any more.  Both drivers are shown to implement
    [BlockDevice], the contract stated in the comment over [iderw].

    [sleep(b, &idelock)] in [iderw] returns after the interrupt handler has
    run: the model runs [ideintr] at that point. *)

From S2P Require Import Prelude Buf.

Module Ide.

Definition SECTOR_SIZE : Z := 512.
Definition IDE_BSY : Z := 0x80.
Definition IDE_DRDY : Z := 0x40.
Definition IDE_DF : Z := 0x20.
Definition IDE_ERR : Z := 0x01.
Definition IDE_CMD_READ : Z := 0x20.
Definition IDE_CMD_WRITE : Z := 0x30.

(** The registers of a command: sector count 1, the four LBA registers and the
    drive/head register. *)
Section Program.
Context {C : Type} (outb : Z -> Z -> C -> C).
Definition program (l0 l1 l2 dh : Z) (c : C) : C :=
  outb 0x1f6 dh (outb 0x1f5 l2 (outb 0x1f4 l1 (outb 0x1f3 l0 (outb 0x1f2 1 (outb 0x3f6 0 c))))).
End Program.

(** The sector and the drive that the four registers select. *)
Definition lba (l0 l1 l2 dh : Z) : Z := l0 + 2 ^ 8 * l1 + 2 ^ 16 * l2 + 2 ^ 24 * (dh mod 16).
Definition drive (dh : Z) : Z := Z.b2z (Z.testbit dh 4).

(** Polls of the status register before a stuck controller is given up. *)
Definition IDE_POLLS : nat := 1000.

(** [ctl_idle]: no transfer is going on, but the controller may still be busy with the last one.  [ctl_ready]: it takes commands.
    [ctl_reading]: it looks for a sector.  [ctl_data]: the data of the sector can be fetched.  [ctl_polls] bounds how often the
    status register says busy. *)
Class IdeController (C : Type) := {
  inb : Z -> C -> Z * C;
  outb : Z -> Z -> C -> C;
  outsl : Z -> list Z -> C -> C;
  insl : Z -> Z -> C -> list Z * C;
  sectors : C -> Z -> Z -> list Z;
  ctl_idle : C -> Prop;
  ctl_ready : C -> Prop;
  ctl_reading : C -> Z -> Z -> Prop;
  ctl_data : C -> Z -> Z -> Prop;
  ctl_polls : C -> nat;
  polls_bound : forall c, (ctl_polls c < IDE_POLLS)%nat;
  sectors_ok : forall c d n, ctl_idle c -> blk_ok (sectors c d n);
  status_idle : forall c, ctl_idle c ->
    let (v, c') := inb 0x1f7 c in
    sectors c' = sectors c /\
    (Z.land v (Z.lor IDE_BSY IDE_DRDY) = IDE_DRDY /\ ctl_ready c' \/
     Z.land v (Z.lor IDE_BSY IDE_DRDY) <> IDE_DRDY /\ ctl_idle c' /\ (ctl_polls c' < ctl_polls c)%nat);
  status_reading : forall c d n, ctl_reading c d n ->
    let (v, c') := inb 0x1f7 c in
    sectors c' = sectors c /\
    (Z.land v (Z.lor IDE_BSY IDE_DRDY) = IDE_DRDY /\ Z.land v (Z.lor IDE_DF IDE_ERR) = 0 /\ ctl_data c' d n \/
     Z.land v (Z.lor IDE_BSY IDE_DRDY) <> IDE_DRDY /\ ctl_reading c' d n /\ (ctl_polls c' < ctl_polls c)%nat);
  ata_write : forall c l0 l1 l2 dh x,
    ctl_ready c -> is_byte l0 -> is_byte l1 -> is_byte l2 -> is_byte dh -> blk_ok x ->
    let c' := outsl 0x1f0 x (outb 0x1f7 IDE_CMD_WRITE (program outb l0 l1 l2 dh c)) in
    ctl_idle c' /\
    forall d n, sectors c' d n = upd_blk (sectors c) (drive dh) (lba l0 l1 l2 dh) x d n;
  ata_read : forall c l0 l1 l2 dh,
    ctl_ready c -> is_byte l0 -> is_byte l1 -> is_byte l2 -> is_byte dh ->
    let c' := outb 0x1f7 IDE_CMD_READ (program outb l0 l1 l2 dh c) in
    ctl_reading c' (drive dh) (lba l0 l1 l2 dh) /\ sectors c' = sectors c;
  ata_data : forall c d n, ctl_data c d n ->
    fst (insl 0x1f0 (BSIZE / 4) c) = sectors c d n /\
    ctl_idle (snd (insl 0x1f0 (BSIZE / 4) c)) /\
    sectors (snd (insl 0x1f0 (BSIZE / 4) c)) = sectors c
}.

(** ide.c's static variables, and the controller. *)
Record ide (C : Type) := mkIde { idequeue : Z; havedisk1 : Z; ctl : C }.
Arguments mkIde {C}.
Arguments idequeue {C}.
Arguments havedisk1 {C}.
Arguments ctl {C}.

Section Driver.
Context {C : Type} `{IdeController C}.
Abbreviation st := (bst (ide C)).

Definition set_queue (q : Z) : M st unit :=
  modify (fun s => with_drv (mkIde q (havedisk1 (st_drv s)) (ctl (st_drv s))) s).
Definition set_ctl (c : C) (s : st) : st :=
  with_drv (mkIde (idequeue (st_drv s)) (havedisk1 (st_drv s)) c) s.
Definition p_inb (port : Z) : M st Z :=
  fun s => let (v, c) := inb port (ctl (st_drv s)) in Done v (set_ctl c s).
Definition p_outb (port v : Z) : M st unit :=
  modify (fun s => set_ctl (outb port (u8 v) (ctl (st_drv s))) s).
Definition p_outsl (port : Z) (x : list Z) : M st unit :=
  modify (fun s => set_ctl (outsl port x (ctl (st_drv s))) s).
Definition p_insl (port cnt : Z) : M st (list Z) :=
  fun s => let (x, c) := insl port cnt (ctl (st_drv s)) in Done x (set_ctl c s).

Fixpoint idewait_loop (fuel : nat) : M st Z :=
  match fuel with
  | O => nofuel
  | S fuel' =>
      r <- p_inb 0x1f7 ;;
      if Z.land r (Z.lor IDE_BSY IDE_DRDY) =? IDE_DRDY then ret r else idewait_loop fuel'
  end.

Definition idewait (checkerr : Z) : M st Z :=
  r <- idewait_loop IDE_POLLS ;;
  if negb (checkerr =? 0) && negb (Z.land r (Z.lor IDE_DF IDE_ERR) =? 0)
  then ret (-1) else ret 0.

Definition idestart (i : Z) : M st unit :=
  if i =? NULLB then panic "idestart" else
  b <- getb i ;;
  if b_blockno b >=? FSSIZE * 4 then panic "incorrect blockno" else
  let sector_per_block := BSIZE / SECTOR_SIZE in
  let sector := s32 (b_blockno b * sector_per_block) in
  if sector_per_block >? 7 then panic "idestart" else
  idewait 0 ;;;
  p_outb 0x3f6 0 ;;;
  p_outb 0x1f2 sector_per_block ;;;
  p_outb 0x1f3 (Z.land sector 0xff) ;;;
  p_outb 0x1f4 (Z.land (Z.shiftr sector 8) 0xff) ;;;
  p_outb 0x1f5 (Z.land (Z.shiftr sector 16) 0xff) ;;;
  p_outb 0x1f6 (Z.lor (Z.lor 0xe0 (Z.shiftl (Z.land (b_dev b) 1) 4))
                      (Z.land (Z.shiftr sector 24) 0x0f)) ;;;
  if dirty b then
    p_outb 0x1f7 IDE_CMD_WRITE ;;; p_outsl 0x1f0 (b_data b)
  else p_outb 0x1f7 IDE_CMD_READ.

Definition ideintr : M st unit :=
  q <- gets (fun s : st => idequeue (st_drv s)) ;;
  if q =? NULLB then ret tt else
  b <- getb q ;;
  set_queue (b_qnext b) ;;;
  (if negb (dirty b) then
     r <- idewait 1 ;;
     if r >=? 0 then x <- p_insl 0x1f0 (BSIZE / 4) ;; updb q (set_data x) else ret tt
   else ret tt) ;;;
  updb q (fun b => set_flags (Z.lor (b_flags b) B_VALID) b) ;;;
  updb q (fun b => set_flags (Z.land (b_flags b) (Z.lnot B_DIRTY)) b) ;;;
  q' <- gets (fun s : st => idequeue (st_drv s)) ;;
  if negb (q' =? NULLB) then idestart q' else ret tt.

(** The loop that walks the [qnext] chain to its last link, from a non-null element. *)
Fixpoint queue_last (fuel : nat) (p : Z) : M st Z :=
  match fuel with
  | O => nofuel
  | S fuel' =>
      b <- getb p ;;
      if b_qnext b =? NULLB then ret p else queue_last fuel' (b_qnext b)
  end.

Definition queue_append (i : Z) : M st unit :=
  updb i (set_qnext NULLB) ;;;
  q <- gets (fun s : st => idequeue (st_drv s)) ;;
  if q =? NULLB then set_queue i
  else t <- queue_last (S (Z.to_nat NBUF)) q ;; updb t (set_qnext i).

(** [iderw] up to its first sleep. *)
Definition iderw_submit (i : Z) : M st unit :=
  b <- getb i ;;
  if negb (busy b) then panic "iderw: buf not busy" else
  if Z.land (b_flags b) (Z.lor B_VALID B_DIRTY) =? B_VALID then panic "iderw: nothing to do" else
  have <- gets (fun s : st => havedisk1 (st_drv s)) ;;
  if negb (b_dev b =? 0) && (have =? 0) then panic "iderw: ide disk 1 not present" else
  queue_append i ;;;
  q <- gets (fun s : st => idequeue (st_drv s)) ;;
  if q =? i then idestart i else ret tt.

Fixpoint iderw_wait (fuel : nat) (i : Z) : M st unit :=
  b <- getb i ;;
  if negb (Z.land (b_flags b) (Z.lor B_VALID B_DIRTY) =? B_VALID) then
    match fuel with
    | O => nofuel
    | S fuel' => ideintr ;;; iderw_wait fuel' i
    end
  else ret tt.

(** Every buffer can be queued, so [NBUF] interrupts serve any request. *)
Definition ide_rw (i : Z) : M st unit :=
  iderw_submit i ;;; iderw_wait (Z.to_nat NBUF) i.

(** *** The request on an idle queue *)

Lemma shiftr_land_byte n k : 0 <= k -> Z.land (Z.shiftr n k) 0xff = (n / 2 ^ k) mod 2 ^ 8.
Proof.
  intros. change 0xff with (Z.ones 8). rewrite Z.land_ones by lia. by rewrite Z.shiftr_div_pow2.
Qed.

(** The register values [idestart] computes for a block of a drive. *)
Definition reg0 (n : Z) : Z := u8 (Z.land n 0xff).
Definition reg1 (n : Z) : Z := u8 (Z.land (Z.shiftr n 8) 0xff).
Definition reg2 (n : Z) : Z := u8 (Z.land (Z.shiftr n 16) 0xff).
Definition regdh (d n : Z) : Z :=
  u8 (Z.lor (Z.lor 0xe0 (Z.shiftl (Z.land d 1) 4)) (Z.land (Z.shiftr n 24) 0x0f)).

Lemma regs_select d n :
  0 <= n < FSSIZE * 4 -> d = 0 \/ d = 1 ->
  lba (reg0 n) (reg1 n) (reg2 n) (regdh d n) = n /\ drive (regdh d n) = d.
Proof.
  unfold FSSIZE. intros Hn Hd.
  assert (regdh d n = if decide (d = 0) then 0xe0 else 0xf0) as Hdh.
  { unfold regdh. rewrite (Z.shiftr_div_pow2 n 24), (Z.div_small n (2 ^ 24)) by lia.
    by destruct Hd as [->| ->]. }
  split; [|by rewrite Hdh; destruct Hd as [->| ->]].
  unfold lba. replace (regdh d n mod 16) with 0 by (rewrite Hdh; by case_decide).
  unfold reg0, reg1, reg2. rewrite !shiftr_land_byte by lia.
  change 0xff with (Z.ones 8). rewrite Z.land_ones by lia. unfold u8.
  change (2 ^ 24) with 16777216. zlia.
Qed.

Lemma regs_bytes d n :
  is_byte (reg0 n) /\ is_byte (reg1 n) /\ is_byte (reg2 n) /\ is_byte (regdh d n).
Proof. split_and!; apply u8_range. Qed.

Lemma wp_idewait0 (s : st) (Q : Z -> st -> Prop) :
  ctl_idle (ctl (st_drv s)) ->
  (forall c, ctl_ready c -> sectors c = sectors (ctl (st_drv s)) -> Q 0 (set_ctl c s)) ->
  wp (idewait 0) Q s.
Proof.
  intros Hi HQ. unfold idewait. apply wp_bind. pose proof (polls_bound (ctl (st_drv s))) as Hf. revert Hf. generalize IDE_POLLS as fuel.
  intros fuel. revert s Hi HQ. induction fuel as [|fuel IH]; intros s Hi HQ Hf; [lia|]. cbn [idewait_loop].
  apply wp_bind. unfold wp at 1, p_inb. pose proof (status_idle _ Hi) as Hs.
  destruct (inb 0x1f7 (ctl (st_drv s))) as [v c]. destruct Hs as [Es [[Hr Hc]|(Hr & Hc & Hp)]].
  - rewrite Hr, Z.eqb_refl. by apply wp_ret, wp_ret, HQ.
  - rewrite (proj2 (Z.eqb_neq _ _) Hr). apply IH; [done| |simpl; lia]. intros c' Hc' Es'. apply (HQ c'); [done|]. rewrite <- Es. exact Es'.
Qed.

Lemma wp_idewait1 (s : st) d n (Q : Z -> st -> Prop) :
  ctl_reading (ctl (st_drv s)) d n ->
  (forall c, ctl_data c d n -> sectors c = sectors (ctl (st_drv s)) -> Q 0 (set_ctl c s)) ->
  wp (idewait 1) Q s.
Proof.
  intros Hi HQ. unfold idewait. apply wp_bind. pose proof (polls_bound (ctl (st_drv s))) as Hf. revert Hf. generalize IDE_POLLS as fuel.
  intros fuel. revert s Hi HQ. induction fuel as [|fuel IH]; intros s Hi HQ Hf; [lia|]. cbn [idewait_loop].
  apply wp_bind. unfold wp at 1, p_inb. pose proof (status_reading _ _ _ Hi) as Hs.
  destruct (inb 0x1f7 (ctl (st_drv s))) as [v c]. destruct Hs as [Es [(Hr & He & Hc)|(Hr & Hc & Hp)]].
  - rewrite Hr, Z.eqb_refl. apply wp_ret. rewrite He. by apply wp_ret, HQ.
  - rewrite (proj2 (Z.eqb_neq _ _) Hr). apply IH; [done| |simpl; lia]. intros c' Hc' Es'. apply (HQ c'); [done|]. rewrite <- Es. exact Es'.
Qed.

(** [idestart] on a served block: the sector is written, or its data is ready. *)
Lemma wp_idestart (s : st) i b (Q : unit -> st -> Prop) :
  i <> NULLB -> buf_at s i b -> ctl_idle (ctl (st_drv s)) ->
  0 <= b_blockno b < FSSIZE * 4 -> b_dev b = 0 \/ b_dev b = 1 -> blk_ok (b_data b) \/ dirty b = false ->
  (forall c,
    (if dirty b then
       ctl_idle c /\ forall d n, sectors c d n =
         upd_blk (sectors (ctl (st_drv s))) (b_dev b) (b_blockno b) (b_data b) d n
     else ctl_reading c (b_dev b) (b_blockno b) /\ sectors c = sectors (ctl (st_drv s))) ->
    Q tt (set_ctl c s)) ->
  wp (idestart i) Q s.
Proof.
  intros Hi Hb Hc Hn Hd Hx HQ. unfold idestart. destruct (Z.eqb_spec i NULLB) as [|_]; [done|].
  apply wp_bind. eapply wp_getb; [done|].
  destruct (Z.geb_spec (b_blockno b) (FSSIZE * 4)); [lia|].
  change (BSIZE / SECTOR_SIZE) with 1. cbv zeta. change (1 >? 7) with false. cbv iota.
  apply wp_bind, wp_idewait0; [done|]. intros c1 Hc1 Hs1.
  rewrite Z.mul_1_r. rewrite s32_small by (unfold FSSIZE in *; lia).
  do 6 (apply wp_bind; unfold p_outb at 1; apply wp_modify).
  destruct (regs_bytes (b_dev b) (b_blockno b)) as (B0 & B1 & B2 & Bd).
  destruct (regs_select (b_dev b) (b_blockno b)) as [El Ed]; [done..|].
  destruct (dirty b) eqn:Edirty.
  - destruct Hx as [Hx|?]; [|done].
    apply wp_bind. unfold p_outb, p_outsl. apply wp_modify, wp_modify.
    destruct (ata_write c1 _ _ _ _ (b_data b) Hc1 B0 B1 B2 Bd Hx) as [Hc2 Hs2].
    rewrite El, Ed in Hs2.
    apply HQ. split; [exact Hc2|]. intros d n. rewrite Hs1 in Hs2. exact (Hs2 d n).
  - unfold p_outb. apply wp_modify.
    destruct (ata_read c1 _ _ _ _ Hc1 B0 B1 B2 Bd) as [Hc2 Hs2].
    rewrite El, Ed in Hc2.
    apply HQ. split; [exact Hc2|]. rewrite <- Hs1. exact Hs2.
Qed.

(** *** The request queue *)

(** A request the driver accepts and can complete. *)
Definition request_ok (have : Z) (b : buf) : Prop :=
  flags_ok (b_flags b) /\ busy b = true /\ (dirty b = true \/ valid b = false) /\
  (dirty b = true -> blk_ok (b_data b)) /\
  0 <= b_blockno b < FSSIZE * 4 /\ (b_dev b = 0 \/ b_dev b = 1 /\ have <> 0).

Lemma request_not_synced have b :
  request_ok have b -> Z.land (b_flags b) (Z.lor B_VALID B_DIRTY) <> B_VALID.
Proof.
  intros (Hf & Hb & Hdv & _). revert Hb Hdv. unfold busy, dirty, valid. flag_crush Hf.
Qed.

(** The chain through [qnext] that starts at [p] is the list [q]. *)
Fixpoint chain (l : list buf) (p : Z) (q : list Z) : Prop :=
  match q with
  | [] => p = NULLB
  | i :: q' => p = i /\ 0 <= i < NBUF /\
               exists b, l !! Z.to_nat i = Some b /\ chain l (b_qnext b) q'
  end.

(** The controller, when [q] is queued and the sectors are [sec] apart from
    the effect of the first request, which has been started. *)
Definition started (c : C) (l : list buf) (q : list Z) (sec : Z -> Z -> list Z) : Prop :=
  match q with
  | [] => ctl_idle c /\ forall d n, sectors c d n = sec d n
  | i :: _ => exists b, l !! Z.to_nat i = Some b /\
      if dirty b
      then ctl_idle c /\ forall d n, sectors c d n = upd_blk sec (b_dev b) (b_blockno b) (b_data b) d n
      else ctl_reading c (b_dev b) (b_blockno b) /\ forall d n, sectors c d n = sec d n
  end.

Record ide_rep (s : st) (q : list Z) (sec : Z -> Z -> list Z) : Prop := {
  rep_chain : chain (st_bufs s) (idequeue (st_drv s)) q;
  rep_nodup : NoDup q;
  rep_reqs : forall i, i ∈ q -> exists b, st_bufs s !! Z.to_nat i = Some b /\
                                   request_ok (havedisk1 (st_drv s)) b;
  rep_ctl : started (ctl (st_drv s)) (st_bufs s) q sec
}.

(** What serving a request does to its buffer and to the sectors. *)
Definition served (sec : Z -> Z -> list Z) (b : buf) : buf :=
  if dirty b then set_flags (synced (b_flags b)) b
  else set_data (sec (b_dev b) (b_blockno b)) (set_flags (synced (b_flags b)) b).
Definition serve (sec : Z -> Z -> list Z) (b : buf) : Z -> Z -> list Z :=
  if dirty b then upd_blk sec (b_dev b) (b_blockno b) (b_data b) else sec.

Lemma chain_frame l p q i b b' :
  chain l p q -> l !! Z.to_nat i = Some b -> 0 <= i ->
  (i ∈ q -> b_qnext b' = b_qnext b) ->
  chain (<[Z.to_nat i := b']> l) p q.
Proof.
  intros Hc Hl Hi. revert p Hc. induction q as [|j q IH]; intros p; simpl; [done|].
  intros (-> & Hj & x & Hx & Hc) Hq. split; [done|]. split; [done|].
  destruct (decide (i = j)) as [->|Hne].
  - exists b'. rewrite list_lookup_insert_eq by by apply lookup_lt_Some in Hl.
    split; [done|]. rewrite Hq by set_solver. rewrite Hl in Hx. injection Hx as <-.
    apply IH; [done|set_solver].
  - exists x. rewrite list_lookup_insert_ne by lia. split; [done|].
    apply IH; [done|set_solver].
Qed.

Lemma chain_elem l p q i : chain l p q -> i ∈ q -> 0 <= i < NBUF.
Proof.
  revert p. induction q as [|j q IH]; intros p; [set_solver|].
  intros (-> & Hj & x & Hx & Hc) [->|Hi]%elem_of_cons; [done|eauto].
Qed.

(** The data transfer at the start of the interrupt handler. *)
Definition transferred (sec : Z -> Z -> list Z) (b : buf) : buf :=
  if dirty b then b else set_data (sec (b_dev b) (b_blockno b)) b.

Lemma wp_transfer (s : st) i b sec :
  buf_at s i b ->
  (if dirty b
   then ctl_idle (ctl (st_drv s)) /\
        forall d n, sectors (ctl (st_drv s)) d n = upd_blk sec (b_dev b) (b_blockno b) (b_data b) d n
   else ctl_reading (ctl (st_drv s)) (b_dev b) (b_blockno b) /\
        forall d n, sectors (ctl (st_drv s)) d n = sec d n) ->
  wp (if negb (dirty b) then
        r <- idewait 1 ;;
        if r >=? 0 then x <- p_insl 0x1f0 (BSIZE / 4) ;; updb i (set_data x) else ret tt
      else ret tt) (fun _ s' => exists c,
    s' = with_bufs (<[Z.to_nat i := transferred sec b]> (st_bufs s)) (set_ctl c s) /\
    ctl_idle c /\ forall d n, sectors c d n = serve sec b d n) s.
Proof.
  intros [Hi Hb] Hctl. unfold transferred, serve. destruct (dirty b) eqn:Ed; simpl.
  - apply wp_ret. exists (ctl (st_drv s)). rewrite list_insert_id by done.
    split; [|done]. unfold set_ctl, with_bufs, with_drv. by destruct s as [? [] ? ?].
  - destruct Hctl as [Hcd Hsec].
    apply wp_bind. apply (wp_idewait1 s (b_dev b) (b_blockno b)); [done|].
    intros c1 Hc1 Hs1. simpl. apply wp_bind. unfold wp at 1, p_insl.
    destruct (ata_data c1 _ _ Hc1) as (Hx & Hid & Hs2). simpl.
    destruct (insl 0x1f0 (BSIZE / 4) c1) as [x c2]. simpl in *.
    eapply wp_updb; [split; [lia|exact Hb]|]. exists c2. split_and!; [|done|].
    + rewrite Hx, Hs1. simpl. rewrite Hsec. done.
    + intros. rewrite Hs2, Hs1. apply Hsec.
Qed.

(** One interrupt completes the oldest request and starts the next one. *)
Lemma ideintr_serves (s : st) i q sec b :
  ide_rep s (i :: q) sec -> st_bufs s !! Z.to_nat i = Some b ->
  wp ideintr (fun _ s' =>
    ide_rep s' q (serve sec b) /\ st_bufs s' = <[Z.to_nat i := served sec b]> (st_bufs s) /\
    havedisk1 (st_drv s') = havedisk1 (st_drv s) /\
    st_log s' = st_log s /\ st_writes s' = st_writes s) s.
Proof.
  intros [Hch Hnd Hrq Hctl] Hb. destruct Hch as (Hq & Hi & b0 & Hb0 & Hch).
  rewrite Hb in Hb0. injection Hb0 as <-.
  destruct Hctl as (b0 & Hb0 & Hctl). rewrite Hb in Hb0. injection Hb0 as <-.
  apply NoDup_cons in Hnd as [Hniq Hnd].
  destruct (Hrq i) as (b0 & Hb0 & Hok); [set_solver|]. rewrite Hb in Hb0. injection Hb0 as <-.
  unfold ideintr. apply wp_bind, wp_gets. rewrite Hq.
  destruct (Z.eqb_spec i NULLB) as [->|_]; [unfold NULLB in Hi; lia|].
  assert (Hat : buf_at s i b) by (by split; [lia|]).
  apply wp_bind. eapply wp_getb; [done|].
  apply wp_bind. unfold set_queue. apply wp_modify.
  set (s1 := with_drv _ s).
  apply wp_bind. eapply wp_mono; [apply (wp_transfer s1 i b sec); done|].
  intros [] s2 (c & -> & Hidle & Hsec).
  assert (Hat1 : forall x (t : st), st_bufs t = <[Z.to_nat i := x]> (st_bufs s) ->
            buf_at t i x).
  { intros x t Ht. split; [lia|]. rewrite Ht. apply list_lookup_insert_eq.
    by apply lookup_lt_Some in Hb. }
  apply wp_bind. eapply wp_updb; [by apply Hat1|].
  apply wp_bind. eapply wp_updb; [apply Hat1; simpl; by rewrite list_insert_insert_eq|].
  apply wp_bind, wp_gets.
  set (s3 := with_bufs _ _).
  assert (Hs3 : st_bufs s3 = <[Z.to_nat i := served sec b]> (st_bufs s)).
  { unfold s3. simpl. rewrite !list_insert_insert_eq. f_equal.
    unfold served, transferred. by destruct (dirty b). }
  assert (Hch3 : chain (st_bufs s3) (b_qnext b) q).
  { rewrite Hs3. apply (chain_frame _ _ _ i b); [done|done|lia|set_solver]. }
  assert (Hrq3 : forall j, j ∈ q -> exists x, st_bufs s3 !! Z.to_nat j = Some x /\
            st_bufs s !! Z.to_nat j = Some x /\ request_ok (havedisk1 (st_drv s)) x).
  { intros j Hj. destruct (Hrq j) as (x & Hx & Hxok); [set_solver|]. exists x.
    rewrite Hs3. pose proof (chain_elem _ _ _ _ Hch Hj).
    rewrite list_lookup_insert_ne; [done|]. assert (i <> j) by set_solver. lia. }
  change (idequeue (st_drv s3)) with (b_qnext b).
  destruct q as [|j q].
  - simpl in Hch. rewrite Hch. simpl. apply wp_ret. split_and!; try done.
    constructor; [by simpl; rewrite <- Hch|constructor|set_solver|].
    simpl. split; [exact Hidle|]. intros. by rewrite Hsec.
  - destruct Hch3 as (Ej & Hj & x & Hx & Hch3). rewrite Ej.
    destruct (Z.eqb_spec j NULLB) as [->|Hjn]; [unfold NULLB in Hj; lia|]. simpl.
    destruct (Hrq3 j) as (y & Hy & Hy' & Hyok); [set_solver|].
    rewrite Hx in Hy. injection Hy as <-.
    pose proof Hyok as (Hf & Hbz & Hdv & Hdat & Hbn & Hdev).
    apply (wp_idestart _ j x); [done|by split; [lia|]|exact Hidle|done|naive_solver| |].
    { destruct (dirty x); [left; by apply Hdat|by right]. }
    intros c' Hc'. split_and!; try done. constructor.
    + simpl. split; [done|]. split; [done|]. by exists x.
    + done.
    + intros k Hk. destruct (Hrq3 k Hk) as (z & Hz & _ & ?). exists z. done.
    + simpl. exists x. split; [done|]. destruct (dirty x).
      * destruct Hc' as [? Hc']. split; [done|]. intros d n. rewrite Hc'. simpl.
        unfold upd_blk. case_decide; [done|]. apply Hsec.
      * destruct Hc' as [? Hc']. split; [done|]. intros d n. rewrite Hc'. apply Hsec.
Qed.

Lemma queue_short q : NoDup q -> (forall i, i ∈ q -> 0 <= i < NBUF) -> (length q <= Z.to_nat NBUF)%nat.
Proof.
  intros Hnd Hr. rewrite <- (length_seqZ 0 NBUF). apply submseteq_length.
  apply NoDup_submseteq; [done|]. intros i Hi. apply elem_of_seqZ. apply Hr in Hi. lia.
Qed.

Lemma wp_queue_last fuel (s : st) p q j (Q : Z -> st -> Prop) :
  chain (st_bufs s) p (q ++ [j]) -> (length q < fuel)%nat -> Q j s ->
  wp (queue_last fuel p) Q s.
Proof.
  revert p q. induction fuel as [|fuel IH]; intros p q Hch Hlen HQ; [lia|].
  cbn [queue_last]. apply wp_bind.
  destruct q as [|k q]; simpl in Hch.
  - destruct Hch as (-> & Hj & b & Hb & Hn).
    eapply wp_getb; [split; [lia|done]|]. rewrite Hn. by apply wp_ret.
  - destruct Hch as (-> & Hk & b & Hb & Hch).
    eapply wp_getb; [split; [lia|done]|].
    destruct (Z.eqb_spec (b_qnext b) NULLB) as [E|E].
    + exfalso. rewrite E in Hch. unfold NULLB in Hch.
      destruct q; simpl in Hch; naive_solver lia.
    + apply (IH _ q); [done|simpl in Hlen; lia|done].
Qed.

Lemma chain_snoc l p q j i bj bi :
  chain l p (q ++ [j]) -> NoDup (q ++ [j]) -> i ∉ q ++ [j] ->
  0 <= i < NBUF -> l !! Z.to_nat j = Some bj ->
  l !! Z.to_nat i = Some bi -> b_qnext bi = NULLB ->
  chain (<[Z.to_nat j := set_qnext i bj]> l) p ((q ++ [j]) ++ [i]).
Proof.
  intros Hch Hnd Hni Hi Hj Hb Hn. revert p Hch Hnd Hni.
  induction q as [|k q IH]; intros p Hch Hnd Hni; simpl in *.
  - destruct Hch as (-> & Hjr & b & Hb' & _). split; [done|]. split; [done|].
    exists (set_qnext i bj). rewrite list_lookup_insert_eq by by apply lookup_lt_Some in Hj.
    split; [done|]. simpl. split; [done|]. split; [done|]. exists bi.
    rewrite list_lookup_insert_ne; [done|]. assert (j <> i) by set_solver. lia.
  - destruct Hch as (-> & Hk & b & Hb' & Hch). apply NoDup_cons in Hnd as [Hkn Hnd].
    split; [done|]. split; [done|]. exists b.
    pose proof (chain_elem _ _ _ j Hch ltac:(set_solver)).
    rewrite list_lookup_insert_ne by (assert (j <> k) by set_solver; lia).
    split; [done|]. apply IH; set_solver.
Qed.

Lemma wp_queue_append (s : st) q i b (Q : unit -> st -> Prop) :
  chain (st_bufs s) (idequeue (st_drv s)) q -> NoDup q -> i ∉ q -> 0 <= i < NBUF ->
  st_bufs s !! Z.to_nat i = Some b ->
  (forall s',
     chain (st_bufs s') (idequeue (st_drv s')) (q ++ [i]) ->
     (idequeue (st_drv s') = i <-> q = []) ->
     havedisk1 (st_drv s') = havedisk1 (st_drv s) -> ctl (st_drv s') = ctl (st_drv s) ->
     st_log s' = st_log s -> st_writes s' = st_writes s ->
     st_bufs s' !! Z.to_nat i = Some (set_qnext NULLB b) ->
     (forall n x, n <> Z.to_nat i -> st_bufs s !! n = Some x ->
        exists y, st_bufs s' !! n = Some (set_qnext y x)) ->
     (q = [] -> st_bufs s' = <[Z.to_nat i := set_qnext NULLB b]> (st_bufs s)) ->
     Q tt s') ->
  wp (queue_append i) Q s.
Proof.
  intros Hch Hnd Hni Hi Hb HQ. unfold queue_append.
  apply wp_bind. eapply wp_updb; [split; [lia|done]|].
  set (s1 := with_bufs _ s). pose proof (lookup_lt_Some _ _ _ Hb) as Hlt.
  assert (Hb1 : st_bufs s1 !! Z.to_nat i = Some (set_qnext NULLB b))
    by (by apply list_lookup_insert_eq).
  assert (Hch1 : chain (st_bufs s1) (idequeue (st_drv s1)) q)
    by (apply (chain_frame _ _ _ _ b); [done|done|lia|done]).
  assert (Hframe : forall n x, n <> Z.to_nat i -> st_bufs s !! n = Some x ->
      exists y, st_bufs s1 !! n = Some (set_qnext y x)).
  { intros n x Hn Hx. exists (b_qnext x). simpl. rewrite list_lookup_insert_ne by done.
    rewrite Hx. by destruct x. }
  apply wp_bind, wp_gets.
  destruct q as [|j q _] using rev_ind.
  - cbn [chain] in Hch1. rewrite Hch1, Z.eqb_refl. unfold set_queue. apply wp_modify.
    apply HQ; try done; simpl; eauto 8.
  - destruct (Z.eqb_spec (idequeue (st_drv s1)) NULLB) as [E|E].
    { exfalso. rewrite E in Hch1. unfold NULLB in Hch1. destruct q; simpl in Hch1; naive_solver lia. }
    pose proof (chain_elem _ _ _ j Hch1 ltac:(set_solver)) as Hj.
    assert (Hji : i <> j) by set_solver.
    apply wp_bind. eapply wp_queue_last; [exact Hch1| |].
    { pose proof (queue_short _ Hnd (fun k Hk => chain_elem _ _ _ k Hch1 Hk)) as Hs.
      rewrite length_app in Hs. simpl in Hs. lia. }
    assert (exists bj, st_bufs s1 !! Z.to_nat j = Some bj) as [bj Hbj].
    { clear -Hch1. revert Hch1. generalize (idequeue (st_drv s1)).
      induction q; simpl; naive_solver. }
    eapply wp_updb; [split; [lia|done]|].
    assert (Z.to_nat j <> Z.to_nat i) by lia.
    apply HQ; try done.
    + apply chain_snoc with (bi := set_qnext NULLB b); done.
    + split; [|by destruct q]. intros Eq. exfalso. simpl in Eq, Hch1. rewrite Eq in Hch1.
      destruct q; simpl in Hch1; set_solver.
    + simpl. by rewrite list_lookup_insert_ne.
    + intros n x Hn Hx. simpl. destruct (Hframe n x Hn Hx) as [y Hy].
      destruct (decide (n = Z.to_nat j)) as [->|Hnj].
      * exists i. rewrite list_lookup_insert_eq; [|by apply lookup_lt_Some in Hbj].
        rewrite Hbj in Hy. injection Hy as ->. done.
      * exists y. by rewrite list_lookup_insert_ne.
    + by destruct q.
Qed.

Lemma request_ok_qnext have y b : request_ok have b -> request_ok have (set_qnext y b).
Proof. done. Qed.

(** Submitting a request appends it to the queue, and starts it when it is alone. *)
Lemma submit_queues (s : st) q sec i b :
  ide_rep s q sec -> i ∉ q -> 0 <= i < NBUF -> st_bufs s !! Z.to_nat i = Some b ->
  request_ok (havedisk1 (st_drv s)) b ->
  wp (iderw_submit i) (fun _ s' =>
    ide_rep s' (q ++ [i]) sec /\ st_bufs s' !! Z.to_nat i = Some (set_qnext NULLB b) /\
    (q = [] -> st_bufs s' = <[Z.to_nat i := set_qnext NULLB b]> (st_bufs s)) /\
    havedisk1 (st_drv s') = havedisk1 (st_drv s) /\
    st_log s' = st_log s /\ st_writes s' = st_writes s) s.
Proof.
  intros [Hch Hnd Hrq Hctl] Hni Hi Hb Hok. unfold iderw_submit.
  apply wp_bind. eapply wp_getb; [split; [lia|done]|].
  pose proof (request_not_synced _ _ Hok) as Hns.
  pose proof Hok as (Hf & Hbz & Hdv & Hdat & Hbn & Hdev).
  rewrite Hbz. change (negb true) with false. cbv iota. destruct (Z.eqb_spec (Z.land (b_flags b) (Z.lor B_VALID B_DIRTY)) B_VALID); [done|].
  apply wp_bind, wp_gets.
  replace (_ && _) with false; cbv iota.
  2:{ symmetry. apply andb_false_iff. rewrite Z.eqb_neq, negb_false_iff, Z.eqb_eq. tauto. }
  apply wp_bind. eapply wp_queue_append; [done..|].
  intros s' Hch' Hq' Hh Hc Hl Hw Hbi Hfr Hex.
  assert (Hreqs : forall k, k ∈ q ++ [i] -> exists x, st_bufs s' !! Z.to_nat k = Some x /\
      request_ok (havedisk1 (st_drv s')) x).
  { intros k [Hk|Hk]%elem_of_app.
    - destruct (Hrq k Hk) as (x & Hx & Hxok). assert (k <> i) by set_solver.
      pose proof (chain_elem _ _ _ _ Hch Hk).
      destruct (Hfr (Z.to_nat k) x) as [y Hy]; [lia|done|]. exists (set_qnext y x).
      rewrite Hh. auto using request_ok_qnext.
    - apply list_elem_of_singleton in Hk as ->. exists (set_qnext NULLB b). by rewrite Hh. }
  assert (NoDup (q ++ [i])).
  { apply NoDup_app. split_and!; [done|set_solver|apply NoDup_singleton]. }
  apply wp_bind, wp_gets.
  destruct (Z.eqb_spec (idequeue (st_drv s')) i) as [E|E].
  - apply Hq' in E as ->. simpl in Hctl. destruct Hctl as [Hidle Hsec].
    apply (wp_idestart _ i (set_qnext NULLB b)); [unfold NULLB; lia|by split; [lia|]|by rewrite Hc|
      done|naive_solver| |].
    { destruct (dirty b) eqn:Ed; [left; by apply Hdat|by right]. }
    intros c Hcs. rewrite Hc in Hcs. split_and!; try done.
    constructor; [done..|]. simpl. exists (set_qnext NULLB b). split; [done|].
      change (dirty (set_qnext NULLB b)) with (dirty b) in *.
      destruct (dirty b); destruct Hcs as [? Hcs]; (split; [done|]); intros d m;
        rewrite Hcs; [unfold upd_blk; case_decide; [done|]|]; apply Hsec.
  - apply wp_ret. split_and!; try done. constructor; [done..|].
    destruct q as [|j q]; [naive_solver|]. rewrite Hc. simpl in *.
    destruct Hctl as (x & Hx & Hctl). assert (j <> i) by set_solver.
    destruct Hch as (_ & Hj & _).
    destruct (Hfr (Z.to_nat j) x) as [y Hy]; [lia|done|]. by exists (set_qnext y x).
Qed.

Fixpoint interrupts (n : nat) : M st unit :=
  match n with O => ret tt | S n' => ideintr ;;; interrupts n' end.

(** The queue served in order, as a function on the buffers and the sectors. *)
Fixpoint serve_all (l : list buf) (sec : Z -> Z -> list Z) (q : list Z)
  : list buf * (Z -> Z -> list Z) :=
  match q with
  | [] => (l, sec)
  | i :: q' => match l !! Z.to_nat i with
               | Some b => serve_all (<[Z.to_nat i := served sec b]> l) (serve sec b) q'
               | None => (l, sec)
               end
  end.

Lemma rep_lookup (s : st) i q sec :
  ide_rep s (i :: q) sec -> exists b, st_bufs s !! Z.to_nat i = Some b /\
    request_ok (havedisk1 (st_drv s)) b.
Proof. intros Hr. apply (rep_reqs _ _ _ Hr). set_solver. Qed.

(** As many interrupts as there are requests serve them all, first come first served. *)
Lemma interrupts_fifo q (s : st) sec :
  ide_rep s q sec ->
  wp (interrupts (length q)) (fun _ s' =>
    st_bufs s' = fst (serve_all (st_bufs s) sec q) /\ ide_rep s' [] (snd (serve_all (st_bufs s) sec q)) /\
    havedisk1 (st_drv s') = havedisk1 (st_drv s) /\
    st_log s' = st_log s /\ st_writes s' = st_writes s) s.
Proof.
  revert s sec. induction q as [|i q IH]; intros s sec Hr; simpl.
  - by apply wp_ret.
  - destruct (rep_lookup _ _ _ _ Hr) as (b & Hb & _). rewrite Hb.
    apply wp_bind. eapply wp_mono; [by eapply ideintr_serves|].
    intros [] s1 (Hr1 & Hb1 & Hh & Hl & Hw). eapply wp_mono; [by apply IH|].
    intros [] s2 (E2 & Hr2 & Hh2 & Hl2 & Hw2).
    rewrite Hb1 in E2, Hr2. split_and!; congruence.
Qed.

Lemma served_synced have sec b :
  request_ok have b ->
  Z.land (b_flags (served sec b)) (Z.lor B_VALID B_DIRTY) = B_VALID.
Proof.
  intros (Hf & Hb & _). unfold served.
  assert (Z.land (synced (b_flags b)) (Z.lor B_VALID B_DIRTY) = B_VALID).
  { rewrite synced_busy by done. done. }
  by destruct (dirty b).
Qed.

(** The wait loop of [iderw] returns once its request, the last one, is served. *)
Lemma wait_serves q fuel (s : st) sec i :
  ide_rep s (q ++ [i]) sec -> (length q < fuel)%nat ->
  wp (iderw_wait fuel i) (fun _ s' =>
    st_bufs s' = fst (serve_all (st_bufs s) sec (q ++ [i])) /\
    ide_rep s' [] (snd (serve_all (st_bufs s) sec (q ++ [i]))) /\
    havedisk1 (st_drv s') = havedisk1 (st_drv s) /\
    st_log s' = st_log s /\ st_writes s' = st_writes s) s.
Proof.
  revert s sec fuel. induction q as [|j q IH]; intros s sec fuel Hr Hf;
    (destruct fuel as [|fuel]; [lia|]).
  - destruct (rep_lookup _ _ _ _ Hr) as (b & Hb & Hok).
    pose proof (rep_chain _ _ _ Hr) as (_ & Hi & _).
    cbn [iderw_wait]. apply wp_bind. eapply wp_getb; [split; [lia|done]|].
    rewrite (proj2 (Z.eqb_neq _ _) (request_not_synced _ _ Hok)). cbv [negb].
    apply wp_bind. eapply wp_mono; [by eapply ideintr_serves|].
    intros [] s1 (Hr1 & Hb1 & Hh & Hl & Hw).
    assert (wp (iderw_wait fuel i) (fun _ s' => s' = s1) s1) as Hdone.
    { destruct fuel; (cbn [iderw_wait]; apply wp_bind; eapply wp_getb;
        [split; [lia|rewrite Hb1; apply list_lookup_insert_eq; by apply lookup_lt_Some in Hb]|]);
      rewrite (proj2 (Z.eqb_eq _ _) (served_synced _ sec _ Hok)); by apply wp_ret. }
    eapply wp_mono; [exact Hdone|]. intros [] ? ->. simpl. rewrite Hb. done.
  - destruct (rep_lookup _ _ _ _ Hr) as (b & Hb & Hok).
    destruct (rep_reqs _ _ _ Hr i) as (bi & Hbi & Hoki); [set_solver|].
    pose proof (chain_elem _ _ _ i (rep_chain _ _ _ Hr) ltac:(set_solver)) as Hi.
    cbn [iderw_wait]. apply wp_bind. eapply wp_getb; [split; [lia|done]|].
    rewrite (proj2 (Z.eqb_neq _ _) (request_not_synced _ _ Hoki)). cbv [negb].
    apply wp_bind. eapply wp_mono; [by eapply ideintr_serves|].
    intros [] s1 (Hr1 & Hb1 & Hh & Hl & Hw).
    eapply wp_mono; [apply IH; [exact Hr1|simpl in Hf; lia]|].
    intros [] s2 (E2 & Hr2 & Hh2 & Hl2 & Hw2). simpl. rewrite Hb.
    rewrite Hb1 in E2, Hr2. split_and!; congruence.
Qed.

(** *** ide.c implements the driver interface *)

Definition ide_platter (d : ide C) (x y : Z) : list Z :=
  if decide (x = 0 \/ x = 1) then sectors (ctl d) x y else zero_blk.
Definition ide_idle (d : ide C) : Prop := idequeue d = NULLB /\ ctl_idle (ctl d).
Definition ide_serves (d : ide C) (x y : Z) : Prop :=
  (x = 0 \/ x = 1 /\ havedisk1 d <> 0) /\ 0 <= y < FSSIZE * 4.

Lemma served_qnext sec q b : served sec (set_qnext q b) = set_qnext q (served sec b).
Proof. unfold served. change (dirty (set_qnext q b)) with (dirty b). by destruct (dirty b). Qed.
Lemma serve_qnext sec q b : serve sec (set_qnext q b) = serve sec b.
Proof. done. Qed.

Lemma ide_rw_idle (s : st) i b :
  ide_idle (st_drv s) -> buf_at s i b -> i < NBUF -> request_ok (havedisk1 (st_drv s)) b ->
  wp (ide_rw i) (fun _ s' =>
    s' = with_bufs (<[Z.to_nat i := set_qnext NULLB (served (sectors (ctl (st_drv s))) b)]> (st_bufs s))
           (with_drv (st_drv s') s) /\
    ide_idle (st_drv s') /\ havedisk1 (st_drv s') = havedisk1 (st_drv s) /\
    forall d n, sectors (ctl (st_drv s')) d n =
                serve (sectors (ctl (st_drv s))) b d n) s.
Proof.
  intros [Hq Hc] [Hi Hb] Hlt Hok. set (sec := sectors (ctl (st_drv s))).
  assert (ide_rep s [] sec) as Hr by (constructor; [done|constructor|set_solver|by split]).
  unfold ide_rw. apply wp_bind. eapply wp_mono; [eapply submit_queues; [done|set_solver|lia|done|done]|].
  intros [] s1 (Hr1 & Hb1 & Hex & Hh & Hl & Hw). specialize (Hex eq_refl).
  eapply wp_mono; [by apply (wait_serves []); [|vm_compute; lia]|].
  intros [] s2 (E2 & Hr2 & Hh2 & Hl2 & Hw2). simpl in E2, Hr2. rewrite Hb1 in E2, Hr2.
  simpl in E2, Hr2. rewrite Hex, list_insert_insert_eq, served_qnext in E2.
  rewrite serve_qnext in Hr2.
  destruct Hr2 as [Hq2 _ _ [Hc2 Hs2]]. split; [|split; [by split|split; [congruence|exact Hs2]]].
  destruct s2. simpl in *. unfold with_bufs, with_drv. simpl. congruence.
Qed.

Lemma same_log_inb port : moves same_log (p_inb port).
Proof. intros s r s'. unfold p_inb. destruct (inb _ _). by intros [= _ <-]. Qed.
Lemma same_log_insl port n : moves same_log (p_insl port n).
Proof. intros s r s'. unfold p_insl. destruct (insl _ _ _). by intros [= _ <-]. Qed.
Lemma same_log_outb port v : moves same_log (p_outb port v).
Proof. by apply moves_modify. Qed.
Lemma same_log_outsl port x : moves same_log (p_outsl port x).
Proof. by apply moves_modify. Qed.
Lemma same_log_queue q : moves same_log (set_queue q).
Proof. by apply moves_modify. Qed.
Hint Resolve same_log_inb same_log_insl same_log_outb same_log_outsl same_log_queue : moves.
Lemma same_log_idewait n : moves same_log (idewait n).
Proof.
  apply moves_bind; [apply _| |intros; by moves]. generalize IDE_POLLS as fuel. induction fuel as [|fuel IH]; cbn [idewait_loop]; [apply moves_nofuel|by moves].
Qed.
Hint Resolve same_log_idewait : moves.
Lemma same_log_idestart i : moves same_log (idestart i).
Proof. unfold idestart. moves. Qed.
Hint Resolve same_log_idestart : moves.
Lemma same_log_ideintr : moves same_log ideintr.
Proof. unfold ideintr. moves. Qed.
Lemma same_log_queue_last fuel p : moves same_log (queue_last fuel p).
Proof. revert p. induction fuel as [|fuel IH]; intros p; cbn [queue_last]; moves. Qed.
Hint Resolve same_log_ideintr same_log_queue_last : moves.
Lemma same_log_ide_rw i : moves same_log (ide_rw i).
Proof.
  unfold ide_rw, iderw_submit, queue_append. apply moves_bind; [apply _|moves|]. intros ?.
  generalize (Z.to_nat NBUF) as fuel. induction fuel as [|fuel IH]; cbn [iderw_wait]; moves.
Qed.

#[global] Program Instance ide_device : BlockDevice (ide C) := {
  iderw := ide_rw;
  platter := ide_platter;
  drv_idle := ide_idle;
  drv_serves := ide_serves
}.
Next Obligation. apply same_log_ide_rw. Qed.
Next Obligation. unfold ide_serves. lia. Qed.
Next Obligation.
  intros d x y [_ Hc]. unfold ide_platter. case_decide; [by apply sectors_ok|apply zero_blk_ok].
Qed.
Next Obligation.
  intros s i b Hidle Hb Hlt Hf Hbz Hd [Hx Hy] Hok. eapply wp_mono.
  - apply (ide_rw_idle s i b); [done..|]. split_and!; naive_solver.
  - intros [] s' (E & Hid & Hh & Hs). exists (st_drv s'), NULLB. split_and!.
    + rewrite E at 1. unfold served. by rewrite Hd.
    + done.
    + intros x y. unfold ide_serves. by rewrite Hh.
    + intros x y. unfold ide_platter, serve in *. rewrite Hd in Hs.
      unfold upd_blk in *. case_decide; [by apply Hs|]. rewrite decide_False; [done|naive_solver].
Qed.
Next Obligation.
  intros s i b Hidle Hb Hlt Hf Hbz Hd Hv [Hx Hy]. eapply wp_mono.
  - apply (ide_rw_idle s i b); [done..|]. unfold request_ok. rewrite Hd, Hv. intuition congruence.
  - intros [] s' (E & Hid & Hh & Hs). exists (st_drv s'), NULLB. split_and!.
    + rewrite E at 1. unfold served, ide_platter. rewrite Hd.
      rewrite decide_True by naive_solver. done.
    + done.
    + intros x y. unfold ide_serves. by rewrite Hh.
    + intros x y. unfold ide_platter, serve in *. rewrite Hd in Hs.
      case_decide; [by apply Hs|done].
Qed.
End Driver.

End Ide.

Module MemIde.

(** memide.c: the disk image in memory, [disksize] blocks of [memdisk]. *)
Record memide := mkMem { disksize : Z; memdisk : list Z }.

Definition set_memdisk (m : list Z) (s : bst memide) : bst memide :=
  with_drv (mkMem (disksize (st_drv s)) m) s.

Definition ideinit (img : list Z) : memide :=
  mkMem (Z.of_nat (length img) / BSIZE) img.

Definition mem_rw (i : Z) : M (bst memide) unit :=
  b <- getb i ;;
  if negb (busy b) then panic "iderw: buf not busy" else
  if Z.land (b_flags b) (Z.lor B_VALID B_DIRTY) =? B_VALID then panic "iderw: nothing to do" else
  if negb (b_dev b =? 1) then panic "iderw: request not for disk 1" else
  size <- gets (fun s => disksize (st_drv s)) ;;
  if b_blockno b >=? size then panic "iderw: block out of range" else
  let p := Z.to_nat (b_blockno b * BSIZE) in
  (if dirty b then
     updb i (fun b => set_flags (Z.land (b_flags b) (Z.lnot B_DIRTY)) b) ;;;
     modify (fun s => set_memdisk (bsplice p (b_data b) (memdisk (st_drv s))) s)
   else
     m <- gets (fun s => memdisk (st_drv s)) ;;
     updb i (set_data (bslice p BSIZEn m))) ;;;
  updb i (fun b => set_flags (Z.lor (b_flags b) B_VALID) b).

(** *** memide.c implements the driver interface *)

Definition mem_idle (d : memide) : Prop :=
  0 <= disksize d /\ (Z.to_nat (disksize d) * BSIZEn <= length (memdisk d))%nat /\
  bytes_ok (memdisk d).
Definition mem_serves (d : memide) (x y : Z) : Prop := x = 1 /\ 0 <= y < disksize d.
Definition mem_platter (d : memide) (x y : Z) : list Z :=
  if decide (mem_serves d x y) then bslice (Z.to_nat (y * BSIZE)) BSIZEn (memdisk d)
  else zero_blk.

Lemma block_off n size :
  0 <= n < size -> (Z.to_nat (n * BSIZE) + BSIZEn <= Z.to_nat size * BSIZEn)%nat.
Proof. unfold BSIZE. lia. Qed.

#[global] Program Instance mem_device : BlockDevice memide := {
  iderw := mem_rw;
  platter := mem_platter;
  drv_idle := mem_idle;
  drv_serves := mem_serves
}.
Next Obligation. intros i. unfold mem_rw. moves; by apply moves_modify. Qed.
Next Obligation. unfold mem_serves. lia. Qed.
Next Obligation.
  intros d x y (H0 & Hl & Hb). unfold mem_platter. case_decide as Hs.
  - destruct Hs as [_ Hy]. apply block_off in Hy. split; [apply bslice_length; lia|].
    by apply bytes_ok_slice.
  - apply zero_blk_ok.
Qed.
Next Obligation.
  intros s i b (H0 & Hl & Hm) Hb Hlt Hf Hbz Hd [Hx Hy] [Hlen Hok].
  unfold mem_rw. apply wp_bind. eapply wp_getb; [done|]. rewrite Hbz. cbv [negb].
  replace (Z.land (b_flags b) (Z.lor B_VALID B_DIRTY) =? B_VALID) with false.
  2:{ revert Hd. unfold dirty. flag_crush Hf. }
  rewrite Hx. simpl. apply wp_bind, wp_gets.
  destruct (Z.geb_spec (b_blockno b) (disksize (st_drv s))); [lia|].
  rewrite Hd. apply wp_bind, wp_bind. eapply wp_updb; [done|]. apply wp_modify.
  eapply wp_updb; [by apply (buf_at_upd_same s i b)|].
  eexists _, (b_qnext b). split; [|split; [|split]].
  - simpl. rewrite list_insert_insert_eq. unfold with_bufs, set_memdisk, with_drv. simpl.
    f_equal. f_equal. unfold set_flags, set_qnext, synced. simpl. f_equal.
    revert Hd Hbz. unfold dirty, busy. flag_crush Hf.
  - pose proof (block_off _ _ Hy) as Ho. split_and!; simpl; [done| |by apply bytes_ok_splice].
    rewrite bsplice_length; [done|lia].
  - done.
  - intros x y. pose proof (block_off _ _ Hy) as Ho. unfold mem_platter, upd_blk, mem_serves. simpl.
    destruct (decide (x = 1 /\ y = b_blockno b)) as [[-> ->]|Hne].
    + rewrite decide_True by (by split). rewrite <- Hlen. apply bslice_bsplice_same. lia.
    + case_decide as Hs; [|done]. destruct Hs as [-> Hyy].
      apply bslice_bsplice_other; [lia|]. unfold BSIZE in *. lia.
Qed.
Next Obligation.
  intros s i b (H0 & Hl & Hm) Hb Hlt Hf Hbz Hd Hv [Hx Hy].
  unfold mem_rw. apply wp_bind. eapply wp_getb; [done|]. rewrite Hbz. cbv [negb].
  replace (Z.land (b_flags b) (Z.lor B_VALID B_DIRTY) =? B_VALID) with false.
  2:{ revert Hv. unfold valid. flag_crush Hf. }
  rewrite Hx. simpl. apply wp_bind, wp_gets.
  destruct (Z.geb_spec (b_blockno b) (disksize (st_drv s))); [lia|].
  rewrite Hd. apply wp_bind, wp_bind, wp_gets. eapply wp_updb; [done|].
  eapply wp_updb; [by apply (buf_at_upd_same s i b)|].
  exists (st_drv s), (b_qnext b). split; [|done].
  simpl. rewrite list_insert_insert_eq. unfold with_bufs, with_drv. simpl. f_equal.
  f_equal. unfold set_flags, set_qnext, set_data, mem_platter, synced. simpl.
  rewrite decide_True by done. f_equal.
  revert Hd Hbz. unfold dirty, busy. flag_crush Hf.
Qed.

End MemIde.
