(* ===== verification/Bio.v ===== *)
(** * The buffer cache: bio.c

    The LRU list is the doubly linked list of the source, through the [prev]
    and [next] indices of the buffers, with [bcache.head] as element [HEAD].
    The operations are generic in the disk driver ([BlockDevice]).

    [cache_rep] relates a cache to what its clients see ([cache]): a contents
    for every block, the buffers that are held (B_BUSY), the held blocks whose
    contents were changed and not yet logged or written, and the blocks pinned
    by B_DIRTY.  Each operation is specified on that abstract state. *)

From S2P Require Import Prelude Buf.

Section Bio.
Context {D : Type} `{BD : BlockDevice D}.
Abbreviation st := (bst D).

Definition NODEV : Z := u32 (-1).

(** ** The operations *)

Definition binit : M st unit :=
  updb HEAD (set_prev HEAD) ;;;
  updb HEAD (set_next HEAD) ;;;
  for_each (Z.to_nat NBUF) 0 (fun b =>
    h <- getb HEAD ;;
    updb b (set_next (b_next h)) ;;;
    updb b (set_prev HEAD) ;;;
    updb b (fun x => set_key NODEV (b_blockno x) (b_flags x) x) ;;;
    h <- getb HEAD ;;
    updb (b_next h) (set_prev b) ;;;
    updb HEAD (set_next b)).

(** [for(b = ...; b != &bcache.head; b = step(b)) if(test(b)) ...] *)
Fixpoint scan (step : buf -> Z) (test : buf -> bool) (fuel : nat) (p : Z) : M st (option Z) :=
  if p =? HEAD then ret None else
  match fuel with
  | O => nofuel
  | S fuel' =>
      b <- getb p ;;
      if test b then ret (Some p) else scan step test fuel' (step b)
  end.

Definition bget (dev blockno : Z) : M st Z :=
  h <- getb HEAD ;;
  r <- scan b_next (fun b => (b_dev b =? dev) && (b_blockno b =? blockno))
            (Z.to_nat NBUF) (b_next h) ;;
  match r with
  | Some i =>
      b <- getb i ;;
      if negb (busy b) then
        updb i (fun b => set_flags (Z.lor (b_flags b) B_BUSY) b) ;;; ret i
      else sleep_on "buf"
  | None =>
      h <- getb HEAD ;;
      r <- scan b_prev (fun b => negb (busy b) && negb (dirty b)) (Z.to_nat NBUF) (b_prev h) ;;
      match r with
      | Some i => updb i (set_key dev blockno B_BUSY) ;;; ret i
      | None => panic "bget: no buffers"
      end
  end.

Definition bread (dev blockno : Z) : M st Z :=
  i <- bget dev blockno ;;
  b <- getb i ;;
  (if negb (valid b) then iderw i else ret tt) ;;;
  ret i.

(** The first line after the guard also records the write in the history. *)
Definition bwrite (i : Z) : M st unit :=
  b <- getb i ;;
  if negb (busy b) then panic "bwrite" else
  modify (fun s => with_writes (st_writes s ++ [(b_dev b, b_blockno b, b_data b)]) s) ;;;
  updb i (fun b => set_flags (Z.lor (b_flags b) B_DIRTY) b) ;;;
  iderw i.

Definition brelse (i : Z) : M st unit :=
  b <- getb i ;;
  if negb (busy b) then panic "brelse" else
  updb (b_next b) (set_prev (b_prev b)) ;;;
  b <- getb i ;;
  updb (b_prev b) (set_next (b_next b)) ;;;
  h <- getb HEAD ;;
  updb i (set_next (b_next h)) ;;;
  updb i (set_prev HEAD) ;;;
  h <- getb HEAD ;;
  updb (b_next h) (set_prev i) ;;;
  updb HEAD (set_next i) ;;;
  updb i (fun b => set_flags (Z.land (b_flags b) (Z.lnot B_BUSY)) b).

(** ** The linked list *)

(** [x], then the elements of [q], then [y], linked both ways. *)
Fixpoint dseg (nx pv : Z -> Z) (x : Z) (q : list Z) (y : Z) : Prop :=
  match q with
  | [] => nx x = y /\ pv y = x
  | z :: q' => nx x = z /\ pv z = x /\ dseg nx pv z q' y
  end.

Definition fupd (f : Z -> Z) (a v : Z) : Z -> Z := fun x => if decide (x = a) then v else f x.

Lemma fupd_eq f a v : fupd f a v a = v.
Proof. unfold fupd. by rewrite decide_True. Qed.
Lemma fupd_ne f a v x : x <> a -> fupd f a v x = f x.
Proof. intros. unfold fupd. by rewrite decide_False. Qed.

Lemma dseg_app nx pv x q1 z q2 y :
  dseg nx pv x (q1 ++ z :: q2) y <-> dseg nx pv x q1 z /\ dseg nx pv z q2 y.
Proof.
  revert x. induction q1 as [|a q1 IH]; intros x; simpl; [tauto|]. rewrite IH. tauto.
Qed.

Lemma dseg_frame nx pv nx' pv' x q y :
  (forall a, a ∈ x :: q -> nx' a = nx a) -> (forall a, a ∈ q ++ [y] -> pv' a = pv a) ->
  dseg nx pv x q y -> dseg nx' pv' x q y.
Proof.
  revert x. induction q as [|a q IH]; intros x Hn Hp; simpl.
  - intros [? ?]. rewrite Hn, Hp by set_solver. done.
  - intros (? & ? & ?). rewrite Hn, Hp by set_solver. split_and!; [done..|].
    apply IH; [set_solver..|done].
Qed.

Lemma dseg_unlink nx pv h q1 i q2 :
  dseg nx pv h (q1 ++ i :: q2) h -> NoDup (h :: q1 ++ i :: q2) ->
  dseg (fupd nx (pv i) (nx i)) (fupd pv (nx i) (pv i)) h (q1 ++ q2) h.
Proof.
  intros [H1 H2]%dseg_app Hnd.
  destruct q1 as [|z q1 _] using rev_ind; destruct q2 as [|w q2].
  - simpl in *. destruct H1 as [E1 E2], H2 as [E3 E4]. by rewrite E2, E3, !fupd_eq.
  - simpl in *. destruct H1 as [E1 E2], H2 as (E3 & E4 & H2). rewrite E2, E3, !fupd_eq.
    rewrite !NoDup_cons in Hnd. split_and!; [done..|].
    eapply dseg_frame; [| |exact H2]; intros a Ha; apply fupd_ne; set_solver.
  - apply dseg_app in H1 as [H1 [E1 E2]]. destruct H2 as [E3 E4]. rewrite E2, E3, app_nil_r.
    rewrite <- !app_assoc in Hnd. simpl in Hnd. rewrite NoDup_cons, NoDup_app, NoDup_cons in Hnd.
    apply dseg_app. split; [|by simpl; rewrite !fupd_eq].
    eapply dseg_frame; [| |exact H1]; intros a Ha; apply fupd_ne; set_solver.
  - apply dseg_app in H1 as [H1 [E1 E2]]. destruct H2 as (E3 & E4 & H2). rewrite E2, E3.
    rewrite <- !app_assoc in *. simpl in *.
    rewrite NoDup_cons, NoDup_app, !NoDup_cons in Hnd.
    apply dseg_app. split.
    + eapply dseg_frame; [| |exact H1]; intros a Ha; apply fupd_ne; set_solver.
    + simpl. rewrite !fupd_eq. split_and!; [done..|].
      eapply dseg_frame; [| |exact H2]; intros a Ha; apply fupd_ne; set_solver.
Qed.

Lemma dseg_push nx pv h q i :
  dseg nx pv h q h -> NoDup (i :: h :: q) ->
  dseg (fupd (fupd nx i (nx h)) h i) (fupd (fupd pv i h) (nx h) i) h (i :: q) h.
Proof.
  intros Hd Hnd. rewrite !NoDup_cons in Hnd. assert (Hih : i <> h) by set_solver.
  simpl. rewrite fupd_eq. split; [done|].
  destruct q as [|a q]; simpl in Hd |- *.
  - destruct Hd as [E1 E2]. rewrite E1, (fupd_ne _ _ _ i), !fupd_eq, fupd_ne, fupd_eq by done. done.
  - destruct Hd as (E1 & E2 & Hd). assert (i <> a /\ h <> a) as [? ?] by set_solver.
    rewrite E1, fupd_ne, !fupd_eq, fupd_ne, fupd_eq by done. split_and!; [done..|].
    eapply dseg_frame; [| |exact Hd].
    + intros b Hb. rewrite !fupd_ne by set_solver. done.
    + intros b Hb. destruct Hnd as (? & ? & [? _]%NoDup_cons).
      assert (b <> a) by set_solver. assert (b <> i) by set_solver. by rewrite !fupd_ne.
Qed.

Definition nxt (l : list buf) (i : Z) : Z :=
  if i <? 0 then NULLB else match l !! Z.to_nat i with Some b => b_next b | None => NULLB end.
Definition prv (l : list buf) (i : Z) : Z :=
  if i <? 0 then NULLB else match l !! Z.to_nat i with Some b => b_prev b | None => NULLB end.

Lemma nxt_at (s : st) i b : buf_at s i b -> nxt (st_bufs s) i = b_next b.
Proof. intros [Hi Hb]. unfold nxt. destruct (Z.ltb_spec i 0); [lia|]. by rewrite Hb. Qed.
Lemma prv_at (s : st) i b : buf_at s i b -> prv (st_bufs s) i = b_prev b.
Proof. intros [Hi Hb]. unfold prv. destruct (Z.ltb_spec i 0); [lia|]. by rewrite Hb. Qed.

Lemma nxt_upd (s : st) i b b' x :
  buf_at s i b -> nxt (<[Z.to_nat i := b']> (st_bufs s)) x = fupd (nxt (st_bufs s)) i (b_next b') x.
Proof.
  intros [Hi Hb]. unfold nxt, fupd. case_decide as E; destruct (Z.ltb_spec x 0); subst; try lia; try done.
  - by rewrite list_lookup_insert_eq by by apply lookup_lt_Some in Hb.
  - by rewrite list_lookup_insert_ne by lia.
Qed.
Lemma prv_upd (s : st) i b b' x :
  buf_at s i b -> prv (<[Z.to_nat i := b']> (st_bufs s)) x = fupd (prv (st_bufs s)) i (b_prev b') x.
Proof.
  intros [Hi Hb]. unfold prv, fupd. case_decide as E; destruct (Z.ltb_spec x 0); subst; try lia; try done.
  - by rewrite list_lookup_insert_eq by by apply lookup_lt_Some in Hb.
  - by rewrite list_lookup_insert_ne by lia.
Qed.

(** The cache list is the ring through [HEAD] of all buffers, most recent first. *)
Definition ring (l : list buf) (q : list Z) : Prop :=
  length l = S (Z.to_nat NBUF) /\ dseg (nxt l) (prv l) HEAD q HEAD /\ q ≡ₚ seqZ 0 NBUF.

Lemma ring_elem l q i : ring l q -> i ∈ q <-> 0 <= i < NBUF.
Proof.
  intros (_ & _ & Hp). rewrite Hp, elem_of_seqZ. unfold NBUF, MAXOPBLOCKS. lia.
Qed.

Lemma ring_nodup l q : ring l q -> NoDup (HEAD :: q).
Proof.
  intros Hr. apply NoDup_cons. split.
  - rewrite (ring_elem _ _ _ Hr). unfold HEAD. lia.
  - destruct Hr as (_ & _ & Hp). rewrite Hp. apply NoDup_seqZ.
Qed.

Lemma ring_at (s : st) q i : ring (st_bufs s) q -> 0 <= i <= NBUF -> exists b, buf_at s i b.
Proof.
  intros (Hl & _) Hi. destruct (lookup_lt_is_Some_2 (st_bufs s) (Z.to_nat i)) as [b Hb].
  - rewrite Hl. lia.
  - exists b. by split; [lia|].
Qed.

Lemma ring_same l l' q :
  length l' = length l -> (forall x, nxt l' x = nxt l x) -> (forall x, prv l' x = prv l x) ->
  ring l q -> ring l' q.
Proof.
  intros Hl Hn Hp (? & ? & ?). split_and!; [congruence| |done].
  eapply dseg_frame; [| |done]; intros; auto.
Qed.

(** An update that keeps the links of a buffer keeps the ring. *)
Lemma ring_upd (s : st) q i b b' :
  buf_at s i b -> b_next b' = b_next b -> b_prev b' = b_prev b ->
  ring (st_bufs s) q -> ring (<[Z.to_nat i := b']> (st_bufs s)) q.
Proof.
  intros Hb Hn Hp. apply ring_same.
  - by rewrite length_insert.
  - intros x. rewrite (nxt_upd _ _ _ _ _ Hb). unfold fupd. case_decide; [|done].
    subst. rewrite (nxt_at _ _ _ Hb). done.
  - intros x. rewrite (prv_upd _ _ _ _ _ Hb). unfold fupd. case_decide; [|done].
    subst. rewrite (prv_at _ _ _ Hb). done.
Qed.

(** The order in which [scan] meets the buffers. *)
Fixpoint path (step : Z -> Z) (p : Z) (q : list Z) : Prop :=
  match q with
  | [] => p = HEAD
  | i :: q' => p = i /\ i <> HEAD /\ path step (step i) q'
  end.

Lemma dseg_path_next nx pv x q : dseg nx pv x q HEAD -> HEAD ∉ q -> path nx (nx x) q.
Proof.
  revert x. induction q as [|i q IH]; intros x; simpl; [tauto|].
  intros (-> & _ & Hd) Hh. split_and!; [done|set_solver|]. apply IH; set_solver.
Qed.

Lemma dseg_path_prev nx pv y q : dseg nx pv HEAD q y -> HEAD ∉ q -> path pv (pv y) (reverse q).
Proof.
  revert y. induction q as [|i q IH] using rev_ind; intros y; simpl; [tauto|].
  intros [Hd [_ ->]]%dseg_app Hh. rewrite reverse_snoc. split_and!; [done|set_solver|].
  apply IH; set_solver.
Qed.

Lemma wp_scan step test fuel p q (s : st) (stepf : Z -> Z) (Q : option Z -> st -> Prop) :
  path stepf p q -> (length q <= fuel)%nat ->
  (forall i b, buf_at s i b -> stepf i = step b) ->
  (forall i, i ∈ q -> exists b, buf_at s i b) ->
  (forall i b, i ∈ q -> buf_at s i b -> test b = true -> Q (Some i) s) ->
  ((forall i b, i ∈ q -> buf_at s i b -> test b = false) -> Q None s) ->
  wp (scan step test fuel p) Q s.
Proof.
  intros Hp Hf Hs. revert p fuel Hp Hf.
  induction q as [|i q IH]; intros p fuel Hp Hf Hat Hsome Hnone; simpl in Hp.
  - subst p. destruct fuel; simpl; apply wp_ret, Hnone; set_solver.
  - destruct Hp as (-> & Hne & Hp). destruct fuel as [|fuel]; simpl in Hf; [lia|].
    cbn [scan]. destruct (Z.eqb_spec i HEAD) as [|_]; [done|].
    destruct (Hat i) as [b Hb]; [set_solver|].
    apply wp_bind. eapply wp_getb; [done|]. destruct (test b) eqn:Et.
    + apply wp_ret. eapply Hsome; [set_solver|done|done].
    + apply IH; [by rewrite <- (Hs _ _ Hb)|lia|set_solver| |].
      * intros j bj Hj. apply Hsome. set_solver.
      * intros Hall. apply Hnone. intros j bj [->|Hj]%elem_of_cons Hbj; [|eauto].
        by rewrite (buf_at_det _ _ _ _ Hbj Hb).
Qed.

(** ** What clients see of the cache *)

Record cache := mkCache {
  c_view : Z -> Z -> list Z;      (** the contents of each block *)
  c_held : gmap Z (Z * Z);        (** B_BUSY buffers and their blocks *)
  c_touched : gset (Z * Z);       (** held blocks changed in memory only *)
  c_pinned : gset (Z * Z)         (** B_DIRTY blocks *)
}.

(** A buffer without its links. *)
Record cell := mkCell { c_flags : Z; c_key : Z * Z; c_data : list Z }.
Definition payload (b : buf) : cell := mkCell (b_flags b) (b_dev b, b_blockno b) (b_data b).

Definition view_at (v : Z -> Z -> list Z) (k : Z * Z) : list Z := v k.1 k.2.

Record cell_ok (drv : D) (a : cache) (i : Z) (c : cell) : Prop := {
  ok_flags : flags_ok (c_flags c);
  ok_busy : flag (c_flags c) B_BUSY = true <-> is_Some (c_held a !! i);
  ok_dirty : flag (c_flags c) B_DIRTY = true <-> c_key c ∈ c_pinned a;
  ok_valid : if flag (c_flags c) B_VALID
             then drv_serves drv (c_key c).1 (c_key c).2 /\ c_data c = view_at (c_view a) (c_key c)
             else c_flags c = 0 /\ (c_key c).1 = NODEV
}.

Record cells_rep (drv : D) (a : cache) (cs : list cell) : Prop := {
  cr_ok : forall i c, 0 <= i < NBUF -> cs !! Z.to_nat i = Some c -> cell_ok drv a i c;
  cr_held : forall i k, c_held a !! i = Some k ->
    0 <= i < NBUF /\ exists c, cs !! Z.to_nat i = Some c /\ c_key c = k;
  cr_uniq : forall i j c c', 0 <= i < NBUF -> 0 <= j < NBUF ->
    cs !! Z.to_nat i = Some c -> cs !! Z.to_nat j = Some c' ->
    c_key c = c_key c' -> (c_key c).1 <> NODEV -> i = j;
  cr_pinned : forall k, k ∈ c_pinned a ->
    exists i c, 0 <= i < NBUF /\ cs !! Z.to_nat i = Some c /\ c_key c = k;
  cr_touched : forall k, k ∈ c_touched a -> exists i, c_held a !! i = Some k;
  cr_platter : forall d n, (d, n) ∉ c_pinned a -> (d, n) ∉ c_touched a ->
    platter drv d n = c_view a d n;
  cr_view : forall d n, blk_ok (c_view a d n);
  cr_idle : drv_idle drv
}.

Definition cache_rep (s : st) (a : cache) : Prop :=
  (exists q, ring (st_bufs s) q) /\ cells_rep (st_drv s) a (payload <$> st_bufs s).

(** The blocks that keep their buffer: held or pinned. *)
Definition kept (a : cache) : gset (Z * Z) := c_pinned a ∪ map_img (c_held a).

(** ** Facts about represented caches *)

Lemma serves_nodev drv x y : drv_serves drv x y -> x <> NODEV.
Proof. intros H%serves_dev. change NODEV with (2 ^ 32 - 1). lia. Qed.

Lemma cell_valid_flag drv a i c :
  cell_ok drv a i c -> c_flags c <> 0 -> flag (c_flags c) B_VALID = true.
Proof. intros [_ _ _ Hv] Hn. destruct (flag (c_flags c) B_VALID); [done|tauto]. Qed.

Lemma flag_nonzero f bit : flag f bit = true -> f <> 0.
Proof. intros H ->. unfold flag in H. by rewrite Z.land_0_l in H. Qed.

Lemma held_cell drv a cs i k :
  cells_rep drv a cs -> c_held a !! i = Some k ->
  exists c, 0 <= i < NBUF /\ cs !! Z.to_nat i = Some c /\ c_key c = k /\ cell_ok drv a i c /\
    flag (c_flags c) B_BUSY = true /\ flag (c_flags c) B_VALID = true /\
    drv_serves drv k.1 k.2 /\ c_data c = view_at (c_view a) k.
Proof.
  intros Hr Hh. destruct (cr_held _ _ _ Hr _ _ Hh) as (Hi & c & Hc & Hk).
  pose proof (cr_ok _ _ _ Hr _ _ Hi Hc) as Hok.
  assert (Hb : flag (c_flags c) B_BUSY = true) by (apply Hok; eauto).
  pose proof (cell_valid_flag _ _ _ _ Hok (flag_nonzero _ _ Hb)) as Hv.
  pose proof (ok_valid _ _ _ _ Hok) as Hvv. rewrite Hv in Hvv. destruct Hvv.
  exists c. subst k. split_and!; try done; lia.
Qed.

(** A held block is held by one buffer. *)
Lemma held_inj drv a cs i j k :
  cells_rep drv a cs -> c_held a !! i = Some k -> c_held a !! j = Some k -> i = j.
Proof.
  intros Hr Hi Hj.
  destruct (held_cell _ _ _ _ _ Hr Hi) as (c & ? & Hc & Hk & _ & _ & _ & Hs & _).
  destruct (held_cell _ _ _ _ _ Hr Hj) as (c' & ? & Hc' & Hk' & _).
  eapply (cr_uniq _ _ _ Hr i j c c'); try done; [congruence|].
  rewrite Hk. by eapply serves_nodev.
Qed.

(** A block whose buffer exists, is not held and not pinned has its disk contents. *)
Lemma platter_uncached drv a cs d n :
  cells_rep drv a cs ->
  (forall i c, 0 <= i < NBUF -> cs !! Z.to_nat i = Some c -> c_key c <> (d, n)) ->
  platter drv d n = c_view a d n.
Proof.
  intros Hr Hno. apply (cr_platter _ _ _ Hr).
  - intros Hp. destruct (cr_pinned _ _ _ Hr _ Hp) as (i & c & Hi & Hc & Hk). by eapply Hno.
  - intros Ht. destruct (cr_touched _ _ _ Hr _ Ht) as [i Hh].
    destruct (cr_held _ _ _ Hr _ _ Hh) as (Hi & c & Hc & Hk). by eapply Hno.
Qed.

(** A free buffer exists while fewer than [NBUF] blocks are kept. *)
Lemma free_buffer drv a cs :
  cells_rep drv a cs -> length cs = S (Z.to_nat NBUF) -> (size (kept a) < Z.to_nat NBUF)%nat ->
  ~ (forall i c, 0 <= i < NBUF -> cs !! Z.to_nat i = Some c ->
       flag (c_flags c) B_BUSY = true \/ flag (c_flags c) B_DIRTY = true).
Proof.
  intros Hr Hlen Hsz Hall.
  set (keys := c_key <$> take (Z.to_nat NBUF) cs).
  assert (Hkl : length keys = Z.to_nat NBUF).
  { unfold keys. rewrite length_fmap, length_take, Hlen. lia. }
  assert (Hlk : forall n k, keys !! n = Some k -> exists c, (n < Z.to_nat NBUF)%nat /\
            cs !! n = Some c /\ c_key c = k).
  { intros n k Hk. unfold keys in Hk. apply list_lookup_fmap_Some in Hk as (c & -> & Hc).
    apply lookup_take_Some in Hc as [Hc ?]. eauto. }
  assert (Hsub : list_to_set keys ⊆ kept a).
  { intros k Hk. apply elem_of_list_to_set, list_elem_of_lookup in Hk as [n Hn].
    destruct (Hlk _ _ Hn) as (c & Hlt & Hc & <-).
    rewrite <- (Nat2Z.id n) in Hc.
    pose proof (cr_ok _ _ _ Hr (Z.of_nat n) c ltac:(lia) Hc) as Hok.
    destruct (Hall (Z.of_nat n) c ltac:(lia) Hc) as [Hb|Hd]; unfold kept.
    - apply elem_of_union_r. apply (ok_busy _ _ _ _ Hok) in Hb as [k Hh].
      destruct (cr_held _ _ _ Hr _ _ Hh) as (_ & c' & Hc' & <-).
      rewrite Hc in Hc'. injection Hc' as <-. apply elem_of_map_img. eauto.
    - apply elem_of_union_l. by apply (ok_dirty _ _ _ _ Hok). }
  assert (Hnd : NoDup keys).
  { apply NoDup_alt. intros n m k Hn Hm.
    destruct (Hlk _ _ Hn) as (c & Hnl & Hc & Hck). destruct (Hlk _ _ Hm) as (c' & Hml & Hc' & Hck').
    rewrite <- (Nat2Z.id n) in Hc. rewrite <- (Nat2Z.id m) in Hc'.
    enough (Z.of_nat n = Z.of_nat m) by lia.
    eapply (cr_uniq _ _ _ Hr _ _ c c'); [lia|lia|done|done|congruence|].
    pose proof (cr_ok _ _ _ Hr (Z.of_nat n) c ltac:(lia) Hc) as Hok.
    assert (flag (c_flags c) B_VALID = true) as Hv.
    { eapply cell_valid_flag; [done|].
      destruct (Hall (Z.of_nat n) c ltac:(lia) Hc); eauto using flag_nonzero. }
    pose proof (ok_valid _ _ _ _ Hok) as Hvv. rewrite Hv in Hvv. destruct Hvv as [Hs _].
    by eapply serves_nodev. }
  apply subseteq_size in Hsub. rewrite size_list_to_set in Hsub by done. lia.
Qed.

(** ** Changes to one buffer *)

(** Replacing a cell by one of the same block. *)
Lemma cells_keep drv drv' a a' cs i c c' :
  cells_rep drv a cs -> 0 <= i < NBUF -> cs !! Z.to_nat i = Some c -> c_key c' = c_key c ->
  cell_ok drv' a' i c' ->
  (forall j x, 0 <= j < NBUF -> j <> i -> c_key x <> c_key c \/ flag (c_flags x) B_VALID = false ->
     cell_ok drv a j x -> cell_ok drv' a' j x) ->
  (forall j k, c_held a' !! j = Some k -> c_held a !! j = Some k \/ j = i /\ k = c_key c) ->
  (forall k, k ∈ c_pinned a' -> k ∈ c_pinned a \/ k = c_key c) ->
  (forall k, k ∈ c_touched a' -> exists j, c_held a' !! j = Some k) ->
  (forall d n, (d, n) ∉ c_pinned a' -> (d, n) ∉ c_touched a' -> platter drv' d n = c_view a' d n) ->
  (forall d n, blk_ok (c_view a' d n)) -> drv_idle drv' ->
  cells_rep drv' a' (<[Z.to_nat i := c']> cs).
Proof.
  intros Hr Hi Hc Hk Hok Hothers Hheld Hpin Htouch Hplat Hview Hidle.
  pose proof (lookup_lt_Some _ _ _ Hc) as Hlt.
  assert (Hlk : forall j x, 0 <= j < NBUF -> <[Z.to_nat i := c']> cs !! Z.to_nat j = Some x ->
            j = i /\ x = c' \/ j <> i /\ cs !! Z.to_nat j = Some x).
  { intros j x Hj Hx. destruct (decide (j = i)) as [->|Hne].
    - rewrite list_lookup_insert_eq in Hx by done. left. naive_solver.
    - rewrite list_lookup_insert_ne in Hx by lia. by right. }
  assert (Hex : forall j x, 0 <= j < NBUF -> cs !! Z.to_nat j = Some x ->
            exists y, <[Z.to_nat i := c']> cs !! Z.to_nat j = Some y /\ c_key y = c_key x).
  { intros j x Hj Hx. destruct (decide (j = i)) as [->|Hne].
    - exists c'. rewrite list_lookup_insert_eq by done. split; [done|]. congruence.
    - exists x. by rewrite list_lookup_insert_ne by lia. }
  constructor; try done.
  - intros j x Hj Hx. destruct (Hlk _ _ Hj Hx) as [[-> ->]|[Hne Hx']]; [done|].
    apply Hothers; [done..| |by eapply cr_ok].
    destruct (flag (c_flags x) B_VALID) eqn:Ev; [left|by right].
    intros E. apply Hne. eapply (cr_uniq _ _ _ Hr); try done.
    pose proof (ok_valid _ _ _ _ (cr_ok _ _ _ Hr _ _ Hj Hx')) as Hv.
    rewrite Ev in Hv. destruct Hv. by eapply serves_nodev.
  - intros j k Hh. destruct (Hheld _ _ Hh) as [Hh'|[-> ->]].
    + destruct (cr_held _ _ _ Hr _ _ Hh') as (Hj & x & Hx & <-). split; [done|]. by apply Hex.
    + split; [done|]. by apply Hex.
  - intros j j' x y Hj Hj' Hx Hy Heq Hnd.
    destruct (Hlk _ _ Hj Hx) as [[-> ->]|[? Hx']], (Hlk _ _ Hj' Hy) as [[-> ->]|[? Hy']]; [done|..].
    + rewrite Hk in Heq, Hnd. by eapply (cr_uniq _ _ _ Hr i j' c y).
    + rewrite Hk in Heq. by eapply (cr_uniq _ _ _ Hr j i x c).
    + by eapply (cr_uniq _ _ _ Hr j j' x y).
  - intros k [Hp|Hp]%Hpin.
    + destruct (cr_pinned _ _ _ Hr _ Hp) as (j & x & Hj & Hx & <-).
      destruct (Hex _ _ Hj Hx) as (y & ? & ?). by exists j, y.
    + destruct (Hex _ _ Hi Hc) as (y & ? & ?). exists i, y. by subst k.
Qed.

(** Setting or clearing B_BUSY. *)
Definition hold (i : Z) (k : Z * Z) (a : cache) : cache :=
  mkCache (c_view a) (<[i := k]> (c_held a)) (c_touched a) (c_pinned a).
Definition release (i : Z) (a : cache) : cache :=
  mkCache (c_view a) (delete i (c_held a)) (c_touched a) (c_pinned a).
(** Changing the data of a held buffer. *)
Definition touch (k : Z * Z) (x : list Z) (a : cache) : cache :=
  mkCache (upd_blk (c_view a) k.1 k.2 x) (c_held a) ({[k]} ∪ c_touched a) (c_pinned a).
(** Marking a held buffer dirty, for the log. *)
Definition pin (k : Z * Z) (a : cache) : cache :=
  mkCache (c_view a) (c_held a) (c_touched a ∖ {[k]}) ({[k]} ∪ c_pinned a).
(** Writing a held buffer to the disk. *)
Definition flush (k : Z * Z) (a : cache) : cache :=
  mkCache (c_view a) (c_held a) (c_touched a ∖ {[k]}) (c_pinned a ∖ {[k]}).

Lemma flags_set_busy f :
  flags_ok f -> flags_ok (Z.lor f B_BUSY) /\ flag (Z.lor f B_BUSY) B_BUSY = true /\
  flag (Z.lor f B_BUSY) B_DIRTY = flag f B_DIRTY /\ flag (Z.lor f B_BUSY) B_VALID = flag f B_VALID.
Proof. intros H. unfold flags_ok at 1. flag_crush H. Qed.
Lemma flags_clr_busy f :
  flags_ok f ->
  let g := Z.land f (Z.lnot B_BUSY) in
  flags_ok g /\ flag g B_BUSY = false /\ flag g B_DIRTY = flag f B_DIRTY /\
  flag g B_VALID = flag f B_VALID.
Proof. intros H. unfold flags_ok at 1. flag_crush H. Qed.
Lemma flags_set_dirty f :
  flags_ok f ->
  let g := Z.lor f B_DIRTY in
  flags_ok g /\ flag g B_BUSY = flag f B_BUSY /\ flag g B_DIRTY = true /\
  flag g B_VALID = flag f B_VALID.
Proof. intros H. unfold flags_ok at 1. flag_crush H. Qed.

Lemma cells_hold drv a cs i c :
  cells_rep drv a cs -> 0 <= i < NBUF -> cs !! Z.to_nat i = Some c ->
  flag (c_flags c) B_VALID = true ->
  cells_rep drv (hold i (c_key c) a)
    (<[Z.to_nat i := mkCell (Z.lor (c_flags c) B_BUSY) (c_key c) (c_data c)]> cs).
Proof.
  intros Hr Hi Hc Hv. pose proof (cr_ok _ _ _ Hr _ _ Hi Hc) as [Hf Hb Hd Hok].
  rewrite Hv in Hok. destruct (flags_set_busy _ Hf) as (F1 & F2 & F3 & F4).
  eapply (cells_keep drv drv a _ cs i c); try done.
  - constructor; simpl; [done| |by rewrite F3|by rewrite F4, Hv].
    rewrite F2, lookup_insert_eq. split; eauto.
  - intros j x Hj Hne _ [G1 G2 G3 G4]. constructor; simpl; try done.
    by rewrite lookup_insert_ne.
  - intros j k. simpl. rewrite lookup_insert_Some. naive_solver.
  - intros k Hk. by left.
  - intros k Hk. destruct (cr_touched _ _ _ Hr _ Hk) as [j Hj]. simpl.
    destruct (decide (j = i)) as [->|?].
    + destruct (cr_held _ _ _ Hr _ _ Hj) as (_ & x & Hx & <-). exists i.
      rewrite Hc in Hx. injection Hx as <-. apply lookup_insert_eq.
    + exists j. by rewrite lookup_insert_ne.
  - apply (cr_platter _ _ _ Hr).
  - apply (cr_view _ _ _ Hr).
  - apply (cr_idle _ _ _ Hr).
Qed.

Lemma cells_release drv a cs i c :
  cells_rep drv a cs -> 0 <= i < NBUF -> cs !! Z.to_nat i = Some c ->
  c_held a !! i = Some (c_key c) -> c_key c ∉ c_touched a ->
  cells_rep drv (release i a)
    (<[Z.to_nat i := mkCell (Z.land (c_flags c) (Z.lnot B_BUSY)) (c_key c) (c_data c)]> cs).
Proof.
  intros Hr Hi Hc Hh Ht.
  destruct (held_cell _ _ _ _ _ Hr Hh) as (c' & _ & Hc' & _ & [Hf Hb Hd Hok] & _ & Hv & _).
  rewrite Hc in Hc'. injection Hc' as <-. rewrite Hv in Hok.
  destruct (flags_clr_busy _ Hf) as (F1 & F2 & F3 & F4).
  eapply (cells_keep drv drv a _ cs i c); try done.
  - constructor; simpl; [done| |by rewrite F3|by rewrite F4, Hv].
    rewrite F2, lookup_delete_eq. split; [done|by intros []].
  - intros j x Hj Hne _ [G1 G2 G3 G4]. constructor; simpl; try done.
    by rewrite lookup_delete_ne.
  - intros j k. simpl. rewrite lookup_delete_Some. naive_solver.
  - intros k Hk. by left.
  - intros k Hk. destruct (cr_touched _ _ _ Hr _ Hk) as [j Hj]. exists j. simpl.
    rewrite lookup_delete_ne; [done|]. intros ->. apply Ht.
    rewrite Hh in Hj. by injection Hj as ->.
  - apply (cr_platter _ _ _ Hr).
  - apply (cr_view _ _ _ Hr).
  - apply (cr_idle _ _ _ Hr).
Qed.

Lemma upd_blk_eq p d n x : upd_blk p d n x d n = x.
Proof. unfold upd_blk. by rewrite decide_True. Qed.
Lemma upd_blk_ne p d n x d' n' : (d', n') <> (d, n) -> upd_blk p d n x d' n' = p d' n'.
Proof. intros. unfold upd_blk. rewrite decide_False; [done|]. by intros [-> ->]. Qed.

Lemma cells_touch drv a cs i c x :
  cells_rep drv a cs -> 0 <= i < NBUF -> cs !! Z.to_nat i = Some c ->
  c_held a !! i = Some (c_key c) -> blk_ok x ->
  cells_rep drv (touch (c_key c) x a)
    (<[Z.to_nat i := mkCell (c_flags c) (c_key c) x]> cs).
Proof.
  intros Hr Hi Hc Hh Hx.
  destruct (held_cell _ _ _ _ _ Hr Hh) as (c' & _ & Hc' & _ & [Hf Hb Hd Hok] & _ & Hv & Hs & _).
  rewrite Hc in Hc'. injection Hc' as <-.
  eapply (cells_keep drv drv a _ cs i c); try done.
  - constructor; simpl; try done. rewrite Hv. split; [done|]. unfold view_at. simpl.
    by rewrite upd_blk_eq.
  - intros j y Hj Hne Hk [G1 G2 G3 G4]. constructor; simpl; try done.
    destruct Hk as [Hk|Hk]; [|by rewrite Hk in G4 |- *]. destruct (flag (c_flags y) B_VALID); [|done].
    destruct G4 as [? ->]. split; [done|]. unfold view_at. simpl. symmetry. apply upd_blk_ne.
    by rewrite <- !surjective_pairing.
  - intros j k ?. by left.
  - intros k Hk. by left.
  - simpl. intros k [->%elem_of_singleton|Hk]%elem_of_union; [eauto|].
    apply (cr_touched _ _ _ Hr _ Hk).
  - simpl. intros d n Hp [Hne Ht]%not_elem_of_union. rewrite upd_blk_ne.
    + by apply (cr_platter _ _ _ Hr).
    + rewrite <- surjective_pairing. set_solver.
  - intros d n. simpl. unfold upd_blk. case_decide; [done|]. apply (cr_view _ _ _ Hr).
  - apply (cr_idle _ _ _ Hr).
Qed.

Lemma cells_pin drv a cs i c :
  cells_rep drv a cs -> 0 <= i < NBUF -> cs !! Z.to_nat i = Some c ->
  c_held a !! i = Some (c_key c) ->
  cells_rep drv (pin (c_key c) a)
    (<[Z.to_nat i := mkCell (Z.lor (c_flags c) B_DIRTY) (c_key c) (c_data c)]> cs).
Proof.
  intros Hr Hi Hc Hh.
  destruct (held_cell _ _ _ _ _ Hr Hh) as (c' & _ & Hc' & _ & [Hf Hb Hd Hok] & _ & Hv & Hs & _).
  rewrite Hc in Hc'. injection Hc' as <-. rewrite Hv in Hok.
  destruct (flags_set_dirty _ Hf) as (F1 & F2 & F3 & F4).
  eapply (cells_keep drv drv a _ cs i c); try done.
  - constructor; simpl; [done|by rewrite F2| |by rewrite F4, Hv].
    rewrite F3. split; [set_solver|done].
  - intros j y Hj Hne Hk [G1 G2 G3 G4]. constructor; simpl; try done.
    rewrite G3, elem_of_union, elem_of_singleton. split; [by right|]. intros [E|?]; [|done].
    destruct Hk as [?|Hk]; [done|]. rewrite Hk in G4. destruct G4 as [_ G4].
    exfalso. apply (serves_nodev _ _ _ Hs). by rewrite <- E.
  - intros j k ?. by left.
  - simpl. set_solver.
  - simpl. intros k Hk. apply (cr_touched _ _ _ Hr). set_solver.
  - simpl. intros d n Hp Ht. apply (cr_platter _ _ _ Hr); set_solver.
  - apply (cr_view _ _ _ Hr).
  - apply (cr_idle _ _ _ Hr).
Qed.

(** The cell after [iderw] wrote it, with the driver state that results. *)
Lemma cells_flush drv drv' a cs i c :
  cells_rep drv a cs -> 0 <= i < NBUF -> cs !! Z.to_nat i = Some c ->
  c_held a !! i = Some (c_key c) -> drv_idle drv' ->
  (forall x y, drv_serves drv' x y <-> drv_serves drv x y) ->
  (forall x y, platter drv' x y =
               upd_blk (platter drv) (c_key c).1 (c_key c).2 (c_data c) x y) ->
  cells_rep drv' (flush (c_key c) a)
    (<[Z.to_nat i := mkCell (Z.lor B_BUSY B_VALID) (c_key c) (c_data c)]> cs).
Proof.
  intros Hr Hi Hc Hh Hidle Hserves Hplat.
  destruct (held_cell _ _ _ _ _ Hr Hh) as (c' & _ & Hc' & _ & [Hf Hb Hd Hok] & _ & Hv & Hs & Hdat).
  rewrite Hc in Hc'. injection Hc' as <-. rewrite Hv in Hok.
  eapply (cells_keep drv drv' a _ cs i c); try done.
  - constructor; simpl; [unfold flags_ok; vm_compute; intuition congruence| | |].
    + split; [eauto|done].
    + split; [done|set_solver].
    + change (flag 3 B_VALID) with true. cbv iota. rewrite Hserves. done.
  - intros j y Hj Hne Hk [G1 G2 G3 G4]. constructor; simpl; try done.
    + rewrite G3, elem_of_difference, elem_of_singleton. split; [|tauto].
      intros Hp. split; [done|]. intros E. destruct Hk as [?|Hk]; [done|].
      rewrite Hk in G4. destruct G4 as [_ G4]. apply (serves_nodev _ _ _ Hs). by rewrite <- E.
    + destruct (flag (c_flags y) B_VALID); [|done]. by rewrite Hserves.
  - intros j k ?. by left.
  - simpl. set_solver.
  - simpl. intros k Hk. apply (cr_touched _ _ _ Hr). set_solver.
  - simpl. intros d n Hp Ht. rewrite Hplat.
    destruct (decide ((d, n) = c_key c)) as [E|E].
    + rewrite <- E. simpl. rewrite upd_blk_eq, Hdat, <- E. done.
    + rewrite upd_blk_ne by (by rewrite <- surjective_pairing).
      apply (cr_platter _ _ _ Hr); set_solver.
  - apply (cr_view _ _ _ Hr).
Qed.

(** Recycling a free buffer for an uncached block and reading it. *)
Lemma cells_load drv drv' a cs i c d n :
  cells_rep drv a cs -> 0 <= i < NBUF -> cs !! Z.to_nat i = Some c ->
  flag (c_flags c) B_BUSY = false -> flag (c_flags c) B_DIRTY = false ->
  (forall j x, 0 <= j < NBUF -> cs !! Z.to_nat j = Some x -> c_key x <> (d, n)) ->
  drv_serves drv d n -> drv_idle drv' ->
  (forall x y, drv_serves drv' x y <-> drv_serves drv x y) ->
  (forall x y, platter drv' x y = platter drv x y) ->
  cells_rep drv' (hold i (d, n) a)
    (<[Z.to_nat i := mkCell (Z.lor B_BUSY B_VALID) (d, n) (platter drv d n)]> cs).
Proof.
  intros Hr Hi Hc Hnb Hndt Hno Hs Hidle Hserves Hplat.
  pose proof (lookup_lt_Some _ _ _ Hc) as Hlt.
  pose proof (cr_ok _ _ _ Hr _ _ Hi Hc) as [Hf Hb Hd Hok].
  assert (Hnh : c_held a !! i = None).
  { destruct (c_held a !! i) eqn:E; [|done]. rewrite (proj2 Hb) in Hnb; [done|eauto]. }
  assert (Hnp : (d, n) ∉ c_pinned a).
  { intros Hp. destruct (cr_pinned _ _ _ Hr _ Hp) as (j & x & Hj & Hx & E). by eapply Hno. }
  set (c' := mkCell (Z.lor B_BUSY B_VALID) (d, n) (platter drv d n)).
  assert (Hlk : forall j x, 0 <= j < NBUF -> <[Z.to_nat i := c']> cs !! Z.to_nat j = Some x ->
            j = i /\ x = c' \/ j <> i /\ cs !! Z.to_nat j = Some x).
  { intros j x Hj Hx. destruct (decide (j = i)) as [->|Hne].
    - rewrite list_lookup_insert_eq in Hx by done. left. naive_solver.
    - rewrite list_lookup_insert_ne in Hx by lia. by right. }
  constructor; simpl.
  - intros j x Hj Hx. destruct (Hlk _ _ Hj Hx) as [[-> ->]|[Hne Hx']].
    + constructor; simpl; [unfold flags_ok; vm_compute; intuition congruence| | |].
      * rewrite lookup_insert_eq. split; [eauto|done].
      * split; [done|tauto].
      * change (flag 3 B_VALID) with true. cbv iota. rewrite Hserves. split; [done|].
        by eapply platter_uncached.
    + pose proof (cr_ok _ _ _ Hr _ _ Hj Hx') as [G1 G2 G3 G4]. constructor; simpl; try done.
      * by rewrite lookup_insert_ne.
      * destruct (flag (c_flags x) B_VALID); [|done]. by rewrite Hserves.
  - intros j k. rewrite lookup_insert_Some. intros [[-> <-]|[Hne Hh]].
    + split; [done|]. exists c'. by rewrite list_lookup_insert_eq.
    + destruct (cr_held _ _ _ Hr _ _ Hh) as (Hj & x & Hx & <-). split; [done|]. exists x.
      by rewrite list_lookup_insert_ne by lia.
  - intros j j' x y Hj Hj' Hx Hy Heq Hnd.
    destruct (Hlk _ _ Hj Hx) as [[-> ->]|[? Hx']], (Hlk _ _ Hj' Hy) as [[-> ->]|[? Hy']]; [done|..].
    + exfalso. by apply (Hno _ _ Hj' Hy').
    + exfalso. by apply (Hno _ _ Hj Hx').
    + by eapply (cr_uniq _ _ _ Hr j j' x y).
  - intros k Hk. destruct (cr_pinned _ _ _ Hr _ Hk) as (j & x & Hj & Hx & <-).
    exists j, x. split_and!; try lia; [|done].
    rewrite list_lookup_insert_ne; [done|]. intros E. assert (j = i) as -> by lia.
    rewrite Hc in Hx. injection Hx as <-. rewrite (proj2 Hd) in Hndt; done.
  - intros k Hk. destruct (cr_touched _ _ _ Hr _ Hk) as [j Hj]. exists j.
    rewrite lookup_insert_ne; [done|]. intros ->. by rewrite Hnh in Hj.
  - intros x y Hp Ht. rewrite Hplat. by apply (cr_platter _ _ _ Hr).
  - apply (cr_view _ _ _ Hr).
  - done.
Qed.

(** ** The operations refine the abstract cache *)

Lemma payload_upd (s : st) i b' :
  payload <$> <[Z.to_nat i := b']> (st_bufs s) =
  <[Z.to_nat i := payload b']> (payload <$> st_bufs s).
Proof. apply list_fmap_insert. Qed.

Lemma payload_at (s : st) i b :
  buf_at s i b -> (payload <$> st_bufs s) !! Z.to_nat i = Some (payload b).
Proof. intros [_ Hb]. by rewrite list_lookup_fmap, Hb. Qed.

Lemma payload_inv (s : st) i c :
  0 <= i -> (payload <$> st_bufs s) !! Z.to_nat i = Some c ->
  exists b, buf_at s i b /\ c = payload b.
Proof.
  intros Hi Hc. apply list_lookup_fmap_Some in Hc as (b & -> & Hb). exists b. by split.
Qed.

(** A held buffer, with what it shows. *)
Lemma rep_held (s : st) a i k :
  cache_rep s a -> c_held a !! i = Some k ->
  exists b, 0 <= i < NBUF /\ buf_at s i b /\ (b_dev b, b_blockno b) = k /\
    flags_ok (b_flags b) /\ busy b = true /\ valid b = true /\
    drv_serves (st_drv s) k.1 k.2 /\ b_data b = view_at (c_view a) k.
Proof.
  intros [_ Hr] Hh. destruct (held_cell _ _ _ _ _ Hr Hh) as (c & Hi & Hc & Hk & Hok & ? & ? & ? & ?).
  destruct (payload_inv s i c) as (b & Hb & ->); [lia|done|]. exists b.
  split_and!; try done; try lia; by apply Hok.
Qed.

(** There is a buffer for block [k]: its own, or a free one. *)
Definition room (a : cache) (k : Z * Z) : Prop :=
  k ∈ c_pinned a \/ (size (kept a) < Z.to_nat NBUF)%nat.

(** Locking a cached buffer, or recycling a free one. *)
Lemma wp_bget (s : st) a d n (Q : Z -> st -> Prop) :
  cache_rep s a -> drv_serves (st_drv s) d n ->
  (forall i, c_held a !! i <> Some (d, n)) -> room a (d, n) ->
  (forall i b, 0 <= i < NBUF -> buf_at s i b -> busy b = false ->
     (b_dev b, b_blockno b) = (d, n) ->
     Q i (with_bufs (<[Z.to_nat i := set_flags (Z.lor (b_flags b) B_BUSY) b]> (st_bufs s)) s)) ->
  (forall i b, 0 <= i < NBUF -> buf_at s i b -> busy b = false -> dirty b = false ->
     (forall j x, 0 <= j < NBUF -> buf_at s j x -> (b_dev x, b_blockno x) <> (d, n)) ->
     Q i (with_bufs (<[Z.to_nat i := set_key d n B_BUSY b]> (st_bufs s)) s)) ->
  wp (bget d n) Q s.
Proof.
  intros [[q Hq] Hr] Hs Hnh Hsz Hhit Hmiss. unfold bget.
  destruct (ring_at s q HEAD Hq) as [h Hh]; [unfold HEAD, NBUF, MAXOPBLOCKS; lia|].
  pose proof (ring_nodup _ _ Hq) as [Hhq _]%NoDup_cons.
  assert (Hin : forall i, i ∈ q -> exists b, buf_at s i b).
  { intros i Hi. apply (ring_elem _ _ _ Hq) in Hi. apply (ring_at s q); [done|lia]. }
  assert (Hlen : (length q <= Z.to_nat NBUF)%nat).
  { destruct Hq as (_ & _ & Hp). rewrite Hp, length_seqZ. done. }
  apply wp_bind. eapply wp_getb; [done|]. rewrite <- (nxt_at _ _ _ Hh).
  apply wp_bind. eapply (wp_scan b_next _ _ _ q s (nxt (st_bufs s))).
  { eapply dseg_path_next; [apply Hq|done]. }
  { done. }
  { intros i b Hb. by apply nxt_at. }
  { done. }
  - intros i b Hi Hb [E1%Z.eqb_eq E2%Z.eqb_eq]%andb_true_iff.
    apply (ring_elem _ _ _ Hq) in Hi. apply wp_bind. eapply wp_getb; [done|].
    destruct (busy b) eqn:Eb; simpl.
    + exfalso. pose proof (cr_ok _ _ _ Hr _ _ Hi (payload_at _ _ _ Hb)) as Hok.
      apply (ok_busy _ _ _ _ Hok) in Eb as [k Hk]. apply (Hnh i). rewrite Hk. f_equal.
      destruct (cr_held _ _ _ Hr _ _ Hk) as (_ & c & Hc & <-).
      rewrite (payload_at _ _ _ Hb) in Hc. injection Hc as <-. simpl. congruence.
    + apply wp_bind. eapply wp_updb; [done|]. apply wp_ret.
      apply Hhit; [done..|congruence].
  - intros Hno. apply wp_bind. eapply wp_getb; [done|]. rewrite <- (prv_at _ _ _ Hh).
    apply wp_bind. eapply (wp_scan b_prev _ _ _ (reverse q) s (prv (st_bufs s))).
    { eapply dseg_path_prev; [apply Hq|done]. }
    { by rewrite length_reverse. }
    { intros i b Hb. by apply prv_at. }
    { intros i Hi. apply Hin. by rewrite elem_of_reverse in Hi. }
    + intros i b Hi Hb [E1%negb_true_iff E2%negb_true_iff]%andb_true_iff.
      rewrite elem_of_reverse, (ring_elem _ _ _ Hq) in Hi.
      apply wp_bind. eapply wp_updb; [done|]. apply wp_ret. apply Hmiss; try done.
      intros j x Hj Hx [= E3 E4]. apply (ring_elem _ _ _ Hq) in Hj.
      specialize (Hno j x Hj Hx). rewrite E3, E4, !Z.eqb_refl in Hno. done.
    + intros Hall. exfalso.
      destruct Hsz as [Hp|Hsz].
      { destruct (cr_pinned _ _ _ Hr _ Hp) as (i & c & Hi & Hc & Hk).
        destruct (payload_inv s i c) as (b & Hb & ->); [lia|done|]. injection Hk as E1 E2.
        apply (ring_elem _ _ _ Hq) in Hi. specialize (Hno i b Hi Hb).
        rewrite E1, E2, !Z.eqb_refl in Hno. done. }
      apply (free_buffer _ _ _ Hr); [rewrite length_fmap; apply Hq|done|].
      intros i c Hi Hc. destruct (payload_inv s i c) as (b & Hb & ->); [lia|done|].
      assert (i ∈ reverse q) as Hiq by (rewrite elem_of_reverse; by apply (ring_elem _ _ _ Hq)).
      specialize (Hall i b Hiq Hb). simpl.
      change (busy b = true \/ dirty b = true). destruct (busy b), (dirty b); auto.
Qed.

(** What the reading operations leave alone. *)
Definition env_same (s s' : st) : Prop :=
  st_log s' = st_log s /\ st_writes s' = st_writes s /\
  (forall x y, drv_serves (st_drv s') x y <-> drv_serves (st_drv s) x y) /\
  (forall x y, platter (st_drv s') x y = platter (st_drv s) x y).

Lemma env_same_refl s : env_same s s.
Proof. done. Qed.
Lemma env_same_trans s1 s2 s3 : env_same s1 s2 -> env_same s2 s3 -> env_same s1 s3.
Proof.
  intros (A1 & A2 & A3 & A4) (B1 & B2 & B3 & B4). split_and!; try congruence.
  intros x y. by rewrite B3, A3.
Qed.

(** [bread]: the buffer returned is held and shows the block. *)
Lemma wp_bread (s : st) a d n :
  cache_rep s a -> drv_serves (st_drv s) d n ->
  (forall i, c_held a !! i <> Some (d, n)) -> room a (d, n) ->
  wp (bread d n) (fun i s' =>
    c_held a !! i = None /\ cache_rep s' (hold i (d, n) a) /\ env_same s s') s.
Proof.
  intros Hrep Hs Hnh Hsz. pose proof Hrep as [[q Hq] Hr]. unfold bread. apply wp_bind.
  assert (Hfree : forall i b, 0 <= i < NBUF -> buf_at s i b -> busy b = false -> c_held a !! i = None).
  { intros i b Hi Hb Hnb. destruct (c_held a !! i) as [k|] eqn:E; [|done].
    destruct (rep_held _ _ _ _ Hrep E) as (b' & _ & Hb' & _ & _ & Hbz & _).
    rewrite (buf_at_det _ _ _ _ Hb Hb') in Hnb. congruence. }
  eapply wp_bget; [done..| |].
  - intros i b Hi Hb Hnb Hk. set (b1 := set_flags (Z.lor (b_flags b) B_BUSY) b).
    assert (Hb1 : buf_at (with_bufs (<[Z.to_nat i := b1]> (st_bufs s)) s) i b1)
      by (by eapply buf_at_upd_same).
    apply wp_bind. eapply wp_getb; [done|].
    pose proof (cr_ok _ _ _ Hr _ _ Hi (payload_at _ _ _ Hb)) as [Hf _ _ Hv].
    simpl in Hf, Hv. destruct (flags_set_busy _ Hf) as (_ & _ & _ & F4).
    assert (Hvalid : flag (b_flags b) B_VALID = true).
    { destruct (flag (b_flags b) B_VALID); [done|]. destruct Hv as [_ Hv].
      exfalso. apply (serves_nodev _ _ _ Hs). congruence. }
    unfold valid, b1. simpl. rewrite F4, Hvalid. simpl. apply wp_bind, wp_ret, wp_ret.
    split_and!; [by eapply Hfree| |done]. split.
    + exists q. simpl. by apply (ring_upd s q i b).
    + simpl. rewrite payload_upd, <- Hk.
      exact (cells_hold _ _ _ _ _ Hr Hi (payload_at _ _ _ Hb) Hvalid).
  - intros i b Hi Hb Hnb Hndt Hno. set (b1 := set_key d n B_BUSY b).
    assert (Hb1 : buf_at (with_bufs (<[Z.to_nat i := b1]> (st_bufs s)) s) i b1)
      by (by eapply buf_at_upd_same).
    apply wp_bind. eapply wp_getb; [done|]. change (valid b1) with false. simpl. apply wp_bind.
    eapply wp_mono; [apply (iderw_read _ i b1); try done; [apply (cr_idle _ _ _ Hr)|apply Hi]|].
    intros [] s' (d' & qn & -> & Hidle & Hserves & Hplat). apply wp_ret.
    split_and!; [by eapply Hfree| |done]. split.
    + exists q. simpl. rewrite list_insert_insert_eq. by apply (ring_upd s q i b).
    + simpl. rewrite list_insert_insert_eq, payload_upd.
      apply (cells_load (st_drv s) d' a _ i (payload b) d n); try done.
      * by apply payload_at.
      * intros j c Hj Hc. destruct (payload_inv s j c) as (x & Hx & ->); [lia|done|].
        by apply (Hno j x).
Qed.

(** Reading and changing the data of a held buffer. *)
Definition get_data (i : Z) : M st (list Z) := b <- getb i ;; ret (b_data b).
Definition put_data (i : Z) (x : list Z) : M st unit := updb i (set_data x).

Lemma wp_get_data (s : st) a i k (Q : list Z -> st -> Prop) :
  cache_rep s a -> c_held a !! i = Some k -> Q (c_view a k.1 k.2) s -> wp (get_data i) Q s.
Proof.
  intros Hr Hh HQ. destruct (rep_held _ _ _ _ Hr Hh) as (b & _ & Hb & _ & _ & _ & _ & _ & Hd).
  apply wp_bind. eapply wp_getb; [done|]. apply wp_ret. by rewrite Hd.
Qed.

Lemma wp_put_data (s : st) a i k x :
  cache_rep s a -> c_held a !! i = Some k -> blk_ok x ->
  wp (put_data i x) (fun _ s' => cache_rep s' (touch k x a) /\ env_same s s') s.
Proof.
  intros Hrep Hh Hx. destruct (rep_held _ _ _ _ Hrep Hh) as (b & Hi & Hb & <- & _).
  pose proof Hrep as [[q Hq] Hr]. eapply wp_updb; [done|]. split; [|done]. split.
  - exists q. simpl. by apply (ring_upd s q i b).
  - simpl. rewrite payload_upd.
    exact (cells_touch _ _ _ _ (payload b) _ Hr Hi (payload_at _ _ _ Hb) Hh Hx).
Qed.

(** [b->flags |= B_DIRTY] on a held buffer. *)
Lemma wp_pin (s : st) a i k :
  cache_rep s a -> c_held a !! i = Some k ->
  wp (updb i (fun b => set_flags (Z.lor (b_flags b) B_DIRTY) b)) (fun _ s' =>
    cache_rep s' (pin k a) /\ env_same s s') s.
Proof.
  intros Hrep Hh. destruct (rep_held _ _ _ _ Hrep Hh) as (b & Hi & Hb & <- & _).
  pose proof Hrep as [[q Hq] Hr]. eapply wp_updb; [done|]. split; [|done]. split.
  - exists q. simpl. by apply (ring_upd s q i b).
  - simpl. rewrite payload_upd.
    exact (cells_pin _ _ _ _ (payload b) Hr Hi (payload_at _ _ _ Hb) Hh).
Qed.

(** [bwrite]: the block reaches the disk; nothing is pending for it any more. *)
Lemma wp_bwrite (s : st) a i k :
  cache_rep s a -> c_held a !! i = Some k ->
  wp (bwrite i) (fun _ s' =>
    cache_rep s' (flush k a) /\ st_log s' = st_log s /\
    st_writes s' = st_writes s ++ [(k.1, k.2, c_view a k.1 k.2)] /\
    (forall x y, drv_serves (st_drv s') x y <-> drv_serves (st_drv s) x y) /\
    forall x y, platter (st_drv s') x y =
                upd_blk (platter (st_drv s)) k.1 k.2 (c_view a k.1 k.2) x y) s.
Proof.
  intros Hrep Hh. destruct (rep_held _ _ _ _ Hrep Hh) as (b & Hi & Hb & <- & Hf & Hbz & Hv & Hs & Hd).
  pose proof Hrep as [[q Hq] Hr]. unfold bwrite. apply wp_bind. eapply wp_getb; [done|].
  rewrite Hbz. simpl. apply wp_bind, wp_modify.
  apply wp_bind. eapply wp_updb; [done|].
  set (b1 := set_flags (Z.lor (b_flags b) B_DIRTY) b).
  destruct (flags_set_dirty _ Hf) as (F1 & F2 & F3 & F4).
  match goal with |- wp _ _ ?x => set (s1 := x) end.
  assert (Hb1 : buf_at s1 i b1).
  { apply (buf_at_upd_same (with_writes _ s) i b). done. }
  eapply wp_mono; [apply (iderw_write s1 i b1)|].
  - apply (cr_idle _ _ _ Hr).
  - done.
  - lia.
  - done.
  - unfold busy, b1. simpl. by rewrite F2.
  - done.
  - done.
  - simpl. rewrite Hd. apply (cr_view _ _ _ Hr).
  - intros [] s' (d' & qn & -> & Hidle & Hserves & Hplat).
    unfold view_at in Hd. simpl in Hd. split_and!; [|done| |done|].
    + split.
      * exists q. simpl. rewrite list_insert_insert_eq. by apply (ring_upd s q i b).
      * simpl. rewrite list_insert_insert_eq, payload_upd.
        replace (payload _) with (mkCell (Z.lor B_BUSY B_VALID) (c_key (payload b)) (c_data (payload b))).
        -- apply (cells_flush (st_drv s) d' a _ i (payload b)); try done. by apply payload_at.
        -- unfold payload. simpl. rewrite synced_busy; [done|done|by rewrite F2].
    + simpl. by rewrite Hd.
    + intros x y. rewrite Hplat. simpl. by rewrite Hd.
Qed.

(** Link updates: the links become [nx] and [pv], the rest stays. *)
Definition relinked (s s' : st) (nx pv : Z -> Z) : Prop :=
  s' = with_bufs (st_bufs s') s /\ length (st_bufs s') = length (st_bufs s) /\
  payload <$> st_bufs s' = payload <$> st_bufs s /\
  (forall x, nxt (st_bufs s') x = nx x) /\ (forall x, prv (st_bufs s') x = pv x).

Lemma relinked_refl s : relinked s s (nxt (st_bufs s)) (prv (st_bufs s)).
Proof. split_and!; try done. by destruct s. Qed.

Lemma relinked_at s s' nx pv j :
  relinked s s' nx pv -> length (st_bufs s) = S (Z.to_nat NBUF) -> 0 <= j <= NBUF ->
  exists b, buf_at s' j b /\ b_next b = nx j /\ b_prev b = pv j.
Proof.
  intros (_ & Hl & _ & Hn & Hp) Hlen Hj.
  destruct (lookup_lt_is_Some_2 (st_bufs s') (Z.to_nat j)) as [b Hb]; [lia|].
  assert (Hat : buf_at s' j b) by (by split; [lia|]). exists b.
  by rewrite <- Hn, <- Hp, (nxt_at _ _ _ Hat), (prv_at _ _ _ Hat).
Qed.

Lemma relinked_upd s s' nx pv nx' pv' j b b' :
  relinked s s' nx pv -> buf_at s' j b -> payload b' = payload b ->
  (forall x, fupd nx j (b_next b') x = nx' x) -> (forall x, fupd pv j (b_prev b') x = pv' x) ->
  relinked s (with_bufs (<[Z.to_nat j := b']> (st_bufs s')) s') nx' pv'.
Proof.
  intros (E & Hl & Hp & Hn & Hv) Hb Hpay Hnx Hpv. split_and!.
  - rewrite E. done.
  - simpl. by rewrite length_insert.
  - simpl. rewrite payload_upd, Hpay, <- Hp. apply list_insert_id. by apply payload_at.
  - intros x. simpl. rewrite (nxt_upd _ _ _ _ _ Hb), <- Hnx. unfold fupd. by case_decide.
  - intros x. simpl. rewrite (prv_upd _ _ _ _ _ Hb), <- Hpv. unfold fupd. by case_decide.
Qed.

Lemma fupd_same f j v x : f j = v -> fupd f j v x = f x.
Proof. intros <-. unfold fupd. case_decide; congruence. Qed.

Lemma wp_set_prev s s' nx pv j v (Q : unit -> st -> Prop) :
  relinked s s' nx pv -> length (st_bufs s) = S (Z.to_nat NBUF) -> 0 <= j <= NBUF ->
  (forall s'', relinked s s'' nx (fupd pv j v) -> Q tt s'') ->
  wp (updb j (set_prev v)) Q s'.
Proof.
  intros Hr Hl Hj HQ. destruct (relinked_at _ _ _ _ _ Hr Hl Hj) as (b & Hb & Hbn & Hbp).
  eapply wp_updb; [done|]. apply HQ.
  eapply relinked_upd; [done..| |]; intros x; simpl; [by apply fupd_same|done].
Qed.

Lemma wp_set_next s s' nx pv j v (Q : unit -> st -> Prop) :
  relinked s s' nx pv -> length (st_bufs s) = S (Z.to_nat NBUF) -> 0 <= j <= NBUF ->
  (forall s'', relinked s s'' (fupd nx j v) pv -> Q tt s'') ->
  wp (updb j (set_next v)) Q s'.
Proof.
  intros Hr Hl Hj HQ. destruct (relinked_at _ _ _ _ _ Hr Hl Hj) as (b & Hb & Hbn & Hbp).
  eapply wp_updb; [done|]. apply HQ.
  eapply relinked_upd; [done..| |]; intros x; simpl; [done|by apply fupd_same].
Qed.

Lemma wp_get_link {B} s s' nx pv j (k : buf -> M st B) (Q : B -> st -> Prop) :
  relinked s s' nx pv -> length (st_bufs s) = S (Z.to_nat NBUF) -> 0 <= j <= NBUF ->
  (forall b, buf_at s' j b -> b_next b = nx j -> b_prev b = pv j -> wp (k b) Q s') ->
  wp (bind (getb j) k) Q s'.
Proof.
  intros Hr Hl Hj HQ. destruct (relinked_at _ _ _ _ _ Hr Hl Hj) as (b & Hb & Hbn & Hbp).
  apply wp_bind. eapply wp_getb; [done|]. by apply HQ.
Qed.

(** The neighbours of an element of the ring are in it. *)
Lemma dseg_neighbours nx pv h q i :
  dseg nx pv h q h -> i ∈ q -> nx i ∈ h :: q /\ pv i ∈ h :: q.
Proof.
  intros Hd Hi. apply list_elem_of_split in Hi as (q1 & q2 & ->).
  apply dseg_app in Hd as [H1 H2]. split.
  - destruct q2; simpl in H2; destruct H2 as [-> _]; set_solver.
  - destruct q1 as [|z q1 _] using rev_ind; simpl in H1; [destruct H1 as [_ ->]; set_solver|].
    apply dseg_app in H1 as [_ [_ ->]]. set_solver.
Qed.

(** Moving a buffer to the front of the ring. *)
Definition front_next (nx pv : Z -> Z) (i : Z) : Z -> Z :=
  let nx' := fupd nx (pv i) (nx i) in fupd (fupd nx' i (nx' HEAD)) HEAD i.
Definition front_prev (nx pv : Z -> Z) (i : Z) : Z -> Z :=
  let nx' := fupd nx (pv i) (nx i) in
  fupd (fupd (fupd pv (nx i) (pv i)) i HEAD) (nx' HEAD) i.

Lemma ring_front l l' q i :
  ring l q -> i ∈ q -> length l' = length l ->
  (forall x, nxt l' x = front_next (nxt l) (prv l) i x) ->
  (forall x, prv l' x = front_prev (nxt l) (prv l) i x) ->
  exists q', ring l' (i :: q').
Proof.
  intros Hr Hi Hlen Hn Hp. pose proof (ring_nodup _ _ Hr) as Hnd.
  apply list_elem_of_split in Hi as (q1 & q2 & ->). destruct Hr as (Hl & Hd & Hperm).
  pose proof (dseg_unlink _ _ _ _ _ _ Hd Hnd) as Hu. exists (q1 ++ q2). split_and!.
  - congruence.
  - eapply dseg_frame; [intros; apply Hn|intros; apply Hp|].
    apply (dseg_push _ _ _ _ _ Hu). rewrite <- Permutation_middle in Hnd.
    rewrite !NoDup_cons in *. set_solver.
  - by rewrite Permutation_middle.
Qed.

(** [brelse]: the buffer goes to the front of the LRU list and is no longer held. *)
Lemma wp_brelse (s : st) a i k :
  cache_rep s a -> c_held a !! i = Some k -> k ∉ c_touched a ->
  wp (brelse i) (fun _ s' => cache_rep s' (release i a) /\ env_same s s' /\
    nxt (st_bufs s') HEAD = i) s.
Proof.
  intros Hrep Hh Ht.
  destruct (rep_held _ _ _ _ Hrep Hh) as (b & Hi & Hb & <- & _ & Hbz & _).
  pose proof Hrep as [[q Hq] Hr]. pose proof Hq as (Hlen & Hd & _).
  pose proof (proj2 (ring_elem _ _ i Hq) Hi) as Hiq.
  assert (Hin : forall x, x ∈ HEAD :: q -> 0 <= x <= NBUF).
  { intros x [->|Hx]%elem_of_cons; [by vm_compute|]. apply (ring_elem _ _ _ Hq) in Hx. lia. }
  destruct (dseg_neighbours _ _ _ _ _ Hd Hiq) as [Hn%Hin Hp%Hin].
  assert (HiH : i <> HEAD) by (unfold HEAD; lia).
  assert (HH : 0 <= HEAD <= NBUF) by (by vm_compute).
  set (nx := nxt (st_bufs s)) in *. set (pv := prv (st_bufs s)) in *.
  assert (Hself : nx i <> i).
  { intros E. pose proof (ring_nodup _ _ Hq) as Hnd.
    apply list_elem_of_split in Hiq as (q1 & q2 & ->). apply dseg_app in Hd as [_ Hd].
    destruct q2 as [|w q2]; simpl in Hd; destruct Hd as [Ed _]; [congruence|].
    rewrite NoDup_cons, NoDup_app, NoDup_cons in Hnd. set_solver. }
  unfold brelse. apply wp_bind. eapply wp_getb; [done|]. rewrite Hbz. simpl.
  rewrite <- (nxt_at _ _ _ Hb), <- (prv_at _ _ _ Hb).
  apply wp_bind. eapply wp_set_prev; [apply relinked_refl|done|done|]. intros s1 H1.
  eapply wp_get_link; [done|done|lia|]. intros b1 _ Hb1n Hb1p.
  rewrite Hb1n, Hb1p, fupd_ne by done.
  apply wp_bind. eapply wp_set_next; [done..|]. intros s2 H2.
  eapply wp_get_link; [done..|]. intros h1 _ Hh1 _. rewrite Hh1.
  apply wp_bind. eapply wp_set_next; [done|done|lia|]. intros s3 H3.
  apply wp_bind. eapply wp_set_prev; [done|done|lia|]. intros s4 H4.
  eapply wp_get_link; [done..|]. intros h2 _ Hh2 _. rewrite Hh2, fupd_ne by done.
  assert (Hrange : 0 <= fupd nx (pv i) (nx i) HEAD <= NBUF).
  { unfold fupd. case_decide; [done|]. apply Hin.
    destruct q as [|z q]; [set_solver|]. destruct Hd as [-> _]. set_solver. }
  apply wp_bind. eapply wp_set_prev; [done|done|done|]. intros s5 H5.
  apply wp_bind. eapply wp_set_next; [done..|]. intros s6 H6.
  destruct H6 as (E6 & Hl6 & Hp6 & Hn6 & Hv6).
  destruct (ring_front _ (st_bufs s6) q i Hq Hiq Hl6 Hn6 Hv6) as [q' Hq'].
  destruct (payload_inv s6 i (payload b)) as (b6 & Hb6 & Epay); [lia|rewrite Hp6; by apply payload_at|].
  eapply wp_updb; [done|]. split; [split|split].
  - exists (i :: q'). simpl. by apply (ring_upd s6 _ i b6).
  - rewrite E6. simpl. rewrite payload_upd, Hp6.
    pose proof (cells_release _ _ _ i (payload b) Hr Hi (payload_at _ _ _ Hb) Hh Ht) as Hrel.
    rewrite Epay in Hrel. exact Hrel.
  - rewrite E6. done.
  - simpl. rewrite (nxt_upd _ _ _ _ _ Hb6), fupd_ne by done. destruct Hq' as (_ & Hq' & _).
    apply Hq'.
Qed.

(** ** Booting: [binit] on the zeroed [bcache] *)

Definition zero_buf : buf := mkBuf 0 0 0 NULLB NULLB NULLB zero_blk.
Definition zero_bufs : list buf := replicate (S (Z.to_nat NBUF)) zero_buf.

(** A fresh cache: nothing held or pinned, every block shows the disk. *)
Definition fresh (drv : D) : cache := mkCache (platter drv) ∅ ∅ ∅.

(** The buffers after [binit]: buffer 29 is the most recent, 0 the oldest. *)
Definition booted_bufs : list buf :=
  ((fun i => mkBuf 0 NODEV 0 (if i =? 29 then HEAD else i + 1) (if i =? 0 then HEAD else i - 1)
               NULLB zero_blk) <$> seqZ 0 NBUF) ++ [mkBuf 0 0 0 0 29 NULLB zero_blk].

#[local] Arguments booted_bufs : simpl never.

Lemma binit_run drv lg w :
  binit (mkBst zero_bufs drv lg w) = Done tt (mkBst booted_bufs drv lg w).
Proof. reflexivity. Qed.

Lemma binit_ring : ring booted_bufs (reverse (seqZ 0 NBUF)).
Proof.
  split_and!; [done| |apply reverse_Permutation].
  vm_compute. repeat split.
Qed.

Lemma binit_cells drv : drv_idle drv -> cells_rep drv (fresh drv) (payload <$> booted_bufs).
Proof.
  intros Hid. constructor; try (simpl; set_solver); try done.
  - intros i c Hi Hc. rewrite list_lookup_fmap in Hc.
    assert (exists p n, booted_bufs !! Z.to_nat i = Some (mkBuf 0 NODEV 0 p n NULLB zero_blk)) as (p & n & E).
    { unfold booted_bufs. rewrite lookup_app_l by (rewrite length_fmap, length_seqZ; lia).
      rewrite list_lookup_fmap, lookup_seqZ_lt by lia. eauto. }
    rewrite E in Hc. injection Hc as <-. constructor; simpl.
    + by vm_compute.
    + rewrite lookup_empty. split; [done|by intros []].
    + split; [done|set_solver].
    + done.
  - intros i j c c' Hi Hj Hc Hc' Hk Hnd. exfalso. apply Hnd.
    rewrite list_lookup_fmap in Hc. unfold booted_bufs in Hc.
    rewrite lookup_app_l in Hc by (rewrite length_fmap, length_seqZ; lia).
    rewrite list_lookup_fmap, lookup_seqZ_lt in Hc by lia. injection Hc as <-. done.
  - intros d n. by apply platter_ok.
Qed.

Lemma wp_binit (s : st) :
  st_bufs s = zero_bufs -> drv_idle (st_drv s) ->
  wp binit (fun _ s' => cache_rep s' (fresh (st_drv s)) /\ env_same s s') s.
Proof.
  intros Hb Hid. destruct s as [l drv lg w]. simpl in *. subst l.
  unfold wp. rewrite binit_run. split; [|done]. split; [|by apply binit_cells].
  eexists. apply binit_ring.
Qed.

(** Caches whose views agree block by block represent the same states. *)
#[export] Instance cache_equiv : Equiv cache := fun a b =>
  (forall d n, c_view a d n = c_view b d n) /\
  c_held a = c_held b /\ c_touched a = c_touched b /\ c_pinned a = c_pinned b.

#[export] Instance cache_equivalence : Equivalence (≡@{cache}).
Proof.
  split.
  - intros a. done.
  - intros a b (? & ? & ? & ?). split_and!; congruence.
  - intros a b c (? & ? & ? & ?) (? & ? & ? & ?). split_and!; congruence.
Qed.

#[export] Instance cells_rep_proper drv : Proper ((≡) ==> eq ==> impl) (cells_rep drv).
Proof.
  intros [v h t p] [v' h' t' p'] (Hv & Hh & Ht & Hp) cs ? <- [A1 A2 A3 A4 A5 A6 A7 A8].
  simpl in *. subst h' t' p'. constructor; simpl in *; try done.
  - intros i c Hi Hc. destruct (A1 i c Hi Hc) as [F1 F2 F3 F4]. constructor; try done.
    simpl in *. unfold view_at in *. by rewrite <- Hv.
  - intros d n. rewrite <- Hv. apply A6.
  - intros d n. rewrite <- Hv. apply A7.
Qed.

#[export] Instance cache_rep_proper s : Proper ((≡) ==> impl) (cache_rep s).
Proof. intros a b Hab [Hq Hr]. split; [done|]. by rewrite <- Hab. Qed.

(** A sequence of sector writes. *)
Definition apply_writes (w : list (Z * Z * list Z)) (p : Z -> Z -> list Z) : Z -> Z -> list Z :=
  foldl (fun p '(d, n, x) => upd_blk p d n x) p w.
Definition write_keys (w : list (Z * Z * list Z)) : gset (Z * Z) := list_to_set (fst <$> w).

Lemma apply_writes_snoc w d n x p :
  apply_writes (w ++ [(d, n, x)]) p = upd_blk (apply_writes w p) d n x.
Proof. unfold apply_writes. by rewrite foldl_app. Qed.
Lemma apply_writes_app w w' p : apply_writes (w ++ w') p = apply_writes w' (apply_writes w p).
Proof. unfold apply_writes. by rewrite foldl_app. Qed.

Lemma apply_writes_ext w p p' :
  (forall d n, p d n = p' d n) -> forall d n, apply_writes w p d n = apply_writes w p' d n.
Proof.
  induction w as [|[[d0 n0] x] w IH] using rev_ind; intros Hp d n; [done|].
  rewrite !apply_writes_snoc. unfold upd_blk. case_decide; auto.
Qed.

Lemma apply_writes_other w p d n : (d, n) ∉ write_keys w -> apply_writes w p d n = p d n.
Proof.
  unfold write_keys. induction w as [|[[d0 n0] x] w IH] using rev_ind; [done|].
  rewrite apply_writes_snoc, fmap_app, list_to_set_app. simpl. intros Hk.
  rewrite upd_blk_ne by set_solver. apply IH. set_solver.
Qed.

(** A sequence that writes every block at most once leaves what it wrote. *)
Lemma apply_writes_in w p d n x :
  NoDup w.*1 -> (d, n, x) ∈ w -> apply_writes w p d n = x.
Proof.
  intros Hnd (w1 & w2 & ->)%list_elem_of_split.
  rewrite fmap_app, NoDup_app in Hnd. destruct Hnd as (_ & _ & Hnd).
  apply NoDup_cons in Hnd as [Hni _]. rewrite apply_writes_app.
  change (apply_writes w2 (upd_blk (apply_writes w1 p) d n x) d n = x).
  rewrite apply_writes_other; [apply upd_blk_eq|]. unfold write_keys.
  by rewrite elem_of_list_to_set.
Qed.
End Bio.
