(* ===== verification/Log.v ===== *)
(** * The redo log: log.c

    Transactions are collected in memory ([log.lh]) and pinned in the buffer
    cache; [commit] copies them to the on-disk log, writes the header, installs
    the blocks and erases the header.  [recover_from_log] replays a committed
    header at boot.  The theorems are about the sequence of sectors [commit]
    writes: whatever prefix of it reaches the disk before a crash, recovery
    yields the state before or the state after the transaction. *)

From S2P Require Import Prelude Buf Bio.

Section Log.
Context {D : Type} `{BD : BlockDevice D}.
Abbreviation st := (bst D).

(** ** The operations *)

Definition get_log : M st log := gets (@st_log D).
Definition upd_log (f : log -> log) : M st unit := modify (fun s => with_log (f (st_log s)) s).

Definition set_lh (h : logheader) (l : log) : log :=
  mkLog (log_start l) (log_size l) (log_outstanding l) (log_committing l) (log_dev l) h.
Definition set_lh_n (n : Z) (l : log) : log := set_lh (mkLh n (lh_block (log_lh l))) l.
Definition set_outstanding (n : Z) (l : log) : log :=
  mkLog (log_start l) (log_size l) n (log_committing l) (log_dev l) (log_lh l).
Definition set_committing (c : Z) (l : log) : log :=
  mkLog (log_start l) (log_size l) (log_outstanding l) c (log_dev l) (log_lh l).
Definition set_area (start size dev : Z) (l : log) : log :=
  mkLog start size (log_outstanding l) (log_committing l) dev (log_lh l).

(** [log.lh.block[i]], an array of [LOGSIZE] ints. *)
Definition get_block (i : Z) : M st Z :=
  l <- get_log ;;
  if i <? 0 then fault "log.lh.block" else of_option "log.lh.block" (lh_block (log_lh l) !! Z.to_nat i).
Definition set_block (i v : Z) : M st unit :=
  get_block i ;;;
  upd_log (fun l => set_lh (mkLh (lh_n (log_lh l)) (<[Z.to_nat i := v]> (lh_block (log_lh l)))) l).

(** Offset of [block[i]] in [struct logheader]. *)
Definition block_off (i : Z) : nat := Z.to_nat (4 + 4 * i).

(** The body of the loop of [install_trans]. *)
Definition install_one (tail : Z) : M st unit :=
  l <- get_log ;;
  lbuf <- bread (u32 (log_dev l)) (u32 (log_start l + tail + 1)) ;;
  blk <- get_block tail ;;
  dbuf <- bread (u32 (log_dev l)) (u32 blk) ;;
  x <- get_data lbuf ;;
  put_data dbuf x ;;;
  bwrite dbuf ;;;
  brelse lbuf ;;;
  brelse dbuf.

Definition install_trans : M st unit :=
  l <- get_log ;;
  for_each (Z.to_nat (lh_n (log_lh l))) 0 install_one.

Definition read_head : M st unit :=
  l <- get_log ;;
  buf <- bread (u32 (log_dev l)) (u32 (log_start l)) ;;
  lh <- get_data buf ;;
  upd_log (set_lh_n (s32 (get32 0 lh))) ;;;
  for_each (Z.to_nat (s32 (get32 0 lh))) 0 (fun i =>
    lh <- get_data buf ;;
    set_block i (s32 (get32 (block_off i) lh))) ;;;
  brelse buf.

Definition write_head : M st unit :=
  l <- get_log ;;
  buf <- bread (u32 (log_dev l)) (u32 (log_start l)) ;;
  hb <- get_data buf ;;
  put_data buf (put32 0 (lh_n (log_lh l)) hb) ;;;
  for_each (Z.to_nat (lh_n (log_lh l))) 0 (fun i =>
    v <- get_block i ;;
    hb <- get_data buf ;;
    put_data buf (put32 (block_off i) v hb)) ;;;
  bwrite buf ;;;
  brelse buf.

Definition recover_from_log : M st unit :=
  read_head ;;;
  install_trans ;;;
  upd_log (set_lh_n 0) ;;;
  write_head.

(** The body of the loop of [write_log]. *)
Definition log_one (tail : Z) : M st unit :=
  l <- get_log ;;
  to <- bread (u32 (log_dev l)) (u32 (log_start l + tail + 1)) ;;
  blk <- get_block tail ;;
  from <- bread (u32 (log_dev l)) (u32 blk) ;;
  x <- get_data from ;;
  put_data to x ;;;
  bwrite to ;;;
  brelse from ;;;
  brelse to.

Definition write_log : M st unit :=
  l <- get_log ;;
  for_each (Z.to_nat (lh_n (log_lh l))) 0 log_one.

Definition commit : M st unit :=
  l <- get_log ;;
  if lh_n (log_lh l) >? 0 then
    write_log ;;;
    write_head ;;;
    install_trans ;;;
    upd_log (set_lh_n 0) ;;;
    write_head
  else ret tt.

Definition begin_op : M st unit :=
  l <- get_log ;;
  if negb (log_committing l =? 0) then sleep_on "log"
  else if lh_n (log_lh l) + (log_outstanding l + 1) * MAXOPBLOCKS >? LOGSIZE then sleep_on "log"
  else upd_log (set_outstanding (log_outstanding l + 1)).

Definition end_op : M st unit :=
  l <- get_log ;;
  upd_log (set_outstanding (log_outstanding l - 1)) ;;;
  if negb (log_committing l =? 0) then panic "log.committing"
  else if log_outstanding l - 1 =? 0 then
    upd_log (set_committing 1) ;;;
    commit ;;;
    upd_log (set_committing 0)
  else ret tt.

Definition log_write (b : Z) : M st unit :=
  l <- get_log ;;
  if (lh_n (log_lh l) >=? LOGSIZE) || (lh_n (log_lh l) >=? log_size l - 1)
  then panic "too big a transaction"
  else if log_outstanding l <? 1 then panic "log_write outside of trans"
  else
    bb <- getb b ;;
    r <- for_ (Z.to_nat (lh_n (log_lh l))) 0 (fun i =>
           v <- get_block i ;;
           ret (if u32 v =? b_blockno bb then Some i else None)) ;;
    let i := match r with Some i => i | None => lh_n (log_lh l) end in
    set_block i (s32 (b_blockno bb)) ;;;
    (if i =? lh_n (log_lh l) then upd_log (set_lh_n (lh_n (log_lh l) + 1)) else ret tt) ;;;
    updb b (fun b => set_flags (Z.lor (b_flags b) B_DIRTY) b).

(** [initlog] after [readsb(prt, &sb)] has filled [sb]. *)
Definition initlog_with (logstart nlog dev : Z) : M st unit :=
  if 4 + 4 * LOGSIZE >=? BSIZE then panic "initlog: too big logheader" else
  upd_log (set_area (s32 logstart) (s32 nlog) (s32 dev)) ;;;
  recover_from_log.

(** ** One copy *)

(** A cache in which no buffer is held. *)
Definition quiet (v : Z -> Z -> list Z) (P : gset (Z * Z)) : cache := mkCache v ∅ ∅ P.

(** Sector [x] was written to block [n] of [d], and nothing else happened. *)
Definition wrote (s s' : st) (d n : Z) (x : list Z) : Prop :=
  st_log s' = st_log s /\ st_writes s' = st_writes s ++ [(d, n, x)] /\
  (forall a b, drv_serves (st_drv s') a b <-> drv_serves (st_drv s) a b) /\
  (forall a b, platter (st_drv s') a b = upd_blk (platter (st_drv s)) d n x a b).

Lemma wp_get_block (s : st) i b (Q : Z -> st -> Prop) :
  0 <= i -> lh_block (log_lh (st_log s)) !! Z.to_nat i = Some b -> Q b s -> wp (get_block i) Q s.
Proof.
  intros Hi Hb HQ. unfold get_block. apply wp_bind, wp_gets.
  destruct (Z.ltb_spec i 0); [lia|]. rewrite Hb. by apply wp_ret.
Qed.

Lemma held_none_hold (a : cache) i k j k' :
  c_held a = ∅ -> k <> k' -> c_held (hold i k a) !! j <> Some k'.
Proof.
  intros Ha Hne. simpl. rewrite Ha, lookup_insert_Some, lookup_empty. naive_solver.
Qed.

Lemma room_hold v P i k k' :
  (k' ∈ P \/ S (size P) < Z.to_nat NBUF)%nat -> room (hold i k (quiet v P)) k'.
Proof.
  intros [Hp|Hsz]; [by left|right]. unfold kept. simpl.
  pose proof (size_union_alt P (map_img (<[i := k]> (∅ : gmap Z (Z * Z))) : gset (Z * Z))) as Hu.
  pose proof (map_img_insert_subseteq (SA := gset (Z * Z)) (∅ : gmap Z (Z * Z)) i k) as Hi.
  assert (map_img (<[i := k]> (∅ : gmap Z (Z * Z))) ⊆ ({[k]} : gset (Z * Z))) as Hs.
  { intros x Hx. apply elem_of_map_img in Hx as [j Hj].
    apply lookup_insert_Some in Hj. rewrite lookup_empty in Hj. set_solver. }
  enough (size (P ∪ map_img (<[i := k]> (∅ : gmap Z (Z * Z)))) <= size (P ∪ {[k]}))%nat.
  { pose proof (size_union_alt P {[k]}). assert (size ({[k]} ∖ P) <= 1)%nat.
    { rewrite <- (size_singleton (C := gset (Z * Z)) k). apply subseteq_size. set_solver. }
    lia. }
  apply subseteq_size. set_solver.
Qed.

(** Two buffers are read, the contents of block [n1] are written to block [n2],
    and both are released. *)
Lemma quiet_after v P i1 i2 k1 k2 x :
  i1 <> i2 -> k1 <> k2 ->
  release i2 (release i1 (flush k2 (touch k2 x (hold i2 k2 (hold i1 k1 (quiet v P)))))) =
    quiet (upd_blk v k2.1 k2.2 x) (P ∖ {[k2]}) /\
  release i1 (release i2 (flush k1 (touch k1 x (hold i2 k2 (hold i1 k1 (quiet v P)))))) =
    quiet (upd_blk v k1.1 k1.2 x) (P ∖ {[k1]}).
Proof.
  intros Hi Hk. unfold release, flush, touch, hold, quiet. simpl. split; f_equal;
    try set_solver; apply map_eq; intros j; rewrite lookup_empty;
    destruct (decide (j = i1)), (decide (j = i2)); simplify_map_eq; done.
Qed.

Lemma release_ne (a : cache) i j k :
  i <> j -> c_held a !! j = Some k -> c_held (release i a) !! j = Some k.
Proof. intros. simpl. by rewrite lookup_delete_ne. Qed.

Lemma wrote_env s1 s2 s3 s4 d n x :
  env_same s1 s2 -> wrote s2 s3 d n x -> env_same s3 s4 -> wrote s1 s4 d n x.
Proof.
  intros (A1 & A2 & A3 & A4) (B1 & B2 & B3 & B4) (C1 & C2 & C3 & C4). split_and!.
  - congruence.
  - congruence.
  - intros a b. by rewrite C3, B3, A3.
  - intros a b. rewrite C4, B4. unfold upd_blk. case_decide; [done|apply A4].
Qed.

Section Copy.
Context (s : st) (v : Z -> Z -> list Z) (P : gset (Z * Z)) (tail blk dv n1 n2 : Z).
Hypotheses
  (Hrep : cache_rep s (quiet v P))
  (Hdv : u32 (log_dev (st_log s)) = dv)
  (Hn1 : u32 (log_start (st_log s) + tail + 1) = n1)
  (Hn2 : u32 blk = n2)
  (Htail : 0 <= tail)
  (Hblk : lh_block (log_lh (st_log s)) !! Z.to_nat tail = Some blk)
  (Hne : n1 <> n2)
  (Hs1 : drv_serves (st_drv s) dv n1)
  (Hs2 : drv_serves (st_drv s) dv n2)
  (Hsz : (size P < Z.to_nat NBUF)%nat)
  (Hroom : ((dv, n2) ∈ P \/ S (size P) < Z.to_nat NBUF)%nat).

(** Both copying loops first read the log block and the home block. *)
Lemma wp_read_pair (k : Z -> Z -> M st unit) Q :
  (forall i1 i2 s',
     i1 <> i2 -> cache_rep s' (hold i2 (dv, n2) (hold i1 (dv, n1) (quiet v P))) -> env_same s s' ->
     wp (k i1 i2) Q s') ->
  wp (l <- get_log ;;
      b1 <- bread (u32 (log_dev l)) (u32 (log_start l + tail + 1)) ;;
      blk <- get_block tail ;;
      b2 <- bread (u32 (log_dev l)) (u32 blk) ;;
      k b1 b2) Q s.
Proof using Hrep Hdv Hn1 Hn2 Htail Hblk Hne Hs1 Hs2 Hsz Hroom.
  intros HQ. apply wp_bind, wp_gets. rewrite Hdv, Hn1. apply wp_bind.
  eapply wp_mono.
  { apply (wp_bread s (quiet v P)); [done|done|by intros i|].
    right. unfold kept. simpl. rewrite map_img_empty_L, union_empty_r_L. done. }
  intros i1 s1 (Hi1 & Hr1 & He1). pose proof He1 as (El & _ & Hsv & _).
  apply wp_bind. eapply wp_get_block; [done|by rewrite El|]. rewrite Hn2.
  apply wp_bind. eapply wp_mono.
  { apply (wp_bread s1 (hold i1 (dv, n1) (quiet v P))); [done|by apply Hsv| |by apply room_hold].
    intros i. apply held_none_hold; [done|]. congruence. }
  intros i2 s2 (Hi2 & Hr2 & He2).
  apply HQ; [|done|by eapply env_same_trans].
  intros ->. simpl in Hi2. by rewrite lookup_insert_eq in Hi2.
Qed.

Lemma wp_install_one :
  wp (install_one tail) (fun _ s' =>
    cache_rep s' (quiet (upd_blk v dv n2 (v dv n1)) (P ∖ {[(dv, n2)]})) /\
    wrote s s' dv n2 (v dv n1)) s.
Proof using All.
  apply wp_read_pair. intros i1 i2 s1 Hi Hr1 He1.
  assert (Hk : (dv, n1) <> (dv, n2)) by congruence.
  destruct (quiet_after v P i1 i2 (dv, n1) (dv, n2) (v dv n1) Hi Hk) as [Eq _].
  apply wp_bind. eapply (wp_get_data _ _ i1 (dv, n1)); [done|simpl; by simplify_map_eq|].
  apply wp_bind. eapply wp_mono.
  { eapply (wp_put_data _ _ i2 (dv, n2)); [exact Hr1|by apply lookup_insert_eq|].
    apply (cr_view _ _ _ (proj2 Hrep)). }
  intros [] s2 [Hr2 He2]. apply wp_bind. eapply wp_mono.
  { eapply (wp_bwrite _ _ i2 (dv, n2)); [done|by apply lookup_insert_eq]. }
  intros [] s3 (Hr3 & El3 & Ew3 & Es3 & Ep3). simpl in Ew3, Ep3. rewrite upd_blk_eq in Ew3, Ep3.
  apply wp_bind. eapply wp_mono.
  { eapply (wp_brelse _ _ i1 (dv, n1)); [done|simpl; by simplify_map_eq|simpl; set_solver]. }
  intros [] s4 (Hr4 & He4 & _). eapply wp_mono.
  { eapply (wp_brelse _ _ i2 (dv, n2)); [done|simpl; by simplify_map_eq|simpl; set_solver]. }
  intros [] s5 (Hr5 & He5 & _). split; [exact (eq_ind _ (cache_rep s5) Hr5 _ Eq)|].
  eapply wrote_env; [by eapply env_same_trans|by split_and!|by eapply env_same_trans].
Qed.

Lemma wp_log_one :
  wp (log_one tail) (fun _ s' =>
    cache_rep s' (quiet (upd_blk v dv n1 (v dv n2)) (P ∖ {[(dv, n1)]})) /\
    wrote s s' dv n1 (v dv n2)) s.
Proof using All.
  apply wp_read_pair. intros i1 i2 s1 Hi Hr1 He1.
  assert (Hk : (dv, n1) <> (dv, n2)) by congruence.
  destruct (quiet_after v P i1 i2 (dv, n1) (dv, n2) (v dv n2) Hi Hk) as [_ Eq].
  apply wp_bind. eapply (wp_get_data _ _ i2 (dv, n2)); [done|by apply lookup_insert_eq|].
  apply wp_bind. eapply wp_mono.
  { eapply (wp_put_data _ _ i1 (dv, n1)); [exact Hr1|simpl; by simplify_map_eq|].
    apply (cr_view _ _ _ (proj2 Hrep)). }
  intros [] s2 [Hr2 He2]. apply wp_bind. eapply wp_mono.
  { eapply (wp_bwrite _ _ i1 (dv, n1)); [done|simpl; by simplify_map_eq]. }
  intros [] s3 (Hr3 & El3 & Ew3 & Es3 & Ep3). simpl in Ew3, Ep3. rewrite upd_blk_eq in Ew3, Ep3.
  apply wp_bind. eapply wp_mono.
  { eapply (wp_brelse _ _ i2 (dv, n2)); [done|simpl; by simplify_map_eq|simpl; set_solver]. }
  intros [] s4 (Hr4 & He4 & _). eapply wp_mono.
  { eapply (wp_brelse _ _ i1 (dv, n1)); [done|simpl; by simplify_map_eq|simpl; set_solver]. }
  intros [] s5 (Hr5 & He5 & _). split; [exact (eq_ind _ (cache_rep s5) Hr5 _ Eq)|].
  eapply wrote_env; [by eapply env_same_trans|by split_and!|by eapply env_same_trans].
Qed.
End Copy.

(** ** The copying loops *)

Definition wrote_all (s s' : st) (w : list (Z * Z * list Z)) : Prop :=
  st_log s' = st_log s /\ st_writes s' = st_writes s ++ w /\
  (forall a b, drv_serves (st_drv s') a b <-> drv_serves (st_drv s) a b) /\
  (forall a b, platter (st_drv s') a b = apply_writes w (platter (st_drv s)) a b).

Lemma wrote_all_nil s : wrote_all s s [].
Proof. split_and!; try done. by rewrite app_nil_r. Qed.

Lemma wrote_all_snoc s s1 s2 w d n x :
  wrote_all s s1 w -> wrote s1 s2 d n x -> wrote_all s s2 (w ++ [(d, n, x)]).
Proof.
  intros (A1 & A2 & A3 & A4) (B1 & B2 & B3 & B4). split_and!.
  - congruence.
  - by rewrite B2, A2, app_assoc.
  - intros a b. by rewrite B3, A3.
  - intros a b. rewrite B4, apply_writes_snoc. unfold upd_blk. case_decide; [done|apply A4].
Qed.

Lemma wrote_all_app s s1 s2 w w' :
  wrote_all s s1 w -> wrote_all s1 s2 w' -> wrote_all s s2 (w ++ w').
Proof.
  intros (A1 & A2 & A3 & A4) (B1 & B2 & B3 & B4). split_and!.
  - congruence.
  - by rewrite B2, A2, app_assoc.
  - intros a b. by rewrite B3, A3.
  - intros a b. rewrite B4, apply_writes_app. by apply apply_writes_ext.
Qed.

(** The in-memory log describes a transaction that fits the on-disk log. *)
Record log_wf (drv : D) (l : log) : Prop := {
  wf_dev : 0 <= log_dev l < 2 ^ 31;
  wf_start : 0 <= log_start l /\ log_start l + log_size l < 2 ^ 31;
  wf_n : 0 <= lh_n (log_lh l) <= LOGSIZE /\ lh_n (log_lh l) < log_size l;
  wf_len : length (lh_block (log_lh l)) = Z.to_nat LOGSIZE;
  wf_area : forall j, 0 <= j < log_size l -> drv_serves drv (log_dev l) (log_start l + j);
  wf_blocks : forall i b, 0 <= i < lh_n (log_lh l) ->
    lh_block (log_lh l) !! Z.to_nat i = Some b ->
    0 <= b < 2 ^ 31 /\ ~ (log_start l <= b < log_start l + log_size l) /\
    drv_serves drv (log_dev l) b;
  wf_nodup : NoDup (take (Z.to_nat (lh_n (log_lh l))) (lh_block (log_lh l)))
}.

Definition homes (l : log) : list Z := take (Z.to_nat (lh_n (log_lh l))) (lh_block (log_lh l)).
Definition home (l : log) (i : Z) : Z := nth (Z.to_nat i) (homes l) 0.
Definition home_keys (l : log) : gset (Z * Z) := list_to_set ((fun b => (log_dev l, b)) <$> homes l).

Lemma home_lookup drv l i :
  log_wf drv l -> 0 <= i < lh_n (log_lh l) ->
  lh_block (log_lh l) !! Z.to_nat i = Some (home l i).
Proof.
  intros Hwf Hi. pose proof (wf_n _ _ Hwf). pose proof (wf_len _ _ Hwf).
  assert (homes l !! Z.to_nat i = Some (home l i)) as Hh.
  { unfold home. destruct (homes l !! Z.to_nat i) as [b|] eqn:E.
    - by rewrite (nth_lookup_Some _ _ _ _ E).
    - apply lookup_ge_None in E. unfold homes in E. rewrite length_take in E. lia. }
  unfold homes in Hh. by apply lookup_take_Some in Hh as [? _].
Qed.

Lemma home_props drv l i :
  log_wf drv l -> 0 <= i < lh_n (log_lh l) ->
  0 <= home l i < 2 ^ 31 /\ ~ (log_start l <= home l i < log_start l + log_size l) /\
  drv_serves drv (log_dev l) (home l i).
Proof. intros Hwf Hi. eapply (wf_blocks _ _ Hwf); [done|]. by eapply home_lookup. Qed.

Lemma home_inj drv l i j :
  log_wf drv l -> 0 <= i < lh_n (log_lh l) -> 0 <= j < lh_n (log_lh l) ->
  home l i = home l j -> i = j.
Proof.
  intros Hwf Hi Hj E. pose proof (wf_nodup _ _ Hwf) as Hnd.
  pose proof (home_lookup _ _ _ Hwf Hi) as Li. pose proof (home_lookup _ _ _ Hwf Hj) as Lj.
  rewrite E in Li. rewrite NoDup_alt in Hnd.
  enough (Z.to_nat i = Z.to_nat j) by lia.
  apply (Hnd _ _ (home l j)); apply lookup_take_Some; split; try done; lia.
Qed.

Lemma home_key_elem drv l i :
  log_wf drv l -> 0 <= i < lh_n (log_lh l) -> (log_dev l, home l i) ∈ home_keys l.
Proof.
  intros Hwf Hi. apply elem_of_list_to_set, list_elem_of_fmap. exists (home l i).
  split; [done|]. apply list_elem_of_lookup. exists (Z.to_nat i). unfold homes.
  apply lookup_take_Some. split; [by eapply home_lookup|lia].
Qed.

(** The sectors written by the first [i] rounds of the two loops. *)
Definition log_writes (l : log) (v : Z -> Z -> list Z) (i : Z) : list (Z * Z * list Z) :=
  (fun j => (log_dev l, log_start l + j + 1, v (log_dev l) (home l j))) <$> seqZ 0 i.
Definition home_writes (l : log) (v : Z -> Z -> list Z) (i : Z) : list (Z * Z * list Z) :=
  (fun j => (log_dev l, home l j, v (log_dev l) (log_start l + j + 1))) <$> seqZ 0 i.

Lemma seqZ_snoc i : 0 <= i -> seqZ 0 (i + 1) = seqZ 0 i ++ [i].
Proof.
  intros. rewrite seqZ_app by lia. f_equal.
Qed.

Lemma log_writes_keys l v i d n :
  (d, n) ∈ write_keys (log_writes l v i) <-> d = log_dev l /\ log_start l < n <= log_start l + i.
Proof.
  unfold write_keys, log_writes. rewrite elem_of_list_to_set, <- list_fmap_compose.
  rewrite list_elem_of_fmap. simpl. split.
  - intros (j & [= -> ->] & Hj%elem_of_seqZ). lia.
  - intros [-> Hn]. exists (n - log_start l - 1). rewrite elem_of_seqZ. split; [f_equal|]; lia.
Qed.

Lemma home_writes_keys l v i d n :
  (d, n) ∈ write_keys (home_writes l v i) <-> exists j, 0 <= j < i /\ (d, n) = (log_dev l, home l j).
Proof.
  unfold write_keys, home_writes. rewrite elem_of_list_to_set, <- list_fmap_compose.
  rewrite list_elem_of_fmap. simpl. split.
  - intros (j & Hj & Hs%elem_of_seqZ). exists j. split; [lia|done].
  - intros (j & Hj & E). exists j. rewrite elem_of_seqZ. split; [done|lia].
Qed.

Lemma write_keys_snoc w d n x : write_keys (w ++ [(d, n, x)]) = write_keys w ∪ {[(d, n)]}.
Proof. unfold write_keys. rewrite fmap_app, list_to_set_app_L. simpl. set_solver. Qed.

Lemma log_wf_serves drv drv' l :
  (forall a b, drv_serves drv' a b <-> drv_serves drv a b) -> log_wf drv l -> log_wf drv' l.
Proof.
  intros Hs [A1 A2 A3 A4 A5 A6 A7]. constructor; try done.
  - intros j Hj. apply Hs. by apply A5.
  - intros i b Hi Hb. destruct (A6 i b Hi Hb) as (? & ? & ?). split_and!; try lia. by apply Hs.
Qed.

(** The 32-bit conversions of log.c do not change the numbers in range. *)
Lemma log_u32 drv l i :
  log_wf drv l -> 0 <= i < lh_n (log_lh l) ->
  u32 (log_dev l) = log_dev l /\ u32 (log_start l + i + 1) = log_start l + i + 1 /\
  u32 (home l i) = home l i.
Proof.
  intros Hwf Hi. pose proof (wf_dev _ _ Hwf). pose proof (wf_start _ _ Hwf).
  pose proof (wf_n _ _ Hwf). destruct (home_props _ _ _ Hwf Hi) as (? & _).
  split_and!; apply u32_small; lia.
Qed.

Definition after (v : Z -> Z -> list Z) (P : gset (Z * Z)) (w : list (Z * Z * list Z)) : cache :=
  quiet (apply_writes w v) (P ∖ write_keys w).

Lemma size_minus (P K : gset (Z * Z)) : (size (P ∖ K) <= size P)%nat.
Proof. apply subseteq_size. set_solver. Qed.

Lemma after_nil v P : after v P [] = quiet v P.
Proof. unfold after, write_keys. simpl. by rewrite difference_empty_L. Qed.

Lemma after_snoc v P w d n x :
  quiet (upd_blk (apply_writes w v) d n x) (P ∖ write_keys w ∖ {[(d, n)]}) =
  after v P (w ++ [(d, n, x)]).
Proof.
  unfold after. rewrite apply_writes_snoc, write_keys_snoc. f_equal. set_solver.
Qed.

Lemma wp_write_log (s : st) v P :
  let l := st_log s in
  cache_rep s (quiet v P) -> log_wf (st_drv s) l -> home_keys l ⊆ P ->
  (size P < Z.to_nat NBUF)%nat ->
  wp write_log (fun _ s' =>
    let w := log_writes l v (lh_n (log_lh l)) in
    cache_rep s' (after v P w) /\ wrote_all s s' w) s.
Proof.
  intros l Hrep Hwf Hp Hsz. unfold write_log. apply wp_bind, wp_gets. fold l.
  pose proof (wf_n _ _ Hwf) as Hn. pose proof (wf_start _ _ Hwf) as Hst.
  apply (wp_for_each _ _ _ (fun i s' =>
    cache_rep s' (after v P (log_writes l v i)) /\ wrote_all s s' (log_writes l v i))).
  - split; [|apply wrote_all_nil]. by rewrite after_nil.
  - intros i t Hi [Hrt Hwt]. assert (Hi' : 0 <= i < lh_n (log_lh l)) by lia.
    pose proof Hwt as (El & _ & Hsv & _).
    destruct (log_u32 _ _ _ Hwf Hi') as (U1 & U2 & U3).
    destruct (home_props _ _ _ Hwf Hi') as (Hh1 & Hh2 & Hh3).
    eapply wp_mono.
    { apply (wp_log_one t _ _ i (home l i) (log_dev l) (log_start l + i + 1) (home l i) Hrt);
        rewrite ?El; try done; try lia.
      - by eapply home_lookup.
      - apply Hsv. replace (log_start l + i + 1) with (log_start l + (i + 1)) by lia.
        apply (wf_area _ _ Hwf). lia.
      - by apply Hsv.
      - pose proof (size_minus P (write_keys (log_writes l v i))). lia.
      - left. apply elem_of_difference. split; [apply Hp; by eapply home_key_elem|].
        rewrite log_writes_keys. lia. }
    cbv beta. rewrite (apply_writes_other _ _ _ (home l i)) by (rewrite log_writes_keys; lia).
    intros [] t' [Hrt' Hwt'].
    assert (log_writes l v (i + 1) = log_writes l v i ++
              [(log_dev l, log_start l + i + 1, v (log_dev l) (home l i))]) as Es.
    { unfold log_writes. rewrite seqZ_snoc by lia. by rewrite fmap_app. }
    rewrite Es. split; [|by eapply wrote_all_snoc].
    by rewrite <- after_snoc.
  - intros t. rewrite Z2Nat.id by lia. done.
Qed.

Lemma wp_install_trans (s : st) v P :
  let l := st_log s in
  cache_rep s (quiet v P) -> log_wf (st_drv s) l ->
  (size P < Z.to_nat NBUF)%nat -> (home_keys l ⊆ P \/ S (size P) < Z.to_nat NBUF)%nat ->
  wp install_trans (fun _ s' =>
    let w := home_writes l v (lh_n (log_lh l)) in
    cache_rep s' (after v P w) /\ wrote_all s s' w) s.
Proof.
  intros l Hrep Hwf Hsz Hp. unfold install_trans. apply wp_bind, wp_gets. fold l.
  pose proof (wf_n _ _ Hwf) as Hn. pose proof (wf_start _ _ Hwf) as Hst.
  apply (wp_for_each _ _ _ (fun i s' =>
    cache_rep s' (after v P (home_writes l v i)) /\ wrote_all s s' (home_writes l v i))).
  - split; [|apply wrote_all_nil]. by rewrite after_nil.
  - intros i t Hi [Hrt Hwt]. assert (Hi' : 0 <= i < lh_n (log_lh l)) by lia.
    pose proof Hwt as (El & _ & Hsv & _).
    destruct (log_u32 _ _ _ Hwf Hi') as (U1 & U2 & U3).
    destruct (home_props _ _ _ Hwf Hi') as (Hh1 & Hh2 & Hh3).
    pose proof (size_minus P (write_keys (home_writes l v i))) as Hle.
    eapply wp_mono.
    { apply (wp_install_one t _ _ i (home l i) (log_dev l) (log_start l + i + 1) (home l i) Hrt);
        rewrite ?El; try done; try lia.
      - by eapply home_lookup.
      - apply Hsv. replace (log_start l + i + 1) with (log_start l + (i + 1)) by lia.
        apply (wf_area _ _ Hwf). lia.
      - by apply Hsv.
      - destruct Hp as [Hp|Hp]; [left|right; lia].
        apply elem_of_difference. split; [apply Hp; by eapply home_key_elem|].
        rewrite home_writes_keys. intros (j & Hj & [= E]).
        assert (i = j) by (eapply home_inj; [done|done|lia|done]). lia. }
    cbv beta. rewrite (apply_writes_other _ _ _ (log_start l + i + 1)).
    2:{ rewrite home_writes_keys. intros (j & Hj & [= E]).
        destruct (home_props _ _ j Hwf) as (_ & Hout & _); lia. }
    intros [] t' [Hrt' Hwt'].
    assert (home_writes l v (i + 1) = home_writes l v i ++
              [(log_dev l, home l i, v (log_dev l) (log_start l + i + 1))]) as Es.
    { unfold home_writes. rewrite seqZ_snoc by lia. by rewrite fmap_app. }
    rewrite Es. split; [|by eapply wrote_all_snoc].
    by rewrite <- after_snoc.
  - intros t. rewrite Z2Nat.id by lia. done.
Qed.

(** ** The header block *)

(** The header of [l] written over the bytes [hb], up to [block[i]]. *)
Definition head_bytes (l : log) (hb : list Z) (i : Z) : list Z :=
  foldl (fun x j => put32 (block_off j) (home l j) x) (put32 0 (lh_n (log_lh l)) hb) (seqZ 0 i).

Lemma put32_blk_ok off z x : (off + 4 <= BSIZEn)%nat -> blk_ok x -> blk_ok (put32 off z x).
Proof.
  intros Ho [Hl Hb]. split; [rewrite put32_length; lia|]. apply bytes_ok_splice; [|done].
  apply le_bytes_ok.
Qed.

Lemma head_bytes_snoc l hb i :
  0 <= i -> head_bytes l hb (i + 1) = put32 (block_off i) (home l i) (head_bytes l hb i).
Proof. intros. unfold head_bytes. by rewrite seqZ_snoc, foldl_app. Qed.

(** Induction over the rounds of a loop. *)
Lemma rounds_ind (Pr : Z -> Prop) n :
  Pr 0 -> (forall i, 0 <= i < n -> Pr i -> Pr (i + 1)) -> 0 <= n -> Pr n.
Proof.
  intros H0 HS Hn. assert (forall i, 0 <= i -> i <= n -> Pr i) as H; [|by apply H].
  apply (natlike_ind (fun i => i <= n -> Pr i)); [done|].
  intros i Hi IH Hle. apply HS; [lia|]. apply IH. lia.
Qed.

Lemma head_bytes_spec l hb n :
  blk_ok hb -> 0 <= n <= LOGSIZE ->
  blk_ok (head_bytes l hb n) /\ get32 0 (head_bytes l hb n) = u32 (lh_n (log_lh l)) /\
  forall j, 0 <= j < n -> get32 (block_off j) (head_bytes l hb n) = u32 (home l j).
Proof.
  intros Hhb [Hn HL]. unfold LOGSIZE, MAXOPBLOCKS in HL. pattern n.
  apply rounds_ind; [| |done].
  - unfold head_bytes. simpl. pose proof (proj1 Hhb) as Hl. split_and!.
    + by apply put32_blk_ok; [lia|].
    + by rewrite get_put32 by lia.
    + intros. lia.
  - intros i Hi (IH1 & IH2 & IH3). rewrite head_bytes_snoc by lia.
    pose proof (proj1 IH1) as Hl. unfold block_off in *. split_and!.
    + apply put32_blk_ok; [lia|done].
    + rewrite get32_put32_ne by lia. done.
    + intros j Hj. destruct (decide (j = i)) as [->|Hne].
      * by rewrite get_put32 by lia.
      * rewrite get32_put32_ne by lia. apply IH3. lia.
Qed.

Lemma touch_touch k x y a : touch k y (touch k x a) ≡ touch k y a.
Proof.
  split_and!; simpl; try done; [|set_solver].
  intros d n. unfold upd_blk. by repeat case_decide.
Qed.

Lemma quiet_write v P b k x :
  release b (flush k (touch k x (hold b k (quiet v P)))) =
  quiet (upd_blk v k.1 k.2 x) (P ∖ {[k]}).
Proof.
  unfold release, flush, touch, hold, quiet. simpl. f_equal; [|set_solver].
  apply map_eq. intros j. rewrite lookup_empty.
  destruct (decide (j = b)); simplify_map_eq; done.
Qed.

Lemma room_quiet v P k : (size P < Z.to_nat NBUF)%nat -> room (quiet v P) k.
Proof. right. unfold kept. simpl. by rewrite map_img_empty_L, union_empty_r_L. Qed.

Lemma wp_write_head (s : st) v P :
  let l := st_log s in
  cache_rep s (quiet v P) -> log_wf (st_drv s) l -> (size P < Z.to_nat NBUF)%nat ->
  wp write_head (fun _ s' =>
    let x := head_bytes l (v (log_dev l) (log_start l)) (lh_n (log_lh l)) in
    cache_rep s' (after v P [(log_dev l, log_start l, x)]) /\
    wrote_all s s' [(log_dev l, log_start l, x)]) s.
Proof.
  intros l Hrep Hwf Hsz. set (k := (log_dev l, log_start l)).
  pose proof (wf_n _ _ Hwf) as Hn. pose proof (wf_start _ _ Hwf) as Hst.
  pose proof (wf_dev _ _ Hwf) as Hdv. pose proof (cr_view _ _ _ (proj2 Hrep)) as Hvok.
  unfold write_head. apply wp_bind, wp_gets. fold l. rewrite !u32_small by lia.
  apply wp_bind. eapply wp_mono.
  { apply (wp_bread s (quiet v P)); [done| |by intros i|by apply room_quiet].
    replace (log_start l) with (log_start l + 0) by lia. apply (wf_area _ _ Hwf). lia. }
  intros b s1 (_ & Hr1 & He1). pose proof He1 as (El & _).
  apply wp_bind. eapply (wp_get_data _ _ b k); [done|by apply lookup_insert_eq|].
  simpl. set (hb := v (log_dev l) (log_start l)).
  destruct (head_bytes_spec l hb (lh_n (log_lh l)) (Hvok _ _) (proj1 Hn)) as (Hxok & _ & _).
  apply wp_bind. eapply wp_mono.
  { eapply (wp_put_data _ _ b k); [done|by apply lookup_insert_eq|].
    apply put32_blk_ok; [lia|apply Hvok]. }
  intros [] s2 [Hr2 He2]. apply wp_bind.
  apply (wp_for_each _ _ _ (fun i s' =>
    cache_rep s' (touch k (head_bytes l hb i) (hold b k (quiet v P))) /\ env_same s s')).
  { split; [done|]. by eapply env_same_trans. }
  { intros i t Hi [Hrt Het]. pose proof Het as (Elt & _).
    assert (Hi' : 0 <= i < lh_n (log_lh l)) by lia. apply wp_bind.
    eapply wp_get_block; [lia|rewrite Elt; exact (home_lookup _ l i Hwf Hi')|].
    apply wp_bind. eapply (wp_get_data _ _ b k); [done|by apply lookup_insert_eq|].
    simpl. rewrite upd_blk_eq. eapply wp_mono.
    { eapply (wp_put_data _ _ b k); [done|by apply lookup_insert_eq|].
      apply put32_blk_ok; [unfold block_off, LOGSIZE, MAXOPBLOCKS in *; lia|].
      apply head_bytes_spec; [apply Hvok|lia]. }
    intros [] t' [Hrt' Het']. rewrite head_bytes_snoc by lia. fold l. split.
    - by eapply cache_rep_proper; [apply touch_touch|].
    - by eapply env_same_trans. }
  intros t [Hrt Het]. rewrite Z.add_0_l, Z2Nat.id in Hrt by lia. apply wp_bind.
  eapply wp_mono; [eapply (wp_bwrite _ _ b k); [done|by apply lookup_insert_eq]|].
  intros [] s3 (Hr3 & El3 & Ew3 & Es3 & Ep3). simpl in Ew3, Ep3. rewrite upd_blk_eq in Ew3, Ep3.
  eapply wp_mono.
  { eapply (wp_brelse _ _ b k); [done|by apply lookup_insert_eq|simpl; set_solver]. }
  intros [] s4 (Hr4 & He4 & _). split.
  - rewrite quiet_write in Hr4. unfold after, write_keys. simpl.
    by rewrite union_empty_r_L.
  - apply (wrote_all_snoc s s s4 []); [apply wrote_all_nil|].
    eapply wrote_env; [done|by split_and!|done].
Qed.

(** The first [i] block numbers of the header [hb] over the array [bs]. *)
Definition load_blocks (hb : list Z) (bs : list Z) (i : Z) : list Z :=
  foldl (fun bs j => <[Z.to_nat j := s32 (get32 (block_off j) hb)]> bs) bs (seqZ 0 i).
(** The in-memory log once the header [hb] is read. *)
Definition loaded (l : log) (hb : list Z) : log :=
  let n := s32 (get32 0 hb) in set_lh (mkLh n (load_blocks hb (lh_block (log_lh l)) n)) l.

Lemma load_blocks_snoc hb bs i :
  0 <= i -> load_blocks hb bs (i + 1) =
            <[Z.to_nat i := s32 (get32 (block_off i) hb)]> (load_blocks hb bs i).
Proof. intros. unfold load_blocks. by rewrite seqZ_snoc, foldl_app. Qed.

Lemma load_blocks_length hb bs i : 0 <= i -> length (load_blocks hb bs i) = length bs.
Proof.
  apply (rounds_ind (fun i => length (load_blocks hb bs i) = length bs)); [done|].
  intros j Hj IH. rewrite load_blocks_snoc by lia. by rewrite length_insert.
Qed.

Lemma load_blocks_lookup hb bs n :
  0 <= n <= Z.of_nat (length bs) ->
  forall j, 0 <= j < n ->
    load_blocks hb bs n !! Z.to_nat j = Some (s32 (get32 (block_off j) hb)).
Proof.
  intros [Hn Hl]. pattern n. apply rounds_ind; [lia| |done].
  intros i Hi IH j Hj. rewrite load_blocks_snoc by lia.
  destruct (decide (j = i)) as [->|].
  - apply list_lookup_insert_eq. rewrite load_blocks_length; lia.
  - rewrite list_lookup_insert_ne by lia. apply IH. lia.
Qed.

Lemma cache_rep_log s l a : cache_rep (with_log l s) a <-> cache_rep s a.
Proof. done. Qed.

(** Only the in-memory log changed, to [l]. *)
Definition log_set (s s' : st) (l : log) : Prop :=
  st_log s' = l /\ st_writes s' = st_writes s /\
  (forall x y, drv_serves (st_drv s') x y <-> drv_serves (st_drv s) x y) /\
  (forall x y, platter (st_drv s') x y = platter (st_drv s) x y).

Lemma quiet_read v P b k : release b (hold b k (quiet v P)) = quiet v P.
Proof.
  unfold release, hold, quiet. simpl. f_equal. apply map_eq. intros j. rewrite lookup_empty.
  destruct (decide (j = b)); simplify_map_eq; done.
Qed.

Lemma wp_read_head (s : st) v P :
  let l := st_log s in
  let hb := v (log_dev l) (log_start l) in
  cache_rep s (quiet v P) -> log_wf (st_drv s) (loaded l hb) ->
  (size P < Z.to_nat NBUF)%nat ->
  wp read_head (fun _ s' => cache_rep s' (quiet v P) /\ log_set s s' (loaded l hb)) s.
Proof.
  intros l hb Hrep Hwf Hsz. set (k := (log_dev l, log_start l)).
  destruct (wf_n _ _ Hwf) as [Hn Hn']. pose proof (wf_start _ _ Hwf) as Hst.
  pose proof (wf_dev _ _ Hwf) as Hdv. pose proof (wf_len _ _ Hwf) as Hlen. simpl in *.
  rewrite load_blocks_length in Hlen by lia.
  unfold read_head. apply wp_bind, wp_gets. fold l. rewrite !u32_small by lia.
  apply wp_bind. eapply wp_mono.
  { apply (wp_bread s (quiet v P)); [done| |by intros i|by apply room_quiet].
    replace (log_start l) with (log_start l + 0) by lia. apply (wf_area _ _ Hwf). simpl. lia. }
  intros b s1 (_ & Hr1 & He1). pose proof He1 as (El & Ew & Es & Ep).
  apply wp_bind. eapply (wp_get_data _ _ b k); [done|by apply lookup_insert_eq|].
  simpl. fold hb. set (n := s32 (get32 0 hb)) in *.
  apply wp_bind, wp_modify. rewrite El. fold l. apply wp_bind.
  apply (wp_for_each _ _ _ (fun i s' =>
    cache_rep s' (hold b k (quiet v P)) /\
    log_set s s' (set_lh (mkLh n (load_blocks hb (lh_block (log_lh l)) i)) l))).
  { by split; [apply cache_rep_log|]. }
  { intros i t Hi [Hrt (Et & Ewt & Est & Ept)]. rewrite Z.add_0_l, Z2Nat.id in Hi by lia.
    apply wp_bind. eapply (wp_get_data _ _ b k); [done|by apply lookup_insert_eq|].
    simpl. fold hb. unfold set_block. apply wp_bind.
    destruct (lookup_lt_is_Some_2 (load_blocks hb (lh_block (log_lh l)) i) (Z.to_nat i)) as [x Hx].
    { rewrite load_blocks_length by lia. lia. }
    eapply wp_get_block; [lia|rewrite Et; exact Hx|]. apply wp_modify.
    split; [by apply cache_rep_log|]. rewrite load_blocks_snoc by lia.
    split_and!; simpl; try done. by rewrite Et. }
  intros t [Hrt Hlt]. rewrite Z.add_0_l, Z2Nat.id in Hlt by lia. eapply wp_mono.
  { eapply (wp_brelse _ _ b k); [done|by apply lookup_insert_eq|simpl; set_solver]. }
  intros [] s4 (Hr4 & (El4 & Ew4 & Es4 & Ep4) & _). rewrite quiet_read in Hr4. split; [done|].
  destruct Hlt as (A1 & A2 & A3 & A4). split_and!; [by rewrite El4|congruence|..]; intros x y.
  - by rewrite Es4, A3.
  - by rewrite Ep4, A4.
Qed.

(** ** Recovery and commit as sequences of sector writes *)

(** The log in memory became [l] and the sectors [w] were written. *)
Definition ran (s s' : st) (l : log) (w : list (Z * Z * list Z)) : Prop :=
  st_log s' = l /\ st_writes s' = st_writes s ++ w /\
  (forall a b, drv_serves (st_drv s') a b <-> drv_serves (st_drv s) a b) /\
  (forall a b, platter (st_drv s') a b = apply_writes w (platter (st_drv s)) a b).

Lemma ran_log_set s s' l : log_set s s' l -> ran s s' l [].
Proof. intros (A1 & A2 & A3 & A4). split_and!; try done. by rewrite app_nil_r. Qed.

Lemma ran_wrote s s1 s2 l w w' : ran s s1 l w -> wrote_all s1 s2 w' -> ran s s2 l (w ++ w').
Proof.
  intros (A1 & A2 & A3 & A4) (B1 & B2 & B3 & B4). split_and!.
  - congruence.
  - by rewrite B2, A2, app_assoc.
  - intros a b. by rewrite B3, A3.
  - intros a b. rewrite B4, apply_writes_app. by apply apply_writes_ext.
Qed.

Lemma ran_upd s s1 l w f : ran s s1 l w -> ran s (with_log (f (st_log s1)) s1) (f l) w.
Proof. intros (A1 & A2 & A3 & A4). split_and!; simpl; try done. by rewrite A1. Qed.

Lemma write_keys_app w w' : write_keys (w ++ w') = write_keys w ∪ write_keys w'.
Proof. unfold write_keys. by rewrite fmap_app, list_to_set_app_L. Qed.

Lemma after_app v P w w' :
  after (apply_writes w v) (P ∖ write_keys w) w' = after v P (w ++ w').
Proof. unfold after. rewrite apply_writes_app, write_keys_app. f_equal. set_solver. Qed.

Lemma log_wf_erased drv l : log_wf drv l -> log_wf drv (set_lh_n 0 l).
Proof.
  intros Hwf. pose proof (wf_n _ _ Hwf). destruct Hwf as [A1 A2 A3 A4 A5 A6 A7].
  constructor; simpl; try done; try lia. constructor.
Qed.

Definition erase_write (l : log) (v : Z -> Z -> list Z) : Z * Z * list Z :=
  (log_dev l, log_start l, put32 0 0 (v (log_dev l) (log_start l))).

(** What [recover_from_log] writes once the header gave the log [l]. *)
Definition recovery_writes (l : log) (v : Z -> Z -> list Z) : list (Z * Z * list Z) :=
  let w := home_writes l v (lh_n (log_lh l)) in w ++ [erase_write l (apply_writes w v)].

(** A point of [commit] or of recovery: the run from [s0], whose cache showed
    [v] with the blocks [P] pinned, has written [w] and the log is [l]. *)
Definition stage (s0 : st) v P l w (s : st) : Prop :=
  cache_rep s (after v P w) /\ ran s0 s l w.

Section Stage.
Context (s0 : st) (v : Z -> Z -> list Z) (P : gset (Z * Z)) (l : log)
        (w : list (Z * Z * list Z)) (s : st).
Hypotheses (Hst : stage s0 v P l w s) (Hwf : log_wf (st_drv s0) l)
           (HP : (size P < Z.to_nat NBUF)%nat).

Lemma stage_wf : log_wf (st_drv s) (st_log s).
Proof using Hst Hwf.
  destruct Hst as (_ & E & _ & Es & _). rewrite E. by eapply log_wf_serves.
Qed.

Lemma stage_size : (size (P ∖ write_keys w) < Z.to_nat NBUF)%nat.
Proof using HP. pose proof (size_minus P (write_keys w)). lia. Qed.

Lemma stage_step (m : M st unit) w' :
  wp m (fun _ s' => cache_rep s' (after (apply_writes w v) (P ∖ write_keys w) w') /\
                    wrote_all s s' w') s ->
  wp m (fun _ s' => stage s0 v P l (w ++ w') s') s.
Proof using Hst.
  intros H. eapply wp_mono; [exact H|]. intros [] s' [Hr Hw]. split.
  - by rewrite <- after_app.
  - eapply ran_wrote; [apply Hst|done].
Qed.

Lemma stage_write_log :
  home_keys l ⊆ P ∖ write_keys w ->
  wp write_log (fun _ s' =>
    stage s0 v P l (w ++ log_writes l (apply_writes w v) (lh_n (log_lh l))) s') s.
Proof using All.
  intros Hk. apply stage_step. pose proof (proj1 (proj2 Hst)) as E. rewrite <- E in Hk |- *.
  apply wp_write_log; [apply Hst|apply stage_wf|done|apply stage_size].
Qed.

Lemma stage_install :
  (home_keys l ⊆ P ∖ write_keys w \/ S (size P) < Z.to_nat NBUF)%nat ->
  wp install_trans (fun _ s' =>
    stage s0 v P l (w ++ home_writes l (apply_writes w v) (lh_n (log_lh l))) s') s.
Proof using All.
  intros Hk. apply stage_step. pose proof (proj1 (proj2 Hst)) as E. rewrite <- E in Hk |- *.
  apply wp_install_trans; [apply Hst|apply stage_wf|apply stage_size|].
  destruct Hk; [by left|right]. pose proof (size_minus P (write_keys w)). lia.
Qed.

Lemma stage_write_head :
  wp write_head (fun _ s' =>
    stage s0 v P l (w ++ [(log_dev l, log_start l,
      head_bytes l (apply_writes w v (log_dev l) (log_start l)) (lh_n (log_lh l)))]) s') s.
Proof using All.
  apply stage_step. pose proof (proj1 (proj2 Hst)) as E. rewrite <- E.
  apply wp_write_head; [apply Hst|apply stage_wf|apply stage_size].
Qed.

Lemma stage_upd f : stage s0 v P (f l) w (with_log (f (st_log s)) s).
Proof using Hst.
  split; [apply cache_rep_log, Hst|]. apply ran_upd, Hst.
Qed.
End Stage.

Lemma wp_recover (s : st) v :
  let l := loaded (st_log s) (v (log_dev (st_log s)) (log_start (st_log s))) in
  cache_rep s (quiet v ∅) -> log_wf (st_drv s) l ->
  wp recover_from_log (fun _ s' => stage s v ∅ (set_lh_n 0 l) (recovery_writes l v) s') s.
Proof.
  intros l Hrep Hwf. assert (Hz : (S (size (∅ : gset (Z * Z))) < Z.to_nat NBUF)%nat).
  { rewrite size_empty. unfold NBUF, MAXOPBLOCKS. lia. }
  unfold recover_from_log. apply wp_bind. eapply wp_mono.
  { apply (wp_read_head s v ∅); [done|done|lia]. }
  fold l. intros [] s1 [Hr1 Hl1]. apply ran_log_set in Hl1.
  assert (stage s v ∅ l [] s1) as S1.
  { split; [|done]. by rewrite after_nil. }
  apply wp_bind. eapply wp_mono; [eapply (stage_install s); [done|done|lia|by right]|].
  intros [] s2 S2. apply wp_bind, wp_modify. pose proof (stage_upd _ _ _ _ _ _ S2 (set_lh_n 0)).
  eapply (stage_write_head s); [done|by apply log_wf_erased|lia].
Qed.

(** What [commit] writes when the cache shows [v]. *)
Definition commit_writes (l : log) (v : Z -> Z -> list Z) : list (Z * Z * list Z) :=
  let n := lh_n (log_lh l) in
  let w1 := log_writes l v n in
  let v1 := apply_writes w1 v in
  let w2 := w1 ++ [(log_dev l, log_start l, head_bytes l (v1 (log_dev l) (log_start l)) n)] in
  let v2 := apply_writes w2 v in
  let w3 := w2 ++ home_writes l v2 n in
  w3 ++ [erase_write l (apply_writes w3 v)].

Lemma home_keys_elem drv l d b :
  log_wf drv l ->
  (d, b) ∈ home_keys l <-> d = log_dev l /\ exists i, 0 <= i < lh_n (log_lh l) /\ b = home l i.
Proof.
  intros Hwf. split.
  - intros (x & [= -> ->] & Hx)%elem_of_list_to_set%list_elem_of_fmap. split; [done|].
    apply list_elem_of_lookup in Hx as [i Hi]. pose proof (lookup_lt_Some _ _ _ Hi) as Hlt.
    unfold homes in Hlt. rewrite length_take in Hlt. exists (Z.of_nat i). split; [lia|].
    unfold home. by rewrite Nat2Z.id, (nth_lookup_Some _ _ _ _ Hi).
  - intros (-> & i & Hi & ->). by eapply home_key_elem.
Qed.

Lemma home_keys_size drv l : log_wf drv l -> (size (home_keys l) <= Z.to_nat (lh_n (log_lh l)))%nat.
Proof.
  intros Hwf. unfold home_keys. rewrite size_list_to_set.
  - rewrite length_fmap. unfold homes. rewrite length_take. lia.
  - apply NoDup_fmap_2; [by intros ? ? [= ?]|apply (wf_nodup _ _ Hwf)].
Qed.

(** No block of a transaction lies in the log area. *)
Lemma home_keys_area drv l b :
  log_wf drv l -> log_start l <= b < log_start l + log_size l -> (log_dev l, b) ∉ home_keys l.
Proof.
  intros Hwf Hb (_ & i & Hi & ->)%(home_keys_elem drv); [|done].
  destruct (home_props _ _ _ Hwf Hi). tauto.
Qed.

Lemma log_keys_disjoint drv l v n w d b :
  log_wf drv l -> n < log_size l ->
  (forall k, k ∈ write_keys w -> k ∈ write_keys (log_writes l v n) \/ k = (log_dev l, log_start l)) ->
  (d, b) ∈ home_keys l -> (d, b) ∉ write_keys w.
Proof.
  intros Hwf Hn Hw Hk Hin. pose proof (proj1 (home_keys_elem _ _ _ _ Hwf) Hk) as [-> _].
  pose proof (wf_n _ _ Hwf). eapply home_keys_area; [exact Hwf| |exact Hk].
  destruct (Hw _ Hin) as [[_ Hb]%log_writes_keys|[= ->]]; lia.
Qed.

Lemma wp_commit (s : st) v :
  let l := st_log s in
  cache_rep s (quiet v (home_keys l)) -> log_wf (st_drv s) l -> 0 < lh_n (log_lh l) < NBUF ->
  wp commit (fun _ s' => stage s v (home_keys l) (set_lh_n 0 l) (commit_writes l v) s') s.
Proof.
  intros l Hrep Hwf Hn. pose proof (home_keys_size _ _ Hwf). pose proof (wf_n _ _ Hwf).
  unfold commit. apply wp_bind, wp_gets. fold l. destruct (Z.gtb_spec (lh_n (log_lh l)) 0); [|lia].
  assert (stage s v (home_keys l) l [] s) as S0.
  { split; [|split_and!; try done; by rewrite app_nil_r]. by rewrite after_nil. }
  apply wp_bind. eapply wp_mono.
  { eapply (stage_write_log s); [done|done|lia|].
    change (write_keys []) with (∅ : gset (Z * Z)). by rewrite difference_empty_L. }
  intros [] s1 S1. apply wp_bind. eapply wp_mono; [eapply (stage_write_head s); [done|done|lia]|].
  intros [] s2 S2. apply wp_bind. eapply wp_mono.
  { eapply (stage_install s); [done|done|lia|left]. intros [d b] Hk. apply elem_of_difference.
    split; [done|]. eapply log_keys_disjoint; [done| | |done]; [|intros k; rewrite write_keys_snoc].
    2:{ intros [?|?%elem_of_singleton]%elem_of_union; [left; done|by right]. }
    lia. }
  intros [] s3 S3. apply wp_bind, wp_modify. pose proof (stage_upd _ _ _ _ _ _ S3 (set_lh_n 0)).
  eapply (stage_write_head s); [done|by apply log_wf_erased|lia].
Qed.

(** ** Crashes

    A crash keeps a prefix of the sectors written.  Whatever the prefix, the
    disk is either untouched outside the log and its header is empty, or the
    header describes the transaction and the log holds its blocks, or the
    transaction is installed and the header is empty again. *)

Definition in_area (l : log) (d b : Z) : Prop :=
  d = log_dev l /\ log_start l <= b < log_start l + log_size l.

Definition head_empty (l : log) (p : Z -> Z -> list Z) : Prop :=
  s32 (get32 0 (p (log_dev l) (log_start l))) = 0.

(** The disk [p] holds the committed transaction [l] with contents [v]. *)
Record committed (l : log) (v p : Z -> Z -> list Z) : Prop := {
  cm_n : s32 (get32 0 (p (log_dev l) (log_start l))) = lh_n (log_lh l);
  cm_home : forall j, 0 <= j < lh_n (log_lh l) ->
    s32 (get32 (block_off j) (p (log_dev l) (log_start l))) = home l j;
  cm_log : forall j, 0 <= j < lh_n (log_lh l) ->
    p (log_dev l) (log_start l + j + 1) = v (log_dev l) (home l j);
  cm_rest : forall d b, ~ in_area l d b -> (d, b) ∉ home_keys l -> p d b = v d b
}.

Section Writes.
Context (drv : D) (l : log) (v p0 : Z -> Z -> list Z).
Hypotheses (Hwf : log_wf drv l) (Hv : forall d b, blk_ok (v d b)).
Local Abbreviation n := (lh_n (log_lh l)).
Local Abbreviation dv := (log_dev l).
Local Abbreviation start := (log_start l).

Lemma log_writes_in v' p j :
  0 <= j < n -> apply_writes (log_writes l v' n) p dv (start + j + 1) = v' dv (home l j).
Proof.
  intros Hj. apply apply_writes_in.
  - unfold log_writes. rewrite <- list_fmap_compose. apply NoDup_fmap_2; [|apply NoDup_seqZ].
    intros a b [= E]. lia.
  - apply list_elem_of_fmap. exists j. rewrite elem_of_seqZ. split; [done|lia].
Qed.

Lemma home_writes_in v' p j :
  0 <= j < n -> apply_writes (home_writes l v' n) p dv (home l j) = v' dv (start + j + 1).
Proof using Hwf.
  intros Hj. apply apply_writes_in.
  - unfold home_writes. rewrite <- list_fmap_compose.
    apply NoDup_fmap_2_strong; [|apply NoDup_seqZ].
    intros a b Ha%elem_of_seqZ Hb%elem_of_seqZ [= E].
    eapply home_inj; [exact Hwf|lia|lia|done].
  - apply list_elem_of_fmap. exists j. rewrite elem_of_seqZ. split; [done|lia].
Qed.

Lemma write_keys_take w i k : k ∈ write_keys (take i w) -> k ∈ write_keys w.
Proof.
  unfold write_keys. rewrite !elem_of_list_to_set, fmap_take.
  intros (j & Hj)%list_elem_of_lookup. apply lookup_take_Some in Hj as [Hj _].
  by eapply list_elem_of_lookup_2.
Qed.

(** Writing to homes touches neither the log area nor other blocks. *)
Lemma home_writes_other v' p i d b :
  in_area l d b \/ (d, b) ∉ home_keys l ->
  apply_writes (take i (home_writes l v' n)) p d b = p d b.
Proof using Hwf.
  intros Hdb. apply apply_writes_other. intros Hk%write_keys_take%home_writes_keys.
  destruct Hk as (j & Hj & [= -> ->]). pose proof (home_key_elem _ _ _ Hwf Hj) as Hk.
  destruct Hdb as [[_ Ha]|Hn]; [|done]. by eapply home_keys_area.
Qed.

Lemma log_writes_other v' p i d b :
  ~ in_area l d b \/ (d, b) = (dv, start) ->
  apply_writes (take i (log_writes l v' n)) p d b = p d b.
Proof using Hwf.
  intros Hdb. apply apply_writes_other. intros [-> Hb]%write_keys_take%log_writes_keys.
  pose proof (wf_n _ _ Hwf). unfold in_area in Hdb. destruct Hdb as [Hdb|[= ->]]; [|lia].
  apply Hdb. lia.
Qed.

Hypotheses (Hp0 : forall d b, (d, b) ∉ home_keys l -> p0 d b = v d b)
           (Hempty : head_empty l p0).
Let w1 := log_writes l v n.
Let hd := head_bytes l (apply_writes w1 v dv start) n.
Let v2 := apply_writes (w1 ++ [(dv, start, hd)]) v.
Let w2 := home_writes l v2 n.

Lemma logged_block j : 0 <= j < n -> v2 dv (start + j + 1) = v dv (home l j).
Proof using Hwf.
  intros Hj. unfold v2. rewrite apply_writes_snoc, upd_blk_ne by (intros [= ?]; lia).
  by apply log_writes_in.
Qed.

Lemma area_head : in_area l dv start.
Proof using Hwf. pose proof (wf_n _ _ Hwf). split; [done|lia]. Qed.
Lemma area_log j : 0 <= j < n -> in_area l dv (start + j + 1).
Proof using Hwf. intros. pose proof (wf_n _ _ Hwf). split; [done|lia]. Qed.

(** During the installation the log still holds the transaction. *)
Lemma prefix_committed i :
  committed l v (apply_writes ((w1 ++ [(dv, start, hd)]) ++ take i w2) p0).
Proof using Hwf Hv Hp0.
  destruct (wf_n _ _ Hwf) as [Hn Hn2].
  assert (blk_ok (apply_writes w1 v dv start)) as Hok.
  { unfold w1. rewrite <- (take_ge (log_writes l v n) (length (log_writes l v n))) by done.
    rewrite log_writes_other by by right. apply Hv. }
  destruct (head_bytes_spec l _ n Hok Hn) as (_ & Hc & Hb). fold hd in Hc, Hb.
  assert (forall p, apply_writes (take i w2) p dv start = p dv start) as Hw2.
  { intros p. apply home_writes_other. left. apply area_head. }
  unfold LOGSIZE, MAXOPBLOCKS in Hn.
  rewrite apply_writes_app, apply_writes_snoc. constructor.
  - rewrite Hw2, upd_blk_eq, Hc, s32_u32. apply s32_small. lia.
  - intros j Hj. rewrite Hw2, upd_blk_eq, Hb, s32_u32 by done.
    destruct (home_props _ _ _ Hwf Hj) as (? & _). apply s32_small. lia.
  - intros j Hj. unfold w2. rewrite home_writes_other by (left; by apply area_log).
    rewrite upd_blk_ne by (intros [= ?]; lia). by apply log_writes_in.
  - intros d b Ha Hk. unfold w2. rewrite home_writes_other by by right.
    rewrite upd_blk_ne by (intros [= -> ->]; apply Ha, area_head).
    unfold w1. rewrite <- (take_ge (log_writes l v n) (length (log_writes l v n))) by done.
    rewrite log_writes_other by by left. by apply Hp0.
Qed.

Lemma take_all {A} (x : list A) : take (length x) x = x.
Proof. by apply take_ge. Qed.

Lemma installed_empty :
  let p := apply_writes (commit_writes l v) p0 in
  head_empty l p /\ forall d b, ~ in_area l d b -> p d b = v d b.
Proof using Hwf Hv Hp0.
  intros p. unfold p, commit_writes, erase_write. fold w1. fold hd. fold v2. fold w2.
  rewrite apply_writes_snoc. split.
  - unfold head_empty. rewrite upd_blk_eq, get_put32; [done|].
    rewrite apply_writes_app, <- (take_all w2). unfold w2.
    rewrite home_writes_other by (left; apply area_head). rewrite apply_writes_snoc, upd_blk_eq.
    unfold hd. destruct (wf_n _ _ Hwf) as [Hn _].
    destruct (head_bytes_spec l (apply_writes w1 v dv start) n) as ((Hl & _) & _); [|done|lia].
    unfold w1. rewrite <- (take_all (log_writes l v n)), log_writes_other by by right. apply Hv.
  - intros d b Ha. rewrite upd_blk_ne by (intros [= -> ->]; apply Ha, area_head).
    destruct (decide ((d, b) ∈ home_keys l)) as [Hk|Hk].
    + apply (home_keys_elem _ _ _ _ Hwf) in Hk as (-> & j & Hj & ->).
      rewrite apply_writes_app. unfold w2. rewrite home_writes_in by done. by apply logged_block.
    + pose proof (cm_rest _ _ _ (prefix_committed (length w2)) d b Ha Hk) as E.
      by rewrite take_all in E.
Qed.

(** The disk after any prefix of the writes of [commit]: the header is the
    write that commits. *)
Lemma commit_prefix k :
  let p := apply_writes (take k (commit_writes l v)) p0 in
  if decide (k <= Z.to_nat n)%nat
  then head_empty l p /\ forall d b, ~ in_area l d b -> p d b = p0 d b
  else committed l v p \/ head_empty l p /\ forall d b, ~ in_area l d b -> p d b = v d b.
Proof using Hwf Hv Hp0 Hempty.
  intros p. unfold p.
  assert (length w1 = Z.to_nat n) as Hw1 by (unfold w1, log_writes; by rewrite length_fmap, length_seqZ).
  assert (commit_writes l v = ((w1 ++ [(dv, start, hd)]) ++ w2) ++
    [erase_write l (apply_writes ((w1 ++ [(dv, start, hd)]) ++ w2) v)]) as Ec by done.
  destruct (decide (k <= Z.to_nat n)%nat) as [Hk1|Hk1].
  { rewrite Ec, <- !app_assoc, take_app_le by lia. split.
    + unfold head_empty, w1. rewrite log_writes_other by by right. done.
    + intros d b Ha. unfold w1. by rewrite log_writes_other by by left. }
  destruct (decide (length (commit_writes l v) <= k)%nat) as [Hk|Hk].
  - right. rewrite take_ge by done. apply installed_empty.
  - left. rewrite Ec in *. rewrite length_app in Hk. simpl in Hk. rewrite take_app_le by lia.
    rewrite take_app, (take_ge (w1 ++ _)) by (rewrite length_app; simpl; lia).
    apply prefix_committed.
Qed.
End Writes.

(** ** Recovery *)

Definition same_area (l lb : log) : Prop :=
  log_dev lb = log_dev l /\ log_start lb = log_start l /\ log_size lb = log_size l /\
  length (lh_block (log_lh lb)) = Z.to_nat LOGSIZE.

Section Recovery.
Context (drv : D) (l lb : log) (v p : Z -> Z -> list Z).
Hypotheses (Hwf : log_wf drv l) (Hlb : same_area l lb).
Local Abbreviation l' := (loaded lb (p (log_dev lb) (log_start lb))).

Lemma committed_homes :
  committed l v p -> lh_n (log_lh l') = lh_n (log_lh l) /\ homes l' = homes l.
Proof using Hwf Hlb.
  intros Hc. destruct Hlb as (E1 & E2 & E3 & E4). rewrite E1, E2.
  pose proof (wf_n _ _ Hwf) as [Hn _]. pose proof (wf_len _ _ Hwf) as Hlen.
  assert (s32 (get32 0 (p (log_dev l) (log_start l))) = lh_n (log_lh l)) as En by apply Hc.
  split; [done|]. unfold homes. simpl. rewrite En. apply list_eq. intros i.
  destruct (decide (i < Z.to_nat (lh_n (log_lh l)))%nat) as [Hi|Hi].
  2:{ rewrite !lookup_take_ge by lia. done. }
  rewrite !lookup_take_lt by lia. replace i with (Z.to_nat (Z.of_nat i)) by lia.
  rewrite load_blocks_lookup by lia. rewrite (home_lookup _ _ (Z.of_nat i) Hwf) by lia.
  f_equal. apply Hc. lia.
Qed.

Lemma committed_wf : committed l v p -> log_wf drv l'.
Proof using Hwf Hlb.
  intros Hc. destruct (committed_homes Hc) as [En Eh]. pose proof (wf_n _ _ Hwf) as Hn.
  pose proof (wf_nodup _ _ Hwf) as Hnd. fold (homes l) in Hnd. rewrite <- Eh in Hnd.
  assert (length (lh_block (log_lh l')) = Z.to_nat LOGSIZE) as Hlen.
  { simpl in *. rewrite load_blocks_length by lia. apply Hlb. }
  destruct Hlb as (E1 & E2 & E3 & E4). constructor; try done.
  - simpl. rewrite E1. apply Hwf.
  - simpl. rewrite E2, E3. apply Hwf.
  - rewrite En. simpl. rewrite E3. done.
  - simpl. rewrite E1, E2, E3. apply Hwf.
  - rewrite En. intros i b Hi Hb. simpl log_start. simpl log_size. simpl log_dev.
    rewrite E1, E2, E3. assert (homes l !! Z.to_nat i = Some b) as Hh.
    { rewrite <- Eh. unfold homes. rewrite En. apply lookup_take_Some. split; [done|lia]. }
    apply (wf_blocks _ _ Hwf i); [done|]. by apply lookup_take_Some in Hh as [? _].
Qed.

Lemma empty_wf : head_empty l p -> log_wf drv l'.
Proof using Hwf Hlb.
  intros He. destruct Hlb as (E1 & E2 & E3 & E4). unfold head_empty in He.
  pose proof (wf_n _ _ Hwf). unfold loaded. rewrite E1, E2, He.
  constructor; simpl; rewrite ?E1, ?E2, ?E3; try apply Hwf; try lia; [done|constructor].
Qed.

(** What recovery leaves on the disk [p]. *)
Definition recovered : Z -> Z -> list Z := apply_writes (recovery_writes l' p) p.

Lemma recovered_head : (forall d b, blk_ok (p d b)) -> log_wf drv l' -> head_empty l recovered.
Proof using Hlb.
  intros Hok Hwf'. destruct Hlb as (E1 & E2 & _). unfold head_empty, recovered, recovery_writes.
  unfold erase_write. rewrite apply_writes_snoc. simpl log_dev. simpl log_start.
  rewrite E1, E2, upd_blk_eq, get_put32; [done|].
  pose proof (area_head drv _ Hwf') as Ha. simpl in Ha. rewrite E1, E2 in Ha.
  rewrite <- (take_all (home_writes _ _ _)).
  rewrite E1, E2 in Hwf'. rewrite (home_writes_other drv) by (done || by left).
  destruct (Hok (log_dev l) (log_start l)) as [-> _]. lia.
Qed.

Lemma recovered_same d b : ~ in_area l d b ->
  recovered d b = apply_writes (home_writes l' p (lh_n (log_lh l'))) p d b.
Proof using Hwf Hlb.
  intros Ha. destruct Hlb as (E1 & E2 & _). unfold recovered, recovery_writes, erase_write.
  rewrite apply_writes_snoc. rewrite upd_blk_ne; [done|]. simpl. rewrite E1, E2.
  intros [= -> ->]. eapply Ha, area_head, Hwf.
Qed.

Lemma recovered_empty :
  head_empty l p -> forall d b, ~ in_area l d b -> recovered d b = p d b.
Proof using Hwf Hlb.
  intros He d b Ha. rewrite recovered_same by done. destruct Hlb as (E1 & E2 & _).
  unfold head_empty in He. simpl lh_n. by rewrite E1, E2, He.
Qed.

Lemma recovered_committed :
  committed l v p -> forall d b, ~ in_area l d b -> recovered d b = v d b.
Proof using Hwf Hlb.
  intros Hc d b Ha. rewrite recovered_same by done.
  pose proof (committed_wf Hc) as Hwf'. destruct (committed_homes Hc) as [En Eh].
  pose proof Hlb as (E1 & E2 & E3 & _).
  destruct (decide ((d, b) ∈ home_keys l)) as [Hk|Hk].
  - apply (home_keys_elem _ _ _ _ Hwf) in Hk as (-> & j & Hj & ->).
    pose proof (home_writes_in drv l' Hwf' p p j) as Hin.
    rewrite En in Hin. specialize (Hin Hj). unfold home in Hin. rewrite Eh in Hin.
    change (log_dev l') with (log_dev lb) in Hin. change (log_start l') with (log_start lb) in Hin.
    rewrite <- E1. rewrite En. unfold home. rewrite Hin, E1, E2. by apply Hc.
  - rewrite <- (take_all (home_writes _ _ _)), (home_writes_other drv) by (try done; right;
      unfold home_keys; rewrite Eh; simpl log_dev; by rewrite E1).
    by apply Hc.
Qed.
End Recovery.

Lemma committed_ext l v p p' :
  (forall d b, p' d b = p d b) -> committed l v p -> committed l v p'.
Proof. intros E [A1 A2 A3 A4]. constructor; intros; rewrite E; eauto. Qed.

Lemma head_empty_ext l p p' : (forall d b, p' d b = p d b) -> head_empty l p -> head_empty l p'.
Proof. intros E. unfold head_empty. by rewrite E. Qed.

(** Rebooting: the boot sequence up to [initlog], on the superblock values. *)
Definition reboot (start size dev : Z) : M st unit := binit ;;; initlog_with start size dev.

(** A machine that boots with the disk [drv]: memory is zeroed. *)
Definition powered_on (drv : D) : st :=
  mkBst zero_bufs drv (mkLog 0 0 0 0 0 (mkLh 0 (replicate (Z.to_nat LOGSIZE) 0))) [].

(** The log is empty and open, over the area of [l]. *)
Definition log_open (l l' : log) : Prop :=
  same_area l l' /\ log_outstanding l' = 0 /\ log_committing l' = 0 /\ lh_n (log_lh l') = 0.

Lemma log_open_wf drv l l' : log_wf drv l -> log_open l l' -> log_wf drv l'.
Proof.
  intros Hwf ((Ed & Es & Ez & El) & _ & _ & En). pose proof (wf_n _ _ Hwf).
  constructor; rewrite ?Ed, ?Es, ?Ez, ?En; try apply Hwf; try lia; constructor.
Qed.

Lemma reboot_recovers drv l :
  let p := platter drv in
  let lb := mkLog (log_start l) (log_size l) 0 0 (log_dev l)
              (mkLh 0 (replicate (Z.to_nat LOGSIZE) 0)) in
  0 <= log_dev l < 2 ^ 31 -> 0 <= log_start l < 2 ^ 31 -> 0 <= log_size l < 2 ^ 31 ->
  drv_idle drv -> log_wf drv (loaded lb (p (log_dev lb) (log_start lb))) ->
  wp (reboot (log_start l) (log_size l) (log_dev l)) (fun _ t =>
    (forall d b, platter (st_drv t) d b = recovered lb p d b) /\
    cache_rep t (fresh (st_drv t)) /\ log_open l (st_log t) /\
    (forall d b, drv_serves (st_drv t) d b <-> drv_serves drv d b)) (powered_on drv).
Proof.
  intros p lb Hd Hs Hz Hidle Hwf. unfold reboot. apply wp_bind. eapply wp_mono.
  { apply wp_binit; done. }
  intros [] s1 (Hr1 & E1 & _ & Es1 & Ep1). simpl in *. unfold initlog_with.
  change (4 + 4 * LOGSIZE >=? BSIZE) with false. cbv iota. apply wp_bind, wp_modify.
  rewrite !s32_small by zlia. rewrite E1. simpl.
  change (set_area _ _ _ _) with lb. eapply wp_mono.
  { apply (wp_recover (with_log lb s1) p); [done|]. by eapply log_wf_serves. }
  intros [] t [Hrt (Elt & _ & Est & Ept)]. simpl in Ept, Est. split; [|split; [|split]].
  - intros d b. rewrite Ept. by apply apply_writes_ext.
  - eapply cache_rep_proper; [|exact Hrt]. split_and!; simpl; try done; [|set_solver].
    intros d b. rewrite Ept. apply apply_writes_ext. intros. by rewrite Ep1.
  - rewrite Elt. split; [|done]. split_and!; try done. etrans; [apply load_blocks_length|done].
    apply (wf_n _ _ Hwf).
  - intros d b. by rewrite Est, Es1.
Qed.

(** Booting a disk that holds the contents [x], or a committed transaction that leads to it. *)
Lemma reboot_yields drv l x :
  log_wf drv l -> drv_idle drv ->
  committed l x (platter drv) \/
    head_empty l (platter drv) /\ (forall d b, ~ in_area l d b -> platter drv d b = x d b) ->
  wp (reboot (log_start l) (log_size l) (log_dev l)) (fun _ t =>
    (forall d b, ~ in_area l d b -> platter (st_drv t) d b = x d b) /\
    head_empty l (platter (st_drv t)) /\
    cache_rep t (fresh (st_drv t)) /\ log_open l (st_log t) /\
    (forall d b, drv_serves (st_drv t) d b <-> drv_serves drv d b)) (powered_on drv).
Proof.
  intros Hwf Hidle Hp. pose proof (wf_dev _ _ Hwf). pose proof (wf_start _ _ Hwf).
  pose proof (wf_n _ _ Hwf).
  set (lb := mkLog (log_start l) (log_size l) 0 0 (log_dev l)
               (mkLh 0 (replicate (Z.to_nat LOGSIZE) 0))).
  assert (same_area l lb) as Hlb by (split_and!; done).
  assert (log_wf drv (loaded lb (platter drv (log_dev lb) (log_start lb)))) as Hwf'.
  { destruct Hp as [Hc|[He _]]; [by eapply committed_wf|by eapply empty_wf]. }
  eapply wp_mono; [apply reboot_recovers; try done; lia|].
  intros [] t (Ht & Hrt & Hlt & Hst). split; [|split; [|done]].
  - intros d b Ha. rewrite Ht. destruct Hp as [Hc|[He Hx]].
    + exact (recovered_committed drv l lb x _ Hwf Hlb Hc d b Ha).
    + rewrite <- Hx by done. exact (recovered_empty drv l lb _ Hwf Hlb He d b Ha).
  - eapply head_empty_ext; [exact Ht|]. 
    refine (recovered_head drv l lb _ Hlb _ Hwf'). intros. by apply platter_ok.
Qed.

(** C1. [commit] returns and the new contents are on the disk.  After a crash that
    keeps any prefix of the sectors it wrote, booting returns with an empty
    log and, outside the log area, with all blocks old when the prefix ends
    before the header (the first [n] writes), and with all blocks new otherwise. *)
Theorem commit_crash_safe (s : st) v :
  let l := st_log s in
  let n := lh_n (log_lh l) in
  cache_rep s (quiet v (home_keys l)) -> log_wf (st_drv s) l -> 0 < n < NBUF ->
  head_empty l (platter (st_drv s)) ->
  exists s' w, commit s = Done tt s' /\ st_writes s' = st_writes s ++ w /\
    (forall d b, ~ in_area l d b -> platter (st_drv s') d b = v d b) /\
    forall k drv,
      drv_idle drv -> (forall d b, drv_serves drv d b <-> drv_serves (st_drv s) d b) ->
      (forall d b, platter drv d b = apply_writes (take k w) (platter (st_drv s)) d b) ->
      wp (reboot (log_start l) (log_size l) (log_dev l)) (fun _ t =>
        (forall d b, ~ in_area l d b ->
           platter (st_drv t) d b = if decide (k <= Z.to_nat n)%nat then platter (st_drv s) d b
                                    else v d b) /\
        head_empty l (platter (st_drv t)) /\
        cache_rep t (fresh (st_drv t)) /\ log_open l (st_log t) /\
        (forall d b, drv_serves (st_drv t) d b <-> drv_serves drv d b)) (powered_on drv).
Proof.
  intros l n Hrep Hwf Hn He.
  pose proof (wp_commit s v Hrep Hwf Hn) as (? & s' & Hrun & Hr' & _ & Ew & Es & Ep)%wp_inv.
  pose proof (cr_view _ _ _ (proj2 Hrep)) as Hv.
  assert (forall d b, (d, b) ∉ home_keys l -> platter (st_drv s) d b = v d b) as Hp0.
  { intros d b Hk. apply (cr_platter _ _ _ (proj2 Hrep)); [done|set_solver]. }
  destruct x. exists s', (commit_writes l v). split_and!; [done|done| |].
  { intros d b Ha. rewrite Ep. apply (installed_empty _ _ _ _ Hwf Hv Hp0); done. }
  intros k drv Hidle Hsv Hpl. pose proof (commit_prefix _ _ _ _ Hwf Hv Hp0 He k) as Hpre.
  assert (log_wf drv l) as Hwf' by (eapply log_wf_serves; [exact Hsv|exact Hwf]).
  fold n in Hpre. destruct (decide (k <= Z.to_nat n)%nat); apply reboot_yields; try done.
  - right. split; [eapply head_empty_ext; [exact Hpl|]|intros; rewrite Hpl]; by apply Hpre.
  - destruct Hpre as [Hc|[He' Hx]]; [left; by eapply committed_ext|right].
    split; [by eapply head_empty_ext|]. intros. rewrite Hpl. by apply Hx.
Qed.

(** ** Collecting a transaction *)

(** The in-memory log once block [bn] belongs to the transaction. *)
Definition noted (l : log) (bn : Z) : log :=
  if decide (bn ∈ homes l) then l
  else set_lh (mkLh (lh_n (log_lh l) + 1)
                 (<[Z.to_nat (lh_n (log_lh l)) := bn]> (lh_block (log_lh l)))) l.

Lemma homes_elem drv l bn :
  log_wf drv l -> bn ∈ homes l <-> exists i, 0 <= i < lh_n (log_lh l) /\ home l i = bn.
Proof.
  intros Hwf. split.
  - intros [i Hi]%list_elem_of_lookup. pose proof (lookup_lt_Some _ _ _ Hi) as Hlt.
    unfold homes in Hlt. rewrite length_take in Hlt. exists (Z.of_nat i). split; [lia|].
    unfold home. by rewrite Nat2Z.id, (nth_lookup_Some _ _ _ _ Hi).
  - intros (i & Hi & <-). apply list_elem_of_lookup. exists (Z.to_nat i). unfold homes.
    apply lookup_take_Some. split; [by eapply home_lookup|lia].
Qed.

Lemma homes_noted drv l bn :
  log_wf drv l -> lh_n (log_lh l) < LOGSIZE ->
  homes (noted l bn) = if decide (bn ∈ homes l) then homes l else homes l ++ [bn].
Proof.
  intros Hwf Hn. unfold noted. case_decide; [done|]. pose proof (wf_n _ _ Hwf) as Hn0.
  pose proof (wf_len _ _ Hwf) as Hl. unfold homes. simpl.
  replace (Z.to_nat (lh_n (log_lh l) + 1)) with (S (Z.to_nat (lh_n (log_lh l)))) by lia.
  rewrite (take_S_r _ _ bn) by (apply list_lookup_insert_eq; lia).
  by rewrite take_insert_ge by lia.
Qed.

Lemma noted_wf drv l bn :
  log_wf drv l -> lh_n (log_lh l) < LOGSIZE -> lh_n (log_lh l) + 1 < log_size l ->
  0 <= bn < 2 ^ 31 -> ~ in_area l (log_dev l) bn -> drv_serves drv (log_dev l) bn ->
  log_wf drv (noted l bn).
Proof.
  intros Hwf Hn Hsz Hbn Ha Hsv. pose proof (homes_noted drv l bn Hwf Hn) as Eh.
  pose proof (wf_n _ _ Hwf) as Hn0. unfold noted in *. case_decide as Hin; [done|].
  assert (forall x, x ∈ homes l -> 0 <= x < 2 ^ 31 /\
    ~ (log_start l <= x < log_start l + log_size l) /\ drv_serves drv (log_dev l) x) as Hx.
  { intros x (i & Hi & <-)%(homes_elem drv); [|done]. by apply (home_props drv). }
  constructor; simpl; try apply Hwf; try lia.
  - rewrite length_insert. apply Hwf.
  - intros i b Hi Hb.
    assert (b ∈ homes l ++ [bn]) as Hb'.
    { rewrite <- Eh. unfold homes. simpl. apply list_elem_of_lookup. exists (Z.to_nat i).
      apply lookup_take_Some. split; [done|lia]. }
    apply elem_of_app in Hb' as [Hb'|Hb'%list_elem_of_singleton]; [by apply Hx|subst b].
    split_and!; try lia; [|done]. intros ?. apply Ha. by split.
  - fold (homes l) in *. change (NoDup (homes (set_lh (mkLh (lh_n (log_lh l) + 1)
      (<[Z.to_nat (lh_n (log_lh l)) := bn]> (lh_block (log_lh l)))) l))). rewrite Eh.
    apply NoDup_app. split_and!; [apply Hwf| |apply NoDup_singleton].
    intros x Hx1 ->%list_elem_of_singleton. done.
Qed.

(** The search of [log_write] finds the block iff the transaction has it. *)
Lemma wp_log_search (s : st) bn (Q : option Z -> st -> Prop) :
  let l := st_log s in
  log_wf (st_drv s) l ->
  (forall i, 0 <= i < lh_n (log_lh l) -> home l i = bn -> Q (Some i) s) ->
  (bn ∉ homes l -> Q None s) ->
  wp (for_ (Z.to_nat (lh_n (log_lh l))) 0 (fun i =>
        v <- get_block i ;; ret (if u32 v =? bn then Some i else None))) Q s.
Proof.
  intros l Hwf HS HN. pose proof (wf_n _ _ Hwf) as Hn.
  apply (wp_for _ _ _ (fun i t => t = s /\ forall j, 0 <= j < i -> home l j <> bn)).
  - split; [done|]. intros. lia.
  - intros i t Hi [-> Hj]. assert (0 <= i < lh_n (log_lh l)) as Hi' by lia. apply wp_bind.
    eapply wp_get_block; [lia|exact (home_lookup _ l i Hwf Hi')|]. apply wp_ret.
    destruct (log_u32 _ _ _ Hwf Hi') as (_ & _ & ->). destruct (Z.eqb_spec (home l i) bn).
    + by apply HS.
    + split; [done|]. intros j Hj'. destruct (decide (j = i)) as [->|]; [done|]. apply Hj. lia.
  - intros t [-> Hj]. apply HN. intros (i & Hi & E)%(homes_elem _ _ _ Hwf). apply (Hj i); [lia|done].
Qed.

(** [log_write]: the block joins the transaction and its buffer is pinned. *)
Lemma wp_log_write (s : st) a i bn :
  let l := st_log s in
  cache_rep s a -> c_held a !! i = Some (log_dev l, bn) -> log_wf (st_drv s) l ->
  lh_n (log_lh l) < LOGSIZE -> lh_n (log_lh l) < log_size l - 1 -> 1 <= log_outstanding l ->
  0 <= bn < 2 ^ 31 ->
  wp (log_write i) (fun _ s' =>
    cache_rep s' (pin (log_dev l, bn) a) /\ log_set s s' (noted l bn)) s.
Proof.
  intros l Hrep Hh Hwf Hn1 Hn2 Ho Hbn. pose proof (wf_n _ _ Hwf) as Hn.
  pose proof (wf_len _ _ Hwf) as Hlen.
  destruct (rep_held _ _ _ _ Hrep Hh) as (b & _ & Hb & [= Hd Hbno] & _).
  unfold log_write. apply wp_bind, wp_gets. fold l.
  destruct (Z.geb_spec (lh_n (log_lh l)) LOGSIZE); [lia|].
  destruct (Z.geb_spec (lh_n (log_lh l)) (log_size l - 1)); [lia|]. simpl.
  destruct (Z.ltb_spec (log_outstanding l) 1); [lia|].
  apply wp_bind. eapply wp_getb; [exact Hb|]. rewrite Hbno, s32_small by zlia. apply wp_bind.
  assert (forall l', wp (updb i (fun b => set_flags (Z.lor (b_flags b) B_DIRTY) b))
     (fun _ s' => cache_rep s' (pin (log_dev l, bn) a) /\ log_set s s' l') (with_log l' s)) as Hpin.
  { intros l'. eapply wp_mono; [eapply wp_pin; [by apply cache_rep_log|done]|].
    intros [] s' [Hr (E1 & E2 & E3 & E4)]. by split. }
  apply wp_log_search; [done| |].
  - intros j Hj Ej. fold l in Hj, Ej |- *. pose proof (home_lookup _ _ _ Hwf Hj) as Hl.
    apply wp_bind. unfold set_block. apply wp_bind.
    eapply wp_get_block; [lia|exact Hl|]. apply wp_modify.
    destruct (Z.eqb_spec j (lh_n (log_lh l))); [lia|]. apply wp_bind, wp_ret.
    assert (noted l bn = l) as ->.
    { unfold noted. rewrite decide_True; [done|]. apply (homes_elem _ _ _ Hwf). eauto. }
    rewrite list_insert_id by (etrans; [exact Hl|by rewrite Ej]). fold l.
    replace (set_lh _ l) with l by (by destruct l as [? ? ? ? ? []]). apply Hpin.
  - intros Hni. fold l in Hni |- *. apply wp_bind. unfold set_block. apply wp_bind.
    destruct (lookup_lt_is_Some_2 (lh_block (log_lh l)) (Z.to_nat (lh_n (log_lh l)))) as [x Hx]; [lia|].
    eapply wp_get_block; [lia|exact Hx|]. apply wp_modify. fold l.
    rewrite Z.eqb_refl. apply wp_bind, wp_modify. unfold noted. rewrite decide_False by done.
    apply Hpin.
Qed.

(** [begin_op] admits an operation only when [MAXOPBLOCKS] blocks are free
    for it and for every operation already running. *)
Lemma begin_op_admits (s : st) :
  let l := st_log s in
  begin_op s =
    if (log_committing l =? 0) && (lh_n (log_lh l) + (log_outstanding l + 1) * MAXOPBLOCKS <=? LOGSIZE)
    then Done tt (with_log (set_outstanding (log_outstanding l + 1) l) s)
    else Sleep "log".
Proof.
  intros l. unfold begin_op, bind, get_log, gets, upd_log, modify, sleep_on. fold l.
  destruct (log_committing l =? 0); simpl; [|done].
  by rewrite Z.gtb_ltb, Z.ltb_antisym; destruct (_ <=? _).
Qed.

(** The typical use of the log (the comment over [log_write]). *)
Definition log_update (dev bn : Z) (f : list Z -> list Z) : M st unit :=
  bp <- bread dev bn ;;
  x <- get_data bp ;;
  put_data bp (f x) ;;;
  log_write bp ;;;
  brelse bp.

Lemma home_keys_noted drv l bn :
  log_wf drv l -> lh_n (log_lh l) < LOGSIZE ->
  home_keys (noted l bn) = {[(log_dev l, bn)]} ∪ home_keys l.
Proof.
  intros Hwf Hn. assert (log_dev (noted l bn) = log_dev l) as Ed by (unfold noted; by case_decide).
  unfold home_keys. rewrite Ed, (homes_noted drv) by done. case_decide as Hin.
  - assert ((log_dev l, bn) ∈ home_keys l); [|unfold home_keys in *; set_solver].
    apply elem_of_list_to_set, list_elem_of_fmap. eauto.
  - rewrite fmap_app, list_to_set_app_L. simpl. set_solver.
Qed.

Lemma wp_log_update (s : st) v bn f :
  let l := st_log s in
  cache_rep s (quiet v (home_keys l)) -> log_wf (st_drv s) l ->
  lh_n (log_lh l) < LOGSIZE -> lh_n (log_lh l) < log_size l - 1 -> 1 <= log_outstanding l ->
  lh_n (log_lh l) < NBUF -> 0 <= bn < 2 ^ 31 -> drv_serves (st_drv s) (log_dev l) bn ->
  blk_ok (f (v (log_dev l) bn)) ->
  wp (log_update (log_dev l) bn f) (fun _ s' =>
    cache_rep s' (quiet (upd_blk v (log_dev l) bn (f (v (log_dev l) bn))) (home_keys (noted l bn))) /\
    log_set s s' (noted l bn)) s.
Proof.
  intros l Hrep Hwf Hn1 Hn2 Ho Hnb Hbn Hsv Hf. set (k := (log_dev l, bn)).
  pose proof (wf_n _ _ Hwf). pose proof (home_keys_size _ _ Hwf).
  unfold log_update. apply wp_bind. eapply wp_mono.
  { eapply (wp_bread s); [exact Hrep|done|by intros i|]. apply room_quiet. fold l. lia. }
  intros i s1 (_ & Hr1 & He1). pose proof He1 as (El1 & Ew1 & Es1 & Ep1). apply wp_bind.
  eapply (wp_get_data _ _ i k); [done|by apply lookup_insert_eq|]. apply wp_bind.
  eapply wp_mono; [eapply (wp_put_data _ _ i k); [done|by apply lookup_insert_eq|exact Hf]|].
  intros [] s2 [Hr2 (El2 & Ew2 & Es2 & Ep2)]. apply wp_bind.
  assert (st_log s2 = l) as El by (by rewrite El2, El1). eapply wp_mono.
  { eapply (wp_log_write s2 _ i bn); rewrite ?El; try done; [by apply lookup_insert_eq|].
    eapply log_wf_serves; [|exact Hwf]. intros. by rewrite Es2, Es1. }
  rewrite El. intros [] s3 [Hr3 (El3 & Ew3 & Es3 & Ep3)]. eapply wp_mono.
  { eapply (wp_brelse _ _ i k); [done|by apply lookup_insert_eq|simpl; set_solver]. }
  intros [] s4 (Hr4 & (El4 & Ew4 & Es4 & Ep4) & _). split.
  - refine (eq_ind _ (cache_rep s4) Hr4 _ _). unfold release, pin, touch, hold, quiet. simpl.
    f_equal; [|set_solver|by rewrite (home_keys_noted (st_drv s))].
    apply map_eq. intros j. rewrite lookup_empty. destruct (decide (j = i)); by simplify_map_eq.
  - split_and!; [by rewrite El4, El3|by rewrite Ew4, Ew3, Ew2, Ew1|..]; intros x y.
    + by rewrite Es4, Es3, Es2, Es1.
    + by rewrite Ep4, Ep3, Ep2, Ep1.
Qed.

Lemma log_wf_flags drv l o c :
  log_wf drv l -> log_wf drv (set_committing c (set_outstanding o l)).
Proof. intros [A1 A2 A3 A4 A5 A6 A7]. by constructor. Qed.

Lemma commit_unpins drv l v :
  log_wf drv l -> home_keys l ∖ write_keys (commit_writes l v) = ∅.
Proof.
  intros Hwf. apply set_eq. intros [d b]. split; [|set_solver].
  intros [Hk Hw]%elem_of_difference. destruct Hw. unfold commit_writes.
  apply (home_keys_elem _ _ _ _ Hwf) in Hk as (-> & j & Hj & ->).
  rewrite !write_keys_app. apply elem_of_union_l, elem_of_union_r, home_writes_keys. eauto.
Qed.

(** [commit] installs the transaction, if there is one, and empties the log. *)
Lemma wp_commit_done (s : st) v :
  let l := st_log s in
  cache_rep s (quiet v (home_keys l)) -> log_wf (st_drv s) l -> lh_n (log_lh l) < NBUF ->
  wp commit (fun _ s' =>
    st_log s' = set_lh_n 0 l /\
    (forall d b, ~ in_area l d b -> platter (st_drv s') d b = v d b) /\
    exists v', cache_rep s' (quiet v' ∅) /\ forall d b, ~ in_area l d b -> v' d b = v d b) s.
Proof.
  intros l Hrep Hwf Hn. pose proof (wf_n _ _ Hwf) as Hn0.
  assert (forall d b, (d, b) ∉ home_keys l -> platter (st_drv s) d b = v d b) as Hp0.
  { intros d b Hk. apply (cr_platter _ _ _ (proj2 Hrep)); [done|set_solver]. }
  pose proof (cr_view _ _ _ (proj2 Hrep)) as Hv.
  destruct (decide (lh_n (log_lh l) = 0)) as [En|En].
  - assert (home_keys l = ∅) as Ek.
    { apply set_eq. intros [d b]. rewrite (home_keys_elem _ _ _ _ Hwf). split; [|set_solver].
      intros (_ & i & Hi & _). lia. }
    unfold commit. apply wp_bind, wp_gets. fold l. rewrite En. apply wp_ret. split_and!.
    + fold l. destruct l as [? ? ? ? ? [n ?]]. simpl in *. by subst n.
    + intros. apply Hp0. rewrite Ek. set_solver.
    + exists v. rewrite Ek in Hrep. done.
  - eapply wp_mono; [apply (wp_commit s v); [done|done|fold l; lia]|].
    fold l. intros [] s1 [Hr1 (E1 & _ & _ & Ep1)]. split_and!; [done| |].
    + intros d b Ha. rewrite Ep1. by apply (installed_empty _ _ _ _ Hwf Hv Hp0).
    + eexists. unfold after in Hr1. rewrite (commit_unpins _ _ _ Hwf) in Hr1.
      split; [exact Hr1|]. intros d b Ha. by apply (installed_empty _ _ _ v Hwf Hv).
Qed.

(** [end_op] of the last operation: the transaction is on the disk and the
    log is empty and open again. *)
Lemma wp_end_op_last (s : st) v :
  let l := st_log s in
  cache_rep s (quiet v (home_keys l)) -> log_wf (st_drv s) l -> lh_n (log_lh l) < NBUF ->
  log_committing l = 0 -> log_outstanding l = 1 ->
  wp end_op (fun _ s' =>
    st_log s' = set_lh_n 0 (set_outstanding 0 l) /\
    (forall d b, ~ in_area l d b -> platter (st_drv s') d b = v d b) /\
    exists v', cache_rep s' (quiet v' ∅) /\ forall d b, ~ in_area l d b -> v' d b = v d b) s.
Proof.
  intros l Hrep Hwf Hn Hc Ho. unfold end_op. apply wp_bind, wp_gets. fold l.
  apply wp_bind, wp_modify. rewrite Hc, Ho. simpl. apply wp_bind, wp_modify. apply wp_bind.
  simpl. fold l. set (l1 := set_committing 1 (set_outstanding 0 l)). eapply wp_mono.
  { apply (wp_commit_done (with_log l1 (with_log (set_outstanding 0 l) s)) v);
      [exact Hrep|by apply log_wf_flags|done]. }
  intros [] s1 (E1 & Hp & Hv'). apply wp_modify. simpl. split_and!; [|done|done].
  rewrite E1. unfold set_committing, set_lh_n, set_lh, set_outstanding, l1. simpl. by rewrite Hc.
Qed.

(** [end_op] while other operations run only gives up the reservation. *)
Lemma end_op_others (s : st) :
  let l := st_log s in
  log_committing l = 0 -> log_outstanding l <> 1 ->
  end_op s = Done tt (with_log (set_outstanding (log_outstanding l - 1) l) s).
Proof.
  intros l Hc Ho. unfold end_op, bind, get_log, gets, upd_log, modify, ret. fold l. rewrite Hc.
  simpl. destruct (Z.eqb_spec (log_outstanding l - 1) 0); [lia|done].
Qed.

(** The panics of [log_write]. *)
Definition write_guard (l : log) : bool :=
  negb ((lh_n (log_lh l) >=? LOGSIZE) || (lh_n (log_lh l) >=? log_size l - 1)) &&
  negb (log_outstanding l <? 1).

Lemma log_write_panics (s : st) b :
  write_guard (st_log s) = false -> exists msg, log_write b s = Panic msg.
Proof.
  unfold write_guard, log_write, bind, get_log, gets. destruct (_ || _); simpl; [by eexists|].
  destruct (_ <? 1); [by eexists|done].
Qed.
End Log.
