(* ===== verification/BlockRuns.v ===== *)
(** * The block layer on concrete disks

    A 64-block memory disk (memide.c) and a model ATA controller (for ide.c),
    with concrete runs of the cache and the log on them.  They show that the
    hypotheses of the block-layer theorems hold of real executions. *)

From S2P Require Import Prelude Buf Ide Bio Log.

(** ** A memory disk with one transaction collected *)

Definition zeroes64 : list Z := replicate (64 * BSIZEn) 0.
#[global] Arguments zeroes64 : simpl never.
Definition disk64 : MemIde.memide := MemIde.mkMem 64 zeroes64.

Lemma disk64_idle : MemIde.mem_idle disk64.
Proof.
  unfold MemIde.mem_idle. cbn [MemIde.disksize MemIde.memdisk disk64]. unfold zeroes64.
  split; [done|]. split; [rewrite length_replicate; lia|]. apply Forall_replicate. unfold is_byte. lia.
Qed.

Lemma slice_zeroes off n m :
  (off + n <= m)%nat -> bslice off n (replicate m (0 : Z)) = replicate n 0.
Proof. intros. unfold bslice. rewrite drop_replicate, take_replicate. f_equal. lia. Qed.

Lemma disk64_platter d b : platter disk64 d b = zero_blk.
Proof.
  simpl. unfold MemIde.mem_platter. case_decide as Hs; [|done]. destruct Hs as [_ Hb].
  apply slice_zeroes. pose proof (MemIde.block_off _ _ Hb) as Ho.
  change (Z.to_nat (MemIde.disksize disk64)) with 64%nat in Ho. lia.
Qed.

(** The log area is blocks 2..31 of device 1. *)
Definition log64 : log := mkLog 2 30 0 0 1 (mkLh 0 (replicate (Z.to_nat LOGSIZE) 0)).

Lemma serves64 b : 0 <= b < 64 -> drv_serves disk64 1 b.
Proof. intros. split; [done|]. simpl. lia. Qed.

Lemma log64_wf drv :
  (forall d b, drv_serves drv d b <-> drv_serves disk64 d b) -> log_wf drv log64.
Proof.
  intros Hs. constructor; simpl; unfold LOGSIZE, MAXOPBLOCKS; try lia; try done.
  - intros j Hj. apply Hs, serves64. lia.
  - constructor.
Qed.

(** Boot, start an operation and log a change of block 40. *)
Definition sevens : list Z := replicate BSIZEn 7.
#[global] Arguments sevens : simpl never.
Definition one_change : M (bst MemIde.memide) unit :=
  reboot 2 30 1 ;;; begin_op ;;; log_update 1 40 (fun _ => sevens).

Lemma sevens_ok : blk_ok sevens.
Proof. split; [done|]. apply Forall_replicate. unfold is_byte. lia. Qed.

Lemma one_change_ready drv :
  (forall d b, drv_serves drv d b <-> drv_serves disk64 d b) -> drv_idle drv ->
  (forall d b, platter drv d b = zero_blk) ->
  exists s v, one_change (powered_on drv) = Done tt s /\
    cache_rep s (quiet v (home_keys (st_log s))) /\ log_wf (st_drv s) (st_log s) /\
    lh_n (log_lh (st_log s)) = 1 /\ head_empty (st_log s) (platter (st_drv s)) /\
    v 1 40 = sevens /\ platter (st_drv s) 1 40 = zero_blk.
Proof.
  intros Hsv0 Hidle Hzero.
  enough (wp one_change (fun _ s => exists v,
    cache_rep s (quiet v (home_keys (st_log s))) /\ log_wf (st_drv s) (st_log s) /\
    lh_n (log_lh (st_log s)) = 1 /\ head_empty (st_log s) (platter (st_drv s)) /\
    v 1 40 = sevens /\ platter (st_drv s) 1 40 = zero_blk) (powered_on drv)) as H.
  { destruct (proj1 (wp_inv _ _ _) H) as ([] & s & E & v & Hv). exists s, v. by split. }
  unfold one_change. apply wp_bind. eapply wp_mono.
  { apply (reboot_yields drv log64 (platter drv)); [by apply log64_wf|exact Hidle|].
    right. split; [|done]. unfold head_empty. rewrite Hzero. by vm_compute. }
  intros [] t (Hp & He & Hr & ((Ed & Est & Esz & Elen) & Eo & Ec & En) & Hsv).
  apply wp_bind.
  assert (begin_op t = Done tt (with_log (set_outstanding 1 (st_log t)) t)) as Eb.
  { rewrite begin_op_admits, Eo, Ec, En. done. }
  unfold wp at 1. rewrite Eb.
  set (l1 := set_outstanding 1 (st_log t)). set (t1 := with_log l1 t).
  assert (log_wf (st_drv t) l1) as Hwf1.
  { apply (log_wf_flags _ (st_log t) 1 (log_committing (st_log t))). apply (log_open_wf _ log64).
    - apply log64_wf. intros. by rewrite Hsv, Hsv0.
    - split_and!; done. }
  assert (home_keys l1 = ∅) as Ek by (unfold home_keys, homes; simpl; by rewrite En).
  replace (log_update 1 40) with (log_update (log_dev (st_log t1)) 40) by (simpl; by rewrite Ed).
  eapply wp_mono.
  { apply (wp_log_update t1 (platter (st_drv t)) 40); simpl; fold l1; rewrite ?En, ?Esz, ?Ek;
      unfold LOGSIZE, NBUF, MAXOPBLOCKS; try done; try (simpl; lia).
    - apply Hsv, Hsv0. rewrite Ed. apply serves64. lia.
    - apply sevens_ok. }
  intros [] s [Hrs (El & _ & Es & Ep)]. simpl in Hrs, El, Es, Ep. fold l1 in Hrs, El.
  assert (homes l1 = []) as Eh by (unfold homes; simpl; by rewrite En).
  assert (noted l1 40 = set_lh (mkLh 1 (<[0%nat := 40]> (lh_block (log_lh (st_log t))))) l1) as Enn.
  { unfold noted. rewrite decide_False by (rewrite Eh; apply not_elem_of_nil). simpl. by rewrite En. }
  eexists. split_and!.
  - rewrite El. exact Hrs.
  - rewrite El. apply (log_wf_serves (st_drv t)); [done|].
    apply noted_wf; simpl; rewrite ?En, ?Esz; unfold LOGSIZE, MAXOPBLOCKS; simpl; try lia; try done.
    + unfold in_area. simpl. rewrite Est, Esz. simpl. lia.
    + apply Hsv, Hsv0. rewrite Ed. apply serves64. lia.
  - rewrite El, Enn. done.
  - unfold head_empty in *. rewrite El, Enn. simpl. rewrite Ep. simpl. rewrite Ed, Est. done.
  - rewrite Ed. simpl. apply upd_blk_eq.
  - rewrite Ep, Hp; [apply Hzero|]. unfold in_area. simpl. lia.
Qed.

(** C1's hypotheses hold of this run. *)
Lemma commit_crash_safe_witness :
  exists s v, one_change (powered_on disk64) = Done tt s /\ v 1 40 = sevens /\
    exists s' w, commit s = Done tt s' /\ st_writes s' = st_writes s ++ w /\
      forall k drv,
        drv_idle drv -> (forall d b, drv_serves drv d b <-> drv_serves (st_drv s) d b) ->
        (forall d b, platter drv d b = apply_writes (take k w) (platter (st_drv s)) d b) ->
        wp (reboot (log_start (st_log s)) (log_size (st_log s)) (log_dev (st_log s))) (fun _ t =>
          ~ in_area (st_log s) 1 40 ->
          platter (st_drv t) 1 40 = if decide (k <= 1)%nat then zero_blk else sevens) (powered_on drv).
Proof.
  destruct (one_change_ready disk64) as (s & v & E & Hr & Hwf & Hn & He & Hv & Hz);
    [reflexivity|exact disk64_idle|exact disk64_platter|].
  exists s, v. split; [exact E|]. split; [exact Hv|].
  destruct (commit_crash_safe s v Hr Hwf) as (s' & w & Hrun & Hw & _ & Hcrash).
  { rewrite Hn. unfold NBUF, MAXOPBLOCKS. lia. }
  { exact He. }
  exists s', w. split; [exact Hrun|]. split; [exact Hw|].
  intros k drv Hidle Hsv Hpl. eapply wp_mono; [apply (Hcrash k drv Hidle Hsv Hpl)|].
  intros [] t (Ht & _) Ha. rewrite (Ht _ _ Ha), Hn, Hz, Hv. reflexivity.
Defined.
