(* ===== verification/CString.v ===== *)
(** * C strings and memory blocks: string.c and ulib.c

    Memory is a partial map from addresses to bytes; an access to an unmapped
    address is a [Fault].  Pointer arithmetic is on unbounded addresses: the
    theorems ask for the ranges they use to be mapped, which is what C asks for.
    The kernel's routines are in module [Kernel], the user library's in [User]. *)

From S2P Require Import Prelude.

Abbreviation mem := (gmap Z Z).

Definition ld (p : Z) : M mem Z := fun m =>
  match m !! p with Some b => Done b m | None => Fault "load" end.
Definition stb (p v : Z) : M mem unit := fun m =>
  match m !! p with Some _ => Done tt (<[p := u8 v]> m) | None => Fault "store" end.

(** ** x86.h: the string instructions *)

Fixpoint stosb_loop (cnt : nat) (p data : Z) : M mem unit :=
  match cnt with
  | O => ret tt
  | S cnt' => stb p data ;;; stosb_loop cnt' (p + 1) data
  end.
Definition stosb (addr data cnt : Z) : M mem unit := stosb_loop (Z.to_nat (u32 cnt)) addr data.

Definition stl (p v : Z) : M mem unit :=
  stb p v ;;; stb (p + 1) (Z.shiftr v 8) ;;; stb (p + 2) (Z.shiftr v 16) ;;; stb (p + 3) (Z.shiftr v 24).
Fixpoint stosl_loop (cnt : nat) (p data : Z) : M mem unit :=
  match cnt with
  | O => ret tt
  | S cnt' => stl p data ;;; stosl_loop cnt' (p + 4) data
  end.
Definition stosl (addr data cnt : Z) : M mem unit := stosl_loop (Z.to_nat (u32 cnt)) addr data.

(** ** Loops shared by several routines *)

(** [while(n-- > 0) *d++ = *s++;] and its mirror [*--d = *--s]. *)
Fixpoint copy_up (n : nat) (d s : Z) : M mem unit :=
  match n with
  | O => ret tt
  | S n' => c <- ld s ;; stb d c ;;; copy_up n' (d + 1) (s + 1)
  end.
Fixpoint copy_down (n : nat) (d s : Z) : M mem unit :=
  match n with
  | O => ret tt
  | S n' => c <- ld (s - 1) ;; stb (d - 1) c ;;; copy_down n' (d - 1) (s - 1)
  end.

(** [for(n = 0; s[n]; n++);] *)
Fixpoint strlen_loop (fuel : nat) (s n : Z) : M mem Z :=
  match fuel with
  | O => nofuel
  | S fuel' => c <- ld (s + n) ;; if negb (c =? 0) then strlen_loop fuel' s (n + 1) else ret n
  end.

Module Kernel.

Definition memset (dst c n : Z) : M mem Z :=
  (if (Z.rem (s32 dst) 4 =? 0) && (u32 n mod 4 =? 0) then
     let c := Z.land c 0xff in
     stosl dst (Z.lor (Z.lor (Z.lor (Z.shiftl c 24) (Z.shiftl c 16)) (Z.shiftl c 8)) c) (u32 n / 4)
   else stosb dst c n) ;;;
  ret dst.

Fixpoint memcmp (n : nat) (s1 s2 : Z) : M mem Z :=
  match n with
  | O => ret 0
  | S n' =>
      a <- ld s1 ;; b <- ld s2 ;;
      if negb (a =? b) then ret (a - b) else memcmp n' (s1 + 1) (s2 + 1)
  end.

Definition memmove (dst src n : Z) : M mem Z :=
  (if (src <? dst) && (src + n >? dst)
   then copy_down (Z.to_nat n) (dst + n) (src + n)
   else copy_up (Z.to_nat n) dst src) ;;;
  ret dst.

Definition memcpy (dst src n : Z) : M mem Z := memmove dst src n.

Fixpoint strncmp (n : nat) (p q : Z) : M mem Z :=
  match n with
  | O => ret 0
  | S n' =>
      a <- ld p ;;
      if negb (a =? 0) then
        b <- ld q ;;
        if a =? b then strncmp n' (p + 1) (q + 1) else ret (a - b)
      else b <- ld q ;; ret (a - b)
  end.

Fixpoint zero_fill (n : nat) (s : Z) : M mem unit :=
  match n with
  | O => ret tt
  | S n' => stb s 0 ;;; zero_fill n' (s + 1)
  end.
(** The copying loop of [strncpy], then its filling loop. *)
Fixpoint strncpy_loop (n : nat) (s t : Z) : M mem unit :=
  match n with
  | O => ret tt
  | S n' =>
      c <- ld t ;; stb s c ;;;
      if negb (c =? 0) then strncpy_loop n' (s + 1) (t + 1) else zero_fill n' (s + 1)
  end.
Definition strncpy (s t n : Z) : M mem Z := strncpy_loop (Z.to_nat n) s t ;;; ret s.

(** [while(--n > 0 && ...); *s = 0;] with [n - 1] rounds left. *)
Fixpoint safestrcpy_loop (n : nat) (s t : Z) : M mem unit :=
  match n with
  | O => stb s 0
  | S n' =>
      c <- ld t ;; stb s c ;;;
      if negb (c =? 0) then safestrcpy_loop n' (s + 1) (t + 1) else stb (s + 1) 0
  end.
Definition safestrcpy (s t n : Z) : M mem Z :=
  if n <=? 0 then ret s
  else safestrcpy_loop (Z.to_nat (n - 1)) s t ;;; ret s.

Definition strlen (fuel : nat) (s : Z) : M mem Z := strlen_loop fuel s 0.

End Kernel.

Module User.

Fixpoint strcpy_loop (fuel : nat) (s t : Z) : M mem unit :=
  match fuel with
  | O => nofuel
  | S fuel' => c <- ld t ;; stb s c ;;; if negb (c =? 0) then strcpy_loop fuel' (s + 1) (t + 1) else ret tt
  end.
Definition strcpy (fuel : nat) (s t : Z) : M mem Z := strcpy_loop fuel s t ;;; ret s.

Fixpoint strcmp (fuel : nat) (p q : Z) : M mem Z :=
  match fuel with
  | O => nofuel
  | S fuel' =>
      a <- ld p ;; b <- ld q ;;
      if negb (a =? 0) && (a =? b) then strcmp fuel' (p + 1) (q + 1) else ret (a - b)
  end.

Definition strlen (fuel : nat) (s : Z) : M mem Z := n <- strlen_loop fuel s 0 ;; ret (u32 n).

Definition memset (dst c n : Z) : M mem Z := stosb dst c n ;;; ret dst.

Fixpoint strchr (fuel : nat) (s c : Z) : M mem Z :=
  match fuel with
  | O => nofuel
  | S fuel' =>
      a <- ld s ;;
      if negb (a =? 0) then (if a =? u8 c then ret s else strchr fuel' (s + 1) c) else ret 0
  end.

Fixpoint atoi_loop (fuel : nat) (s n : Z) : M mem Z :=
  match fuel with
  | O => nofuel
  | S fuel' =>
      c <- ld s ;;
      if (48 <=? s8 c) && (s8 c <=? 57) then atoi_loop fuel' (s + 1) (s32 (n * 10 + s8 c - 48)) else ret n
  end.
Definition atoi (fuel : nat) (s : Z) : M mem Z := atoi_loop fuel s 0.

Definition memmove (vdst vsrc n : Z) : M mem Z := copy_up (Z.to_nat n) vdst vsrc ;;; ret vdst.

End User.

(** ** Ranges of memory *)

(** [m] holds the bytes [l] from address [p]. *)
Definition array_at (m : mem) (p : Z) (l : list Z) : Prop :=
  forall i x, l !! i = Some x -> m !! (p + Z.of_nat i) = Some x.
Definition mapped (m : mem) (p : Z) (n : nat) : Prop :=
  forall i, 0 <= i < Z.of_nat n -> is_Some (m !! (p + i)).
(** A NUL-terminated string. *)
Definition cstr (m : mem) (p : Z) (l : list Z) : Prop :=
  array_at m p (l ++ [0]) /\ Forall (fun c => c <> 0) l.

(** [m] with the bytes [l] from [p]. *)
Fixpoint blit (m : mem) (p : Z) (l : list Z) : mem :=
  match l with
  | [] => m
  | x :: l' => blit (<[p := x]> m) (p + 1) l'
  end.

Lemma blit_lookup l m p a :
  blit m p l !! a = if decide (p <= a < p + Z.of_nat (length l)) then l !! Z.to_nat (a - p) else m !! a.
Proof.
  revert m p. induction l as [|x l IH]; intros m p; cbn [blit length].
  - rewrite decide_False by lia. done.
  - rewrite IH. destruct (decide (a = p)) as [->|Hne].
    + rewrite decide_False, decide_True by lia. rewrite Z.sub_diag. by rewrite lookup_insert_eq.
    + rewrite lookup_insert_ne by done.
      destruct (decide (p + 1 <= a < p + 1 + Z.of_nat (length l))).
      * rewrite decide_True by lia. replace (Z.to_nat (a - p)) with (S (Z.to_nat (a - (p + 1)))) by lia.
        done.
      * rewrite decide_False by lia. done.
Qed.

Lemma blit_app l1 l2 m p :
  blit m p (l1 ++ l2) = blit (blit m p l1) (p + Z.of_nat (length l1)) l2.
Proof.
  revert m p. induction l1 as [|x l1 IH]; intros m p; cbn [app blit length].
  - by rewrite Z.add_0_r.
  - rewrite IH. f_equal. lia.
Qed.

Lemma array_at_cons m p x l : array_at m p (x :: l) <-> m !! p = Some x /\ array_at m (p + 1) l.
Proof.
  split.
  - intros H. split; [specialize (H 0%nat x eq_refl); by rewrite Z.add_0_r in H|].
    intros i y Hi. specialize (H (S i) y Hi). rewrite <- H. f_equal. lia.
  - intros [H0 H1] [|i] y Hi; [injection Hi as <-; by rewrite Z.add_0_r|].
    rewrite <- (H1 i y Hi). f_equal. lia.
Qed.

Lemma array_at_app m p l1 l2 :
  array_at m p (l1 ++ l2) <-> array_at m p l1 /\ array_at m (p + Z.of_nat (length l1)) l2.
Proof.
  revert p. induction l1 as [|x l1 IH]; intros p; cbn [app length].
  - rewrite Z.add_0_r. split; [intros H; split; [by intros i y|done]|tauto].
  - rewrite !array_at_cons, IH.
    replace (p + 1 + Z.of_nat (length l1)) with (p + Z.of_nat (S (length l1))) by lia. tauto.
Qed.

Lemma mapped_S m p n : mapped m p (S n) <-> is_Some (m !! p) /\ mapped m (p + 1) n.
Proof.
  split.
  - intros H. split; [rewrite <- (Z.add_0_r p); apply H; lia|].
    intros i Hi. replace (p + 1 + i) with (p + (i + 1)) by lia. apply H. lia.
  - intros [H0 H1] i Hi. destruct (decide (i = 0)) as [->|]; [by rewrite Z.add_0_r|].
    replace (p + i) with (p + 1 + (i - 1)) by lia. apply H1. lia.
Qed.

Lemma mapped_insert m p n a x : mapped m p n -> mapped (<[a := x]> m) p n.
Proof.
  intros H i Hi. destruct (decide (a = p + i)) as [->|]; simplify_map_eq; eauto.
Qed.

Lemma array_at_insert m p l a x :
  a < p \/ p + Z.of_nat (length l) <= a -> array_at m p l -> array_at (<[a := x]> m) p l.
Proof.
  intros Ha H i y Hi. pose proof (lookup_lt_Some _ _ _ Hi).
  rewrite lookup_insert_ne by lia. by apply H.
Qed.

Lemma array_at_blit m p l : array_at (blit m p l) p l.
Proof.
  intros i x Hi. pose proof (lookup_lt_Some _ _ _ Hi). rewrite blit_lookup, decide_True by lia.
  rewrite <- Hi. f_equal. lia.
Qed.

Lemma array_at_blit_other m p l q w :
  p + Z.of_nat (length l) <= q \/ q + Z.of_nat (length w) <= p -> array_at m q w ->
  array_at (blit m p l) q w.
Proof.
  intros Hd H i x Hi. pose proof (lookup_lt_Some _ _ _ Hi).
  rewrite blit_lookup, decide_False by lia. by apply H.
Qed.

Lemma wp_ld (m : mem) p x (Q : Z -> mem -> Prop) : m !! p = Some x -> Q x m -> wp (ld p) Q m.
Proof. intros H HQ. unfold wp, ld. by rewrite H. Qed.

Lemma wp_stb (m : mem) p v (Q : unit -> mem -> Prop) :
  is_Some (m !! p) -> Q tt (<[p := u8 v]> m) -> wp (stb p v) Q m.
Proof. intros [x H] HQ. unfold wp, stb. by rewrite H. Qed.

(** ** Filling *)

Lemma wp_stosb_loop n p c (m : mem) :
  mapped m p n -> wp (stosb_loop n p c) (fun _ m' => m' = blit m p (replicate n (u8 c))) m.
Proof.
  revert p m. induction n as [|n IH]; intros p m Hm; [by apply wp_ret|].
  cbn [stosb_loop replicate blit]. apply mapped_S in Hm as [H0 H1].
  apply wp_bind, wp_stb; [done|]. apply IH. by apply mapped_insert.
Qed.

(** The word that [memset] stores four bytes at a time. *)
Lemma fill_word c : 0 <= c < 256 ->
  let w := Z.lor (Z.lor (Z.lor (Z.shiftl c 24) (Z.shiftl c 16)) (Z.shiftl c 8)) c in
  u8 w = c /\ u8 (Z.shiftr w 8) = c /\ u8 (Z.shiftr w 16) = c /\ u8 (Z.shiftr w 24) = c.
Proof.
  intros Hc. cbv zeta.
  set (f := fun c => let w := Z.lor (Z.lor (Z.lor (Z.shiftl c 24) (Z.shiftl c 16)) (Z.shiftl c 8)) c in
    (u8 w =? c) && (u8 (Z.shiftr w 8) =? c) && (u8 (Z.shiftr w 16) =? c) && (u8 (Z.shiftr w 24) =? c)).
  assert (forallb f (seqZ 0 256) = true) as Hall by by vm_compute.
  rewrite forallb_forall in Hall. specialize (Hall c). unfold f in Hall. cbv zeta in Hall.
  rewrite !andb_true_iff, !Z.eqb_eq in Hall. destruct Hall as [[[? ?] ?] ?]; [|done].
  apply list_elem_of_In, elem_of_seqZ. lia.
Qed.

Lemma wp_stl (m : mem) p w b (Q : unit -> mem -> Prop) :
  u8 w = b /\ u8 (Z.shiftr w 8) = b /\ u8 (Z.shiftr w 16) = b /\ u8 (Z.shiftr w 24) = b ->
  mapped m p 4 -> Q tt (blit m p (replicate 4 b)) -> wp (stl p w) Q m.
Proof.
  intros (E0 & E1 & E2 & E3) Hm HQ. unfold stl.
  assert (forall i, 0 <= i < 4 -> is_Some (m !! (p + i))) as H by (intros; apply Hm; lia).
  assert (forall a x n, is_Some (n !! a) -> forall b, is_Some ((<[b := x]> n : mem) !! a)) as Hi.
  { intros a x n Hn b'. destruct (decide (b' = a)) as [->|]; simplify_map_eq; eauto. }
  apply wp_bind, wp_stb; [rewrite <- (Z.add_0_r p); apply H; lia|].
  apply wp_bind, wp_stb; [apply Hi, H; lia|].
  apply wp_bind, wp_stb; [do 2 apply Hi; apply H; lia|].
  apply wp_stb; [do 3 apply Hi; apply H; lia|].
  rewrite E0, E1, E2, E3. cbn [replicate blit] in HQ.
  by replace (p + 2) with (p + 1 + 1) by lia; replace (p + 3) with (p + 1 + 1 + 1) by lia.
Qed.

Lemma mapped_blit m p l q n : mapped m q n -> mapped (blit m p l) q n.
Proof.
  intros H i Hi. rewrite blit_lookup. case_decide as Hd; [|by apply H].
  apply lookup_lt_is_Some_2. lia.
Qed.

Lemma mapped_app m p a b : mapped m p (a + b) -> mapped m p a /\ mapped m (p + Z.of_nat a) b.
Proof.
  intros H. split; intros i Hi; [apply H; lia|].
  replace (p + Z.of_nat a + i) with (p + (Z.of_nat a + i)) by lia. apply H. lia.
Qed.

Lemma wp_stosl_loop n p w b (m : mem) :
  u8 w = b /\ u8 (Z.shiftr w 8) = b /\ u8 (Z.shiftr w 16) = b /\ u8 (Z.shiftr w 24) = b ->
  mapped m p (4 * n) -> wp (stosl_loop n p w) (fun _ m' => m' = blit m p (replicate (4 * n) b)) m.
Proof.
  intros Hw. revert p m. induction n as [|n IH]; intros p m Hm; [by apply wp_ret|].
  replace (4 * S n)%nat with (4 + 4 * n)%nat in * by lia. apply mapped_app in Hm as [H0 H1].
  cbn [stosl_loop]. apply wp_bind. eapply wp_stl; [exact Hw|done|].
  eapply wp_mono; [apply IH, mapped_blit; exact H1|].
  intros [] m' ->. rewrite replicate_add, blit_app, length_replicate. done.
Qed.

(** ** Copying *)

Lemma wp_copy_up l d s (m : mem) :
  bytes_ok l -> array_at m s l -> mapped m d (length l) ->
  d <= s \/ s + Z.of_nat (length l) <= d ->
  wp (copy_up (length l) d s) (fun _ m' => m' = blit m d l) m.
Proof.
  revert d s m. induction l as [|x l IH]; intros d s m Hb Ha Hm Hd; [by apply wp_ret|].
  cbn [copy_up length blit] in *. apply Forall_cons in Hb as [Hx Hb].
  apply array_at_cons in Ha as [H0 Ha]. apply mapped_S in Hm as [Hm0 Hm].
  apply wp_bind. eapply wp_ld; [done|]. apply wp_bind, wp_stb; [done|].
  rewrite u8_small by done. apply IH; [done| |by apply mapped_insert|lia].
  apply array_at_insert; [lia|done].
Qed.

Lemma insert_blit m d (l : list Z) x :
  blit (<[d + Z.of_nat (length l) := x]> m) d l = blit m d (l ++ [x]).
Proof.
  apply map_eq. intros a. rewrite !blit_lookup, length_app. simpl.
  destruct (decide (d <= a < d + Z.of_nat (length l))).
  - rewrite decide_True by lia. by rewrite lookup_app_l by lia.
  - destruct (decide (a = d + Z.of_nat (length l))) as [->|].
    + rewrite decide_True by lia. rewrite lookup_insert_eq, lookup_app_r by lia.
      by replace (Z.to_nat _ - length l)%nat with 0%nat by lia.
    + rewrite decide_False by lia. by rewrite lookup_insert_ne by done.
Qed.

Lemma wp_copy_down l d s (m : mem) :
  bytes_ok l -> array_at m s l -> mapped m d (length l) -> s <= d ->
  wp (copy_down (length l) (d + Z.of_nat (length l)) (s + Z.of_nat (length l)))
     (fun _ m' => m' = blit m d l) m.
Proof.
  revert m. induction l as [|x l IH] using rev_ind; intros m Hb Ha Hm Hd; [by apply wp_ret|].
  rewrite length_app in *. simpl length in *. rewrite Nat.add_1_r in *. cbn [copy_down].
  apply Forall_app in Hb as [Hb Hx]. apply Forall_cons in Hx as [Hx _].
  apply array_at_app in Ha as [Ha H0]. apply array_at_cons in H0 as [H0 _].
  replace (s + Z.of_nat (S (length l)) - 1) with (s + Z.of_nat (length l)) by lia.
  replace (d + Z.of_nat (S (length l)) - 1) with (d + Z.of_nat (length l)) by lia.
  apply wp_bind. eapply wp_ld; [done|]. apply wp_bind, wp_stb; [apply Hm; lia|].
  rewrite u8_small by done. eapply wp_mono.
  - apply IH; [done| | |done].
    + apply array_at_insert; [lia|done].
    + apply mapped_insert. intros i Hi. apply Hm. lia.
  - intros [] m' ->. apply insert_blit.
Qed.

(** [memmove] copies its source range even when source and destination
    overlap: it returns [dst], and memory is the old one with the old bytes of
    the source at the destination. *)
Theorem memmove_overlap_ok l d s (m : mem) :
  bytes_ok l -> array_at m s l -> mapped m d (length l) ->
  wp (Kernel.memmove d s (Z.of_nat (length l))) (fun r m' => r = d /\ m' = blit m d l) m.
Proof.
  intros Hb Ha Hm. unfold Kernel.memmove. rewrite Nat2Z.id. apply wp_bind.
  destruct (Z.ltb_spec s d), (Z.gtb_spec (s + Z.of_nat (length l)) d); simpl;
    (eapply wp_mono; [first [apply wp_copy_down | apply wp_copy_up]; try done; lia|]);
    intros [] m' ->; by apply wp_ret.
Qed.

Definition mem_of (p : Z) (l : list Z) : mem := blit ∅ p l.

Lemma memmove_overlap_ok_witness :
  let m := mem_of 100 [1; 2; 3; 4; 5; 6] in
  array_at m 100 [1; 2; 3; 4] /\
  wp (Kernel.memmove 102 100 4) (fun r m' => r = 102 /\ m' = blit m 102 [1; 2; 3; 4]) m.
Proof.
  assert (array_at (mem_of 100 [1; 2; 3; 4; 5; 6]) 100 [1; 2; 3; 4]) as Ha.
  { intros i x Hi. do 4 (destruct i as [|i]; [injection Hi as <-; reflexivity|]). discriminate. }
  split; [exact Ha|]. apply (memmove_overlap_ok [1; 2; 3; 4]).
  - repeat constructor; unfold is_byte; lia.
  - exact Ha.
  - intros i Hi. simpl in Hi. assert (i = 0 \/ i = 1 \/ i = 2 \/ i = 3) as Hc by lia.
    destruct Hc as [E|[E|[E|E]]]; rewrite E; eexists; reflexivity.
Defined.

Lemma land_byte c : Z.land c 0xff = u8 c.
Proof. change 0xff with (Z.ones 8). by rewrite Z.land_ones by lia. Qed.

(** [memset] stores the low byte of [c] into exactly the [n] bytes from
    [dst], on the path that stores words as on the path that stores bytes. *)
Theorem memset_fills (m : mem) dst c n :
  0 <= dst < 2 ^ 32 -> 0 <= n < 2 ^ 32 -> mapped m dst (Z.to_nat n) ->
  wp (Kernel.memset dst c n) (fun r m' =>
    r = dst /\ m' = blit m dst (replicate (Z.to_nat n) (u8 c))) m.
Proof.
  intros Hd Hn Hm. unfold Kernel.memset, stosl, stosb. rewrite (u32_small n) by zlia.
  apply wp_bind. destruct (Z.rem (s32 dst) 4 =? 0), (Z.eqb_spec (n mod 4) 0) as [Hn4|]; simpl;
    try (eapply wp_mono; [by apply wp_stosb_loop|intros [] m' ->; by apply wp_ret]).
  rewrite land_byte, u32_small by zlia.
  assert (Z.to_nat n = (4 * Z.to_nat (n / 4))%nat) as E by zlia. rewrite E in *.
  eapply wp_mono; [apply wp_stosl_loop; [apply fill_word, u8_range|done]|].
  intros [] m' ->. by apply wp_ret.
Qed.

Lemma memset_fills_witness :
  let m := mem_of 64 [9; 9; 9; 9] in
  wp (Kernel.memset 64 0x105 4) (fun r m' => r = 64 /\ m' = blit m 64 [5; 5; 5; 5]) m.
Proof.
  apply (memset_fills (mem_of 64 [9; 9; 9; 9]) 64 0x105 4); [lia|lia|].
  intros i Hi. simpl in Hi. assert (i = 0 \/ i = 1 \/ i = 2 \/ i = 3) as Hc by lia.
  destruct Hc as [E|[E|[E|E]]]; rewrite E; eexists; reflexivity.
Defined.

(** ** Comparing *)

(** The difference of the first bytes that differ, a string ending in NUL. *)
Fixpoint str_diff (a b : list Z) : Z :=
  match a, b with
  | [], [] => 0
  | [], y :: _ => 0 - y
  | x :: _, [] => x - 0
  | x :: a', y :: b' => if x =? y then str_diff a' b' else x - y
  end.

Lemma str_diff_eq a b :
  Forall (fun c => c <> 0) a -> Forall (fun c => c <> 0) b -> str_diff a b = 0 <-> a = b.
Proof.
  revert b. induction a as [|x a IH]; intros [|y b] Ha Hb; simpl; try done.
  - apply Forall_cons in Hb as [Hy _]. split; [lia|done].
  - apply Forall_cons in Ha as [Hx _]. split; [lia|done].
  - apply Forall_cons in Ha as [Hx Ha]. apply Forall_cons in Hb as [Hy Hb].
    destruct (Z.eqb_spec x y) as [->|]; [rewrite IH by done|]; split; intros; try congruence; lia.
Qed.

Lemma cstr_cons m p x a : cstr m p (x :: a) <-> m !! p = Some x /\ x <> 0 /\ cstr m (p + 1) a.
Proof. unfold cstr. cbn [app]. rewrite array_at_cons, Forall_cons. tauto. Qed.
Lemma cstr_nil m p : cstr m p [] <-> m !! p = Some 0.
Proof.
  unfold cstr. cbn [app]. rewrite array_at_cons. split; [tauto|]. intros H.
  split; [split; [done|by intros i]|constructor].
Qed.

Ltac cstr_inv :=
  repeat match goal with
  | H : cstr _ _ (_ :: _) |- _ => apply cstr_cons in H as (? & ? & ?)
  | H : cstr _ _ [] |- _ => apply cstr_nil in H
  end.

Lemma wp_strcmp a b fuel p q (m : mem) :
  cstr m p a -> cstr m q b -> (length a < fuel)%nat ->
  wp (User.strcmp fuel p q) (fun r m' => r = str_diff a b /\ m' = m) m.
Proof.
  revert a b p q. induction fuel as [|fuel IH]; intros a b p q Ha Hb Hf; [lia|].
  cbn [User.strcmp]. destruct a as [|x a]; destruct b as [|y b];
    cstr_inv;
    apply wp_bind; (eapply wp_ld; [done|]); apply wp_bind; (eapply wp_ld; [done|]); simpl in *.
  - by apply wp_ret.
  - by apply wp_ret.
  - rewrite (proj2 (Z.eqb_neq x 0)) by done. by apply wp_ret.
  - rewrite (proj2 (Z.eqb_neq x 0)) by done. simpl.
    destruct (Z.eqb_spec x y); [apply IH; [done|done|lia]|by apply wp_ret].
Qed.

Lemma wp_strncmp n a b p q (m : mem) :
  cstr m p a -> cstr m q b ->
  wp (Kernel.strncmp n p q) (fun r m' => r = str_diff (take n a) (take n b) /\ m' = m) m.
Proof.
  revert a b p q. induction n as [|n IH]; intros a b p q Ha Hb; [by apply wp_ret|].
  cbn [Kernel.strncmp]. destruct a as [|x a]; destruct b as [|y b];
    cstr_inv;
    apply wp_bind; (eapply wp_ld; [done|]).
  - apply wp_bind. eapply wp_ld; [done|]. by apply wp_ret.
  - apply wp_bind. eapply wp_ld; [done|]. by apply wp_ret.
  - rewrite (proj2 (Z.eqb_neq x 0)) by done. apply wp_bind. eapply wp_ld; [done|].
    rewrite (proj2 (Z.eqb_neq x 0)) by done. by apply wp_ret.
  - rewrite (proj2 (Z.eqb_neq x 0)) by done. apply wp_bind. eapply wp_ld; [done|]. simpl.
    destruct (Z.eqb_spec x y); [by apply IH|by apply wp_ret].
Qed.

Lemma wp_memcmp a b p q (m : mem) :
  length a = length b -> array_at m p a -> array_at m q b ->
  wp (Kernel.memcmp (length a) p q) (fun r m' => r = str_diff a b /\ m' = m) m.
Proof.
  revert b p q. induction a as [|x a IH]; intros [|y b] p q Hl Ha Hb; try done.
  apply array_at_cons in Ha as [Hx Ha], Hb as [Hy Hb]. cbn [length Kernel.memcmp str_diff].
  apply wp_bind. eapply wp_ld; [done|]. apply wp_bind. eapply wp_ld; [done|].
  destruct (Z.eqb_spec x y); [|by apply wp_ret]. apply IH; [by injection Hl|done|done].
Qed.

(** The string comparisons return and agree: [strcmp] is zero exactly on
    equal strings, and [strncmp] is [strcmp] on the first [n] bytes. *)
Theorem str_compare fuel n a b p q (m : mem) :
  cstr m p a -> cstr m q b -> (length a < fuel)%nat ->
  wp (User.strcmp fuel p q) (fun r m' => m' = m /\ (r = 0 <-> a = b)) m /\
  wp (Kernel.strncmp n p q) (fun r m' => m' = m /\ (r = 0 <-> take n a = take n b)) m.
Proof.
  intros Ha Hb Hf. split.
  - eapply wp_mono; [by eapply wp_strcmp|]. intros r m' [-> ->]. split; [done|].
    apply str_diff_eq; [apply Ha|apply Hb].
  - eapply wp_mono; [by eapply wp_strncmp|]. intros r m' [-> ->]. split; [done|].
    apply str_diff_eq; apply Forall_take; [apply Ha|apply Hb].
Qed.

Lemma str_compare_witness :
  let m := blit (mem_of 10 [104; 105; 0]) 20 [104; 105; 33; 0] in
  wp (Kernel.strncmp 2 10 20) (fun r m' => m' = m /\ (r = 0 <-> [104; 105] = [104; 105])) m.
Proof.
  apply (str_compare 3 2 [104; 105] [104; 105; 33] 10 20).
  - apply cstr_cons. split; [reflexivity|]. split; [discriminate|].
    apply cstr_cons. split; [reflexivity|]. split; [discriminate|]. apply cstr_nil. reflexivity.
  - do 3 (apply cstr_cons; split; [reflexivity|]; split; [discriminate|]). apply cstr_nil. reflexivity.
  - simpl. lia.
Defined.

(** ** Copying strings *)

Lemma wp_zero_fill n s (m : mem) :
  mapped m s n -> wp (Kernel.zero_fill n s) (fun _ m' => m' = blit m s (replicate n 0)) m.
Proof.
  revert s m. induction n as [|n IH]; intros s m Hm; [by apply wp_ret|].
  cbn [Kernel.zero_fill replicate blit]. apply mapped_S in Hm as [H0 Hm].
  apply wp_bind, wp_stb; [done|]. apply IH. by apply mapped_insert.
Qed.

Lemma cstr_insert m p a x v :
  x < p \/ p + Z.of_nat (length a) < x -> cstr m p a -> cstr (<[x := v]> m) p a.
Proof.
  intros Hx [Ha Hn]. split; [|done]. apply array_at_insert; [|done]. rewrite length_app. simpl. lia.
Qed.

(** The bytes [strncpy] writes: the string, cut or filled with NULs to [n]. *)
Definition padded (n : nat) (a : list Z) : list Z := take n (a ++ replicate n 0).

Lemma padded_cons n x a : padded (S n) (x :: a) = x :: padded n a.
Proof.
  unfold padded. rewrite replicate_S_end, app_assoc, take_app_le.
  - done.
  - simpl. rewrite length_app, length_replicate. lia.
Qed.

Lemma wp_strncpy_loop n a s t (m : mem) :
  bytes_ok a -> cstr m t a -> mapped m s n ->
  s + Z.of_nat n <= t \/ t + Z.of_nat (length a) < s ->
  wp (Kernel.strncpy_loop n s t) (fun _ m' => m' = blit m s (padded n a)) m.
Proof.
  revert a s t m. induction n as [|n IH]; intros a s t m Hb Ha Hm Hd; [by apply wp_ret|].
  cbn [Kernel.strncpy_loop]. apply mapped_S in Hm as [H0 Hm].
  destruct a as [|x a]; cstr_inv; apply wp_bind; (eapply wp_ld; [done|]); apply wp_bind, wp_stb; try done.
  - simpl. eapply wp_mono; [apply wp_zero_fill; by apply mapped_insert|]. intros [] m' ->.
    unfold padded. cbn [app replicate take blit]. by rewrite take_replicate, Nat.min_id.
  - rewrite (proj2 (Z.eqb_neq x 0)) by done. apply Forall_cons in Hb as [Hx Hb]. simpl in Hd.
    rewrite u8_small by done. cbn [negb]. eapply wp_mono.
    + apply (IH a); [done| |by apply mapped_insert|lia]. apply cstr_insert; [lia|done].
    + intros [] m' ->. by rewrite padded_cons.
Qed.

(** The bytes [safestrcpy] leaves: a string of at most [n - 1] bytes. *)
Definition safe_copy (n : nat) (a : list Z) : list Z :=
  if decide (length a < n)%nat then a ++ [0; 0] else take n a ++ [0].

Lemma wp_safestrcpy_loop n a s t (m : mem) :
  bytes_ok a -> cstr m t a -> mapped m s (S n) ->
  s + Z.of_nat n < t \/ t + Z.of_nat (length a) < s ->
  wp (Kernel.safestrcpy_loop n s t) (fun _ m' => m' = blit m s (safe_copy n a)) m.
Proof.
  revert a s t m. induction n as [|n IH]; intros a s t m Hb Ha Hm Hd; cbn [Kernel.safestrcpy_loop].
  - apply mapped_S in Hm as [H0 _]. apply wp_stb; [done|]. unfold safe_copy.
    by rewrite decide_False by lia.
  - apply mapped_S in Hm as [H0 Hm]. destruct a as [|x a]; cstr_inv;
      apply wp_bind; (eapply wp_ld; [done|]); apply wp_bind, wp_stb; try done; simpl.
    + apply wp_stb; [|done]. apply mapped_S in Hm as [[y Hy] _]. rewrite lookup_insert_ne by lia. eauto.
    + rewrite (proj2 (Z.eqb_neq x 0)) by done. apply Forall_cons in Hb as [Hx Hb]. simpl in Hd.
      rewrite u8_small by done. simpl. eapply wp_mono.
      * apply (IH a); [done| |by apply mapped_insert|lia]. apply cstr_insert; [lia|done].
      * intros [] m' ->. unfold safe_copy. simpl.
        destruct (decide (length a < n)%nat); [rewrite decide_True by lia|rewrite decide_False by lia]; done.
Qed.

(** The string that starts a byte array. *)
Lemma cstr_blit m s a rest :
  Forall (fun c => c <> 0) a -> cstr (blit m s (a ++ 0 :: rest)) s a.
Proof.
  intros Ha. split; [|done]. pose proof (array_at_blit m s (a ++ 0 :: rest)) as H.
  replace (a ++ 0 :: rest) with ((a ++ [0]) ++ rest) in * by (by rewrite <- app_assoc).
  by apply array_at_app in H as [H _].
Qed.

(** [safestrcpy] returns its destination and leaves a NUL-terminated string
    there, the first [n - 1] bytes of the source at most; it writes nothing
    outside the [n] bytes it was given.  [strncpy] writes exactly [n] bytes. *)
Theorem string_copies n a s t (m : mem) :
  0 < n -> bytes_ok a -> cstr m t a -> mapped m s (Z.to_nat n) ->
  s + n <= t \/ t + Z.of_nat (length a) < s ->
  wp (Kernel.safestrcpy s t n) (fun r m' =>
    r = s /\ cstr m' s (take (Z.to_nat (n - 1)) a) /\
    forall x, x < s \/ s + n <= x -> m' !! x = m !! x) m /\
  wp (Kernel.strncpy s t n) (fun r m' => r = s /\ m' = blit m s (padded (Z.to_nat n) a)) m.
Proof.
  intros Hn Hb Ha Hm Hd. split.
  - unfold Kernel.safestrcpy. destruct (Z.leb_spec n 0); [lia|]. apply wp_bind. eapply wp_mono.
    { apply (wp_safestrcpy_loop _ a); [done|done| |lia].
      by replace (S (Z.to_nat (n - 1))) with (Z.to_nat n) by lia. }
    intros [] m' ->. apply wp_ret. split; [done|]. destruct Ha as [_ Hnz].
    unfold safe_copy. destruct (decide (length a < Z.to_nat (n - 1))%nat) as [Hl|Hl]; split.
    + rewrite take_ge by lia. by apply cstr_blit.
    + intros x Hx. rewrite blit_lookup, decide_False; [done|]. rewrite length_app. simpl. lia.
    + apply cstr_blit. by apply Forall_take.
    + intros x Hx. rewrite blit_lookup, decide_False; [done|].
      rewrite length_app, length_take. simpl. lia.
  - unfold Kernel.strncpy. apply wp_bind. eapply wp_mono.
    { apply (wp_strncpy_loop _ a); [done|done|done|lia]. }
    intros [] m' ->. by apply wp_ret.
Qed.

Lemma string_copies_witness :
  let m := blit (mem_of 10 [104; 105; 106; 0]) 20 [1; 1; 1] in
  wp (Kernel.safestrcpy 20 10 3) (fun r m' =>
    r = 20 /\ cstr m' 20 [104; 105] /\ forall x, x < 20 \/ 20 + 3 <= x -> m' !! x = m !! x) m.
Proof.
  apply (string_copies 3 [104; 105; 106] 20 10).
  - lia.
  - repeat constructor; unfold is_byte; lia.
  - do 3 (apply cstr_cons; split; [reflexivity|]; split; [discriminate|]). apply cstr_nil. reflexivity.
  - intros i Hi. simpl in Hi. assert (i = 0 \/ i = 1 \/ i = 2) as Hc by lia.
    destruct Hc as [E|[E|E]]; rewrite E; eexists; reflexivity.
  - right. simpl. lia.
Defined.

Lemma wp_strlen_loop a fuel s n (m : mem) :
  cstr m (s + n) a -> (length a < fuel)%nat ->
  wp (strlen_loop fuel s n) (fun r m' => r = n + Z.of_nat (length a) /\ m' = m) m.
Proof.
  revert fuel n. induction a as [|x a IH]; intros [|fuel] n Ha Hf; simpl in Hf; try lia;
    cstr_inv; cbn [strlen_loop]; apply wp_bind; (eapply wp_ld; [done|]); simpl.
  - apply wp_ret. split; [simpl; lia|done].
  - rewrite (proj2 (Z.eqb_neq x 0)) by done. simpl. eapply wp_mono.
    + apply IH; [|lia]. by replace (s + (n + 1)) with (s + n + 1) by lia.
    + intros r m' [-> ->]. split; [lia|done].
Qed.

(** ** Numbers *)

Definition is_digit (c : Z) : Prop := 48 <= c <= 57.
(** The number that decimal digits denote, continuing from [n]. *)
Definition dec_val (n : Z) (ds : list Z) : Z := foldl (fun n c => n * 10 + (c - 48)) n ds.

Lemma dec_val_mono ds n : 0 <= n -> Forall is_digit ds -> n <= dec_val n ds.
Proof.
  revert n. induction ds as [|c ds IH]; intros n Hn Hd; [done|].
  apply Forall_cons in Hd as [Hc Hd]. unfold is_digit in Hc. simpl.
  specialize (IH (n * 10 + (c - 48)) ltac:(lia) Hd). unfold dec_val in *. lia.
Qed.

Lemma wp_atoi_loop ds e fuel s n (m : mem) :
  Forall is_digit ds -> array_at m s (ds ++ [e]) -> ~ is_digit (s8 e) -> (length ds < fuel)%nat ->
  0 <= n -> dec_val n ds < 2 ^ 31 ->
  wp (User.atoi_loop fuel s n) (fun r m' => r = dec_val n ds /\ m' = m) m.
Proof.
  revert fuel s n. induction ds as [|c ds IH]; intros [|fuel] s n Hd Ha He Hf Hn Hv; simpl in Hf; try lia;
    apply array_at_cons in Ha as [H0 Ha]; cbn [User.atoi_loop]; apply wp_bind; (eapply wp_ld; [done|]).
  - unfold is_digit in He. destruct (Z.leb_spec 48 (s8 e)), (Z.leb_spec (s8 e) 57); simpl;
      try (by apply wp_ret). lia.
  - apply Forall_cons in Hd as [Hc Hd]. unfold is_digit in Hc.
    assert (s8 c = c) as -> by (unfold s8, u8; rewrite Z.mod_small by lia;
      by destruct (Z.ltb_spec c (2 ^ 7)); [|zlia]).
    destruct (Z.leb_spec 48 c), (Z.leb_spec c 57); try lia. simpl.
    pose proof (dec_val_mono ds (n * 10 + (c - 48)) ltac:(lia) Hd) as Hle.
    change (dec_val (n * 10 + (c - 48)) ds < 2 ^ 31) in Hv.
    rewrite s32_small by zlia. replace (n * 10 + c - 48) with (n * 10 + (c - 48)) by lia.
    apply IH; try done; lia.
Qed.
