(* ===== verification/Printf.v ===== *)
(** * Formatted output: printf.c and the cprintf of console.c

    Output is the list of bytes handed to [putc]/[consputc].  Arguments are the
    32-bit words behind the format on the stack; [strs] gives the string an
    argument of [%s] points to.  [None] is an access outside [buf], outside the
    arguments given, or through a bad string pointer. *)

From S2P Require Import Prelude CString.

Section Printint.
Variable digits : list Z.

(** [buf[i++] = c], into [char buf[16]]. *)
Definition put_buf (b : list Z) (c : Z) : option (list Z) :=
  if decide (length b < 16)%nat then Some (b ++ [c]) else None.

(** The [do ... while((x /= base) != 0)] loop. *)
Fixpoint print_digits (fuel : nat) (x base : Z) (b : list Z) : option (list Z) :=
  match fuel with
  | O => None
  | S fuel' =>
      c ← digits !! Z.to_nat (x mod base);
      b' ← put_buf b c;
      if negb (x / base =? 0) then print_digits fuel' (x / base) base b' else Some b'
  end.

(** [xx] is an [int]; the characters come out last first. *)
Definition printint (xx base sgn : Z) : option (list Z) :=
  let neg := negb (sgn =? 0) && (xx <? 0) in
  let x := u32 (if neg then - xx else xx) in
  b ← print_digits 32 x base [];
  b ← (if neg then put_buf b 45 else Some b);
  Some (reverse b).
End Printint.

(** ["0123456789ABCDEF"] of printf.c, ["0123456789abcdef"] of console.c. *)
Definition upper_digits : list Z := [48; 49; 50; 51; 52; 53; 54; 55; 56; 57; 65; 66; 67; 68; 69; 70].
Definition lower_digits : list Z := [48; 49; 50; 51; 52; 53; 54; 55; 56; 57; 97; 98; 99; 100; 101; 102].

(** ["(null)"] *)
Definition null_str : list Z := [40; 110; 117; 108; 108; 41].

Section Format.
Variable digits : list Z.
Variable strs : Z -> option (list Z).

(** printf.c: a state machine on [state], which is 0 or ['%'] (37). *)
Fixpoint printf_loop (fmt args : list Z) (state : Z) : option (list Z) :=
  match fmt with
  | [] => Some []
  | c0 :: fmt' =>
      let c := Z.land c0 0xff in
      if state =? 0 then
        if c =? 37 then printf_loop fmt' args 37
        else out ← printf_loop fmt' args state; Some (c :: out)
      else if state =? 37 then
        if c =? 100 then
          match args with
          | [] => None
          | a :: args' => o ← printint digits (s32 a) 10 1;
                          out ← printf_loop fmt' args' 0; Some (o ++ out)
          end
        else if (c =? 120) || (c =? 112) then
          match args with
          | [] => None
          | a :: args' => o ← printint digits (s32 a) 16 0;
                          out ← printf_loop fmt' args' 0; Some (o ++ out)
          end
        else if c =? 115 then
          match args with
          | [] => None
          | a :: args' => o ← (if a =? 0 then Some null_str else strs a);
                          out ← printf_loop fmt' args' 0; Some (o ++ out)
          end
        else if c =? 99 then
          match args with
          | [] => None
          | a :: args' => out ← printf_loop fmt' args' 0; Some (u8 a :: out)
          end
        else if c =? 37 then out ← printf_loop fmt' args 0; Some (c :: out)
        else out ← printf_loop fmt' args 0; Some (37 :: c :: out)
      else printf_loop fmt' args state
  end.

(** console.c: the character after a [%] is fetched in the same round. *)
Fixpoint cprintf_loop (fmt args : list Z) : option (list Z) :=
  match fmt with
  | [] => Some []
  | c0 :: fmt' =>
      let c := Z.land c0 0xff in
      if negb (c =? 37) then out ← cprintf_loop fmt' args; Some (c :: out)
      else
        match fmt' with
        | [] => Some []
        | c1 :: fmt'' =>
            let c := Z.land c1 0xff in
            if c =? 100 then
              match args with
              | [] => None
              | a :: args' => o ← printint digits (s32 a) 10 1;
                              out ← cprintf_loop fmt'' args'; Some (o ++ out)
              end
            else if (c =? 120) || (c =? 112) then
              match args with
              | [] => None
              | a :: args' => o ← printint digits (s32 a) 16 0;
                              out ← cprintf_loop fmt'' args'; Some (o ++ out)
              end
            else if c =? 115 then
              match args with
              | [] => None
              | a :: args' => o ← (if a =? 0 then Some null_str else strs a);
                              out ← cprintf_loop fmt'' args'; Some (o ++ out)
              end
            else if c =? 37 then out ← cprintf_loop fmt'' args; Some (37 :: out)
            else out ← cprintf_loop fmt'' args; Some (37 :: c :: out)
        end
  end.
End Format.

Definition printf := fun strs fmt args => printf_loop upper_digits strs fmt args 0.
Definition cprintf := fun strs fmt args => cprintf_loop lower_digits strs fmt args.

(** ** Digits *)

(** The number with digits [ds], least significant first. *)
Fixpoint base_val (base : Z) (ds : list Z) : Z :=
  match ds with
  | [] => 0
  | d :: ds' => d + base * base_val base ds'
  end.

(** The digits of [x], least significant first. *)
Fixpoint digits_of (fuel : nat) (x base : Z) : list Z :=
  match fuel with
  | O => []
  | S fuel' => x mod base :: (if x / base =? 0 then [] else digits_of fuel' (x / base) base)
  end.

Lemma digits_of_val fuel x base :
  2 <= base -> 0 <= x < 2 ^ Z.of_nat fuel ->
  base_val base (digits_of fuel x base) = x /\
  Forall (fun d => 0 <= d < base) (digits_of fuel x base).
Proof.
  intros Hb. revert x. induction fuel as [|fuel IH]; intros x Hx; simpl.
  - change (2 ^ Z.of_nat 0) with 1 in Hx. split; [lia|constructor].
  - rewrite Nat2Z.inj_succ, Z.pow_succ_r in Hx by lia.
    pose proof (Z.div_mod x base ltac:(lia)) as Hdm. pose proof (Z.mod_pos_bound x base ltac:(lia)) as Hm.
    destruct (Z.eqb_spec (x / base) 0) as [E|E].
    + simpl. split; [lia|]. by constructor.
    + assert (0 <= x / base < 2 ^ Z.of_nat fuel) as Hq.
      { split; [apply Z.div_pos; lia|]. apply Z.div_lt_upper_bound; [lia|]. nia. }
      destruct (IH _ Hq) as [IH1 IH2]. split; [lia|]. by constructor.
Qed.

Lemma digits_of_length fuel x base k :
  2 <= base -> 0 <= x < base ^ Z.of_nat (S k) -> (length (digits_of fuel x base) <= S k)%nat.
Proof.
  intros Hb. revert x k. induction fuel as [|fuel IH]; intros x k Hx; simpl; [lia|].
  destruct (Z.eqb_spec (x / base) 0) as [E|E]; simpl; [lia|].
  destruct k as [|k].
  - change (Z.of_nat 1) with 1 in Hx. rewrite Z.pow_1_r in Hx. by rewrite Z.div_small in E.
  - apply le_n_S, IH. rewrite Nat2Z.inj_succ, Z.pow_succ_r in Hx by lia.
    split; [apply Z.div_pos; lia|]. apply Z.div_lt_upper_bound; lia.
Qed.

Lemma print_digits_ok digits fuel x base b :
  2 <= base <= Z.of_nat (length digits) -> 0 <= x < 2 ^ Z.of_nat fuel -> fuel <> O ->
  (length b + length (digits_of fuel x base) <= 16)%nat ->
  print_digits digits fuel x base b =
    Some (b ++ ((fun d => nth (Z.to_nat d) digits 0) <$> digits_of fuel x base)).
Proof.
  intros Hb. revert x b. induction fuel as [|fuel IH]; intros x b Hx Hf Hl; [done|].
  cbn [print_digits digits_of]. rewrite Nat2Z.inj_succ, Z.pow_succ_r in Hx by lia.
  pose proof (Z.mod_pos_bound x base ltac:(lia)) as Hm. cbn [digits_of length] in Hl.
  destruct (lookup_lt_is_Some_2 digits (Z.to_nat (x mod base))) as [c Hc]; [lia|].
  rewrite Hc. cbn [mbind option_bind]. unfold put_buf. rewrite decide_True by lia.
  cbn [mbind option_bind fmap list_fmap].
  assert (nth (Z.to_nat (x mod base)) digits 0 = c) as -> by (by apply nth_lookup_Some).
  destruct (Z.eqb_spec (x / base) 0) as [E|E]; cbn [negb fmap list_fmap] in *; [done|].
  assert (0 <= x / base < 2 ^ Z.of_nat fuel) as Hq.
  { split; [apply Z.div_pos; lia|]. apply Z.div_lt_upper_bound; [lia|]. nia. }
  destruct fuel as [|fuel]; [change (2 ^ Z.of_nat 0) with 1 in Hq; lia|].
  rewrite IH; [by rewrite <- app_assoc|done|done|]. rewrite length_app. simpl in *. lia.
Qed.

Lemma dec_val_snoc n ds c : dec_val n (ds ++ [c]) = dec_val n ds * 10 + (c - 48).
Proof. unfold dec_val. by rewrite foldl_app. Qed.

Lemma dec_val_digits ds :
  dec_val 0 (reverse ((fun d => 48 + d) <$> ds)) = base_val 10 ds.
Proof.
  induction ds as [|d ds IH]; [done|]. rewrite fmap_cons, reverse_cons, dec_val_snoc, IH. simpl. lia.
Qed.

(** In base ten both digit tables are ['0'..'9']. *)
Lemma decimal_digits digits ds :
  take 10 digits = take 10 upper_digits -> Forall (fun d => 0 <= d < 10) ds ->
  ((fun d => nth (Z.to_nat d) digits 0) <$> ds) = ((fun d => 48 + d) <$> ds).
Proof.
  intros Ht Hd. induction Hd as [|d ds Hd _ IH]; [done|]. rewrite !fmap_cons, IH. f_equal.
  assert (forall l : list Z, nth (Z.to_nat d) l 0 = nth (Z.to_nat d) (take 10 l) 0) as Hn.
  { intros l. rewrite !nth_lookup, lookup_take_lt by lia. done. }
  rewrite Hn, Ht. assert (d = 0 \/ d = 1 \/ d = 2 \/ d = 3 \/ d = 4 \/ d = 5 \/ d = 6 \/ d = 7 \/ d = 8 \/ d = 9)
    as Hc by lia. by repeat (destruct Hc as [Hc|Hc]; [by subst d|]); subst d.
Qed.

Lemma printint_decimal digits xx :
  take 10 digits = take 10 upper_digits -> (10 <= length digits)%nat -> 0 <= xx < 2 ^ 31 ->
  exists out, printint digits xx 10 1 = Some out /\ Forall is_digit out /\ dec_val 0 out = xx /\
    (length out <= 10)%nat.
Proof.
  intros Ht Hl Hx. unfold printint. destruct (Z.ltb_spec xx 0); [lia|]. simpl negb. cbn [andb].
  rewrite u32_small by zlia. change (2 ^ 31) with 2147483648 in Hx.
  destruct (digits_of_val 32 xx 10) as [Hv Hd]; [lia|change (2 ^ Z.of_nat 32) with 4294967296; lia|].
  assert (length (digits_of 32 xx 10) <= 10)%nat as Hlen.
  { apply (digits_of_length 32 xx 10 9); [lia|]. split; [lia|]. change (10 ^ Z.of_nat 10) with 10000000000. lia. }
  rewrite print_digits_ok;
    [|lia|change (2 ^ Z.of_nat 32) with 4294967296; lia|discriminate|cbn [length]; lia]. cbn [mbind option_bind app].
  eexists. split; [done|]. rewrite decimal_digits by done. split_and!.
  - apply Forall_reverse, Forall_fmap. eapply Forall_impl; [exact Hd|]. unfold is_digit. simpl. lia.
  - by rewrite dec_val_digits.
  - by rewrite length_reverse, length_fmap.
Qed.

(** Printing a number and reading it back: [%d] of either [printf] writes at
    most ten characters (its 16-byte buffer does not overflow), and [atoi] of
    the string returns the number. *)
Theorem print_atoi digits xx p (m : mem) :
  digits = upper_digits \/ digits = lower_digits -> 0 <= xx < 2 ^ 31 ->
  exists out, printint digits xx 10 1 = Some out /\ (length out <= 10)%nat /\
    (array_at m p (out ++ [0]) ->
     wp (User.atoi 11 p) (fun r m' => r = xx /\ m' = m) m).
Proof.
  intros Hd Hx. destruct (printint_decimal digits xx) as (out & E & Hdig & Hv & Hl).
  - by destruct Hd as [-> | ->].
  - destruct Hd as [-> | ->]; simpl; lia.
  - done.
  - exists out. split_and!; [done|done|]. intros Ha. unfold User.atoi. eapply wp_mono.
    + apply (wp_atoi_loop out 0 11 p 0 m); [done|done|by intros [? ?]|lia|lia|lia].
    + intros r m' [-> ->]. done.
Qed.

Lemma print_atoi_witness :
  printint lower_digits 407 10 1 = Some [52; 48; 55] /\
  wp (User.atoi 11 500) (fun r m' => r = 407 /\ m' = mem_of 500 [52; 48; 55; 0]) (mem_of 500 [52; 48; 55; 0]).
Proof.
  destruct (print_atoi lower_digits 407 500 (mem_of 500 [52; 48; 55; 0])) as (out & E & _ & Hr);
    [right; reflexivity|lia|].
  assert (out = [52; 48; 55]) as Eo by (vm_compute in E; injection E as <-; reflexivity).
  rewrite Eo in E, Hr. split; [exact E|]. apply Hr. apply array_at_blit.
Defined.

(** ** The two format loops *)

(** No [%c] directive, which only printf.c has. *)
Fixpoint no_char (fmt : list Z) : Prop :=
  match fmt with
  | [] => True
  | c :: fmt' =>
      if Z.land c 0xff =? 37 then
        match fmt' with
        | [] => True
        | c1 :: fmt'' => Z.land c1 0xff <> 99 /\ no_char fmt''
        end
      else no_char fmt'
  end.

Lemma format_loops digits strs n fmt args :
  (length fmt <= n)%nat -> no_char fmt ->
  printf_loop digits strs fmt args 0 = cprintf_loop digits strs fmt args.
Proof.
  revert fmt args. induction n as [|n IH]; intros [|c [|c1 fmt]] args Hl Hc; simpl in Hl; try done; try lia.
  - simpl. destruct (Z.land c 0xff =? 37); done.
  - destruct (Z.land c 0xff =? 37) eqn:E.
    2:{ remember (c1 :: fmt) as r. cbn [printf_loop cprintf_loop no_char] in *. rewrite E in *.
        change (0 =? 0) with true. cbv iota zeta. cbn [negb]. rewrite IH; [done| |done].
        subst r. simpl. lia. }
    cbn [no_char] in Hc. rewrite E in Hc. cbn [printf_loop cprintf_loop]. rewrite E.
    change (0 =? 0) with true. cbv iota zeta. cbn [negb].
    change (37 =? 0) with false. change (37 =? 37) with true. cbv iota.
    destruct Hc as [H99 Hc]. rewrite (proj2 (Z.eqb_neq _ 99) H99).
    destruct (Z.eqb_spec (Z.land c1 0xff) 37) as [->|_];
      repeat case_match; simplify_eq; rewrite ?IH by (done || lia); try done.
Qed.

(** printf.c walks the format with a state variable and cprintf with
    lookahead; with the same digits they write the same bytes, or fail alike,
    for every format without [%c] and all arguments. *)
Theorem printf_is_cprintf digits strs fmt args :
  no_char fmt -> printf_loop digits strs fmt args 0 = cprintf_loop digits strs fmt args.
Proof. intros. by eapply format_loops. Qed.

(** ["x=%d%%"] *)
Lemma printf_is_cprintf_witness :
  no_char [120; 61; 37; 100; 37; 37] /\
  printf_loop lower_digits (fun _ => None) [120; 61; 37; 100; 37; 37] [45] 0 = Some [120; 61; 52; 53; 37].
Proof.
  assert (no_char [120; 61; 37; 100; 37; 37]) as H by (vm_compute; repeat split; discriminate).
  split; [exact H|]. rewrite (printf_is_cprintf _ _ _ _ H). vm_compute. reflexivity.
Defined.
