(* ===== verification/UserProgs.v ===== *)
(** * User programs: cat.c, wc.c, echo.c, ls.c, and [gets] and [stat] of ulib.c

    Programs over the system calls ([Unix]).  [printf] writes the bytes of Printf.v one by one.  The functions
    that may call [exit] return whether they came back.  [UnixLaws] states what [read] and [write] promise for a descriptor
    that delivers certain bytes, in pieces of any size, and for the standard output. *)

From S2P Require Import Prelude CString Printf.

Definition txt (s : string) : list Z := map (fun c => Z.of_N (Ascii.N_of_ascii c)) (String.list_ascii_of_string s).

Record ustat := mkSt { st_type : Z; st_ino : Z; st_size : Z; st_prti : Z }.
Class Unix (W : Type) := {
  u_read : Z -> Z -> M W (Z * list Z);
  u_write : Z -> list Z -> M W Z;
  u_open : list Z -> Z -> M W Z;
  u_close : Z -> M W Z;
  u_fstat : Z -> M W (Z * ustat)
}.

Section Progs.
Context {W : Type} `{UX : Unix W}.

Fixpoint puts (fd : Z) (l : list Z) : M W unit :=
  match l with [] => ret tt | c :: l' => u_write fd [c] ;;; puts fd l' end.
(** The argument [i] of a [%s] is the string [i - 1] of [strs]. *)
Definition say (fd : Z) (fmt args : list Z) (strs : list (list Z)) : M W unit :=
  match printf (fun a => strs !! Z.to_nat (a - 1)) fmt args with
  | Some out => puts fd out
  | None => fault "printf"
  end.

(** ** cat.c *)

Fixpoint cat (fuel : nat) (fd : Z) : M W bool :=
  match fuel with
  | O => nofuel
  | S fuel' =>
      rv <- u_read fd 512 ;; let (n, got) := rv : Z * list Z in
      if n >? 0 then u_write 1 got ;;; cat fuel' fd
      else if n <? 0 then say 1 (txt "cat: read error" ++ [10]) [] [] ;;; ret false
      else ret true
  end.
Fixpoint cat_files (fuel : nat) (args : list (list Z)) : M W unit :=
  match args with
  | [] => ret tt
  | a :: args' =>
      fd <- u_open a 0 ;;
      if fd <? 0 then say 1 (txt "cat: cannot open %s" ++ [10]) [1] [a] else
      ok <- cat fuel fd ;;
      if negb ok then ret tt else u_close fd ;;; cat_files fuel args'
  end.
Definition cat_main (fuel : nat) (argv : list (list Z)) : M W unit :=
  match argv with
  | _ :: ((_ :: _) as args) => cat_files fuel args
  | _ => cat fuel 0 ;;; ret tt
  end.

(** ** wc.c *)

Definition blanks : list Z := [32; 13; 9; 10; 11].
Record counts := mkC { cl : Z; cw : Z; cc : Z; inword : bool }.
Definition wc_byte (c : counts) (b : Z) : counts :=
  let l := if b =? 10 then cl c + 1 else cl c in
  if bool_decide (b ∈ blanks) then mkC l (cw c) (cc c + 1) false
  else mkC l (if inword c then cw c else cw c + 1) (cc c + 1) true.
Fixpoint wc_loop (fuel : nat) (fd : Z) (c : counts) : M W (option counts) :=
  match fuel with
  | O => nofuel
  | S fuel' =>
      rv <- u_read fd 512 ;; let (n, got) := rv : Z * list Z in
      if n >? 0 then wc_loop fuel' fd (foldl wc_byte c (take (Z.to_nat n) got))
      else ret (if n <? 0 then None else Some c)
  end.
Definition wc (fuel : nat) (fd : Z) (name : list Z) : M W bool :=
  o <- wc_loop fuel fd (mkC 0 0 0 false) ;;
  match o with
  | None => say 1 (txt "wc: read error" ++ [10]) [] [] ;;; ret false
  | Some c => say 1 (txt "%d %d %d %s" ++ [10]) [cl c; cw c; cc c; 1] [name] ;;; ret true
  end.
Fixpoint wc_files (fuel : nat) (args : list (list Z)) : M W unit :=
  match args with
  | [] => ret tt
  | a :: args' =>
      fd <- u_open a 0 ;;
      if fd <? 0 then say 1 (txt "wc: cannot open %s" ++ [10]) [1] [a] else
      ok <- wc fuel fd a ;;
      if negb ok then ret tt else u_close fd ;;; wc_files fuel args'
  end.
Definition wc_main (fuel : nat) (argv : list (list Z)) : M W unit :=
  match argv with
  | _ :: ((_ :: _) as args) => wc_files fuel args
  | _ => wc fuel 0 [] ;;; ret tt
  end.

(** ** echo.c *)

Fixpoint echo_loop (args : list (list Z)) : M W unit :=
  match args with
  | [] => ret tt
  | [a] => say 1 (txt "%s%s") [1; 2] [a; [10]]
  | a :: args' => say 1 (txt "%s%s") [1; 2] [a; [32]] ;;; echo_loop args'
  end.
Definition echo_main (argv : list (list Z)) : M W unit := echo_loop (tail argv).

(** ** ulib.c *)

Fixpoint gets_loop (n : nat) : M W (list Z) :=
  match n with
  | O => ret []
  | S n' =>
      rv <- u_read 0 1 ;; let (cc, got) := rv : Z * list Z in
      if cc <? 1 then ret [] else
      c <- of_option "read" (got !! 0%nat) ;;
      if (c =? 10) || (c =? 13) then ret [c] else
      rest <- gets_loop n' ;; ret (c :: rest)
  end.
(** The string that [gets] leaves in the buffer of [max] bytes. *)
Definition ugets (max : Z) : M W (list Z) := gets_loop (Z.to_nat (max - 1)).
Definition ustat_of (n : list Z) : M W (Z * ustat) :=
  fd <- u_open n 0 ;;
  if fd <? 0 then ret (-1, mkSt 0 0 0 0) else
  r <- u_fstat fd ;; u_close fd ;;; ret r.

(** ** ls.c *)

Definition NAMESZ : Z := 14.
Fixpoint after_slash (last s : list Z) : list Z :=
  match s with [] => last | c :: s' => after_slash (if c =? 47 then s' else last) s' end.
Definition fmtname (path : list Z) : list Z :=
  let p := after_slash path path in
  if Z.of_nat (length p) >=? NAMESZ then p else p ++ replicate (Z.to_nat NAMESZ - length p) 32.
Definition ls_line (path : list Z) (st : ustat) : M W unit :=
  say 1 (txt "%s %d %d %d %d" ++ [10]) [1; st_type st; st_ino st; st_size st; st_prti st] [fmtname path].
(** The string at the start of an array. *)
Fixpoint cstring (l : list Z) : list Z := match l with [] => [] | c :: l' => if c =? 0 then [] else c :: cstring l' end.
Fixpoint ls_entries (fuel : nat) (fd : Z) (path : list Z) : M W unit :=
  match fuel with
  | O => nofuel
  | S fuel' =>
      rv <- u_read fd 16 ;; let (n, de) := rv : Z * list Z in
      if negb (n =? 16) then ret tt else
      if get16 0 de =? 0 then ls_entries fuel' fd path else
      let buf := path ++ [47] ++ cstring (bslice 2 14 de) in
      rv <- ustat_of buf ;; let (r, st) := rv : Z * ustat in
      (if r <? 0 then say 1 (txt "ls: cannot stat %s" ++ [10]) [1] [buf] else ls_line buf st) ;;;
      ls_entries fuel' fd path
  end.
Definition ls (fuel : nat) (path : list Z) : M W unit :=
  fd <- u_open path 0 ;;
  if fd <? 0 then say 2 (txt "ls: cannot open %s" ++ [10]) [1] [path] else
  rv <- u_fstat fd ;; let (r, st) := rv : Z * ustat in
  if r <? 0 then say 2 (txt "ls: cannot stat %s" ++ [10]) [1] [path] ;;; u_close fd ;;; ret tt else
  say 1 (txt "--- name --- type --- inum --- sz --- prti --- " ++ [10]) [] [] ;;;
  (if st_type st =? 2 then ls_line path st
   else if st_type st =? 1 then
     if Z.of_nat (length path) + 1 + NAMESZ + 1 >? 512 then say 1 (txt "ls: path too long" ++ [10]) [] []
     else ls_entries fuel fd path
   else ret tt) ;;;
  u_close fd ;;; ret tt.
Fixpoint ls_all (fuel : nat) (paths : list (list Z)) : M W unit :=
  match paths with [] => ret tt | p :: paths' => ls fuel p ;;; ls_all fuel paths' end.
Definition ls_main (fuel : nat) (argv : list (list Z)) : M W unit :=
  match argv with
  | _ :: ((_ :: _) as args) => ls_all fuel args
  | _ => ls fuel (txt ".")
  end.
End Progs.

(** ** What [read] and [write] promise *)

Class UnixLaws (W : Type) `{UX : Unix W} := {
  (** the bytes that a descriptor still delivers *)
  pending : W -> Z -> list Z -> Prop;
  (** the bytes written to descriptor 1 *)
  shown : W -> list Z;
  read_law : forall s fd d n, pending s fd d -> 0 < n ->
    wp (u_read fd n) (fun rv s' => exists got d', rv = (Z.of_nat (length got), got) /\ d = got ++ d' /\ Z.of_nat (length got) <= n /\
      (got = [] -> d = []) /\ pending s' fd d' /\ shown s' = shown s) s;
  write_law : forall s b, wp (u_write 1 b) (fun _ s' => shown s' = shown s ++ b /\ forall fd d, pending s fd d -> pending s' fd d) s
}.

Section Laws.
Context {W : Type} `{UX : Unix W} `{UL : !UnixLaws W}.

Lemma wp_puts l : forall s, wp (puts 1 l) (fun _ s' => shown s' = shown s ++ l /\ forall fd d, pending s fd d -> pending s' fd d) s.
Proof.
  induction l as [|c l IH]; intros s; cbn [puts]; [apply wp_ret; by rewrite app_nil_r|]. apply wp_bind. eapply wp_mono; [apply write_law|].
  intros r s1 [E1 P1]. eapply wp_mono; [apply IH|]. intros [] s2 [E2 P2]. split; [by rewrite E2, E1, <- app_assoc|auto].
Qed.
Lemma wp_say s fmt args strs out : printf (fun a => strs !! Z.to_nat (a - 1)) fmt args = Some out ->
  wp (say 1 fmt args strs) (fun _ s' => shown s' = shown s ++ out /\ forall fd d, pending s fd d -> pending s' fd d) s.
Proof. intros E. unfold say. rewrite E. apply wp_puts. Qed.

(** cat copies everything that the descriptor delivers. *)
Lemma cat_copies fd : forall fuel d s, pending s fd d -> (length d < fuel)%nat ->
  wp (cat fuel fd) (fun r s' => r = true /\ shown s' = shown s ++ d) s.
Proof.
  induction fuel as [|fuel IH]; intros d s Hp Hf; [lia|]. cbn [cat]. apply wp_bind. eapply wp_mono; [by apply (read_law s fd d 512)|].
  intros rv s1 (got & d' & -> & -> & Hg & Hnil & Hp1 & Hs1). rewrite length_app in Hf. destruct got as [|b got].
  - apply wp_ret. split; [done|]. specialize (Hnil eq_refl). simpl in Hnil. subst d'. by rewrite Hs1, app_nil_r.
  - rewrite (proj2 (Z.gtb_lt _ _)) by (simpl; lia). apply wp_bind. eapply wp_mono; [apply write_law|]. intros r s2 [E2 P2].
    eapply wp_mono; [apply (IH d' s2); [auto|simpl in Hf; lia]|]. intros r' s3 [-> E3]. split; [done|]. by rewrite E3, E2, Hs1, <- app_assoc.
Qed.

Lemma wp_wc_loop fd : forall fuel d c s, pending s fd d -> (length d < fuel)%nat ->
  wp (wc_loop fuel fd c) (fun o s' => o = Some (foldl wc_byte c d) /\ shown s' = shown s) s.
Proof.
  induction fuel as [|fuel IH]; intros d c s Hp Hf; [lia|]. cbn [wc_loop]. apply wp_bind. eapply wp_mono; [by apply (read_law s fd d 512)|].
  intros rv s1 (got & d' & -> & -> & Hg & Hnil & Hp1 & Hs1). rewrite length_app in Hf. rewrite Nat2Z.id, take_ge by lia. destruct got as [|b got].
  - apply wp_ret. specialize (Hnil eq_refl). simpl in Hnil. by subst d'.
  - rewrite (proj2 (Z.gtb_lt _ _)) by (simpl; lia). eapply wp_mono; [apply (IH d' _ s1 Hp1); simpl in Hf; lia|].
    intros o s2 [-> E2]. rewrite foldl_app. split; [done|congruence].
Qed.

(** A word starts at [i]: no blank there, and a blank or nothing before. *)
Definition blank_at (d : list Z) (i : nat) : bool := match d !! i with Some b => bool_decide (b ∈ blanks) | None => true end.
Definition word_start (d : list Z) (i : nat) : bool := negb (blank_at d i) && match i with O => true | S j => blank_at d j end.
Definition words_in (d : list Z) : Z := Z.of_nat (length (List.filter (word_start d) (seq 0 (length d)))).
Definition lines_in (d : list Z) : Z := Z.of_nat (length (filter (fun b => b = 10) d)).

Lemma blank_at_app d b i : (i < length d)%nat -> blank_at (d ++ [b]) i = blank_at d i.
Proof. intros Hi. unfold blank_at. by rewrite lookup_app_l. Qed.
Lemma words_in_snoc d b : words_in (d ++ [b]) = words_in d + if word_start (d ++ [b]) (length d) then 1 else 0.
Proof.
  unfold words_in. rewrite length_app. cbn [length]. rewrite seq_app, List.filter_app, length_app. cbn [seq Nat.add List.filter].
  rewrite (List.filter_ext_in (word_start (d ++ [b])) (word_start d)).
  - destruct (word_start (d ++ [b]) (length d)); simpl; lia.
  - intros i Hi%in_seq. unfold word_start. rewrite blank_at_app by lia. destruct i as [|j]; [done|]. by rewrite blank_at_app by lia.
Qed.

(** The state of the loop after the bytes [d]. *)
Lemma wc_bytes d : foldl wc_byte (mkC 0 0 0 false) d =
  mkC (lines_in d) (words_in d) (Z.of_nat (length d)) (match length d with O => false | S j => negb (blank_at d j) end).
Proof.
  induction d as [|b d IH] using rev_ind; [done|]. rewrite foldl_app, IH. cbn [foldl]. unfold wc_byte. cbn [cl cw cc inword].
  rewrite words_in_snoc, !length_app. cbn [length]. rewrite Nat.add_1_r. unfold lines_in. rewrite filter_app, length_app.
  assert (blank_at (d ++ [b]) (length d) = bool_decide (b ∈ blanks)) as Eb by (unfold blank_at; by rewrite list_lookup_middle).
  assert ((if b =? 10 then Z.of_nat (length (filter (fun b => b = 10) d)) + 1 else Z.of_nat (length (filter (fun b => b = 10) d))) =
    Z.of_nat (length (filter (fun b => b = 10) d) + length (filter (fun b => b = 10) [b]))) as El.
  { rewrite filter_cons. destruct (Z.eqb_spec b 10); [rewrite decide_True by done|rewrite decide_False by done]; simpl; lia. }
  rewrite El, Eb. unfold word_start. rewrite Eb. replace (Z.of_nat (length d) + 1) with (Z.of_nat (S (length d))) by lia.
  destruct (bool_decide (b ∈ blanks)); cbn [negb andb]; [by rewrite Z.add_0_r|]. f_equal. destruct d as [|a d' _] using rev_ind; [done|].
  rewrite !length_app. cbn [length]. rewrite Nat.add_1_r. rewrite !(blank_at_app (d' ++ [a])) by (rewrite length_app; simpl; lia).
  destruct (blank_at (d' ++ [a]) (length d')); cbn [negb]; lia.
Qed.

(** The digits of [n] in decimal. *)
Definition decimal (n : Z) (out : list Z) : Prop := Forall is_digit out /\ dec_val 0 out = n.
Lemma print_number n : 0 <= n < 2 ^ 31 -> exists out, printint upper_digits (s32 n) 10 1 = Some out /\ decimal n out.
Proof.
  intros Hn. rewrite s32_small by lia. destruct (printint_decimal upper_digits n) as (out & E & H1 & H2 & _); [done|simpl; lia|done|]. by exists out.
Qed.

Lemma printf_number strs fmt a args : printf_loop upper_digits strs (37 :: 100 :: fmt) (a :: args) 0 =
  (o ← printint upper_digits (s32 a) 10 1; out ← printf_loop upper_digits strs fmt args 0; Some (o ++ out)).
Proof. reflexivity. Qed.
Lemma printf_string strs fmt args : printf_loop upper_digits strs (37 :: 115 :: fmt) (1 :: args) 0 =
  (o ← strs 1; out ← printf_loop upper_digits strs fmt args 0; Some (o ++ out)).
Proof. reflexivity. Qed.
Lemma printf_char strs c fmt args : Z.land c 0xff = c -> c <> 37 ->
  printf_loop upper_digits strs (c :: fmt) args 0 = (out ← printf_loop upper_digits strs fmt args 0; Some (c :: out)).
Proof. intros E Hc. cbn [printf_loop]. rewrite E, (proj2 (Z.eqb_neq c 37)) by done. reflexivity. Qed.

(** C37. wc counts.  For a file of less than 2 GB, whatever the sizes of the pieces that [read] delivers, wc ends and prints the number of newlines, of words and of bytes in decimal and the
    name; a word starts at a byte that is not blank and follows a blank or the beginning of the file. *)
Theorem wc_counts s fd d name : pending s fd d -> Z.of_nat (length d) < 2 ^ 31 ->
  wp (wc (S (length d)) fd name) (fun r s' => r = true /\ exists l w c,
    decimal (lines_in d) l /\ decimal (words_in d) w /\ decimal (Z.of_nat (length d)) c /\
    shown s' = shown s ++ l ++ [32] ++ w ++ [32] ++ c ++ [32] ++ name ++ [10]) s.
Proof.
  intros Hp Hd. unfold wc. apply wp_bind. eapply wp_mono; [apply (wp_wc_loop fd (S (length d)) d _ s Hp); lia|].
  intros o s1 [-> E1]. rewrite wc_bytes. cbn [cl cw cc].
  assert (0 <= lines_in d < 2 ^ 31) as Hl by (unfold lines_in; pose proof (length_filter (fun b => b = 10) d); lia).
  assert (0 <= words_in d < 2 ^ 31) as Hw.
  { unfold words_in. pose proof (List.filter_length_le (word_start d) (seq 0 (length d))) as H. rewrite length_seq in H. lia. }
  destruct (print_number _ Hl) as (l & El & Dl). destruct (print_number _ Hw) as (w & Ew & Dw). destruct (print_number (Z.of_nat (length d)) ltac:(lia)) as (c & Ec & Dc).
  apply wp_bind. eapply wp_mono; [apply (wp_say s1 _ _ [name] (l ++ [32] ++ w ++ [32] ++ c ++ [32] ++ name ++ [10]))|].
  - unfold printf. change (txt "%d %d %d %s" ++ [10]) with [37; 100; 32; 37; 100; 32; 37; 100; 32; 37; 115; 10].
    do 3 (rewrite printf_number, printf_char by done). rewrite printf_string, printf_char by done. rewrite El, Ew, Ec. simpl. by rewrite <- ?app_assoc.
  - intros [] s2 [E2 _]. apply wp_ret. split; [done|]. exists l, w, c. split_and!; try apply Dl; try apply Dw; try apply Dc. by rewrite E2, E1.
Qed.
End Laws.

(** ** A descriptor that delivers at most three bytes at a time *)

#[local] Instance demo_unix : Unix (list Z * list Z) := {|
  u_read := fun _ n s => let g := take (Nat.min (Z.to_nat n) 3) s.1 in Done (Z.of_nat (length g), g) (drop (length g) s.1, s.2);
  u_write := fun _ b s => Done (Z.of_nat (length b)) (s.1, s.2 ++ b);
  u_open := fun _ _ => ret 3; u_close := fun _ => ret 0; u_fstat := fun _ => ret (0, mkSt 2 1 1 0) |}.
#[local] Program Instance demo_laws : UnixLaws (list Z * list Z) := {| pending := fun s _ d => s.1 = d; shown := snd |}.
Next Obligation.
  intros s fd d n <- Hn. set (k := Nat.min (Z.to_nat n) 3). assert (0 < k)%nat as Hk by lia. exists (take k s.1), (drop (length (take k s.1)) s.1).
  split_and!; try done; [|rewrite length_take; unfold k; lia|].
  - rewrite length_take. destruct (decide (k <= length s.1)%nat); [rewrite Nat.min_l by lia; by rewrite take_drop|].
    rewrite Nat.min_r, drop_all, take_ge, app_nil_r by lia. done.
  - intros E. destruct s.1 as [|b d]; [done|]. by destruct k; [lia|].
Qed.
Next Obligation. intros s b. by split. Qed.

(** One newline, three words, seven bytes. *)
Lemma wc_counts_witness : exists s', wc 8 3 [102] ([97; 32; 98; 99; 10; 32; 100], []) = Done true s' /\ s'.2 = [49; 32; 51; 32; 55; 32; 102; 10].
Proof.
  pose proof (wc_counts ([97; 32; 98; 99; 10; 32; 100], []) 3 [97; 32; 98; 99; 10; 32; 100] [102] eq_refl ltac:(simpl; lia)) as H.
  destruct (proj1 (wp_inv _ _ _) H) as (r & s' & E & -> & _). exists s'. split; [exact E|].
  vm_compute in E. injection E as <-. reflexivity.
Defined.
