(* ===== verification/Ring.v ===== *)
(** * Ring buffers with free-running 32-bit indices

    The console's input buffer and pipes index an array with counters that are
    never reset and wrap around at 2^32; both sizes divide 2^32. *)

From S2P Require Import Prelude.

Section Ring.
Context (N : Z).
Hypothesis HN : 0 < N < 2 ^ 31.

(** The array [b] holds the queue [l] from the free-running index [r]. *)
Record ring_rep (b : list Z) (r : Z) (l : list Z) : Prop := {
  rr_len : length b = Z.to_nat N;
  rr_r : 0 <= r < 2 ^ 32;
  rr_room : Z.of_nat (length l) <= N;
  rr_data : forall i c, l !! i = Some c -> b !! Z.to_nat ((r + Z.of_nat i) mod N) = Some c
}.

Lemma u32_inj_ring r a b : 0 <= a <= N -> 0 <= b <= N -> u32 (r + a) = u32 (r + b) -> a = b.
Proof using HN. unfold u32. intros Ha Hb E. zlia. Qed.

Lemma u32_pred r k : 0 < k -> u32 (u32 (r + k) - 1) = u32 (r + (k - 1)).
Proof. unfold u32. intros Hk. zlia. Qed.
Lemma u32_succ x : u32 (u32 x + 1) = u32 (x + 1).
Proof. unfold u32. zlia. Qed.
Lemma u32_dist r k : 0 <= r < 2 ^ 32 -> 0 <= k <= N -> u32 (u32 (r + k) - r) = k.
Proof using HN. unfold u32. intros. zlia. Qed.

(** Distinct offsets within the buffer are distinct slots. *)
Lemma slot_inj r i j : 0 <= i < N -> 0 <= j < N -> (r + i) mod N = (r + j) mod N -> i = j.
Proof using HN.
  intros Hi Hj E. assert ((i - j) mod N = 0) as H.
  { replace (i - j) with ((r + i) - (r + j)) by lia. by rewrite Zminus_mod, E, Z.sub_diag, Z.mod_0_l by lia. }
  apply Z.mod_divide in H as [q Hq]; [|lia]. assert (q = 0) by nia. lia.
Qed.

Lemma ring_empty b r l : ring_rep b r l -> u32 (r + Z.of_nat (length l)) = r <-> l = [].
Proof using HN.
  intros [A1 A2 A3 A4]. split; [|intros ->; simpl; rewrite Z.add_0_r; apply u32_small; zlia].
  intros E. rewrite <- (u32_small r) in E at 2 by zlia. rewrite <- (Z.add_0_r r) in E at 2.
  apply u32_inj_ring in E; [|lia|lia]. destruct l; [done|simpl in E; lia].
Qed.

Lemma ring_full b r l :
  ring_rep b r l -> u32 (r + Z.of_nat (length l)) = u32 (r + N) <-> Z.of_nat (length l) = N.
Proof using HN.
  intros [A1 A2 A3 A4]. split; [|by intros ->]. intros E. apply u32_inj_ring in E; lia.
Qed.
Hypothesis Hdiv : (2 ^ 32) mod N = 0.

Lemma u32_mod_ring x : u32 x mod N = x mod N.
Proof using HN Hdiv.
  unfold u32. apply Z.mod_divide in Hdiv as [q Hq]; [|lia].
  rewrite Hq, (Z.mul_comm q N). destruct (decide (q = 0)) as [->|]; [zlia|].
  rewrite Z.rem_mul_r by nia. rewrite Z.mul_comm, Z.mod_add, Z.mod_mod; lia.
Qed.

Lemma ring_push b r l x :
  ring_rep b r l -> Z.of_nat (length l) < N ->
  ring_rep (<[Z.to_nat (u32 (r + Z.of_nat (length l)) mod N) := x]> b) r (l ++ [x]).
Proof using HN Hdiv.
  intros [A1 A2 A3 A4] Hlt. rewrite u32_mod_ring.
  assert (forall k, 0 <= k mod N < N) as Hslot by (intros; apply Z.mod_pos_bound; lia).
  constructor; rewrite ?length_insert, ?length_app; simpl; try done; [lia|].
  intros i y Hi. apply lookup_app_Some in Hi as [Hi|[Hge Hi]].
  - pose proof (lookup_lt_Some _ _ _ Hi) as Hlen.
    rewrite list_lookup_insert_ne; [by apply A4|]. intros Eq. apply Z2Nat.inj in Eq; [|apply Hslot..].
    apply slot_inj in Eq; lia.
  - apply list_lookup_singleton_Some in Hi as [Hi ->]. replace i with (length l) by lia.
    rewrite list_lookup_insert_eq; [done|]. rewrite A1.
    specialize (Hslot (r + Z.of_nat (length l))). lia.
Qed.

Lemma ring_pop b r x l :
  ring_rep b r (x :: l) ->
  b !! Z.to_nat (u32 r mod N) = Some x /\ ring_rep b (u32 (r + 1)) l.
Proof using HN Hdiv.
  intros [A1 A2 A3 A4]. simpl in A3. split.
  - rewrite u32_mod_ring, <- (Z.add_0_r r). by apply (A4 0%nat).
  - constructor; try done; [apply u32_range|lia|].
    intros i y Hi. rewrite Zplus_mod, u32_mod_ring, <- Zplus_mod.
    replace (r + 1 + Z.of_nat i) with (r + Z.of_nat (S i)) by lia. by apply A4.
Qed.

Lemma ring_unpush b r l x :
  ring_rep b r (l ++ [x]) ->
  b !! Z.to_nat (u32 (u32 (r + Z.of_nat (length (l ++ [x]))) - 1) mod N) = Some x /\ ring_rep b r l.
Proof using HN Hdiv.
  intros [A1 A2 A3 A4]. rewrite length_app in *. simpl in *. split.
  - rewrite u32_pred, u32_mod_ring by lia.
    replace (Z.of_nat (length l + 1) - 1) with (Z.of_nat (length l)) by lia.
    apply A4. rewrite lookup_app_r by lia. by rewrite Nat.sub_diag.
  - constructor; try done; [lia|]. intros i y Hi. by apply A4, lookup_app_l_Some.
Qed.

End Ring.
