(* ===== verification/Console.v ===== *)
(** * The console: console.c, kbd.c and kbd.h

    [Input] is the line discipline: the ring buffer [input] with its three
    free-running 32-bit indices, filled by [consoleintr] and drained by
    [consoleread].  [Screen] is the cursor and the cells of the CGA text screen.
    [Kbd] is the scan-code translation with its tables. *)

From S2P Require Import Prelude Ring.

Module Input.

Definition INPUT_BUF : Z := 128.
(** [C(x)]: control keys. *)
Definition C_P : Z := 16.
Definition C_U : Z := 21.
Definition C_H : Z := 8.
Definition C_D : Z := 4.
Definition DEL : Z := 127.
Definition NL : Z := 10.
Definition CR : Z := 13.
Definition BACKSPACE : Z := 256.

(** [struct input], the characters given to [consputc], and whether
    [wakeup(&input.r)] was called. *)
Record input := mkInput { buf : list Z; i_r : Z; i_w : Z; i_e : Z; echoed : list Z; woken : bool }.

Definition set_e (e : Z) (s : input) : input := mkInput (buf s) (i_r s) (i_w s) e (echoed s) (woken s).
Definition set_r (r : Z) (s : input) : input := mkInput (buf s) r (i_w s) (i_e s) (echoed s) (woken s).
Definition consputc (c : Z) : M input unit :=
  modify (fun s => mkInput (buf s) (i_r s) (i_w s) (i_e s) (echoed s ++ [c]) (woken s)).
(** [input.buf[i % INPUT_BUF]] *)
Definition get_buf (i : Z) : M input Z := fun s =>
  match buf s !! Z.to_nat (u32 i mod INPUT_BUF) with Some c => Done c s | None => Fault "input.buf" end.
Definition put_buf (i c : Z) : M input unit :=
  modify (fun s => mkInput (<[Z.to_nat (u32 i mod INPUT_BUF) := u8 c]> (buf s))
                           (i_r s) (i_w s) (i_e s) (echoed s) (woken s)).

(** The loop of [C('U')]. *)
Fixpoint kill_line (fuel : nat) : M input unit :=
  s <- gets id ;;
  if negb (i_e s =? i_w s) then
    match fuel with
    | O => nofuel
    | S fuel' =>
        c <- get_buf (i_e s - 1) ;;
        if negb (c =? NL) then
          modify (set_e (u32 (i_e s - 1))) ;;; consputc BACKSPACE ;;; kill_line fuel'
        else ret tt
    end
  else ret tt.

#[global] Arguments kill_line : simpl never.

(** One round of the loop of [consoleintr], for the character [c]; [C('P')]
    only sets a local flag. *)
Definition consolechar (c : Z) : M input unit :=
  if c =? C_P then ret tt
  else if c =? C_U then kill_line (Z.to_nat INPUT_BUF)
  else if (c =? C_H) || (c =? DEL) then
    s <- gets id ;;
    if negb (i_e s =? i_w s) then modify (set_e (u32 (i_e s - 1))) ;;; consputc BACKSPACE else ret tt
  else
    s <- gets id ;;
    if negb (c =? 0) && (u32 (i_e s - i_r s) <? INPUT_BUF) then
      let c := if c =? CR then NL else c in
      put_buf (i_e s) c ;;;
      modify (set_e (u32 (i_e s + 1))) ;;;
      consputc c ;;;
      s <- gets id ;;
      if (c =? NL) || (c =? C_D) || (i_e s =? u32 (i_r s + INPUT_BUF)) then
        modify (fun s => mkInput (buf s) (i_r s) (i_e s) (i_e s) (echoed s) true)
      else ret tt
    else ret tt.

(** [consoleintr] on the characters [getc] delivers before it returns -1. *)
Fixpoint consoleintr (cs : list Z) : M input unit :=
  match cs with
  | [] => ret tt
  | c :: cs' => consolechar c ;;; consoleintr cs'
  end.

(** [consoleread]: [n] bytes are left of [target]; the result is the bytes
    stored at [dst].  A process that is not killed sleeps when nothing is
    committed. *)
Fixpoint read_loop (killed : bool) (n : nat) (target : Z) (dst : list Z) : M input (Z * list Z) :=
  match n with
  | O => ret (target - Z.of_nat n, dst)
  | S n' =>
      s <- gets id ;;
      if i_r s =? i_w s then
        if killed then ret (-1, dst) else sleep_on "input.r"
      else
        c <- get_buf (i_r s) ;;
        modify (set_r (u32 (i_r s + 1))) ;;;
        if c =? C_D then
          (if Z.of_nat n <? target then modify (set_r (u32 (i_r s + 1 - 1))) else ret tt) ;;;
          ret (target - Z.of_nat n, dst)
        else if c =? NL then ret (target - Z.of_nat n', dst ++ [c])
        else read_loop killed n' target (dst ++ [c])
  end.
Definition consoleread (killed : bool) (n : Z) : M input (Z * list Z) :=
  if n >? 0 then read_loop killed (Z.to_nat n) n [] else ret (n - n, []).

(** ** The line discipline, abstractly

    Committed bytes can be read; the line being edited cannot. *)

Record line := mkLine { committed : list Z; editing : list Z }.

Definition typed (c : Z) (a : line) : line :=
  if c =? C_P then a
  else if c =? C_U then mkLine (committed a) []
  else if (c =? C_H) || (c =? DEL) then mkLine (committed a) (removelast (editing a))
  else if negb (c =? 0) && (Z.of_nat (length (committed a) + length (editing a)) <? INPUT_BUF) then
    let c := if c =? CR then NL else c in
    let ed := editing a ++ [c] in
    if (c =? NL) || (c =? C_D) || (Z.of_nat (length (committed a) + length ed) =? INPUT_BUF)
    then mkLine (committed a ++ ed) [] else mkLine (committed a) ed
  else a.

(** What a read of [n] bytes takes from the committed bytes: up to a newline,
    up to [n], or up to an end-of-file mark, which is eaten only when it comes
    first.  [None]: the reader waits for more. *)
Fixpoint take_line (n : nat) (first : bool) (l : list Z) : option (list Z * list Z) :=
  match n with
  | O => Some ([], l)
  | S n' =>
      match l with
      | [] => None
      | c :: l' =>
          if c =? C_D then Some ([], if first then l' else l)
          else if c =? NL then Some ([c], l')
          else match take_line n' false l' with
               | Some (got, rest) => Some (c :: got, rest)
               | None => None
               end
      end
  end.

(** ** The ring buffer represents the line *)

Record input_rep (s : input) (a : line) : Prop := {
  ir_ring : ring_rep INPUT_BUF (buf s) (i_r s) (committed a ++ editing a);
  ir_w : i_w s = u32 (i_r s + Z.of_nat (length (committed a)));
  ir_e : i_e s = u32 (i_r s + Z.of_nat (length (committed a ++ editing a)))
}.

(** A newline is committed as soon as it is typed. *)
Definition line_ok (a : line) : Prop := NL ∉ editing a.

Lemma buf_size : 0 < INPUT_BUF < 2 ^ 31.
Proof. done. Qed.
Lemma buf_div : (2 ^ 32) mod INPUT_BUF = 0.
Proof. done. Qed.

Lemma rep_ext s s' a :
  buf s' = buf s -> i_r s' = i_r s -> i_w s' = i_w s -> i_e s' = i_e s -> input_rep s a -> input_rep s' a.
Proof. intros E1 E2 E3 E4 [A1 A2 A3]. by constructor; rewrite ?E1, ?E2, ?E3, ?E4. Qed.

(** The edit index is at the write index exactly when no line is being edited. *)
Lemma rep_idle s a : input_rep s a -> i_e s = i_w s <-> editing a = [].
Proof.
  intros [A1 A2 A3]. pose proof (rr_room _ _ _ _ A1) as Hl. rewrite A2, A3, length_app in *. split.
  - intros E%(u32_inj_ring _ buf_size); [|lia|lia]. destruct (editing a); [done|simpl in E; lia].
  - intros ->. simpl. by rewrite Nat.add_0_r.
Qed.

Lemma rep_shrink s c ed x :
  input_rep s (mkLine c (ed ++ [x])) ->
  buf s !! Z.to_nat (u32 (i_e s - 1) mod INPUT_BUF) = Some x /\
  input_rep (set_e (u32 (i_e s - 1)) s) (mkLine c ed).
Proof.
  intros [A1 A2 A3]; simpl in *. rewrite app_assoc in *.
  destruct (ring_unpush _ buf_size buf_div _ _ _ _ A1) as [Hx Hr]. rewrite A3. split; [done|].
  constructor; simpl; try done. rewrite u32_pred; rewrite length_app; simpl; [f_equal|]; lia.
Qed.

Lemma wp_kill_line fuel s c ed :
  input_rep s (mkLine c ed) -> NL ∉ ed -> (length ed <= fuel)%nat ->
  wp (kill_line fuel) (fun _ s' => input_rep s' (mkLine c [])) s.
Proof.
  revert s ed. induction fuel as [|fuel IH]; intros s ed Hr Hnl Hf; cbn [kill_line];
    apply wp_bind, wp_gets; pose proof (rep_idle _ _ Hr) as Hid; simpl in Hid; unfold id;
    destruct ed as [|x ed _] using rev_ind.
  1, 3: rewrite (proj2 Hid), Z.eqb_refl by done; by apply wp_ret.
  - rewrite length_app in Hf. simpl in Hf. lia.
  - rewrite length_app in Hf. simpl in Hf.
    destruct (Z.eqb_spec (i_e s) (i_w s)) as [E|_]; [apply Hid in E; by destruct ed|].
    destruct (rep_shrink _ _ _ _ Hr) as [Hlast Hr1].
    cbn [negb]. apply wp_bind. unfold wp at 1, get_buf. rewrite Hlast.
    assert (x <> NL /\ NL ∉ ed) as [Hx Hnl'] by set_solver.
    rewrite (proj2 (Z.eqb_neq x NL) Hx). cbn [negb]. apply wp_bind, wp_modify, wp_bind, wp_modify.
    apply (IH _ ed); [|done|lia]. by eapply rep_ext, Hr1.
Qed.

Lemma rep_push s c ed x :
  input_rep s (mkLine c ed) -> Z.of_nat (length c + length ed) < INPUT_BUF -> 0 <= x < 256 ->
  forall s', buf s' = <[Z.to_nat (u32 (i_e s) mod INPUT_BUF) := u8 x]> (buf s) ->
    i_r s' = i_r s -> i_w s' = i_w s -> i_e s' = u32 (i_e s + 1) ->
    input_rep s' (mkLine c (ed ++ [x])).
Proof.
  intros [A1 A2 A3] Hlt Hx s' E1 E2 E3 E4; simpl in *.
  constructor; simpl; rewrite ?E1, ?E2, ?E3, ?E4; try done.
  - rewrite A3, u8_small, (u32_mod_ring _ buf_size buf_div (u32 _)), app_assoc by done.
    apply (ring_push _ buf_size buf_div); [done|]. rewrite length_app. lia.
  - rewrite A3, u32_succ, app_assoc, (length_app _ [x]). f_equal. simpl. lia.
Qed.

Lemma rep_commit s c ed s' :
  input_rep s (mkLine c ed) -> buf s' = buf s -> i_r s' = i_r s -> i_w s' = i_e s -> i_e s' = i_e s ->
  input_rep s' (mkLine (c ++ ed) []).
Proof.
  intros [A1 A2 A3] E1 E2 E3 E4; simpl in *.
  constructor; simpl; rewrite ?E1, ?E2, ?E3, ?E4, ?app_nil_r; done.
Qed.

(** Typing a character. *)
Lemma wp_consolechar s a c :
  input_rep s a -> line_ok a -> 0 <= c < 256 ->
  wp (consolechar c) (fun _ s' => input_rep s' (typed c a) /\ line_ok (typed c a)) s.
Proof.
  intros Hr Hok Hc. unfold consolechar, typed. destruct a as [cm ed]. unfold line_ok in *. simpl in *.
  destruct (c =? C_P); [by apply wp_ret|]. destruct (c =? C_U).
  { eapply wp_mono; [eapply wp_kill_line; [done|done|]|].
    - pose proof (rr_room _ _ _ _ (ir_ring _ _ Hr)) as Hl. simpl in Hl. rewrite length_app in Hl. lia.
    - intros [] s' H. split; [done|apply not_elem_of_nil]. }
  destruct ((c =? C_H) || (c =? DEL)).
  { apply wp_bind, wp_gets. unfold id. pose proof (rep_idle _ _ Hr) as Hid. simpl in Hid.
    destruct ed as [|x ed _] using rev_ind.
    - rewrite (proj2 Hid), Z.eqb_refl by done. by apply wp_ret.
    - destruct (Z.eqb_spec (i_e s) (i_w s)) as [E|_]; [apply Hid in E; by destruct ed|]. cbn [negb].
      apply wp_bind, wp_modify, wp_modify. rewrite removelast_last. split; [|set_solver].
      destruct (rep_shrink _ _ _ _ Hr) as [_ Hr1]. by eapply rep_ext, Hr1. }
  apply wp_bind, wp_gets. unfold id. pose proof Hr as [A1 A2 A3]; simpl in *.
  pose proof A1 as [_ Hrr Hroom _]. rewrite A3, (u32_dist _ buf_size), <- A3, length_app by lia. destruct (negb (c =? 0)); [|by apply wp_ret]. simpl.
  destruct (Z.ltb_spec (Z.of_nat (length cm + length ed)) INPUT_BUF) as [Hlt|]; [|by apply wp_ret].
  set (x := if c =? CR then NL else c).
  assert (0 <= x < 256) as Hx by (unfold x, NL; destruct (c =? CR); lia).
  apply wp_bind, wp_modify, wp_bind, wp_modify, wp_bind, wp_modify, wp_bind, wp_gets. simpl.
  match goal with |- context [wp _ _ ?t] => set (s1 := t) end.
  assert (input_rep s1 (mkLine cm (ed ++ [x]))) as Hr1 by (by apply (rep_push s cm ed x)).
  assert ((u32 (i_e s + 1) =? u32 (i_r s + INPUT_BUF)) =
          (Z.of_nat (length cm + length (ed ++ [x])) =? INPUT_BUF)) as ->.
  { pose proof (ring_full _ buf_size _ _ _ (ir_ring _ _ Hr1)) as Hf. simpl in Hf.
    pose proof (ir_e _ _ Hr1) as He. simpl in He. rewrite <- He, (length_app cm) in Hf.
    by apply Bool.eq_iff_eq_true; rewrite !Z.eqb_eq. }
  destruct (x =? NL) eqn:En, (x =? C_D), (_ =? INPUT_BUF); simpl;
    try (apply wp_modify; split; [by eapply rep_commit|apply not_elem_of_nil]).
  apply wp_ret. split; [done|]. apply Z.eqb_neq in En. set_solver.
Qed.

Lemma rep_pop s x c ed :
  input_rep s (mkLine (x :: c) ed) ->
  i_r s <> i_w s /\ buf s !! Z.to_nat (u32 (i_r s) mod INPUT_BUF) = Some x /\
  input_rep (set_r (u32 (i_r s + 1)) s) (mkLine c ed).
Proof.
  intros [A1 A2 A3]; simpl in *. destruct (ring_pop _ buf_size buf_div _ _ _ _ A1) as [Hx Hr].
  pose proof A1 as [_ Hrr Hroom _]. simpl in Hroom. rewrite length_app in Hroom. split_and!; [|done|].
  - rewrite A2. rewrite <- (u32_small (i_r s)) at 1 by zlia. rewrite <- (Z.add_0_r (i_r s)) at 1.
    intros E%(u32_inj_ring _ buf_size); lia.
  - constructor; simpl; [done|rewrite A2|rewrite A3]; unfold u32; zlia.
Qed.

Lemma read_loop_refines killed n target dst s c ed :
  input_rep s (mkLine c ed) -> Z.of_nat n <= target ->
  match take_line n (Z.of_nat n =? target) c with
  | Some (got, rest) =>
      wp (read_loop killed n target dst) (fun r s' =>
        r = (target - Z.of_nat n + Z.of_nat (length got), dst ++ got) /\
        input_rep s' (mkLine rest ed)) s
  | None => if killed then exists l s', read_loop killed n target dst s = Done (-1, l) s'
            else read_loop killed n target dst s = Sleep "input.r"
  end.
Proof.
  revert dst s c. induction n as [|n IH]; intros dst s c Hr Hn.
  { apply wp_ret. split; [|done]. rewrite app_nil_r. f_equal. simpl. lia. }
  cbn [take_line]. destruct c as [|x c].
  { cbn [read_loop]. unfold bind, gets, id. destruct Hr as [A1 A2 _]. simpl in A2.
    rewrite Z.add_0_r, u32_small in A2 by (pose proof (rr_r _ _ _ _ A1); zlia). rewrite A2, Z.eqb_refl.
    destruct killed; [by eexists _, _|done]. }
  destruct (rep_pop _ _ _ _ Hr) as (Hne & Hb & Hr1).
  assert (forall (k : Z -> M input (Z * list Z)) Q,
    wp (k x) Q s -> wp (c' <- get_buf (i_r s) ;; k c') Q s) as Hget.
  { intros k Q. unfold wp, bind, get_buf. by rewrite Hb. }
  destruct (x =? C_D) eqn:Ed.
  { cbn [read_loop]. apply wp_bind, wp_gets. unfold id. rewrite (proj2 (Z.eqb_neq _ _) Hne). apply Hget.
    apply wp_bind, wp_modify. rewrite Ed. apply wp_bind.
    destruct (Z.ltb_spec (Z.of_nat (S n)) target), (Z.eqb_spec (Z.of_nat (S n)) target); try lia.
    - apply wp_modify, wp_ret. split; [rewrite app_nil_r; simpl length; f_equal; lia|].
      eapply rep_ext, Hr; try done. simpl. rewrite Z.add_simpl_r. apply u32_small. apply (ir_ring _ _ Hr).
    - apply wp_ret, wp_ret. split; [rewrite app_nil_r; simpl length; f_equal; lia|done]. }
  destruct (x =? NL) eqn:En.
  { cbn [read_loop]. apply wp_bind, wp_gets. unfold id. rewrite (proj2 (Z.eqb_neq _ _) Hne). apply Hget.
    apply wp_bind, wp_modify. rewrite Ed, En. apply wp_ret. split; [|done].
    f_equal. simpl length. lia. }
  specialize (IH (dst ++ [x]) _ c Hr1 ltac:(lia)). rewrite (proj2 (Z.eqb_neq (Z.of_nat n) target)) in IH by lia.
  destruct (take_line n false c) as [[got rest]|].
  - cbn [read_loop]. apply wp_bind, wp_gets. unfold id. rewrite (proj2 (Z.eqb_neq _ _) Hne).
    apply Hget. apply wp_bind, wp_modify. rewrite Ed, En. eapply wp_mono; [exact IH|].
    intros r s' [-> H]. split; [|done]. rewrite <- app_assoc. f_equal. simpl length. lia.
  - assert (read_loop killed (S n) target dst s =
            read_loop killed n target (dst ++ [x]) (set_r (u32 (i_r s + 1)) s)) as E; [|by rewrite E].
    cbn [read_loop]. unfold bind at 1, gets, id. rewrite (proj2 (Z.eqb_neq _ _) Hne).
    unfold bind, get_buf, modify. by rewrite Hb, Ed, En.
Qed.

Lemma wp_consoleintr cs s a :
  input_rep s a -> line_ok a -> Forall (fun c => 0 <= c < 256) cs ->
  wp (consoleintr cs) (fun _ s' => input_rep s' (foldl (fun a c => typed c a) a cs)) s.
Proof.
  revert s a. induction cs as [|c cs IH]; intros s a Hr Hok Hc; [by apply wp_ret|].
  apply Forall_cons in Hc as [Hc Hcs]. cbn [consoleintr foldl]. apply wp_bind.
  eapply wp_mono; [by apply wp_consolechar|]. intros [] s' [Hr' Hok']. by apply IH.
Qed.

(** C40. Whatever is typed, the interrupt handler returns, and a read of [n]
    bytes then returns what the line discipline says: the committed bytes up to
    a newline, up to [n] or up to an end-of-file mark, or it sleeps when they
    do not suffice.  The ring buffer's indices may wrap around 2^32. *)
Theorem console_line_discipline s a cs n :
  input_rep s a -> line_ok a -> Forall (fun c => 0 <= c < 256) cs -> 0 < n ->
  exists s1, consoleintr cs s = Done tt s1 /\
    let a1 := foldl (fun a c => typed c a) a cs in
    match take_line (Z.to_nat n) true (committed a1) with
    | Some (got, rest) => exists s2,
        consoleread false n s1 = Done (Z.of_nat (length got), got) s2 /\
        input_rep s2 (mkLine rest (editing a1))
    | None => consoleread false n s1 = Sleep "input.r"
    end.
Proof.
  intros Hr Hok Hc Hn. pose proof (wp_consoleintr cs s a Hr Hok Hc) as ([] & s1 & E & Hr1)%wp_inv.
  exists s1. split; [done|]. cbv zeta. set (a1 := foldl _ a cs) in *. destruct a1 as [c ed]. simpl.
  unfold consoleread. destruct (Z.gtb_spec n 0); [|lia].
  pose proof (read_loop_refines false (Z.to_nat n) n [] s1 c ed Hr1 ltac:(lia)) as H1.
  rewrite Z2Nat.id, Z.eqb_refl, Z.sub_diag in H1 by lia.
  destruct (take_line (Z.to_nat n) true c) as [[got rest]|]; [|done].
  apply wp_inv in H1 as (r & s2 & E2 & -> & Hr2). by exists s2.
Qed.

(** The buffer at boot, with indices about to wrap. *)
Definition boot_input (r : Z) : input := mkInput (replicate 128 0) r r r [] false.

Lemma boot_rep r : 0 <= r < 2 ^ 32 -> input_rep (boot_input r) (mkLine [] []).
Proof.
  intros Hr. constructor; simpl; rewrite ?Z.add_0_r, ?u32_small by zlia; done.
Qed.

(** "hx", delete, "i", return. *)
Lemma console_line_discipline_witness :
  exists s1 s2, consoleintr [104; 120; 127; 105; 13] (boot_input (2 ^ 32 - 1)) = Done tt s1 /\
    consoleread false 100 s1 = Done (3, [104; 105; 10]) s2.
Proof.
  destruct (console_line_discipline (boot_input (2 ^ 32 - 1)) (mkLine [] []) [104; 120; 127; 105; 13] 100)
    as (s1 & E1 & s2 & E2 & _).
  - apply boot_rep. lia.
  - unfold line_ok. simpl. apply not_elem_of_nil.
  - repeat constructor; lia.
  - lia.
  - exists s1, s2. split; [exact E1|exact E2].
Defined.
End Input.

Module Screen.

Definition CRTPORT : Z := 0x3d4.
Definition BACKSPACE : Z := 256.
(** CGA memory: 32 KB of 16-bit cells from 0xb8000. *)
Definition NCELLS : Z := 16384.

(** The CRT controller's index register and its cursor registers 14 and 15,
    and the text cells [crt]. *)
Record screen := mkScreen { idx : Z; reg14 : Z; reg15 : Z; cells : list Z }.

Definition outb (port v : Z) : M screen unit := modify (fun s =>
  if port =? CRTPORT then mkScreen (u8 v) (reg14 s) (reg15 s) (cells s)
  else if idx s =? 14 then mkScreen (idx s) (u8 v) (reg15 s) (cells s)
  else if idx s =? 15 then mkScreen (idx s) (reg14 s) (u8 v) (cells s)
  else s).
Definition inb (port : Z) : M screen Z := gets (fun s =>
  if idx s =? 14 then reg14 s else if idx s =? 15 then reg15 s else 0).
Definition set_cell (i v : Z) : M screen unit := fun s =>
  if (0 <=? i) && (i <? NCELLS)
  then Done tt (mkScreen (idx s) (reg14 s) (reg15 s) (<[Z.to_nat i := v]> (cells s)))
  else Fault "crt".

(** The scrolling [memmove] and [memset], in cells. *)
Definition scroll (pos : Z) (l : list Z) : list Z :=
  let l := bsplice 0 (bslice 80 (23 * 80) l) l in
  bsplice (Z.to_nat pos) (replicate (Z.to_nat (24 * 80 - pos)) 0) l.

(** The second half of [cgaputc]: the check, scrolling, and the cursor. *)
Definition settle (pos : Z) : M screen unit :=
  if (pos <? 0) || (pos >? 25 * 80) then panic "pos under/overflow" else
  pos <- (if pos / 80 >=? 24
          then modify (fun s => mkScreen (idx s) (reg14 s) (reg15 s) (scroll (pos - 80) (cells s))) ;;;
               ret (pos - 80)
          else ret pos) ;;
  outb CRTPORT 14 ;;;
  outb (CRTPORT + 1) (Z.shiftr pos 8) ;;;
  outb CRTPORT 15 ;;;
  outb (CRTPORT + 1) pos ;;;
  set_cell pos (Z.lor 32 0x0700).

Definition cgaputc (c : Z) : M screen unit :=
  outb CRTPORT 14 ;;;
  hi <- inb (CRTPORT + 1) ;;
  outb CRTPORT 15 ;;;
  lo <- inb (CRTPORT + 1) ;;
  let pos := Z.lor (Z.shiftl hi 8) lo in
  pos <- (if c =? 10 then ret (pos + (80 - pos mod 80))
          else if c =? BACKSPACE then ret (if pos >? 0 then pos - 1 else pos)
          else set_cell pos (Z.lor (Z.land c 0xff) 0x0700) ;;; ret (pos + 1)) ;;
  settle pos.

(** The cursor is on the first 24 rows. *)
Definition cursor (s : screen) : Z := 256 * reg14 s + reg15 s.
Definition screen_ok (s : screen) : Prop :=
  length (cells s) = Z.to_nat NCELLS /\ is_byte (reg14 s) /\ is_byte (reg15 s) /\ cursor s < 24 * 80.

(** Where a character moves the cursor, before scrolling. *)
Definition moved (c pos : Z) : Z :=
  if c =? 10 then 80 * (pos / 80 + 1)
  else if c =? BACKSPACE then Z.max 0 (pos - 1) else pos + 1.
(** The cells with the character at the cursor. *)
Definition drawn (c pos : Z) (l : list Z) : list Z :=
  if (c =? 10) || (c =? BACKSPACE) then l else <[Z.to_nat pos := Z.lor (Z.land c 0xff) 0x0700]> l.

Lemma scroll_length pos l :
  length l = Z.to_nat NCELLS -> 0 <= pos <= 24 * 80 -> length (scroll pos l) = Z.to_nat NCELLS.
Proof.
  intros Hl Hp. unfold scroll, NCELLS in *.
  assert (length (bslice 80 (23 * 80) l) = (23 * 80)%nat) as Hs by (apply bslice_length; lia).
  rewrite !bsplice_length; rewrite ?bsplice_length; rewrite ?length_replicate, ?Hs; lia.
Qed.

Lemma scroll_row pos l i :
  length l = Z.to_nat NCELLS -> 0 <= i < 23 * 80 -> 23 * 80 <= pos <= 24 * 80 ->
  scroll pos l !! Z.to_nat i = l !! Z.to_nat (i + 80).
Proof.
  intros Hl Hi Hp. unfold scroll, NCELLS in *.
  assert (length (bslice 80 (23 * 80) l) = (23 * 80)%nat) as Hs by (apply bslice_length; lia).
  rewrite bsplice_lookup by (rewrite bsplice_length, length_replicate; rewrite ?Hs; lia).
  rewrite decide_False by lia. rewrite bsplice_lookup by (rewrite Hs; lia).
  rewrite Hs, decide_True by lia. rewrite bslice_lookup by lia. f_equal. lia.
Qed.

(** The cursor registers after the four final [outb]s. *)
Lemma cursor_regs pos : 0 <= pos < 65536 ->
  is_byte (u8 (Z.shiftr pos 8)) /\ is_byte (u8 pos) /\ 256 * u8 (Z.shiftr pos 8) + u8 pos = pos.
Proof.
  intros Hp. rewrite Z.shiftr_div_pow2 by lia. unfold is_byte, u8. change (2 ^ 8) with 256.
  split_and!; zlia.
Qed.

Lemma wp_settle s pos :
  length (cells s) = Z.to_nat NCELLS -> 0 <= pos <= 24 * 80 ->
  wp (settle pos) (fun _ s' =>
    screen_ok s' /\
    if pos >=? 24 * 80
    then cursor s' = pos - 80 /\
         forall i, 0 <= i < 23 * 80 -> i <> pos - 80 ->
           cells s' !! Z.to_nat i = cells s !! Z.to_nat (i + 80)
    else cursor s' = pos /\ cells s' = <[Z.to_nat pos := 0x0720]> (cells s)) s.
Proof.
  intros Hl Hp. unfold settle. destruct (Z.ltb_spec pos 0), (Z.gtb_spec pos (25 * 80)); try lia. simpl orb.
  cbv iota. assert ((pos / 80 >=? 24) = (pos >=? 24 * 80)) as ->.
  { destruct (Z.geb_spec (pos / 80) 24), (Z.geb_spec pos (24 * 80)); zlia. }
  apply wp_bind. destruct (Z.geb_spec pos (24 * 80)) as [Hge|Hlt].
  - apply wp_bind, wp_modify, wp_ret.
    destruct (cursor_regs (pos - 80)) as (Hb1 & Hb2 & Hb3); [lia|].
    apply wp_bind, wp_modify, wp_bind, wp_modify, wp_bind, wp_modify, wp_bind, wp_modify. simpl.
    unfold wp, set_cell, NCELLS. destruct (Z.leb_spec 0 (pos - 80)), (Z.ltb_spec (pos - 80) 16384); try lia.
    simpl. pose proof (scroll_length (pos - 80) (cells s) Hl ltac:(lia)) as Hsl.
    unfold screen_ok, cursor. simpl. rewrite length_insert. split_and!; try done; [lia|].
    intros i Hi Hne. rewrite list_lookup_insert_ne by lia. apply scroll_row; [done|lia|lia].
  - apply wp_ret. destruct (cursor_regs pos) as (Hb1 & Hb2 & Hb3); [lia|].
    apply wp_bind, wp_modify, wp_bind, wp_modify, wp_bind, wp_modify, wp_bind, wp_modify. simpl.
    unfold wp, set_cell, NCELLS. destruct (Z.leb_spec 0 pos), (Z.ltb_spec pos 16384); try lia.
    simpl. unfold screen_ok, cursor. simpl. rewrite length_insert. split_and!; try done. lia.
Qed.

(** Writing a character keeps the cursor on the first 24 rows (so the
    overflow panic and stray cells are impossible), moves it as the character
    says, and, when the last row is full, shows every row one row higher. *)
Theorem cgaputc_ok s c :
  screen_ok s ->
  wp (cgaputc c) (fun _ s' =>
    screen_ok s' /\
    let pos := moved c (cursor s) in
    let l := drawn c (cursor s) (cells s) in
    if pos >=? 24 * 80
    then cursor s' = pos - 80 /\
         forall i, 0 <= i < 23 * 80 -> i <> pos - 80 -> cells s' !! Z.to_nat i = l !! Z.to_nat (i + 80)
    else cursor s' = pos /\ cells s' = <[Z.to_nat pos := 0x0720]> l) s.
Proof.
  intros (Hl & Hh & Hlo & Hcur). unfold cgaputc.
  apply wp_bind, wp_modify, wp_bind, wp_gets, wp_bind, wp_modify, wp_bind, wp_gets. simpl.
  unfold is_byte in *. rewrite lor_shiftl_add by lia. change (2 ^ 8) with 256.
  replace (reg14 s * 256 + reg15 s) with (cursor s) by (unfold cursor; lia).
  assert (0 <= cursor s) as H0 by (unfold cursor; lia). set (p := cursor s) in *.
  match goal with |- context [wp _ _ ?t] => set (s0 := t) end.
  assert (0 <= moved c p <= 24 * 80) as Hm.
  { unfold moved. destruct (c =? 10); [zlia|]. destruct (c =? BACKSPACE); lia. }
  assert (length (drawn c p (cells s)) = Z.to_nat NCELLS) as Hdl.
  { unfold drawn. destruct (_ || _); [done|by rewrite length_insert]. }
  pose proof (fun i => wp_settle (mkScreen i (reg14 s) (reg15 s) (drawn c p (cells s))) (moved c p) Hdl Hm) as Hs.
  simpl in Hs. apply wp_bind. unfold drawn, moved in *. destruct (c =? 10).
  - apply wp_ret. replace (p + (80 - p mod 80)) with (80 * (p / 80 + 1)) by zlia. apply Hs.
  - destruct (c =? BACKSPACE); simpl in *.
    + apply wp_ret. replace (if p >? 0 then p - 1 else p) with (Z.max 0 (p - 1)); [apply Hs|].
      destruct (Z.gtb_spec p 0); lia.
    + apply wp_bind. unfold wp at 1, set_cell, NCELLS.
      destruct (Z.leb_spec 0 p), (Z.ltb_spec p 16384); try lia. simpl. apply wp_ret, Hs.
Qed.

(** A newline on the last row of a blank screen. *)
Definition blank : screen := mkScreen 0 7 120 (replicate (Z.to_nat NCELLS) 0).
#[global] Arguments blank : simpl never.

Lemma cgaputc_ok_witness : wp (cgaputc 10) (fun _ s' => screen_ok s' /\ cursor s' = 23 * 80) blank.
Proof.
  eapply wp_mono.
  - apply (cgaputc_ok blank 10). repeat split; try (vm_compute; reflexivity); vm_compute; discriminate.
  - intros [] s' [H1 H2]. split; [exact H1|]. apply (proj1 H2).
Defined.
End Screen.

Module Kbd.

Definition KBS_DIB : Z := 1.
Definition SHIFT : Z := 1.
Definition CTL : Z := 2.
Definition ALT : Z := 4.
Definition CAPSLOCK : Z := 8.
Definition NUMLOCK : Z := 16.
Definition SCROLLLOCK : Z := 32.
Definition E0ESC : Z := 64.

(** A [uchar[256]] with an initializer: leading entries and designated ones. *)
Definition table (l : list Z) (at_ : list (Z * Z)) : list Z :=
  foldl (fun t '(i, v) => <[Z.to_nat i := u8 v]> t)
        ((u8 <$> l) ++ replicate (256 - length l) 0) at_.

Definition shiftcode : list Z := table
  []
  [(0x1D, 2); (0x2A, 1); (0x36, 1); (0x38, 4); (0x9D, 2); (0xB8, 4)].
Definition togglecode : list Z := table
  []
  [(0x3A, 8); (0x45, 16); (0x46, 32)].
Definition normalmap : list Z := table
  [0; 27; 49; 50; 51; 52; 53; 54; 55; 56; 57; 48; 45; 61; 8; 9;
   113; 119; 101; 114; 116; 121; 117; 105; 111; 112; 91; 93; 10; 0; 97; 115;
   100; 102; 103; 104; 106; 107; 108; 59; 39; 96; 0; 92; 122; 120; 99; 118;
   98; 110; 109; 44; 46; 47; 0; 42; 0; 32; 0; 0; 0; 0; 0; 0;
   0; 0; 0; 0; 0; 0; 0; 55; 56; 57; 45; 52; 53; 54; 43; 49;
   50; 51; 48; 46; 0; 0; 0; 0]
  [(0x9C, 10); (0xB5, 47); (0xC8, 0xE2); (0xD0, 0xE3); (0xC9, 0xE6);
   (0xD1, 0xE7); (0xCB, 0xE4); (0xCD, 0xE5); (0x97, 0xE0); (0xCF, 0xE1);
   (0xD2, 0xE8); (0xD3, 0xE9)].
Definition shiftmap : list Z := table
  [0; 27; 33; 64; 35; 36; 37; 94; 38; 42; 40; 41; 95; 43; 8; 9;
   81; 87; 69; 82; 84; 89; 85; 73; 79; 80; 123; 125; 10; 0; 65; 83;
   68; 70; 71; 72; 74; 75; 76; 58; 34; 126; 0; 124; 90; 88; 67; 86;
   66; 78; 77; 60; 62; 63; 0; 42; 0; 32; 0; 0; 0; 0; 0; 0;
   0; 0; 0; 0; 0; 0; 0; 55; 56; 57; 45; 52; 53; 54; 43; 49;
   50; 51; 48; 46; 0; 0; 0; 0]
  [(0x9C, 10); (0xB5, 47); (0xC8, 0xE2); (0xD0, 0xE3); (0xC9, 0xE6);
   (0xD1, 0xE7); (0xCB, 0xE4); (0xCD, 0xE5); (0x97, 0xE0); (0xCF, 0xE1);
   (0xD2, 0xE8); (0xD3, 0xE9)].
Definition ctlmap : list Z := table
  [0; 0; 0; 0; 0; 0; 0; 0; 0; 0; 0; 0; 0; 0; 0; 0;
   17; 23; 5; 18; 20; 25; 21; 9; 15; 16; 0; 0; 13; 0; 1; 19;
   4; 6; 7; 8; 10; 11; 12; 0; 0; 0; 0; 28; 26; 24; 3; 22;
   2; 14; 13; 0; 0; -17; 0; 0]
  [(0x9C, 13); (0xB5, -17); (0xC8, 0xE2); (0xD0, 0xE3); (0xC9, 0xE6);
   (0xD1, 0xE7); (0xCB, 0xE4); (0xCD, 0xE5); (0x97, 0xE0); (0xCF, 0xE1);
   (0xD2, 0xE8); (0xD3, 0xE9)].

Definition look (t : list Z) (i : Z) : Z := nth (Z.to_nat i) t 0.

(** [charcode[i]] *)
Definition look_map (i : Z) : list Z :=
  if i =? 0 then normalmap else if i =? 1 then shiftmap else ctlmap.

(** The static variable [shift] is passed in and out; [st] and [data] are what
    the controller's two ports hold. *)
Definition kbdgetc (shift st data : Z) : Z * Z :=
  if Z.land st KBS_DIB =? 0 then (-1, shift)
  else if data =? 0xE0 then (0, Z.lor shift E0ESC)
  else if negb (Z.land data 0x80 =? 0) then
    let data := if negb (Z.land shift E0ESC =? 0) then data else Z.land data 0x7F in
    (0, Z.land shift (Z.lnot (Z.lor (look shiftcode data) E0ESC)))
  else
    let (data, shift) :=
      if negb (Z.land shift E0ESC =? 0)
      then (Z.lor data 0x80, Z.land shift (Z.lnot E0ESC)) else (data, shift) in
    let shift := Z.lor shift (look shiftcode data) in
    let shift := Z.lxor shift (look togglecode data) in
    let map := look_map (Z.land shift (Z.lor CTL SHIFT)) in
    let c := look map data in
    let c := if negb (Z.land shift CAPSLOCK =? 0) then
               if (97 <=? c) && (c <=? 122) then c + (65 - 97)
               else if (65 <=? c) && (c <=? 90) then c + (97 - 65) else c
             else c in
    (c, shift).

(** What the code does with one byte from the keyboard, for every byte and
    every state of the modifiers. *)
Definition key_ok (shift data : Z) : bool :=
  let (c, shift') := kbdgetc shift KBS_DIB data in
  (0 <=? c) && (c <? 256) && (0 <=? shift') && (shift' <? 128) &&
  Bool.eqb (negb (Z.land shift' E0ESC =? 0)) (data =? 0xE0).

(** Pressing and releasing a key leaves no modifier held. *)
Definition tap (shift data : Z) : Z :=
  (kbdgetc (kbdgetc shift KBS_DIB data).2 KBS_DIB (Z.lor data 0x80)).2.
Definition tap_ok (shift data : Z) : bool :=
  let shift' := tap shift data in
  (Z.land shift' (look shiftcode data) =? 0) &&
  (Z.land shift' (Z.lnot (look shiftcode data)) =?
   Z.land (Z.lxor shift (look togglecode data)) (Z.lnot (look shiftcode data))).

Lemma forall_range (f : Z -> bool) n x : forallb f (seqZ 0 n) = true -> 0 <= x < n -> f x = true.
Proof.
  intros H Hx. rewrite forallb_forall in H. apply H, list_elem_of_In, elem_of_seqZ. lia.
Qed.

(** The keyboard state machine, for all 128 modifier states and all 256
    bytes: the result is a byte, the state stays within its seven bits, and the
    escape flag is set exactly after the byte E0; and tapping a key (outside an
    escape) leaves its own modifier released, flips its own toggle, and
    changes nothing else. *)
Theorem kbdgetc_ok shift data :
  0 <= shift < 128 -> 0 <= data < 256 ->
  key_ok shift data = true /\ (data < 128 -> data <> 0x60 -> shift < 64 -> tap_ok shift data = true).
Proof.
  intros Hs Hd. split.
  - apply (forall_range (key_ok shift) 256); [|lia].
    apply (forall_range (fun shift => forallb (key_ok shift) (seqZ 0 256)) 128); [|lia]. by vm_compute.
  - intros Hd' Hne Hs'.
    assert ((data =? 0x60) || tap_ok shift data = true) as H.
    { apply (forall_range (fun data => (data =? 0x60) || tap_ok shift data) 128); [|lia].
      apply (forall_range (fun shift => forallb (fun data => (data =? 0x60) || tap_ok shift data)
        (seqZ 0 128)) 64); [|lia]. by vm_compute. }
    apply orb_true_iff in H as [H%Z.eqb_eq|H]; [done|done].
Qed.

(** The shift key. *)
Lemma kbdgetc_ok_witness : tap_ok 2 0x2A = true.
Proof. apply (kbdgetc_ok 2 0x2A); lia. Defined.
End Kbd.
