(* ===== verification/Pipe.v ===== *)
(** * Pipes: pipe.c

    A pipe is a 512-byte ring with free-running counters.  [pipewrite] and
    [piperead] run under [p->lock] until they return or sleep; a sleeping
    writer keeps the bytes it has not written yet and resumes with them.
    Every call also says which channels it called [wakeup] on.
    [step] interleaves any number of readers, writers and closers;
    [sched] runs a writer and a reader of a message, each asleep until the other wakes it. *)

From S2P Require Import Prelude Ring.

Definition PIPESIZE : Z := 512.

Record pipe := mkPipe {
  data : list Z;
  nread : Z;
  nwrite : Z;
  readopen : Z;
  writeopen : Z
}.

(** [p->data[p->nwrite++ % PIPESIZE] = c] *)
Definition put (c : Z) (p : pipe) : pipe :=
  mkPipe (<[Z.to_nat (nwrite p mod PIPESIZE) := u8 c]> (data p)) (nread p) (u32 (nwrite p + 1))
         (readopen p) (writeopen p).
(** [p->data[p->nread++ % PIPESIZE]] *)
Definition get (p : pipe) : Z * pipe :=
  (nth (Z.to_nat (nread p mod PIPESIZE)) (data p) 0,
   mkPipe (data p) (u32 (nread p + 1)) (nwrite p) (readopen p) (writeopen p)).

(** The channels [&p->nread] and [&p->nwrite]. *)
Inductive chan := NREAD | NWRITE.
#[global] Instance chan_eq_dec : EqDecision chan.
Proof. solve_decision. Defined.

(** How a call ended: it returned [r], or it sleeps on a channel. *)
Inductive status := Returns (r : Z) | Sleeps (c : chan).

(** The loop of [pipewrite] over the bytes of [addr] still to write, with what
    is left of them and the channels woken; [n] is the value a complete write returns. *)
Fixpoint pipewrite_loop (killed : bool) (n : Z) (addr : list Z) (p : pipe) : status * list Z * pipe * list chan :=
  match addr with
  | [] => (Returns n, [], p, [NREAD])
  | c :: addr' =>
      if nwrite p =? u32 (nread p + PIPESIZE) then
        if (readopen p =? 0) || killed then (Returns (-1), addr, p, []) else (Sleeps NWRITE, addr, p, [NREAD])
      else pipewrite_loop killed n addr' (put c p)
  end.
Definition pipewrite (killed : bool) (addr : list Z) (p : pipe) : status * list Z * pipe * list chan :=
  pipewrite_loop killed (Z.of_nat (length addr)) addr p.

(** The copying loop of [piperead]: the bytes read. *)
Fixpoint piperead_loop (n : nat) (p : pipe) : list Z * pipe :=
  match n with
  | O => ([], p)
  | S n' =>
      if nread p =? nwrite p then ([], p)
      else let (c, p') := get p in
           let (got, p'') := piperead_loop n' p' in (c :: got, p'')
  end.
Definition piperead (killed : bool) (n : Z) (p : pipe) : status * list Z * pipe * list chan :=
  if (nread p =? nwrite p) && negb (writeopen p =? 0) then
    if killed then (Returns (-1), [], p, []) else (Sleeps NREAD, [], p, [])
  else
    let (got, p') := piperead_loop (Z.to_nat n) p in
    (Returns (Z.of_nat (length got)), got, p', [NWRITE]).

(** [pipeclose]: the pipe, whether it was freed, and the channel woken. *)
Definition pipeclose (writable : Z) (p : pipe) : pipe * bool * list chan :=
  let '(p, woken) := if negb (writable =? 0)
           then (mkPipe (data p) (nread p) (nwrite p) (readopen p) 0, [NREAD])
           else (mkPipe (data p) (nread p) (nwrite p) 0 (writeopen p), [NWRITE]) in
  (p, (readopen p =? 0) && (writeopen p =? 0), woken).

(** The fields [pipealloc] sets in a page it got from [kalloc]. *)
Definition pipeinit (junk : list Z) : pipe := mkPipe junk 0 0 1 1.

(** ** The queue a pipe represents *)

Record pipe_rep (p : pipe) (l : list Z) : Prop := {
  pr_ring : ring_rep PIPESIZE (data p) (nread p) l;
  pr_nwrite : nwrite p = u32 (nread p + Z.of_nat (length l))
}.

Lemma pipe_size : 0 < PIPESIZE < 2 ^ 31.
Proof. done. Qed.
Lemma pipe_div : (2 ^ 32) mod PIPESIZE = 0.
Proof. done. Qed.

Lemma pipe_full p l :
  pipe_rep p l -> (nwrite p =? u32 (nread p + PIPESIZE)) = (Z.of_nat (length l) =? PIPESIZE).
Proof.
  intros [A1 A2]. apply Bool.eq_iff_eq_true. rewrite !Z.eqb_eq, A2.
  exact (ring_full _ pipe_size _ _ _ A1).
Qed.

Lemma pipe_empty p l : pipe_rep p l -> (nread p =? nwrite p) = bool_decide (l = []).
Proof.
  intros [A1 A2]. apply Bool.eq_iff_eq_true. rewrite Z.eqb_eq, bool_decide_eq_true, A2.
  rewrite <- (ring_empty _ pipe_size _ _ _ A1). done.
Qed.

Lemma put_rep p l c :
  pipe_rep p l -> Z.of_nat (length l) < PIPESIZE -> is_byte c -> pipe_rep (put c p) (l ++ [c]).
Proof.
  intros [A1 A2] Hl Hc. constructor; simpl.
  - rewrite A2, u8_small by done. by apply (ring_push _ pipe_size pipe_div).
  - rewrite A2, u32_succ, length_app. f_equal. simpl. lia.
Qed.

Lemma get_rep p c l : pipe_rep p (c :: l) -> (get p).1 = c /\ pipe_rep (get p).2 l.
Proof.
  intros [A1 A2]. destruct (ring_pop _ pipe_size pipe_div _ _ _ _ A1) as [Hc Hr]. split.
  - simpl. rewrite u32_small in Hc by (pose proof (rr_r _ _ _ _ A1); zlia). by apply nth_lookup_Some.
  - constructor; simpl; [done|]. rewrite A2. simpl length. unfold u32. zlia.
Qed.

(** A write puts a prefix of its bytes at the end of the queue; it stops early
    only at a full pipe. *)
Lemma pipewrite_spec killed n addr p l :
  pipe_rep p l -> bytes_ok addr ->
  exists pre left st p' wk, pipewrite_loop killed n addr p = (st, left, p', wk) /\ addr = pre ++ left /\
    pipe_rep p' (l ++ pre) /\ readopen p' = readopen p /\ writeopen p' = writeopen p /\
    match st with
    | Sleeps c => c = NWRITE /\ wk = [NREAD] /\
        left <> [] /\ Z.of_nat (length (l ++ pre)) = PIPESIZE /\ readopen p <> 0 /\ killed = false
    | Returns r => r = n /\ left = [] /\ wk = [NREAD] \/ r = -1 /\ (readopen p = 0 \/ killed = true)
    end.
Proof.
  revert p l. induction addr as [|c addr IH]; intros p l Hp Hb; cbn [pipewrite_loop].
  - exists [], [], (Returns n), p, [NREAD]. rewrite (app_nil_r l). split_and!; try done. by left.
  - apply Forall_cons in Hb as [Hc Hb]. rewrite (pipe_full _ _ Hp).
    destruct (Z.eqb_spec (Z.of_nat (length l)) PIPESIZE) as [Hf|Hf].
    + exists [], (c :: addr). rewrite (app_nil_r l). destruct (Z.eqb_spec (readopen p) 0), killed; simpl;
        eexists _, p, _; split_and!; try done; try (right; tauto).
    + pose proof (rr_room _ _ _ _ (pr_ring _ _ Hp)).
      destruct (IH (put c p) (l ++ [c])) as (pre & left & st & p' & wk & E & -> & Hp' & Er & Ew & Hst);
        [apply put_rep; [done|lia|done]|done|].
      exists (c :: pre), left, st, p', wk. rewrite <- app_assoc in *. split_and!; done.
Qed.

(** A read takes the oldest bytes of the queue, as many as there are up to [n]. *)
Lemma piperead_spec n p l :
  pipe_rep p l ->
  exists p', piperead_loop n p = (take n l, p') /\ pipe_rep p' (drop n l) /\
    readopen p' = readopen p /\ writeopen p' = writeopen p.
Proof.
  revert p l. induction n as [|n IH]; intros p l Hp; cbn [piperead_loop].
  - exists p. rewrite drop_0. done.
  - rewrite (pipe_empty _ _ Hp). destruct l as [|c l]; [by exists p|]. simpl bool_decide. cbv iota.
    destruct (get_rep _ _ _ Hp) as [Hc Hp1]. destruct (get p) as [c' p1] eqn:Eg. simpl in Hc, Hp1.
    destruct (IH p1 l Hp1) as (p' & E & Hp' & Er & Ew). rewrite E, Hc. exists p'.
    unfold get in Eg. injection Eg as <- <-. done.
Qed.

(** ** Readers, writers and closers in any order *)

(** The pipe with the history of the bytes written to it and read from it. *)
Record hist := mkHist { h_pipe : pipe; h_in : list Z; h_out : list Z }.

Inductive step : hist -> hist -> Prop :=
| step_write p i o killed n addr st left p' wk :
    bytes_ok addr -> pipewrite_loop killed n addr p = (st, left, p', wk) ->
    step (mkHist p i o) (mkHist p' (i ++ take (length addr - length left) addr) o)
| step_read p i o killed n st got p' wk :
    piperead killed n p = (st, got, p', wk) ->
    step (mkHist p i o) (mkHist p' i (o ++ got))
| step_close p i o w p' freed wk :
    pipeclose w p = (p', freed, wk) -> step (mkHist p i o) (mkHist p' i o).

Definition fifo (h : hist) : Prop := exists l, pipe_rep (h_pipe h) l /\ h_in h = h_out h ++ l.

Lemma pipeinit_rep junk : length junk = Z.to_nat PIPESIZE -> pipe_rep (pipeinit junk) [].
Proof. intros Hj. by constructor. Qed.

Lemma step_fifo h h' : fifo h -> step h h' -> fifo h'.
Proof.
  intros (l & Hl & Eh) Hs. destruct Hs as [p i o k n addr st left p' wk Hb E|p i o k n st got p' wk E|p i o w p' fr wk E];
    simpl in *.
  - destruct (pipewrite_spec k n addr p l Hl Hb) as (pre & lf & st' & p1 & wk' & E1 & -> & Hp' & _).
    rewrite E in E1. injection E1 as _ <- <- _. exists (l ++ pre). split; [done|]. simpl.
    rewrite length_app, Nat.add_sub, take_app_length, Eh. by rewrite app_assoc.
  - unfold piperead in E. destruct (_ && _).
    + exists l. destruct k; injection E as <- <- <- <-; by rewrite app_nil_r.
    + destruct (piperead_spec (Z.to_nat n) p l Hl) as (p1 & E1 & Hp1 & _). rewrite E1 in E.
      injection E as _ <- <- _. exists (drop (Z.to_nat n) l). split; [done|]. simpl.
      by rewrite Eh, <- app_assoc, take_drop.
  - exists l. split; [|done]. unfold pipeclose in E. destruct Hl as [A1 A2].
    destruct (negb (w =? 0)); injection E as <- _ _; by constructor.
Qed.

(** C38. Pipes are first in, first out: after any interleaving of reads, writes
    and closes on a new pipe, the bytes written are the bytes read followed by
    the at most 512 bytes still in the ring; nothing is lost, duplicated or
    reordered, also when the counters wrap around. *)
Theorem pipe_fifo junk h :
  length junk = Z.to_nat PIPESIZE ->
  rtc step (mkHist (pipeinit junk) [] []) h ->
  exists l, h_in h = h_out h ++ l /\ Z.of_nat (length l) <= PIPESIZE /\ pipe_rep (h_pipe h) l.
Proof.
  intros Hj Hr. assert (fifo h) as (l & Hl & E).
  { apply (rtc_ind_r fifo) in Hr; [done| |].
    - exists []. split; [by apply pipeinit_rep|done].
    - intros y z _ Hs Hy. by eapply step_fifo. }
  exists l. split_and!; [done|apply (rr_room _ _ _ _ (pr_ring _ _ Hl))|done].
Qed.

Definition junk_page : list Z := replicate 512 1.
Lemma pipe_fifo_witness :
  exists h, rtc step (mkHist (pipeinit junk_page) [] []) h /\ h_in h = [7; 8; 9] /\ h_out h = [7; 8] /\
    exists l, h_in h = h_out h ++ l.
Proof.
  set (p1 := (pipewrite false [7; 8; 9] (pipeinit junk_page)).1.2).
  set (p2 := (piperead false 2 p1).1.2).
  assert (rtc step (mkHist (pipeinit junk_page) [] []) (mkHist p2 [7; 8; 9] [7; 8])) as Hr.
  { eapply rtc_l; [|eapply rtc_l; [|apply rtc_refl]].
    - apply (step_write _ [] [] false 3 [7; 8; 9] (Returns 3) [] p1 [NREAD]); [|vm_compute; reflexivity].
      repeat constructor; unfold is_byte; lia.
    - apply (step_read _ [7; 8; 9] [] false 2 (Returns 2) [7; 8] p2 [NWRITE]). vm_compute. reflexivity. }
  exists (mkHist p2 [7; 8; 9] [7; 8]). split; [exact Hr|]. split; [reflexivity|]. split; [reflexivity|].
  destruct (pipe_fifo junk_page _ eq_refl Hr) as (l & E & _). exists l. exact E.
Defined.

(** ** A writer and a reader of a message

    One process writes a message and closes its end; the other reads at most [m] bytes at a time until
    [piperead] returns 0.  A process that sleeps runs again only after a [wakeup] of its channel. *)

Inductive wprog := WWrite (rest : list Z) | WClose | WDone.
Record conf := mkConf {
  c_pipe : pipe;
  c_w : wprog; c_wsleep : option chan;
  c_end : bool; c_rsleep : option chan;
  c_got : list Z
}.

Definition wake (woken : list chan) (o : option chan) : option chan :=
  match o with Some c => if decide (c ∈ woken) then None else Some c | None => None end.
Definition asleep (st : status) : option chan := match st with Sleeps c => Some c | Returns _ => None end.

Inductive sched (m : Z) : conf -> conf -> Prop :=
| sched_write p n rest st left p' wk e rs got :
    pipewrite_loop false n rest p = (st, left, p', wk) ->
    sched m (mkConf p (WWrite rest) None e rs got)
      (mkConf p' (match st with Returns _ => WClose | Sleeps _ => WWrite left end) (asleep st) e (wake wk rs) got)
| sched_close p p' freed wk e rs got :
    pipeclose 1 p = (p', freed, wk) ->
    sched m (mkConf p WClose None e rs got) (mkConf p' WDone None e (wake wk rs) got)
| sched_read p w ws st bs p' wk got :
    piperead false m p = (st, bs, p', wk) ->
    sched m (mkConf p w ws false None got)
      (mkConf p' w (wake wk ws) (match st with Returns r => r =? 0 | Sleeps _ => false end) (asleep st) (got ++ bs)).

Definition unwritten (w : wprog) : list Z := match w with WWrite rest => rest | _ => [] end.

(** Whoever sleeps has a reason to: the writer a full pipe, the reader an empty one that can still be written to. *)
Record conf_ok (msg : list Z) (c : conf) (l : list Z) : Prop := {
  co_rep : pipe_rep (c_pipe c) l;
  co_msg : msg = c_got c ++ l ++ unwritten (c_w c);
  co_bytes : bytes_ok (unwritten (c_w c));
  co_read : readopen (c_pipe c) <> 0;
  co_write : writeopen (c_pipe c) = match c_w c with WDone => 0 | _ => 1 end;
  co_end : c_end c = true -> l = [] /\ c_w c = WDone;
  co_wsleep : forall ch, c_wsleep c = Some ch ->
    ch = NWRITE /\ Z.of_nat (length l) = PIPESIZE /\ unwritten (c_w c) <> [];
  co_rsleep : forall ch, c_rsleep c = Some ch -> ch = NREAD /\ l = [] /\ c_w c <> WDone
}.

Definition stage (w : wprog) : nat := match w with WWrite _ => 4 | WClose => 2 | WDone => 0 end.
Definition awake (o : option chan) : nat := match o with None => 1 | Some _ => 0 end.
(** What is left to do. *)
Definition todo (c : conf) (l : list Z) : nat :=
  (6 * length (unwritten (c_w c)) + 3 * length l + stage (c_w c) + awake (c_wsleep c) + awake (c_rsleep c) +
   (if c_end c then 0 else 2))%nat.

Lemma awake_le o : (awake o <= 1)%nat.
Proof. destruct o; simpl; lia. Qed.
Lemma wake_none ch woken o : ch ∈ woken -> (forall c, o = Some c -> c = ch) -> wake woken o = None.
Proof. intros Hc Ho. destruct o as [c|]; [|done]. simpl. rewrite (Ho c eq_refl). by rewrite decide_True. Qed.

Lemma sched_write_ok msg p n rest e rs got l st left p' wk :
  conf_ok msg (mkConf p (WWrite rest) None e rs got) l -> pipewrite_loop false n rest p = (st, left, p', wk) ->
  let c' := mkConf p' (match st with Returns _ => WClose | Sleeps _ => WWrite left end) (asleep st) e (wake wk rs) got in
  exists l', conf_ok msg c' l' /\ (todo c' l' < todo (mkConf p (WWrite rest) None e rs got) l)%nat.
Proof.
  intros [Hp Hm Hb Hr Hw He _ Hrs] E c'. simpl in *.
  destruct (pipewrite_spec false n rest p l Hp Hb) as (pre & lf & st1 & p1 & wk1 & E1 & -> & Hp1 & Er & Ew & Hst).
  rewrite E in E1. injection E1 as <- <- <- <-. exists (l ++ pre). pose proof (awake_le rs) as Ha.
  assert (wake [NREAD] rs = None) as Ewk by (apply (wake_none NREAD); [set_solver|intros ch Hch; by apply Hrs]).
  assert (e = false) as -> by (destruct e; [by destruct (He eq_refl)|done]).
  apply Forall_app in Hb as [_ Hb]. destruct st as [r|ch].
  - destruct Hst as [(-> & -> & ->)|(_ & [?|?])]; [|done..]. unfold c', todo. simpl in *. split.
    + constructor; simpl; rewrite ?app_nil_r in *; try done; [by rewrite Er|by rewrite Ew|by rewrite Ewk].
    + rewrite Ewk, !length_app. simpl. lia.
  - destruct Hst as (-> & -> & Hl & Hfull & _). unfold c', todo. simpl. split.
    + constructor; simpl; try done; [by rewrite <- !app_assoc|by rewrite Er|by rewrite Ew|by intros ch [= <-]|by rewrite Ewk].
    + rewrite Ewk, !length_app in *. destruct pre as [|x pre]; simpl in *; [|lia].
      destruct rs as [ch|]; [|simpl; lia]. destruct (Hrs ch eq_refl) as (_ & -> & _). done.
Qed.

Lemma sched_close_ok msg p e rs got l p' freed wk :
  conf_ok msg (mkConf p WClose None e rs got) l -> pipeclose 1 p = (p', freed, wk) ->
  let c' := mkConf p' WDone None e (wake wk rs) got in
  exists l', conf_ok msg c' l' /\ (todo c' l' < todo (mkConf p WClose None e rs got) l)%nat.
Proof.
  intros [Hp Hm Hb Hr Hw He _ Hrs] [= <- _ <-] c'. simpl in *. exists l. unfold c', todo. simpl.
  assert (wake [NREAD] rs = None) as -> by (apply (wake_none NREAD); [set_solver|intros ch Hch; by apply Hrs]).
  split; [|destruct rs; simpl in *; lia]. constructor; simpl; try done; [by destruct Hp; constructor|by intros [_ ?]%He].
Qed.

Lemma sched_read_ok m msg p w ws got l st bs p' wk : 0 < m ->
  conf_ok msg (mkConf p w ws false None got) l -> piperead false m p = (st, bs, p', wk) ->
  let c' := mkConf p' w (wake wk ws) (match st with Returns r => r =? 0 | Sleeps _ => false end) (asleep st) (got ++ bs) in
  exists l', conf_ok msg c' l' /\ (todo c' l' < todo (mkConf p w ws false None got) l)%nat.
Proof.
  intros Hm0 [Hp Hm Hb Hr Hw He Hws _] E c'. simpl in *. unfold piperead in E. rewrite (pipe_empty _ _ Hp), Hw in E.
  pose proof (awake_le (wake wk ws)) as Ha. destruct (piperead_spec (Z.to_nat m) p l Hp) as (p1 & E1 & Hp1 & Er & Ew).
  destruct (bool_decide (l = []) && negb (match w with WDone => 0 | _ => 1 end =? 0)) eqn:Eb.
  - injection E as <- <- <- <-. apply andb_true_iff in Eb as [->%bool_decide_eq_true Hne]. exists []. unfold c', todo. simpl.
    split; [|destruct ws; simpl in *; lia]. constructor; simpl; rewrite ?app_nil_r; try done.
    + intros ch Hch. destruct ws as [c0|]; [|done]. by destruct (Hws c0 eq_refl) as (_ & [=] & _).
    + intros ch [= <-]. split_and!; [done..|]. by intros ->.
  - rewrite E1 in E. injection E as <- <- <- <-. exists (drop (Z.to_nat m) l). unfold c', todo. simpl.
    assert (wake [NWRITE] ws = None) as Ewk by (apply (wake_none NWRITE); [set_solver|intros ch Hch; by apply Hws]).
    rewrite Ewk, length_drop, length_take. destruct l as [|x l].
    + simpl in *. rewrite !take_nil, drop_nil in *. destruct w; try done. rewrite Nat.min_0_r.
      assert (ws = None) as -> by (destruct ws as [ch|]; [by destruct (Hws ch eq_refl) as (_ & _ & ?)|done]). split; [|simpl; lia].
      constructor; simpl; rewrite ?app_nil_r, ?Er, ?Ew; try done. by rewrite Hm, !app_nil_r.
    + assert (0 < Z.to_nat m)%nat by lia. simpl length. split.
      2:{ rewrite (proj2 (Z.eqb_neq _ 0)) by lia. simpl. pose proof (awake_le ws). lia. }
      constructor; simpl; try done; [|by rewrite Er|by rewrite Ew|].
      * rewrite Hm, <- !app_assoc. f_equal. by rewrite app_assoc, take_drop.
      * intros ?%Z.eqb_eq. lia.
Qed.

Lemma sched_ok m msg c c' l : 0 < m -> conf_ok msg c l -> sched m c c' ->
  exists l', conf_ok msg c' l' /\ (todo c' l' < todo c l)%nat.
Proof.
  intros Hm Hc Hs. destruct Hs as [p n rest st left p' wk e rs got E|p p' fr wk e rs got E|p w ws st bs p' wk got E].
  - by eapply sched_write_ok.
  - by eapply sched_close_ok.
  - by eapply sched_read_ok.
Qed.

(** Somebody can run, or all is done. *)
Lemma sched_progress m msg c l : conf_ok msg c l ->
  (exists c', sched m c c') \/ (c_w c = WDone /\ c_end c = true /\ c_got c = msg).
Proof.
  destruct c as [p w ws e rs got]. intros [_ Hm _ _ _ He Hws Hrs]. simpl in *.
  assert (e = false -> rs = None -> exists c', sched m (mkConf p w ws e rs got) c') as Hread.
  { intros -> ->. destruct (piperead false m p) as [[[st bs] p'] wk] eqn:E. eexists. by eapply sched_read. }
  destruct ws as [ch|].
  - destruct (Hws ch eq_refl) as (_ & Hfull & Hu). left. apply Hread.
    + destruct e; [|done]. by destruct (He eq_refl) as [-> _].
    + destruct rs as [ch'|]; [|done]. by destruct (Hrs ch' eq_refl) as (_ & -> & _).
  - destruct w as [rest| |].
    + left. destruct (pipewrite_loop false 0 rest p) as [[[st left] p'] wk] eqn:E. eexists. by eapply sched_write.
    + left. destruct (pipeclose 1 p) as [[p' fr] wk] eqn:E. eexists. by eapply sched_close.
    + destruct e.
      * right. destruct (He eq_refl) as [-> _]. by rewrite Hm, !app_nil_r.
      * left. apply Hread; [done|]. destruct rs as [ch'|]; [|done]. by destruct (Hrs ch' eq_refl) as (_ & _ & ?).
Qed.

Definition begun (junk msg : list Z) : conf := mkConf (pipeinit junk) (WWrite msg) None false None [].

Lemma begun_ok junk msg : length junk = Z.to_nat PIPESIZE -> bytes_ok msg -> conf_ok msg (begun junk msg) [].
Proof. intros Hj Hb. constructor; simpl; try done; by apply pipeinit_rep. Qed.

Lemma nsteps_ok m msg k c c' l : 0 < m -> conf_ok msg c l -> nsteps (sched m) k c c' ->
  exists l', conf_ok msg c' l' /\ (k + todo c' l' <= todo c l)%nat.
Proof.
  intros Hm Hc Hs. revert l Hc. induction Hs as [c|k c c1 c' Hs _ IH]; intros l Hc; [by exists l|].
  destruct (sched_ok _ _ _ _ _ Hm Hc Hs) as (l1 & Hc1 & Ht1). destruct (IH l1 Hc1) as (l' & Hc' & Ht). exists l'. split; [done|lia].
Qed.

(** C39. Every byte gets through.  A process writes a message of any length to a new pipe and closes it; another
    reads, at most [m] bytes at a time, to the end of the file.  However the two are scheduled, and although each may only
    run while it is awake, no run is longer than six steps for each byte and eight more; and a run that cannot go on
    is one in which both are done and the reader has exactly the message.  So no [wakeup] is missing and neither waits for ever. *)
Theorem pipe_transfer m junk msg k c :
  0 < m -> bytes_ok msg -> length junk = Z.to_nat PIPESIZE -> nsteps (sched m) k (begun junk msg) c ->
  (k <= 6 * length msg + 8)%nat /\
  ((exists c', sched m c c') \/ (c_w c = WDone /\ c_end c = true /\ c_got c = msg)).
Proof.
  intros Hm Hb Hj Hs. destruct (nsteps_ok m msg _ _ _ _ Hm (begun_ok junk msg Hj Hb) Hs) as (l & Hc & Ht). split.
  - unfold todo at 2 in Ht. simpl in Ht. lia.
  - by eapply sched_progress.
Qed.

(** The run that resumes the writer whenever it is awake, and else lets the reader take [m] bytes. *)
Definition run1 (m : Z) (c : conf) : option conf :=
  match c_w c, c_wsleep c with
  | WWrite rest, None =>
      let '(st, lf, p', wk) := pipewrite_loop false 0 rest (c_pipe c) in
      Some (mkConf p' (match st with Returns _ => WClose | Sleeps _ => WWrite lf end) (asleep st) (c_end c) (wake wk (c_rsleep c)) (c_got c))
  | WClose, None =>
      let '(p', _, wk) := pipeclose 1 (c_pipe c) in Some (mkConf p' WDone None (c_end c) (wake wk (c_rsleep c)) (c_got c))
  | _, _ =>
      match c_end c, c_rsleep c with
      | false, None =>
          let '(st, bs, p', wk) := piperead false m (c_pipe c) in
          Some (mkConf p' (c_w c) (wake wk (c_wsleep c)) (match st with Returns r => r =? 0 | Sleeps _ => false end) (asleep st) (c_got c ++ bs))
      | _, _ => None
      end
  end.
Fixpoint run (k : nat) (m : Z) (c : conf) : nat * conf :=
  match k with
  | O => (0%nat, c)
  | S k' => match run1 m c with Some c' => let (n, c'') := run k' m c' in (S n, c'') | None => (0%nat, c) end
  end.
Lemma run1_sched m c c' : run1 m c = Some c' -> sched m c c'.
Proof.
  destruct c as [p w ws e rs got]. unfold run1. cbn [c_pipe c_w c_wsleep c_end c_rsleep c_got]. intros H.
  assert (match e, rs with false, None => let '(st, bs, p', wk) := piperead false m p in
      Some (mkConf p' w (wake wk ws) (match st with Returns r => r =? 0 | Sleeps _ => false end) (asleep st) (got ++ bs))
    | _, _ => None end = Some c' -> sched m (mkConf p w ws e rs got) c') as Hread.
  { destruct e, rs; try done. destruct (piperead false m p) as [[[st bs] p'] wk] eqn:E. intros [= <-]. by apply sched_read. }
  destruct w as [rest| |], ws as [ch|]; auto.
  - destruct (pipewrite_loop false 0 rest p) as [[[st left] p'] wk] eqn:E. injection H as <-. by apply (sched_write m p 0 rest).
  - destruct (pipeclose 1 p) as [[p' fr] wk] eqn:E. injection H as <-. by apply (sched_close m p p' fr).
Qed.
Lemma run_nsteps k m c : nsteps (sched m) (run k m c).1 c (run k m c).2.
Proof.
  revert c. induction k as [|k IH]; intros c; simpl; [constructor|]. destruct (run1 m c) as [c'|] eqn:E; [|constructor].
  specialize (IH c'). destruct (run k m c') as [n c'']. simpl in *. econstructor; [by apply run1_sched|done].
Qed.

(** 600 bytes, read 100 at a time. *)
Lemma pipe_transfer_witness :
  let r := run 100 100 (begun junk_page (replicate 600 5)) in
  (r.1 = 10)%nat /\ c_end r.2 = true /\ c_got r.2 = replicate 600 5 /\ (r.1 <= 6 * 600 + 8)%nat.
Proof.
  intros r. destruct (pipe_transfer 100 junk_page (replicate 600 5) r.1 r.2) as [Hk _].
  - lia.
  - apply Forall_replicate. unfold is_byte. lia.
  - reflexivity.
  - apply run_nsteps.
  - split; [|split; [|split; [|exact Hk]]]; vm_compute; reflexivity.
Defined.
