(* ===== verification/Spinlock.v ===== *)
(** * Spin locks and interrupt nesting: spinlock.c

    [pushcli]/[popcli] act on one CPU's interrupt flag and nesting counter.
    [acquire] and [release] are split at every access to the shared lock word,
    and [step] interleaves the CPUs at those points, so the proofs cover every
    order of the atomic [xchg]s and of the accesses to [lk->cpu]. *)

From S2P Require Import Prelude.

Definition FL_IF : Z := 0x200.

(** The part of [struct cpu] used here, with the processor's flags register. *)
Record cpu := mkCpu { eflags : Z; ncli : Z; intena : Z }.

Definition readeflags (c : cpu) : Z := eflags c.
Definition cli (c : cpu) : cpu := mkCpu (Z.land (eflags c) (Z.lnot FL_IF)) (ncli c) (intena c).
Definition sti (c : cpu) : cpu := mkCpu (Z.lor (eflags c) FL_IF) (ncli c) (intena c).

Definition pushcli (c : cpu) : cpu :=
  let fl := readeflags c in
  let c := cli c in
  if ncli c =? 0 then mkCpu (eflags c) (s32 (ncli c + 1)) (Z.land fl FL_IF)
  else mkCpu (eflags c) (s32 (ncli c + 1)) (intena c).

(** [None] is a panic. *)
Definition popcli (c : cpu) : option cpu :=
  if negb (Z.land (readeflags c) FL_IF =? 0) then None
  else
    let c := mkCpu (eflags c) (s32 (ncli c - 1)) (intena c) in
    if ncli c <? 0 then None
    else if (ncli c =? 0) && negb (intena c =? 0) then Some (sti c) else Some c.

(** [struct spinlock]: [lk_cpu] is the CPU that holds it, if recorded. *)
Record spinlock := mkLock { locked : Z; lk_cpu : option nat }.
Definition initlock : spinlock := mkLock 0 None.
Definition holding (me : nat) (lk : spinlock) : bool :=
  negb (locked lk =? 0) && bool_decide (lk_cpu lk = Some me).

(** ** Nesting *)

(** Interrupts are off while [ncli] is positive. *)
Definition cpu_ok (c : cpu) : Prop :=
  0 <= ncli c < 2 ^ 31 - 1 /\ (0 < ncli c -> Z.land (eflags c) FL_IF = 0) /\
  (intena c = 0 \/ intena c = FL_IF).

Definition ints (c : cpu) : bool := negb (Z.land (eflags c) FL_IF =? 0).

Lemma land_if_cases x : Z.land x FL_IF = 0 \/ Z.land x FL_IF = FL_IF.
Proof.
  change FL_IF with (2 ^ 9). destruct (Z.testbit x 9) eqn:E; [right|left]; apply Z.bits_inj'; intros k Hk;
    rewrite Z.land_spec, ?Z.bits_0; destruct (decide (k = 9)) as [->|];
    rewrite ?Z.pow2_bits_true, ?Z.pow2_bits_false by lia; rewrite ?E; try done; apply andb_false_r.
Qed.

Lemma cli_off c : Z.land (eflags (cli c)) FL_IF = 0.
Proof.
  simpl. rewrite <- Z.land_assoc, (Z.land_comm (Z.lnot FL_IF)), Z.land_lnot_diag. apply Z.land_0_r.
Qed.
Lemma sti_on c : Z.land (eflags (sti c)) FL_IF = FL_IF.
Proof. simpl. rewrite Z.land_lor_distr_l, Z.land_diag. by destruct (land_if_cases (eflags c)) as [-> | ->]. Qed.

Lemma pushcli_ok c :
  cpu_ok c -> ncli c < 2 ^ 31 - 2 ->
  cpu_ok (pushcli c) /\ ncli (pushcli c) = ncli c + 1 /\ ints (pushcli c) = false /\
  (ncli c = 0 -> negb (intena (pushcli c) =? 0) = ints c) /\
  (ncli c <> 0 -> intena (pushcli c) = intena c).
Proof.
  intros (Hn & Hoff & Hi) Hlt. unfold pushcli, ints, cpu_ok. pose proof (cli_off c) as Hc. simpl in Hc.
  destruct (Z.eqb_spec (ncli (cli c)) 0) as [E|E]; simpl in *; rewrite s32_small by zlia.
  - split_and!; try done; try lia; first [apply land_if_cases|by rewrite Hc].
  - split_and!; try done; try lia.
Qed.

Lemma popcli_ok c :
  cpu_ok c -> 0 < ncli c ->
  exists c', popcli c = Some c' /\ cpu_ok c' /\ ncli c' = ncli c - 1 /\ intena c' = intena c /\
    (ncli c <> 1 -> ints c' = false) /\ (ncli c = 1 -> ints c' = negb (intena c =? 0)).
Proof.
  intros (Hn & Hoff & Hi) Hp. unfold popcli, readeflags. rewrite Hoff by done. simpl.
  rewrite s32_small by zlia. destruct (Z.ltb_spec (ncli c - 1) 0); [lia|].
  destruct (Z.eqb_spec (ncli c - 1) 0) as [E|E]; simpl.
  - destruct (Z.eqb_spec (intena c) 0) as [E0|E0]; simpl; eexists; split; [done| |done|].
    + unfold cpu_ok, ints. simpl. rewrite Hoff by done. split_and!; try done; try lia; by rewrite E0.
    + pose proof (sti_on (mkCpu (eflags c) (ncli c - 1) (intena c))) as Hs. unfold cpu_ok, ints. simpl in *.
      rewrite Hs. split_and!; try done; lia.
  - eexists. split; [done|]. unfold cpu_ok, ints. simpl. rewrite Hoff by done. split_and!; try done; lia.
Qed.

(** A sequence of [pushcli] ([true]) and [popcli] ([false]) calls, its nesting
    depth, and whether no prefix pops more than it pushed. *)
Fixpoint run (ops : list bool) (c : cpu) : option cpu :=
  match ops with
  | [] => Some c
  | true :: ops' => run ops' (pushcli c)
  | false :: ops' => match popcli c with Some c' => run ops' c' | None => None end
  end.
Fixpoint nesting (ops : list bool) (d : Z) : option Z :=
  match ops with
  | [] => Some d
  | true :: ops' => nesting ops' (d + 1)
  | false :: ops' => if d <=? 0 then None else nesting ops' (d - 1)
  end.

(** [i0]: whether interrupts were on before the outermost [pushcli]. *)
Definition nest_inv (i0 : bool) (c : cpu) : Prop :=
  cpu_ok c /\ if ncli c =? 0 then ints c = i0 else ints c = false /\ negb (intena c =? 0) = i0.

Lemma run_nested i0 ops c d :
  nest_inv i0 c -> ncli c + Z.of_nat (length ops) < 2 ^ 31 - 1 -> nesting ops (ncli c) = Some d ->
  exists c', run ops c = Some c' /\ nest_inv i0 c' /\ ncli c' = d.
Proof.
  revert c. induction ops as [|[|] ops IH]; intros c Hc Hl Hd; simpl in Hd, Hl.
  - injection Hd as <-. by exists c.
  - destruct Hc as [Hok Hi]. destruct (pushcli_ok c Hok) as (Hok' & En & Hf & H0 & H1); [lia|].
    rewrite <- En in Hd. apply IH; [|lia|done]. split; [done|].
    destruct Hok as [Hn _]. rewrite En, (proj2 (Z.eqb_neq (ncli c + 1) 0)) by lia. split; [done|].
    destruct (Z.eqb_spec (ncli c) 0) as [E|E]; [by rewrite H0|]. rewrite H1 by done. apply Hi.
  - destruct (Z.leb_spec (ncli c) 0); [done|]. destruct Hc as [Hok Hi].
    destruct (popcli_ok c Hok) as (c' & E & Hok' & En & Ei & H2 & H1); [done|]. cbn [run]. rewrite E.
    rewrite (proj2 (Z.eqb_neq (ncli c) 0)) in Hi by lia. rewrite <- En in Hd.
    apply IH; [|lia|done]. split; [done|]. rewrite En, Ei.
    destruct (Z.eqb_spec (ncli c - 1) 0) as [E1|E1]; [rewrite H1 by lia; apply Hi|].
    split; [apply H2; lia|apply Hi].
Qed.

(** [pushcli]/[popcli] nest: a sequence in which no prefix pops more than it
    pushed does not panic; interrupts are off while some [pushcli] is
    unmatched, and are what they were before once all are matched. *)
Theorem pushcli_popcli_nest ops c d :
  cpu_ok c -> ncli c = 0 -> Z.of_nat (length ops) < 2 ^ 31 - 1 -> nesting ops 0 = Some d ->
  exists c', run ops c = Some c' /\ ncli c' = d /\ ints c' = if d =? 0 then ints c else false.
Proof.
  intros Hok Hn Hl Hd. destruct (run_nested (ints c) ops c d) as (c' & E & [_ Hi] & En).
  - split; [done|]. by rewrite Hn.
  - lia.
  - by rewrite Hn.
  - exists c'. rewrite En in Hi. destruct (d =? 0); [done|]. by destruct Hi.
Qed.

Lemma pushcli_popcli_nest_witness :
  exists c', run [true; true; false; true; false; false] (mkCpu 0x246 0 0) = Some c' /\
    ncli c' = 0 /\ ints c' = true.
Proof.
  destruct (pushcli_popcli_nest [true; true; false; true; false; false] (mkCpu 0x246 0 0) 0)
    as (c' & E & En & Ei).
  - repeat split; simpl; try lia.
  - reflexivity.
  - simpl. lia.
  - reflexivity.
  - exists c'. split; [exact E|]. split; [exact En|exact Ei].
Defined.

(** ** The lock *)

(** Where a CPU is in [acquire] or [release]. *)
Inductive pc :=
| Outside        (** not using the lock *)
| Spinning       (** after [pushcli] and the check, before a successful [xchg] *)
| Recording      (** [xchg] returned 0, [lk->cpu = cpu] to come *)
| Critical       (** [acquire] has returned *)
| Clearing       (** [release] passed its check *)
| Unlocking      (** [lk->cpu = 0] done, [xchg(&lk->locked, 0)] to come *)
| Popping        (** the lock is free, [popcli] to come *)
| Panicked.

Record machine := mkMachine { lk : spinlock; pcs : nat -> pc; cpus : nat -> cpu }.
Definition set_pc (i : nat) (x : pc) (f : nat -> pc) : nat -> pc := fun j => if decide (j = i) then x else f j.
Definition set_cpu (i : nat) (x : cpu) (f : nat -> cpu) : nat -> cpu := fun j => if decide (j = i) then x else f j.

(** [xchg(&lk->locked, v)]: the old value, and the lock with the new one. *)
Definition xchg (v : Z) (l : spinlock) : Z * spinlock := (locked l, mkLock v (lk_cpu l)).

(** One access to the lock per step, but for the tests of [holding]: [pushcli] in front of the first touches the state of
    the own CPU only, and whether [lk->cpu] is CPU [i] is changed by CPU [i] alone. *)
Definition step_cpu (i : nat) (m : machine) : machine :=
  let at_ l x c := mkMachine l (set_pc i x (pcs m)) (set_cpu i c (cpus m)) in
  let c := cpus m i in
  match pcs m i with
  | Outside => let c := pushcli c in
               if holding i (lk m) then at_ (lk m) Panicked c else at_ (lk m) Spinning c
  | Spinning => let (old, l) := xchg 1 (lk m) in
                if negb (old =? 0) then at_ l Spinning c else at_ l Recording c
  | Recording => at_ (mkLock (locked (lk m)) (Some i)) Critical c
  | Critical => if negb (holding i (lk m)) then at_ (lk m) Panicked c else at_ (lk m) Clearing c
  | Clearing => at_ (mkLock (locked (lk m)) None) Unlocking c
  | Unlocking => let (_, l) := xchg 0 (lk m) in at_ l Popping c
  | Popping => match popcli c with Some c' => at_ (lk m) Outside c' | None => at_ (lk m) Panicked c end
  | Panicked => m
  end.

Inductive step : machine -> machine -> Prop :=
| step_any i m : step m (step_cpu i m).

Definition owns (x : pc) : bool :=
  match x with Recording | Critical | Clearing | Unlocking => true | _ => false end.
Definition recorded (x : pc) : bool :=
  match x with Critical | Clearing => true | _ => false end.

Record lock_inv (i0 : nat -> bool) (m : machine) : Prop := {
  li_one : forall i j, owns (pcs m i) = true -> owns (pcs m j) = true -> i = j;
  li_locked : locked (lk m) = 1 /\ (exists i, owns (pcs m i) = true) \/
              locked (lk m) = 0 /\ forall i, owns (pcs m i) = false;
  li_cpu : forall i, lk_cpu (lk m) = Some i <-> recorded (pcs m i) = true;
  li_safe : forall i, pcs m i <> Panicked;
  li_nest : forall i, nest_inv (i0 i) (cpus m i) /\
    ncli (cpus m i) = match pcs m i with Outside => 0 | _ => 1 end
}.

Lemma recorded_owns x : recorded x = true -> owns x = true.
Proof. by destruct x. Qed.

(** CPU [i] moves to [x], keeping the nesting discipline. *)
Lemma nest_set (i0 : nat -> bool) m i x c l :
  (forall j, nest_inv (i0 j) (cpus m j) /\ ncli (cpus m j) = match pcs m j with Outside => 0 | _ => 1 end) ->
  nest_inv (i0 i) c -> ncli c = match x with Outside => 0 | _ => 1 end ->
  forall j, nest_inv (i0 j) (cpus (mkMachine l (set_pc i x (pcs m)) (set_cpu i c (cpus m))) j) /\
    ncli (cpus (mkMachine l (set_pc i x (pcs m)) (set_cpu i c (cpus m))) j) =
      match pcs (mkMachine l (set_pc i x (pcs m)) (set_cpu i c (cpus m))) j with Outside => 0 | _ => 1 end.
Proof. intros Hn Hc Hx j. simpl. unfold set_pc, set_cpu. case_decide; [by subst|apply Hn]. Qed.

Lemma push_nest i0 c : nest_inv i0 c -> ncli c = 0 -> nest_inv i0 (pushcli c) /\ ncli (pushcli c) = 1.
Proof.
  intros Hc Hn. destruct (run_nested i0 [true] c 1) as (c' & E & H & En); [done|simpl; lia|by simpl; rewrite Hn|].
  by injection E as <-.
Qed.
Lemma pop_nest i0 c :
  nest_inv i0 c -> ncli c = 1 -> exists c', popcli c = Some c' /\ nest_inv i0 c' /\ ncli c' = 0.
Proof.
  intros Hc Hn. destruct (run_nested i0 [false] c 0) as (c' & E & H & En); [done|simpl; lia| |].
  - simpl. by rewrite Hn.
  - simpl in E. destruct (popcli c) as [c1|]; [|done]. injection E as <-. by exists c1.
Qed.

(** A move that does not change who owns the lock. *)
Lemma inv_move i0 m i x c :
  lock_inv i0 m -> owns x = owns (pcs m i) -> recorded x = recorded (pcs m i) -> x <> Panicked ->
  nest_inv (i0 i) c -> ncli c = match x with Outside => 0 | _ => 1 end ->
  lock_inv i0 (mkMachine (lk m) (set_pc i x (pcs m)) (set_cpu i c (cpus m))).
Proof.
  intros [A1 A2 A3 A4 A5] Ho Hr Hx Hc Hn.
  assert (forall j, owns (set_pc i x (pcs m) j) = owns (pcs m j)) as Eo.
  { intros j. unfold set_pc. case_decide; by subst. }
  assert (forall j, recorded (set_pc i x (pcs m) j) = recorded (pcs m j)) as Er.
  { intros j. unfold set_pc. case_decide; by subst. }
  constructor; [| | | |by apply nest_set]; simpl.
  - intros j k. rewrite !Eo. apply A1.
  - destruct A2 as [[? [j Hj]]|[? Hj]]; [left; split; [done|exists j; by rewrite Eo]|right].
    split; [done|]. intros j. by rewrite Eo.
  - intros j. by rewrite Er.
  - intros j. unfold set_pc. case_decide; [done|apply A4].
Qed.

(** The owner moves from [pcs m i] to [x], still owning the lock word. *)
Lemma inv_owner i0 m i x r :
  lock_inv i0 m -> owns (pcs m i) = true -> owns x = true -> pcs m i <> Outside ->
  r = (if recorded x then Some i else None) ->
  lock_inv i0 (mkMachine (mkLock (locked (lk m)) r) (set_pc i x (pcs m)) (set_cpu i (cpus m i) (cpus m))).
Proof.
  intros [A1 A2 A3 A4 A5] Ho Hx Hne Hr.
  assert (forall j, owns (set_pc i x (pcs m) j) = owns (pcs m j)) as Eo.
  { intros j. unfold set_pc. case_decide; subst; [by rewrite Hx, Ho|done]. }
  destruct (A5 i) as [Hni Hci].
  constructor; [| | | |apply nest_set; [done|done|destruct (pcs m i), x; try done]]; simpl.
  - intros j k. rewrite !Eo. apply A1.
  - destruct A2 as [[? [j Hj]]|[? Hj]]; [left; split; [done|exists j; by rewrite Eo]|by rewrite Hj in Ho].
  - intros j. unfold set_pc. rewrite Hr. case_decide as Ej.
    + subst j. by destruct (recorded x).
    + split; [destruct (recorded x); congruence|]. intros Hj%recorded_owns.
      destruct Ej. by apply A1.
  - intros j. unfold set_pc. case_decide; [|apply A4]. by destruct x.
Qed.

Lemma step_inv i0 m m' : lock_inv i0 m -> step m m' -> lock_inv i0 m'.
Proof.
  intros Hm Hs. revert Hm. destruct Hs as [i m1]. intros Hm. pose proof Hm as [A1 A2 A3 A4 A5]. unfold step_cpu. destruct (A5 i) as [Hni Hci].
  destruct (pcs m1 i) eqn:Ep.
  - destruct (push_nest _ _ Hni Hci) as [Hp Hn]. unfold holding.
    rewrite bool_decide_eq_false_2, andb_false_r; [apply inv_move; try done; by rewrite Ep|].
    intros H%A3. by rewrite Ep in H.
  - simpl. destruct (Z.eqb_spec (locked (lk m1)) 0) as [E|E]; simpl.
    + destruct A2 as [[? _]|[_ Hfree]]; [lia|].
      constructor; [| | | |apply nest_set; done]; simpl.
      * intros j k. unfold set_pc. repeat case_decide; try congruence; by rewrite ?Hfree.
      * left. split; [done|]. exists i. unfold set_pc. by rewrite decide_True.
      * intros j. unfold set_pc. case_decide as Ej; [|apply A3]. subst j. rewrite (A3 i), Ep. done.
      * intros j. unfold set_pc. case_decide; [done|apply A4].
    + assert (mkLock 1 (lk_cpu (lk m1)) = lk m1) as ->.
      { destruct A2 as [[E1 _]|[E0 _]]; [|done]. destruct (lk m1). simpl in *. by subst. }
      apply inv_move; try done; by rewrite Ep.
  - apply inv_owner; try done; by rewrite Ep.
  - assert (holding i (lk m1) = true) as Hh.
    { unfold holding. rewrite bool_decide_eq_true_2 by (apply A3; by rewrite Ep).
      destruct A2 as [[-> _]|[_ Hf]]; [done|]. specialize (Hf i). by rewrite Ep in Hf. }
    rewrite Hh. simpl. apply inv_move; try done; by rewrite Ep.
  - apply inv_owner; try done; by rewrite Ep.
  - simpl. constructor; [| | | |apply nest_set; done]; simpl.
    + intros j k. unfold set_pc. repeat case_decide; try done. apply A1.
    + right. split; [done|]. intros j. unfold set_pc. case_decide; [done|].
      destruct (owns (pcs m1 j)) eqn:Ej; [|done]. exfalso. assert (j = i); [|done].
      apply A1; [done|by rewrite Ep].
    + intros j. unfold set_pc. case_decide as Ej; [|apply A3]. subst j. rewrite (A3 i), Ep. done.
    + intros j. unfold set_pc. case_decide; [done|apply A4].
  - destruct (pop_nest _ _ Hni Hci) as (c' & -> & Hc' & En).
    apply inv_move; try done; by rewrite Ep.
  - done.
Qed.

(** Every CPU is outside, the lock is initialised, [ncli] is 0 everywhere. *)
Definition started (cs : nat -> cpu) : machine := mkMachine initlock (fun _ => Outside) cs.

(** C34. Mutual exclusion: however the CPUs interleave, at most one is between
    the successful [xchg] of [acquire] and the [xchg] of [release], no check of
    [acquire], [release] or [popcli] panics, and interrupts are off on every
    CPU that is using the lock. *)
Theorem spinlock_mutual_exclusion cs m :
  (forall i, cpu_ok (cs i) /\ ncli (cs i) = 0) -> rtc step (started cs) m ->
  (forall i j, owns (pcs m i) = true -> owns (pcs m j) = true -> i = j) /\
  (forall i, pcs m i <> Panicked) /\
  (forall i, pcs m i <> Outside -> ints (cpus m i) = false) /\
  (forall i, pcs m i = Outside -> ints (cpus m i) = ints (cs i)).
Proof.
  intros Hcs Hr. assert (lock_inv (fun i => ints (cs i)) m) as [A1 A2 A3 A4 A5].
  { apply (rtc_ind_r (lock_inv (fun i => ints (cs i)))) in Hr; [done| |intros y z _ Hs Hy; by eapply step_inv].
    constructor; simpl; try done; [by right|].
    intros i. destruct (Hcs i) as [Hok Hn]. split; [|done]. split; [done|]. by rewrite Hn. }
  split_and!; [done|done|..]; intros i Hi; destruct (A5 i) as [[_ Hn] Hc].
  - destruct (pcs m i); [done|..]; rewrite Hc in Hn; apply Hn.
  - rewrite Hi in Hc. by rewrite Hc in Hn.
Qed.

(** CPU 0 takes the lock while CPU 1 spins. *)
Lemma spinlock_mutual_exclusion_witness :
  let m := step_cpu 1 (step_cpu 0 (step_cpu 0 (step_cpu 1 (step_cpu 0 (started (fun _ => mkCpu 0x202 0 0)))))) in
  pcs m 0 = Critical /\ pcs m 1 = Spinning /\ ints (cpus m 1) = false.
Proof.
  intros m. split; [reflexivity|]. split; [reflexivity|].
  apply (spinlock_mutual_exclusion (fun _ => mkCpu 0x202 0 0) m).
  - intros i. repeat split; simpl; try lia.
  - do 5 (eapply rtc_r; [|apply step_any]). apply rtc_refl.
  - discriminate.
Defined.
