(* ===== verification/Kalloc.v ===== *)
(** * Physical page allocator: kalloc.c, memlayout.h and the page macros of mmu.h

    Memory is a map from page addresses (kernel virtual) to 4096 bytes; the free
    list is threaded through the first word of the free pages themselves, as in
    the source.  [kend] is the linker symbol [end].  The allocator's spin lock
    (taken when [use_lock] is set) makes each call atomic. *)

From S2P Require Import Prelude.

Definition PGSIZE : Z := 4096.
Definition KERNBASE : Z := 0x80000000.
Definition PHYSTOP : Z := 0xE000000.
Definition EXTMEM : Z := 0x100000.
Definition DEVSPACE : Z := 0xFE000000.
Definition v2p (a : Z) : Z := u32 (a - KERNBASE).
Definition p2v (a : Z) : Z := u32 (a + KERNBASE).
Definition PGROUNDUP (sz : Z) : Z := Z.land (u32 (sz + PGSIZE - 1)) (Z.lnot (PGSIZE - 1)).
Definition PGROUNDDOWN (a : Z) : Z := Z.land a (Z.lnot (PGSIZE - 1)).

(** One page of memory as bytes; the constant keeps big literals out of terms. *)
Definition page_of (b : Z) : list Z := replicate (Z.to_nat PGSIZE) b.
#[global] Arguments page_of : simpl never.

Record kst := mkK { pages : gmap Z (list Z); freelist : Z }.

Definition get_page (v : Z) : M kst (list Z) := fun s =>
  match pages s !! v with Some x => Done x s | None => Fault "page" end.
Definition put_page (v : Z) (x : list Z) : M kst unit :=
  get_page v ;;; modify (fun s => mkK (<[v := x]> (pages s)) (freelist s)).
Definition set_freelist (v : Z) : M kst unit := modify (fun s => mkK (pages s) v).

Section Kalloc.
Variable kend : Z.

Definition kfree (v : Z) : M kst unit :=
  if negb (u32 v mod PGSIZE =? 0) || (v <? kend) || (v2p v >=? PHYSTOP) then panic "kfree" else
  put_page v (page_of 1) ;;;
  head <- gets freelist ;;
  x <- get_page v ;;
  put_page v (put32 0 head x) ;;;
  set_freelist v.

Definition kalloc : M kst Z :=
  r <- gets freelist ;;
  (if negb (r =? 0) then x <- get_page r ;; set_freelist (get32 0 x) else ret tt) ;;;
  ret r.

(** [for(; p + PGSIZE <= vend; p += PGSIZE) kfree(p)] *)
Fixpoint freerange_loop (fuel : nat) (p vend : Z) : M kst unit :=
  if p + PGSIZE <=? vend then
    match fuel with
    | O => nofuel
    | S fuel' => kfree p ;;; freerange_loop fuel' (p + PGSIZE) vend
    end
  else ret tt.
(** The pages of the 32-bit address space bound the loop. *)
Definition freerange (vstart vend : Z) : M kst unit :=
  freerange_loop (Z.to_nat (2 ^ 20)) (PGROUNDUP vstart) vend.

(** ** The free list *)

(** A page [kfree] accepts. *)
Definition page_ok (v : Z) : Prop := v mod PGSIZE = 0 /\ kend <= v /\ KERNBASE <= v < KERNBASE + PHYSTOP.

(** The chain of next pointers from [p] is the list [l]. *)
Fixpoint chain (m : gmap Z (list Z)) (p : Z) (l : list Z) : Prop :=
  match l with
  | [] => p = 0
  | v :: l' => p = v /\ page_ok v /\ exists x, m !! v = Some x /\ chain m (get32 0 x) l'
  end.

Definition mem_ok (m : gmap Z (list Z)) : Prop :=
  forall v x, m !! v = Some x -> length x = Z.to_nat PGSIZE /\ bytes_ok x.

Record free_rep (s : kst) (l : list Z) : Prop := {
  fr_chain : chain (pages s) (freelist s) l;
  fr_nodup : NoDup l;
  fr_mem : mem_ok (pages s)
}.

Lemma v2p_kernel v : KERNBASE <= v < KERNBASE + PHYSTOP -> v2p v = v - KERNBASE.
Proof. unfold v2p, KERNBASE, PHYSTOP. intros. apply u32_small. lia. Qed.
Lemma p2v_v2p v : KERNBASE <= v < KERNBASE + PHYSTOP -> p2v (v2p v) = v.
Proof. intros Hv. rewrite v2p_kernel by done. unfold p2v, KERNBASE, PHYSTOP in *. rewrite u32_small; lia. Qed.

Lemma page_of_ok b : 0 <= b < 256 -> length (page_of b) = Z.to_nat PGSIZE /\ bytes_ok (page_of b).
Proof. intros. split; [apply length_replicate|]. by apply Forall_replicate. Qed.

Lemma mem_ok_insert m v x :
  mem_ok m -> length x = Z.to_nat PGSIZE -> bytes_ok x -> mem_ok (<[v := x]> m).
Proof. intros Hm Hl Hb w y [[<- <-]|[_ H]]%lookup_insert_Some; [done|by apply (Hm w)]. Qed.

Lemma chain_insert m p l v x : v ∉ l -> chain m p l -> chain (<[v := x]> m) p l.
Proof.
  revert p. induction l as [|w l IH]; intros p Hv; [done|]. apply not_elem_of_cons in Hv as [Hne Hv].
  intros (-> & Hok & y & Hy & Hc). split_and!; try done. exists y.
  rewrite lookup_insert_ne by done. split; [done|by apply IH].
Qed.

Lemma page_aligned_nonzero v : page_ok v -> v <> 0.
Proof. unfold page_ok, KERNBASE. lia. Qed.

(** [kalloc] takes the first free page, or returns 0 when there is none. *)
Lemma wp_kalloc (s : kst) l :
  free_rep s l ->
  wp kalloc (fun r s' => pages s' = pages s /\
    match l with
    | [] => r = 0 /\ s' = s
    | v :: l' => r = v /\ free_rep s' l'
    end) s.
Proof.
  intros [Hc Hn Hm]. unfold kalloc. apply wp_bind, wp_gets. destruct l as [|v l]; simpl in Hc.
  - rewrite Hc. simpl. by apply wp_bind, wp_ret, wp_ret.
  - destruct Hc as (-> & Hok & x & Hx & Hc). pose proof (page_aligned_nonzero _ Hok) as Hz.
    rewrite (proj2 (Z.eqb_neq _ _) Hz). simpl. apply wp_bind, wp_bind.
    unfold wp, get_page. rewrite Hx. simpl. split; [done|]. split; [done|].
    apply NoDup_cons in Hn as [_ Hn]. by constructor.
Qed.

(** [kfree] puts a page that is not free in front of the list and fills it. *)
Lemma wp_kfree (s : kst) l v :
  free_rep s l -> page_ok v -> is_Some (pages s !! v) -> v ∉ l -> freelist s < 2 ^ 32 ->
  wp (kfree v) (fun _ s' => free_rep s' (v :: l) /\ freelist s' = v /\
    pages s' = <[v := put32 0 (freelist s) (page_of 1)]> (pages s)) s.
Proof.
  intros [Hc Hn Hm] (Ha & He & Hv) [x Hx] Hni Hfl. pose proof (page_of_ok 1 ltac:(lia)) as [Hl1 Hb1].
  assert (0 <= freelist s) as Hf0.
  { destruct l as [|w l]; simpl in Hc; [lia|]. destruct Hc as (-> & (_ & _ & Hw) & _). unfold KERNBASE in Hw. lia. }
  unfold kfree. rewrite (u32_small v) by (unfold KERNBASE, PHYSTOP in Hv; lia). rewrite Ha. simpl.
  destruct (Z.ltb_spec v kend); [lia|]. rewrite v2p_kernel by done.
  destruct (Z.geb_spec (v - KERNBASE) PHYSTOP); [lia|]. simpl.
  apply wp_bind. unfold put_page at 1. apply wp_bind. unfold wp at 1, get_page. rewrite Hx. apply wp_modify.
  apply wp_bind, wp_gets. apply wp_bind. unfold wp at 1, get_page. simpl. rewrite lookup_insert_eq.
  apply wp_bind. unfold put_page. apply wp_bind. unfold wp at 1, get_page. simpl. rewrite lookup_insert_eq.
  apply wp_modify, wp_modify. simpl. rewrite insert_insert_eq.
  assert (length (put32 0 (freelist s) (page_of 1)) = Z.to_nat PGSIZE) as Hlen.
  { rewrite put32_length; [done|]. rewrite Hl1. unfold PGSIZE. lia. }
  split; [|done]. constructor; simpl.
  - split; [done|]. split; [done|]. eexists. rewrite lookup_insert_eq. split; [done|].
    rewrite get_put32 by (rewrite Hl1; unfold PGSIZE; lia). rewrite u32_small by zlia.
    by apply chain_insert.
  - by constructor.
  - apply mem_ok_insert; [done|done|]. apply bytes_ok_splice; [apply le_bytes_ok|done].
Qed.

Lemma free_rep_head s l : free_rep s l -> 0 <= freelist s < 2 ^ 32.
Proof.
  intros [Hc _ _]. destruct l as [|w l]; simpl in Hc; [lia|].
  destruct Hc as (-> & (_ & _ & Hw) & _). unfold KERNBASE, PHYSTOP in Hw. lia.
Qed.

(** ** Owners of pages *)

(** The allocator with the set of pages that have been handed out. *)
Inductive kstep : kst * gset Z -> kst * gset Z -> Prop :=
| k_alloc s o r s' :
    kalloc s = Done r s' -> kstep (s, o) (s', if decide (r = 0) then o else {[r]} ∪ o)
| k_free s o v s' :
    v ∈ o -> kfree v s = Done tt s' -> kstep (s, o) (s', o ∖ {[v]})
| k_write s o v x :
    v ∈ o -> length x = Z.to_nat PGSIZE -> bytes_ok x ->
    kstep (s, o) (mkK (<[v := x]> (pages s)) (freelist s), o).

(** The pages [A] are split between the free list and the owners. *)
Definition kinv (A : gset Z) (x : kst * gset Z) : Prop :=
  exists l, free_rep x.1 l /\ list_to_set l ∪ x.2 = A /\ (list_to_set l ## x.2) /\
    forall v, v ∈ A -> page_ok v /\ is_Some (pages x.1 !! v).

Lemma kinv_alloc A s o :
  kinv A (s, o) ->
  exists r s', kalloc s = Done r s' /\ (r ∉ o) /\ (r = 0 <-> o = A) /\
    kinv A (s', if decide (r = 0) then o else {[r]} ∪ o).
Proof.
  intros (l & Hf & HA & Hd & Hp). simpl in *.
  pose proof (wp_kalloc s l Hf) as (r & s' & E & Epg & H)%wp_inv. exists r, s'. split; [done|].
  destruct l as [|v l].
  - destruct H as [-> ->]. rewrite decide_True by done. split_and!.
    + intros H0. destruct (Hp 0) as [H1 _]; [set_solver|]. by apply page_aligned_nonzero in H1.
    + set_solver.
    + exists []. split_and!; try done.
  - destruct H as [-> Hf']. pose proof (fr_nodup _ _ Hf) as Hn. apply NoDup_cons in Hn as [Hn _].
    assert (v <> 0) as Hz by (apply page_aligned_nonzero, (Hp v); set_solver).
    rewrite decide_False by done. split_and!; [set_solver|split; [done|set_solver]|].
    exists l. simpl. rewrite Epg. split_and!; [done|set_solver| |done].
    apply (disjoint_union_r (list_to_set l)). split; [|set_solver].
    intros w Hw1 Hw2. apply elem_of_list_to_set in Hw1. set_solver.
Qed.

Lemma kinv_free A s o v :
  kinv A (s, o) -> v ∈ o -> exists s', kfree v s = Done tt s' /\ kinv A (s', o ∖ {[v]}).
Proof.
  intros (l & Hf & HA & Hd & Hp) Hv. simpl in *.
  assert (v ∈ A) as HvA by set_solver. destruct (Hp v HvA) as [Hok Hs].
  assert (v ∉ l) as Hvl by (intros H; apply (Hd v); [by apply elem_of_list_to_set|done]).
  pose proof (wp_kfree s l v Hf Hok Hs Hvl (proj2 (free_rep_head s l Hf))) as ([] & s' & E & Hf' & _ & Epg)%wp_inv.
  exists s'. split; [done|]. exists (v :: l). simpl. split_and!; [done| |set_solver|].
  - rewrite <- HA. apply set_eq. intros w. destruct (decide (w = v)); set_solver.
  - intros w Hw. split; [by apply Hp|]. rewrite Epg. destruct (decide (v = w)) as [->|].
    + rewrite lookup_insert_eq. eauto.
    + rewrite lookup_insert_ne by done. by apply Hp.
Qed.

Lemma kstep_inv A x y : kinv A x -> kstep x y -> kinv A y.
Proof.
  intros Hx Hs. destruct Hs as [s o r s' E|s o v s' Hv E|s o v x Hv Hl Hb].
  - destruct (kinv_alloc _ _ _ Hx) as (r1 & s1 & E1 & _ & _ & H). rewrite E in E1. by injection E1 as <- <-.
  - destruct (kinv_free _ _ _ _ Hx Hv) as (s1 & E1 & H). rewrite E in E1. by injection E1 as <-.
  - destruct Hx as (l & [Hc Hn Hm] & HA & Hd & Hp). exists l. simpl in *. split_and!; try done.
    + constructor; simpl; [|done|by apply mem_ok_insert]. apply chain_insert; [|done].
      intros H. apply (Hd v); [by apply elem_of_list_to_set|done].
    + intros w Hw. split; [by apply Hp|]. destruct (decide (v = w)) as [->|].
      * rewrite lookup_insert_eq. eauto.
      * rewrite lookup_insert_ne by done. by apply Hp.
Qed.

(** ** Boot: [freerange] *)

Lemma round_down a : 0 <= a -> PGROUNDDOWN a = a - a mod PGSIZE.
Proof.
  intros Ha. unfold PGROUNDDOWN, PGSIZE. change (4096 - 1) with (Z.ones 12).
  rewrite <- Z.ldiff_land, Z.ldiff_ones_r by lia. rewrite Z.shiftl_mul_pow2, Z.shiftr_div_pow2 by lia.
  change (2 ^ 12) with 4096. zlia.
Qed.

Lemma round_up a : 0 <= a -> a + PGSIZE - 1 < 2 ^ 32 ->
  PGROUNDUP a mod PGSIZE = 0 /\ a <= PGROUNDUP a < a + PGSIZE.
Proof.
  intros Ha Hlt. unfold PGROUNDUP. rewrite u32_small by (unfold PGSIZE in *; lia).
  change (Z.land ?x (Z.lnot (PGSIZE - 1))) with (PGROUNDDOWN x).
  rewrite round_down by (unfold PGSIZE; lia). unfold PGSIZE in *. zlia.
Qed.

(** The pages between two page-aligned addresses, highest first. *)
Fixpoint page_list (n : nat) (p : Z) : list Z :=
  match n with O => [] | S n' => page_list n' (p + PGSIZE) ++ [p] end.

Lemma page_list_elem n p v :
  v ∈ page_list n p <-> exists i, 0 <= i < Z.of_nat n /\ v = p + i * PGSIZE.
Proof.
  revert p. induction n as [|n IH]; intros p; simpl.
  - split; [by intros ?%not_elem_of_nil|intros (i & Hi & _); lia].
  - rewrite elem_of_app, IH, list_elem_of_singleton. split.
    + intros [(i & Hi & ->)| ->]; [exists (i + 1)|exists 0]; split; lia.
    + intros (i & Hi & ->). destruct (decide (i = 0)) as [->|]; [right; lia|].
      left. exists (i - 1). split; lia.
Qed.

Lemma wp_freerange_loop n fuel p vend (s : kst) l :
  free_rep s l -> (n <= fuel)%nat ->
  p + Z.of_nat n * PGSIZE <= vend < p + Z.of_nat n * PGSIZE + PGSIZE ->
  (forall i, 0 <= i < Z.of_nat n ->
     page_ok (p + i * PGSIZE) /\ is_Some (pages s !! (p + i * PGSIZE)) /\ p + i * PGSIZE ∉ l) ->
  wp (freerange_loop fuel p vend) (fun _ s' => free_rep s' (page_list n p ++ l) /\
    forall v, is_Some (pages s !! v) -> is_Some (pages s' !! v)) s.
Proof.
  revert fuel p s l. induction n as [|n IH]; intros fuel p s l Hf Hfu Hv Hp.
  - destruct fuel; simpl; destruct (Z.leb_spec (p + PGSIZE) vend); try lia; by apply wp_ret.
  - destruct fuel as [|fuel]; [lia|]. cbn [freerange_loop].
    destruct (Z.leb_spec (p + PGSIZE) vend); [|unfold PGSIZE in *; lia].
    destruct (Hp 0 ltac:(lia)) as (Hok & Hs & Hni). rewrite Z.mul_0_l, Z.add_0_r in Hok, Hs, Hni.
    apply wp_bind. eapply wp_mono.
    { apply (wp_kfree s l p); try done. apply (free_rep_head _ _ Hf). }
    intros [] s1 (Hf1 & _ & Epg).
    assert (forall v, is_Some (pages s !! v) -> is_Some (pages s1 !! v)) as Hk.
    { intros v Hsv. rewrite Epg. destruct (decide (p = v)) as [->|]; [rewrite lookup_insert_eq; eauto|].
      by rewrite lookup_insert_ne. }
    eapply wp_mono.
    { apply (IH fuel (p + PGSIZE) s1 (p :: l)); [done|lia|unfold PGSIZE in *; lia|].
      intros i Hi. replace (p + PGSIZE + i * PGSIZE) with (p + (i + 1) * PGSIZE) by lia.
      destruct (Hp (i + 1) ltac:(lia)) as (Hok1 & Hs1 & Hni1). split_and!; [done|by apply Hk|].
      apply not_elem_of_cons. split; [unfold PGSIZE; lia|done]. }
    intros [] s2 [Hf2 Hk2]. split; [cbn [page_list]; by rewrite <- app_assoc|].
    intros v Hsv. by apply Hk2, Hk.
Qed.

Lemma page_list_nodup n p : NoDup (page_list n p).
Proof.
  revert p. induction n as [|n IH]; intros p; [constructor|]. simpl. apply NoDup_app. split_and!.
  - apply IH.
  - intros x (i & Hi & ->)%page_list_elem E%list_elem_of_singleton. unfold PGSIZE in *. lia.
  - apply NoDup_singleton.
Qed.

(** The pages [freerange(vstart, vend)] frees. *)
Definition range_pages (vstart vend : Z) : list Z :=
  page_list (Z.to_nat ((vend - PGROUNDUP vstart) / PGSIZE)) (PGROUNDUP vstart).

Lemma freerange_inv m vstart vend :
  mem_ok m -> KERNBASE <= vstart -> kend <= vstart -> vstart + PGSIZE <= vend <= KERNBASE + PHYSTOP ->
  (forall v, v mod PGSIZE = 0 -> vstart <= v < vend -> is_Some (m !! v)) ->
  wp (freerange vstart vend) (fun _ s =>
    kinv (list_to_set (range_pages vstart vend)) (s, ∅)) (mkK m 0).
Proof.
  intros Hm Hk He Hv Hp. unfold freerange. destruct (round_up vstart) as [Ha Hr];
    [unfold KERNBASE in *; lia|unfold KERNBASE, PHYSTOP, PGSIZE in *; lia|].
  set (p := PGROUNDUP vstart) in *. unfold range_pages. fold p. set (n := Z.to_nat ((vend - p) / PGSIZE)).
  assert (Z.of_nat n = (vend - p) / PGSIZE) as En.
  { unfold n. apply Z2Nat.id, Z.div_pos; unfold PGSIZE in *; lia. }
  assert (p + Z.of_nat n * PGSIZE <= vend < p + Z.of_nat n * PGSIZE + PGSIZE) as Hn.
  { rewrite En. unfold PGSIZE in *. clear -Hv. zlia. }
  assert (forall i, 0 <= i < Z.of_nat n ->
    page_ok (p + i * PGSIZE) /\ is_Some (m !! (p + i * PGSIZE))) as Hall.
  { intros i Hi. assert ((p + i * PGSIZE) mod PGSIZE = 0) as Hal by (by rewrite Z_mod_plus_full).
    assert (vstart <= p + i * PGSIZE /\ p + i * PGSIZE + PGSIZE <= vend) as Hb by (unfold PGSIZE in *; nia).
    split; [|apply Hp; [done|unfold PGSIZE in *; lia]].
    split_and!; [done|lia|lia|unfold PGSIZE in *; lia]. }
  eapply wp_mono.
  { apply (wp_freerange_loop n _ p vend (mkK m 0) []).
    - constructor; [done|constructor|done].
    - apply Nat2Z.inj_le. rewrite En, Z2Nat.id by lia. unfold KERNBASE, PHYSTOP, PGSIZE in *. clear -Hv Hk Hr. zlia.
    - done.
    - intros i Hi. destruct (Hall i Hi) as [? ?]. split_and!; [done|done|apply not_elem_of_nil]. }
  intros [] s [Hf Hkeep]. rewrite app_nil_r in Hf. exists (page_list n p). simpl. split_and!; [done| | |].
  - by rewrite union_empty_r_L.
  - set_solver.
  - intros v Hv'. apply elem_of_list_to_set, page_list_elem in Hv' as (i & Hi & ->).
    destruct (Hall i Hi) as [? ?]. split; [done|]. by apply Hkeep.
Qed.

(** C27. The page allocator: [freerange] at boot returns with every page of the
    range free; from then on, whatever is written to pages that were handed
    out, [kalloc] returns with a page nobody owns, returns 0 exactly when all
    pages are owned, and [kfree] of an owned page does not panic. *)
Theorem kalloc_exclusive m vstart vend s o :
  mem_ok m -> KERNBASE <= vstart -> kend <= vstart -> vstart + PGSIZE <= vend <= KERNBASE + PHYSTOP ->
  (forall v, v mod PGSIZE = 0 -> vstart <= v < vend -> is_Some (m !! v)) ->
  (exists s0, freerange vstart vend (mkK m 0) = Done tt s0 /\ rtc kstep (s0, ∅) (s, o)) ->
  let A := list_to_set (range_pages vstart vend) in
  (exists r s', kalloc s = Done r s' /\ (r ∉ o) /\ (r = 0 <-> o = A) /\ (r <> 0 -> r ∈ A)) /\
  (forall v, v ∈ o -> exists s', kfree v s = Done tt s').
Proof.
  intros Hm Hk He Hv Hp (s0 & E0 & Hr) A.
  pose proof (freerange_inv m vstart vend Hm Hk He Hv Hp) as ([] & s1 & E1 & H0)%wp_inv.
  rewrite E0 in E1. injection E1 as <-. fold A in H0.
  assert (kinv A (s, o)) as Hi.
  { apply (rtc_ind_r (kinv A)) in Hr; [done|done|]. intros y z _ Hs Hy. by eapply kstep_inv. }
  split.
  - destruct (kinv_alloc A s o Hi) as (r & s' & E & Hni & Hz & (l & _ & HA & _)). exists r, s'.
    split_and!; try done; try apply Hz. intros Hne. rewrite decide_False in HA by done. set_solver.
  - intros v Hv'. destruct (kinv_free A s o v Hi Hv') as (s' & E & _). by exists s'.
Qed.
End Kalloc.

(** Three pages of memory, from the end of the kernel. *)
Definition mem3 : gmap Z (list Z) :=
  <[0x80400000 := page_of 0]> (<[0x80401000 := page_of 0]> (<[0x80402000 := page_of 0]> ∅)).

Lemma mem3_ok : mem_ok mem3.
Proof.
  repeat apply mem_ok_insert; try apply page_of_ok; try lia. intros v x H. by rewrite lookup_empty in H.
Qed.

Lemma kalloc_exclusive_witness :
  exists s0 r s1, freerange 0x80400000 0x80400000 0x80403000 (mkK mem3 0) = Done tt s0 /\
    kalloc s0 = Done r s1 /\ r ∈ range_pages 0x80400000 0x80403000.
Proof.
  assert (forall v, v mod PGSIZE = 0 -> 0x80400000 <= v < 0x80403000 -> is_Some (mem3 !! v)) as Hp.
  { intros v Ha Hv. assert (v = 0x80400000 \/ v = 0x80401000 \/ v = 0x80402000) as Hc
      by (unfold PGSIZE in Ha; clear -Ha Hv; zlia).
    destruct Hc as [->|[->| ->]]; unfold mem3; repeat (first [rewrite lookup_insert_eq; eauto; fail|
      rewrite lookup_insert_ne by lia]); eauto. }
  pose proof (freerange_inv 0x80400000 mem3 0x80400000 0x80403000 mem3_ok) as H0.
  destruct (proj1 (wp_inv _ _ _) (H0 ltac:(unfold KERNBASE; lia) ltac:(lia)
    ltac:(unfold KERNBASE, PHYSTOP, PGSIZE; lia) Hp)) as ([] & s0 & E0 & _).
  destruct (kalloc_exclusive 0x80400000 mem3 0x80400000 0x80403000 s0 ∅ mem3_ok)
    as [(r & s1 & E1 & Hni & Hz & HA) _].
  - unfold KERNBASE. lia.
  - lia.
  - unfold KERNBASE, PHYSTOP, PGSIZE. lia.
  - exact Hp.
  - exists s0. split; [exact E0|apply rtc_refl].
  - exists s0, r, s1. split; [exact E0|]. split; [exact E1|]. apply (elem_of_list_to_set (C := gset Z)), HA.
    intros Hr. apply Hz in Hr. assert (0x80400000 ∈ (∅ : gset Z)) as Hc; [rewrite Hr|by apply not_elem_of_empty in Hc].
    apply elem_of_list_to_set, page_list_elem. exists 0. split; [vm_compute; split; [discriminate|reflexivity]|reflexivity].
Defined.
