(* ===== verification/Vm.v ===== *)
(** * Page tables and user memory: vm.c and the page-table macros of mmu.h

    Page directories and page tables live in the pages of Kalloc.v as 32-bit
    words.  [kend] and [kdata] are the linker symbols [end] and [data].  ([loaduvm],
    which reads files, is in Exec.v.) *)

From S2P Require Import Prelude Kalloc.

Definition KERNLINK : Z := KERNBASE + EXTMEM.
Definition NPDENTRIES : Z := 1024.
Definition NPTENTRIES : Z := 1024.
Definition PTXSHIFT : Z := 12.
Definition PDXSHIFT : Z := 22.
Definition PTE_P : Z := 1.
Definition PTE_W : Z := 2.
Definition PTE_U : Z := 4.
Definition PDX (va : Z) : Z := Z.land (Z.shiftr (u32 va) PDXSHIFT) 0x3FF.
Definition PTX (va : Z) : Z := Z.land (Z.shiftr (u32 va) PTXSHIFT) 0x3FF.
Definition PGADDR (d t o : Z) : Z := u32 (Z.lor (Z.lor (Z.shiftl d PDXSHIFT) (Z.shiftl t PTXSHIFT)) o).
Definition PTE_ADDR (pte : Z) : Z := Z.land (u32 pte) (Z.lnot 0xFFF).
Definition PTE_FLAGS (pte : Z) : Z := Z.land (u32 pte) 0xFFF.

(** A 32-bit word through a kernel pointer; the null pointer is undefined. *)
Definition page_base (p : Z) : Z := p - p mod PGSIZE.
Definition ldw (p : Z) : M kst Z :=
  if p =? 0 then fault "null pte" else
  x <- get_page (page_base p) ;; ret (get32 (Z.to_nat (p mod PGSIZE)) x).
Definition stw (p v : Z) : M kst unit :=
  if p =? 0 then fault "null pte" else
  x <- get_page (page_base p) ;; put_page (page_base p) (put32 (Z.to_nat (p mod PGSIZE)) v x).

Definition has (w bit : Z) : bool := negb (Z.land w bit =? 0).

Definition walkpgdir (pgdir va alloc : Z) : M kst Z :=
  let pde := pgdir + 4 * PDX va in
  w <- ldw pde ;;
  if has w PTE_P then ret (p2v (PTE_ADDR w) + 4 * PTX va)
  else if alloc =? 0 then ret 0
  else
    pgtab <- kalloc ;;
    if pgtab =? 0 then ret 0 else
    put_page pgtab (page_of 0) ;;;
    stw pde (Z.lor (Z.lor (Z.lor (v2p pgtab) PTE_P) PTE_W) PTE_U) ;;;
    ret (pgtab + 4 * PTX va).

Fixpoint mappages_loop (fuel : nat) (pgdir a last pa perm : Z) : M kst Z :=
  match fuel with
  | O => nofuel
  | S fuel' =>
      pte <- walkpgdir pgdir a 1 ;;
      if pte =? 0 then ret (-1) else
      w <- ldw pte ;;
      if has w PTE_P then panic "remap" else
      stw pte (Z.lor (Z.lor pa perm) PTE_P) ;;;
      if a =? last then ret 0
      else mappages_loop fuel' pgdir (u32 (a + PGSIZE)) last (u32 (pa + PGSIZE)) perm
  end.
(** The loop visits at most every page of the address space. *)
Definition mappages (pgdir va size pa perm : Z) : M kst Z :=
  let a := PGROUNDDOWN (u32 va) in
  let last := PGROUNDDOWN (u32 (u32 va + size - 1)) in
  mappages_loop (Z.to_nat (2 ^ 20)) pgdir a last pa perm.

Section Vm.
Variables kend kdata : Z.

(** [kmap]: virtual address, physical start and end, permissions. *)
Definition kmap : list (Z * Z * Z * Z) :=
  [(KERNBASE, 0, EXTMEM, PTE_W);
   (KERNLINK, u32 (KERNLINK - KERNBASE), u32 (kdata - KERNBASE), 0);
   (kdata, u32 (kdata - KERNBASE), PHYSTOP, PTE_W);
   (DEVSPACE, DEVSPACE, 0, PTE_W)].

Fixpoint map_all (pgdir : Z) (ks : list (Z * Z * Z * Z)) : M kst Z :=
  match ks with
  | [] => ret pgdir
  | (virt, ps, pe, perm) :: ks' =>
      r <- mappages pgdir virt (u32 (pe - ps)) ps perm ;;
      if r <? 0 then ret 0 else map_all pgdir ks'
  end.
Definition setupkvm : M kst Z :=
  pgdir <- kalloc ;;
  if pgdir =? 0 then ret 0 else
  put_page pgdir (page_of 0) ;;;
  if p2v PHYSTOP >? DEVSPACE then panic "PHYSTOP too high" else
  map_all pgdir kmap.

(** [memmove] into a kernel page. *)
Definition copy_in (v : Z) (off : Z) (bytes : list Z) : M kst unit :=
  x <- get_page v ;; put_page v (bsplice (Z.to_nat off) bytes x).

Definition inituvm (pgdir : Z) (init : list Z) : M kst unit :=
  let sz := Z.of_nat (length init) in
  if sz >=? PGSIZE then panic "inituvm: more than a page" else
  mem <- kalloc ;;
  put_page mem (page_of 0) ;;;
  mappages pgdir 0 PGSIZE (v2p mem) (Z.lor PTE_W PTE_U) ;;;
  copy_in mem 0 init.

Definition pages_upto (sz : Z) : nat := Z.to_nat ((sz + PGSIZE - 1) / PGSIZE).

Fixpoint deallocuvm_loop (fuel : nat) (pgdir a oldsz : Z) : M kst unit :=
  if a <? oldsz then
    match fuel with
    | O => nofuel
    | S fuel' =>
        pte <- walkpgdir pgdir a 0 ;;
        if pte =? 0 then
          deallocuvm_loop fuel' pgdir (u32 (u32 (a + (NPTENTRIES - 1) * PGSIZE) + PGSIZE)) oldsz
        else
          w <- ldw pte ;;
          (if has w PTE_P then
             let pa := PTE_ADDR w in
             if pa =? 0 then panic "kfree" else
             kfree kend (p2v pa) ;;; stw pte 0
           else ret tt) ;;;
          deallocuvm_loop fuel' pgdir (u32 (a + PGSIZE)) oldsz
    end
  else ret tt.
Definition deallocuvm (pgdir oldsz newsz : Z) : M kst Z :=
  if newsz >=? oldsz then ret oldsz else
  deallocuvm_loop (Z.to_nat (2 ^ 20)) pgdir (PGROUNDUP newsz) oldsz ;;;
  ret newsz.

Fixpoint allocuvm_loop (fuel : nat) (pgdir a oldsz newsz : Z) : M kst Z :=
  if a <? newsz then
    match fuel with
    | O => nofuel
    | S fuel' =>
        mem <- kalloc ;;
        if mem =? 0 then deallocuvm pgdir newsz oldsz ;;; ret 0 else
        put_page mem (page_of 0) ;;;
        mappages pgdir a PGSIZE (v2p mem) (Z.lor PTE_W PTE_U) ;;;
        allocuvm_loop fuel' pgdir (u32 (a + PGSIZE)) oldsz newsz
    end
  else ret newsz.
Definition allocuvm (pgdir oldsz newsz : Z) : M kst Z :=
  if newsz >=? KERNBASE then ret 0
  else if newsz <? oldsz then ret oldsz
  else allocuvm_loop (Z.to_nat (2 ^ 20)) pgdir (PGROUNDUP oldsz) oldsz newsz.

Definition freevm (pgdir : Z) : M kst unit :=
  if pgdir =? 0 then panic "freevm: no pgdir" else
  deallocuvm pgdir KERNBASE 0 ;;;
  for_each (Z.to_nat NPDENTRIES) 0 (fun i =>
    w <- ldw (pgdir + 4 * i) ;;
    if has w PTE_P then kfree kend (p2v (PTE_ADDR w)) else ret tt) ;;;
  kfree kend pgdir.

Definition clearpteu (pgdir uva : Z) : M kst unit :=
  pte <- walkpgdir pgdir uva 0 ;;
  if pte =? 0 then panic "clearpteu" else
  w <- ldw pte ;; stw pte (Z.land w (Z.lnot PTE_U)).

Fixpoint copyuvm_loop (n : nat) (pgdir d i : Z) : M kst Z :=
  match n with
  | O => ret d
  | S n' =>
      pte <- walkpgdir pgdir i 0 ;;
      if pte =? 0 then panic "copyuvm: pte should exist" else
      w <- ldw pte ;;
      if negb (has w PTE_P) then panic "copyuvm: page not present" else
      mem <- kalloc ;;
      if mem =? 0 then freevm d ;;; ret 0 else
      x <- get_page (p2v (PTE_ADDR w)) ;;
      put_page mem x ;;;
      r <- mappages d i PGSIZE (v2p mem) (PTE_FLAGS w) ;;
      if r <? 0 then freevm d ;;; ret 0 else
      copyuvm_loop n' pgdir d (i + PGSIZE)
  end.
Definition copyuvm (pgdir sz : Z) : M kst Z :=
  d <- setupkvm ;;
  if d =? 0 then ret 0 else copyuvm_loop (pages_upto sz) pgdir d 0.

Definition uva2ka (pgdir uva : Z) : M kst Z :=
  pte <- walkpgdir pgdir uva 0 ;;
  w <- ldw pte ;;
  if negb (has w PTE_P) then ret 0
  else if negb (has w PTE_U) then ret 0
  else ret (p2v (PTE_ADDR w)).

Fixpoint copyout_loop (fuel : nat) (pgdir va : Z) (buf : list Z) : M kst Z :=
  match buf with
  | [] => ret 0
  | _ =>
      match fuel with
      | O => nofuel
      | S fuel' =>
          let va0 := PGROUNDDOWN va in
          pa0 <- uva2ka pgdir va0 ;;
          if pa0 =? 0 then ret (-1) else
          let n := Z.min (PGSIZE - (va - va0)) (Z.of_nat (length buf)) in
          copy_in pa0 (va - va0) (take (Z.to_nat n) buf) ;;;
          copyout_loop fuel' pgdir (u32 (va0 + PGSIZE)) (drop (Z.to_nat n) buf)
      end
  end.
(** Every round but the last copies at least one byte and ends a page. *)
Definition copyout (pgdir va : Z) (p : list Z) : M kst Z :=
  copyout_loop (S (length p)) pgdir va p.
End Vm.

(** ** Address arithmetic *)

Lemma PDX_div va : 0 <= va < 2 ^ 32 -> PDX va = va / 2 ^ 22.
Proof.
  intros Hv. unfold PDX, PDXSHIFT. rewrite u32_small by zlia. change 0x3FF with (Z.ones 10).
  rewrite Z.land_ones, Z.shiftr_div_pow2 by lia. apply Z.mod_small.
  change (2 ^ 22) with 4194304. change (2 ^ 10) with 1024. zlia.
Qed.
Lemma PTX_div va : 0 <= va < 2 ^ 32 -> PTX va = (va / 2 ^ 12) mod 2 ^ 10.
Proof.
  intros Hv. unfold PTX, PTXSHIFT. rewrite u32_small by zlia. change 0x3FF with (Z.ones 10).
  by rewrite Z.land_ones, Z.shiftr_div_pow2 by lia.
Qed.

Lemma PDX_range va : 0 <= PDX va < 1024.
Proof.
  unfold PDX. change 0x3FF with (Z.ones 10). rewrite Z.land_ones by lia. apply Z.mod_pos_bound. lia.
Qed.
Lemma PTX_range va : 0 <= PTX va < 1024.
Proof.
  unfold PTX. change 0x3FF with (Z.ones 10). rewrite Z.land_ones by lia. apply Z.mod_pos_bound. lia.
Qed.

(** Two addresses select the same entry exactly when they are in one page. *)
Lemma same_entry a b :
  0 <= a < 2 ^ 32 -> 0 <= b < 2 ^ 32 ->
  PDX a = PDX b /\ PTX a = PTX b <-> a / PGSIZE = b / PGSIZE.
Proof.
  intros Ha Hb. rewrite !PDX_div, !PTX_div by done. unfold PGSIZE.
  change (2 ^ 22) with 4194304. change (2 ^ 12) with 4096. change (2 ^ 10) with 1024. zlia.
Qed.

Lemma page_word v i : v mod PGSIZE = 0 -> 0 <= i < 1024 ->
  page_base (v + 4 * i) = v /\ (v + 4 * i) mod PGSIZE = 4 * i.
Proof. unfold page_base, PGSIZE. intros. zlia. Qed.

(** A page-aligned address with flag bits below. *)
Lemma lor_flags pa f : pa mod PGSIZE = 0 -> 0 <= f < PGSIZE -> Z.lor pa f = pa + f.
Proof.
  intros Ha Hf. unfold PGSIZE in *. assert (pa = Z.shiftl (pa / 4096) 12) as E.
  { rewrite Z.shiftl_mul_pow2 by lia. change (2 ^ 12) with 4096. zlia. }
  rewrite E at 1. rewrite lor_shiftl_add by (simpl; lia). change (2 ^ 12) with 4096. zlia.
Qed.

Lemma PTE_ADDR_flags pa f :
  pa mod PGSIZE = 0 -> 0 <= f < PGSIZE -> 0 <= pa < 2 ^ 32 -> PTE_ADDR (pa + f) = pa.
Proof.
  intros Ha Hf Hp. unfold PTE_ADDR. assert (0 <= pa + f < 2 ^ 32) as Hr by (unfold PGSIZE in *; zlia).
  rewrite u32_small by zlia. change (Z.land ?x (Z.lnot 0xFFF)) with (PGROUNDDOWN x).
  rewrite round_down by lia. unfold PGSIZE in *. zlia.
Qed.

Lemma has_P w : has w PTE_P = Z.odd w.
Proof.
  unfold has, PTE_P. rewrite <- Z.bit0_odd. change 1 with (2 ^ 0) at 1.
  destruct (Z.testbit w 0) eqn:E.
  - destruct (Z.eqb_spec (Z.land w (2 ^ 0)) 0) as [H|]; [|done].
    assert (Z.testbit (Z.land w (2 ^ 0)) 0 = false) as Hb by (rewrite H; apply Z.bits_0).
    by rewrite Z.land_spec, E in Hb.
  - replace (Z.land w (2 ^ 0)) with 0; [done|]. symmetry. apply Z.bits_inj'. intros k Hk.
    rewrite Z.land_spec, Z.bits_0. destruct (decide (k = 0)) as [->|]; [by rewrite E|].
    rewrite Z.pow2_bits_false by lia. apply andb_false_r.
Qed.

(** ** The mapping a page directory represents *)

Definition word (m : gmap Z (list Z)) (v i : Z) : Z :=
  match m !! v with Some x => get32 (Z.to_nat (4 * i)) x | None => 0 end.

(** The table page for directory index [i], if present. *)
Definition table_at (m : gmap Z (list Z)) (pgdir i : Z) : option Z :=
  let w := word m pgdir i in if has w PTE_P then Some (p2v (PTE_ADDR w)) else None.
(** The entry for an address: 0 (not present) without a table. *)
Definition pte_at (m : gmap Z (list Z)) (pgdir va : Z) : Z :=
  match table_at m pgdir (PDX va) with Some t => word m t (PTX va) | None => 0 end.

Record dir_ok (m : gmap Z (list Z)) (pgdir : Z) (free : list Z) : Prop := {
  do_dir : is_Some (m !! pgdir) /\ pgdir mod PGSIZE = 0 /\ pgdir <> 0;
  do_dirfree : pgdir ∉ free;
  do_tab : forall i t, 0 <= i < 1024 -> table_at m pgdir i = Some t ->
    is_Some (m !! t) /\ t mod PGSIZE = 0 /\ t <> 0 /\ t <> pgdir /\ t ∉ free;
  do_inj : forall i j t, 0 <= i < 1024 -> 0 <= j < 1024 ->
    table_at m pgdir i = Some t -> table_at m pgdir j = Some t -> i = j
}.

Lemma wp_ldw (s : kst) v i (Q : Z -> kst -> Prop) :
  is_Some (pages s !! v) -> v mod PGSIZE = 0 -> v <> 0 -> 0 <= i < 1024 -> 0 <= v ->
  Q (word (pages s) v i) s -> wp (ldw (v + 4 * i)) Q s.
Proof.
  intros [x Hx] Ha Hz Hi Hv HQ. unfold ldw. destruct (Z.eqb_spec (v + 4 * i) 0); [lia|].
  destruct (page_word v i Ha Hi) as [-> ->]. unfold word in HQ. rewrite Hx in HQ.
  apply wp_bind. unfold wp at 1, get_page. by rewrite Hx.
Qed.

Lemma wp_stw (s : kst) v i w (Q : unit -> kst -> Prop) :
  is_Some (pages s !! v) -> v mod PGSIZE = 0 -> v <> 0 -> 0 <= i < 1024 -> 0 <= v ->
  (forall x, pages s !! v = Some x ->
     Q tt (mkK (<[v := put32 (Z.to_nat (4 * i)) w x]> (pages s)) (freelist s))) ->
  wp (stw (v + 4 * i) w) Q s.
Proof.
  intros [x Hx] Ha Hz Hi Hv HQ. unfold stw. destruct (Z.eqb_spec (v + 4 * i) 0); [lia|].
  destruct (page_word v i Ha Hi) as [-> ->].
  apply wp_bind. unfold wp at 1, get_page. rewrite Hx. unfold put_page. apply wp_bind.
  unfold wp at 1, get_page. rewrite Hx. apply wp_modify. by apply HQ.
Qed.

(** Reading words after writing one. *)
Lemma word_put m v i w x v' j :
  mem_ok m -> m !! v = Some x -> 0 <= i < 1024 -> 0 <= j < 1024 ->
  word (<[v := put32 (Z.to_nat (4 * i)) w x]> m) v' j =
    if decide (v' = v /\ j = i) then u32 w else word m v' j.
Proof.
  intros Hm Hx Hi Hj. destruct (Hm v x Hx) as [Hl _]. unfold word.
  destruct (decide (v' = v)) as [->|Hv].
  - rewrite lookup_insert_eq, Hx. destruct (decide (j = i)) as [->|Hne].
    + rewrite decide_True by done. apply get_put32. rewrite Hl. unfold PGSIZE. lia.
    + rewrite decide_False by tauto. apply get32_put32_ne; [rewrite Hl; unfold PGSIZE; lia|lia].
  - rewrite decide_False by tauto. by rewrite lookup_insert_ne by done.
Qed.

Lemma mem_ok_put m v i w x :
  mem_ok m -> m !! v = Some x -> 0 <= i < 1024 -> mem_ok (<[v := put32 (Z.to_nat (4 * i)) w x]> m).
Proof.
  intros Hm Hx Hi. destruct (Hm v x Hx) as [Hl Hb]. apply mem_ok_insert; [done| |].
  - rewrite put32_length; [done|]. rewrite Hl. unfold PGSIZE. lia.
  - apply bytes_ok_splice; [apply le_bytes_ok|done].
Qed.

Lemma word_zero m v i : 0 <= i < 1024 -> word (<[v := page_of 0]> m) v i = 0.
Proof.
  intros Hi. unfold word. rewrite lookup_insert_eq. unfold get32, bslice, page_of.
  rewrite drop_replicate, take_replicate. unfold PGSIZE.
  replace (Nat.min 4 _) with 4%nat by lia. done.
Qed.

Section Walk.
Variable kend : Z.

Definition vm_ok (s : kst) (pgdir : Z) (l : list Z) : Prop :=
  free_rep kend s l /\ dir_ok (pages s) pgdir l /\ 0 <= pgdir.

Lemma table_nonneg w : 0 <= p2v w.
Proof. unfold p2v. apply u32_range. Qed.

Lemma table_at_nonneg m pgdir i t : table_at m pgdir i = Some t -> 0 <= t.
Proof. unfold table_at. destruct (has _ _); [|done]. intros [= <-]. apply table_nonneg. Qed.

Lemma wp_walk0 (s : kst) pgdir va l :
  vm_ok s pgdir l ->
  wp (walkpgdir pgdir va 0) (fun r s' => s' = s /\
    match table_at (pages s) pgdir (PDX va) with
    | Some t => r = t + 4 * PTX va /\ r <> 0
    | None => r = 0
    end) s.
Proof.
  intros (Hf & [[Hd [Ha Hz]] Hdf Ht Hi] & H0). pose proof (PDX_range va) as Hp. pose proof (PTX_range va) as Hq.
  unfold walkpgdir. apply wp_bind, wp_ldw; try done. unfold table_at.
  destruct (has (word (pages s) pgdir (PDX va)) PTE_P) eqn:E; [|by apply wp_ret].
  apply wp_ret. split; [done|]. split; [done|].
  destruct (Ht (PDX va) (p2v (PTE_ADDR (word (pages s) pgdir (PDX va))))) as (_ & _ & Hne & _); [done| |].
  - unfold table_at. by rewrite E.
  - pose proof (table_nonneg (PTE_ADDR (word (pages s) pgdir (PDX va)))). lia.
Qed.

(** The directory entry [walkpgdir] stores for a new table. *)
Lemma new_pde t : page_ok kend t ->
  Z.lor (Z.lor (Z.lor (v2p t) PTE_P) PTE_W) PTE_U = v2p t + 7 /\
  u32 (v2p t + 7) = v2p t + 7 /\ p2v (PTE_ADDR (v2p t + 7)) = t /\ has (v2p t + 7) PTE_P = true.
Proof.
  intros (Ha & _ & Ht). pose proof (v2p_kernel _ Ht) as Ev.
  assert (v2p t mod PGSIZE = 0) as Hal by (rewrite Ev; unfold PGSIZE, KERNBASE in *; zlia).
  assert (0 <= v2p t < PHYSTOP) as Hr by lia. unfold PHYSTOP in Hr.
  rewrite <- !Z.lor_assoc. change (Z.lor PTE_P (Z.lor PTE_W PTE_U)) with 7.
  rewrite lor_flags by (unfold PGSIZE in *; lia || done). split_and!.
  - done.
  - apply u32_small. lia.
  - rewrite PTE_ADDR_flags by (try done; unfold PGSIZE; lia). by apply p2v_v2p.
  - assert (v2p t = 4096 * (v2p t / 4096)) as E by (unfold PGSIZE in Hal; zlia).
    by rewrite has_P, Z.odd_add, E, Z.odd_mul.
Qed.

Section NewTable.
Context (m : gmap Z (list Z)) (pgdir i t : Z) (l : list Z) (d : list Z).
Hypotheses (Hm : mem_ok m) (Hok : dir_ok m pgdir (t :: l)) (Ht : page_ok kend t)
           (Hmt : is_Some (m !! t)) (Hnd : t ∉ l) (Hi : 0 <= i < 1024)
           (Hnone : table_at m pgdir i = None)
           (Hd : <[t := page_of 0]> m !! pgdir = Some d).
Let m' := <[pgdir := put32 (Z.to_nat (4 * i)) (v2p t + 7) d]> (<[t := page_of 0]> m).

Lemma newtable_ne : t <> pgdir.
Proof using All. intros ->. apply (do_dirfree _ _ _ Hok). by left. Qed.

Lemma newtable_mem0 : mem_ok (<[t := page_of 0]> m).
Proof using All. apply mem_ok_insert; [done|apply page_of_ok; lia..]. Qed.

Lemma newtable_word v j : 0 <= j < 1024 ->
  word m' v j = if decide (v = pgdir /\ j = i) then v2p t + 7 else if decide (v = t) then 0 else word m v j.
Proof using All.
  intros Hj. unfold m'. rewrite word_put by (done || apply newtable_mem0).
  destruct (new_pde t Ht) as (_ & -> & _). case_decide as Hc; [done|].
  destruct (decide (v = t)) as [->|Hv]; [by apply word_zero|]. unfold word.
  by rewrite lookup_insert_ne by done.
Qed.

Lemma newtable_at j : 0 <= j < 1024 ->
  table_at m' pgdir j = if decide (j = i) then Some t else table_at m pgdir j.
Proof using All.
  intros Hj. unfold table_at. rewrite newtable_word by done.
  destruct (new_pde t Ht) as (_ & _ & Ea & Eh).
  destruct (decide (j = i)) as [->|Hne].
  - rewrite decide_True by done. by rewrite Eh, Ea.
  - rewrite decide_False by tauto. rewrite decide_False; [done|]. pose proof newtable_ne. congruence.
Qed.

Lemma newtable_pte va : pte_at m' pgdir va = pte_at m pgdir va.
Proof using All.
  unfold pte_at. pose proof (PDX_range va) as Hp. pose proof (PTX_range va) as Hq.
  rewrite newtable_at by done. destruct (decide (PDX va = i)) as [->|Hne].
  - rewrite Hnone, newtable_word by done. rewrite decide_False by (pose proof newtable_ne; tauto).
    by rewrite decide_True.
  - destruct (table_at m pgdir (PDX va)) as [u|] eqn:E; [|done].
    destruct (do_tab _ _ _ Hok _ _ Hp E) as (_ & _ & _ & Hud & Huf).
    rewrite newtable_word by done. rewrite decide_False by tauto. rewrite decide_False; [done|].
    intros ->. apply Huf. by left.
Qed.

Lemma newtable_ok : dir_ok m' pgdir l /\ mem_ok m'.
Proof using All.
  pose proof newtable_ne as Hne. destruct Hok as [[Hdd [Hda Hdz]] Hdf Htab Hinj].
  assert (forall v, is_Some (m !! v) -> is_Some (m' !! v)) as Hk.
  { intros v Hv. unfold m'. destruct (decide (v = pgdir)) as [->|]; [rewrite lookup_insert_eq; eauto|].
    rewrite lookup_insert_ne by done. destruct (decide (v = t)) as [->|]; [rewrite lookup_insert_eq; eauto|].
    by rewrite lookup_insert_ne. }
  split; [|by apply mem_ok_put; [apply newtable_mem0|..]]. constructor.
  - split; [by apply Hk|done].
  - set_solver.
  - intros j u Hj. rewrite newtable_at by done. destruct (decide (j = i)) as [->|Hji].
    + intros [= <-]. destruct Ht as (Ha & _ & Hr). unfold KERNBASE in Hr. split_and!; try done; [by apply Hk|lia].
    + intros E. destruct (Htab j u Hj E) as (H1 & H2 & H3 & H4 & H5). split_and!; try done; [by apply Hk|set_solver].
  - intros j k u Hj Hk'. rewrite !newtable_at by done.
    destruct (decide (j = i)) as [->|], (decide (k = i)) as [->|]; try done.
    + intros [= <-] E. destruct (Htab k t Hk' E) as (_ & _ & _ & _ & H5). set_solver.
    + intros E [= <-]. destruct (Htab j t Hj E) as (_ & _ & _ & _ & H5). set_solver.
    + apply Hinj; done.
Qed.
End NewTable.

(** The pages other than the directory, its tables and free pages are untouched. *)
Definition frames_kept (pgdir : Z) (l : list Z) (m m' : gmap Z (list Z)) : Prop :=
  forall v, v <> pgdir -> v ∉ l -> (forall i, 0 <= i < 1024 -> table_at m pgdir i <> Some v) ->
    m' !! v = m !! v /\ forall i, 0 <= i < 1024 -> table_at m' pgdir i <> Some v.

Lemma frames_kept_refl pgdir l m : frames_kept pgdir l m m.
Proof. intros v Hv Hl Ht. done. Qed.

(** The tables of [m] are tables of [m'], and the others of [m'] are the pages [ts]. *)
Record grows (pgdir : Z) (ts : list Z) (m m' : gmap Z (list Z)) : Prop := {
  gr_old : forall j t, 0 <= j < 1024 -> table_at m pgdir j = Some t -> table_at m' pgdir j = Some t;
  gr_new : forall j t, 0 <= j < 1024 -> table_at m' pgdir j = Some t -> table_at m pgdir j = Some t \/ t ∈ ts;
  gr_all : forall t, t ∈ ts -> exists j, 0 <= j < 1024 /\ table_at m' pgdir j = Some t
}.
Lemma grows_same pgdir m m' :
  (forall j, 0 <= j < 1024 -> table_at m' pgdir j = table_at m pgdir j) -> grows pgdir [] m m'.
Proof. intros H. split; [intros j t Hj; by rewrite H|intros j t Hj; rewrite H by done; by left|by intros t ?%not_elem_of_nil]. Qed.
Lemma grows_trans pgdir ts us m m1 m2 : grows pgdir ts m m1 -> grows pgdir us m1 m2 -> grows pgdir (ts ++ us) m m2.
Proof.
  intros [O1 N1 A1] [O2 N2 A2]. split.
  - intros j t Hj Ht. by apply O2, O1.
  - intros j t Hj [Ht|Ht]%N2; [|set_solver|done]. apply N1 in Ht as [Ht|Ht]; [by left|set_solver|done].
  - intros t [(j & Hj & Ht)%A1|Ht%A2]%elem_of_app; [exists j; eauto|done].
Qed.

(** How many of the [k] tables from directory index [i] on are missing. *)
Definition lacking (m : gmap Z (list Z)) (pgdir i k : Z) : nat :=
  length (filter (fun j => table_at m pgdir j = None) (seqZ i k)).
Lemma lacking_cons m pgdir i k : 0 < k ->
  lacking m pgdir i k = ((if table_at m pgdir i is None then 1 else 0) + lacking m pgdir (i + 1) (k - 1))%nat.
Proof.
  intros Hk. unfold lacking. rewrite seqZ_cons by done. rewrite filter_cons. unfold Z.succ, Z.pred.
  replace (k + -1) with (k - 1) by lia. destruct (table_at m pgdir i); simpl; done.
Qed.
Lemma lacking_ext m m' pgdir i k :
  (forall j, i <= j < i + k -> table_at m' pgdir j = table_at m pgdir j) -> lacking m' pgdir i k = lacking m pgdir i k.
Proof.
  intros H. unfold lacking. assert (forall j, j ∈ seqZ i k -> table_at m' pgdir j = table_at m pgdir j) as Hin.
  { intros j Hj%elem_of_seqZ. by apply H. }
  induction (seqZ i k) as [|j js IH]; [done|]. rewrite !filter_cons, Hin by (by left).
  case_decide; simpl; rewrite IH; done || intros; apply Hin; by right.
Qed.

(** [walkpgdir] with [alloc]: the entry's address; the mapping is unchanged. *)
Lemma wp_walk1 (s : kst) pgdir va l :
  vm_ok s pgdir l -> (table_at (pages s) pgdir (PDX va) = None -> l <> []) ->
  wp (walkpgdir pgdir va 1) (fun r s' => exists t l',
    r = t + 4 * PTX va /\ r <> 0 /\
    (forall j, 0 <= j < 1024 -> table_at (pages s') pgdir j =
       if decide (j = PDX va) then Some t else table_at (pages s) pgdir j) /\
    vm_ok s' pgdir l' /\
    (table_at (pages s) pgdir (PDX va) = Some t /\ l' = l \/ table_at (pages s) pgdir (PDX va) = None /\ l = t :: l') /\
    (forall x, pte_at (pages s') pgdir x = pte_at (pages s) pgdir x) /\
    frames_kept pgdir l (pages s) (pages s')) s.
Proof.
  intros (Hf & Hok & H0) Hne. pose proof (PDX_range va) as Hp. pose proof (PTX_range va) as Hq.
  pose proof Hok as [[Hd [Ha Hz]] Hdf Ht Hi].
  unfold walkpgdir. apply wp_bind, wp_ldw; try done. unfold table_at in Hne.
  destruct (has (word (pages s) pgdir (PDX va)) PTE_P) eqn:E.
  - apply wp_ret. set (t := p2v (PTE_ADDR (word (pages s) pgdir (PDX va)))).
    assert (table_at (pages s) pgdir (PDX va) = Some t) as Et by (unfold table_at; by rewrite E).
    destruct (Ht _ _ Hp Et) as (_ & _ & Htz & _). pose proof (table_at_nonneg _ _ _ _ Et).
    exists t, l. split_and!; try done; [lia| |by left]. intros j Hj. case_decide as Ej; [by rewrite Ej|done].
  - destruct l as [|t l]; [by destruct Hne|]. change (1 =? 0) with false. cbv iota.
    apply wp_bind. eapply wp_mono; [by eapply wp_kalloc|]. intros r s1 (Epg & -> & Hf1).
    pose proof Hf as [Hch Hnd Hm]. simpl in Hch. destruct Hch as (_ & Htok & x & Hx & _).
    apply NoDup_cons in Hnd as [Hnd _]. pose proof (page_aligned_nonzero _ _ Htok) as Htz.
    rewrite (proj2 (Z.eqb_neq t 0) Htz). apply wp_bind. unfold put_page. apply wp_bind.
    unfold wp at 1, get_page. rewrite Epg, Hx. apply wp_modify. rewrite Epg.
    assert (t <> pgdir) as Htp by (intros ->; apply Hdf; by left).
    apply wp_bind, wp_stw; try done; simpl; [by rewrite lookup_insert_ne|].
    intros d Hd'. apply wp_ret. simpl. destruct (new_pde t Htok) as (-> & _).
    assert (table_at (pages s) pgdir (PDX va) = None) as En by (unfold table_at; by rewrite E).
    pose proof (newtable_ok _ _ _ _ _ _ Hm Hok Htok (ex_intro _ x Hx) Hnd Hp En Hd') as [Hok' Hm'].
    pose proof (newtable_at _ _ _ _ _ _ Hm Hok Htok (ex_intro _ x Hx) Hnd Hp En Hd') as Hat.
    exists t, l. split_and!.
    + done.
    + destruct Htok as (_ & _ & Hr). unfold KERNBASE in Hr. lia.
    + exact Hat.
    + split_and!; try done. destruct Hf1 as [Hc1 Hn1 _]. constructor; simpl; [|done|done].
      rewrite Epg in Hc1. apply chain_insert; [set_solver|]. by apply chain_insert.
    + by right.
    + intros y. exact (newtable_pte _ _ _ _ _ _ Hm Hok Htok (ex_intro _ x Hx) Hnd Hp En Hd' y).
    + intros v Hv1 Hv2 Hv3. split.
      * rewrite lookup_insert_ne by done. rewrite lookup_insert_ne by set_solver. done.
      * intros i Hi'. rewrite Hat by done. case_decide; [set_solver|by apply Hv3].
Qed.

(** Storing an entry through the pointer [walkpgdir] returned. *)
Lemma wp_set_pte (s : kst) pgdir va t l w (Q : unit -> kst -> Prop) :
  vm_ok s pgdir l -> table_at (pages s) pgdir (PDX va) = Some t -> 0 <= va < 2 ^ 32 ->
  (forall s', vm_ok s' pgdir l ->
     (forall j, 0 <= j < 1024 -> table_at (pages s') pgdir j = table_at (pages s) pgdir j) ->
     (forall x, 0 <= x < 2 ^ 32 -> pte_at (pages s') pgdir x =
        if decide (x / PGSIZE = va / PGSIZE) then u32 w else pte_at (pages s) pgdir x) ->
     frames_kept pgdir l (pages s) (pages s') -> Q tt s') ->
  wp (stw (t + 4 * PTX va) w) Q s.
Proof.
  intros (Hf & Hok & H0) Et Hva HQ. pose proof (PDX_range va) as Hp. pose proof (PTX_range va) as Hq.
  pose proof Hok as [[Hd [Ha Hz]] Hdf Htab Hinj]. pose proof Hf as [Hch Hnd Hm].
  destruct (Htab _ _ Hp Et) as (Hts & Hta & Htz & Htp & Htf). pose proof (table_at_nonneg _ _ _ _ Et) as Htn.
  apply wp_stw; try done. intros x Hx. apply HQ; clear HQ; simpl.
  all: set (m' := <[t := _]> (pages s)).
  all: assert (forall v j, 0 <= j < 1024 -> word m' v j = if decide (v = t /\ j = PTX va) then u32 w
         else word (pages s) v j) as Hw by (intros; by apply word_put).
  all: assert (forall j, 0 <= j < 1024 -> table_at m' pgdir j = table_at (pages s) pgdir j) as Hat.
  1, 3, 5, 7: intros j Hj; unfold table_at; rewrite Hw by done; rewrite decide_False by naive_solver; done.
  - split_and!; [|constructor|done].
    + constructor; simpl; [by apply chain_insert|done|by apply mem_ok_put].
    + split; [|done]. simpl. unfold m'. by rewrite lookup_insert_ne.
    + done.
    + intros i u Hi' Eu. rewrite Hat in Eu by done. destruct (Htab i u Hi' Eu) as ([y Hy] & H2 & H3 & H4 & H5).
      split_and!; try done. simpl. unfold m'. destruct (decide (u = t)) as [->|]; [rewrite lookup_insert_eq; eauto|].
      rewrite lookup_insert_ne by done. eauto.
    + intros i j u Hi' Hj. rewrite !Hat by done. by apply Hinj.
  - exact Hat.
  - intros y Hy. unfold pte_at. pose proof (PDX_range y) as Hpy. pose proof (PTX_range y) as Hqy.
    rewrite Hat by done. destruct (decide (y / PGSIZE = va / PGSIZE)) as [Es|Es].
    + apply same_entry in Es as [-> ->]; [|done|done]. by rewrite Et, Hw, decide_True.
    + destruct (table_at (pages s) pgdir (PDX y)) as [u|] eqn:Eu; [|done]. rewrite Hw by done.
      rewrite decide_False; [done|]. intros [-> Hpt]. apply Es, same_entry; try done. split; [|done].
      by apply (Hinj _ _ t).
  - intros v Hv1 Hv2 Hv3. split; [|intros i Hi'; rewrite Hat by done; by apply Hv3].
    unfold m'. rewrite lookup_insert_ne; [done|]. intros <-. by apply (Hv3 (PDX va)).
Qed.

Lemma frames_kept_trans pgdir l l1 m m1 m2 :
  (forall v, v ∈ l1 -> v ∈ l) -> frames_kept pgdir l m m1 -> frames_kept pgdir l1 m1 m2 ->
  frames_kept pgdir l m m2.
Proof.
  intros Hl H1 H2 v Hv1 Hv2 Hv3. destruct (H1 v Hv1 Hv2 Hv3) as [E1 T1].
  destruct (H2 v Hv1) as [E2 T2]; [naive_solver|done|]. split; [by rewrite E2|done].
Qed.

(** The entry [mappages] stores for the page at [pa]. *)
Definition entry (pa perm : Z) : Z := u32 (Z.lor (Z.lor pa perm) PTE_P).

(** One round: map the page of [a]. *)
Lemma wp_map_one (s : kst) pgdir a l pa perm (k : M kst Z) (Q : Z -> kst -> Prop) :
  vm_ok s pgdir l -> (table_at (pages s) pgdir (PDX a) = None -> l <> []) -> 0 <= a < 2 ^ 32 ->
  has (pte_at (pages s) pgdir a) PTE_P = false ->
  (forall s' t l', vm_ok s' pgdir l' ->
     (forall j, 0 <= j < 1024 -> table_at (pages s') pgdir j =
        if decide (j = PDX a) then Some t else table_at (pages s) pgdir j) ->
     (table_at (pages s) pgdir (PDX a) = Some t /\ l' = l \/ table_at (pages s) pgdir (PDX a) = None /\ l = t :: l') ->
     (forall x, 0 <= x < 2 ^ 32 -> pte_at (pages s') pgdir x =
        if decide (x / PGSIZE = a / PGSIZE) then entry pa perm else pte_at (pages s) pgdir x) ->
     frames_kept pgdir l (pages s) (pages s') -> wp k Q s') ->
  wp (pte <- walkpgdir pgdir a 1 ;;
      if pte =? 0 then ret (-1) else
      w <- ldw pte ;;
      if has w PTE_P then panic "remap" else
      stw pte (Z.lor (Z.lor pa perm) PTE_P) ;;; k) Q s.
Proof.
  intros Hvm Hl Ha Hnp Hk. apply wp_bind. eapply wp_mono; [by apply (wp_walk1 s pgdir a l)|].
  intros r s1 (t & l1 & -> & Hr & Hat & Hvm1 & Hl1 & Hpte & Hfr). rewrite (proj2 (Z.eqb_neq _ _) Hr).
  pose proof Hvm1 as (_ & Hok & _). pose proof (PTX_range a) as Hq. pose proof (PDX_range a) as Hp.
  assert (table_at (pages s1) pgdir (PDX a) = Some t) as Et by (rewrite Hat by done; by rewrite decide_True).
  destruct (do_tab _ _ _ Hok _ _ Hp Et) as (Hts & Hta & Htz & _).
  apply wp_bind, wp_ldw; try done; [by eapply table_at_nonneg|].
  assert (word (pages s1) t (PTX a) = pte_at (pages s1) pgdir a) as -> by (unfold pte_at; by rewrite Et).
  rewrite Hpte, Hnp. apply wp_bind. eapply wp_set_pte; [done|done|done|].
  intros s2 Hvm2 Hat2 Hp2 Hfr2. apply (Hk s2 t l1); [done| |done| |].
  - intros j Hj. by rewrite Hat2, Hat.
  - intros x Hx. rewrite Hp2 by done. case_decide; [done|apply Hpte].
  - eapply frames_kept_trans; [|done|done]. intros v Hv. destruct Hl1 as [[_ ->]|[_ ->]]; [done|by right].
Qed.

(** Without a free page for a missing table. *)
Lemma walk1_full (s : kst) pgdir va :
  vm_ok s pgdir [] -> table_at (pages s) pgdir (PDX va) = None -> walkpgdir pgdir va 1 s = Done 0 s.
Proof.
  intros (Hf & [[Hd [Ha Hz]] Hdf Ht Hi] & H0) Hn. unfold table_at in Hn.
  destruct (has (word (pages s) pgdir (PDX va)) PTE_P) eqn:E; [done|].
  pose proof (wp_ldw s pgdir (PDX va) (fun w s' => w = word (pages s) pgdir (PDX va) /\ s' = s) Hd Ha Hz (PDX_range va) H0
    (conj eq_refl eq_refl)) as (w & s1 & E1 & -> & ->)%wp_inv.
  pose proof (wp_kalloc kend s [] Hf) as (r & s2 & E2 & _ & -> & ->)%wp_inv.
  unfold walkpgdir, bind. rewrite E1, E. simpl. by rewrite E2.
Qed.

(** What mapping the [n] pages from [a] on at [pa] does: a page of the free list for every missing
    table, or failure with the free list used up. *)
Definition mapped (pgdir a pa perm n : Z) (l : list Z) (s : kst) (r : Z) (s' : kst) : Prop :=
  let b := PDX (a + (n - 1) * PGSIZE) in
  let k := lacking (pages s) pgdir (PDX a) (b - PDX a + 1) in
  frames_kept pgdir l (pages s) (pages s') /\
  ((r = 0 /\ exists l1 l2, l = l1 ++ l2 /\ length l1 = k /\ vm_ok s' pgdir l2 /\
     grows pgdir l1 (pages s) (pages s') /\
     (forall j, 0 <= j < 1024 ->
        table_at (pages s') pgdir j = None <-> table_at (pages s) pgdir j = None /\ ~ PDX a <= j <= b) /\
     forall x, 0 <= x < 2 ^ 32 -> pte_at (pages s') pgdir x =
       let i := x / PGSIZE - a / PGSIZE in
       if decide (0 <= i < n) then entry (pa + i * PGSIZE) perm else pte_at (pages s) pgdir x) \/
   (r = -1 /\ (length l < k)%nat /\ vm_ok s' pgdir [])).

Lemma PDX_next a : 0 <= a -> a + PGSIZE < 2 ^ 32 -> PDX (a + PGSIZE) = PDX a \/ PDX (a + PGSIZE) = PDX a + 1.
Proof. intros Ha Hl. rewrite !PDX_div by (unfold PGSIZE in *; lia). unfold PGSIZE. change (2 ^ 22) with 4194304. zlia. Qed.
Lemma PDX_mono a b : 0 <= a <= b -> b < 2 ^ 32 -> PDX a <= PDX b.
Proof. intros Hab Hb. rewrite !PDX_div by lia. apply Z.div_le_mono; lia. Qed.

(** The tables missing for the pages after [a], once there is one for [a]. *)
Lemma lacking_step m m' pgdir a b t :
  0 <= a -> a + PGSIZE <= b -> b < 2 ^ 32 ->
  (forall j, 0 <= j < 1024 -> table_at m' pgdir j = if decide (j = PDX a) then Some t else table_at m pgdir j) ->
  lacking m pgdir (PDX a) (PDX b - PDX a + 1) =
  ((if table_at m pgdir (PDX a) is None then 1 else 0) +
   lacking m' pgdir (PDX (a + PGSIZE)) (PDX b - PDX (a + PGSIZE) + 1))%nat.
Proof.
  intros Ha Hab Hb Hat. assert (PDX (a + PGSIZE) <= PDX b) as Hm by (apply PDX_mono; unfold PGSIZE in *; lia).
  pose proof (PDX_range a). pose proof (PDX_range b). pose proof (PDX_range (a + PGSIZE)).
  assert (lacking m' pgdir (PDX a + 1) (PDX b - PDX a) = lacking m pgdir (PDX a + 1) (PDX b - PDX a)) as Ex.
  { apply lacking_ext. intros j Hj. rewrite Hat by lia. by rewrite decide_False by lia. }
  destruct (PDX_next a) as [E|E]; [done|unfold PGSIZE in *; lia| |]; rewrite E in *.
  - rewrite (lacking_cons m), (lacking_cons m') by lia. replace (PDX b - PDX a + 1 - 1) with (PDX b - PDX a) by lia.
    rewrite Ex, (Hat (PDX a)) by done. by rewrite decide_True.
  - rewrite lacking_cons by lia. replace (PDX b - PDX a + 1 - 1) with (PDX b - PDX a) by lia.
    replace (PDX b - (PDX a + 1) + 1) with (PDX b - PDX a) by lia. by rewrite Ex.
Qed.

Lemma wp_mappages_loop n fuel (s : kst) pgdir a pa perm l :
  vm_ok s pgdir l -> (S n <= fuel)%nat -> a mod PGSIZE = 0 ->
  0 <= a -> a + Z.of_nat (S n) * PGSIZE <= 2 ^ 32 -> 0 <= pa -> pa + Z.of_nat (S n) * PGSIZE <= 2 ^ 32 ->
  (forall i, 0 <= i < Z.of_nat (S n) -> has (pte_at (pages s) pgdir (a + i * PGSIZE)) PTE_P = false) ->
  wp (mappages_loop fuel pgdir a (a + Z.of_nat n * PGSIZE) pa perm) (mapped pgdir a pa perm (Z.of_nat (S n)) l s) s.
Proof.
  revert fuel s a pa l. induction n as [|n IH]; intros fuel s a pa l Hvm Hf Hal Ha0 Ha Hp0 Hpa Hnp;
    (destruct fuel as [|fuel]; [lia|]); cbn [mappages_loop]; unfold mapped.
  all: pose proof (PDX_range a) as Hp.
  all: assert (has (pte_at (pages s) pgdir a) PTE_P = false) as Hna
         by (specialize (Hnp 0 ltac:(lia)); by rewrite Z.add_0_r in Hnp).
  all: set (b := a + (Z.of_nat (S _) - 1) * PGSIZE).
  all: assert (PDX a <= PDX b) as Hab by (apply PDX_mono; unfold b, PGSIZE in *; lia).
  all: destruct (decide (table_at (pages s) pgdir (PDX a) = None /\ l = [])) as [[Hn ->]|Hl].
  1, 3: unfold wp, bind; rewrite walk1_full by done; cbn; split; [apply frames_kept_refl|];
    right; split_and!; try done; fold b; rewrite lacking_cons by lia; rewrite Hn; simpl; lia.
  all: apply (wp_map_one s pgdir a l); [done|naive_solver|unfold PGSIZE in *; lia|done|].
  all: intros s1 t l1 Hvm1 Hat1 Hl1 Hp1 Hfr1.
  all: set (ts := if table_at (pages s) pgdir (PDX a) is None then [t] else []).
  all: assert (l = ts ++ l1 /\ length ts = if table_at (pages s) pgdir (PDX a) is None then 1%nat else 0%nat) as [El Hts]
         by (unfold ts; destruct Hl1 as [[-> ->]|[-> ->]]; done).
  all: assert (grows pgdir ts (pages s) (pages s1)) as Hg.
  1, 3: unfold ts; split; [intros j u Hj Hu; rewrite Hat1 by done; case_decide as E; [subst j|done];
      destruct Hl1 as [[Hs _]|[Hs _]]; congruence
    |intros j u Hj; rewrite Hat1 by done; case_decide as E; [subst j|by left]; intros [= <-];
      destruct Hl1 as [[-> _]|[-> _]]; [by left|right; by left]
    |intros u; destruct Hl1 as [[-> _]|[-> _]]; [by intros ?%not_elem_of_nil|intros ->%list_elem_of_singleton];
      exists (PDX a); split; [done|]; rewrite Hat1 by done; by rewrite decide_True].
  - rewrite Z.add_0_r, Z.eqb_refl. apply wp_ret. split; [done|]. left. split; [done|]. exists ts, l1. split_and!; try done.
    + rewrite Hts. fold b. replace b with a by (unfold b; lia). rewrite lacking_cons by lia.
      replace (PDX a - PDX a + 1 - 1) with 0 by lia. unfold lacking at 1. simpl. lia.
    + intros j Hj. fold b. replace b with a by (unfold b; lia). rewrite Hat1 by done. case_decide; [|naive_solver lia].
      split; [done|]. intros [_ Hc]. lia.
    + intros x Hx. rewrite Hp1 by done. simpl.
      destruct (decide (x / PGSIZE = a / PGSIZE)) as [->|Hne].
      * rewrite decide_True by lia. f_equal. lia.
      * by rewrite decide_False by lia.
  - destruct (Z.eqb_spec a (a + Z.of_nat (S n) * PGSIZE)); [unfold PGSIZE in *; lia|].
    rewrite (u32_small (a + PGSIZE)), (u32_small (pa + PGSIZE)) by (unfold PGSIZE in *; zlia).
    replace (a + Z.of_nat (S n) * PGSIZE) with (a + PGSIZE + Z.of_nat n * PGSIZE) by lia.
    assert ((a + PGSIZE) / PGSIZE = a / PGSIZE + 1) as Ediv by (unfold PGSIZE; zlia).
    assert (forall i, 0 <= i -> (a + i * PGSIZE) / PGSIZE = a / PGSIZE + i) as Edi
      by (intros; rewrite Z.div_add by (unfold PGSIZE; lia); lia).
    eapply wp_mono.
    { apply (IH fuel s1 (a + PGSIZE) (pa + PGSIZE) l1); try (unfold PGSIZE in *; lia); [done|unfold PGSIZE in *; zlia|].
      intros i Hi. replace (a + PGSIZE + i * PGSIZE) with (a + (i + 1) * PGSIZE) by lia.
      rewrite Hp1 by (unfold PGSIZE in *; nia). rewrite Edi by lia. rewrite decide_False by lia. apply Hnp. lia. }
    intros r s2 [Hfr2 H2]. split.
    { eapply frames_kept_trans; [|exact Hfr1|exact Hfr2]. intros v Hv. rewrite El. apply elem_of_app. by right. }
    replace (a + PGSIZE + (Z.of_nat (S n) - 1) * PGSIZE) with b in H2 by (unfold b; lia). fold b.
    rewrite (lacking_step _ (pages s1) pgdir a b t) by (done || unfold b, PGSIZE in *; lia). rewrite <- Hts.
    destruct H2 as [(-> & l2 & l3 & E & Hk & Hvm2 & Hg2 & Ht2 & Hp2)|(-> & Hlt & Hvm2)].
    + left. split; [done|]. exists (ts ++ l2), l3. split_and!.
      * by rewrite <- app_assoc, <- E.
      * rewrite length_app. lia.
      * done.
      * by eapply grows_trans.
      * intros j Hj. rewrite Ht2 by done. rewrite Hat1 by done.
        destruct (PDX_next a Ha0 ltac:(unfold PGSIZE in *; lia)) as [En|En]; rewrite En; case_decide; naive_solver lia.
      * intros x Hx. cbv zeta. rewrite Hp2 by done. cbv zeta. rewrite Ediv.
        destruct (decide (0 <= x / PGSIZE - (a / PGSIZE + 1) < Z.of_nat (S n))) as [Hi|Hi].
        -- rewrite decide_True by lia. f_equal. lia.
        -- rewrite Hp1 by done. destruct (decide (x / PGSIZE = a / PGSIZE)) as [Eq|Hne].
           ++ rewrite decide_True by lia. f_equal. lia.
           ++ by rewrite decide_False by lia.
    + right. split_and!; [done| |done]. rewrite El, length_app. lia.
Qed.

Lemma wp_mappages (s : kst) pgdir va size pa perm l :
  let n := (va + size - 1) / PGSIZE - va / PGSIZE in
  vm_ok s pgdir l -> 0 <= va -> 0 < size -> va + size <= 2 ^ 32 ->
  0 <= pa -> pa + (n + 1) * PGSIZE <= 2 ^ 32 ->
  (forall i, 0 <= i <= n -> has (pte_at (pages s) pgdir (va + i * PGSIZE - va mod PGSIZE)) PTE_P = false) ->
  wp (mappages pgdir va size pa perm) (mapped pgdir (va - va mod PGSIZE) pa perm (n + 1) l s) s.
Proof.
  intros n Hvm Hva Hsz Hend Hpa Hpe Hnp. unfold mappages.
  rewrite (u32_small va), (u32_small (va + size - 1)) by zlia. rewrite !round_down by lia.
  set (a := va - va mod PGSIZE).
  assert (0 <= n) as Hn by (unfold n, PGSIZE; zlia).
  replace (va + size - 1 - (va + size - 1) mod PGSIZE) with (a + Z.of_nat (Z.to_nat n) * PGSIZE)
    by (rewrite Z2Nat.id by lia; unfold a, n, PGSIZE; zlia).
  replace (n + 1) with (Z.of_nat (S (Z.to_nat n))) by lia.
  apply wp_mappages_loop; try done; rewrite ?Nat2Z.inj_succ, ?Z2Nat.id by lia.
  - apply Nat2Z.inj_le. rewrite Nat2Z.inj_succ, !Z2Nat.id by lia. unfold n, PGSIZE. zlia.
  - unfold a, PGSIZE. zlia.
  - unfold a, PGSIZE. zlia.
  - unfold a, n, PGSIZE. zlia.
  - lia.
  - intros i Hi. unfold a. replace (va - va mod PGSIZE + i * PGSIZE) with (va + i * PGSIZE - va mod PGSIZE) by lia.
    apply Hnp. lia.
Qed.

(** C28. [mappages] maps a range of pages none of which is mapped yet.  With a free page for
    every page table the range lacks, it takes just those, returns 0, every address of the
    range then translates to the corresponding physical page with the permissions asked
    for, and every other entry and every other page of memory is unchanged; with fewer it
    returns -1. *)
Theorem mappages_maps (s : kst) pgdir va size pa perm l :
  let n := (va + size - 1) / PGSIZE - va / PGSIZE in
  let a := va - va mod PGSIZE in
  let k := lacking (pages s) pgdir (PDX a) (PDX (a + n * PGSIZE) - PDX a + 1) in
  vm_ok s pgdir l -> 0 <= va -> 0 < size -> va + size <= 2 ^ 32 ->
  0 <= pa -> pa + (n + 1) * PGSIZE <= 2 ^ 32 ->
  (forall i, 0 <= i <= n -> has (pte_at (pages s) pgdir (va + i * PGSIZE - va mod PGSIZE)) PTE_P = false) ->
  wp (mappages pgdir va size pa perm) (fun r s' => frames_kept pgdir l (pages s) (pages s') /\
    if (k <=? length l)%nat then
      r = 0 /\ vm_ok s' pgdir (drop k l) /\
      forall x, 0 <= x < 2 ^ 32 -> pte_at (pages s') pgdir x =
        let i := x / PGSIZE - va / PGSIZE in
        if decide (0 <= i <= n) then entry (pa + i * PGSIZE) perm else pte_at (pages s) pgdir x
    else r = -1) s.
Proof.
  intros n a k Hvm Hva Hsz Hend Hpa Hpe Hnp. eapply wp_mono; [by apply wp_mappages|]. fold n a.
  assert (a / PGSIZE = va / PGSIZE) as Ea by (unfold a, PGSIZE; zlia).
  unfold mapped. replace (n + 1 - 1) with n by lia. fold k. intros r s' [Hfr H]. split; [done|].
  clearbody k. destruct H as [(-> & l1 & l2 & -> & Hk & Hvm' & _ & _ & Hp)|(-> & Hlt & _)].
  - rewrite (proj2 (Nat.leb_le k _)) by (rewrite length_app; lia).
    split_and!; [done|by rewrite <- Hk, drop_app_length|]. intros x Hx. cbv zeta. rewrite Hp by done. cbv zeta. rewrite Ea.
    destruct (decide (0 <= x / PGSIZE - va / PGSIZE <= n)); [rewrite decide_True by lia|rewrite decide_False by lia]; done.
  - by rewrite (proj2 (Nat.leb_gt k _)).
Qed.
End Walk.

(** A directory page and free pages, freshly booted. *)
Definition dir0 : Z := 0x80400000.
Definition page0 (next : Z) : list Z := put32 0 next (page_of 1).
Definition vm0 : kst :=
  mkK (<[dir0 := page_of 0]> (<[0x80401000 := page0 0x80402000]> (<[0x80402000 := page0 0]> ∅))) 0x80401000.

Lemma page0_next next : 0 <= next < 2 ^ 32 -> get32 0 (page0 next) = next.
Proof.
  intros H. unfold page0. rewrite get_put32 by (rewrite (proj1 (page_of_ok 1 ltac:(lia))); unfold PGSIZE; lia).
  apply u32_small. zlia.
Qed.

Lemma page0_ok next : length (page0 next) = Z.to_nat PGSIZE /\ bytes_ok (page0 next).
Proof.
  destruct (page_of_ok 1 ltac:(lia)) as [Hl Hb]. unfold page0. split.
  - rewrite put32_length; [done|]. rewrite Hl. unfold PGSIZE. lia.
  - apply bytes_ok_splice; [apply le_bytes_ok|done].
Qed.

Lemma vm0_table i : 0 <= i < 1024 -> table_at (pages vm0) dir0 i = None.
Proof. intros Hi. unfold table_at, vm0. simpl pages. by rewrite word_zero. Qed.

Lemma vm0_ok : vm_ok 0x80400000 vm0 dir0 [0x80401000; 0x80402000].
Proof.
  pose proof vm0_table as Hn. split_and!; [constructor|constructor|done]; simpl.
  - unfold vm0. simpl pages. split_and!; try done; eexists; split.
    { rewrite lookup_insert_ne by done. by rewrite lookup_insert_eq. }
    rewrite page0_next by lia. split_and!; try done. eexists. split.
    { rewrite !lookup_insert_ne by done. by rewrite lookup_insert_eq. }
    by rewrite page0_next by lia.
  - apply NoDup_cons. split; [|apply NoDup_singleton]. rewrite list_elem_of_singleton. lia.
  - unfold vm0. simpl pages. destruct (page_of_ok 0 ltac:(lia)) as [H0 H0'].
    apply mem_ok_insert; [|exact H0|exact H0'].
    apply mem_ok_insert; [|exact (proj1 (page0_ok _))|exact (proj2 (page0_ok _))].
    apply mem_ok_insert; [|exact (proj1 (page0_ok _))|exact (proj2 (page0_ok _))].
    intros v x H. by rewrite lookup_empty in H.
  - split_and!; [|done|done]. unfold vm0. simpl pages. rewrite lookup_insert_eq. eauto.
  - unfold dir0. rewrite !not_elem_of_cons. split_and!; try lia. apply not_elem_of_nil.
  - intros i t Hi E. by rewrite Hn in E.
  - intros i j t Hi Hj E. by rewrite Hn in E.
Qed.

(** Map the first user page. *)
Lemma mappages_maps_witness :
  wp (mappages dir0 0 PGSIZE 0x402000 (Z.lor PTE_W PTE_U)) (fun r s' =>
    r = 0 /\ pte_at (pages s') dir0 100 = 0x402007) vm0.
Proof.
  eapply wp_mono.
  - apply (mappages_maps 0x80400000 vm0 dir0 0 PGSIZE 0x402000 (Z.lor PTE_W PTE_U) [0x80401000; 0x80402000]).
    + exact vm0_ok.
    + lia.
    + unfold PGSIZE. lia.
    + unfold PGSIZE. lia.
    + lia.
    + by vm_compute.
    + intros i Hi. unfold pte_at. rewrite vm0_table by apply PDX_range. reflexivity.
  - assert (lacking (pages vm0) dir0 0 1 = 1%nat) as E by (by rewrite lacking_cons, vm0_table by lia).
    intros r s' [_ H]. change (PDX (0 - 0 mod PGSIZE)) with 0 in H.
    replace (PDX _ - 0 + 1) with 1 in H by reflexivity. rewrite E in H. simpl in H. destruct H as (-> & _ & Hp). split; [reflexivity|]. rewrite Hp by lia. reflexivity.
Defined.

(** ** Two flaws *)

(** [allocuvm] does not look at the result of [mappages]: with a single free
    page it takes the page for user memory, fails to get one for the page
    table, and still returns the new size, with nothing mapped there. *)
Theorem allocuvm_unmapped :
  wp (allocuvm 0x80400000 dir0 0 PGSIZE)
     (fun r s' => r = PGSIZE /\ freelist s' = 0 /\ pte_at (pages s') dir0 0 = 0)
     (mkK (<[dir0 := page_of 0]> (<[0x80401000 := page0 0]> ∅)) 0x80401000).
Proof. vm_compute. split_and!; reflexivity. Qed.
