(* ===== verification/Uvm.v ===== *)
(** * User address spaces: what the page-table routines of vm.c keep and change

    An address space owns its page directory, its page tables and the frames its user
    addresses map to.  The files of the development state what [allocuvm], [deallocuvm], [copyuvm],
    [copyout], [setupkvm] and [freevm] do to the memory a process sees and to the pages
    that are owned or free. *)

From S2P Require Import Prelude Kalloc Vm.

Definition user (a : Z) : Prop := 0 <= a < KERNBASE.
(** The frame an address maps to. *)
Definition frame_at (m : gmap Z (list Z)) (d a : Z) : option Z :=
  let w := pte_at m d a in if has w PTE_P then Some (p2v (PTE_ADDR w)) else None.
(** The contents of the page an address lies in. *)
Definition upage (m : gmap Z (list Z)) (d a : Z) : option (list Z) := f ← frame_at m d a; m !! f.
(** The byte at an address. *)
Definition umem (m : gmap Z (list Z)) (d x : Z) : option Z := p ← upage m d x; p !! Z.to_nat (x mod PGSIZE).

Inductive own (m : gmap Z (list Z)) (d : Z) : Z -> Prop :=
| own_dir : own m d d
| own_table i t : 0 <= i < 1024 -> table_at m d i = Some t -> own m d t
| own_frame a f : user a -> frame_at m d a = Some f -> own m d f.

(** Neither the free list nor the address space holds the page. *)
Definition alien (m : gmap Z (list Z)) (d : Z) (l : list Z) (v : Z) : Prop := (v ∉ l) /\ ~ own m d v.

(** ** Entries *)

Definition flags_of (perm : Z) : Z := Z.lor perm PTE_P.
Lemma perm_flags perm : 0 <= perm < PGSIZE -> 0 <= flags_of perm < PGSIZE.
Proof.
  intros Hp. unfold flags_of, PGSIZE in *. split; [apply Z.lor_nonneg; unfold PTE_P; lia|].
  change 4096 with (2 ^ 12) in *. destruct (decide (Z.lor perm PTE_P = 0)) as [->|Hn]; [lia|].
  assert (0 <= Z.lor perm PTE_P) by (apply Z.lor_nonneg; unfold PTE_P; lia).
  apply Z.log2_lt_pow2; [lia|]. rewrite Z.log2_lor by (unfold PTE_P; lia).
  apply Z.max_lub_lt; [|done]. destruct (decide (perm = 0)) as [->|]; [done|]. apply Z.log2_lt_pow2; lia.
Qed.
Lemma land_aligned pa q b : pa mod PGSIZE = 0 -> 0 <= q < PGSIZE -> 0 <= b < PGSIZE -> Z.land (pa + q) b = Z.land q b.
Proof.
  intros Ha Hq Hb. rewrite <- lor_flags by done. rewrite Z.land_lor_distr_l. unfold PGSIZE in *.
  assert (Z.land pa b = 0) as ->; [|done].
  assert (b = Z.land b (Z.ones 12)) as -> by (rewrite Z.land_ones by lia; change (2 ^ 12) with 4096; symmetry; apply Z.mod_small; lia).
  rewrite (Z.land_comm b), Z.land_assoc, Z.land_ones by lia. change (2 ^ 12) with 4096. by rewrite Ha.
Qed.

(** Reading back the entry for a page. *)
Lemma entry_frame kend f perm : page_ok kend f -> 0 <= perm < PGSIZE ->
  has (entry (v2p f) perm) PTE_P = true /\ p2v (PTE_ADDR (entry (v2p f) perm)) = f /\
  PTE_FLAGS (entry (v2p f) perm) = flags_of perm /\
  forall b, 0 <= b < PGSIZE -> has (entry (v2p f) perm) b = has (flags_of perm) b.
Proof.
  intros (Ha & _ & Ht) Hp. pose proof (v2p_kernel _ Ht) as Ev. pose proof (perm_flags _ Hp) as Hf.
  assert (v2p f mod PGSIZE = 0) as Hal by (rewrite Ev; unfold PGSIZE, KERNBASE in *; zlia).
  assert (0 <= v2p f < PHYSTOP) as Hr by lia. unfold PHYSTOP in Hr.
  assert (entry (v2p f) perm = v2p f + flags_of perm) as E.
  { unfold entry. rewrite <- Z.lor_assoc. fold (flags_of perm). rewrite lor_flags by done. apply u32_small. unfold PGSIZE in *; lia. }
  rewrite E. assert (forall b, 0 <= b < PGSIZE -> has (v2p f + flags_of perm) b = has (flags_of perm) b) as Hb.
  { intros b Hb. unfold has. by rewrite land_aligned. }
  split_and!; [|rewrite PTE_ADDR_flags by (try done; lia); by apply p2v_v2p| |done].
  - rewrite Hb by (unfold PTE_P, PGSIZE; lia). unfold flags_of. rewrite has_P, <- Z.bit0_odd, Z.lor_spec. apply orb_true_r.
  - unfold PTE_FLAGS. rewrite u32_small by (unfold PGSIZE in *; lia). rewrite land_aligned by (done || unfold PGSIZE; lia).
    change 0xFFF with (Z.ones 12). rewrite Z.land_ones by lia. apply Z.mod_small. done.
Qed.

Lemma frame_none_P m d a : frame_at m d a = None <-> has (pte_at m d a) PTE_P = false.
Proof. unfold frame_at. by destruct (has _ _). Qed.
Lemma frame_same m m' d a : pte_at m' d a = pte_at m d a -> frame_at m' d a = frame_at m d a.
Proof. unfold frame_at. by intros ->. Qed.
(** All addresses of a page have one entry. *)
Lemma pte_page m d a b : 0 <= a < 2 ^ 32 -> 0 <= b < 2 ^ 32 -> a / PGSIZE = b / PGSIZE -> pte_at m d a = pte_at m d b.
Proof. intros Ha Hb [E1 E2]%same_entry; [|done..]. unfold pte_at. by rewrite E1, E2. Qed.
Lemma frame_page m d a b : user a -> user b -> a / PGSIZE = b / PGSIZE -> frame_at m d a = frame_at m d b.
Proof. unfold user, KERNBASE. intros Ha Hb E. unfold frame_at. by rewrite (pte_page m d a b) by (done || lia). Qed.

(** ** Well-formed address spaces *)

Section Space.
Variable kend : Z.

Record space (s : kst) (d : Z) (l : list Z) : Prop := {
  sp_vm : vm_ok kend s d l;
  sp_dir : page_ok kend d;
  sp_tab : forall i t, 0 <= i < 1024 -> table_at (pages s) d i = Some t -> page_ok kend t;
  sp_frame : forall a f, user a -> frame_at (pages s) d a = Some f ->
    page_ok kend f /\ is_Some (pages s !! f) /\ (f ∉ l) /\ f <> d /\
    forall i, 0 <= i < 1024 -> table_at (pages s) d i <> Some f;
  sp_inj : forall a b f, user a -> user b -> frame_at (pages s) d a = Some f -> frame_at (pages s) d b = Some f ->
    a / PGSIZE = b / PGSIZE
}.

Lemma free_page s l v : free_rep kend s l -> v ∈ l -> page_ok kend v /\ is_Some (pages s !! v).
Proof.
  intros [Hc _ _]. revert Hc. generalize (freelist s) as p. induction l as [|w l IH]; intros p Hc Hv; [by apply not_elem_of_nil in Hv|].
  destruct Hc as (-> & Hok & x & Hx & Hc). apply elem_of_cons in Hv as [->|Hv]; [eauto|by eapply IH].
Qed.

Lemma own_ok s d l v : space s d l -> own (pages s) d v ->
  page_ok kend v /\ is_Some (pages s !! v) /\ (v ∉ l).
Proof.
  intros [(Hf & [[Hd _] Hdf Ht _] & _) H1 H2 H3 _] Ho. destruct Ho as [|i t Hi E|a f Ha E].
  - done.
  - destruct (Ht i t Hi E) as (Hs & _ & _ & _ & Hn). split_and!; try done. by eapply H2.
  - destruct (H3 a f Ha E) as (? & ? & ? & _). done.
Qed.

Lemma space_mem s d l : space s d l -> mem_ok (pages s).
Proof. intros [(Hf & _) _ _ _ _]. apply (fr_mem _ _ _ Hf). Qed.
Lemma space_free_rep s d l : space s d l -> free_rep kend s l.
Proof. intros [(Hf & _) _ _ _ _]. done. Qed.

(** What only depends on the pages an address space owns. *)
Lemma same_pages m m' d : (forall v, own m d v -> m' !! v = m !! v) ->
  (forall i, 0 <= i < 1024 -> table_at m' d i = table_at m d i) /\ (forall a, pte_at m' d a = pte_at m d a) /\
  (forall a, frame_at m' d a = frame_at m d a) /\
  (forall v, own m' d v <-> own m d v) /\ (forall a, user a -> upage m' d a = upage m d a).
Proof.
  intros H. assert (forall i, 0 <= i < 1024 -> table_at m' d i = table_at m d i) as Ht.
  { intros i Hi. unfold table_at, word. by rewrite H by apply own_dir. }
  assert (forall a, pte_at m' d a = pte_at m d a) as Hp.
  { intros a. unfold pte_at. rewrite Ht by apply PDX_range. destruct (table_at m d (PDX a)) as [t|] eqn:E; [|done].
    unfold word. by rewrite H by (eapply own_table; [|exact E]; apply PDX_range). }
  assert (forall a, frame_at m' d a = frame_at m d a) as Hf by (intros; by apply frame_same).
  split_and!; try done.
  - intros v. split; (intros [|i t Hi E|a f Ha E]; [apply own_dir| |]).
    + rewrite Ht in E by done. by eapply own_table.
    + rewrite Hf in E. by eapply own_frame.
    + rewrite <- Ht in E by done. by eapply own_table.
    + rewrite <- Hf in E. by eapply own_frame.
  - intros a Ha. unfold upage. rewrite Hf. destruct (frame_at m d a) as [f|] eqn:E; [|done]. simpl. apply H. by eapply own_frame.
Qed.

(** An address space whose pages another component leaves alone. *)
Lemma space_bystander s s' d l l' :
  space s d l -> (forall v, own (pages s) d v -> pages s' !! v = pages s !! v) ->
  free_rep kend s' l' -> (forall v, v ∈ l' -> ~ own (pages s) d v) -> space s' d l'.
Proof.
  intros Hs Hsame Hf Hl. destruct (same_pages _ _ _ Hsame) as (Ht & _ & Hfr & _ & _).
  pose proof Hs as [(_ & [[Hd Hd'] Hdf Htab Hinj] & H0) H1 H2 H3 H4].
  assert (forall v, own (pages s) d v -> v ∉ l') as Hni by (intros v Hv Hv'; by apply (Hl v)).
  split; [split_and!; [done| |done]|done|..].
  - split; [rewrite Hsame by apply own_dir; done|apply Hni, own_dir| |].
    + intros i t Hi E. rewrite Ht in E by done. pose proof (own_table _ _ _ _ Hi E) as Ho.
      destruct (Htab i t Hi E) as (? & ? & ? & ? & _). rewrite Hsame by done. split_and!; try done. by apply Hni.
    + intros i j t Hi Hj. rewrite !Ht by done. by apply Hinj.
  - intros i t Hi. rewrite Ht by done. by apply H2.
  - intros a f Ha E. rewrite Hfr in E. pose proof (own_frame _ _ _ _ Ha E) as Ho.
    destruct (H3 a f Ha E) as (? & ? & _ & ? & Hnt). rewrite Hsame by done. split_and!; try done; [by apply Hni|].
    intros i Hi. rewrite Ht by done. by apply Hnt.
  - intros a b f Ha Hb. rewrite !Hfr. by apply H4.
Qed.

Lemma space_same s s' d l l' :
  space s d l -> pages s' = pages s -> free_rep kend s' l' -> (forall v, v ∈ l' -> v ∈ l) -> space s' d l'.
Proof.
  intros Hs E Hf Hl. eapply space_bystander; [done|by rewrite E|done|].
  intros v Hv Ho. apply Hl in Hv. by apply (own_ok _ _ _ _ Hs) in Ho as (_ & _ & Hn).
Qed.

Lemma wp_put_page s v x (Q : unit -> kst -> Prop) :
  is_Some (pages s !! v) -> Q tt (mkK (<[v := x]> (pages s)) (freelist s)) -> wp (put_page v x) Q s.
Proof. intros [y Hy] HQ. unfold put_page. apply wp_bind. unfold wp, get_page. rewrite Hy. done. Qed.
Lemma wp_get_page s v x (Q : list Z -> kst -> Prop) : pages s !! v = Some x -> Q x s -> wp (get_page v) Q s.
Proof. intros E HQ. unfold wp, get_page. by rewrite E. Qed.

(** Writing a page that is neither a directory nor a table. *)
Lemma put_tables m d v x : v <> d -> (forall i, 0 <= i < 1024 -> table_at m d i <> Some v) ->
  (forall i, 0 <= i < 1024 -> table_at (<[v := x]> m) d i = table_at m d i) /\
  (forall a, pte_at (<[v := x]> m) d a = pte_at m d a) /\ forall l, dir_ok m d l -> dir_ok (<[v := x]> m) d l.
Proof.
  intros Hd Ht. assert (forall w, w <> v -> <[v := x]> m !! w = m !! w) as Hne by (intros w Hw; by rewrite lookup_insert_ne).
  assert (forall w, is_Some (m !! w) -> is_Some (<[v := x]> m !! w)) as Hsome.
  { intros w Hw. destruct (decide (w = v)) as [->|]; [rewrite lookup_insert_eq; eauto|by rewrite Hne]. }
  assert (forall i, 0 <= i < 1024 -> table_at (<[v := x]> m) d i = table_at m d i) as Et.
  { intros i Hi. unfold table_at, word. by rewrite Hne by done. }
  split_and!; [done| |].
  - intros a. unfold pte_at. rewrite Et by apply PDX_range. destruct (table_at m d (PDX a)) as [t|] eqn:E; [|done].
    unfold word. rewrite Hne; [done|]. intros ->. by apply (Ht (PDX a)); [apply PDX_range|].
  - intros l [[Hdd Hd'] Hdf Htab Hinj]. split; [split; [by apply Hsome|done]|done| |].
    + intros i t Hi E. rewrite Et in E by done. destruct (Htab i t Hi E) as (? & ? & ? & ? & ?). split_and!; try done. by apply Hsome.
    + intros i j t Hi Hj. rewrite !Et by done. by apply Hinj.
Qed.

Lemma own_same m m' d : (forall i, 0 <= i < 1024 -> table_at m' d i = table_at m d i) ->
  (forall a, pte_at m' d a = pte_at m d a) -> forall v, own m' d v <-> own m d v.
Proof.
  intros Et Ep. assert (forall a, frame_at m' d a = frame_at m d a) as Ef by (intros; by apply frame_same).
  intros v. split; (intros [|i t Hi E|a f Ha E]; [apply own_dir| |]).
  - rewrite Et in E by done. by eapply own_table.
  - rewrite Ef in E. by eapply own_frame.
  - rewrite <- Et in E by done. by eapply own_table.
  - rewrite <- Ef in E. by eapply own_frame.
Qed.

(** In particular a frame. *)
Lemma space_put s d l v x :
  space s d l -> (v ∉ l) -> v <> d -> (forall i, 0 <= i < 1024 -> table_at (pages s) d i <> Some v) ->
  length x = Z.to_nat PGSIZE -> bytes_ok x ->
  let s' := mkK (<[v := x]> (pages s)) (freelist s) in
  space s' d l /\ (forall i, 0 <= i < 1024 -> table_at (pages s') d i = table_at (pages s) d i) /\
  (forall a, pte_at (pages s') d a = pte_at (pages s) d a) /\ forall w, own (pages s') d w <-> own (pages s) d w.
Proof.
  intros Hs Hl Hd Ht Hlen Hb s'. pose proof Hs as [([Hc Hn Hm] & Hdir & H0) H1 H2 H3 H4].
  destruct (put_tables (pages s) d v x Hd Ht) as (Et & Ep & Hdir').
  assert (forall a, frame_at (pages s') d a = frame_at (pages s) d a) as Ef by (intros; by apply frame_same, Ep).
  split_and!; [|done|done|by apply own_same]. split; [split_and!; [| |done]|done|..].
  - split; [by apply chain_insert|done|by apply mem_ok_insert].
  - by apply Hdir'.
  - intros i t Hi. simpl. rewrite Et by done. by apply H2.
  - intros a f Ha E. rewrite Ef in E. destruct (H3 a f Ha E) as (? & ? & ? & ? & Hnt). split_and!; try done.
    + simpl. destruct (decide (f = v)) as [->|]; [rewrite lookup_insert_eq; eauto|by rewrite lookup_insert_ne].
    + intros i Hi. simpl. rewrite Et by done. by apply Hnt.
  - intros a b f Ha Hb'. rewrite !Ef. by apply H4.
Qed.

(** A page from the allocator belongs to no one. *)
Lemma space_kalloc s d l : space s d l ->
  wp kalloc (fun r s' => pages s' = pages s /\
    (l = [] /\ r = 0 /\ s' = s \/
     exists l', l = r :: l' /\ r <> 0 /\ page_ok kend r /\ is_Some (pages s !! r) /\ alien (pages s) d l' r /\ space s' d l')) s.
Proof.
  intros Hs. pose proof (space_free_rep _ _ _ Hs) as Hf. eapply wp_mono; [by apply (wp_kalloc kend s l)|].
  intros r s' [E H]. split; [done|]. destruct l as [|v l]; [destruct H as [-> ->]; by left|]. destruct H as [-> Hf'].
  right. exists l. destruct (free_page s _ v Hf) as [Hok Hsome]; [by left|]. split_and!; try done.
  - by eapply page_aligned_nonzero.
  - pose proof (fr_nodup _ _ _ Hf) as Hn. apply NoDup_cons in Hn as [Hn' _]. split; [done|].
    intros Ho. apply (own_ok _ _ _ _ Hs) in Ho as (_ & _ & Hn). apply Hn. by left.
  - eapply space_same; [done|done|done|]. intros w Hw. by right.
Qed.

(** What storing the frame [mem] at the page of [a] leads to: [l'] is what is left of the free list. *)
Record frame_mapped (s : kst) (d : Z) (l : list Z) (mem a perm : Z) (l' : list Z) (s' : kst) : Prop := {
  fm_space : space s' d l';
  fm_table : exists t, (forall j, 0 <= j < 1024 -> table_at (pages s') d j =
      if decide (j = PDX a) then Some t else table_at (pages s) d j) /\
    (table_at (pages s) d (PDX a) = Some t /\ l' = l \/ table_at (pages s) d (PDX a) = None /\ l = t :: l');
  fm_pte : forall x, 0 <= x < 2 ^ 32 -> pte_at (pages s') d x =
    if decide (x / PGSIZE = a / PGSIZE) then entry (v2p mem) perm else pte_at (pages s) d x;
  fm_frame : forall x, user x -> frame_at (pages s') d x =
    if decide (x / PGSIZE = a / PGSIZE) then Some mem else frame_at (pages s) d x;
  fm_kept : forall v, (v ∉ l) -> v <> d -> (forall i, 0 <= i < 1024 -> table_at (pages s) d i <> Some v) ->
    pages s' !! v = pages s !! v
}.

Section MapFrame.
Context (s : kst) (d : Z) (l : list Z) (mem a perm : Z).
Hypotheses (Hs : space s d l) (Hal : alien (pages s) d l mem) (Hok : page_ok kend mem) (Hmem : is_Some (pages s !! mem))
  (Ha : user a) (Hp : 0 <= perm < PGSIZE) (Hn : frame_at (pages s) d a = None).

Lemma user_word x : user x -> 0 <= x < 2 ^ 32.
Proof. unfold user, KERNBASE. lia. Qed.

Lemma frame_mapped_intro s' t l' :
  vm_ok kend s' d l' ->
  (forall j, 0 <= j < 1024 -> table_at (pages s') d j = if decide (j = PDX a) then Some t else table_at (pages s) d j) ->
  (table_at (pages s) d (PDX a) = Some t /\ l' = l \/ table_at (pages s) d (PDX a) = None /\ l = t :: l') ->
  (forall x, 0 <= x < 2 ^ 32 -> pte_at (pages s') d x =
     if decide (x / PGSIZE = a / PGSIZE) then entry (v2p mem) perm else pte_at (pages s) d x) ->
  frames_kept d l (pages s) (pages s') -> frame_mapped s d l mem a perm l' s'.
Proof using Hs Hal Hok Hmem Ha Hp Hn.
  intros Hvm Hat Hl Hpte Hfr. destruct (entry_frame _ _ _ Hok Hp) as (HP & Hm & _).
  pose proof (space_free_rep _ _ _ Hs) as Hfree. destruct Hal as [Hml Hmo]. pose proof (PDX_range a) as Hpx.
  assert (forall v, v ∈ l' -> v ∈ l) as Hsub by (destruct Hl as [[_ ->]|[_ ->]]; [done|by right]).
  assert (forall x, user x -> frame_at (pages s') d x =
    if decide (x / PGSIZE = a / PGSIZE) then Some mem else frame_at (pages s) d x) as Hframe.
  { intros x Hx. unfold frame_at. rewrite Hpte by by apply user_word. case_decide; [by rewrite HP, Hm|done]. }
  assert (forall j u, 0 <= j < 1024 -> table_at (pages s') d j = Some u -> table_at (pages s) d j = Some u \/ u ∈ l) as Htab.
  { intros j u Hj. rewrite Hat by done. case_decide as E; [subst j|by left]. intros [= <-].
    destruct Hl as [[? _]|[_ ->]]; [by left|right; by left]. }
  assert (mem <> d) as Hmd by (intros ->; apply Hmo, own_dir).
  assert (forall i, 0 <= i < 1024 -> table_at (pages s) d i <> Some mem) as Hmt.
  { intros i Hi E. by eapply Hmo, own_table. }
  split; [|by exists t|done|done|].
  - pose proof Hs as [_ H1 H2 H3 H4]. split; [done|done|..].
    + intros i u Hi E. destruct (Htab i u Hi E) as [E'|Hu]; [by eapply H2|apply (free_page s l u Hfree Hu)].
    + intros x f Hx. rewrite Hframe by done. case_decide.
      * intros [= <-]. destruct (Hfr mem Hmd Hml Hmt) as [-> Hnt]. split_and!; try done. intros Hin. by apply Hml, Hsub.
      * intros E. destruct (H3 x f Hx E) as (G1 & G2 & G3 & G4 & G5). destruct (Hfr f G4 G3 G5) as [-> Hnt].
        split_and!; try done. intros Hin. by apply G3, Hsub.
    + intros x y f Hx Hy. rewrite !Hframe by done. do 2 case_decide; try congruence.
      * intros [= <-] E. destruct Hmo. exact (own_frame _ _ _ _ Hy E).
      * intros E [= <-]. destruct Hmo. exact (own_frame _ _ _ _ Hx E).
      * by apply H4.
  - intros v Hv Hvd Hvt. by apply (Hfr v).
Qed.

Lemma wp_map_frame : a mod PGSIZE = 0 ->
  wp (mappages d a PGSIZE (v2p mem) perm) (fun r s' =>
    l = [] /\ table_at (pages s) d (PDX a) = None /\ r = -1 /\ s' = s \/
    r = 0 /\ exists l', frame_mapped s d l mem a perm l' s') s.
Proof using Hs Hal Hok Hmem Ha Hp Hn.
  intros Hmod. unfold mappages, user, KERNBASE in *. rewrite (u32_small a), (u32_small (a + PGSIZE - 1)) by (unfold PGSIZE; lia).
  rewrite !round_down by (unfold PGSIZE; lia).
  replace (a + PGSIZE - 1 - (a + PGSIZE - 1) mod PGSIZE) with a by (unfold PGSIZE in *; zlia).
  replace (a - a mod PGSIZE) with a by lia. destruct (Z.to_nat (2 ^ 20)) as [|n] eqn:En; [lia|].
  cbn [mappages_loop]. pose proof (sp_vm _ _ _ Hs) as Hvm.
  destruct (decide (table_at (pages s) d (PDX a) = None /\ l = [])) as [[Ht ->]|Hl].
  - unfold wp, bind. rewrite (walk1_full kend) by done. left. done.
  - apply (wp_map_one kend s d a l); [done|naive_solver|lia|by apply frame_none_P|].
    intros s' t l' H1 H2 H3 H4 H5. rewrite Z.eqb_refl. apply wp_ret. right. split; [done|]. exists l'.
    by apply (frame_mapped_intro s' t l').
Qed.
End MapFrame.

(** The pages an address space has after a mapping. *)
Lemma own_mapped s d l mem a perm l' s' : user a -> frame_at (pages s) d a = None -> frame_mapped s d l mem a perm l' s' ->
  (forall v, own (pages s') d v \/ v ∈ l' <-> own (pages s) d v \/ v ∈ l \/ v = mem) /\
  (forall v, own (pages s) d v -> own (pages s') d v).
Proof.
  intros Ha Hn [Hsp (t & Ht & Hl) _ Hf _]. pose proof (PDX_range a) as Hpx.
  assert (forall v, own (pages s) d v -> own (pages s') d v) as Hmono.
  { intros v [|i u Hi E|x f Hx E]; [apply own_dir| |].
    - apply (own_table _ _ i); [done|]. rewrite Ht by done. case_decide as Ei; [subst i|done]. destruct Hl as [[E' _]|[E' _]]; congruence.
    - apply (own_frame _ _ x); [done|]. rewrite Hf by done. case_decide as Ei; [|done].
      by rewrite (frame_page _ _ x a), Hn in E. }
  split; [|done]. intros v. split.
  - intros [[|i u Hi E|x f Hx E]|Hv].
    + left. apply own_dir.
    + rewrite Ht in E by done. case_decide as Ei; [subst i; injection E as <-|left; by eapply own_table].
      destruct Hl as [[E' _]|[_ ->]]; [left; by eapply own_table|right; left; by left].
    + rewrite Hf in E by done. case_decide; [injection E as <-; by right; right|left; by eapply own_frame].
    + right. left. destruct Hl as [[_ ->]|[_ ->]]; [done|by right].
  - intros [Ho|[Hv| ->]]; [left; by apply Hmono| |].
    + destruct Hl as [[_ ->]|[_ ->]]; [by right|]. apply elem_of_cons in Hv as [->|Hv]; [left|by right].
      apply (own_table _ _ (PDX a)); [done|]. rewrite Ht by done. by rewrite decide_True.
    + left. apply (own_frame _ _ a); [done|]. rewrite Hf by done. by rewrite decide_True.
Qed.

(** Unmapping the page of [a], whose frame [f] goes to the free list. *)
Record frame_freed (s : kst) (d : Z) (l : list Z) (a f : Z) (s' : kst) : Prop := {
  ff_space : space s' d (f :: l);
  ff_table : forall j, 0 <= j < 1024 -> table_at (pages s') d j = table_at (pages s) d j;
  ff_pte : forall x, 0 <= x < 2 ^ 32 -> pte_at (pages s') d x =
    if decide (x / PGSIZE = a / PGSIZE) then 0 else pte_at (pages s) d x;
  ff_kept : forall v, (v ∉ l) -> v <> d -> v <> f -> (forall i, 0 <= i < 1024 -> table_at (pages s) d i <> Some v) ->
    pages s' !! v = pages s !! v
}.
Lemma ff_frame s d l a f s' x : frame_freed s d l a f s' -> user x ->
  frame_at (pages s') d x = if decide (x / PGSIZE = a / PGSIZE) then None else frame_at (pages s) d x.
Proof. intros [_ _ Hp _] Hx. unfold frame_at. rewrite Hp by by apply user_word. by case_decide. Qed.

Lemma wp_free_frame s d l a f t : space s d l -> user a -> frame_at (pages s) d a = Some f ->
  table_at (pages s) d (PDX a) = Some t ->
  wp (kfree kend f ;;; stw (t + 4 * PTX a) 0) (fun _ s' => frame_freed s d l a f s') s.
Proof.
  intros Hs Ha Hf Ht. pose proof Hs as [(Hfr & Hdir & H0) H1 H2 H3 H4].
  destruct (H3 a f Ha Hf) as (Fok & Fs & Fl & Fd & Ft). apply wp_bind.
  eapply wp_mono; [apply (wp_kfree kend s l f); try done; apply (free_rep_head _ _ _ Hfr)|].
  intros [] s1 (Hfr1 & _ & Epg). set (y := put32 _ _ _) in Epg.
  destruct (put_tables (pages s) d f y Fd Ft) as (Et & Ep & Hd1). rewrite <- Epg in Et, Ep. specialize (Hd1 l Hdir). rewrite <- Epg in Hd1.
  assert (vm_ok kend s1 d (f :: l)) as Hvm1.
  { split_and!; [done| |done]. destruct Hd1 as [G1 G2 G3 G4]. split; [done|set_solver| |done].
    intros i u Hi E. destruct (G3 i u Hi E) as (? & ? & ? & ? & ?). split_and!; try done.
    rewrite Et in E by done. apply not_elem_of_cons. split; [|done]. intros ->. by apply (Ft i). }
  eapply wp_set_pte; [exact Hvm1|by rewrite Et by apply PDX_range|by apply user_word|].
  intros s2 Hvm2 Et2 Ep2 Hfr2. change (u32 0) with 0 in Ep2.
  assert (forall x, 0 <= x < 2 ^ 32 -> pte_at (pages s2) d x =
    if decide (x / PGSIZE = a / PGSIZE) then 0 else pte_at (pages s) d x) as Ep'.
  { intros x Hx. rewrite Ep2 by done. case_decide; [done|apply Ep]. }
  assert (forall v, (v ∉ l) -> v <> d -> v <> f -> (forall i, 0 <= i < 1024 -> table_at (pages s) d i <> Some v) ->
    pages s2 !! v = pages s !! v /\ forall i, 0 <= i < 1024 -> table_at (pages s2) d i <> Some v) as Hk.
  { intros v Hv Hvd Hvf Hvt. destruct (Hfr2 v) as [-> Hnt]; [done|set_solver| |].
    - intros i Hi. rewrite Et by done. by apply Hvt.
    - split; [|done]. rewrite Epg. by rewrite lookup_insert_ne. }
  assert (forall x g, user x -> frame_at (pages s2) d x = Some g -> x / PGSIZE <> a / PGSIZE /\ frame_at (pages s) d x = Some g) as Hframe.
  { intros x g Hx. unfold frame_at. rewrite Ep' by by apply user_word. by case_decide. }
  split; [split; [done|done|..]| |done|by apply Hk].
  - intros i u Hi. rewrite Et2, Et by done. by apply H2.
  - intros x g Hx E. destruct (Hframe x g Hx E) as [Hne E']. destruct (H3 x g Hx E') as (G1 & G2 & G3 & G4 & G5).
    assert (g <> f) as Hgf by (intros ->; by apply Hne, (H4 x a f)). destruct (Hk g) as [-> Hnt]; try done.
    split_and!; try done. set_solver.
  - intros x y' g Hx Hy [_ E1]%Hframe [_ E2]%Hframe; [|done..]. by apply (H4 x y' g).
  - intros j Hj. by rewrite Et2, Et.
Qed.
(** ** Freeing a range *)

(** The page of [x] starts before [hi] and is not before the one of [lo]. *)
Definition within (lo hi x : Z) : Prop := lo / PGSIZE <= x / PGSIZE /\ x / PGSIZE * PGSIZE < hi.
#[local] Instance within_dec lo hi x : Decision (within lo hi x).
Proof. unfold within. apply _. Defined.

(** The frames of the pages from [lo] to [hi] have gone to the free list. *)
Record range_freed (s : kst) (d : Z) (l : list Z) (lo hi : Z) (l' : list Z) (s' : kst) : Prop := {
  rf_space : space s' d l';
  rf_table : forall j, 0 <= j < 1024 -> table_at (pages s') d j = table_at (pages s) d j;
  rf_pte : forall x, 0 <= x < 2 ^ 32 -> ~ within lo hi x -> pte_at (pages s') d x = pte_at (pages s) d x;
  rf_gone : forall x, user x -> within lo hi x -> frame_at (pages s') d x = None;
  rf_list : forall v, v ∈ l' <-> v ∈ l \/ exists x, user x /\ within lo hi x /\ frame_at (pages s) d x = Some v;
  rf_kept : forall v, (v ∉ l) -> v <> d -> (forall i, 0 <= i < 1024 -> table_at (pages s) d i <> Some v) ->
    (forall x, user x -> within lo hi x -> frame_at (pages s) d x <> Some v) -> pages s' !! v = pages s !! v
}.

Lemma range_freed_none s d l lo hi : space s d l ->
  (forall x, user x -> within lo hi x -> frame_at (pages s) d x = None) -> range_freed s d l lo hi l s.
Proof.
  intros Hs Hn. split; try done. intros v. split; [by left|]. intros [?|(x & Hx & Hw & E)]; [done|]. by rewrite Hn in E.
Qed.

(** Pages at the start of the range that have no frame. *)
Lemma range_freed_skip s d l lo lo' hi l' s' : lo <= lo' ->
  (forall x, user x -> within lo hi x -> ~ within lo' hi x -> frame_at (pages s) d x = None) ->
  range_freed s d l lo' hi l' s' -> range_freed s d l lo hi l' s'.
Proof.
  intros Hlo Hn [H1 H2 H3 H4 H5 H6].
  assert (lo / PGSIZE <= lo' / PGSIZE) as Hd by (apply Z.div_le_mono; [unfold PGSIZE; lia|done]).
  assert (forall x, within lo' hi x -> within lo hi x) as Hsub by (unfold within; lia).
  split; try done.
  - intros x Hx Hw. apply H3; [done|naive_solver].
  - intros x Hx Hw. destruct (decide (within lo' hi x)) as [Hw'|Hw']; [by apply H4|].
    rewrite (frame_same (pages s)) by (apply H3; [by apply user_word|done]). by apply Hn.
  - intros v. rewrite H5. split; (intros [?|(x & Hx & Hw & E)]; [by left|right]); exists x; split_and!; try done; [by apply Hsub|].
    destruct (decide (within lo' hi x)) as [|Hw']; [done|]. by rewrite Hn in E.
  - intros v Hv Hvd Hvt Hvx. apply H6; try done. intros x Hx Hw. apply Hvx; [done|by apply Hsub].
Qed.

(** One page, then the rest. *)
Lemma range_freed_step s d l a f s1 hi l' s' :
  space s d l -> user a -> a mod PGSIZE = 0 -> a < hi -> frame_at (pages s) d a = Some f -> frame_freed s d l a f s1 ->
  range_freed s1 d (f :: l) (a + PGSIZE) hi l' s' -> range_freed s d l a hi l' s'.
Proof.
  intros Hs Ha Hal Hhi Hf Hff [H1 H2 H3 H4 H5 H6]. pose proof Hff as [F1 F2 F3 F4].
  assert ((a + PGSIZE) / PGSIZE = a / PGSIZE + 1) as Ediv by (unfold PGSIZE; zlia).
  assert (forall x, within a hi x <-> x / PGSIZE = a / PGSIZE \/ within (a + PGSIZE) hi x) as Hw.
  { intros x. unfold within. rewrite Ediv. assert (a / PGSIZE * PGSIZE = a) by (unfold PGSIZE in *; zlia). split; [lia|].
    intros [->|]; lia. }
  pose proof Hs as [_ _ _ G3 G4]. split; try done.
  - intros j Hj. by rewrite H2, F2.
  - intros x Hx Hnw. rewrite Hw in Hnw. rewrite H3 by tauto. rewrite F3 by done. by rewrite decide_False by tauto.
  - intros x Hx Hxw. apply Hw in Hxw as [E|Hxw]; [|by apply H4].
    rewrite (frame_same (pages s1)).
    + rewrite (ff_frame _ _ _ _ _ _ x Hff) by done. by rewrite decide_True.
    + apply H3; [by apply user_word|]. unfold within. rewrite Ediv. lia.
  - intros v. rewrite H5, elem_of_cons. split.
    + intros [[->|Hv]|(x & Hx & Hxw & E)]; [|by left|].
      * right. exists a. split_and!; try done. apply Hw. by left.
      * right. exists x. rewrite (ff_frame _ _ _ _ _ _ x Hff) in E by done. case_decide; [done|].
        split_and!; try done. apply Hw. by right.
    + intros [Hv|(x & Hx & Hxw & E)]; [left; by right|]. destruct (decide (x / PGSIZE = a / PGSIZE)) as [Ex|Ex].
      * left. left. rewrite (frame_page _ _ x a), Hf in E by done. by injection E.
      * right. exists x. rewrite (ff_frame _ _ _ _ _ _ x Hff) by done. rewrite decide_False by done.
        split_and!; try done. apply Hw in Hxw as [|]; done.
  - intros v Hv Hvd Hvt Hvx. assert (v <> f) as Hvf.
    { intros ->. apply (Hvx a Ha); [|done]. apply Hw. by left. }
    rewrite H6; [by apply F4|set_solver|done| |].
    + intros i Hi. rewrite F2 by done. by apply Hvt.
    + intros x Hx Hxw. rewrite (ff_frame _ _ _ _ _ _ x Hff) by done. case_decide; [done|]. apply Hvx; [done|].
      apply Hw. by right.
Qed.
(** [deallocuvm] goes on 4 MB further where a table is missing, from wherever it is; so it must come to a
    missing table at its start, or there must be nothing to free after it. *)
Definition no_skip (m : gmap Z (list Z)) (d a hi : Z) : Prop :=
  a mod 2 ^ 22 = 0 \/ table_at m d (PDX a) <> None \/
  forall x, user x -> within a hi x -> frame_at m d x = None.

Lemma table_none_frames m d a hi x : user a -> user x -> a mod 2 ^ 22 = 0 -> table_at m d (PDX a) = None ->
  within a hi x -> ~ within (a + 2 ^ 22) hi x -> frame_at m d x = None.
Proof.
  intros Ha Hx Hal Hn [H1 H2] H3. apply frame_none_P. unfold pte_at.
  assert (PDX x = PDX a) as ->; [|by rewrite Hn].
  rewrite !PDX_div by by apply user_word. unfold within in H3.
  assert (x / PGSIZE < (a + 2 ^ 22) / PGSIZE) as H4 by lia. clear - H1 H4 Hal Ha. unfold user, PGSIZE in *.
  change (2 ^ 22) with 4194304 in *. zlia.
Qed.

Lemma no_skip_next m d a hi t : table_at m d (PDX a) = Some t -> a mod PGSIZE = 0 -> user a -> no_skip m d (a + PGSIZE) hi.
Proof.
  unfold user, KERNBASE. intros Ht Hal Ha. unfold no_skip.
  destruct (PDX_next a) as [E|E]; [lia|unfold PGSIZE; lia|right; left; by rewrite E, Ht|left].
  rewrite !PDX_div in E by (unfold PGSIZE; lia). unfold PGSIZE in *. change (2 ^ 22) with 4194304 in *. zlia.
Qed.

(** The kernel ends above its first address. *)
Hypothesis Hkend : KERNBASE < kend.

Lemma wp_deallocuvm_loop fuel s d l a hi :
  space s d l -> 0 <= a -> hi <= KERNBASE -> a mod PGSIZE = 0 -> no_skip (pages s) d a hi ->
  hi - a <= Z.of_nat fuel * PGSIZE ->
  wp (deallocuvm_loop kend fuel d a hi) (fun _ s' => exists l', range_freed s d l a hi l' s') s.
Proof using Hkend.
  revert s l a. induction fuel as [|fuel IH]; intros s l a Hs Ha Hhi Hal Hsk Hfu; cbn [deallocuvm_loop].
  - destruct (Z.ltb_spec a hi); [lia|]. apply wp_ret. exists l. apply range_freed_none; [done|].
    intros x Hx [H1 H2]. unfold PGSIZE in *. zlia.
  - destruct (Z.ltb_spec a hi) as [Hlt|Hge].
    2: { apply wp_ret. exists l. apply range_freed_none; [done|]. intros x Hx [H1 H2]. unfold PGSIZE in *. zlia. }
    assert (user a) as Hu by (unfold user; lia). unfold KERNBASE in Hhi.
    assert ((a + PGSIZE) mod PGSIZE = 0) as Hal' by (unfold PGSIZE in *; zlia).
    apply wp_bind. eapply wp_mono; [apply (wp_walk0 kend s d a l), (sp_vm _ _ _ Hs)|]. intros r s' [-> Hr].
    destruct (table_at (pages s) d (PDX a)) as [t|] eqn:Et.
    + destruct Hr as [-> Hr0]. rewrite (proj2 (Z.eqb_neq _ _) Hr0).
      pose proof (sp_vm _ _ _ Hs) as (_ & Hdir & _). destruct (do_tab _ _ _ Hdir _ _ (PDX_range a) Et) as (Ht1 & Ht2 & Ht3 & _).
      apply wp_bind, wp_ldw; try done; [apply PTX_range|by eapply table_at_nonneg|].
      replace (word (pages s) t (PTX a)) with (pte_at (pages s) d a) by (unfold pte_at; by rewrite Et).
      rewrite (u32_small (a + PGSIZE)) by (unfold PGSIZE; lia).
      destruct (has (pte_at (pages s) d a) PTE_P) eqn:EP.
      * assert (frame_at (pages s) d a = Some (p2v (PTE_ADDR (pte_at (pages s) d a)))) as Ef by (unfold frame_at; by rewrite EP).
        set (f := p2v _) in Ef. destruct (sp_frame _ _ _ Hs a f Hu Ef) as ((_ & Fk & _) & _).
        destruct (Z.eqb_spec (PTE_ADDR (pte_at (pages s) d a)) 0) as [E0|_].
        { unfold f in Fk. rewrite E0 in Fk. change (p2v 0) with KERNBASE in Fk. lia. }
        fold f. apply wp_bind. eapply wp_mono; [by apply wp_free_frame|]. intros [] s1 Hff.
        eapply wp_mono; [apply (IH s1 (f :: l)); try done|].
        -- apply (ff_space _ _ _ _ _ _ Hff).
        -- unfold PGSIZE; lia.
        -- apply (no_skip_next _ _ _ _ t); try done. by rewrite (ff_table _ _ _ _ _ _ Hff) by apply PDX_range.
        -- unfold PGSIZE in *; lia.
        -- intros [] s2 [l' H2]. exists l'. by eapply range_freed_step.
      * apply wp_bind, wp_ret. eapply wp_mono; [apply (IH s l (a + PGSIZE)); try done|].
        -- unfold PGSIZE; lia.
        -- by apply (no_skip_next _ _ _ _ t).
        -- unfold PGSIZE in *; lia.
        -- intros [] s2 [l' H2]. exists l'. eapply (range_freed_skip s d l a (a + PGSIZE)); [unfold PGSIZE; lia| |done].
           intros x Hx [W1 W2] W3. rewrite (frame_page _ _ x a); [by apply frame_none_P|done|done|].
           unfold within in W3. unfold PGSIZE in *. zlia.
    + rewrite Hr. simpl Z.eqb. cbv iota.
      replace (u32 (u32 (a + (NPTENTRIES - 1) * PGSIZE) + PGSIZE)) with (a + 2 ^ 22).
      2: { unfold NPTENTRIES, PGSIZE. rewrite (u32_small (a + _)) by lia. rewrite u32_small by lia. lia. }
      assert (forall x, user x -> within a hi x -> ~ within (a + 2 ^ 22) hi x -> frame_at (pages s) d x = None) as Hgap.
      { intros x Hx W1 W2. destruct Hsk as [Hsk|[Hsk|Hsk]]; [by apply (table_none_frames _ _ a hi)|done|by apply Hsk]. }
      eapply wp_mono; [apply (IH s l (a + 2 ^ 22)); try done|].
      * lia.
      * unfold PGSIZE in *. change (2 ^ 22) with 4194304. zlia.
      * destruct Hsk as [Hsk|[Hsk|Hsk]]; [left|done|right; right].
        -- change (2 ^ 22) with 4194304 in *. zlia.
        -- intros x Hx [W1 W2]. apply Hsk; [done|]. split; [|done]. etrans; [|exact W1]. apply Z.div_le_mono; unfold PGSIZE; lia.
      * change (2 ^ 22) with 4194304 in *. unfold PGSIZE in *; lia.
      * intros [] s2 [l' H2]. exists l'. by eapply (range_freed_skip s d l a (a + 2 ^ 22)); [lia|..].
Qed.
Lemma within_user x : user x -> within 0 KERNBASE x.
Proof. intros Hx. unfold within, user, KERNBASE, PGSIZE in *. zlia. Qed.

Lemma wp_deallocuvm s d l oldsz newsz :
  space s d l -> 0 <= newsz -> newsz + PGSIZE <= 2 ^ 32 -> oldsz <= KERNBASE -> no_skip (pages s) d (PGROUNDUP newsz) oldsz ->
  wp (deallocuvm kend d oldsz newsz) (fun r s' => r = Z.min oldsz newsz /\
    exists l', range_freed s d l (PGROUNDUP newsz) oldsz l' s') s.
Proof using Hkend.
  intros Hs Hn Hn2 Ho Hsk. destruct (round_up newsz) as [Hr1 Hr2]; [done|lia|]. unfold deallocuvm. destruct (Z.geb_spec newsz oldsz).
  - apply wp_ret. split; [lia|]. exists l. apply range_freed_none; [done|].
    intros x Hx [H1 H2]. unfold PGSIZE in *. zlia.
  - apply wp_bind. eapply wp_mono; [apply (wp_deallocuvm_loop _ s d l (PGROUNDUP newsz) oldsz); [done|lia|done|done|done|]|].
    + rewrite Z2Nat.id by lia. unfold PGSIZE, KERNBASE in *. lia.
    + intros [] s' H'. apply wp_ret. split; [lia|done].
Qed.

(** [freevm] gives every page of the address space back, and touches no other. *)
Lemma wp_freevm s d l : space s d l ->
  wp (freevm kend d) (fun _ s' => exists l', free_rep kend s' l' /\
    (forall v, v ∈ l' <-> v ∈ l \/ own (pages s) d v) /\
    (forall v, alien (pages s) d l v -> pages s' !! v = pages s !! v)) s.
Proof using Hkend.
  intros Hs. unfold freevm. pose proof (sp_dir _ _ _ Hs) as Hdok.
  rewrite (proj2 (Z.eqb_neq d 0)) by (by eapply page_aligned_nonzero). apply wp_bind.
  eapply wp_mono; [apply (wp_deallocuvm s d l KERNBASE 0); try done; by left|].
  intros _ s1 (_ & l1 & [F1 F2 _ _ F5 F6]). change (PGROUNDUP 0) with 0 in *.
  pose proof F1 as [(Hf1 & [[Hd1 [Hd2 Hd3]] Hd4 Ht1 Hi1] & H0) G1 G2 _ _].
  apply wp_bind. apply (wp_for_each _ 0 _ (fun i t => exists l2, free_rep kend t l2 /\
    (forall v, v ∈ l2 <-> v ∈ l1 \/ exists j, 0 <= j < i /\ table_at (pages s1) d j = Some v) /\
    (forall v, is_Some (pages s1 !! v) -> is_Some (pages t !! v)) /\
    (forall v, (v ∉ l1) -> (forall j, 0 <= j < 1024 -> table_at (pages s1) d j <> Some v) -> pages t !! v = pages s1 !! v))).
  - exists l1. split_and!; try done. intros v. split; [by left|]. intros [?|(j & Hj & _)]; [done|lia].
  - change (Z.of_nat (Z.to_nat NPDENTRIES)) with 1024. intros i t Hi (l2 & Hf2 & Hl2 & Hsm & Hk).
    assert (pages t !! d = pages s1 !! d) as Ed by (apply Hk; [done|]; intros j Hj E; by destruct (Ht1 j d Hj E) as (_ & _ & _ & ? & _)).
    apply wp_bind, wp_ldw; [rewrite Ed; done|done|done|lia|done|].
    assert (word (pages t) d i = word (pages s1) d i) as -> by (unfold word; by rewrite Ed).
    destruct (has (word (pages s1) d i) PTE_P) eqn:EP.
    + assert (table_at (pages s1) d i = Some (p2v (PTE_ADDR (word (pages s1) d i)))) as Et by (unfold table_at; by rewrite EP).
      set (u := p2v _) in *. destruct (Ht1 i u) as (U1 & U2 & U3 & U4 & U5); [lia|done|].
      assert (u ∉ l2) as Hu2. { rewrite Hl2. intros [?|(j & Hj & Ej)]; [done|]. assert (j = i); [apply (Hi1 j i u); lia || done|lia]. }
      eapply wp_mono; [apply (wp_kfree kend t l2 u); try done; [apply (G2 i); lia || done|by apply Hsm|apply (free_rep_head _ _ _ Hf2)]|].
      intros [] t' (Hf3 & _ & Epg). exists (u :: l2). split_and!; [done| | |].
      * intros v. rewrite elem_of_cons, Hl2. split.
        -- intros [->|[?|(j & Hj & Ej)]]; [right; exists i; split; [lia|done]|by left|right; exists j; split; [lia|done]].
        -- intros [?|(j & Hj & Ej)]; [right; by left|]. destruct (decide (j = i)) as [->|]; [left; congruence|right; right; exists j; split; [lia|done]].
      * intros v Hv. rewrite Epg. destruct (decide (u = v)) as [->|]; [rewrite lookup_insert_eq; eauto|rewrite lookup_insert_ne by done; by apply Hsm].
      * intros v Hv Hvt. rewrite Epg, lookup_insert_ne; [by apply Hk|]. intros <-. by apply (Hvt i); [lia|].
    + apply wp_ret. exists l2. split_and!; try done. intros v. rewrite Hl2. split; (intros [?|(j & Hj & Ej)]; [by left|right]).
      * exists j. split; [lia|done].
      * exists j. split; [|done]. destruct (decide (j = i)) as [->|]; [|lia]. unfold table_at in Ej. by rewrite EP in Ej.
  - change (0 + Z.of_nat (Z.to_nat NPDENTRIES)) with 1024. intros t (l2 & Hf2 & Hl2 & Hsm & Hk).
    assert (d ∉ l2) as Hd2'. { rewrite Hl2. intros [?|(j & Hj & Ej)]; [done|]. by destruct (Ht1 j d Hj Ej) as (_ & _ & _ & ? & _). }
    eapply wp_mono; [apply (wp_kfree kend t l2 d); try done; [by apply Hsm|apply (free_rep_head _ _ _ Hf2)]|].
    intros [] t' (Hf3 & _ & Epg). exists (d :: l2). split_and!; [done| |].
    + intros v. rewrite elem_of_cons, Hl2, F5. split.
      * intros [->|[[?|(x & Hx & _ & E)]|(j & Hj & Ej)]]; [right; apply own_dir|by left|right; by eapply own_frame|].
        right. rewrite F2 in Ej by done. by eapply own_table.
      * intros [?|[|i u Hi E|x f Hx E]]; [by right; left; left|by left| |].
        -- right. right. exists i. by rewrite F2.
        -- right. left. right. exists x. split_and!; try done. by apply within_user.
    + intros v [Hv Ho]. rewrite Epg, lookup_insert_ne by (intros <-; apply Ho, own_dir). rewrite Hk.
      * apply F6; [done|intros ->; apply Ho, own_dir|intros i Hi E; by eapply Ho, own_table|].
        intros x Hx _ E. by eapply Ho, own_frame.
      * rewrite F5. intros [?|(x & Hx & _ & E)]; [done|]. by eapply Ho, own_frame.
      * intros j Hj E. rewrite F2 in E by done. by eapply Ho, own_table.
Qed.
End Space.
