(* ===== verification/UvmGrow.v ===== *)
(** * Growing an address space: [allocuvm] and the memory it adds

    [allocuvm] adds zeroed pages as long as there are free ones.  Its outcomes: the
    pages are there; or it failed and everything is as before; or, because it ignores the
    result of [mappages], a page was taken from the free list and lost. *)

From S2P Require Import Prelude Kalloc Vm Uvm.

Section Grow.
Variable kend : Z.

(** What a new page of address [x] holds, and its flags. *)
Variable fill : Z -> list Z -> Z -> Prop.

(** The pages from [lo] to [hi] are new, and filled; the pages [lost] belong to no one. *)
Record range_added (s : kst) (d : Z) (l : list Z) (lo hi : Z) (lost l' : list Z) (s' : kst) : Prop := {
  rz_space : space kend s' d l';
  rz_new : forall x, user x -> within lo hi x ->
    exists p, upage (pages s') d x = Some p /\ fill x p (PTE_FLAGS (pte_at (pages s') d x));
  rz_pte : forall x, 0 <= x < 2 ^ 32 -> ~ within lo hi x -> pte_at (pages s') d x = pte_at (pages s) d x;
  rz_table : forall j t, 0 <= j < 1024 -> table_at (pages s) d j = Some t -> table_at (pages s') d j = Some t;
  rz_from : forall j t, 0 <= j < 1024 -> table_at (pages s') d j = Some t -> table_at (pages s) d j = Some t \/ t ∈ l;
  rz_sub : forall v, v ∈ l' -> v ∈ l;
  rz_own : forall v, own (pages s') d v \/ v ∈ l' \/ v ∈ lost <-> own (pages s) d v \/ v ∈ l;
  rz_mono : forall v, own (pages s) d v -> own (pages s') d v;
  rz_kept : forall v, (v ∉ l) -> v <> d -> (forall i, 0 <= i < 1024 -> table_at (pages s) d i <> Some v) ->
    pages s' !! v = pages s !! v
}.

Lemma range_added_refl s d l lo hi : space kend s d l -> hi <= lo -> lo mod PGSIZE = 0 -> range_added s d l lo hi [] l s.
Proof.
  intros Hs Hle Hal. split; try done.
  - intros x _ [H1 H2]. unfold PGSIZE in *. zlia.
  - intros; by left.
  - intros v. rewrite elem_of_nil. tauto.
Qed.

(** The pages that were there before keep their contents. *)
Lemma rz_old s d l lo hi lost l' s' x : space kend s d l -> range_added s d l lo hi lost l' s' -> user x -> ~ within lo hi x ->
  frame_at (pages s') d x = frame_at (pages s) d x /\ upage (pages s') d x = upage (pages s) d x.
Proof.
  intros Hs Hz Hx Hw. assert (frame_at (pages s') d x = frame_at (pages s) d x) as E.
  { apply frame_same, (rz_pte _ _ _ _ _ _ _ _ Hz); [by apply user_word|done]. }
  split; [done|]. unfold upage. rewrite E. destruct (frame_at (pages s) d x) as [f|] eqn:Ef; [|done]. simpl.
  destruct (sp_frame _ _ _ _ Hs x f Hx Ef) as (_ & _ & H1 & H2 & H3). by apply (rz_kept _ _ _ _ _ _ _ _ Hz).
Qed.

Lemma rz_frame s d l lo hi lost l' s' x : range_added s d l lo hi lost l' s' -> user x -> within lo hi x ->
  exists f, frame_at (pages s') d x = Some f.
Proof.
  intros Hz Hx Hw. destruct (rz_new _ _ _ _ _ _ _ _ Hz x Hx Hw) as (p & H & _). unfold upage in H.
  destruct (frame_at (pages s') d x) as [f|]; [by exists f|done].
Qed.

Lemma range_added_trans s d l lo mid hi lost1 l1 s1 lost2 l2 s2 :
  space kend s d l -> lo <= mid <= hi -> mid mod PGSIZE = 0 ->
  range_added s d l lo mid lost1 l1 s1 -> range_added s1 d l1 mid hi lost2 l2 s2 ->
  range_added s d l lo hi (lost1 ++ lost2) l2 s2.
Proof.
  intros Hs Hm Hal H1 H2. pose proof H1 as [A1 A2 A3 A4 A5 A6 A7 A8 A9]. pose proof H2 as [B1 B2 B3 B4 B5 B6 B7 B8 B9].
  assert (forall x, within lo hi x <-> within lo mid x \/ within mid hi x) as Hw.
  { intros x. unfold within, PGSIZE in *. split; [zlia|]. intros [|]; zlia. }
  split; [done|..].
  - intros x Hx [Hx1|Hx2]%Hw; [|by apply B2]. destruct (decide (within mid hi x)) as [Hx2|Hx2]; [by apply B2|].
    destruct (rz_old _ _ _ _ _ _ _ _ x A1 H2 Hx Hx2) as [_ ->]. rewrite B3 by (done || by apply user_word). by apply A2.
  - intros x Hx Hnw. rewrite Hw in Hnw. rewrite B3 by tauto. apply A3; tauto.
  - intros j t Hj Ht. by apply B4, A4.
  - intros j t Hj [Ht|Ht]%B5; [|right; by apply A6|done]. by apply A5.
  - intros v Hv. by apply A6, B6.
  - intros v. rewrite <- A7, elem_of_app. specialize (B7 v). tauto.
  - intros v Hv. by apply B8, A8.
  - intros v Hv Hvd Hvt. rewrite B9; [by apply A9|naive_solver|done|]. intros i Hi [Ei|Ei]%A5; [by apply (Hvt i)|done|done].
Qed.

(** One page: [mem], from the free list, with the contents [p]. *)
Lemma wp_add_page s s1 d l mem a perm p :
  space kend s1 d l -> pages s1 = pages s -> alien (pages s) d l mem -> page_ok kend mem -> is_Some (pages s !! mem) ->
  user a -> a mod PGSIZE = 0 -> frame_at (pages s) d a = None -> 0 <= perm < PGSIZE ->
  length p = Z.to_nat PGSIZE -> bytes_ok p -> (forall x, user x -> x / PGSIZE = a / PGSIZE -> fill x p (flags_of perm)) ->
  wp (put_page mem p ;;; mappages d a PGSIZE (v2p mem) perm) (fun r s' =>
    l = [] /\ table_at (pages s) d (PDX a) = None /\ r = -1 /\ range_added s d [mem] a a [mem] [] s' \/
    r = 0 /\ exists l' t, range_added s d (mem :: l) a (a + PGSIZE) [] l' s' /\
      (forall j, 0 <= j < 1024 -> table_at (pages s') d j = if decide (j = PDX a) then Some t else table_at (pages s) d j) /\
      (table_at (pages s) d (PDX a) = Some t /\ l' = l \/ table_at (pages s) d (PDX a) = None /\ l = t :: l')) s1.
Proof.
  intros Hs E1 [Hml Hmo] Hok Hmem Ha Hal Hn Hp Hlen Hb Hfill. destruct s as [m fl]. simpl in E1. subst m. cbn [pages] in *.
  assert (mem <> d) as Hmd by (intros ->; apply Hmo, own_dir).
  assert (forall i, 0 <= i < 1024 -> table_at (pages s1) d i <> Some mem) as Hmt by (intros i Hi E; by eapply Hmo, own_table).
  apply wp_bind, wp_put_page; [done|]. destruct (space_put kend s1 d l mem p Hs Hml Hmd Hmt Hlen Hb) as (Hs2 & Et & Ep & Eo).
  set (s2 := mkK _ _) in *.
  assert (forall x, within a a x -> False) as Hempty by (unfold within, PGSIZE in *; intros x [? ?]; zlia).
  eapply wp_mono; [apply (wp_map_frame kend s2 d l mem a perm); try done|].
  - split; [done|]. by rewrite Eo.
  - simpl. rewrite lookup_insert_eq. eauto.
  - by rewrite (frame_same (pages s1)).
  - intros r s3 [(-> & Htn & -> & ->)|(-> & l' & Hfm)].
    + left. split_and!; try done; [by rewrite <- Et by apply PDX_range|]. split; cbn [pages]; try done.
      * intros x Hx W. by destruct (Hempty x).
      * intros j t Hj. by rewrite Et.
      * intros j t Hj E. rewrite Et in E by done. by left.
      * by intros v ?%not_elem_of_nil.
      * intros v. rewrite Eo, elem_of_nil. tauto.
      * intros v Hv. by apply Eo.
      * intros v Hv _ _. simpl. by rewrite lookup_insert_ne by set_solver.
    + right. split; [done|]. pose proof Hfm as [F1 (t & F2 & F2') F3 F4 F5].
      pose proof (own_mapped kend s2 d l mem a perm l' s3 Ha) as [Hown Hmono]; [by rewrite (frame_same (pages s1))|done|].
      destruct (entry_frame _ _ _ Hok Hp) as (_ & _ & Efl & _).
      assert (forall x, within a (a + PGSIZE) x <-> x / PGSIZE = a / PGSIZE) as Hw by (intros x; unfold within, PGSIZE in *; zlia).
      rewrite Et in F2' by apply PDX_range. exists l', t. split_and!; [|intros j Hj; rewrite F2 by done; by rewrite Et|done].
      split; [done|..]; cbn [pages].
      * intros x Hx Wx%Hw. exists p. split.
        -- unfold upage. rewrite F4 by done. rewrite decide_True by done. simpl. rewrite F5; [simpl; by rewrite lookup_insert_eq|done|done|].
           intros i Hi. rewrite Et by done. by apply Hmt.
        -- rewrite F3 by by apply user_word. rewrite decide_True by done. rewrite Efl. by apply Hfill.
      * intros x Hx Wx. rewrite Hw in Wx. rewrite F3 by done. rewrite decide_False by done. apply Ep.
      * intros j u Hj Hu. rewrite F2 by done. rewrite Et by done. case_decide as E; [subst j|done]. destruct F2' as [[? _]|[? _]]; congruence.
      * intros j u Hj. rewrite F2 by done. rewrite Et by done. case_decide as E; [subst j|by left]. intros [= <-].
        destruct F2' as [[? _]|[_ ->]]; [by left|right; by right; left].
      * intros v Hv. right. destruct F2' as [[_ ->]|[_ ->]]; [done|by right].
      * intros v. rewrite elem_of_nil, elem_of_cons. specialize (Hown v). rewrite Eo in Hown. tauto.
      * intros v Hv. by apply Hmono, Eo.
      * intros v Hv Hvd Hvt. apply not_elem_of_cons in Hv as [Hv1 Hv2]. rewrite F5; [simpl; by rewrite lookup_insert_ne|done|done|].
        intros i Hi. rewrite Et by done. by apply Hvt.
Qed.
(** ** Taking it back *)

Lemma range_freed_own s d l lo hi l' s' v : range_freed kend s d l lo hi l' s' ->
  own (pages s') d v \/ v ∈ l' <-> own (pages s) d v \/ v ∈ l.
Proof.
  intros [H1 H2 H3 H4 H5 H6]. rewrite H5. split.
  - intros [[|i t Hi E|x f Hx E]|[?|(x & Hx & Hw & E)]].
    + left. apply own_dir.
    + left. rewrite H2 in E by done. by eapply own_table.
    + left. destruct (decide (within lo hi x)); [by rewrite H4 in E|].
      rewrite (frame_same (pages s)) in E by (apply H3; [by apply user_word|done]). by eapply own_frame.
    + by right.
    + left. by eapply own_frame.
  - intros [[|i t Hi E|x f Hx E]|?]; [left; apply own_dir| | |by right; left].
    + left. rewrite <- H2 in E by done. by eapply own_table.
    + destruct (decide (within lo hi x)); [right; right; by exists x|].
      left. rewrite <- (frame_same (pages s) (pages s')) in E by (apply H3; [by apply user_word|done]). by eapply own_frame.
Qed.

(** The memory a process sees is what it was. *)
Record undone (s : kst) (d : Z) (l : list Z) (lo hi : Z) (lost l' : list Z) (s' : kst) : Prop := {
  un_space : space kend s' d l';
  un_pte : forall x, 0 <= x < 2 ^ 32 -> ~ within lo hi x -> pte_at (pages s') d x = pte_at (pages s) d x;
  un_page : forall x, user x -> frame_at (pages s') d x = frame_at (pages s) d x /\ upage (pages s') d x = upage (pages s) d x;
  un_own : forall v, own (pages s') d v \/ v ∈ l' \/ v ∈ lost <-> own (pages s) d v \/ v ∈ l;
  un_kept : forall v, alien (pages s) d l v -> pages s' !! v = pages s !! v
}.

Lemma undo s d l lo a hi lost l1 s1 l' s' :
  space kend s d l -> (forall x, user x -> within lo hi x -> frame_at (pages s) d x = None) -> a <= hi ->
  range_added s d l lo a lost l1 s1 -> range_freed kend s1 d l1 lo hi l' s' -> undone s d l lo hi lost l' s'.
Proof.
  intros Hs Hnone Ha Hz Hf. pose proof Hz as [A1 A2 A3 A4 A5 A6 A7 A8 A9]. pose proof Hf as [B1 B2 B3 B4 B5 B6].
  assert (forall x, ~ within lo hi x -> ~ within lo a x) as Hw by (unfold within; intros; lia).
  split; [done|..].
  - intros x Hx W. rewrite B3 by done. apply A3; [done|by apply Hw].
  - intros x Hx. destruct (decide (within lo hi x)) as [W|W].
    + unfold upage. by rewrite B4, (Hnone x) by done.
    + assert (frame_at (pages s') d x = frame_at (pages s1) d x) as E by (apply frame_same, B3; [by apply user_word|done]).
      destruct (rz_old s d l lo a lost l1 s1 x) as [E1 E2]; [done|done|done|by apply Hw|].
      split; [by rewrite E|]. rewrite <- E2. unfold upage. rewrite E. destruct (frame_at (pages s1) d x) as [f|] eqn:Ef; [|done]. simpl.
      destruct (sp_frame _ _ _ _ A1 x f Hx Ef) as (_ & _ & G1 & G2 & G3). apply B6; try done. intros y Hy Wy Ey.
      pose proof (sp_inj _ _ _ _ A1 x y f Hx Hy Ef Ey) as Exy. apply W. unfold within in *. by rewrite Exy.
  - intros v. pose proof (range_freed_own _ _ _ _ _ _ _ v Hf). specialize (A7 v). tauto.
  - intros v [Hv Ho]. assert (~ own (pages s1) d v) as Ho1.
    { intros Ho1. destruct (proj1 (A7 v)); [by left|done|done]. }
    rewrite B6; [apply A9| | | |].
    + done.
    + intros ->. apply Ho, own_dir.
    + intros i Hi E. by eapply Ho, own_table.
    + naive_solver.
    + intros ->. apply Ho, own_dir.
    + intros i Hi E. by eapply Ho1, own_table.
    + intros x Hx W E. by eapply Ho1, own_frame.
Qed.

Lemma range_added_end s d l lo hi a lost l' s' : a mod PGSIZE = 0 -> hi <= a < hi + PGSIZE ->
  range_added s d l lo a lost l' s' -> range_added s d l lo hi lost l' s'.
Proof.
  intros Hal Ha [A1 A2 A3 A4 A5 A6 A7 A8 A9]. assert (forall x, within lo hi x <-> within lo a x) as Hw.
  { intros x. unfold within, PGSIZE in *. zlia. }
  split; try done.
  - intros x Hx W. apply A2; [done|by apply Hw].
  - intros x Hx W. rewrite Hw in W. by apply A3.
Qed.
(** ** The loop of [allocuvm] *)

(** The free pages that [n] new pages from [a] on take: the pages and their missing tables. *)
Definition need (m : gmap Z (list Z)) (d a : Z) (n : nat) : nat :=
  match n with
  | O => O
  | S n' => (n + lacking m d (PDX a) (PDX (a + Z.of_nat n' * PGSIZE) - PDX a + 1))%nat
  end.
Lemma need_step m m' d a n t : 0 <= a -> a + Z.of_nat (S n) * PGSIZE <= 2 ^ 32 ->
  (forall j, 0 <= j < 1024 -> table_at m' d j = if decide (j = PDX a) then Some t else table_at m d j) ->
  need m d a (S n) = (1 + (if table_at m d (PDX a) is None then 1 else 0) + need m' d (a + PGSIZE) n)%nat.
Proof.
  intros Ha Hend Hat. unfold need. destruct n as [|n].
  - rewrite Z.add_0_r. replace (PDX a - PDX a + 1) with 1 by lia. rewrite lacking_cons by lia. unfold lacking. simpl. lia.
  - rewrite (lacking_step m m' d a _ t) by (done || unfold PGSIZE in *; lia).
    replace (a + Z.of_nat (S n) * PGSIZE) with (a + PGSIZE + Z.of_nat n * PGSIZE) by lia. lia.
Qed.
Lemma wp_assoc {S A B C} (m : M S A) (k : A -> M S B) (h : B -> M S C) Q s :
  wp (bind (bind m k) h) Q s -> wp (bind m (fun a => bind (k a) h)) Q s.
Proof. unfold wp, bind. by destruct (m s). Qed.

Definition zeroed (x : Z) (p : list Z) (fl : Z) : Prop := p = page_of 0 /\ fl = Z.lor (Z.lor PTE_W PTE_U) PTE_P.
End Grow.

Section Alloc.
Variable kend : Z.
Hypothesis Hkend : KERNBASE < kend.
Abbreviation range_zeroed := (range_added kend zeroed).

(** Out of memory: with 0 for a result nothing has changed, but for a page that may be lost; otherwise the
    last page has been lost and is not mapped. *)
Definition alloc_failed (s : kst) (d : Z) (l : list Z) (lo newsz r : Z) (s' : kst) : Prop :=
  r = 0 /\ (exists lost l', (length lost <= 1)%nat /\ undone kend s d l lo newsz lost l' s') \/
  r = newsz /\ exists a v, lo <= a < newsz /\ newsz <= a + PGSIZE /\ range_zeroed s d l lo a [v] [] s'.

Section Loop.
Context (s0 : kst) (d : Z) (l0 : list Z) (oldsz newsz : Z).
Let lo := PGROUNDUP oldsz.
Hypotheses (Hs0 : space kend s0 d l0) (Hold : 0 <= oldsz <= newsz) (Hnew : newsz < KERNBASE)
  (Hnone : forall x, user x -> within lo newsz x -> frame_at (pages s0) d x = None).

Lemma lo_range : lo mod PGSIZE = 0 /\ oldsz <= lo < oldsz + PGSIZE.
Proof using Hold Hnew. apply round_up; unfold KERNBASE, PGSIZE in *; lia. Qed.

(** What [deallocuvm] needs to undo the growth so far. *)
Lemma grow_no_skip a lost l s : lo <= a -> a < newsz -> range_zeroed s0 d l0 lo a lost l s -> no_skip (pages s) d lo newsz.
Proof using Hs0 Hold Hnew Hnone.
  intros Hla Han Hz. destruct lo_range as [Hlo1 Hlo2]. destruct (decide (a = lo)) as [->|Hne].
  - right. right. intros x Hx W. rewrite (frame_same (pages s0)); [by apply Hnone|].
    apply (rz_pte _ _ _ _ _ _ _ _ _ _ Hz); [by apply user_word|]. unfold within, PGSIZE in *. zlia.
  - right. left. assert (user lo) as Hu by (unfold user; lia).
    destruct (rz_frame _ _ _ _ _ _ _ _ _ _ lo Hz Hu) as [f Hf]; [unfold within, PGSIZE in *; zlia|].
    intros Ht. unfold frame_at, pte_at in Hf. by rewrite Ht in Hf.
Qed.

Lemma wp_alloc_exhausted fuel a b lost s : (length lost <= 1)%nat -> lo <= a <= b -> b < newsz -> (0 < fuel)%nat ->
  range_zeroed s0 d l0 lo a lost [] s ->
  wp (allocuvm_loop kend fuel d b oldsz newsz) (alloc_failed s0 d l0 lo newsz) s.
Proof using Hs0 Hold Hnew Hnone Hkend.
  intros Hlost Hla Han Hfu Hz. destruct fuel as [|fuel]; [lia|]. cbn [allocuvm_loop].
  destruct (Z.ltb_spec b newsz); [|lia]. apply wp_bind.
  eapply wp_mono; [apply (space_kalloc kend s d []), (rz_space _ _ _ _ _ _ _ _ _ _ Hz)|].
  intros r s1 (_ & [(_ & -> & ->)|(l' & [=] & _)]). simpl Z.eqb. cbv iota. destruct lo_range as [Hlo1 Hlo2].
  apply wp_bind. eapply wp_mono; [apply (wp_deallocuvm kend Hkend s d [] newsz oldsz)|].
  - apply (rz_space _ _ _ _ _ _ _ _ _ _ Hz).
  - lia.
  - unfold KERNBASE, PGSIZE in *. lia.
  - lia.
  - by apply (grow_no_skip a lost [] s); [lia|lia|].
  - intros r s2 (_ & l' & Hf). apply wp_ret. left. split; [done|]. exists lost, l'. split; [done|].
    apply (undo kend zeroed s0 d l0 lo a newsz lost [] s); [done|done|lia|done|done].
Qed.

Lemma wp_allocuvm_loop n fuel a s l : (n <= fuel)%nat -> a mod PGSIZE = 0 -> lo <= a ->
  newsz <= a + Z.of_nat n * PGSIZE < newsz + PGSIZE -> range_zeroed s0 d l0 lo a [] l s ->
  wp (allocuvm_loop kend fuel d a oldsz newsz) (fun r s' =>
    r = newsz /\ (exists l', range_zeroed s0 d l0 lo newsz [] l' s' /\ (length l = need (pages s) d a n + length l')%nat) \/
    (length l < need (pages s) d a n)%nat /\ alloc_failed s0 d l0 lo newsz r s') s.
Proof using Hs0 Hold Hnew Hnone Hkend.
  revert fuel a s l. induction n as [|n IH]; intros fuel a s l Hfu Hal Hla Han Hz.
  { destruct fuel; cbn [allocuvm_loop]; (destruct (Z.ltb_spec a newsz); [lia|]); apply wp_ret; left; (split; [done|]);
      exists l; (split; [by apply (range_added_end _ _ _ _ _ _ _ a); [|lia|]|done]). }
  destruct lo_range as [Hlo1 Hlo2]. assert (a < newsz) as Hlt by (unfold PGSIZE in *; lia). assert (user a) as Hu by (unfold user; lia).
  destruct l as [|mem l].
  { eapply wp_mono; [apply (wp_alloc_exhausted fuel a a []); simpl; try done; lia|]. intros r s' H'. right. split; [simpl; lia|done]. }
  destruct fuel as [|fuel]; [lia|]. cbn [allocuvm_loop]. destruct (Z.ltb_spec a newsz) as [_|]; [|lia].
  pose proof (rz_space _ _ _ _ _ _ _ _ _ _ Hz) as Hs. apply wp_bind. eapply wp_mono; [by apply (space_kalloc kend s d (mem :: l))|].
  intros r s1 (Epg & [([=] & _)|(l1 & E1 & Hr0 & Hok & Hmem & Hal1 & Hs1)]).
  injection E1 as E1 E2. subst r l1. rewrite (proj2 (Z.eqb_neq _ _) Hr0).
  assert (frame_at (pages s) d a = None) as Hna.
  { rewrite (frame_same (pages s0)); [apply Hnone; [done|unfold within, PGSIZE in *; zlia]|].
    apply (rz_pte _ _ _ _ _ _ _ _ _ _ Hz); [by apply user_word|unfold within, PGSIZE in *; zlia]. }
  assert (0 <= a + PGSIZE < 2 ^ 32) as Ha32 by (unfold user, KERNBASE, PGSIZE in *; lia).
  apply wp_assoc, wp_bind. eapply wp_mono; [apply (wp_add_page kend zeroed s s1 d l mem a (Z.lor PTE_W PTE_U) (page_of 0)); try done|].
  { apply page_of_ok. lia. }
  rewrite (u32_small (a + PGSIZE)) by lia.
  intros r s2 [(-> & Ht & -> & Hz2)|(-> & l' & t & Hz2 & Hat & Hl')].
  - pose proof (range_added_trans _ _ _ _ _ lo a a _ _ _ _ _ _ Hs0 ltac:(lia) Hal Hz Hz2) as Hz3. simpl in Hz3.
    assert (range_zeroed s0 d l0 lo a [mem] [] s2 -> length [mem] < need (pages s) d a (S n))%nat as Hneed.
    { intros _. unfold need. assert (PDX a <= PDX (a + Z.of_nat n * PGSIZE)).
      { apply PDX_mono; [unfold PGSIZE; lia|unfold KERNBASE, PGSIZE in *; lia]. }
      rewrite lacking_cons by lia. rewrite Ht. simpl. lia. }
    destruct (decide (a + PGSIZE < newsz)) as [Hmore|Hlast].
    + eapply wp_mono; [apply (wp_alloc_exhausted fuel a (a + PGSIZE) [mem]); simpl; try done; unfold PGSIZE in *; lia|].
      intros r s' H'. right. split; [by apply Hneed|done].
    + destruct fuel; cbn [allocuvm_loop]; (destruct (Z.ltb_spec (a + PGSIZE) newsz); [lia|]); apply wp_ret; right;
        (split; [by apply Hneed|]); right; (split; [done|]); exists a, mem; (split_and!; [lia|lia|lia|done]).
  - pose proof (range_added_trans _ _ _ _ _ lo a (a + PGSIZE) _ _ _ _ _ _ Hs0 ltac:(unfold PGSIZE; lia) Hal Hz Hz2) as Hz3.
    rewrite (need_step (pages s) (pages s2) d a n t) by (done || unfold KERNBASE, PGSIZE in *; lia).
    assert (length l = (if table_at (pages s) d (PDX a) is None then 1 else 0) + length l')%nat as El
      by (destruct Hl' as [[-> ->]|[-> ->]]; simpl; lia).
    eapply wp_mono; [apply (IH fuel (a + PGSIZE) s2 l'); [lia|unfold PGSIZE in *; zlia|unfold PGSIZE; lia|unfold PGSIZE in *; lia|done]|].
    intros r s' [(-> & l'' & H'' & E'')|[Hlen H'']]; [left|right].
    + split; [done|]. exists l''. split; [done|]. simpl. lia.
    + split; [simpl; lia|done].
Qed.
End Loop.
(** The pages [allocuvm] adds. *)
Definition new_pages (oldsz newsz : Z) : nat := pages_upto (newsz - PGROUNDUP oldsz).

Lemma wp_allocuvm s d l oldsz newsz :
  space kend s d l -> 0 <= oldsz <= newsz -> newsz < KERNBASE ->
  (forall x, user x -> within (PGROUNDUP oldsz) newsz x -> frame_at (pages s) d x = None) ->
  wp (allocuvm kend d oldsz newsz) (fun r s' =>
    let k := need (pages s) d (PGROUNDUP oldsz) (new_pages oldsz newsz) in
    r = newsz /\ (exists l', range_zeroed s d l (PGROUNDUP oldsz) newsz [] l' s' /\ (length l = k + length l')%nat) \/
    (length l < k)%nat /\ alloc_failed s d l (PGROUNDUP oldsz) newsz r s') s.
Proof using Hkend.
  intros Hs Hold Hnew Hnone. destruct (lo_range oldsz newsz Hold Hnew) as [Hlo1 Hlo2]. unfold allocuvm.
  destruct (Z.geb_spec newsz KERNBASE); [lia|]. destruct (Z.ltb_spec newsz oldsz); [lia|].
  assert (newsz <= PGROUNDUP oldsz + Z.of_nat (new_pages oldsz newsz) * PGSIZE < newsz + PGSIZE) as Hn.
  { unfold new_pages, pages_upto. clear - Hlo1 Hlo2 Hold. set (lo := PGROUNDUP oldsz) in *. unfold PGSIZE in *.
    assert (0 <= (newsz - lo + 4096 - 1) / 4096) by zlia. rewrite Z2Nat.id by done. zlia. }
  apply wp_allocuvm_loop; try done.
  - apply Nat2Z.inj_le. rewrite Z2Nat.id by lia. unfold KERNBASE, PGSIZE in *. lia.
  - by apply range_added_refl.
Qed.
End Alloc.
