(* ===== verification/Kvm.v ===== *)
(** * The kernel part of every address space: [setupkvm]

    [setupkvm] maps the kernel's own addresses into a new page directory.  It needs 65 free
    pages; with fewer it gives up, and the pages it has taken are lost. *)

From S2P Require Import Prelude Kalloc Vm Uvm.

Section Kvm.
Variables kend kdata : Z.

(** The entry for a kernel address: physical memory from [KERNBASE] on, with the kernel's code read-only, and the devices. *)
Definition kernel_pte (x : Z) : Z :=
  let page := x / PGSIZE * PGSIZE in
  if decide (KERNBASE <= x < KERNBASE + PHYSTOP) then
    entry (page - KERNBASE) (if decide (KERNLINK <= x < kdata) then 0 else PTE_W)
  else if decide (DEVSPACE <= x) then entry page PTE_W else 0.

Lemma lacking_count m d i k p : 0 <= k -> i - 1 <= p <= i + k - 1 ->
  (forall j, i <= j < i + k -> table_at m d j = None <-> p < j) -> lacking m d i k = Z.to_nat (i + k - 1 - p).
Proof.
  intros Hk. rewrite <- (Z2Nat.id k Hk). generalize (Z.to_nat k) as n. clear k Hk. intros n. revert i.
  induction n as [|n IH]; intros i Hp Hn.
  - unfold lacking. simpl. lia.
  - rewrite lacking_cons by lia. replace (Z.of_nat (S n) - 1) with (Z.of_nat n) by lia.
    destruct (decide (p = i - 1)) as [->|Hne].
    + rewrite (proj2 (Hn i ltac:(lia))) by lia.
      assert (lacking m d (i + 1) (Z.of_nat n) = n) as ->; [|lia]. clear IH. revert i Hp Hn. induction n as [|n IH]; intros i Hp Hn; [done|].
      rewrite lacking_cons by lia. replace (Z.of_nat (S n) - 1) with (Z.of_nat n) by lia.
      rewrite (proj2 (Hn (i + 1) ltac:(lia))) by lia. rewrite (IH (i + 1)); [done|lia|]. intros j Hj. rewrite Hn by lia. lia.
    + rewrite (IH (i + 1)) by (lia || intros; rewrite Hn; lia). destruct (table_at m d i) eqn:E; [lia|]. apply Hn in E; lia.
Qed.

(** [mappages] on whole pages. *)
Lemma wp_map_range s d l va size pa perm :
  vm_ok kend s d l -> va mod PGSIZE = 0 -> size mod PGSIZE = 0 -> 0 <= va -> 0 < size -> va + size <= 2 ^ 32 ->
  0 <= pa -> pa + size <= 2 ^ 32 -> (forall x, va <= x < va + size -> has (pte_at (pages s) d x) PTE_P = false) ->
  let k := lacking (pages s) d (PDX va) (PDX (va + size - 1) - PDX va + 1) in
  wp (mappages d va size pa perm) (fun r s' => frames_kept d l (pages s) (pages s') /\
    ((r = 0 /\ exists l1 l2, l = l1 ++ l2 /\ length l1 = k /\ vm_ok kend s' d l2 /\ grows d l1 (pages s) (pages s') /\
       (forall j, 0 <= j < 1024 -> table_at (pages s') d j = None <->
          table_at (pages s) d j = None /\ ~ PDX va <= j <= PDX (va + size - 1)) /\
       forall x, 0 <= x < 2 ^ 32 -> pte_at (pages s') d x =
         if decide (va <= x < va + size) then entry (pa + (x / PGSIZE * PGSIZE - va)) perm else pte_at (pages s) d x) \/
     (r = -1 /\ (length l < k)%nat /\ vm_ok kend s' d []))) s.
Proof.
  intros Hvm Hal Hsz Hva Hs1 Hend Hpa Hpe Hnp k.
  assert ((va + size - 1) / PGSIZE - va / PGSIZE = size / PGSIZE - 1) as En by (unfold PGSIZE in *; zlia).
  assert (PDX (va - va mod PGSIZE + (size / PGSIZE - 1 + 1 - 1) * PGSIZE) = PDX (va + size - 1)) as Eb.
  { rewrite !PDX_div by (unfold PGSIZE in *; zlia). unfold PGSIZE in *. change (2 ^ 22) with 4194304. zlia. }
  assert (va - va mod PGSIZE = va) as Ea by lia.
  eapply wp_mono; [apply (wp_mappages kend s d va size pa perm l); try done; rewrite En|rewrite En].
  - unfold PGSIZE in *. zlia.
  - intros i Hi. apply Hnp. unfold PGSIZE in *. zlia.
  - intros r s' [H1 H2]. rewrite Eb, Ea in H2. split; [done|].
    destruct H2 as [(-> & l1 & l2 & -> & Hk & Hvm' & Hg & Ht & Hp)|H2]; [left|right; done].
    split; [done|]. exists l1, l2. split_and!; try done. intros x Hx. rewrite Hp by done. cbv zeta.
    destruct (decide (va <= x < va + size)).
    + rewrite decide_True by (unfold PGSIZE in *; zlia). f_equal. unfold PGSIZE in *. zlia.
    + rewrite decide_False; [done|]. unfold PGSIZE in *. zlia.
Qed.
(** One entry of [kmap], and the others. *)
Lemma wp_kmap_entry s d l virt ps pe perm ks size k (Q : Z -> kst -> Prop) :
  vm_ok kend s d l -> u32 (pe - ps) = size -> virt mod PGSIZE = 0 -> size mod PGSIZE = 0 -> 0 <= virt -> 0 < size ->
  virt + size <= 2 ^ 32 -> 0 <= ps -> ps + size <= 2 ^ 32 ->
  (forall x, virt <= x < virt + size -> has (pte_at (pages s) d x) PTE_P = false) ->
  lacking (pages s) d (PDX virt) (PDX (virt + size - 1) - PDX virt + 1) = k ->
  (forall s' l1 l2, l = l1 ++ l2 -> length l1 = k -> vm_ok kend s' d l2 -> grows d l1 (pages s) (pages s') ->
     frames_kept d l (pages s) (pages s') ->
     (forall j, 0 <= j < 1024 -> table_at (pages s') d j = None <->
        table_at (pages s) d j = None /\ ~ PDX virt <= j <= PDX (virt + size - 1)) ->
     (forall x, 0 <= x < 2 ^ 32 -> pte_at (pages s') d x =
        if decide (virt <= x < virt + size) then entry (ps + (x / PGSIZE * PGSIZE - virt)) perm else pte_at (pages s) d x) ->
     wp (map_all d ks) Q s') ->
  (forall s', (length l < k)%nat -> vm_ok kend s' d [] -> frames_kept d l (pages s) (pages s') -> Q 0 s') ->
  wp (map_all d ((virt, ps, pe, perm) :: ks)) Q s.
Proof.
  intros Hvm <- Hal Hsz Hva Hs1 Hend Hpa Hpe Hnp Hk Hok Hfail. cbn [map_all]. apply wp_bind.
  eapply wp_mono; [by apply (wp_map_range s d l virt (u32 (pe - ps)) ps perm)|].
  intros r s' [Hfr [(-> & l1 & l2 & E & Hl1 & H1 & H2 & H3 & H4)|(-> & Hlt & H1)]]; simpl.
  - apply (Hok s' l1 l2); try done. congruence.
  - apply wp_ret, Hfail; try done. congruence.
Qed.

Hypotheses (Hdata : kdata mod PGSIZE = 0) (Hdr : KERNLINK < kdata < KERNBASE + PHYSTOP).

Definition kernel_mapped (s1 : kst) (d : Z) (l : list Z) (r : Z) (s' : kst) : Prop :=
  frames_kept d l (pages s1) (pages s') /\
  if decide (64 <= length l)%nat then
    r = d /\ exists ts l2, l = ts ++ l2 /\ length ts = 64%nat /\ vm_ok kend s' d l2 /\ grows d ts (pages s1) (pages s') /\
    (forall j, 0 <= j < 512 -> table_at (pages s') d j = None) /\
    forall x, 0 <= x < 2 ^ 32 -> pte_at (pages s') d x = kernel_pte x
  else r = 0 /\ vm_ok kend s' d [].

Lemma wp_kmap s1 d l : vm_ok kend s1 d l -> (forall j, 0 <= j < 1024 -> table_at (pages s1) d j = None) ->
  wp (map_all d (kmap kdata)) (kernel_mapped s1 d l) s1.
Proof using Hdata Hdr.
  intros Hvm Ht1. unfold kmap, KERNLINK, KERNBASE, EXTMEM, PHYSTOP, DEVSPACE in *.
  assert (forall x, pte_at (pages s1) d x = 0) as Hp1 by (intros x; unfold pte_at; by rewrite Ht1 by apply PDX_range).
  apply (wp_kmap_entry s1 d l _ _ _ _ _ 0x100000 1 _ Hvm); try done.
  { intros x _. by rewrite Hp1. }
  { change (PDX 0x80000000) with 512. change (PDX (0x80000000 + 0x100000 - 1)) with 512.
    rewrite (lacking_count _ _ _ _ 511); [done|lia|lia|]. intros j Hj. rewrite Ht1 by lia. split; [lia|done]. }
  2: { intros s' Hlt Hvm' Hfr. split; [done|]. by rewrite decide_False by lia. }
  intros s2 t1 l1 El1 Hn1 Hvm2 Hg1 Hf1 Ht2 Hp2. change (PDX 0x80000000) with 512 in *. change (PDX (0x80000000 + 0x100000 - 1)) with 512 in *.
  assert (u32 (0x80000000 + 0x100000 - 0x80000000) = 0x100000) as -> by reflexivity.
  rewrite (u32_small (kdata - 0x80000000)) by lia.
  set (p := PDX (kdata - 1)).
  assert (512 <= p <= 567) as Hpr by (unfold p; rewrite PDX_div by lia; change (2 ^ 22) with 4194304; zlia).
  assert (kdata / 4194304 = p \/ kdata / 4194304 = p + 1) as Hpd by (unfold p; rewrite PDX_div by lia; change (2 ^ 22) with 4194304; zlia).
  apply (wp_kmap_entry s2 d l1 _ _ _ _ _ (kdata - 0x80100000) (Z.to_nat (p - 512)) _ Hvm2); try done; try (unfold PGSIZE in *; zlia).
  { rewrite u32_small by lia. lia. }
  { intros x Hx. rewrite Hp2 by lia. rewrite decide_False by lia. by rewrite Hp1. }
  { change (PDX (0x80000000 + 0x100000)) with 512. replace (0x80000000 + 0x100000 + (kdata - 0x80100000) - 1) with (kdata - 1) by lia. fold p.
    rewrite (lacking_count _ _ _ _ 512); [f_equal; lia|lia|lia|]. intros j Hj. rewrite Ht2 by lia. rewrite Ht1 by lia. naive_solver lia. }
  all: assert (forall v, v ∈ l1 -> v ∈ l) as Hsub1 by (intros v Hv; rewrite El1; apply elem_of_app; by right).
  all: assert (length l = 1 + length l1)%nat as Hlen1 by (rewrite El1, length_app; lia).
  2: { intros s' Hlt Hvm' Hfr. split; [by eapply frames_kept_trans|]. by rewrite decide_False by lia. }
  intros s3 t2 l2 El2 Hn2 Hvm3 Hg2 Hf2 Ht3 Hp3. change (PDX (0x80000000 + 0x100000)) with 512 in Ht3.
  replace (0x80000000 + 0x100000 + (kdata - 0x80100000) - 1) with (kdata - 1) in Ht3 by lia. fold p in Ht3.
  pose proof (frames_kept_trans _ _ _ _ _ _ Hsub1 Hf1 Hf2) as Hf12.
  apply (wp_kmap_entry s3 d l2 _ _ _ _ _ (0x8E000000 - kdata) (Z.to_nat (567 - p)) _ Hvm3); try done; try (unfold PGSIZE in *; zlia).
  { rewrite u32_small by lia. lia. }
  { intros x Hx. rewrite Hp3 by lia. rewrite decide_False by lia. rewrite Hp2 by lia. rewrite decide_False by lia. by rewrite Hp1. }
  { replace (kdata + (0x8E000000 - kdata) - 1) with 0x8DFFFFFF by lia. change (PDX 0x8DFFFFFF) with 567.
    rewrite (PDX_div kdata) by lia. change (2 ^ 22) with 4194304. rewrite (lacking_count _ _ _ _ p); [f_equal; lia|lia|lia|].
    intros j Hj. rewrite Ht3, Ht2, Ht1 by lia. naive_solver lia. }
  all: assert (forall v, v ∈ l2 -> v ∈ l) as Hsub2 by (intros v Hv; apply Hsub1; rewrite El2; apply elem_of_app; by right).
  all: assert (length l1 = Z.to_nat (p - 512) + length l2)%nat as Hlen2 by (rewrite El2, length_app; lia).
  2: { intros s' Hlt Hvm' Hfr. split; [by eapply frames_kept_trans|]. by rewrite decide_False by lia. }
  intros s4 t3 l3 El3 Hn3 Hvm4 Hg3 Hf3 Ht4 Hp4. replace (kdata + (0x8E000000 - kdata) - 1) with 0x8DFFFFFF in Ht4 by lia.
  change (PDX 0x8DFFFFFF) with 567 in Ht4. pose proof (PDX_range kdata) as Hkr.
  pose proof (frames_kept_trans _ _ _ _ _ _ Hsub2 Hf12 Hf3) as Hf13.
  apply (wp_kmap_entry s4 d l3 _ _ _ _ _ 0x2000000 8 _ Hvm4); try done.
  { intros x Hx. rewrite Hp4, Hp3, Hp2 by lia. rewrite !decide_False by lia. by rewrite Hp1. }
  { change (PDX 0xFE000000) with 1016. change (PDX (0xFE000000 + 0x2000000 - 1)) with 1023.
    rewrite (lacking_count _ _ _ _ 1015); [done|lia|lia|]. intros j Hj. rewrite Ht4, Ht3, Ht2, Ht1 by lia. split; [lia|]. intros _. split_and!; done || lia. }
  all: assert (forall v, v ∈ l3 -> v ∈ l) as Hsub3 by (intros v Hv; apply Hsub2; rewrite El3; apply elem_of_app; by right).
  all: assert (length l2 = Z.to_nat (567 - p) + length l3)%nat as Hlen3 by (rewrite El3, length_app; lia).
  2: { intros s' Hlt Hvm' Hfr. split; [by eapply frames_kept_trans|]. by rewrite decide_False by lia. }
  intros s5 t4 l4 El4 Hn4 Hvm5 Hg4 Hf4 Ht5 Hp5. change (PDX 0xFE000000) with 1016 in Ht5. pose proof (frames_kept_trans _ _ _ _ _ _ Hsub3 Hf13 Hf4) as Hf14.
  cbn [map_all]. apply wp_ret. split; [done|]. assert (length l3 = 8 + length l4)%nat as Hlen4 by (rewrite El4, length_app; lia).
  rewrite decide_True by lia. split; [done|]. exists (((t1 ++ t2) ++ t3) ++ t4), l4. split_and!; [| |done| | |].
  - by rewrite El1, El2, El3, El4, <- !app_assoc.
  - rewrite !length_app. lia.
  - by do 3 (eapply grows_trans; [|done]).
  - intros j Hj. rewrite Ht5, Ht4, Ht3, Ht2, Ht1 by lia. assert (512 <= PDX kdata) by (rewrite PDX_div by lia; change (2 ^ 22) with 4194304; zlia).
    split_and!; done || lia.
  - intros x Hx. rewrite Hp5, Hp4, Hp3, Hp2, Hp1 by lia. unfold kernel_pte, KERNBASE, PHYSTOP, KERNLINK, KERNBASE, EXTMEM, DEVSPACE.
    repeat case_decide; try lia; try done; f_equal; lia.
Qed.
(** A directory page that has just been cleared. *)
Lemma fresh_dir s d l :
  free_rep kend s l -> page_ok kend d -> (d ∉ l) -> is_Some (pages s !! d) ->
  let s1 := mkK (<[d := page_of 0]> (pages s)) (freelist s) in
  vm_ok kend s1 d l /\ forall j, 0 <= j < 1024 -> table_at (pages s1) d j = None.
Proof.
  intros [Hc Hn Hm] Hok Hd Hsome s1. pose proof Hok as (Hal & _ & Hr).
  assert (forall j, 0 <= j < 1024 -> table_at (pages s1) d j = None) as Ht.
  { intros j Hj. unfold table_at. simpl. by rewrite word_zero. }
  split; [|done]. split_and!; [| |unfold KERNBASE in *; lia].
  - split; simpl; [by apply chain_insert|done|]. apply mem_ok_insert; [done|apply page_of_ok; lia..].
  - split; [|done| |].
    + split_and!; [simpl; rewrite lookup_insert_eq; eauto|done|by eapply page_aligned_nonzero].
    + intros i t Hi E. by rewrite Ht in E.
    + intros i j t Hi Hj E. by rewrite Ht in E.
Qed.

Lemma wp_setupkvm s l : free_rep kend s l ->
  wp (setupkvm kdata) (fun r s' => (forall v, (v ∉ l) -> pages s' !! v = pages s !! v) /\
    if decide (65 <= length l)%nat then
      exists ts l2, l = r :: ts ++ l2 /\ length ts = 64%nat /\ space kend s' r l2 /\
        (forall v, own (pages s') r v <-> v = r \/ v ∈ ts) /\
        (forall j, 0 <= j < 512 -> table_at (pages s') r j = None) /\
        (forall x, user x -> pte_at (pages s') r x = 0) /\
        (forall x, KERNBASE <= x < 2 ^ 32 -> pte_at (pages s') r x = kernel_pte x)
    else r = 0 /\ free_rep kend s' []) s.
Proof using Hdata Hdr.
  intros Hf. unfold setupkvm. apply wp_bind. eapply wp_mono; [by apply (wp_kalloc kend s l)|].
  intros r s1 [Epg H1]. destruct l as [|d l].
  { destruct H1 as [-> ->]. change (0 =? 0) with true. cbv iota. apply wp_ret. split; [done|]. by rewrite decide_False by (simpl; lia). }
  destruct H1 as [-> Hf1]. destruct (free_page kend s (d :: l) d Hf) as [Hok Hsome]; [by left|].
  pose proof (fr_nodup _ _ _ Hf) as Hnd. apply NoDup_cons in Hnd as [Hd Hnd].
  rewrite (proj2 (Z.eqb_neq d 0)) by (by eapply page_aligned_nonzero).
  apply wp_bind, wp_put_page; [by rewrite Epg|]. change (p2v PHYSTOP >? DEVSPACE) with false. cbv iota.
  destruct (fresh_dir s1 d l Hf1 Hok Hd) as [Hvm Ht]; [by rewrite Epg|]. set (s2 := mkK _ _) in *.
  eapply wp_mono; [by apply (wp_kmap s2 d l)|]. intros r s3 [Hfr H3].
  split.
  { intros v Hv. apply not_elem_of_cons in Hv as [Hvd Hv]. destruct (Hfr v Hvd Hv) as [-> _]; [intros i Hi; by rewrite Ht|].
    simpl. by rewrite Epg, lookup_insert_ne. }
  destruct (decide (64 <= length l)%nat); [rewrite decide_True by (simpl; lia)|rewrite decide_False by (simpl; lia)].
  2: { destruct H3 as [-> (? & _)]. done. }
  destruct H3 as (-> & ts & l2 & El & Hlen & Hvm3 & Hg & Hlow & Hp).
  assert (forall x, user x -> pte_at (pages s3) d x = 0) as Hu.
  { intros x Hx. rewrite Hp by by apply user_word. unfold kernel_pte, user, DEVSPACE, KERNBASE in *. by rewrite !decide_False by lia. }
  assert (forall x, user x -> frame_at (pages s3) d x = None) as Hfn by (intros x Hx; unfold frame_at; by rewrite Hu).
  assert (forall j t, 0 <= j < 1024 -> table_at (pages s3) d j = Some t -> t ∈ ts) as Hin.
  { intros j t Hj E. destruct (gr_new _ _ _ _ Hg j t Hj E) as [E'|]; [by rewrite Ht in E'|done]. }
  exists ts, l2. split_and!; [by rewrite El|done| | |done|done|].
  - split; [done|done|..].
    + intros i t Hi E. apply (Hin i t) in E; [|done]. apply (free_page kend s (d :: l) t Hf). rewrite El. set_solver.
    + intros a f Ha E. by rewrite Hfn in E.
    + intros a b f Ha Hb E. by rewrite Hfn in E.
  - intros v. split.
    + intros [|i t Hi E|a f Ha E]; [by left|right; by eapply Hin|by rewrite Hfn in E].
    + intros [->|Hv]; [apply own_dir|]. destruct (gr_all _ _ _ _ Hg v Hv) as (j & Hj & E). by eapply own_table.
  - intros x Hx. apply Hp. unfold KERNBASE in Hx. lia.
Qed.
End Kvm.
