(* ===== verification/UvmCopy.v ===== *)
(** * Copying an address space: [copyuvm], the memory of [fork] *)

From S2P Require Import Prelude Kalloc Vm Uvm UvmGrow Kvm.

Lemma flags_odd w : has w PTE_P = true -> flags_of (PTE_FLAGS w) = PTE_FLAGS w.
Proof.
  rewrite has_P. intros Ho. unfold flags_of. set (f := PTE_FLAGS w).
  assert (Z.odd f = true) as Hf.
  { unfold f, PTE_FLAGS. change 0xFFF with (Z.ones 12). rewrite Z.land_ones by lia. rewrite <- Z.bit0_odd, Z.mod_pow2_bits_low by lia.
    unfold u32. rewrite Z.mod_pow2_bits_low by lia. by rewrite Z.bit0_odd. }
  apply Z.bits_inj'. intros k Hk. rewrite Z.lor_spec. destruct (decide (k = 0)) as [->|]; [by rewrite Z.bit0_odd, Hf|].
  unfold PTE_P. change 1 with (2 ^ 0). rewrite Z.pow2_bits_false by lia. apply orb_false_r.
Qed.
Lemma PTE_FLAGS_range w : 0 <= PTE_FLAGS w < PGSIZE.
Proof. unfold PTE_FLAGS, PGSIZE. change 0xFFF with (Z.ones 12). rewrite Z.land_ones by lia. apply Z.mod_pos_bound. lia. Qed.

Section Copy.
Variable kend : Z.
Hypothesis Hkend : KERNBASE < kend.

Section Child.
(** The parent, before the call; [sd] is the state after [setupkvm], with the child's directory [d]. *)
Context (s0 : kst) (p : Z) (l0 : list Z) (sz : Z).
Hypotheses (Hp : space kend s0 p l0) (Hsz : 0 <= sz <= KERNBASE)
  (Hfull : forall x, user x -> within 0 sz x -> exists f, frame_at (pages s0) p x = Some f).

(** The page of the parent, and its flags. *)
Definition copied (x : Z) (pg : list Z) (fl : Z) : Prop :=
  upage (pages s0) p x = Some pg /\ fl = PTE_FLAGS (pte_at (pages s0) p x).

Context (sd : kst) (d : Z) (ld ts : list Z).
Hypotheses (Hl0 : l0 = d :: ts ++ ld) (Hd : space kend sd d ld) (Hown : forall v, own (pages sd) d v <-> v = d \/ v ∈ ts)
  (Hpar : forall v, own (pages s0) p v -> pages sd !! v = pages s0 !! v)
  (Hempty : forall x, user x -> frame_at (pages sd) d x = None).

(** A copy that failed: the child's pages are free again, but for one that may be lost. *)
Definition copy_failed (r : Z) (s' : kst) : Prop :=
  r = 0 /\ (forall v, own (pages s0) p v -> pages s' !! v = pages s0 !! v) /\
  exists lost l', (length lost <= 1)%nat /\ free_rep kend s' l' /\ forall v, v ∈ l' \/ v ∈ lost <-> v ∈ l0.

Lemma parent_alien v : own (pages s0) p v -> (v ∉ ld) /\ v <> d /\ ~ own (pages sd) d v.
Proof using Hp Hl0 Hown.
  intros Ho. destruct (own_ok _ _ _ _ _ Hp Ho) as (_ & _ & Hn). rewrite Hl0, not_elem_of_cons, not_elem_of_app in Hn. destruct Hn as (H1 & H2 & H3).
  split_and!; [done|done|]. rewrite Hown. by intros [->|?].
Qed.

(** The parent is not affected by anything that is done to the child. *)
Lemma parent_kept lo hi lost l s : range_added kend copied sd d ld lo hi lost l s ->
  space kend s p l /\ forall v, own (pages s0) p v -> pages s !! v = pages s0 !! v.
Proof using Hp Hl0 Hown Hpar.
  intros Hz. assert (forall v, own (pages s0) p v -> pages s !! v = pages s0 !! v) as Hk.
  { intros v Ho. destruct (parent_alien v Ho) as (H1 & H2 & H3). rewrite (rz_kept _ _ _ _ _ _ _ _ _ _ Hz); [by apply Hpar|done|done|].
    intros i Hi E. by eapply H3, own_table. }
  split; [|done]. apply (space_bystander kend s0 s p l0 l); try done.
  - apply (space_free_rep _ _ _ _ (rz_space _ _ _ _ _ _ _ _ _ _ Hz)).
  - intros v Hv Ho. apply (rz_sub _ _ _ _ _ _ _ _ _ _ Hz) in Hv. by destruct (parent_alien v Ho) as (? & _).
Qed.

(** [freevm] on the child. *)
Lemma wp_drop_child lo hi lost l s : (length lost <= 1)%nat -> range_added kend copied sd d ld lo hi lost l s ->
  wp (freevm kend d ;;; ret 0) copy_failed s.
Proof using Hkend Hp Hl0 Hown Hpar.
  intros Hlost Hz. pose proof (rz_space _ _ _ _ _ _ _ _ _ _ Hz) as Hs. destruct (parent_kept _ _ _ _ _ Hz) as [Hps Hk].
  apply wp_bind. eapply wp_mono; [by apply (wp_freevm kend Hkend s d l)|]. intros [] s' (l' & Hf & Hl' & Hal). apply wp_ret.
  split; [done|]. split.
  - intros v Ho. rewrite Hal; [by apply Hk|]. destruct (parent_alien v Ho) as (H1 & H2 & H3). split.
    + intros Hv. by apply H1, (rz_sub _ _ _ _ _ _ _ _ _ _ Hz).
    + intros Hv. destruct (proj1 (rz_own _ _ _ _ _ _ _ _ _ _ Hz v)); [by left|done|done].
  - exists lost, l'. split_and!; try done. intros v. rewrite Hl', Hl0, elem_of_cons, elem_of_app.
    pose proof (rz_own _ _ _ _ _ _ _ _ _ _ Hz v) as H. rewrite Hown in H. clear - H. tauto.
Qed.

Lemma wp_copyuvm_loop n i l s : 0 <= i -> i mod PGSIZE = 0 -> sz <= i + Z.of_nat n * PGSIZE < sz + PGSIZE ->
  range_added kend copied sd d ld 0 i [] l s ->
  wp (copyuvm_loop kend n p d i) (fun r s' =>
    r = d /\ (exists l', range_added kend copied sd d ld 0 sz [] l' s' /\ (length l = need (pages s) d i n + length l')%nat) \/
    (length l < need (pages s) d i n)%nat /\ copy_failed r s') s.
Proof using Hkend Hp Hsz Hfull Hl0 Hd Hown Hpar Hempty.
  revert i l s. induction n as [|n IH]; intros i l s Hi Hal Hn Hz; cbn [copyuvm_loop].
  { apply wp_ret. left. split; [done|]. exists l. split; [|done]. apply (range_added_end _ _ _ _ _ _ _ i); [done|lia|done]. }
  assert (user i) as Hu by (unfold user, KERNBASE, PGSIZE in *; lia).
  assert (within 0 sz i) as Hw by (unfold within, PGSIZE in *; zlia).
  destruct (parent_kept _ _ _ _ _ Hz) as [Hps Hk]. pose proof (rz_space _ _ _ _ _ _ _ _ _ _ Hz) as Hs.
  destruct (same_pages _ _ _ Hk) as (Tp & Pp & Fp & _ & Up). destruct (Hfull i Hu Hw) as [f Hf].
  apply wp_bind. eapply wp_mono; [apply (wp_walk0 kend s p i l), (sp_vm _ _ _ _ Hps)|]. intros r s' [-> Hr].
  rewrite Tp in Hr by apply PDX_range. destruct (table_at (pages s0) p (PDX i)) as [t|] eqn:Et.
  2: { unfold frame_at, pte_at in Hf. by rewrite Et in Hf. }
  destruct Hr as [-> Hr0]. rewrite (proj2 (Z.eqb_neq _ _) Hr0).
  pose proof (sp_vm _ _ _ _ Hps) as (_ & Hdir & _). destruct (do_tab _ _ _ Hdir (PDX i) t) as (T1 & T2 & T3 & _); [apply PDX_range|by rewrite Tp by apply PDX_range|].
  apply wp_bind, wp_ldw; try done; [apply PTX_range|by eapply table_at_nonneg|].
  replace (word (pages s) t (PTX i)) with (pte_at (pages s0) p i).
  2: { rewrite <- Pp. unfold pte_at. by rewrite Tp, Et by apply PDX_range. }
  assert (has (pte_at (pages s0) p i) PTE_P = true /\ p2v (PTE_ADDR (pte_at (pages s0) p i)) = f) as [HP Hpf].
  { unfold frame_at in Hf. destruct (has _ _); [by injection Hf|done]. }
  rewrite HP. simpl negb. cbv iota. apply wp_bind. eapply wp_mono; [by apply (space_kalloc kend s d l)|].
  intros mem s1 (Epg & [(-> & -> & ->)|(l1 & -> & Hr1 & Hok & Hmem & Hal1 & Hs1)]).
  { simpl Z.eqb. cbv iota. eapply wp_mono; [by apply (wp_drop_child 0 i [] [] s); [simpl; lia|]|]. intros r s' H'. right. split; [simpl; lia|done]. }
  rewrite (proj2 (Z.eqb_neq _ _) Hr1). rewrite Hpf.
  destruct (sp_frame _ _ _ _ Hp i f Hu Hf) as (_ & [pg Hpg] & _).
  assert (pages s1 !! f = Some pg) as Hpg1 by (rewrite Epg, Hk by (by eapply own_frame); done).
  assert (length pg = Z.to_nat PGSIZE /\ bytes_ok pg) as [Hlen Hb] by (by apply (space_mem _ _ _ _ Hp f)).
  apply wp_bind. eapply wp_get_page; [exact Hpg1|].
  assert (frame_at (pages s) d i = None) as Hni.
  { rewrite (frame_same (pages sd)); [by apply Hempty|]. apply (rz_pte _ _ _ _ _ _ _ _ _ _ Hz); [by apply user_word|].
    unfold within, PGSIZE in *. zlia. }
  apply wp_assoc, wp_bind.
  eapply wp_mono; [apply (wp_add_page kend copied s s1 d l1 mem i (PTE_FLAGS (pte_at (pages s0) p i)) pg); try done|].
  { apply PTE_FLAGS_range. }
  { intros x Hx Ex. split; [|by rewrite (pte_page _ _ x i), flags_odd by (done || by apply user_word)].
    unfold upage. rewrite (frame_page _ _ x i), Hf by done. done. }
  intros r s2 [(-> & Ht & -> & Hz2)|(-> & l' & t' & Hz2 & Hat & Hl')]; simpl Z.ltb; cbv iota.
  - pose proof (range_added_trans _ _ _ _ _ 0 i i _ _ _ _ _ _ Hd ltac:(lia) Hal Hz Hz2) as Hz3.
    eapply wp_mono; [by apply (wp_drop_child 0 i [mem] [] s2)|]. intros r s' H'. right. split; [|done]. unfold need.
    assert (PDX i <= PDX (i + Z.of_nat n * PGSIZE)) by (apply PDX_mono; unfold KERNBASE, PGSIZE in *; lia).
    rewrite lacking_cons by lia. rewrite Ht. simpl. lia.
  - pose proof (range_added_trans _ _ _ _ _ 0 i (i + PGSIZE) _ _ _ _ _ _ Hd ltac:(unfold PGSIZE; lia) Hal Hz Hz2) as Hz3.
    rewrite (need_step (pages s) (pages s2) d i n t') by (done || unfold KERNBASE, PGSIZE in *; lia).
    assert (length l1 = (if table_at (pages s) d (PDX i) is None then 1 else 0) + length l')%nat as El
      by (destruct Hl' as [[-> ->]|[-> ->]]; simpl; lia).
    eapply wp_mono; [apply (IH (i + PGSIZE) l' s2); [unfold PGSIZE; lia|unfold PGSIZE in *; zlia|unfold PGSIZE in *; lia|done]|].
    intros r s' [(-> & l'' & H'' & E'')|[Hlt H'']]; [left|right].
    + split; [done|]. exists l''. split; [done|]. simpl. lia.
    + split; [simpl; lia|done].
Qed.
End Child.

Variable kdata : Z.
Hypotheses (Hdata : kdata mod PGSIZE = 0) (Hdr : KERNLINK < kdata < KERNBASE + PHYSTOP).

(** The free pages a copy takes: the kernel part, the pages and the tables for them. *)
Definition copy_need (sz : Z) : nat := let n := pages_upto sz in (65 + n + (n + 1023) / 1024)%nat.

Lemma need_fresh m d n : Z.of_nat n * PGSIZE <= KERNBASE -> (forall j, 0 <= j < 512 -> table_at m d j = None) ->
  need m d 0 n = (n + (n + 1023) / 1024)%nat.
Proof.
  intros Hn Ht. destruct n as [|n]; [done|]. unfold need. rewrite Z.add_0_l. change (PDX 0) with 0.
  unfold KERNBASE, PGSIZE in *. rewrite PDX_div by lia. change (2 ^ 22) with 4194304.
  rewrite (lacking_count _ _ _ _ (-1)); [|zlia|zlia|intros j Hj; rewrite Ht by zlia; split; [lia|done]].
  f_equal. apply Nat2Z.inj. rewrite Z2Nat.id by zlia. rewrite Nat2Z.inj_div. zlia.
Qed.

Lemma added_umem s0 p s d l lo hi lost l' s' : range_added kend (copied s0 p) s d l lo hi lost l' s' -> forall x, user x -> within lo hi x ->
  umem (pages s') d x = umem (pages s0) p x /\ PTE_FLAGS (pte_at (pages s') d x) = PTE_FLAGS (pte_at (pages s0) p x).
Proof.
  intros Hz x Hx Hw. destruct (rz_new _ _ _ _ _ _ _ _ _ _ Hz x Hx Hw) as (pg & H1 & H2 & H3). unfold umem. by rewrite H1, H2.
Qed.
(** C6. [copyuvm], the memory of a forked process.  With the free pages it takes, it returns a new address space that has at
    every user address below [sz] the byte and the permissions of the parent and nothing above, the kernel's
    mappings, and no page in common with the parent; every free page is still free or is a page of the child.
    With fewer it returns 0.  In either case no page of the parent has changed.  A failed copy gives back what
    it took but for one page at most, unless not even the kernel part fits: then all free pages are lost. *)
Theorem copyuvm_copies s p l sz :
  space kend s p l -> 0 <= sz <= KERNBASE -> (forall x, user x -> within 0 sz x -> frame_at (pages s) p x <> None) ->
  wp (copyuvm kend kdata p sz) (fun r s' =>
    (forall v, own (pages s) p v -> pages s' !! v = pages s !! v) /\
    if decide (copy_need sz <= length l)%nat then exists l',
      space kend s' r l' /\ (length l = copy_need sz + length l')%nat /\
      (forall x, user x -> umem (pages s') r x = if decide (within 0 sz x) then umem (pages s) p x else None) /\
      (forall x, user x -> within 0 sz x -> PTE_FLAGS (pte_at (pages s') r x) = PTE_FLAGS (pte_at (pages s) p x)) /\
      (forall x, KERNBASE <= x < 2 ^ 32 -> pte_at (pages s') r x = kernel_pte kdata x) /\
      (forall v, v ∈ l <-> own (pages s') r v \/ v ∈ l') /\ (forall v, own (pages s') r v -> ~ own (pages s) p v)
    else r = 0 /\ exists l', free_rep kend s' l' /\
      if decide (length l < 65)%nat then l' = []
      else exists lost, (length lost <= 1)%nat /\ forall v, v ∈ l' \/ v ∈ lost <-> v ∈ l) s.
Proof using Hkend Hdata Hdr.
  intros Hp Hsz Hfull. pose proof (space_free_rep _ _ _ _ Hp) as Hf. unfold copyuvm. apply wp_bind.
  eapply wp_mono; [by apply (wp_setupkvm kend kdata Hdata Hdr s l)|]. intros d sd [Hk H1].
  assert (forall v, own (pages s) p v -> pages sd !! v = pages s !! v) as Hpar.
  { intros v Ho. apply Hk. by destruct (own_ok _ _ _ _ _ Hp Ho) as (_ & _ & ?). }
  destruct (decide (65 <= length l)%nat) as [H65|H65].
  2: { destruct H1 as [-> Hf1]. simpl Z.eqb. cbv iota. apply wp_ret. split; [done|].
    rewrite decide_False by (unfold copy_need; lia). split; [done|]. exists []. split; [done|]. by rewrite decide_True by lia. }
  destruct H1 as (ts & ld & El & Hts & Hd & Hown & Hlow & Hzero & Hker).
  pose proof (sp_dir _ _ _ _ Hd) as Hdok. rewrite (proj2 (Z.eqb_neq d 0)) by (by eapply page_aligned_nonzero).
  assert (Z.of_nat (pages_upto sz) = (sz + PGSIZE - 1) / PGSIZE) as En by (unfold pages_upto; rewrite Z2Nat.id; [done|unfold PGSIZE; zlia]).
  assert (Z.of_nat (pages_upto sz) * PGSIZE <= KERNBASE) as Hn by (rewrite En; unfold KERNBASE, PGSIZE in *; zlia).
  assert (length l = 65 + length ld)%nat as Hlen by (rewrite El; simpl; rewrite length_app; lia).
  assert (forall x, user x -> frame_at (pages sd) d x = None) as Hempty by (intros x Hx; unfold frame_at; by rewrite Hzero).
  eapply wp_mono; [apply (wp_copyuvm_loop s p l sz Hp Hsz) with (sd := sd) (ld := ld) (l := ld) (ts := ts); try done|].
  - intros x Hx Hw. destruct (frame_at (pages s) p x) as [f|] eqn:E; [by exists f|]. by apply Hfull in E.
  - rewrite En. unfold PGSIZE. zlia.
  - by apply range_added_refl.
  - rewrite (need_fresh (pages sd) d _ Hn Hlow). intros r s' [(-> & l' & Hz & El')|[Hlt (-> & Hkp & lost & l' & H1 & H2 & H3)]].
    + destruct (parent_kept s p l Hp sd d ld ts El Hown Hpar 0 sz [] l' s' Hz) as [_ Hkp]. split; [done|].
      rewrite decide_True by (unfold copy_need; lia). pose proof Hz as [Z1 Z2 Z3 _ _ Z4 Z5 _ _].
      exists l'. split_and!.
      * done.
      * unfold copy_need. lia.
      * intros x Hx. case_decide as Hw; [by apply (added_umem _ _ _ _ _ _ _ _ _ _ Hz)|]. unfold umem, upage.
        rewrite (frame_same (pages sd)), Hempty; [done|done|]. apply Z3; [by apply user_word|done].
      * intros x Hx Hw. by apply (added_umem _ _ _ _ _ _ _ _ _ _ Hz).
      * intros x Hx. rewrite Z3; [by apply Hker|unfold KERNBASE in Hx; lia|]. unfold within, KERNBASE, PGSIZE in *. zlia.
      * intros v. rewrite El, elem_of_cons, elem_of_app. specialize (Z5 v). rewrite Hown, elem_of_nil in Z5. clear - Z5. tauto.
      * intros v Ho Ho'. destruct (own_ok _ _ _ _ _ Hp Ho') as (_ & _ & Hn'). apply Hn'.
        rewrite El, elem_of_cons, elem_of_app. specialize (Z5 v). rewrite Hown in Z5. clear - Z5 Ho. tauto.
    + split; [done|]. rewrite decide_False by (unfold copy_need; lia). split; [done|]. exists l'. split; [done|].
      rewrite decide_False by lia. by exists lost.
Qed.
End Copy.
