(* ===== verification/UvmWrite.v ===== *)
(** * Writing user memory: [copyout], [clearpteu] and stores into user pages *)

From S2P Require Import Prelude Kalloc Vm Uvm UvmGrow.

(** A memory with the bytes [b] at [a]. *)
Definition store (U : Z -> option Z) (a : Z) (b : list Z) : Z -> option Z :=
  fun x => if decide (a <= x < a + Z.of_nat (length b)) then b !! Z.to_nat (x - a) else U x.

Lemma store_nil U a x : store U a [] x = U x.
Proof. unfold store. rewrite decide_False; [done|]. simpl. lia. Qed.
Lemma store_ext U U' a b x : U x = U' x -> store U a b x = store U' a b x.
Proof. unfold store. intros E. by rewrite E. Qed.
(** A store in two parts. *)
Lemma store_split U a b n x : (n <= length b)%nat ->
  store (store U a (take n b)) (a + Z.of_nat n) (drop n b) x = store U a b x.
Proof.
  intros Hn. unfold store. rewrite length_take_le, length_drop by done.
  destruct (decide (a + Z.of_nat n <= x < a + Z.of_nat n + Z.of_nat (length b - n))) as [H1|H1].
  - rewrite decide_True by lia. rewrite lookup_drop. f_equal. lia.
  - destruct (decide (a <= x < a + Z.of_nat n)) as [H2|H2].
    + rewrite decide_True by lia. apply lookup_take_lt. lia.
    + by rewrite decide_False by lia.
Qed.

Section Write.
Variable kend : Z.

(** The contents of some frames have changed; the memory is [U]. *)
Record written (s : kst) (d : Z) (l : list Z) (U : Z -> option Z) (s' : kst) : Prop := {
  wr_space : space kend s' d l;
  wr_mem : forall x, user x -> umem (pages s') d x = U x;
  wr_table : forall i, 0 <= i < 1024 -> table_at (pages s') d i = table_at (pages s) d i;
  wr_pte : forall x, pte_at (pages s') d x = pte_at (pages s) d x;
  wr_kept : forall v, (forall x, user x -> frame_at (pages s) d x <> Some v) -> pages s' !! v = pages s !! v
}.

Lemma written_refl s d l : space kend s d l -> written s d l (umem (pages s) d) s.
Proof. intros Hs. by split. Qed.
Lemma written_ext s d l U U' s' : (forall x, user x -> U' x = U x) -> written s d l U s' -> written s d l U' s'.
Proof. intros E [H1 H2 H3 H4 H5]. split; try done. intros x Hx. by rewrite H2, E. Qed.
Lemma written_trans s d l U s1 U' s' : written s d l U s1 -> written s1 d l U' s' -> written s d l U' s'.
Proof.
  intros [A1 A2 A3 A4 A5] [B1 B2 B3 B4 B5]. split; try done.
  - intros i Hi. by rewrite B3, A3.
  - intros x. by rewrite B4, A4.
  - intros v Hv. rewrite B5; [by apply A5|]. intros x Hx. rewrite (frame_same (pages s)) by apply A4. by apply Hv.
Qed.
Lemma wr_own s d l U s' v : written s d l U s' -> own (pages s') d v <-> own (pages s) d v.
Proof. intros [_ _ A3 A4 _]. by apply own_same. Qed.
Lemma wr_frame s d l U s' x : written s d l U s' -> frame_at (pages s') d x = frame_at (pages s) d x.
Proof. intros [_ _ _ A4 _]. by apply frame_same. Qed.

Lemma umem_page s d l x f pg : space kend s d l -> user x -> frame_at (pages s) d x = Some f -> pages s !! f = Some pg ->
  umem (pages s) d x = pg !! Z.to_nat (x mod PGSIZE).
Proof. intros Hs Hx Hf Hp. unfold umem, upage. by rewrite Hf; simpl; rewrite Hp. Qed.

(** A store within the page of [a]. *)
Lemma wp_copy_in s d l a f off b :
  space kend s d l -> user a -> a mod PGSIZE = 0 -> frame_at (pages s) d a = Some f -> 0 <= off ->
  off + Z.of_nat (length b) <= PGSIZE -> bytes_ok b ->
  wp (copy_in f off b) (fun _ s' => written s d l (store (umem (pages s) d) (a + off) b) s') s.
Proof.
  intros Hs Ha Hal Hf Ho Hlen Hb. destruct (sp_frame _ _ _ _ Hs a f Ha Hf) as (Fok & [pg Hpg] & Fl & Fd & Ft).
  destruct (space_mem _ _ _ _ Hs f pg Hpg) as [Hpl Hpb]. unfold copy_in. apply wp_bind. eapply wp_get_page; [exact Hpg|].
  apply wp_put_page; [by exists pg|].
  assert (Z.to_nat off + length b <= length pg)%nat as Hle by (rewrite Hpl; unfold PGSIZE in *; lia).
  set (pg' := bsplice (Z.to_nat off) b pg).
  assert (length pg' = Z.to_nat PGSIZE) as Hpl' by (unfold pg'; by rewrite bsplice_length).
  destruct (space_put kend s d l f pg' Hs Fl Fd Ft Hpl') as (Hs' & Et & Ep & Eo); [by apply bytes_ok_splice|].
  set (s' := mkK _ _) in *. assert (forall x, frame_at (pages s') d x = frame_at (pages s) d x) as Ef by (intros; by apply frame_same).
  split; try done.
  - intros x Hx. unfold store. destruct (decide (x / PGSIZE = a / PGSIZE)) as [Ex|Ex].
    + assert (frame_at (pages s) d x = Some f) as Hxf by (by rewrite (frame_page _ _ x a)).
      rewrite (umem_page s' d l x f pg'); [|done|done|by rewrite Ef|simpl; by rewrite lookup_insert_eq].
      rewrite (umem_page s d l x f pg) by done. unfold pg'. rewrite bsplice_lookup by done.
      assert (x = a + x mod PGSIZE) as Exa by (unfold PGSIZE in *; zlia).
      assert (0 <= x mod PGSIZE < PGSIZE) as Hm by (unfold PGSIZE; zlia).
      destruct (decide (a + off <= x < a + off + Z.of_nat (length b))).
      * rewrite decide_True by lia. f_equal. lia.
      * rewrite decide_False by lia. done.
    + rewrite decide_False by (unfold PGSIZE in *; zlia). unfold umem, upage. rewrite Ef.
      destruct (frame_at (pages s) d x) as [g|] eqn:Eg; [|done]. simpl. rewrite lookup_insert_ne; [done|].
      intros ->. apply Ex. by apply (sp_inj _ _ _ _ Hs x a g).
  - intros v Hv. simpl. rewrite lookup_insert_ne; [done|]. intros <-. by apply (Hv a).
Qed.
(** ** [uva2ka] and [copyout] *)

Definition uaccess (m : gmap Z (list Z)) (d x : Z) : bool := has (pte_at m d x) PTE_U.

Lemma wp_uva2ka s d l a : vm_ok kend s d l -> has (pte_at (pages s) d a) PTE_P = true ->
  wp (uva2ka d a) (fun r s' => s' = s /\ r = if uaccess (pages s) d a then p2v (PTE_ADDR (pte_at (pages s) d a)) else 0) s.
Proof.
  intros Hvm HP. pose proof Hvm as (_ & Hdir & _). unfold uva2ka. apply wp_bind.
  eapply wp_mono; [by apply (wp_walk0 kend s d a l)|]. intros r s' [-> Hr].
  destruct (table_at (pages s) d (PDX a)) as [t|] eqn:Et; [|unfold pte_at in HP; by rewrite Et in HP].
  destruct Hr as [-> Hr]. destruct (do_tab _ _ _ Hdir _ _ (PDX_range a) Et) as (T1 & T2 & T3 & _).
  apply wp_bind, wp_ldw; try done; [apply PTX_range|by eapply table_at_nonneg|].
  replace (word (pages s) t (PTX a)) with (pte_at (pages s) d a) by (unfold pte_at; by rewrite Et).
  rewrite HP. unfold uaccess. simpl negb. cbv iota. by destruct (has (pte_at (pages s) d a) PTE_U); apply wp_ret.
Qed.

Lemma frame_present m d a f : frame_at m d a = Some f -> has (pte_at m d a) PTE_P = true /\ p2v (PTE_ADDR (pte_at m d a)) = f.
Proof. unfold frame_at. destruct (has _ _); [|done]. by intros [= ->]. Qed.

Lemma page_start x : user x -> user (PGROUNDDOWN x) /\ PGROUNDDOWN x mod PGSIZE = 0 /\ PGROUNDDOWN x / PGSIZE = x / PGSIZE /\
  x - PGROUNDDOWN x = x mod PGSIZE /\ PGROUNDDOWN x <= x < PGROUNDDOWN x + PGSIZE.
Proof. unfold user. intros Hx. rewrite round_down by lia. unfold KERNBASE, PGSIZE in *. split_and!; zlia. Qed.

(** [copyout] to mapped memory: it stores the bytes, unless one of the pages is not accessible to the user. *)
Lemma wp_copyout_loop fuel s d l va buf :
  space kend s d l -> 0 <= va -> va + Z.of_nat (length buf) <= KERNBASE -> (length buf < fuel)%nat -> bytes_ok buf ->
  (forall x, va <= x < va + Z.of_nat (length buf) -> frame_at (pages s) d x <> None) ->
  wp (copyout_loop fuel d va buf) (fun r s' =>
    r = 0 /\ (forall x, va <= x < va + Z.of_nat (length buf) -> uaccess (pages s) d x = true) /\
      written s d l (store (umem (pages s) d) va buf) s' \/
    r = -1 /\ (exists x, va <= x < va + Z.of_nat (length buf) /\ uaccess (pages s) d x = false) /\ exists U, written s d l U s') s.
Proof.
  revert s va buf. induction fuel as [|fuel IH]; intros s va buf Hs Hva Hend Hfu Hb Hmap; [lia|].
  destruct buf as [|c buf]; cbn [copyout_loop].
  { apply wp_ret. left. split_and!; [done|simpl; lia|]. apply (written_ext _ _ _ (umem (pages s) d)); [intros; apply store_nil|by apply written_refl]. }
  set (b := c :: buf) in *. assert (0 < length b)%nat as Hb0 by (simpl; lia).
  assert (user va) as Hu by (unfold user; lia). destruct (page_start va Hu) as (Hu0 & Hal & Hdiv & Hoff & Hr).
  destruct (frame_at (pages s) d va) as [f|] eqn:Hf; [|by apply (Hmap va) in Hf; [|lia]].
  assert (frame_at (pages s) d (PGROUNDDOWN va) = Some f) as Hf0 by (by rewrite (frame_page _ _ _ va)).
  destruct (frame_present _ _ _ _ Hf0) as [HP Hpf].
  assert (forall x, user x -> x / PGSIZE = va / PGSIZE -> uaccess (pages s) d x = uaccess (pages s) d (PGROUNDDOWN va)) as Hacc.
  { intros x Hx Ex. unfold uaccess. by rewrite (pte_page _ _ x (PGROUNDDOWN va)) by (by apply user_word || congruence). }
  apply wp_bind. eapply wp_mono; [by apply (wp_uva2ka s d l (PGROUNDDOWN va)); [apply (sp_vm _ _ _ _ Hs)|]|].
  intros r s' [-> ->]. destruct (uaccess (pages s) d (PGROUNDDOWN va)) eqn:EU.
  2: { simpl. apply wp_ret. right. split_and!; [done| |eexists; by apply written_refl]. exists va. split; [lia|]. by rewrite Hacc. }
  rewrite Hpf. destruct (sp_frame _ _ _ _ Hs va f Hu Hf) as (Fok & _).
  rewrite (proj2 (Z.eqb_neq f 0)) by (by eapply page_aligned_nonzero). rewrite Hoff.
  set (n := Z.min (PGSIZE - va mod PGSIZE) (Z.of_nat (length b))).
  assert (0 < n <= Z.of_nat (length b)) as Hn by (unfold n, PGSIZE in *; zlia).
  assert (va mod PGSIZE + n <= PGSIZE) as Hn2 by (unfold n; lia).
  assert (length (take (Z.to_nat n) b) = Z.to_nat n) as Hlt by (rewrite length_take_le; lia).
  apply wp_bind. eapply wp_mono; [apply (wp_copy_in s d l (PGROUNDDOWN va) f (va mod PGSIZE)); try done|].
  { unfold PGSIZE; zlia. }
  { rewrite Hlt. lia. }
  { by apply Forall_take. }
  intros [] s1 H1. replace (PGROUNDDOWN va + va mod PGSIZE) with va in H1 by lia.
  assert (forall x, va <= x < va + n -> x / PGSIZE = va / PGSIZE) as Hsame by (intros x Hx; unfold PGSIZE in *; zlia).
  destruct (decide (n = Z.of_nat (length b))) as [Hlast|Hmore].
  - rewrite (drop_ge b) by lia. destruct fuel; [simpl in *; lia|]. cbn [copyout_loop]. apply wp_ret. left. split_and!; [done| |].
    + intros x Hx. rewrite Hacc; [done|unfold user; lia|apply Hsame; lia].
    + by rewrite take_ge in H1 by lia.
  - assert (n = PGSIZE - va mod PGSIZE) as Hnp by (unfold n in *; lia).
    assert (PGROUNDDOWN va + PGSIZE = va + n) as Enext by lia.
    rewrite Enext, u32_small by (unfold KERNBASE in *; lia).
    assert (length (drop (Z.to_nat n) b) = length b - Z.to_nat n)%nat as Hld by apply length_drop.
    eapply wp_mono; [apply (IH s1 (va + n) (drop (Z.to_nat n) b)); try lia|].
    + apply (wr_space _ _ _ _ _ H1).
    + by apply Forall_drop.
    + intros x Hx. rewrite (wr_frame _ _ _ _ _ x H1). apply Hmap. lia.
    + assert (forall x, uaccess (pages s1) d x = uaccess (pages s) d x) as Ea by (intros x; unfold uaccess; by rewrite (wr_pte _ _ _ _ _ H1)).
      intros r s2 [(-> & Ha2 & H2)|(-> & (x & Hx & Hax) & U & H2)].
      * left. split_and!; [done| |].
        -- intros x Hx. destruct (decide (x < va + n)); [rewrite Hacc; [done|unfold user; lia|apply Hsame; lia]|]. rewrite <- Ea. apply Ha2. lia.
        -- eapply written_ext; [|by eapply written_trans]. intros x Hx. simpl.
           rewrite <- (store_split _ va b (Z.to_nat n)) by lia. rewrite Z2Nat.id by lia. apply store_ext. symmetry. by apply (wr_mem _ _ _ _ _ H1).
      * right. split_and!; [done|exists x; split; [lia|by rewrite <- Ea]|]. exists U. by eapply written_trans.
Qed.

Lemma wp_copyout s d l va buf :
  space kend s d l -> 0 <= va -> va + Z.of_nat (length buf) <= KERNBASE -> bytes_ok buf ->
  (forall x, va <= x < va + Z.of_nat (length buf) -> frame_at (pages s) d x <> None) ->
  wp (copyout d va buf) (fun r s' =>
    r = 0 /\ (forall x, va <= x < va + Z.of_nat (length buf) -> uaccess (pages s) d x = true) /\
      written s d l (store (umem (pages s) d) va buf) s' \/
    r = -1 /\ (exists x, va <= x < va + Z.of_nat (length buf) /\ uaccess (pages s) d x = false) /\ exists U, written s d l U s') s.
Proof. intros. apply wp_copyout_loop; try done. lia. Qed.
(** ** [clearpteu] *)

Lemma pte_range m d x : mem_ok m -> 0 <= pte_at m d x < 2 ^ 32.
Proof.
  intros Hm. unfold pte_at. destruct (table_at m d (PDX x)) as [t|]; [|lia]. unfold word.
  destruct (m !! t) as [pg|] eqn:E; [|lia]. apply get32_range. by apply (Hm t pg).
Qed.

Lemma clear_u w : 0 <= w < 2 ^ 32 -> let w' := Z.land w (Z.lnot PTE_U) in
  u32 w' = w' /\ has w' PTE_P = has w PTE_P /\ has w' PTE_U = false /\ PTE_ADDR w' = PTE_ADDR w.
Proof.
  intros Hw w'. assert (u32 w' = w') as E.
  { unfold u32, w'. rewrite <- Z.land_ones by lia. rewrite <- Z.land_assoc, (Z.land_comm (Z.lnot PTE_U)), Z.land_assoc.
    rewrite Z.land_ones by lia. by rewrite Z.mod_small. }
  unfold has, PTE_ADDR. rewrite E, (u32_small w) by lia.
  unfold w', PTE_U, PTE_P. rewrite <- !Z.land_assoc. split_and!; [done|done| |done].
  change (Z.land (Z.lnot 4) 4) with 0. by rewrite Z.land_0_r.
Qed.

(** The page of [a] is closed to the user; nothing else changes. *)
Record guarded (s : kst) (d : Z) (l : list Z) (a : Z) (s' : kst) : Prop := {
  gu_space : space kend s' d l;
  gu_frame : forall x, user x -> frame_at (pages s') d x = frame_at (pages s) d x;
  gu_mem : forall x, user x -> umem (pages s') d x = umem (pages s) d x;
  gu_pte : forall x, 0 <= x < 2 ^ 32 -> x / PGSIZE <> a / PGSIZE -> pte_at (pages s') d x = pte_at (pages s) d x;
  gu_acc : uaccess (pages s') d a = false;
  gu_own : forall v, own (pages s') d v <-> own (pages s) d v;
  gu_kept : forall v, (v ∉ l) -> ~ own (pages s) d v -> pages s' !! v = pages s !! v
}.

Lemma wp_clearpteu s d l a f : space kend s d l -> user a -> frame_at (pages s) d a = Some f ->
  wp (clearpteu d a) (fun _ s' => guarded s d l a s') s.
Proof.
  intros Hs Ha Hf. pose proof (sp_vm _ _ _ _ Hs) as Hvm. pose proof Hvm as (_ & Hdir & _).
  unfold clearpteu. apply wp_bind. eapply wp_mono; [by apply (wp_walk0 kend s d a l)|]. intros r s' [-> Hr].
  destruct (table_at (pages s) d (PDX a)) as [t|] eqn:Et; [|unfold frame_at, pte_at in Hf; by rewrite Et in Hf].
  destruct Hr as [-> Hr]. destruct (do_tab _ _ _ Hdir _ _ (PDX_range a) Et) as (T1 & T2 & T3 & _).
  rewrite (proj2 (Z.eqb_neq _ _) Hr). apply wp_bind, wp_ldw; try done; [apply PTX_range|by eapply table_at_nonneg|].
  replace (word (pages s) t (PTX a)) with (pte_at (pages s) d a) by (unfold pte_at; by rewrite Et).
  destruct (clear_u (pte_at (pages s) d a)) as (C1 & C2 & C3 & C4); [apply pte_range, (space_mem _ _ _ _ Hs)|].
  eapply wp_set_pte; [exact Hvm|done|by apply user_word|]. rewrite C1. intros s' Hvm' Ht Hp Hfr.
  assert (forall x, user x -> frame_at (pages s') d x = frame_at (pages s) d x) as Ef.
  { intros x Hx. unfold frame_at. rewrite Hp by by apply user_word. case_decide as Ex; [|done].
    rewrite C2, C4. by rewrite (pte_page _ _ x a) by (done || by apply user_word). }
  pose proof Hs as [_ G1 G2 G3 G4].
  assert (forall x g, user x -> frame_at (pages s) d x = Some g -> pages s' !! g = pages s !! g) as Hpg.
  { intros x g Hx Eg. destruct (G3 x g Hx Eg) as (_ & _ & N1 & N2 & N3). by destruct (Hfr g N2 N1 N3). }
  assert (forall v, own (pages s') d v <-> own (pages s) d v) as Ho.
  { intros v. split; (intros [|i u Hi E|x g Hx E]; [apply own_dir| |]).
    - rewrite Ht in E by done. by eapply own_table.
    - rewrite Ef in E by done. by eapply own_frame.
    - rewrite <- Ht in E by done. by eapply own_table.
    - rewrite <- Ef in E by done. by eapply own_frame. }
  split; try done.
  - split; [done|done|..].
    + intros i u Hi. rewrite Ht by done. by apply G2.
    + intros x g Hx E. rewrite Ef in E by done. destruct (G3 x g Hx E) as (N1 & N2 & N3 & N4 & N5).
      rewrite (Hpg x g) by done. split_and!; try done. intros i Hi. rewrite Ht by done. by apply N5.
    + intros x y g Hx Hy. rewrite !Ef by done. by apply G4.
  - intros x Hx. unfold umem, upage. rewrite Ef by done. destruct (frame_at (pages s) d x) as [g|] eqn:Eg; [|done]. simpl.
    by rewrite (Hpg x g).
  - intros x Hx Hne. rewrite Hp by done. by rewrite decide_False.
  - unfold uaccess. rewrite Hp by by apply user_word. by rewrite decide_True.
  - intros v Hv Hno. destruct (Hfr v) as [? _]; try done.
    + intros ->. apply Hno, own_dir.
    + intros i Hi E. by eapply Hno, own_table.
Qed.
End Write.
