(* ===== verification/Proc.v ===== *)
(** * Processes: proc.c, proc.h and sysproc.c

    The process table is a list of 64 records; a process pointer is its index,
    and [proc_addr] its address where the source uses the pointer as a wait
    channel.  The handlers take the index [me] of the process that runs them.
    Code between [acquire(&ptable.lock)] and the matching [release] runs as one
    step; the steps of different processes interleave.  Memory is the state of
    the page allocator, with [kalloc], [copyuvm] and the other routines of kalloc.c
    and vm.c as they are modelled there; the file layer is an interface. *)

From S2P Require Import Prelude Kalloc Vm Spinlock.

Definition NPROC : Z := 64.
Definition KSTACKSIZE : Z := 4096.
Definition NOFILE : Z := 16.

Inductive procstate := UNUSED | EMBRYO | SLEEPING | RUNNABLE | RUNNING | ZOMBIE.
#[global] Instance procstate_eq_dec : EqDecision procstate.
Proof. solve_decision. Defined.

Record proc := mkProc {
  sz : Z; pgdir : Z; kstack : Z; state : procstate; pid : Z; parent : option nat;
  tf : Z; context : Z; chan : Z; killed : Z; ofile : list Z; cwd : Z; name : list Z
}.
Definition set_sz v p := mkProc v (pgdir p) (kstack p) (state p) (pid p) (parent p) (tf p) (context p) (chan p) (killed p) (ofile p) (cwd p) (name p).
Definition set_pgdir v p := mkProc (sz p) v (kstack p) (state p) (pid p) (parent p) (tf p) (context p) (chan p) (killed p) (ofile p) (cwd p) (name p).
Definition set_kstack v p := mkProc (sz p) (pgdir p) v (state p) (pid p) (parent p) (tf p) (context p) (chan p) (killed p) (ofile p) (cwd p) (name p).
Definition set_state v p := mkProc (sz p) (pgdir p) (kstack p) v (pid p) (parent p) (tf p) (context p) (chan p) (killed p) (ofile p) (cwd p) (name p).
Definition set_pid v p := mkProc (sz p) (pgdir p) (kstack p) (state p) v (parent p) (tf p) (context p) (chan p) (killed p) (ofile p) (cwd p) (name p).
Definition set_parent v p := mkProc (sz p) (pgdir p) (kstack p) (state p) (pid p) v (tf p) (context p) (chan p) (killed p) (ofile p) (cwd p) (name p).
Definition set_tf v p := mkProc (sz p) (pgdir p) (kstack p) (state p) (pid p) (parent p) v (context p) (chan p) (killed p) (ofile p) (cwd p) (name p).
Definition set_context v p := mkProc (sz p) (pgdir p) (kstack p) (state p) (pid p) (parent p) (tf p) v (chan p) (killed p) (ofile p) (cwd p) (name p).
Definition set_chan v p := mkProc (sz p) (pgdir p) (kstack p) (state p) (pid p) (parent p) (tf p) (context p) v (killed p) (ofile p) (cwd p) (name p).
Definition set_killed v p := mkProc (sz p) (pgdir p) (kstack p) (state p) (pid p) (parent p) (tf p) (context p) (chan p) v (ofile p) (cwd p) (name p).
Definition set_ofile v p := mkProc (sz p) (pgdir p) (kstack p) (state p) (pid p) (parent p) (tf p) (context p) (chan p) (killed p) v (cwd p) (name p).
Definition set_cwd v p := mkProc (sz p) (pgdir p) (kstack p) (state p) (pid p) (parent p) (tf p) (context p) (chan p) (killed p) (ofile p) v (name p).
Definition set_name v p := mkProc (sz p) (pgdir p) (kstack p) (state p) (pid p) (parent p) (tf p) (context p) (chan p) (killed p) (ofile p) (cwd p) v.

(** What proc.c calls in the file layer; a pointer to a file or an inode is its
    address, and 0 is the null pointer. *)
Class Files (F : Type) := {
  f_filedup : Z -> M F Z;
  f_fileclose : Z -> M F unit;
  f_idup : Z -> M F Z;
  f_iput : Z -> M F unit;
  f_begin_op : M F unit;
  f_end_op : M F unit;
  f_namei : list Z -> M F Z
}.

Section Proc.
Context {F : Type} `{Files F}.
(** Link-time addresses: the end of the kernel, of its data, the process table,
    and the code the new contexts start in. *)
Variables kend kdata ptab trapret forkret : Z.

Record pst := mkP { procs : list proc; nextpid : Z; initproc : option nat; kmem : kst; kfs : F }.

Definition PROC_SIZE : Z := 124.
Definition proc_addr (i : nat) : Z := ptab + PROC_SIZE * Z.of_nat i.

Definition with_mem (k : kst) (s : pst) : pst := mkP (procs s) (nextpid s) (initproc s) k (kfs s).
Definition with_fs (f : F) (s : pst) : pst := mkP (procs s) (nextpid s) (initproc s) (kmem s) f.
Definition on_mem {A} : M kst A -> M pst A := lift kmem with_mem.
Definition on_fs {A} : M F A -> M pst A := lift kfs with_fs.
Definition get_proc (i : nat) : M pst proc := fun s =>
  match procs s !! i with Some p => Done p s | None => Fault "proc" end.
Definition upd (i : nat) (f : proc -> proc) (s : pst) : pst :=
  mkP (alter f i (procs s)) (nextpid s) (initproc s) (kmem s) (kfs s).
Definition set_proc (i : nat) (f : proc -> proc) : M pst unit := get_proc i ;;; modify (upd i f).

(** The first slot of the table that satisfies a condition. *)
Fixpoint find_from (f : proc -> bool) (i : nat) (l : list proc) : option nat :=
  match l with
  | [] => None
  | p :: l' => if f p then Some i else find_from f (S i) l'
  end.
Definition find_proc (f : proc -> bool) : M pst (option nat) := gets (fun s => find_from f 0 (procs s)).

(** ** Creating a process *)

(** [allocproc] up to the release of the table's lock. *)
Definition allocproc_slot : M pst (option nat) :=
  o <- find_proc (fun p => bool_decide (state p = UNUSED)) ;;
  match o with
  | None => ret None
  | Some np =>
      set_proc np (set_state EMBRYO) ;;;
      n <- gets nextpid ;;
      set_proc np (set_pid n) ;;;
      modify (fun s => mkP (procs s) (s32 (n + 1)) (initproc s) (kmem s) (kfs s)) ;;;
      ret (Some np)
  end.

Definition SIZEOF_TRAPFRAME : Z := 76.
Definition SIZEOF_CONTEXT : Z := 20.
Definition zero_bytes (v n : Z) : M kst unit :=
  copy_in (page_base v) (v mod PGSIZE) (replicate (Z.to_nat n) 0).
Definition CONTEXT_EIP : Z := 16.

(** The rest of it: the kernel stack with the frame that starts the process. *)
Definition allocproc_stack (np : nat) : M pst bool :=
  ks <- on_mem kalloc ;;
  set_proc np (set_kstack ks) ;;;
  if ks =? 0 then set_proc np (set_state UNUSED) ;;; ret false else
  let sp := ks + KSTACKSIZE - SIZEOF_TRAPFRAME in
  set_proc np (set_tf sp) ;;;
  on_mem (stw (sp - 4) trapret) ;;;
  let sp := sp - 4 - SIZEOF_CONTEXT in
  set_proc np (set_context sp) ;;;
  on_mem (zero_bytes sp SIZEOF_CONTEXT) ;;;
  on_mem (stw (sp + CONTEXT_EIP) forkret) ;;;
  ret true.

Definition allocproc : M pst (option nat) :=
  o <- allocproc_slot ;;
  match o with
  | None => ret None
  | Some np => ok <- allocproc_stack np ;; ret (if ok : bool then Some np else None)
  end.

Definition TF_EAX : Z := 28.
Definition TF_DS : Z := 44.
Definition TF_ES : Z := 40.
Definition TF_EIP : Z := 56.
Definition TF_CS : Z := 60.
Definition TF_EFLAGS : Z := 64.
Definition TF_ESP : Z := 68.
Definition TF_SS : Z := 72.

Definition copy_tf (dst src : Z) : M kst unit :=
  x <- get_page (page_base src) ;;
  copy_in (page_base dst) (dst mod PGSIZE) (bslice (Z.to_nat (src mod PGSIZE)) (Z.to_nat SIZEOF_TRAPFRAME) x).

(** [for(i = 0; i < NOFILE; i++) if(proc->ofile[i]) np->ofile[i] = filedup(...)] *)
Fixpoint dup_files (i : nat) (fds : list Z) (np : nat) : M pst unit :=
  match fds with
  | [] => ret tt
  | f :: fds' =>
      (if f =? 0 then ret tt
       else g <- on_fs (f_filedup f) ;; set_proc np (fun p => set_ofile (<[i := g]> (ofile p)) p)) ;;;
      dup_files (S i) fds' np
  end.

(** [safestrcpy(np->name, proc->name, 16)] on the bytes of two name arrays. *)
Fixpoint upto_nul (l : list Z) : list Z :=
  match l with [] => [] | c :: l' => if c =? 0 then [] else c :: upto_nul l' end.
Definition name_copy (src dst : list Z) : list Z :=
  let w := take 15 (upto_nul src) ++ [0] in bsplice 0 w dst.

Definition fork_copy (me np : nat) : M pst bool :=
  p <- get_proc me ;;
  d <- on_mem (copyuvm kend kdata (pgdir p) (sz p)) ;;
  set_proc np (set_pgdir d) ;;;
  if d =? 0 then
    q <- get_proc np ;;
    on_mem (kfree kend (kstack q)) ;;;
    set_proc np (set_kstack 0) ;;;
    set_proc np (set_state UNUSED) ;;;
    ret false
  else
    set_proc np (set_sz (sz p)) ;;;
    set_proc np (set_parent (Some me)) ;;;
    q <- get_proc np ;;
    on_mem (copy_tf (tf q) (tf p)) ;;;
    on_mem (stw (tf q + TF_EAX) 0) ;;;
    dup_files 0 (ofile p) np ;;;
    c <- on_fs (f_idup (cwd p)) ;;
    set_proc np (set_cwd c) ;;;
    set_proc np (fun q => set_name (name_copy (name p) (name q)) q) ;;;
    ret true.

Definition fork (me : nat) : M pst Z :=
  o <- allocproc ;;
  match o with
  | None => ret (-1)
  | Some np =>
      ok <- fork_copy me np ;;
      if negb ok then ret (-1) else
      q <- get_proc np ;;
      set_proc np (set_state RUNNABLE) ;;;
      ret (pid q)
  end.

Definition put_seg (tfp off v : Z) : M kst unit :=
  copy_in (page_base (tfp + off)) ((tfp + off) mod PGSIZE) (le_bytes 2 v).
Definition initcode_name : list Z := [105; 110; 105; 116; 99; 111; 100; 101; 0].
Definition SEG_UCODE : Z := 4.
Definition SEG_UDATA : Z := 5.
Definition DPL_USER : Z := 3.

Definition userinit (initcode : list Z) : M pst unit :=
  o <- allocproc ;;
  modify (fun s => mkP (procs s) (nextpid s) o (kmem s) (kfs s)) ;;;
  np <- of_option "allocproc" o ;;
  d <- on_mem (setupkvm kdata) ;;
  set_proc np (set_pgdir d) ;;;
  if d =? 0 then panic "userinit: out of memory?" else
  on_mem (inituvm d initcode) ;;;
  set_proc np (set_sz PGSIZE) ;;;
  p <- get_proc np ;;
  on_mem (zero_bytes (tf p) SIZEOF_TRAPFRAME ;;;
          put_seg (tf p) TF_CS (Z.lor (Z.shiftl SEG_UCODE 3) DPL_USER) ;;;
          put_seg (tf p) TF_DS (Z.lor (Z.shiftl SEG_UDATA 3) DPL_USER) ;;;
          put_seg (tf p) TF_ES (Z.lor (Z.shiftl SEG_UDATA 3) DPL_USER) ;;;
          put_seg (tf p) TF_SS (Z.lor (Z.shiftl SEG_UDATA 3) DPL_USER) ;;;
          stw (tf p + TF_EFLAGS) FL_IF ;;;
          stw (tf p + TF_ESP) PGSIZE ;;;
          stw (tf p + TF_EIP) 0) ;;;
  set_proc np (fun q => set_name (name_copy initcode_name (name q)) q) ;;;
  c <- on_fs (f_namei [47]) ;;
  set_proc np (set_cwd c) ;;;
  set_proc np (set_state RUNNABLE).

(** [switchuvm] but for the loads of the task and page-directory registers. *)
Definition switchuvm (me : nat) : M pst unit :=
  p <- get_proc me ;; if pgdir p =? 0 then panic "switchuvm: no pgdir" else ret tt.

Definition growproc (me : nat) (n : Z) : M pst Z :=
  p <- get_proc me ;;
  r <- (if n >? 0 then on_mem (allocuvm kend (pgdir p) (sz p) (u32 (sz p + n)))
        else if n <? 0 then on_mem (deallocuvm kend (pgdir p) (sz p) (u32 (sz p + n)))
        else ret (sz p)) ;;
  if negb (n =? 0) && (r =? 0) then ret (-1) else
  set_proc me (set_sz r) ;;; switchuvm me ;;; ret 0.

(** ** Sleeping and waking *)

Definition wakeup1 (ch : Z) : M pst unit := modify (fun s =>
  mkP (map (fun p => if bool_decide (state p = SLEEPING) && (chan p =? ch) then set_state RUNNABLE p else p) (procs s))
      (nextpid s) (initproc s) (kmem s) (kfs s)).
Definition wakeup (ch : Z) : M pst unit := wakeup1 ch.

(** [sleep] up to the context switch, and what it does when it is resumed. *)
Definition sleep_start (me : nat) (ch : Z) : M pst unit :=
  set_proc me (set_chan ch) ;;; set_proc me (set_state SLEEPING).
Definition sleep_end (me : nat) : M pst unit := set_proc me (set_chan 0).

Definition yield (me : nat) : M pst unit := set_proc me (set_state RUNNABLE).

Definition kill (n : Z) : M pst Z :=
  o <- find_proc (fun p => pid p =? n) ;;
  match o with
  | None => ret (-1)
  | Some i =>
      set_proc i (set_killed 1) ;;;
      p <- get_proc i ;;
      (if bool_decide (state p = SLEEPING) then set_proc i (set_state RUNNABLE) else ret tt) ;;;
      ret 0
  end.

(** ** Exit and wait *)

Fixpoint close_files (me fd : nat) (fds : list Z) : M pst unit :=
  match fds with
  | [] => ret tt
  | f :: fds' =>
      (if f =? 0 then ret tt
       else on_fs (f_fileclose f) ;;; set_proc me (fun p => set_ofile (<[fd := 0]> (ofile p)) p)) ;;;
      close_files me (S fd) fds'
  end.
Definition exit_files (me : nat) : M pst unit :=
  i <- gets initproc ;;
  if bool_decide (i = Some me) then panic "init exiting" else
  p <- get_proc me ;;
  close_files me 0 (ofile p) ;;;
  q <- get_proc me ;;
  on_fs (f_begin_op ;;; f_iput (cwd q) ;;; f_end_op) ;;;
  set_proc me (set_cwd 0).

(** The loop that passes the children to init, then the rest of the locked part. *)
Fixpoint abandon (me : nat) (i n : nat) : M pst unit :=
  match n with
  | O => ret tt
  | S n' =>
      p <- get_proc i ;;
      (if bool_decide (parent p = Some me) then
         ip <- gets initproc ;;
         set_proc i (set_parent ip) ;;;
         if bool_decide (state p = ZOMBIE)
         then a <- of_option "initproc" ip ;; wakeup1 (proc_addr a) else ret tt
       else ret tt) ;;;
      abandon me (S i) n'
  end.
Definition exit_locked (me : nat) : M pst unit :=
  p <- get_proc me ;;
  wakeup1 (match parent p with Some q => proc_addr q | None => 0 end) ;;;
  abandon me 0 (Z.to_nat NPROC) ;;;
  set_proc me (set_state ZOMBIE).
Definition exit (me : nat) : M pst unit := exit_files me ;;; exit_locked me.

(** One round of the loop of [wait]; [None]: it went to sleep. *)
Definition wait_round (me : nat) : M pst (option Z) :=
  o <- find_proc (fun p => bool_decide (parent p = Some me) && bool_decide (state p = ZOMBIE)) ;;
  match o with
  | Some i =>
      p <- get_proc i ;;
      on_mem (kfree kend (kstack p)) ;;;
      set_proc i (set_kstack 0) ;;;
      on_mem (freevm kend (pgdir p)) ;;;
      set_proc i (set_state UNUSED) ;;;
      set_proc i (set_pid 0) ;;;
      set_proc i (set_parent None) ;;;
      set_proc i (fun p => set_name (<[0%nat := 0]> (name p)) p) ;;;
      set_proc i (set_killed 0) ;;;
      ret (Some (pid p))
  | None =>
      havekids <- find_proc (fun p => bool_decide (parent p = Some me)) ;;
      p <- get_proc me ;;
      if bool_decide (havekids = None) || negb (killed p =? 0) then ret (Some (-1))
      else sleep_start me (proc_addr me) ;;; ret None
  end.
(** ** The process table as a transition system *)

(** A process in the middle of [fork] owns the slot it is filling; the flag
    tells whether the copy is made. *)
Record sys := mkSys { ps : pst; cur : nat -> option nat; doing : nat -> option (nat * bool) }.
Definition setf {A} (i : nat) (x : A) (f : nat -> A) : nat -> A := fun j => if decide (j = i) then x else f j.
Definition core_of_fork (me np : nat) : M pst bool :=
  ok <- allocproc_stack np ;; if negb ok then ret false else fork_copy me np.

(** Each step is one locked section (or lock-free stretch) of the code that the
    process [me] on CPU [c] runs, or the scheduler of an idle CPU.  [int nextpid]
    has not overflowed: fewer than 2^31 processes since boot.  Nothing but
    [wait] sleeps on a process pointer. *)
Inductive pstep : sys -> sys -> Prop :=
| S_fork_slot c me np s s' u d :
    u c = Some me -> d me = None -> nextpid s < 2 ^ 31 - 1 ->
    allocproc_slot s = Done (Some np) s' ->
    pstep (mkSys s u d) (mkSys s' u (setf me (Some (np, false)) d))
| S_fork_copy c me np r s s' u d :
    u c = Some me -> d me = Some (np, false) -> core_of_fork me np s = Done r s' ->
    pstep (mkSys s u d) (mkSys s' u (setf me (if r : bool then Some (np, true) else None) d))
| S_fork_run c me np s s' u d :
    u c = Some me -> d me = Some (np, true) -> set_proc np (set_state RUNNABLE) s = Done tt s' ->
    pstep (mkSys s u d) (mkSys s' u (setf me None d))
| S_exit_files c me s s' u d :
    u c = Some me -> d me = None -> exit_files me s = Done tt s' -> pstep (mkSys s u d) (mkSys s' u d)
| S_exit c me s s' u d :
    u c = Some me -> d me = None -> initproc s <> Some me -> exit_locked me s = Done tt s' ->
    pstep (mkSys s u d) (mkSys s' (setf c None u) d)
| S_wait c me r s s' u d :
    u c = Some me -> d me = None -> wait_round me s = Done r s' ->
    pstep (mkSys s u d) (mkSys s' (if r is Some _ then u else setf c None u) d)
| S_sleep c me ch s s' u d :
    u c = Some me -> (forall i, ch <> proc_addr i) -> sleep_start me ch s = Done tt s' ->
    pstep (mkSys s u d) (mkSys s' (setf c None u) d)
| S_resume c me s s' u d :
    u c = Some me -> sleep_end me s = Done tt s' -> pstep (mkSys s u d) (mkSys s' u d)
| S_wakeup ch s s' u d : wakeup ch s = Done tt s' -> pstep (mkSys s u d) (mkSys s' u d)
| S_kill n r s s' u d : kill n s = Done r s' -> pstep (mkSys s u d) (mkSys s' u d)
| S_grow c me n r s s' u d :
    u c = Some me -> growproc me n s = Done r s' -> pstep (mkSys s u d) (mkSys s' u d)
| S_yield c me s s' u d :
    u c = Some me -> yield me s = Done tt s' -> pstep (mkSys s u d) (mkSys s' (setf c None u) d)
| S_schedule c i p s s' u d :
    u c = None -> procs s !! i = Some p -> state p = RUNNABLE ->
    set_proc i (set_state RUNNING) s = Done tt s' ->
    pstep (mkSys s u d) (mkSys s' (setf c (Some i) u) d).

(** ** What a handler does to the table *)

(** The fields the invariant speaks about. *)
Record core := mkCore { c_state : procstate; c_pid : Z; c_parent : option nat; c_chan : Z }.
Definition core_of (p : proc) : core := mkCore (state p) (pid p) (parent p) (chan p).
Definition with_state v (c : core) := mkCore v (c_pid c) (c_parent c) (c_chan c).
Definition with_pid v (c : core) := mkCore (c_state c) v (c_parent c) (c_chan c).
Definition with_parent v (c : core) := mkCore (c_state c) (c_pid c) v (c_chan c).
Definition with_chan v (c : core) := mkCore (c_state c) (c_pid c) (c_parent c) v.
Definition cores (s : pst) : list core := map core_of (procs s).

Lemma cores_at s i p : procs s !! i = Some p -> cores s !! i = Some (core_of p).
Proof. intros E. unfold cores. by rewrite list_lookup_fmap, E. Qed.

Lemma get_proc_done i s p s' : get_proc i s = Done p s' -> procs s !! i = Some p /\ s' = s.
Proof. unfold get_proc. destruct (procs s !! i); naive_solver. Qed.
Lemma set_proc_done i f s x s' : set_proc i f s = Done x s' -> s' = upd i f s.
Proof. intros (a & t & Hg & Hm)%bind_done. apply get_proc_done in Hg as [_ ->]. by injection Hm. Qed.
Lemma on_mem_done {A} (m : M kst A) s a s' : on_mem m s = Done a s' ->
  exists k, s' = with_mem k s.
Proof. unfold on_mem, lift. destruct (m (kmem s)); naive_solver. Qed.
Lemma on_fs_done {A} (m : M F A) s a s' : on_fs m s = Done a s' ->
  exists f, s' = with_fs f s.
Proof. unfold on_fs, lift. destruct (m (kfs s)); naive_solver. Qed.

Lemma of_option_done {S A} w (o : option A) (s : S) a s' : of_option w o s = Done a s' -> o = Some a /\ s' = s.
Proof. by destruct o; [intros [= -> ->]|]. Qed.

Lemma cores_alter f g i (l : list proc) : (forall p, core_of (f p) = g (core_of p)) ->
  map core_of (alter f i l) = alter g i (map core_of l).
Proof. intros Hf. revert i. induction l as [|p l IH]; intros [|i]; cbn; [done..| |]; f_equal; [apply Hf|apply IH]. Qed.
Lemma cores_same f i (l : list proc) : (forall p, core_of (f p) = core_of p) ->
  map core_of (alter f i l) = map core_of l.
Proof. intros Hf. revert i. induction l as [|p l IH]; intros [|i]; cbn; [done..| |]; f_equal; [apply Hf|apply IH]. Qed.

Definition table (s : pst) : list core * Z * option nat := (cores s, nextpid s, initproc s).
Definition alter_core (g : core -> core) (i : nat) (t : list core * Z * option nat) :=
  (alter g i t.1.1, t.1.2, t.2).

Lemma table_upd f g i s : (forall p, core_of (f p) = g (core_of p)) ->
  table (upd i f s) = alter_core g i (table s).
Proof. intros Hf. unfold table, cores, upd, alter_core. simpl. by rewrite (cores_alter f g). Qed.
Lemma table_same f i s : (forall p, core_of (f p) = core_of p) -> table (upd i f s) = table s.
Proof. intros Hf. unfold table, cores, upd. simpl. by rewrite cores_same. Qed.
Lemma table_state v i s : table (upd i (set_state v) s) = alter_core (with_state v) i (table s).
Proof. by apply table_upd. Qed.
Lemma table_pid v i s : table (upd i (set_pid v) s) = alter_core (with_pid v) i (table s).
Proof. by apply table_upd. Qed.
Lemma table_parent v i s : table (upd i (set_parent v) s) = alter_core (with_parent v) i (table s).
Proof. by apply table_upd. Qed.
Lemma table_chan v i s : table (upd i (set_chan v) s) = alter_core (with_chan v) i (table s).
Proof. by apply table_upd. Qed.
Lemma table_mem s k : table (with_mem k s) = table s.
Proof. done. Qed.
Lemma table_fs s f : table (with_fs f s) = table s.
Proof. done. Qed.

End Proc.

(** Follow a run that returned, one call at a time. *)
Ltac run_inv :=
  repeat match goal with
  | E : bind _ _ _ = Done _ _ |- _ => apply bind_done in E as (? & ? & ? & E)
  | E : get_proc _ _ = Done _ _ |- _ => apply get_proc_done in E as [? ->]
  | E : set_proc _ _ _ = Done _ _ |- _ => apply set_proc_done in E as ->
  | E : on_mem _ _ = Done _ _ |- _ => apply on_mem_done in E as [? ->]
  | E : on_fs _ _ = Done _ _ |- _ => apply on_fs_done in E as [? ->]
  | E : of_option _ _ _ = Done _ _ |- _ => apply of_option_done in E as [? ->]
  | E : gets _ _ = Done _ _ |- _ => injection E as <- <-
  | E : modify _ _ = Done _ _ |- _ => injection E as _ <-
  | E : ret _ _ = Done _ _ |- _ => injection E as <- <-
  | E : panic _ _ = Done _ _ |- _ => discriminate E
  | E : (if ?b then _ else _) _ = Done _ _ |- _ => destruct b eqn:?
  end.
Ltac table_simpl :=
  repeat first
    [ rewrite table_mem | rewrite table_fs | rewrite table_state | rewrite table_pid
    | rewrite table_parent | rewrite table_chan | rewrite table_same by done ].

Section Effects.
Context {F : Type} `{Files F}.
Variables kend kdata ptab trapret forkret : Z.
Implicit Type s : pst (F := F).

Lemma wp_set_proc i f p s (Q : unit -> pst -> Prop) :
  procs s !! i = Some p -> Q tt (upd i f s) -> wp (set_proc i f) Q s.
Proof. intros E HQ. unfold set_proc, get_proc, wp, bind. by rewrite E. Qed.
Lemma wp_get_proc i p s (Q : proc -> pst -> Prop) : procs s !! i = Some p -> Q p s -> wp (get_proc i) Q s.
Proof. intros E HQ. unfold get_proc, wp. by rewrite E. Qed.
Lemma procs_upd i f p s : procs s !! i = Some p -> procs (upd i f s) !! i = Some (f p).
Proof. intros E. simpl. by rewrite list_lookup_alter_eq, E. Qed.

Lemma dup_files_table i fds np s x s' : dup_files i fds np s = Done x s' -> table s' = table s.
Proof.
  revert i s. induction fds as [|f fds IH]; intros i s E; simpl in E; run_inv; [done| |];
    apply IH in E; rewrite E; by table_simpl.
Qed.
Lemma close_files_table me fd fds s x s' : close_files me fd fds s = Done x s' -> table s' = table s.
Proof.
  revert fd s. induction fds as [|f fds IH]; intros i s E; simpl in E; run_inv; [done| |];
    apply IH in E; rewrite E; by table_simpl.
Qed.

Lemma allocproc_stack_table np s r s' : allocproc_stack trapret forkret np s = Done r s' ->
  table s' = if r then table s else alter_core (with_state UNUSED) np (table s).
Proof. unfold allocproc_stack. intros E. run_inv; by table_simpl. Qed.

Lemma fork_copy_table me np s r s' : fork_copy kend kdata me np s = Done r s' ->
  table s' = alter_core (if r then with_parent (Some me) else with_state UNUSED) np (table s).
Proof.
  unfold fork_copy. intros E. run_inv; table_simpl; try done.
  repeat match goal with E : dup_files _ _ _ _ = _ |- _ => apply dup_files_table in E as -> end.
  by table_simpl.
Qed.

Lemma core_of_fork_table me np s r s' : core_of_fork kend kdata trapret forkret me np s = Done r s' ->
  table s' = alter_core (if r then with_parent (Some me) else with_state UNUSED) np (table s).
Proof.
  unfold core_of_fork. intros E. run_inv.
  - destruct x; [done|]. by apply allocproc_stack_table in H0.
  - destruct x; [|done]. apply allocproc_stack_table in H0 as <-. by apply fork_copy_table in E.
Qed.

Lemma exit_files_table me s x s' : exit_files me s = Done x s' ->
  table s' = table s /\ initproc s <> Some me.
Proof.
  unfold exit_files. intros E. run_inv. split.
  - table_simpl. by eapply close_files_table.
  - by apply bool_decide_eq_false in Heqb.
Qed.

Lemma growproc_table me n s r s' : growproc kend me n s = Done r s' -> table s' = table s.
Proof. unfold growproc, switchuvm. intros E. run_inv; by table_simpl. Qed.

Lemma find_from_spec f i l j : find_from f i l = Some j ->
  (i <= j)%nat /\ exists p, l !! (j - i)%nat = Some p /\ f p = true.
Proof.
  revert i. induction l as [|p l IH]; intros i; simpl; [done|].
  destruct (f p) eqn:E.
  - intros [= <-]. split; [lia|]. rewrite Nat.sub_diag. eauto.
  - intros [Hle (q & Hq & Ef)]%IH. split; [lia|]. exists q. split; [|done].
    by replace (j - i)%nat with (S (j - S i)) by lia.
Qed.
Lemma find_from_none f i l p : find_from f i l = None -> p ∈ l -> f p = false.
Proof.
  revert i. induction l as [|q l IH]; intros i; simpl; [by intros _ ?%elem_of_nil|].
  destruct (f q) eqn:E; [done|]. intros Hn [-> |Hp]%elem_of_cons; [done|by eapply IH].
Qed.
End Effects.
