(* ===== verification/ProcInv.v ===== *)
(** * The process table stays consistent: the invariant of proc.c

    Every locked section of proc.c, taken by any process on any CPU in any order,
    keeps [pinv]: process ids are unique, a process is running exactly when one
    CPU runs it, every process but init has a live parent, and no parent sleeps in
    [wait] next to a child that has already exited. *)

From S2P Require Import Prelude Kalloc Vm Spinlock Proc.

(** ** The invariant of the process table *)

Definition live (st : procstate) : bool :=
  match st with SLEEPING | RUNNABLE | RUNNING => true | _ => false end.

Section Invariant.
Variable ptab : Z.
Implicit Types (l : list core) (u : nat -> option nat) (d : nat -> option (nat * bool)).

Record pinv l (n : Z) (ip : option nat) u d : Prop := {
  pi_len : length l = Z.to_nat NPROC;
  pi_next : 0 < n;
  pi_init : exists i c, ip = Some i /\ l !! i = Some c /\ live (c_state c) = true /\ c_parent c = None;
  (** a process runs on one CPU exactly when its state says so *)
  pi_cpu : forall k i, u k = Some i -> is_Some (l !! i);
  pi_run : forall i c, l !! i = Some c -> c_state c = RUNNING <-> exists k, u k = Some i;
  pi_one : forall k k' i, u k = Some i -> u k' = Some i -> k = k';
  (** process ids are unique *)
  pi_pid : forall i c, l !! i = Some c -> c_state c <> UNUSED -> 0 < c_pid c < n;
  pi_uniq : forall i j c c', l !! i = Some c -> l !! j = Some c' ->
    c_state c <> UNUSED -> c_state c' <> UNUSED -> c_pid c = c_pid c' -> i = j;
  (** parents are alive, and only init has none *)
  pi_parent : forall i c q, l !! i = Some c -> c_parent c = Some q ->
    c_state c <> UNUSED /\ exists r, l !! q = Some r /\ live (c_state r) = true;
  pi_orphan : forall i c, l !! i = Some c -> c_state c <> UNUSED -> c_state c <> EMBRYO ->
    ip <> Some i -> c_parent c <> None;
  pi_self : forall i c, l !! i = Some c -> c_parent c <> Some i;
  (** nobody sleeps in [wait] next to a zombie child *)
  pi_wait : forall i c j q, l !! i = Some c -> c_state c = SLEEPING -> c_chan c = proc_addr ptab i ->
    l !! j = Some q -> c_parent q = Some i -> c_state q <> ZOMBIE;
  (** a slot being filled belongs to one live process *)
  pi_fork : forall me np b, d me = Some (np, b) ->
    (exists c, l !! np = Some c /\ c_state c = EMBRYO /\ c_parent c = if b then Some me else None) /\
    (exists c, l !! me = Some c /\ live (c_state c) = true);
  pi_own : forall me me' np b b', d me = Some (np, b) -> d me' = Some (np, b') -> me = me'
}.

Lemma imap_inv (G : nat -> core -> core) l j y :
  imap G l !! j = Some y -> exists x, l !! j = Some x /\ y = G j x.
Proof. rewrite list_lookup_imap. destruct (l !! j); naive_solver. Qed.
Lemma imap_at (G : nat -> core -> core) l j x : l !! j = Some x -> imap G l !! j = Some (G j x).
Proof. intros E. by rewrite list_lookup_imap, E. Qed.

(** Steps that move processes between the live states. *)
Lemma pinv_live l n ip u d G u' :
  pinv l n ip u d ->
  (forall j c, l !! j = Some c -> c_pid (G j c) = c_pid c /\ c_parent (G j c) = c_parent c /\
     (c_state (G j c) = c_state c \/ (live (c_state c) = true /\ live (c_state (G j c)) = true))) ->
  (forall k j, u' k = Some j -> is_Some (l !! j)) ->
  (forall j c, l !! j = Some c -> c_state (G j c) = RUNNING <-> exists k, u' k = Some j) ->
  (forall k k' i, u' k = Some i -> u' k' = Some i -> k = k') ->
  (forall j c, l !! j = Some c -> c_state (G j c) = SLEEPING -> c_chan (G j c) = proc_addr ptab j ->
     (c_state c = SLEEPING /\ c_chan c = proc_addr ptab j) \/
     (forall i q, l !! i = Some q -> c_parent q = Some j -> c_state q <> ZOMBIE)) ->
  pinv (imap G l) n ip u' d.
Proof.
  intros [] HG Hcpu Hrun Hone Hwait.
  assert (forall j c, l !! j = Some c -> live (c_state (G j c)) = live (c_state c) /\
    (c_state (G j c) = UNUSED <-> c_state c = UNUSED) /\ (c_state (G j c) = EMBRYO <-> c_state c = EMBRYO) /\
    (c_state (G j c) = ZOMBIE <-> c_state c = ZOMBIE)) as HS.
  { intros j c E. destruct (HG j c E) as (_ & _ & [-> |[H1 H2]]); [done|].
    destruct (c_state c), (c_state (G j c)); try done; naive_solver. }
  split; try done.
  - by rewrite length_imap.
  - destruct pi_init0 as (i & c & ? & E & ? & ?). exists i, (G i c). split_and!; [done|by apply imap_at| |].
    + by rewrite (proj1 (HS i c E)).
    + by rewrite (proj1 (proj2 (HG i c E))).
  - intros k i [x E]%Hcpu. rewrite (imap_at G l i x E). eauto.
  - intros i y (x & E & ->)%imap_inv. by apply Hrun.
  - intros i y (x & E & ->)%imap_inv Hs. rewrite (proj1 (HG i x E)). apply (pi_pid0 i x E). by rewrite <- (proj1 (proj2 (HS i x E))).
  - intros i j y y' (x & E & ->)%imap_inv (x' & E' & ->)%imap_inv Hs Hs'.
    rewrite (proj1 (HG i x E)), (proj1 (HG j x' E')). apply pi_uniq0; try done;
      [by rewrite <- (proj1 (proj2 (HS i x E)))|by rewrite <- (proj1 (proj2 (HS j x' E')))].
  - intros i y q (x & E & ->)%imap_inv. rewrite (proj1 (proj2 (HG i x E))). intros Hp.
    destruct (pi_parent0 i x q E Hp) as (Hu & r & Er & Hr). split; [by rewrite (proj1 (proj2 (HS i x E)))|].
    exists (G q r). split; [by apply imap_at|]. by rewrite (proj1 (HS q r Er)).
  - intros i y (x & E & ->)%imap_inv. destruct (HS i x E) as (_ & -> & -> & _).
    rewrite (proj1 (proj2 (HG i x E))). by apply pi_orphan0.
  - intros i y (x & E & ->)%imap_inv. rewrite (proj1 (proj2 (HG i x E))). by apply pi_self0.
  - intros i y j z (x & E & ->)%imap_inv Hs Hc (w & Ew & ->)%imap_inv.
    rewrite (proj1 (proj2 (HG j w Ew))). intros Hp. rewrite (proj2 (proj2 (proj2 (HS j w Ew)))).
    destruct (Hwait i x E Hs Hc) as [[? ?]|Hz]; [by apply (pi_wait0 i x j w)|by apply (Hz j)].
  - intros me np b Hd. destruct (pi_fork0 me np b Hd) as ((c & E & Hs & Hp) & c' & E' & Hl). split.
    + exists (G np c). split_and!; [by apply imap_at|by apply (HS np c E)|by rewrite (proj1 (proj2 (HG np c E)))].
    + exists (G me c'). split; [by apply imap_at|]. by rewrite (proj1 (HS me c' E')).
Qed.

(** Steps that change one slot which is not live before. *)
Lemma pinv_slot l n ip u d i c g n' d' :
  pinv l n ip u d -> l !! i = Some c -> live (c_state c) = false -> n <= n' ->
  c_state (g c) <> SLEEPING -> c_state (g c) <> RUNNING -> c_state (g c) <> ZOMBIE ->
  (c_state (g c) <> UNUSED -> 0 < c_pid (g c) < n' /\
     forall j x, j <> i -> l !! j = Some x -> c_state x <> UNUSED -> c_pid x <> c_pid (g c)) ->
  (forall q, c_parent (g c) = Some q -> c_state (g c) <> UNUSED /\ exists r, l !! q = Some r /\ live (c_state r) = true) ->
  (c_state (g c) = RUNNABLE -> c_parent (g c) <> None) ->
  (forall me np b, d' me = Some (np, b) ->
     (np <> i /\ d me = Some (np, b)) \/
     (np = i /\ c_state (g c) = EMBRYO /\ c_parent (g c) = (if b then Some me else None) /\
      exists r, l !! me = Some r /\ live (c_state r) = true)) ->
  (forall me me' np b b', d' me = Some (np, b) -> d' me' = Some (np, b') -> me = me') ->
  pinv (alter g i l) n' ip u d'.
Proof.
  intros [] Hc Hl Hn Hs1 Hs2 Hs3 Hpid Hpar Horph Hd Hown.
  assert (forall j y, alter g i l !! j = Some y ->
    (j = i /\ y = g c) \/ (j <> i /\ l !! j = Some y)) as HI.
  { intros j y. destruct (decide (j = i)) as [-> |Hne]; [rewrite list_lookup_alter_eq, Hc|rewrite list_lookup_alter_ne by done]; naive_solver. }
  assert (forall j r, l !! j = Some r -> live (c_state r) = true -> alter g i l !! j = Some r) as HL.
  { intros j r E Hr. rewrite list_lookup_alter_ne; [done|]. intros ->. by simplify_eq; rewrite Hl in Hr. }
  split; try done.
  - by rewrite length_alter.
  - lia.
  - destruct pi_init0 as (j & r & ? & E & Hr & ?). exists j, r. split_and!; try done. by apply HL.
  - intros k j Hu. destruct (pi_cpu0 k j Hu) as [r E].
    assert (c_state r = RUNNING) as Hr by (apply (pi_run0 j r E); eauto). exists r. apply HL; [done|by rewrite Hr].
  - intros j y [[-> ->]|[_ E]]%HI; [|by apply pi_run0]. split; [done|]. intros Hu.
    apply (pi_run0 i c Hc) in Hu. by rewrite Hu in Hl.
  - intros j y [[-> ->]|[_ E]]%HI Hu; [by apply Hpid|]. pose proof (pi_pid0 j y E Hu). lia.
  - intros j k y z [[-> ->]|[Hj E]]%HI [[-> ->]|[Hk E']]%HI Hu Hu' Ep; [done| | |by eapply pi_uniq0].
    + by destruct (proj2 (Hpid Hu) k z Hk E' Hu').
    + by destruct (proj2 (Hpid Hu') j y Hj E Hu).
  - intros j y q [[-> ->]|[Hj E]]%HI Hp; [destruct (Hpar q Hp) as (? & r & ? & ?)|
      destruct (pi_parent0 j y q E Hp) as (? & r & ? & ?)]; (split; [done|]); exists r; (split; [by apply HL|done]).
  - intros j y [[-> ->]|[Hj E]]%HI; [|by apply pi_orphan0]. intros H1 H2 _. apply Horph. by destruct (c_state (g c)).
  - intros j y [[-> ->]|[Hj E]]%HI Hq; [|by apply (pi_self0 j y)].
    destruct (Hpar i Hq) as (_ & r & Er & Hr). simplify_eq. by rewrite Hl in Hr.
  - intros j y k z [[-> ->]|[Hj E]]%HI Hs Hch [[-> ->]|[Hk E']]%HI; [done..|by eapply (pi_wait0 j y k z)].
  - intros me np b Hm. destruct (Hd me np b Hm) as [[Hne Hm']|(-> & ? & ? & r & ? & ?)].
    + destruct (pi_fork0 me np b Hm') as ((x & E & ? & ?) & r & ? & ?). split.
      * exists x. by rewrite list_lookup_alter_ne.
      * exists r. split; [by apply HL|done].
    + split; [exists (g c); by rewrite list_lookup_alter_eq, Hc|]. exists r. split; [by apply HL|done].
Qed.

(** The loop of [exit] over the slots below [i], from the table [l0]. *)
Record abandoned (ip : option nat) (me i : nat) l0 l : Prop := {
  ab_at : forall j c0, l0 !! j = Some c0 -> exists c, l !! j = Some c /\
    c_pid c = c_pid c0 /\ c_chan c = c_chan c0 /\
    (c_state c = c_state c0 \/ (c_state c0 = SLEEPING /\ c_state c = RUNNABLE)) /\
    c_parent c = (if decide (c_parent c0 = Some me /\ (j < i)%nat) then ip else c_parent c0);
  ab_len : length l = length l0;
  ab_woken : forall k z a, (k < i)%nat -> l0 !! k = Some z -> c_parent z = Some me -> c_state z = ZOMBIE ->
    ip = Some a -> forall j c, l !! j = Some c -> c_state c = SLEEPING -> c_chan c <> proc_addr ptab a
}.

Lemma abandoned_inv ip me i l0 l j c : abandoned ip me i l0 l -> l !! j = Some c ->
  exists c0, l0 !! j = Some c0 /\ c_pid c = c_pid c0 /\ c_chan c = c_chan c0 /\
    (c_state c = c_state c0 \/ (c_state c0 = SLEEPING /\ c_state c = RUNNABLE)) /\
    c_parent c = (if decide (c_parent c0 = Some me /\ (j < i)%nat) then ip else c_parent c0).
Proof.
  intros [Hat Hlen _] E. pose proof (lookup_lt_Some _ _ _ E) as Hj. rewrite Hlen in Hj.
  destruct (lookup_lt_is_Some_2 l0 j Hj) as [c0 E0]. destruct (Hat j c0 E0) as (c' & E' & Hc).
  rewrite E in E'. injection E' as <-. eauto.
Qed.

Lemma abandoned_start ip me l : abandoned ip me 0 l l.
Proof.
  split; [|done|lia]. intros j c E. exists c. split_and!; try done; [by left|]. rewrite decide_False by lia. done.
Qed.

Lemma abandoned_next ip me i l0 l l' :
  abandoned ip me i l0 l -> length l' = length l ->
  (forall j c, l !! j = Some c -> exists c', l' !! j = Some c' /\ c_pid c' = c_pid c /\ c_chan c' = c_chan c /\
     (c_state c' = c_state c \/ (c_state c = SLEEPING /\ c_state c' = RUNNABLE)) /\
     c_parent c' = (if decide (j = i /\ c_parent c = Some me) then ip else c_parent c)) ->
  (forall c a, l !! i = Some c -> c_parent c = Some me -> c_state c = ZOMBIE -> ip = Some a ->
     forall j y, l' !! j = Some y -> c_state y = SLEEPING -> c_chan y <> proc_addr ptab a) ->
  abandoned ip me (S i) l0 l'.
Proof.
  intros Hab Hlen Hat Hz. split.
  - intros j c0 E. destruct (ab_at _ _ _ _ _ Hab j c0 E) as (c & Ec & Hp & Hch & Hs & Hpar).
    destruct (Hat j c Ec) as (c' & Ec' & Hp' & Hch' & Hs' & Hpar'). exists c'.
    rewrite Hp', Hch', Hpar'. split_and!; try done.
    + destruct Hs as [<- |[? Hr]], Hs' as [-> |[? ?]]; [by left|by right|by right|congruence].
    + rewrite Hpar. destruct (decide (j = i)) as [-> |Hji].
      * rewrite (decide_False (P := c_parent c0 = Some me /\ (i < i)%nat)) by lia.
        repeat case_decide; naive_solver lia.
      * rewrite (decide_False (P := j = i /\ _)) by naive_solver. repeat case_decide; naive_solver lia.
  - by rewrite Hlen, (ab_len _ _ _ _ _ Hab).
  - intros k z a Hk Ez Hpz Hzz Ha j y Ey Hy. destruct (decide (k = i)) as [-> |Hne].
    + destruct (ab_at _ _ _ _ _ Hab i z Ez) as (c & Ec & _ & _ & Hs & Hpar). apply (Hz c a Ec) with (j := j); try done.
      * rewrite Hpar. by rewrite decide_False by lia.
      * destruct Hs as [-> |[? ?]]; congruence.
    + assert (exists x, l !! j = Some x) as [x Ex].
      { apply lookup_lt_is_Some_2. rewrite <- Hlen. by apply lookup_lt_Some in Ey. }
      destruct (Hat j x Ex) as (y' & Ey' & _ & Hch & Hs & _). assert (y' = y) as -> by congruence. rewrite Hch.
      apply (ab_woken _ _ _ _ _ Hab k z a) with (j := j); try done; [lia|]. destruct Hs as [<- |[? ?]]; congruence.
Qed.

(** What [exit] leaves in slot [j] where [c0] was. *)
Definition exited_at (ip : option nat) (me j : nat) (c0 y : core) : Prop :=
  c_pid y = c_pid c0 /\ c_chan y = c_chan c0 /\
  c_parent y = (if decide (c_parent c0 = Some me) then ip else c_parent c0) /\
  (if decide (j = me) then c_state y = ZOMBIE
   else c_state y = c_state c0 \/ (c_state c0 = SLEEPING /\ c_state y = RUNNABLE)).

Lemma exited_all ip me l l1 j : abandoned ip me (length l) l l1 ->
  match l !! j, alter (with_state ZOMBIE) me l1 !! j with
  | Some c0, Some y => exited_at ip me j c0 y
  | None, None => True
  | _, _ => False
  end.
Proof.
  intros Hab. destruct (l !! j) as [c0|] eqn:E.
  - destruct (ab_at _ _ _ _ _ Hab j c0 E) as (c & E1 & Hp & Hch & Hs & Hpar).
    pose proof (lookup_lt_Some _ _ _ E) as Hj.
    assert (c_parent c = if decide (c_parent c0 = Some me) then ip else c_parent c0) as Hpar'.
    { rewrite Hpar. repeat case_decide; naive_solver. }
    unfold exited_at. destruct (decide (j = me)) as [-> |Hne].
    + by rewrite list_lookup_alter_eq, E1.
    + by rewrite list_lookup_alter_ne, E1.
  - assert (alter (with_state ZOMBIE) me l1 !! j = None) as ->; [|done].
    apply lookup_ge_None. rewrite length_alter, (ab_len _ _ _ _ _ Hab). by apply lookup_ge_None.
Qed.

Lemma exited_live ip me j c0 y : exited_at ip me j c0 y -> j <> me -> live (c_state y) = live (c_state c0).
Proof. intros (_ & _ & _ & Hs) Hne. rewrite decide_False in Hs by done. by destruct Hs as [-> |[-> ->]]. Qed.

Lemma exited_used ip me j c0 y : exited_at ip me j c0 y -> (j = me -> c_state c0 = RUNNING) ->
  (c_state y = UNUSED <-> c_state c0 = UNUSED) /\ (c_state y = EMBRYO <-> c_state c0 = EMBRYO).
Proof.
  intros (_ & _ & _ & Hs) Hme. case_decide; [rewrite Hs, Hme by done; done|]. by destruct Hs as [-> |[-> ->]].
Qed.

Section Exit.
Context (l : list core) (n : Z) (ip : option nat) u d (k me : nat) (c : core) (l1 : list core) (Hinv : pinv l n ip u d) (Hk : u k = Some me) (Hd : d me = None).
Context (Hip : ip <> Some me) (Hc : l !! me = Some c).
(** the parent has been woken up *)
Hypothesis Hwk : forall p r,
  c_parent c = Some p -> l !! p = Some r -> c_state r = SLEEPING -> c_chan r <> proc_addr ptab p.
Hypothesis Hab : abandoned ip me (length l) l l1.
Let l' := alter (with_state ZOMBIE) me l1.

Lemma exit_inv j y : l' !! j = Some y -> exists c0, l !! j = Some c0 /\ exited_at ip me j c0 y.
Proof using Hab.
  intros E. pose proof (exited_all ip me l l1 j Hab) as HE. fold l' in HE. rewrite E in HE.
  destruct (l !! j); [eauto|done].
Qed.
Lemma exit_at j c0 : l !! j = Some c0 -> exists y, l' !! j = Some y /\ exited_at ip me j c0 y.
Proof using Hab.
  intros E. pose proof (exited_all ip me l l1 j Hab) as HE. fold l' in HE. rewrite E in HE.
  destruct (l' !! j); [eauto|done].
Qed.
Lemma exit_me j c0 : l !! j = Some c0 -> j = me -> c_state c0 = RUNNING.
Proof using Hinv Hk. intros E ->. apply (pi_run _ _ _ _ _ Hinv me c0 E). eauto. Qed.
Lemma exit_live j r : l !! j = Some r -> live (c_state r) = true -> j <> me ->
  exists r', l' !! j = Some r' /\ live (c_state r') = true.
Proof using Hab.
  intros (y & E & Hy)%exit_at Hl Hne. exists y. by rewrite (exited_live _ _ _ _ _ Hy Hne).
Qed.
Lemma exit_init : exists a ca, ip = Some a /\ l !! a = Some ca /\ live (c_state ca) = true /\ c_parent ca = None /\ a <> me.
Proof using Hinv Hip.
  destruct (pi_init _ _ _ _ _ Hinv) as (a & ca & E & Ea & Hla & Hpa). exists a, ca. split_and!; try done. intros ->. by apply Hip.
Qed.

Lemma exit_run i y : l' !! i = Some y -> c_state y = RUNNING <-> exists k', setf k None u k' = Some i.
Proof using Hab Hinv Hk.
  intros (c0 & E & _ & _ & _ & Hs)%exit_inv. unfold setf. destruct (decide (i = me)) as [-> |Hne].
  - rewrite Hs. split; [done|]. intros (k' & Hk'). case_decide as Hkk; [done|].
    destruct Hkk. by apply (pi_one _ _ _ _ _ Hinv k' k me).
  - assert (c_state y = RUNNING <-> c_state c0 = RUNNING) as -> by (destruct Hs as [-> |[-> ->]]; done).
    rewrite (pi_run _ _ _ _ _ Hinv i c0 E). split; intros (k' & Hk'); exists k'.
    + rewrite decide_False; congruence.
    + by case_decide.
Qed.

Lemma exit_parent i y q : l' !! i = Some y -> c_parent y = Some q ->
  c_state y <> UNUSED /\ exists r, l' !! q = Some r /\ live (c_state r) = true.
Proof using Hab Hinv Hk Hip.
  intros (c0 & E & Hy)%exit_inv. pose proof (exited_used _ _ _ _ _ Hy (exit_me i c0 E)) as [-> _].
  destruct Hy as (_ & _ & -> & _). destruct exit_init as (a & ca & Ea & Ha & Hla & _ & Hne). case_decide as Hp.
  - rewrite Ea. intros [= <-]. split; [|by apply (exit_live a ca)].
    by apply (pi_parent _ _ _ _ _ Hinv i c0 me E Hp).
  - intros Hq. destruct (pi_parent _ _ _ _ _ Hinv i c0 q E Hq) as (? & r & Er & Hr). split; [done|].
    apply (exit_live q r); congruence.
Qed.

Lemma exit_wait i y j z : l' !! i = Some y -> c_state y = SLEEPING -> c_chan y = proc_addr ptab i ->
  l' !! j = Some z -> c_parent z = Some i -> c_state z <> ZOMBIE.
Proof using All.
  intros Ey. destruct (exit_inv i y Ey) as (c0 & E & _ & Hch & _ & Hs). rewrite Hch.
  intros Hsl Hchan (w & Ew & _ & _ & -> & Hsz)%exit_inv Hp Hz.
  assert (i <> me) as Hime by (intros ->; rewrite decide_True in Hs by done; congruence).
  rewrite decide_False in Hs by done.
  assert (c_state c0 = SLEEPING) as H0 by (destruct Hs as [<- |[_ Hx]]; congruence).
  destruct exit_init as (a & ca & Ea & Ha & Hla & Hpa & Hne).
  destruct (decide (j = me)) as [-> |Hj].
  - assert (w = c) as -> by congruence. destruct (decide (c_parent c = Some me)) as [Hm|].
    + by apply (pi_self _ _ _ _ _ Hinv me c Hc).
    + by apply (Hwk i c0).
  - assert (c_state w = ZOMBIE) as Hw by (destruct Hsz as [<- |[_ Hx]]; congruence).
    destruct (decide (c_parent w = Some me)) as [Hm|]; [|by apply (pi_wait _ _ _ _ _ Hinv i c0 j w)].
    assert (i = a) as -> by congruence.
    unfold l' in Ey. rewrite list_lookup_alter_ne in Ey by done.
    apply (ab_woken _ _ _ _ _ Hab j w a (lookup_lt_Some _ _ _ Ew) Ew Hm Hw Ea a y Ey Hsl). congruence.
Qed.

Lemma pinv_exit : pinv l' n ip (setf k None u) d.
Proof using All.
  pose proof exit_init as (a & ca & Hia & Ea & Hla & Hpa & Hne).
  split; try apply Hinv; [| | |apply exit_run| | | |apply exit_parent| | |apply exit_wait|].
  - unfold l'. rewrite length_alter, (ab_len _ _ _ _ _ Hab). apply Hinv.
  - destruct (exit_at a ca Ea) as (y & Ey & Hy). exists a, y. rewrite (exited_live _ _ _ _ _ Hy Hne).
    destruct Hy as (_ & _ & -> & _). by rewrite Hpa.
  - intros k' i. unfold setf. case_decide; [done|]. intros [c0 E]%(pi_cpu _ _ _ _ _ Hinv).
    destruct (exit_at i c0 E) as (y & -> & _). eauto.
  - intros k1 k2 i. unfold setf. repeat case_decide; try done. apply Hinv.
  - intros i y (c0 & E & Hy)%exit_inv Hu. pose proof (exited_used _ _ _ _ _ Hy (exit_me i c0 E)) as [Hu' _].
    destruct Hy as (-> & _). apply (pi_pid _ _ _ _ _ Hinv i c0 E). by rewrite <- Hu'.
  - intros i j y z (c0 & E & Hy)%exit_inv (c1 & E1 & Hz)%exit_inv Hu Hu1.
    pose proof (exited_used _ _ _ _ _ Hy (exit_me i c0 E)) as [Hu' _].
    pose proof (exited_used _ _ _ _ _ Hz (exit_me j c1 E1)) as [Hu1' _].
    destruct Hy as (-> & _), Hz as (-> & _). apply (pi_uniq _ _ _ _ _ Hinv); try done; by rewrite <- ?Hu', <- ?Hu1'.
  - intros i y (c0 & E & Hy)%exit_inv Hu He Hi. pose proof (exited_used _ _ _ _ _ Hy (exit_me i c0 E)) as [Hu' He'].
    destruct Hy as (_ & _ & -> & _). case_decide; [by rewrite Hia|].
    apply (pi_orphan _ _ _ _ _ Hinv i c0 E); by rewrite <- ?Hu', <- ?He'.
  - intros i y (c0 & E & _ & _ & -> & _)%exit_inv. case_decide; [|by apply (pi_self _ _ _ _ _ Hinv)]. congruence.
  - intros m np b Hm. destruct (pi_fork _ _ _ _ _ Hinv m np b Hm) as ((x & Ex & Hx & Hpx) & r & Er & Hr).
    assert (m <> me) as Hmne by congruence. split; [|by apply (exit_live m r)].
    destruct (exit_at np x Ex) as (y & Ey & Hy). exists y.
    pose proof (exited_used _ _ _ _ _ Hy (exit_me np x Ex)) as [_ ->]. split_and!; [done|done|].
    destruct Hy as (_ & _ & -> & _). rewrite Hpx. destruct b; case_decide; naive_solver.
Qed.
End Exit.
End Invariant.

(** ** Every step keeps the invariant *)

Definition woken (ch : Z) (c : core) : core :=
  if bool_decide (c_state c = SLEEPING) && (c_chan c =? ch) then with_state RUNNABLE c else c.

Section Steps.
Context {F : Type} `{Files F}.
Variables kend kdata ptab trapret forkret : Z.
Implicit Type s : pst (F := F).

Lemma wakeup1_table ch s x s' : wakeup1 ch s = Done x s' ->
  table s' = (map (woken ch) (cores s), nextpid s, initproc s).
Proof.
  intros E. injection E as _ <-. unfold table, cores. simpl. rewrite !map_map. do 2 f_equal.
  apply map_ext. intros p. unfold woken. simpl. by destruct (_ && _).
Qed.

Lemma woken_spec ch c : c_pid (woken ch c) = c_pid c /\ c_parent (woken ch c) = c_parent c /\
  c_chan (woken ch c) = c_chan c /\
  (c_state (woken ch c) = c_state c \/ (c_state c = SLEEPING /\ c_state (woken ch c) = RUNNABLE)) /\
  (c_state (woken ch c) = SLEEPING -> c_chan c <> ch).
Proof.
  unfold woken. destruct (bool_decide_reflect (c_state c = SLEEPING)), (Z.eqb_spec (c_chan c) ch); simpl; naive_solver.
Qed.

(** The bodies of the loop of [exit]. *)
Lemma abandoned_body ip me i l0 l c (G : core -> core) :
  abandoned ptab ip me i l0 l -> l !! i = Some c ->
  (forall y, c_pid (G y) = c_pid y /\ c_parent (G y) = c_parent y /\ c_chan (G y) = c_chan y /\
    (c_state (G y) = c_state y \/ (c_state y = SLEEPING /\ c_state (G y) = RUNNABLE))) ->
  (c_parent c = Some me -> c_state c = ZOMBIE -> forall a y, ip = Some a ->
    c_state (G y) = SLEEPING -> c_chan y <> proc_addr ptab a) ->
  abandoned ptab ip me (S i) l0
    (map G (if bool_decide (c_parent c = Some me) then alter (with_parent ip) i l else l)).
Proof.
  intros Hab Hc HG Hz.
  assert (forall j y, (if bool_decide (c_parent c = Some me) then alter (with_parent ip) i l else l) !! j = Some y <->
    exists y0, l !! j = Some y0 /\
      y = if decide (j = i /\ c_parent c = Some me) then with_parent ip y0 else y0) as HL.
  { intros j y. destruct (decide (j = i /\ c_parent c = Some me)) as [[-> Hm]|Hn].
    - rewrite bool_decide_true, list_lookup_alter_eq, Hc by done. naive_solver.
    - case_bool_decide; [rewrite list_lookup_alter_ne by naive_solver|]; naive_solver. }
  eapply abandoned_next; [exact Hab| | |].
  - rewrite length_map. case_bool_decide; [apply length_alter|done].
  - intros j y Ey. destruct (HG (if decide (j = i /\ c_parent c = Some me) then with_parent ip y else y)) as (H1 & H2 & H3 & H4).
    eexists. split; [etransitivity; [apply list_lookup_fmap|apply fmap_Some_2, HL; eauto]|].
    rewrite H1, H2, H3. revert H4. destruct (decide (j = i)) as [-> |Hne].
    + assert (y = c) as -> by congruence. repeat case_decide; naive_solver.
    + rewrite !(decide_False (P := j = i /\ _)) by naive_solver. naive_solver.
  - intros c' a Ec' Hp Hs Ha j y. assert (c' = c) as -> by congruence.
    rewrite list_lookup_fmap. intros (z & Ez & ->)%fmap_Some Hy. destruct (HG z) as (_ & _ & -> & _). by apply Hz.
Qed.

Lemma abandon_table ip me i n l0 s x s' :
  initproc s = ip -> abandoned ptab ip me i l0 (cores s) ->
  abandon ptab me i n s = Done x s' ->
  abandoned ptab ip me (i + n) l0 (cores s') /\ nextpid s' = nextpid s /\ initproc s' = initproc s.
Proof.
  revert i s. induction n as [|n IH]; intros i s Hip Hab E; simpl in E; run_inv; [by rewrite Nat.add_0_r|..].
  all: rewrite <- Nat.add_succ_comm.
  all: rewrite <- Hip in *; apply cores_at in H0.
  - apply wakeup1_table in H1. injection H1 as H1 Hn1 Hi1. 
    destruct (IH (S i) x3) as (HE & Hn & Hi); [exact Hi1| |done|by rewrite Hn, Hi].
    rewrite H1. pose proof (table_parent (initproc s) i s) as [= ->].
    pose proof (abandoned_body (initproc s) me i l0 (cores s) _ (woken (proc_addr ptab x1)) Hab H0) as HB.
    simpl c_parent in HB. rewrite Heqb in HB. apply HB.
    + intros y. destruct (woken_spec (proc_addr ptab x1) y) as (? & ? & ? & ? & _). done.
    + intros _ _ a y Ha Hy. destruct (woken_spec (proc_addr ptab x1) y) as (_ & _ & _ & _ & Hne). apply Hne in Hy. congruence.
  - pose proof (abandoned_body (initproc s) me i l0 (cores s) _ id Hab H0) as HB.
    simpl c_parent in HB. simpl c_state in HB. rewrite Heqb, map_id in HB.
    apply (IH (S i) (upd i (set_parent (initproc s)) s)); [done| |done].
    pose proof (table_parent (initproc s) i s) as [= ->]. apply HB; [intros y; split_and!; by try left|].
    intros _ Hz. by rewrite bool_decide_true in Heqb0.
  - pose proof (abandoned_body (initproc s) me i l0 (cores s) _ id Hab H0) as HB.
    simpl c_parent in HB. rewrite Heqb, map_id in HB. apply (IH (S i) s); [done| |done].
    apply HB; [intros y; split_and!; by try left|]. intros Hm. by rewrite bool_decide_true in Heqb.
Qed.

Definition sinv (x : sys (F := F)) : Prop :=
  pinv ptab (cores (ps x)) (nextpid (ps x)) (initproc (ps x)) (cur x) (doing x).

Lemma alter_imap (g : core -> core) i l : alter g i l = imap (fun j c => if decide (j = i) then g c else c) l.
Proof.
  apply list_eq. intros j. rewrite list_lookup_imap. destruct (decide (j = i)) as [-> |Hne].
  - by rewrite list_lookup_alter_eq.
  - rewrite list_lookup_alter_ne by done. by destruct (l !! j).
Qed.

(** A step that only moves one process between live states. *)
Lemma pinv_one l n ip u d i c g u' :
  pinv ptab l n ip u d -> l !! i = Some c -> live (c_state c) = true ->
  c_pid (g c) = c_pid c -> c_parent (g c) = c_parent c -> live (c_state (g c)) = true ->
  (forall k j, u' k = Some j -> j <> i -> u k = Some j) ->
  (forall k j, u k = Some j -> j <> i -> u' k = Some j) ->
  (c_state (g c) = RUNNING <-> exists k, u' k = Some i) ->
  (forall k k', u' k = Some i -> u' k' = Some i -> k = k') ->
  (c_state (g c) = SLEEPING -> c_chan (g c) = proc_addr ptab i ->
     (c_state c = SLEEPING /\ c_chan c = proc_addr ptab i) \/
     (forall j q, l !! j = Some q -> c_parent q = Some i -> c_state q <> ZOMBIE)) ->
  pinv ptab (alter g i l) n ip u' d.
Proof.
  intros Hinv Hc Hl Hp Hpar Hl' Hu Hu' Hrun Hone Hw. rewrite alter_imap. eapply pinv_live; [exact Hinv|..].
  - intros j x E. case_decide; [|by split_and!; [..|left]]. simplify_eq. split_and!; [done..|by right].
  - intros k j E. destruct (decide (j = i)) as [-> |Hne]; [by rewrite Hc|].
    apply (pi_cpu _ _ _ _ _ _ Hinv k). by apply Hu.
  - intros j x E. case_decide; [by simplify_eq|]. rewrite (pi_run _ _ _ _ _ _ Hinv j x E).
    split; intros [k Hk]; exists k; eauto.
  - intros k k' j E E'. destruct (decide (j = i)) as [-> |Hne]; [by apply Hone|].
    apply (pi_one _ _ _ _ _ _ Hinv k k' j); by apply Hu.
  - intros j x E. case_decide; [simplify_eq; apply Hw|by left].
Qed.

Lemma running l n ip u d k i : pinv ptab l n ip u d -> u k = Some i ->
  exists c, l !! i = Some c /\ c_state c = RUNNING.
Proof.
  intros Hinv Hk. destruct (pi_cpu _ _ _ _ _ _ Hinv k i Hk) as [c E]. exists c. split; [done|].
  apply (pi_run _ _ _ _ _ _ Hinv i c E). eauto.
Qed.

(** The running process gives up its CPU. *)
Lemma pinv_leave l n ip u d k i g :
  pinv ptab l n ip u d -> u k = Some i ->
  (forall c, c_pid (g c) = c_pid c /\ c_parent (g c) = c_parent c /\
     (c_state (g c) = SLEEPING \/ c_state (g c) = RUNNABLE)) ->
  (forall c, c_state (g c) = SLEEPING -> c_chan (g c) = proc_addr ptab i ->
     forall j q, l !! j = Some q -> c_parent q = Some i -> c_state q <> ZOMBIE) ->
  pinv ptab (alter g i l) n ip (setf k None u) d.
Proof.
  intros Hinv Hk Hg Hw. destruct (running _ _ _ _ _ _ _ Hinv Hk) as (c & Hc & Hs). destruct (Hg c) as (Hp & Hpar & Hg').
  eapply pinv_one; try done; unfold setf.
  - by rewrite Hs.
  - by destruct Hg' as [-> | ->].
  - intros k' j. case_decide; naive_solver.
  - intros k' j Hk' Hne. rewrite decide_False; [done|]. intros ->. congruence.
  - split; [by destruct Hg' as [-> | ->]|]. intros (k' & Hk'). case_decide as Hkk; [done|].
    destruct Hkk. by apply (pi_one _ _ _ _ _ _ Hinv k' k i).
  - intros k1 k2 H1. case_decide as Hkk; [done|]. destruct Hkk. by apply (pi_one _ _ _ _ _ _ Hinv k1 k i).
  - intros Hsl Hch. right. by apply (Hw c).
Qed.

(** A change of fields the invariant does not read, and of the channel of a running process. *)
Lemma pinv_chan l n ip u d k i v :
  pinv ptab l n ip u d -> u k = Some i -> pinv ptab (alter (with_chan v) i l) n ip u d.
Proof.
  intros Hinv Hk. destruct (running _ _ _ _ _ _ _ Hinv Hk) as (c & Hc & Hs).
  eapply pinv_one; try done; simpl; try (by rewrite Hs).
  - rewrite Hs. split; [eauto|done].
  - intros k1 k2. apply (pi_one _ _ _ _ _ _ Hinv).
Qed.

Lemma pinv_woken l n ip u d ch : pinv ptab l n ip u d -> pinv ptab (map (woken ch) l) n ip u d.
Proof.
  intros Hinv. replace (map (woken ch) l) with (imap (fun _ => woken ch) l).
  2:{ apply list_eq. intros j. by rewrite list_lookup_imap, list_lookup_fmap. }
  eapply pinv_live; [exact Hinv|..].
  - intros j c E. destruct (woken_spec ch c) as (-> & -> & _ & Hs & _). split_and!; try done.
    destruct Hs as [-> |[-> ->]]; [by left|by right].
  - apply (pi_cpu _ _ _ _ _ _ Hinv).
  - intros j c E. rewrite <- (pi_run _ _ _ _ _ _ Hinv j c E). destruct (woken_spec ch c) as (_ & _ & _ & Hs & _).
    destruct Hs as [-> |[-> ->]]; done.
  - apply (pi_one _ _ _ _ _ _ Hinv).
  - intros j c E Hsl. destruct (woken_spec ch c) as (_ & _ & -> & Hs & _). left.
    destruct Hs as [<- |[_ ?]]; [done|congruence].
Qed.

Lemma alter_twice (f g : core -> core) i (l : list core) : alter f i (alter g i l) = alter (fun c => f (g c)) i l.
Proof. revert i. induction l as [|x l IH]; intros [|i]; cbn; [done..|]. f_equal. apply IH. Qed.
Lemma find_proc_some f s i s' : find_proc f s = Done (Some i) s' ->
  s' = s /\ exists p, procs s !! i = Some p /\ f p = true.
Proof.
  intros [= E <-]. apply find_from_spec in E as [_ (p & E & Hf)]. rewrite Nat.sub_0_r in E. eauto.
Qed.
Lemma find_proc_none f s s' : find_proc f s = Done None s' ->
  s' = s /\ forall j p, procs s !! j = Some p -> f p = false.
Proof.
  intros [= E <-]. split; [done|]. intros j p Hp. eapply find_from_none; [exact E|]. by eapply list_elem_of_lookup_2.
Qed.

Lemma allocproc_slot_table s np s' : allocproc_slot s = Done (Some np) s' ->
  exists c, cores s !! np = Some c /\ c_state c = UNUSED /\
    table s' = (alter (fun c => with_pid (nextpid s) (with_state EMBRYO c)) np (cores s), s32 (nextpid s + 1), initproc s).
Proof.
  unfold allocproc_slot. intros (o & t & Hf & E)%bind_done. destruct o as [i|]; [|by injection E].
  apply find_proc_some in Hf as (-> & p & Hp & Hs). run_inv.
  exists (core_of p). apply bool_decide_eq_true in Hs. split_and!; [by apply cores_at|done|].
  unfold table at 1, cores at 1. simpl.
  rewrite (cores_alter _ (with_pid (nextpid s))) by done.
  rewrite (cores_alter _ (with_state EMBRYO)) by done. by rewrite alter_twice.
Qed.

Lemma kill_table n s r s' : kill n s = Done r s' ->
  table s' = table s \/ exists i c, cores s !! i = Some c /\ c_state c = SLEEPING /\
    table s' = alter_core (with_state RUNNABLE) i (table s).
Proof.
  unfold kill. intros (o & t & Hf & E)%bind_done. destruct o as [i|].
  - apply find_proc_some in Hf as (-> & p & Hp & Hs). run_inv; [|left; by table_simpl].
    right. exists i, (core_of p). simpl in H1. rewrite list_lookup_alter_eq, Hp in H1. simplify_eq/=.
    split_and!; [by apply cores_at|by apply bool_decide_eq_true in Heqb|by table_simpl].
  - apply find_proc_none in Hf as [-> _]. run_inv. by left.
Qed.

Lemma wait_round_table me s r s' : wait_round kend ptab me s = Done r s' ->
  match r with
  | Some _ => table s' = table s \/ exists i c, cores s !! i = Some c /\ c_state c = ZOMBIE /\
      table s' = alter_core (fun c => with_parent None (with_pid 0 (with_state UNUSED c))) i (table s)
  | None => (forall j q, cores s !! j = Some q -> c_parent q = Some me -> c_state q <> ZOMBIE) /\
      table s' = alter_core (fun c => with_state SLEEPING (with_chan (proc_addr ptab me) c)) me (table s)
  end.
Proof.
  unfold wait_round. intros (o & t & Hf & E)%bind_done. destruct o as [i|].
  - apply find_proc_some in Hf as (-> & p & Hp & [_ Hs]%andb_true_iff). run_inv. right. exists i, (core_of p).
    apply bool_decide_eq_true in Hs. split_and!; [by apply cores_at|done|]. table_simpl.
    unfold alter_core. simpl. by rewrite !alter_twice.
  - apply find_proc_none in Hf as [-> Hn]. apply bind_done in E as (hk & t & Hk & E). injection Hk as _ <-.
    unfold sleep_start in E. run_inv; [by left|]. split.
    + intros j q Eq Hpar Hz. unfold cores in Eq. rewrite list_lookup_fmap in Eq.
      apply fmap_Some in Eq as (p & Hp & ->). specialize (Hn j p Hp).
      by rewrite !bool_decide_true in Hn.
    + table_simpl. unfold alter_core. simpl. by rewrite !alter_twice.
Qed.

Lemma exit_locked_table me s x s' : exit_locked ptab me s = Done x s' ->
  exists c ch l1, cores s !! me = Some c /\ (forall q, c_parent c = Some q -> ch = proc_addr ptab q) /\
    abandoned ptab (initproc s) me (Z.to_nat NPROC) (map (woken ch) (cores s)) l1 /\
    table s' = (alter (with_state ZOMBIE) me l1, nextpid s, initproc s).
Proof.
  unfold exit_locked. intros E. run_inv.
  match goal with Hw : wakeup1 _ _ = Done _ ?t, Ha : abandon _ _ _ _ _ = Done _ _ |- _ =>
    apply wakeup1_table in Hw; injection Hw as Hc Hn Hi;
    apply (abandon_table (initproc s) me 0 _ (cores t)) in Ha as (Hab & Hn' & Hi'); [|done|apply abandoned_start] end.
  eexists _, _, _. split_and!; [by apply cores_at| |rewrite <- Hc; exact Hab|].
  { simpl. by intros q ->. }
  table_simpl. unfold table, alter_core. simpl. by rewrite Hn', Hn, Hi', Hi.
Qed.

Lemma sinv_table s u d l n ip : table s = (l, n, ip) -> pinv ptab l n ip u d -> sinv (mkSys s u d).
Proof. intros [= <- <- <-]. done. Qed.

Lemma fork_slot_inv l n ip u d k me np c :
  pinv ptab l n ip u d -> u k = Some me -> d me = None -> n < 2 ^ 31 - 1 -> l !! np = Some c -> c_state c = UNUSED ->
  pinv ptab (alter (fun c => with_pid n (with_state EMBRYO c)) np l) (s32 (n + 1)) ip u (setf me (Some (np, false)) d).
Proof.
  intros Hinv Hk Hd Hn Hc Hs. pose proof (pi_next _ _ _ _ _ _ Hinv). rewrite s32_small by lia.
  assert (c_parent c = None) as Hpar.
  { destruct (c_parent c) eqn:E; [|done]. by destruct (pi_parent _ _ _ _ _ _ Hinv np c _ Hc E). }
  destruct (running _ _ _ _ _ _ _ Hinv Hk) as (r & Hr & Hrs).
  assert (forall m np' b, setf me (Some (np, false)) d m = Some (np', b) ->
    (m = me /\ np' = np /\ b = false) \/ (m <> me /\ np' <> np /\ d m = Some (np', b))) as HD.
  { intros m np' b. unfold setf. case_decide; [naive_solver|]. intros E. right. split_and!; try done. intros ->.
    destruct (pi_fork _ _ _ _ _ _ Hinv m np b E) as ((x & Ex & Hx & _) & _). congruence. }
  eapply pinv_slot; [exact Hinv|exact Hc|..]; simpl; try done; try lia.
  - by rewrite Hs.
  - intros _. split; [lia|]. intros j x Hj Ex Hu. pose proof (pi_pid _ _ _ _ _ _ Hinv j x Ex Hu). lia.
  - by rewrite Hpar.
  - intros m np' b [(-> & -> & ->)|(_ & Hne & E)]%HD; [right|by left]. split_and!; try done. exists r. by rewrite Hrs.
  - intros m m' np' b b' [(-> & -> & ->)|(Hm & Hne & E)]%HD [(-> & E2 & ->)|(Hm' & Hne' & E')]%HD; try done.
    by eapply (pi_own _ _ _ _ _ _ Hinv).
Qed.

Lemma fork_copy_inv l n ip u d k me np (r : bool) :
  pinv ptab l n ip u d -> u k = Some me -> d me = Some (np, false) ->
  pinv ptab (alter (if r then with_parent (Some me) else with_state UNUSED) np l) n ip u
       (setf me (if r then Some (np, true) else None) d).
Proof.
  intros Hinv Hk Hd. destruct (pi_fork _ _ _ _ _ _ Hinv me np false Hd) as ((c & Hc & Hs & Hpar) & x & Hx & Hl).
  assert (forall m np' b, setf me (if r then Some (np, true) else None) d m = Some (np', b) ->
    (m = me /\ np' = np /\ b = true /\ r = true) \/ (m <> me /\ np' <> np /\ d m = Some (np', b))) as HD.
  { intros m np' b. unfold setf. case_decide as Hm; [destruct r; naive_solver|]. intros E. right. split_and!; try done.
    intros ->. destruct Hm. by eapply (pi_own _ _ _ _ _ _ Hinv). }
  pose proof (pi_pid _ _ _ _ _ _ Hinv np c Hc ltac:(by rewrite Hs)).
  eapply pinv_slot; [exact Hinv|exact Hc|..]; try (by destruct r; simpl; rewrite ?Hs); try lia.
  - intros Hu. split; [by destruct r|]. intros j y Hj Ey Hy Ep. apply Hj.
    apply (pi_uniq _ _ _ _ _ _ Hinv j np y c Ey Hc Hy); [by rewrite Hs|by destruct r].
  - intros q. destruct r; simpl; [|by rewrite Hpar]. intros [= <-]. rewrite Hs. eauto.
  - intros m np' b [(-> & -> & -> & ->)|(_ & Hne & E)]%HD; [right|by left]. simpl. rewrite Hs. eauto 10.
  - intros m m' np' b b' [(-> & -> & -> & ->)|(Hm & Hne & E)]%HD [(-> & E2 & -> & _)|(Hm' & Hne' & E')]%HD; try done.
    by eapply (pi_own _ _ _ _ _ _ Hinv).
Qed.

Lemma fork_run_inv l n ip u d k me np :
  pinv ptab l n ip u d -> u k = Some me -> d me = Some (np, true) ->
  pinv ptab (alter (with_state RUNNABLE) np l) n ip u (setf me None d).
Proof.
  intros Hinv Hk Hd. destruct (pi_fork _ _ _ _ _ _ Hinv me np true Hd) as ((c & Hc & Hs & Hpar) & x & Hx & Hl).
  pose proof (pi_pid _ _ _ _ _ _ Hinv np c Hc ltac:(by rewrite Hs)).
  assert (forall m np' b, setf me None d m = Some (np', b) -> m <> me /\ np' <> np /\ d m = Some (np', b)) as HD.
  { intros m np' b. unfold setf. case_decide as Hm; [done|]. intros E. split_and!; try done.
    intros ->. destruct Hm. by eapply (pi_own _ _ _ _ _ _ Hinv). }
  eapply pinv_slot; [exact Hinv|exact Hc|..]; simpl; try done; try lia.
  - by rewrite Hs.
  - intros Hu. split; [done|]. intros j y Hj Ey Hy Ep. apply Hj.
    apply (pi_uniq _ _ _ _ _ _ Hinv j np y c Ey Hc Hy); [by rewrite Hs|done].
  - intros q Hq. rewrite Hpar in Hq. injection Hq as <-. eauto.
  - by rewrite Hpar.
  - intros m np' b (_ & Hne & E)%HD. by left.
  - intros m m' np' b b' (Hm & Hne & E)%HD (Hm' & Hne' & E')%HD. by eapply (pi_own _ _ _ _ _ _ Hinv).
Qed.

Lemma reap_inv l n ip u d i c : pinv ptab l n ip u d -> l !! i = Some c -> c_state c = ZOMBIE ->
  pinv ptab (alter (fun c => with_parent None (with_pid 0 (with_state UNUSED c))) i l) n ip u d.
Proof.
  intros Hinv Hc Hs. eapply pinv_slot; [exact Hinv|exact Hc|..]; simpl; try done; try lia.
  - by rewrite Hs.
  - intros m np b E. left. split; [|done]. intros ->.
    destruct (pi_fork _ _ _ _ _ _ Hinv m i b E) as ((x & Ex & Hx & _) & _). congruence.
  - intros m m' np b b'. apply (pi_own _ _ _ _ _ _ Hinv).
Qed.

Lemma exit_step_inv s s' u d k me :
  sinv (mkSys s u d) -> u k = Some me -> d me = None -> initproc s <> Some me ->
  exit_locked ptab me s = Done tt s' -> sinv (mkSys s' (setf k None u) d).
Proof.
  intros Hinv Hk Hd Hip (c & ch & l1 & Hc & Hch & Hab & Ht)%exit_locked_table.
  apply (sinv_table _ _ _ _ _ _ Ht). pose proof (pinv_woken _ _ _ _ _ ch Hinv) as Hw. simpl in Hw.
  destruct (running _ _ _ _ _ _ _ Hinv Hk) as (c' & Hc' & Hs). simpl in Hc'. simplify_eq.
  eapply pinv_exit; [exact Hw|exact Hk|exact Hd|exact Hip| | |].
  - rewrite list_lookup_fmap, Hc. done.
  - intros p r Hp Hr Hsl. destruct (woken_spec ch c) as (_ & Hpc & _). rewrite Hpc in Hp. apply Hch in Hp as ->.
    rewrite list_lookup_fmap in Hr. apply fmap_Some in Hr as (r0 & _ & ->).
    destruct (woken_spec (proc_addr ptab p) r0) as (_ & _ & -> & _ & Hne). by apply Hne.
  - by rewrite (pi_len _ _ _ _ _ _ Hw).
Qed.

Lemma wait_step_inv s s' u d k me r :
  sinv (mkSys s u d) -> u k = Some me -> wait_round kend ptab me s = Done r s' ->
  sinv (mkSys s' (match r with Some _ => u | None => setf k None u end) d).
Proof.
  intros Hinv Hk E%wait_round_table. destruct r as [r|].
  - destruct E as [E|(i & c & Hc & Hs & E)]; [by apply (sinv_table _ _ _ _ _ _ E)|].
    apply (sinv_table _ _ _ _ _ _ E). by eapply reap_inv.
  - destruct E as [Hz E]. apply (sinv_table _ _ _ _ _ _ E). eapply pinv_leave; [exact Hinv|exact Hk|..].
    + intros c. split_and!; [done..|by left].
    + intros c _ _. exact Hz.
Qed.

Lemma kill_step_inv s s' u d n r : sinv (mkSys s u d) -> kill n s = Done r s' -> sinv (mkSys s' u d).
Proof.
  intros Hinv [E|(i & c & Hc & Hs & E)]%kill_table; apply (sinv_table _ _ _ _ _ _ E); [done|].
  assert (forall k, u k <> Some i) as Hno.
  { intros k Hk. destruct (running _ _ _ _ _ _ _ Hinv Hk) as (c' & Hc' & ?). simpl in Hc'. congruence. }
  eapply pinv_one; [exact Hinv|exact Hc|..]; simpl; try done.
  - by rewrite Hs.
  - split; [done|]. intros [k Hk]. by destruct (Hno k).
  - intros k k' Hk. by destruct (Hno k).
Qed.

Lemma schedule_step_inv s s' u d k i p :
  sinv (mkSys s u d) -> u k = None -> procs s !! i = Some p -> state p = RUNNABLE ->
  set_proc i (set_state RUNNING) s = Done tt s' -> sinv (mkSys s' (setf k (Some i) u) d).
Proof.
  intros Hinv Hk Hp Hs E. run_inv. pose proof (table_state RUNNING i s) as Ht. apply (sinv_table _ _ _ _ _ _ Ht).
  apply cores_at in Hp.
  assert (forall k, u k <> Some i) as Hno.
  { intros k' Hk'. destruct (running _ _ _ _ _ _ _ Hinv Hk') as (c' & Hc' & ?). simpl in Hc'. simplify_eq/=. congruence. }
  eapply pinv_one; [exact Hinv|exact Hp|..]; simpl; try done; unfold setf.
  - by rewrite Hs.
  - intros k' j. case_decide; naive_solver.
  - intros k' j Hk' Hne. rewrite decide_False; congruence.
  - split; [|done]. intros _. exists k. by rewrite decide_True.
  - intros k1 k2 H1 H2. repeat case_decide; [congruence|..]; by edestruct Hno.
Qed.

Lemma pstep_inv x y : pstep kend kdata ptab trapret forkret x y -> sinv x -> sinv y.
Proof.
  destruct 1; intros Hinv.
  - destruct (allocproc_slot_table _ _ _ H3) as (c0 & Hc & Hs & Ht). apply (sinv_table _ _ _ _ _ _ Ht).
    by eapply fork_slot_inv.
  - pose proof (core_of_fork_table _ _ _ _ _ _ _ _ _ H2) as Ht. apply (sinv_table _ _ _ _ _ _ Ht). by eapply fork_copy_inv.
  - run_inv. apply (sinv_table _ _ _ _ _ _ (table_state RUNNABLE np s)). by eapply fork_run_inv.
  - apply exit_files_table in H2 as [Ht _]. by apply (sinv_table _ _ _ _ _ _ Ht).
  - by eapply exit_step_inv.
  - by eapply (wait_step_inv s s' u d c me).
  - unfold sleep_start in H2. run_inv.
    assert (table (upd me (set_state SLEEPING) (upd me (set_chan ch) s)) =
      (alter (fun c => with_state SLEEPING (with_chan ch c)) me (cores s), nextpid s, initproc s)) as Ht.
    { table_simpl. unfold alter_core. simpl. by rewrite alter_twice. }
    apply (sinv_table _ _ _ _ _ _ Ht). eapply pinv_leave; [exact Hinv|done|..].
    + intros c0. split_and!; [done..|by left].
    + intros c0 _ Hch. by destruct (H1 me).
  - unfold sleep_end in H1. run_inv. apply (sinv_table _ _ _ _ _ _ (table_chan 0 me s)). by eapply pinv_chan.
  - apply wakeup1_table in H0. apply (sinv_table _ _ _ _ _ _ H0). by apply pinv_woken.
  - by eapply kill_step_inv.
  - apply growproc_table in H1. by apply (sinv_table _ _ _ _ _ _ H1).
  - unfold yield in H1. run_inv. apply (sinv_table _ _ _ _ _ _ (table_state RUNNABLE me s)).
    eapply pinv_leave; [exact Hinv|done|..]; [|done]. intros c0. split_and!; [done..|by right].
  - by eapply schedule_step_inv.
Qed.

(** The table after [userinit]: init is in slot 0, every other slot is unused. *)
Definition boot_cores : list core := mkCore RUNNABLE 1 None 0 :: replicate 63 (mkCore UNUSED 0 None 0).
Definition boot_table : list core * Z * option nat := (boot_cores, 2, Some 0%nat).
Definition idle_cpus : nat -> option nat := fun _ => None.
Definition no_forks : nat -> option (nat * bool) := fun _ => None.

Lemma boot_inv s : table s = boot_table -> sinv (mkSys s idle_cpus no_forks).
Proof.
  intros E. apply (sinv_table _ _ _ _ _ _ E).
  assert (forall i c, boot_cores !! i = Some c ->
    (i = 0%nat /\ c = mkCore RUNNABLE 1 None 0) \/ c = mkCore UNUSED 0 None 0) as HB.
  { intros [|i] c; [by intros [= <-]; left|]. cbn [boot_cores lookup list_lookup]. intros [-> _]%lookup_replicate. by right. }
  split; try done.
  - exists 0%nat, (mkCore RUNNABLE 1 None 0). done.
  - intros i c [[-> ->]| ->]%HB; (split; [done|by intros (k & Hk)]).
  - intros i c [[-> ->]| ->]%HB; simpl; [lia|done].
  - intros i j c c' [[-> ->]| ->]%HB [[-> ->]| ->]%HB; done.
  - intros i c q [[-> ->]| ->]%HB; done.
  - intros i c [[-> ->]| ->]%HB; done.
  - intros i c [[-> ->]| ->]%HB; done.
  - intros i c j q [[-> ->]| ->]%HB; done.
Qed.
End Steps.

(** C7. In every state that the processes of a booted system can reach, on any
    number of CPUs and in any order of their [fork], [exit], [wait], [sleep], [wakeup],
    [kill], [sbrk] and [yield] steps and of the scheduler's: process ids are unique; a process is in
    state RUNNING exactly when one CPU runs it, and then only that one; and the
    parent of a zombie is alive and not asleep in [wait], so the exit is not lost. *)
Theorem ptable_safe {F} `{Files F} kend kdata ptab trapret forkret (s0 : pst (F := F)) x :
  table s0 = boot_table ->
  rtc (pstep kend kdata ptab trapret forkret) (mkSys s0 idle_cpus no_forks) x ->
  (forall i j p q, procs (ps x) !! i = Some p -> procs (ps x) !! j = Some q ->
     state p <> UNUSED -> state q <> UNUSED -> pid p = pid q -> i = j) /\
  (forall i p, procs (ps x) !! i = Some p ->
     state p = RUNNING <-> exists k, cur x k = Some i /\ forall k', cur x k' = Some i -> k' = k) /\
  (forall i p, procs (ps x) !! i = Some p -> state p = ZOMBIE ->
     exists q r, parent p = Some q /\ procs (ps x) !! q = Some r /\ live (state r) = true /\
       ~ (state r = SLEEPING /\ chan r = proc_addr ptab q)).
Proof.
  intros Hb Hr. assert (sinv ptab x) as Hinv.
  { revert x Hr. apply (rtc_ind_r _ _); [by apply boot_inv|]. intros y z _ Hstep. by eapply pstep_inv. }
  split_and!.
  - intros i j p q Hp%cores_at Hq%cores_at. by apply (pi_uniq _ _ _ _ _ _ Hinv i j _ _ Hp Hq).
  - intros i p Hp%cores_at. pose proof (pi_run _ _ _ _ _ _ Hinv i _ Hp) as Hrun. simpl in Hrun. rewrite Hrun.
    split; [|naive_solver]. intros [k Hk]. exists k. split; [done|]. intros k' Hk'. by apply (pi_one _ _ _ _ _ _ Hinv k' k i).
  - intros i p Hp%cores_at Hz. destruct (parent p) as [q|] eqn:Hq.
    + destruct (pi_parent _ _ _ _ _ _ Hinv i _ q Hp Hq) as (_ & r & Hr' & Hl). unfold cores in Hr'.
      rewrite list_lookup_fmap in Hr'. apply fmap_Some in Hr' as (p' & Hp' & ->). exists q, p'. split_and!; try done.
      intros [Hs Hc]. by apply (pi_wait _ _ _ _ _ _ Hinv q (core_of p') i (core_of p) (cores_at _ _ _ Hp') Hs Hc Hp Hq).
    + exfalso. eapply (pi_orphan _ _ _ _ _ _ Hinv i _ Hp); simpl; [by rewrite Hz..| |exact Hq].
      intros Hi. destruct (pi_init _ _ _ _ _ _ Hinv) as (a & c & Ha & Hc & Hl & _).
      assert (a = i) as -> by congruence. rewrite Hp in Hc. injection Hc as <-. simpl in Hl. by rewrite Hz in Hl.
Qed.

(** A file layer without files, and the table right after boot. *)
#[local] Instance no_files : Files unit := {|
  f_filedup := fun f => ret f; f_fileclose := fun _ => ret tt; f_idup := fun i => ret i; f_iput := fun _ => ret tt;
  f_begin_op := ret tt; f_end_op := ret tt; f_namei := fun _ => ret 1 |}.
Definition boot_proc (st : procstate) (n : Z) : proc :=
  mkProc 0 0 0 st n None 0 0 0 0 (replicate 16 0) 0 (replicate 16 0).
Definition boot_pst : pst (F := unit) :=
  mkP (boot_proc RUNNABLE 1 :: replicate 63 (boot_proc UNUSED 0)) 2 (Some 0%nat) (mkK ∅ 0) tt.

(** init gets a CPU and starts a [fork]: two processes, two ids. *)
Lemma ptable_safe_witness : exists x,
  rtc (pstep 0x80400000 0x80108000 0x80110000 0x80105000 0x80103000) (mkSys boot_pst idle_cpus no_forks) x /\
  option_map state (procs (ps x) !! 0%nat) = Some RUNNING /\ option_map pid (procs (ps x) !! 1%nat) = Some 2 /\
  (forall j p, procs (ps x) !! j = Some p -> state p <> UNUSED -> pid p = 2 -> j = 1%nat).
Proof.
  set (s1 := upd 0 (set_state RUNNING) boot_pst).
  destruct (allocproc_slot s1) as [o s2| | | |] eqn:E; try (vm_compute in E; discriminate).
  assert (o = Some 1%nat) as -> by (vm_compute in E; by injection E).
  exists (mkSys s2 (setf 0 (Some 0%nat) idle_cpus) (setf 0 (Some (1%nat, false)) no_forks)).
  assert (rtc (pstep 0x80400000 0x80108000 0x80110000 0x80105000 0x80103000) (mkSys boot_pst idle_cpus no_forks)
    (mkSys s2 (setf 0 (Some 0%nat) idle_cpus) (setf 0 (Some (1%nat, false)) no_forks))) as Hr.
  { eapply rtc_l; [by apply (S_schedule _ _ _ _ _ 0 0 (boot_proc RUNNABLE 1) boot_pst s1)|].
    eapply rtc_once, (S_fork_slot _ _ _ _ _ 0 0 1); [done|done|vm_compute; done|exact E]. }
  split_and!; [exact Hr|vm_compute in E; by injection E as <-..|].
  intros j p Hp Hs Hpid. symmetry.
  destruct (ptable_safe 0x80400000 0x80108000 0x80110000 0x80105000 0x80103000 boot_pst _ eq_refl Hr) as [Hu _].
  simpl ps in *. vm_compute in E. injection E as <-. by eapply (Hu 1%nat j).
Defined.

(** ** A flaw: process id 0 *)

Section KillZero.
Context {F : Type} `{Files F}.
Variables kend kdata trapret forkret : Z.
Implicit Type s : pst (F := F).

Definition kills (s : pst (F := F)) : list Z := map killed (procs s).
Lemma kills_upd f i s : (forall p, killed (f p) = killed p) -> kills (upd i f s) = kills s.
Proof.
  intros Hf. unfold kills, upd. simpl. generalize (procs s) as l. intros l. revert i.
  induction l as [|p l IH]; intros [|i]; cbn; [done..| |]; f_equal; [apply Hf|apply IH].
Qed.
Lemma kills_at s i p : procs s !! i = Some p -> kills s !! i = Some (killed p).
Proof. intros E. unfold kills. by rewrite list_lookup_fmap, E. Qed.
Lemma kills_dup i fds np s x s' : dup_files i fds np s = Done x s' -> kills s' = kills s.
Proof.
  revert i s. induction fds as [|f fds IH]; intros i s E; simpl in E; run_inv; [done| |];
    apply IH in E; rewrite E; [done|]. by rewrite kills_upd.
Qed.
Lemma kills_mem s k : kills (with_mem k s) = kills s.
Proof. done. Qed.
Lemma kills_fs s f : kills (with_fs f s) = kills s.
Proof. done. Qed.
Lemma core_of_fork_kills me np s r s' : core_of_fork kend kdata trapret forkret me np s = Done r s' -> kills s' = kills s.
Proof.
  unfold core_of_fork, allocproc_stack, fork_copy. intros E. run_inv;
    repeat match goal with E : dup_files _ _ _ _ = _ |- _ => apply kills_dup in E as E' end;
    repeat first [rewrite kills_mem | rewrite kills_fs | rewrite kills_upd by done]; try done.
  rewrite E'. by repeat first [rewrite kills_mem | rewrite kills_fs | rewrite kills_upd by done].
Qed.

Lemma find_from_at f i l p : l !! i = Some p -> f p = true -> (forall j q, (j < i)%nat -> l !! j = Some q -> f q = false) ->
  forall k, find_from f k l = Some (k + i)%nat.
Proof.
  revert i. induction l as [|x l IH]; intros [|i] Hp Hf Hlt k; simpl in *; try done.
  - injection Hp as ->. rewrite Hf. f_equal. lia.
  - rewrite (Hlt 0%nat x) by (done || lia). rewrite IH with (i := i); [f_equal; lia|done|done|].
    intros j q Hj. apply (Hlt (S j) q). lia.
Qed.

(** C30. [kill(0)] does not fail: it matches the first slot with process id 0, which is
    an unused slot, marks it killed and returns 0.  The next [fork] takes that
    slot, and neither [allocproc] nor [fork] clears the mark, so the child starts
    out killed. *)
Theorem kill_zero_dooms_child s i p :
  procs s !! i = Some p -> state p = UNUSED -> pid p = 0 ->
  (forall j q, (j < i)%nat -> procs s !! j = Some q -> state q <> UNUSED /\ pid q <> 0) ->
  wp (kill 0) (fun r s1 => r = 0 /\
    wp allocproc_slot (fun o s2 => o = Some i /\
      forall me r s3, core_of_fork kend kdata trapret forkret me i s2 = Done r s3 ->
        option_map killed (procs s3 !! i) = Some 1) s1) s.
Proof.
  intros Hp Hs Hid Hlt. unfold kill, find_proc. apply wp_bind, wp_gets.
  rewrite (find_from_at _ i _ p Hp); [|by rewrite Hid|].
  2:{ intros j q Hj Hq. destruct (Hlt j q Hj Hq) as [_ ?]. by apply Z.eqb_neq. }
  pose proof (procs_upd i (set_killed 1) p s Hp) as Hp1. set (s1 := upd i (set_killed 1) s) in *.
  eapply wp_bind, wp_set_proc; [exact Hp|]. eapply wp_bind, wp_get_proc; [exact Hp1|]. simpl state. rewrite Hs.
  apply wp_bind, wp_ret, wp_ret. split; [done|]. unfold allocproc_slot, find_proc. apply wp_bind, wp_gets.
  rewrite (find_from_at _ i _ _ Hp1); [|by simpl; apply bool_decide_true|].
  2:{ intros j q Hj Hq. simpl in Hq. rewrite list_lookup_alter_ne in Hq by lia.
      apply bool_decide_false. by destruct (Hlt j q Hj Hq). }
  eapply wp_bind, wp_set_proc; [exact Hp1|]. apply wp_bind, wp_gets.
  eapply wp_bind, wp_set_proc; [apply procs_upd, Hp1|].
  apply wp_bind, wp_modify, wp_ret. split; [done|]. intros me r s3 E%core_of_fork_kills.
  assert (kills s3 !! i = Some 1) as Hk.
  { rewrite E. unfold kills. simpl. rewrite list_lookup_fmap, !list_lookup_alter_eq, Hp. done. }
  unfold kills in Hk. rewrite list_lookup_fmap in Hk. by destruct (procs s3 !! i).
Qed.
End KillZero.

(** Right after boot slot 1 is the one. *)
Lemma kill_zero_dooms_child_witness :
  wp (kill 0) (fun r s1 => r = 0 /\ wp allocproc_slot (fun o _ => o = Some 1%nat) s1) boot_pst.
Proof.
  eapply wp_mono; [apply (kill_zero_dooms_child 0x80400000 0x80108000 0x80105000 0x80103000 boot_pst 1 (boot_proc UNUSED 0))|].
  - done.
  - done.
  - done.
  - intros [|j] q Hj; [intros [= <-]; done|lia].
  - intros r s1 [-> Hw]. split; [done|]. eapply wp_mono; [exact Hw|]. by intros o s2 [-> _].
Defined.
