(* ===== verification/Sleep.v ===== *)
(** * The sleep/wakeup protocol: [sleep] and [wakeup] of proc.c at the grain of lock operations

    Any number of processes run [acquire(lk); while(!cond) sleep(chan, lk); ...;
    release(lk)] or [acquire(lk); cond = 1; wakeup(chan); release(lk)].  Each lock operation and each store
    is a step, so the window between the [release(lk)] of [sleep] and the store of
    SLEEPING is there, as is the one between the store of the condition and
    [wakeup1].  A lock is its holder; an [acquire] steps when the lock is free. *)

From S2P Require Import Prelude.

Inductive spc :=
| Out                (** outside *)
| Testing            (** holds lk, at the test of the condition *)
| Sleep1             (** in [sleep]: before [acquire(&ptable.lock)] *)
| Sleep2             (** holds both, before [release(lk)] *)
| Sleep3             (** before the stores to [chan] and [state] *)
| Sleep4             (** in [sched], the lock still held *)
| Asleep             (** switched out; the scheduler has released ptable.lock *)
| Sleep5             (** running again, holding ptable.lock *)
| Sleep6             (** before [acquire(lk)] *)
| Using              (** the condition held; holds lk *)
| Waking1            (** holds lk, before the store to the condition *)
| Waking2            (** in [wakeup]: before [acquire(&ptable.lock)] *)
| Waking3            (** before [wakeup1] *)
| Waking4            (** before [release(&ptable.lock)] *)
| Waking5.           (** before [release(lk)] *)

Record sw := mkSw {
  lk : option nat; pt : option nat;   (** who holds the two locks *)
  cond : bool;
  pcs : nat -> spc;
  sleeping : nat -> bool              (** state is SLEEPING on the channel *)
}.
Definition put {A} (i : nat) (x : A) (f : nat -> A) : nat -> A := fun j => if decide (j = i) then x else f j.

(** The next step of process [i]; [None]: it waits.  The flag says whether a
    process outside wants to wait or to wake, and whether one that uses the
    condition consumes it. *)
Definition sw_step (flag : bool) (i : nat) (m : sw) : option sw :=
  let go p := fun m => mkSw (lk m) (pt m) (cond m) (put i p (pcs m)) (sleeping m) in
  let set_lk o m := mkSw o (pt m) (cond m) (pcs m) (sleeping m) in
  let set_pt o m := mkSw (lk m) o (cond m) (pcs m) (sleeping m) in
  let set_cond b m := mkSw (lk m) (pt m) b (pcs m) (sleeping m) in
  let set_sl f m := mkSw (lk m) (pt m) (cond m) (pcs m) f in
  match pcs m i with
  | Out => if lk m is Some _ then None else Some (go (if flag then Testing else Waking1) (set_lk (Some i) m))
  | Testing => Some (go (if cond m then Using else Sleep1) m)
  | Sleep1 => if pt m is Some _ then None else Some (go Sleep2 (set_pt (Some i) m))
  | Sleep2 => Some (go Sleep3 (set_lk None m))
  | Sleep3 => Some (go Sleep4 (set_sl (put i true (sleeping m)) m))
  | Sleep4 => Some (go Asleep (set_pt None m))
  | Asleep => if sleeping m i then None
              else if pt m is Some _ then None else Some (go Sleep5 (set_pt (Some i) m))
  | Sleep5 => Some (go Sleep6 (set_pt None m))
  | Sleep6 => if lk m is Some _ then None else Some (go Testing (set_lk (Some i) m))
  | Using => Some (go Out (set_lk None (if flag then set_cond false m else m)))
  | Waking1 => Some (go Waking2 (set_cond true m))
  | Waking2 => if pt m is Some _ then None else Some (go Waking3 (set_pt (Some i) m))
  | Waking3 => Some (go Waking4 (set_sl (fun _ => false) m))
  | Waking4 => Some (go Waking5 (set_pt None m))
  | Waking5 => Some (go Out (set_lk None m))
  end.
Inductive sw_run : sw -> sw -> Prop :=
| Sw_step flag i m m' : sw_step flag i m = Some m' -> sw_run m m'.

Definition has_lk (p : spc) : bool :=
  match p with Testing | Sleep1 | Sleep2 | Using | Waking1 | Waking2 | Waking3 | Waking4 | Waking5 => true | _ => false end.
Definition has_pt (p : spc) : bool :=
  match p with Sleep2 | Sleep3 | Sleep4 | Sleep5 | Waking3 | Waking4 => true | _ => false end.
(** Has decided to sleep and not been woken. *)
Definition dozing (m : sw) (i : nat) : bool :=
  match pcs m i with Sleep3 => true | Sleep4 | Asleep => sleeping m i | _ => false end.
(** Has set the condition and not yet called [wakeup1]. *)
Definition about_to_wake (p : spc) : bool := match p with Waking2 | Waking3 => true | _ => false end.

Record sw_inv (m : sw) : Prop := {
  si_lk : forall i, has_lk (pcs m i) = true <-> lk m = Some i;
  si_pt : forall i, has_pt (pcs m i) = true <-> pt m = Some i;
  si_test : forall i, pcs m i = Sleep1 \/ pcs m i = Sleep2 -> cond m = false;
  si_doze : forall i, dozing m i = true -> cond m = true -> exists j, about_to_wake (pcs m j) = true
}.

Definition quiet : sw := mkSw None None false (fun _ => Out) (fun _ => false).

(** A step of [i] moves [i] alone, and takes, keeps or frees each lock. *)
Definition moves (has : spc -> bool) (i : nat) (p p' : spc) (h h' : option nat) : Prop :=
  (has p' = has p /\ h' = h) \/ (has p = false /\ h = None /\ has p' = true /\ h' = Some i) \/
  (has p = true /\ has p' = false /\ h' = None).

Lemma sw_step_moves flag i m m' : sw_step flag i m = Some m' ->
  exists p', pcs m' = put i p' (pcs m) /\
    moves has_lk i (pcs m i) p' (lk m) (lk m') /\ moves has_pt i (pcs m i) p' (pt m) (pt m').
Proof.
  intros E. unfold sw_step in E. unfold moves. destruct (pcs m i) eqn:Hpc; repeat (case_match; try discriminate);
    injection E as <-; simpl; eexists; (split; [reflexivity|]); split; simpl;
    first [left; by split | right; left; by split_and! | right; right; by split_and!].
Qed.

Lemma moves_inv has i (f : nat -> spc) p' h h' :
  moves has i (f i) p' h h' -> (forall k, has (f k) = true <-> h = Some k) ->
  forall k, has (put i p' f k) = true <-> h' = Some k.
Proof.
  intros Hm Hf k. pose proof (Hf i) as Hi. pose proof (Hf k) as Hk. unfold put. destruct (decide (k = i)) as [-> |Hne].
  - destruct Hm as [[-> ->]|[(_ & _ & -> & ->)|(_ & -> & ->)]]; done.
  - rewrite Hk. destruct Hm as [[_ ->]|[(_ & -> & _ & ->)|(E & _ & ->)]]; [done| |].
    + split; [done|]. intros [= ->]. done.
    + apply Hi in E as ->. split; [|done]. intros [= ->]. done.
Qed.

(** Only the holder of lk changes the condition, so a process on its way into
    [sleep] with the lock still sees it false. *)
Lemma test_step flag i m m' k : sw_inv m -> sw_step flag i m = Some m' ->
  pcs m' k = Sleep1 \/ pcs m' k = Sleep2 -> cond m' = false.
Proof.
  intros [Hl _ Ht _] E. pose proof (Hl i) as Hi. pose proof (Hl k) as Hk. pose proof (Ht i) as Hti. pose proof (Ht k) as Htk.
  unfold sw_step in E. destruct (pcs m i) eqn:Hpc; repeat (case_match; try discriminate); injection E as <-; simpl in *;
    unfold put; (destruct (decide (k = i)); [subst; try (by intros [?|?]); auto|]); auto.
  intros Hw. assert (has_lk (pcs m k) = true) as Hx%Hk by (by destruct Hw as [-> | ->]).
  destruct Hi as [Hi _]. rewrite Hi in Hx by done. congruence.
Qed.

(** How a process comes to doze with the condition true. *)
Lemma doze_cases flag i m m' k : sw_step flag i m = Some m' -> dozing m' k = true -> cond m' = true ->
  (dozing m k = true /\ cond m = true /\ pcs m i <> Waking3) \/ about_to_wake (pcs m' i) = true \/
  (cond m = true /\ pcs m i = Sleep2) \/ (pcs m i = Waking3 /\ pcs m k = Sleep3).
Proof.
  intros E. unfold sw_step in E.
  destruct (pcs m i) eqn:Hpc; repeat (case_match; try discriminate); injection E as <-;
    unfold dozing, put; simpl; (destruct (decide (k = i)) as [-> |Hne];
      [rewrite ?decide_True, ?Hpc by done|rewrite ?decide_False by done]); try (by intros ?); try (by auto 6).
  all: try (intros ? ?; by auto 6).
  - intros _ _. right. left. by rewrite decide_True.
  - intros Hk _. right. right. right. split; [done|]. by destruct (pcs m k).
Qed.

(** A waker that has set the condition stays about to wake until [wakeup1]. *)
Lemma doze_step flag i m m' k : sw_inv m -> sw_step flag i m = Some m' ->
  dozing m' k = true -> cond m' = true -> exists j, about_to_wake (pcs m' j) = true.
Proof.
  intros [Hl Hp Ht Hd] E Hz Hc. destruct (doze_cases _ _ _ _ k E Hz Hc) as [(Hz0 & Hc0 & Hn)|[Hw|[[Hc0 Hs]|[Hw Hs]]]].
  - destruct (Hd k Hz0 Hc0) as [j Hj]. destruct (decide (j = i)) as [-> |Hne].
    + exists i. unfold sw_step in E. destruct (pcs m i); try done. destruct (pt m); [done|]. injection E as <-. simpl.
      unfold put. by rewrite decide_True.
    + exists j. destruct (sw_step_moves _ _ _ _ E) as (p' & -> & _). unfold put. by rewrite decide_False.
  - eauto.
  - rewrite (Ht i) in Hc0; [done|by right].
  - assert (pt m = Some i /\ pt m = Some k) as [E1 E2] by (split; apply Hp; by rewrite ?Hw, ?Hs).
    rewrite E1 in E2. injection E2 as ->. congruence.
Qed.

Lemma sw_step_inv m m' : sw_run m m' -> sw_inv m -> sw_inv m'.
Proof.
  destruct 1 as [flag i m m' E]. intros Hinv. destruct (sw_step_moves _ _ _ _ E) as (p' & Ep & Hl & Hp).
  split; [| |intros k; by eapply test_step|intros k; by eapply doze_step]; rewrite Ep.
  - by apply moves_inv with (h := lk m); [|apply Hinv].
  - by apply moves_inv with (h := pt m); [|apply Hinv].
Qed.

(** C10. No wakeup is lost: in every interleaving, a process that has given up the
    lock in [sleep] and has not been woken while the condition holds is about to
    be woken, by a process that holds the lock and has yet to call [wakeup1]. *)
Theorem no_lost_wakeup m i :
  rtc sw_run quiet m -> dozing m i = true -> cond m = true ->
  exists j, about_to_wake (pcs m j) = true /\ lk m = Some j.
Proof.
  intros Hr Hd Hc. assert (sw_inv m) as [Hl _ _ Hz].
  { clear Hd Hc. revert m Hr. apply (rtc_ind_r _ _); [|intros y z _ H; by apply sw_step_inv].
    split; simpl; try done. }
  destruct (Hz i Hd Hc) as [j Hj]. exists j. split; [done|]. apply Hl. by destruct (pcs m j).
Qed.

(** Process 0 goes to sleep and process 1 sets the condition in the window
    before 0 has stored its state. *)
Fixpoint sw_play (acts : list (bool * nat)) (m : sw) : option sw :=
  match acts with
  | [] => Some m
  | (f, i) :: acts' => match sw_step f i m with Some m' => sw_play acts' m' | None => None end
  end.
Lemma sw_play_run acts m m' : sw_play acts m = Some m' -> rtc sw_run m m'.
Proof.
  revert m. induction acts as [|[f i] acts IH]; intros m; simpl; [intros [= ->]; constructor|].
  destruct (sw_step f i m) as [x|] eqn:E; [|done]. intros Hx. eapply rtc_l; [by econstructor|by apply IH].
Qed.
Definition window : list (bool * nat) :=
  [(true, 0%nat); (true, 0%nat); (true, 0%nat); (true, 0%nat); (false, 1%nat); (false, 1%nat); (true, 0%nat); (true, 0%nat)].
Lemma no_lost_wakeup_witness : exists m,
  rtc sw_run quiet m /\ pcs m 0%nat = Asleep /\ sleeping m 0%nat = true /\
  exists j, about_to_wake (pcs m j) = true /\ lk m = Some j.
Proof.
  destruct (sw_play window quiet) as [m|] eqn:E; [|vm_compute in E; discriminate].
  exists m. pose proof (sw_play_run _ _ _ E) as Hr. vm_compute in E. injection E as E.
  assert (pcs m 0%nat = Asleep /\ sleeping m 0%nat = true /\ cond m = true) as (H1 & H2 & H3) by (by rewrite <- E).
  split_and!; [exact Hr|exact H1|exact H2|]. apply (no_lost_wakeup m 0); [exact Hr| |exact H3].
  unfold dozing. by rewrite H1, H2.
Defined.
