(* ===== verification/Blocks.v ===== *)
(** * What the file system sees of the block layer

    fs.c works on blocks through [bread], the data of the buffer, [log_write] and
    [brelse].  [Blocks] is that interface: the operations and what they promise
    about the client's view of the disk, a [cache] whose pinned blocks are
    those of the running transaction.  bio.c and log.c over any disk driver
    implement it ([log_blocks]). *)

From S2P Require Import Prelude Buf Bio Log.

(** The device and the blocks of it a client may touch inside a transaction (on
    the disk, not part of the log), and how many of them fit the transaction. *)
Record benv := mkEnv { be_dev : Z; be_ok : Z -> Prop; be_cap : nat }.

Class Blocks (S : Type) := {
  k_bread : Z -> Z -> M S Z;
  k_get : Z -> M S (list Z);
  k_put : Z -> list Z -> M S unit;
  k_log_write : Z -> M S unit;
  k_brelse : Z -> M S unit;
  k_rep : benv -> S -> cache -> Prop;
  k_view_ok : forall e s a d n, k_rep e s a -> blk_ok (c_view a d n);
  k_bread_ok : forall e s a n,
    k_rep e s a -> be_ok e n -> (forall i, c_held a !! i <> Some (be_dev e, n)) -> room a (be_dev e, n) ->
    wp (k_bread (be_dev e) n) (fun i s' => c_held a !! i = None /\ k_rep e s' (hold i (be_dev e, n) a)) s;
  k_get_ok : forall e s a i k,
    k_rep e s a -> c_held a !! i = Some k ->
    wp (k_get i) (fun x s' => s' = s /\ x = view_at (c_view a) k) s;
  k_put_ok : forall e s a i k x,
    k_rep e s a -> c_held a !! i = Some k -> blk_ok x ->
    wp (k_put i x) (fun _ s' => k_rep e s' (touch k x a)) s;
  k_log_write_ok : forall e s a i n,
    k_rep e s a -> c_held a !! i = Some (be_dev e, n) -> be_ok e n ->
    (size (c_pinned a) < be_cap e)%nat ->
    wp (k_log_write i) (fun _ s' => k_rep e s' (pin (be_dev e, n) a)) s;
  k_brelse_ok : forall e s a i k,
    k_rep e s a -> c_held a !! i = Some k -> k ∉ c_touched a ->
    wp (k_brelse i) (fun _ s' => k_rep e s' (release i a)) s
}.

(** ** The implementation: bio.c and log.c inside a transaction *)

Section LogBlocks.
Context {D : Type} `{BD : BlockDevice D}.
Abbreviation st := (bst D).

Record in_trans (e : benv) (s : st) (a : cache) : Prop := {
  it_rep : cache_rep s a;
  it_wf : log_wf (st_drv s) (st_log s);
  it_open : 1 <= log_outstanding (st_log s);
  it_pinned : c_pinned a = home_keys (st_log s);
  it_dev : log_dev (st_log s) = be_dev e;
  it_ok : forall n, be_ok e n -> 0 <= n < 2 ^ 31 /\ drv_serves (st_drv s) (be_dev e) n /\
    ~ (log_start (st_log s) <= n < log_start (st_log s) + log_size (st_log s));
  it_cap : Z.of_nat (be_cap e) <= LOGSIZE /\ Z.of_nat (be_cap e) <= log_size (st_log s) - 1;
  it_idle : log_committing (st_log s) = 0
}.

Lemma in_trans_env e s s' a a' :
  in_trans e s a -> cache_rep s' a' -> c_pinned a' = c_pinned a -> env_same s s' -> in_trans e s' a'.
Proof.
  intros [Hr Hw Ho Hp Hd Hk Hc Hi] Hr' Hp' (El & _ & Es & _). split; rewrite ?El; try done.
  - eapply log_wf_serves; [|exact Hw]. intros. by rewrite Es.
  - by rewrite Hp'.
  - intros n Hn. rewrite Es. by apply Hk.
Qed.

Lemma home_keys_count drv l : log_wf drv l -> size (home_keys l) = Z.to_nat (lh_n (log_lh l)).
Proof.
  intros Hwf. unfold home_keys. rewrite size_list_to_set.
  - rewrite length_fmap. unfold homes. rewrite length_take, (wf_len _ _ Hwf). pose proof (wf_n _ _ Hwf). lia.
  - apply NoDup_fmap_2; [by intros ? ? [= ->]|]. apply (wf_nodup _ _ Hwf).
Qed.

#[global] Program Instance log_blocks : Blocks st := {|
  k_bread := bread; k_get := get_data; k_put := put_data; k_log_write := log_write; k_brelse := brelse;
  k_rep := in_trans
|}.
Next Obligation. intros e s a d n [[_ Hr] _ _ _ _ _ _ _]. apply (cr_view _ _ _ Hr). Qed.
Next Obligation.
  intros e s a n Hin Hn Hh Hroom. destruct (it_ok _ _ _ Hin n Hn) as (_ & Hs & _).
  eapply wp_mono; [by eapply (wp_bread s a); [apply Hin|exact Hs|..]|].
  intros i s' (Hi & Hr & He). split; [done|]. by eapply in_trans_env.
Qed.
Next Obligation. intros e s a i k Hin Hh. eapply wp_get_data; [apply Hin|done|done]. Qed.
Next Obligation.
  intros e s a i k x Hin Hh Hx. eapply wp_mono; [by eapply wp_put_data; [apply Hin|..]|].
  intros [] s' [Hr He]. by eapply in_trans_env.
Qed.
Next Obligation.
  intros e s a i n Hin Hh Hn Hcap. pose proof Hin as [Hr Hw Ho Hp Hd Hk Hc Hi]. rewrite Hp in Hcap.
  rewrite (home_keys_count _ _ Hw) in Hcap. pose proof (wf_n _ _ Hw). destruct (Hk n Hn) as (Hn1 & Hs & Hout).
  rewrite <- Hd in *. eapply wp_mono; [eapply (wp_log_write s a i n); try done; lia|].
  intros [] s' [Hr' (El & _ & Es & _)].
  assert (log_wf (st_drv s') (noted (st_log s) n)) as Hw'.
  { apply (log_wf_serves (st_drv s)); [intros; by rewrite Es|]. apply noted_wf; try done; [lia..|]. by intros [_ ?]. }
  assert (log_outstanding (noted (st_log s) n) = log_outstanding (st_log s) /\
    log_dev (noted (st_log s) n) = log_dev (st_log s) /\ log_start (noted (st_log s) n) = log_start (st_log s) /\
    log_size (noted (st_log s) n) = log_size (st_log s) /\ log_committing (noted (st_log s) n) = log_committing (st_log s)) as (E1 & E2 & E3 & E4 & E5) by (unfold noted; by case_decide).
  split; rewrite ?El, ?E1, ?E2, ?E3, ?E4, ?E5; try done.
  - simpl. by rewrite (home_keys_noted (st_drv s)), Hp by (done || lia).
  - intros m Hm. rewrite Es, <- Hd. by apply Hk.
Qed.
Next Obligation.
  intros e s a i k Hin Hh Ht. eapply wp_mono; [by eapply wp_brelse; [apply Hin|..]|].
  intros [] s' (Hr & He & _). by eapply in_trans_env.
Qed.
End LogBlocks.
