(* ===== verification/Fs.v ===== *)
(** * The file system: fs.c, fs.h, mbr.h, file.h (struct inode) and stat.h

    Blocks are reached through the interface of Blocks.v; the rest of the state
    is the inode cache, the partitions, the mount table and the current
    directory of the process that runs the code.  A [struct inode *] is an index
    into the cache and a [struct partition *] an index into [partitions], with -1
    for the null pointer.  [cprintf] calls are left out.  The lock of the
    inode cache makes the short sections it protects atomic; a busy inode puts
    the caller to sleep. *)

From S2P Require Import Prelude Buf Bio Blocks.

Definition ROOTINO : Z := 1.
Definition NDIRECT : Z := 12.
Definition NINDIRECT : Z := BSIZE / 4.
Definition MAXFILE : Z := NDIRECT + NINDIRECT.
Definition SIZEOF_DINODE : Z := 64.
Definition IPB : Z := BSIZE / SIZEOF_DINODE.
Definition BPB : Z := BSIZE * 8.
Definition DIRSIZ : Z := 14.
Definition SIZEOF_DIRENT : Z := 16.
Definition NINODE : Z := 50.
Definition NDEV : Z := 10.
Definition MOUNT_POINTS_SIZE : Z := NINODE * 4.
Definition NPARTITIONS : Z := 4.
Definition BOOTSTRAP : Z := 446.
Definition PART_BOOTABLE : Z := 2.
Definition T_DIR : Z := 1.
Definition T_FILE : Z := 2.
Definition T_DEV : Z := 3.
Definition I_BUSY : Z := 1.
Definition I_VALID : Z := 2.
Definition NULLP : Z := -1.

(** ** On-disk structures *)

Record superblock := mkSb {
  sb_size : Z; sb_nblocks : Z; sb_ninodes : Z; sb_nlog : Z;
  sb_logstart : Z; sb_inodestart : Z; sb_bmapstart : Z
}.
Definition sb_of (x : list Z) : superblock :=
  mkSb (get32 0 x) (get32 4 x) (get32 8 x) (get32 12 x) (get32 16 x) (get32 20 x) (get32 24 x).
Definition IBLOCK (i : Z) (sb : superblock) : Z := u32 (i / IPB + sb_inodestart sb).
Definition BBLOCK (b : Z) (sb : superblock) : Z := u32 (b / BPB + sb_bmapstart sb).

Record dpartition := mkDp { dp_flags : Z; dp_type : Z; dp_offset : Z; dp_size : Z }.
Definition dpartition_of (off : nat) (x : list Z) : dpartition :=
  mkDp (get32 off x) (get32 (off + 4) x) (get32 (off + 8) x) (get32 (off + 12) x).
Definition mbr_of (x : list Z) : list dpartition :=
  map (fun i => dpartition_of (Z.to_nat (BOOTSTRAP + 16 * i)) x) (seqZ 0 NPARTITIONS).
Definition GET_BOOT (p : dpartition) : Z := s8 (dp_flags p).

Record partition := mkPart { p_dev : Z; p_prt : dpartition }.

(** The fields an inode has on disk. *)
Record dinode := mkDi {
  di_type : Z; di_major : Z; di_minor : Z; di_nlink : Z; di_size : Z; di_addrs : list Z
}.
Definition dinode_of (off : nat) (x : list Z) : dinode :=
  mkDi (s16 (get16 off x)) (s16 (get16 (off + 2) x)) (s16 (get16 (off + 4) x)) (s16 (get16 (off + 6) x))
       (get32 (off + 8) x) (map (fun j => get32 (off + 12 + 4 * Z.to_nat j) x) (seqZ 0 (NDIRECT + 1))).
Definition put_addrs (off : nat) (l : list Z) (x : list Z) : list Z :=
  bsplice off (concat (map (le_bytes 4) l)) x.
Definition put_dinode (off : nat) (d : dinode) (x : list Z) : list Z :=
  put_addrs (off + 12) (di_addrs d) (put32 (off + 8) (di_size d) (put16 (off + 6) (di_nlink d)
    (put16 (off + 4) (di_minor d) (put16 (off + 2) (di_major d) (put16 off (di_type d) x))))).

Record dirent := mkDe { de_inum : Z; de_name : list Z }.
Definition dirent_of (x : list Z) : dirent := mkDe (get16 0 x) (bslice 2 (Z.to_nat DIRSIZ) x).
Definition dirent_bytes (d : dirent) : list Z := le_bytes 2 (de_inum d) ++ de_name d.

(** ** In-memory structures *)

Record inode := mkI { i_inum : Z; i_ref : Z; i_flags : Z; i_prt : Z; i_ismnt : Z; i_di : dinode }.
Definition set_ref r i := mkI (i_inum i) r (i_flags i) (i_prt i) (i_ismnt i) (i_di i).
Definition set_iflags f i := mkI (i_inum i) (i_ref i) f (i_prt i) (i_ismnt i) (i_di i).
Definition set_di d i := mkI (i_inum i) (i_ref i) (i_flags i) (i_prt i) (i_ismnt i) d.
Definition set_type v d := mkDi v (di_major d) (di_minor d) (di_nlink d) (di_size d) (di_addrs d).
Definition set_nlink v d := mkDi (di_type d) (di_major d) (di_minor d) v (di_size d) (di_addrs d).
Definition set_size v d := mkDi (di_type d) (di_major d) (di_minor d) (di_nlink d) v (di_addrs d).
Definition set_addr j v d :=
  mkDi (di_type d) (di_major d) (di_minor d) (di_nlink d) (di_size d) (<[Z.to_nat j := v]> (di_addrs d)).
Definition addr_at (d : dinode) (j : Z) : Z := nth (Z.to_nat j) (di_addrs d) 0.

Record mount_point := mkMp { mp_taken : Z; mp_path : list Z; mp_prt : Z; mp_old_i : Z; mp_old_prt : Z }.

Section Fs.
Context {S : Type} `{Blocks S}.

Record fsys := mkFs {
  f_blk : S;
  f_icache : list inode;
  f_parts : list partition;
  f_boot : Z;                 (** boot_part *)
  f_cur_part : Z;
  f_mounts : list mount_point;
  f_cwd : Z                   (** proc->cwd *)
}.
Definition with_blk (b : S) (s : fsys) : fsys :=
  mkFs b (f_icache s) (f_parts s) (f_boot s) (f_cur_part s) (f_mounts s) (f_cwd s).
Definition with_icache (l : list inode) (s : fsys) : fsys :=
  mkFs (f_blk s) l (f_parts s) (f_boot s) (f_cur_part s) (f_mounts s) (f_cwd s).
Definition with_parts (l : list partition) (s : fsys) : fsys :=
  mkFs (f_blk s) (f_icache s) l (f_boot s) (f_cur_part s) (f_mounts s) (f_cwd s).
Definition with_boot (b c : Z) (s : fsys) : fsys :=
  mkFs (f_blk s) (f_icache s) (f_parts s) b c (f_mounts s) (f_cwd s).
Definition with_mounts (l : list mount_point) (s : fsys) : fsys :=
  mkFs (f_blk s) (f_icache s) (f_parts s) (f_boot s) (f_cur_part s) l (f_cwd s).
Definition with_cwd (c : Z) (s : fsys) : fsys :=
  mkFs (f_blk s) (f_icache s) (f_parts s) (f_boot s) (f_cur_part s) (f_mounts s) c.

Definition on_blk {A} : M S A -> M fsys A := lift f_blk with_blk.
Definition bread (d n : Z) : M fsys Z := on_blk (k_bread d n).
Definition get_data (b : Z) : M fsys (list Z) := on_blk (k_get b).
Definition put_data (b : Z) (x : list Z) : M fsys unit := on_blk (k_put b x).
Definition log_write (b : Z) : M fsys unit := on_blk (k_log_write b).
Definition brelse (b : Z) : M fsys unit := on_blk (k_brelse b).

Definition part_at (p : Z) : M fsys partition := fun s =>
  match (if p <? 0 then None else f_parts s !! Z.to_nat p) with Some x => Done x s | None => Fault "partition" end.
Definition get_inode (i : Z) : M fsys inode := fun s =>
  match (if i <? 0 then None else f_icache s !! Z.to_nat i) with Some x => Done x s | None => Fault "inode" end.
Definition upd_inode (i : Z) (f : inode -> inode) : M fsys unit :=
  x <- get_inode i ;; modify (fun s => with_icache (<[Z.to_nat i := f x]> (f_icache s)) s).

(** ** The super block and the partition table *)

Definition readsb (p : Z) : M fsys superblock :=
  part <- part_at p ;;
  let offset := dp_offset (p_prt part) in
  bp <- bread (p_dev part) offset ;;
  x <- get_data bp ;;
  let sb := sb_of x in
  let sb := mkSb (sb_size sb) (sb_nblocks sb) (sb_ninodes sb) (sb_nlog sb) (u32 (sb_logstart sb + offset))
                 (u32 (sb_inodestart sb + offset)) (u32 (sb_bmapstart sb + offset)) in
  brelse bp ;;;
  ret sb.

Definition set_part (p : Z) : M fsys unit := modify (fun s => with_boot (f_boot s) p s).
Definition get_part : M fsys Z := gets f_cur_part.
Definition get_boot_block : M fsys Z := gets f_boot.

Definition readmbr (dev : Z) : M fsys unit :=
  bp <- bread dev 0 ;;
  x <- get_data bp ;;
  let mbr := mbr_of x in
  brelse bp ;;;
  for_each (Z.to_nat NPARTITIONS) 0 (fun i =>
    dp <- of_option "mbr.partitions" (mbr !! Z.to_nat i) ;;
    modify (fun s => with_parts (<[Z.to_nat i := mkPart dev dp]> (f_parts s)) s) ;;;
    readsb i ;;; ret tt) ;;;
  r <- for_ (Z.to_nat NPARTITIONS) 0 (fun i =>
    dp <- of_option "mbr.partitions" (mbr !! Z.to_nat i) ;;
    if GET_BOOT dp =? PART_BOOTABLE
    then set_part i ;;; modify (fun s => with_boot i (f_cur_part s) s) ;;; ret (Some tt)
    else ret None) ;;
  match r with
  | Some _ => ret tt
  | None => panic "no bootable partition found"
  end.

(** ** Blocks *)

Definition bzero (dev bno : Z) : M fsys unit :=
  bp <- bread dev bno ;;
  put_data bp zero_blk ;;;
  log_write bp ;;;
  brelse bp.

Definition bit_of (x : list Z) (bi : Z) : bool :=
  negb (Z.land (nth (Z.to_nat (bi / 8)) x 0) (Z.shiftl 1 (bi mod 8)) =? 0).
Definition set_bit (x : list Z) (bi : Z) : list Z :=
  <[Z.to_nat (bi / 8) := Z.lor (nth (Z.to_nat (bi / 8)) x 0) (Z.shiftl 1 (bi mod 8))]> x.
Definition clear_bit (x : list Z) (bi : Z) : list Z :=
  <[Z.to_nat (bi / 8) := Z.land (nth (Z.to_nat (bi / 8)) x 0) (u8 (Z.lnot (Z.shiftl 1 (bi mod 8))))]> x.

Definition balloc (prt : Z) : M fsys Z :=
  part <- part_at prt ;;
  let dev := p_dev part in
  sb <- readsb prt ;;
  let freeblock_offset := u32 (sb_bmapstart sb + 1) in
  r <- for_ (Z.to_nat ((sb_size sb + BPB - 1) / BPB)) 0 (fun k =>
    let b := k * BPB in
    bp <- bread dev (BBLOCK b sb) ;;
    r <- for_ (Z.to_nat (Z.min BPB (sb_size sb - b))) 0 (fun bi =>
      x <- get_data bp ;;
      if bit_of x bi then ret None else
      put_data bp (set_bit x bi) ;;;
      log_write bp ;;;
      brelse bp ;;;
      bzero dev (u32 (freeblock_offset + b + bi)) ;;;
      ret (Some (u32 (freeblock_offset + b + bi)))) ;;
    match r with
    | Some v => ret (Some v)
    | None => brelse bp ;;; ret None
    end) ;;
  match r with
  | Some v => ret v
  | None => panic "balloc: out of blocks"
  end.

Definition bfree (prt b : Z) : M fsys unit :=
  sb <- readsb prt ;;
  let freeblock_offset := u32 (sb_bmapstart sb + 1) in
  let b := u32 (b - freeblock_offset) in
  part <- part_at prt ;;
  bp <- bread (p_dev part) (BBLOCK b sb) ;;
  let bi := b mod BPB in
  x <- get_data bp ;;
  if negb (bit_of x bi) then panic "freeing free block" else
  put_data bp (clear_bit x bi) ;;;
  log_write bp ;;;
  brelse bp.

(** ** The inode cache *)

(** One pass over the cache: the entry for the inode, or the first free one. *)
Fixpoint icache_scan (prt inum : Z) (empty : option nat) (i : nat) (l : list inode) : (option nat * option nat) :=
  match l with
  | [] => (None, empty)
  | ip :: l' =>
      if (i_ref ip >? 0) && (i_prt ip =? prt) && (i_inum ip =? inum) then (Some i, empty)
      else icache_scan prt inum
             (match empty with None => if i_ref ip =? 0 then Some i else None | Some _ => empty end) (Datatypes.S i) l'
  end.
Definition iget (prt inum : Z) : M fsys Z :=
  r <- gets (fun s => icache_scan prt inum None 0 (f_icache s)) ;;
  match r with
  | (Some i, _) => upd_inode (Z.of_nat i) (fun ip => set_ref (i_ref ip + 1) ip) ;;; ret (Z.of_nat i)
  | (None, None) => panic "iget: no inodes"
  | (None, Some i) =>
      upd_inode (Z.of_nat i) (fun ip => mkI inum 1 0 prt 0 (i_di ip)) ;;; ret (Z.of_nat i)
  end.

Definition idup (ip : Z) : M fsys Z := upd_inode ip (fun x => set_ref (i_ref x + 1) x) ;;; ret ip.

Definition has_flag (f bit : Z) : bool := negb (Z.land f bit =? 0).

(** The byte offset of [inum] in its inode block. *)
Definition dinode_off (inum : Z) : nat := Z.to_nat (SIZEOF_DINODE * (inum mod IPB)).

Definition ilock (ip : Z) : M fsys unit :=
  if ip =? NULLP then panic "ilock" else
  x <- get_inode ip ;;
  if i_ref x <? 1 then panic "ilock" else
  if i_prt x =? NULLP then panic "ilock no partition" else
  if has_flag (i_flags x) I_BUSY then sleep_on "inode" else
  upd_inode ip (fun x => set_iflags (Z.lor (i_flags x) I_BUSY) x) ;;;
  sb <- readsb (i_prt x) ;;
  if has_flag (i_flags x) I_VALID then ret tt else
  part <- part_at (i_prt x) ;;
  bp <- bread (p_dev part) (IBLOCK (i_inum x) sb) ;;
  d <- get_data bp ;;
  let di := dinode_of (dinode_off (i_inum x)) d in
  upd_inode ip (set_di di) ;;;
  brelse bp ;;;
  upd_inode ip (fun x => set_iflags (Z.lor (i_flags x) I_VALID) x) ;;;
  if di_type di =? 0 then panic "ilock: no type" else ret tt.

Definition iunlock (ip : Z) : M fsys unit :=
  if ip =? NULLP then panic "iunlock" else
  x <- get_inode ip ;;
  if negb (has_flag (i_flags x) I_BUSY) || (i_ref x <? 1) then panic "iunlock" else
  upd_inode ip (fun x => set_iflags (Z.land (i_flags x) (Z.lnot I_BUSY)) x).

Definition iupdate (ip : Z) : M fsys unit :=
  x <- get_inode ip ;;
  sb <- readsb (i_prt x) ;;
  part <- part_at (i_prt x) ;;
  bp <- bread (p_dev part) (IBLOCK (i_inum x) sb) ;;
  d <- get_data bp ;;
  put_data bp (put_dinode (dinode_off (i_inum x)) (i_di x) d) ;;;
  log_write bp ;;;
  brelse bp.

Definition ialloc (prt type : Z) : M fsys Z :=
  part <- part_at prt ;;
  let dev := p_dev part in
  sb <- readsb prt ;;
  r <- for_ (Z.to_nat (sb_ninodes sb - 1)) 1 (fun inum =>
    bp <- bread dev (IBLOCK inum sb) ;;
    d <- get_data bp ;;
    if di_type (dinode_of (dinode_off inum) d) =? 0 then
      put_data bp (put16 (dinode_off inum) type
        (bsplice (dinode_off inum) (replicate (Z.to_nat SIZEOF_DINODE) 0) d)) ;;;
      log_write bp ;;;
      brelse bp ;;;
      ip <- iget prt inum ;; ret (Some ip)
    else brelse bp ;;; ret None) ;;
  match r with
  | Some ip => ret ip
  | None => panic "ialloc: no inodes"
  end.

(** ** The contents of an inode *)

Definition upd_di (ip : Z) (f : dinode -> dinode) : M fsys unit := upd_inode ip (fun x => set_di (f (i_di x)) x).

Definition bmap (ip bn : Z) : M fsys Z :=
  x <- get_inode ip ;;
  if bn <? NDIRECT then
    let addr := addr_at (i_di x) bn in
    if addr =? 0 then addr <- balloc (i_prt x) ;; upd_di ip (set_addr bn addr) ;;; ret addr
    else ret addr
  else
  let bn := bn - NDIRECT in
  if bn <? NINDIRECT then
    addr <- (let addr := addr_at (i_di x) NDIRECT in
             if addr =? 0 then addr <- balloc (i_prt x) ;; upd_di ip (set_addr NDIRECT addr) ;;; ret addr
             else ret addr) ;;
    part <- part_at (i_prt x) ;;
    bp <- bread (p_dev part) addr ;;
    a <- get_data bp ;;
    let addr := get32 (Z.to_nat (4 * bn)) a in
    addr <- (if addr =? 0 then
               addr <- balloc (i_prt x) ;;
               put_data bp (put32 (Z.to_nat (4 * bn)) addr a) ;;;
               log_write bp ;;; ret addr
             else ret addr) ;;
    brelse bp ;;;
    ret addr
  else panic "bmap: out of range".

Definition itrunc (ip : Z) : M fsys unit :=
  x <- get_inode ip ;;
  for_each (Z.to_nat NDIRECT) 0 (fun i =>
    x <- get_inode ip ;;
    if addr_at (i_di x) i =? 0 then ret tt
    else bfree (i_prt x) (addr_at (i_di x) i) ;;; upd_di ip (set_addr i 0)) ;;;
  (if addr_at (i_di x) NDIRECT =? 0 then ret tt else
   part <- part_at (i_prt x) ;;
   bp <- bread (p_dev part) (addr_at (i_di x) NDIRECT) ;;
   a <- get_data bp ;;
   for_each (Z.to_nat NINDIRECT) 0 (fun j =>
     if get32 (Z.to_nat (4 * j)) a =? 0 then ret tt else bfree (i_prt x) (get32 (Z.to_nat (4 * j)) a)) ;;;
   brelse bp ;;;
   bfree (i_prt x) (addr_at (i_di x) NDIRECT) ;;;
   upd_di ip (set_addr NDIRECT 0)) ;;;
  upd_di ip (set_size 0) ;;;
  iupdate ip.

Definition iput (ip : Z) : M fsys unit :=
  x <- get_inode ip ;;
  (if (i_ref x =? 1) && has_flag (i_flags x) I_VALID && (di_nlink (i_di x) =? 0) then
     if has_flag (i_flags x) I_BUSY then panic "iput busy" else
     upd_inode ip (fun x => set_iflags (Z.lor (i_flags x) I_BUSY) x) ;;;
     itrunc ip ;;;
     upd_di ip (set_type 0) ;;;
     iupdate ip ;;;
     upd_inode ip (set_iflags 0)
   else ret tt) ;;;
  upd_inode ip (fun x => set_ref (i_ref x - 1) x).

Definition iunlockput (ip : Z) : M fsys unit := iunlock ip ;;; iput ip.

Definition iinit (dev : Z) : M fsys unit :=
  readmbr dev ;;;
  b <- gets f_boot ;;
  readsb b ;;;
  ip <- iget b ROOTINO ;;
  modify (with_cwd ip).
End Fs.

Section Files.
Context {S : Type} `{Blocks S}.
Abbreviation fs := (fsys (S := S)).

(** [devsw]: the read and write routines of the device drivers. *)
Variable dev_read : Z -> option (Z -> Z -> M fs (Z * list Z)).
Variable dev_write : Z -> option (Z -> list Z -> M fs Z).

Record stat := mkStat { st_dev : Z; st_ino : Z; st_type : Z; st_nlink : Z; st_size : Z; st_prti : Z }.
Definition stati (ip : Z) : M fs stat :=
  x <- get_inode ip ;;
  part <- part_at (i_prt x) ;;
  ret (mkStat (p_dev part) (i_inum x) (di_type (i_di x)) (di_nlink (i_di x)) (di_size (i_di x)) (i_prt x)).

(** ** Reading and writing *)

(** [for(tot=0; tot<n; tot+=m, off+=m, dst+=m)]: the bytes delivered. *)
Fixpoint readi_loop (fuel : nat) (ip dev off n tot : Z) : M fs (list Z) :=
  if tot <? n then
    match fuel with
    | O => nofuel
    | Datatypes.S fuel' =>
        b <- bmap ip (off / BSIZE) ;;
        bp <- bread dev b ;;
        let m := Z.min (n - tot) (BSIZE - off mod BSIZE) in
        x <- get_data bp ;;
        brelse bp ;;;
        rest <- readi_loop fuel' ip dev (u32 (off + m)) n (tot + m) ;;
        ret (bslice (Z.to_nat (off mod BSIZE)) (Z.to_nat m) x ++ rest)
    end
  else ret [].
(** Every round but the first and the last moves a whole block. *)
Definition rounds (n : Z) : nat := Z.to_nat (n / BSIZE + 2).
Definition readi (ip off n : Z) : M fs (Z * list Z) :=
  x <- get_inode ip ;;
  if di_type (i_di x) =? T_DEV then
    if (di_major (i_di x) <? 0) || (di_major (i_di x) >=? NDEV) then ret (-1, []) else
    match dev_read (di_major (i_di x)) with None => ret (-1, []) | Some f => f ip n end
  else
  let size := di_size (i_di x) in
  if (off >? size) || (u32 (off + n) <? off) then ret (-1, []) else
  let n := if u32 (off + n) >? size then size - off else n in
  part <- part_at (i_prt x) ;;
  out <- readi_loop (rounds n) ip (p_dev part) off n 0 ;;
  ret (s32 n, out).

Fixpoint writei_loop (fuel : nat) (ip dev off n tot : Z) (src : list Z) : M fs Z :=
  if tot <? n then
    match fuel with
    | O => nofuel
    | Datatypes.S fuel' =>
        b <- bmap ip (off / BSIZE) ;;
        bp <- bread dev b ;;
        let m := Z.min (n - tot) (BSIZE - off mod BSIZE) in
        x <- get_data bp ;;
        put_data bp (bsplice (Z.to_nat (off mod BSIZE)) (take (Z.to_nat m) src) x) ;;;
        log_write bp ;;;
        brelse bp ;;;
        writei_loop fuel' ip dev (off + m) n (tot + m) (drop (Z.to_nat m) src)
    end
  else ret off.
(** [src] holds the [n] bytes to write. *)
Definition writei (ip : Z) (src : list Z) (off n : Z) : M fs Z :=
  x <- get_inode ip ;;
  if di_type (i_di x) =? T_DEV then
    if (di_major (i_di x) <? 0) || (di_major (i_di x) >=? NDEV) then ret (-1) else
    match dev_write (di_major (i_di x)) with None => ret (-1) | Some f => f ip src end
  else
  if (off >? di_size (i_di x)) || (u32 (off + n) <? off) then ret (-1) else
  if u32 (off + n) >? MAXFILE * BSIZE then ret (-1) else
  part <- part_at (i_prt x) ;;
  off <- writei_loop (rounds n) ip (p_dev part) off n 0 src ;;
  x <- get_inode ip ;;
  (if (n >? 0) && (off >? di_size (i_di x)) then upd_di ip (set_size off) ;;; iupdate ip else ret tt) ;;;
  ret n.

(** ** Directories *)

(** [strncmp] on byte arrays; the end of the list stands for the terminator. *)
Fixpoint strncmp (n : nat) (s t : list Z) : Z :=
  match n with
  | O => 0
  | Datatypes.S n' =>
      let a := hd 0 s in let b := hd 0 t in
      if negb (a =? 0) && (a =? b) then strncmp n' (tl s) (tl t) else a - b
  end.
Definition namecmp (s t : list Z) : Z := strncmp (Z.to_nat DIRSIZ) s t.

Fixpoint mount_scan (inum prt : Z) (l : list mount_point) : option Z :=
  match l with
  | [] => None
  | it :: l' => if (mp_old_i it =? inum) && (mp_old_prt it =? prt) then Some (mp_prt it) else mount_scan inum prt l'
  end.
(** The partition mounted on an inode, if any. *)
Definition is_inode_mounted (ip : Z) : M fs (option Z) :=
  x <- get_inode ip ;;
  gets (fun s => mount_scan (i_inum x) (i_prt x) (f_mounts s)).

(** Rounds of a loop over the entries of a directory. *)
Definition entries (size : Z) : nat := Z.to_nat ((size + SIZEOF_DIRENT - 1) / SIZEOF_DIRENT).

(** The inode found ([NULLP]: none) and the offset of its entry. *)
Definition dirlookup (dp : Z) (name : list Z) : M fs (Z * Z) :=
  flag <- is_inode_mounted dp ;;
  dp <- match flag with Some mnt_prt => iget mnt_prt ROOTINO | None => ret dp end ;;
  x <- get_inode dp ;;
  if negb (di_type (i_di x) =? T_DIR) then panic "dirlookup not DIR" else
  r <- for_ (entries (di_size (i_di x))) 0 (fun k =>
    let off := k * SIZEOF_DIRENT in
    rv <- readi dp off SIZEOF_DIRENT ;; let (r, bytes) := rv in
    if negb (r =? SIZEOF_DIRENT) then panic "dirlink read" else
    let de := dirent_of bytes in
    if de_inum de =? 0 then ret None else
    if namecmp name (de_name de) =? 0 then
      ip <- iget (i_prt x) (de_inum de) ;; ret (Some (ip, off))
    else ret None) ;;
  match r with
  | Some p => ret p
  | None => ret (NULLP, 0)
  end.

(** [strncpy(de.name, name, DIRSIZ)] *)
Definition name_field (name : list Z) : list Z := take (Z.to_nat DIRSIZ) (name ++ replicate (Z.to_nat DIRSIZ) 0).

Definition dirlink (dp : Z) (name : list Z) (inum : Z) : M fs Z :=
  rv <- dirlookup dp name ;; let (ip, _) := rv in
  if negb (ip =? NULLP) then iput ip ;;; ret (-1) else
  x <- get_inode dp ;;
  r <- for_ (entries (di_size (i_di x))) 0 (fun k =>
    let off := k * SIZEOF_DIRENT in
    rv <- readi dp off SIZEOF_DIRENT ;; let (r, bytes) := rv in
    if negb (r =? SIZEOF_DIRENT) then panic "dirlink read" else
    if de_inum (dirent_of bytes) =? 0 then ret (Some off) else ret None) ;;
  let off := match r with Some off => off | None => Z.of_nat (entries (di_size (i_di x))) * SIZEOF_DIRENT end in
  w <- writei dp (dirent_bytes (mkDe inum (name_field name))) off SIZEOF_DIRENT ;;
  if negb (w =? SIZEOF_DIRENT) then panic "dirlink" else ret 0.

(** ** Paths *)

Definition SLASH : Z := 47.
Fixpoint skip_slashes (path : list Z) : list Z :=
  match path with c :: path' => if c =? SLASH then skip_slashes path' else path | [] => [] end.
Fixpoint span_elem (path : list Z) : list Z * list Z :=
  match path with
  | c :: path' => if c =? SLASH then ([], path) else let (e, r) := span_elem path' in (c :: e, r)
  | [] => ([], [])
  end.
(** The rest of the path and the new contents of the buffer [name]; a path is
    the bytes before its terminator. *)
Definition skipelem (path name : list Z) : option (list Z * list Z) :=
  match skip_slashes path with
  | [] => None
  | path =>
      let (e, rest) := span_elem path in
      let len := Z.of_nat (length e) in
      let name := if len >=? DIRSIZ then bsplice 0 (take (Z.to_nat DIRSIZ) e) name
                  else bsplice 0 (e ++ [0]) name in
      Some (skip_slashes rest, name)
  end.

Fixpoint find_mp_from (path : list Z) (i : nat) (l : list mount_point) : option nat :=
  match l with
  | [] => None
  | it :: l' => if namecmp path (mp_path it) =? 0 then Some i else find_mp_from path (Datatypes.S i) l'
  end.
Definition find_mp (path : list Z) : M fs (option nat) := gets (fun s => find_mp_from path 0 (f_mounts s)).
Definition is_mounted (path : list Z) : M fs bool :=
  o <- find_mp path ;; ret (match o with Some _ => true | None => false end).

(** The root of the partition mounted on an inode, or null. *)
Definition check_mounted (ip : Z) : M fs Z :=
  flag <- is_inode_mounted ip ;;
  match flag with Some mnt_prt => iget mnt_prt ROOTINO | None => ret NULLP end.

Fixpoint namex_loop (fuel : nat) (ip : Z) (path : list Z) (nameiparent : bool) (name : list Z) : M fs (Z * list Z) :=
  match skipelem path name with
  | None => if nameiparent then iput ip ;;; ret (NULLP, name) else ret (ip, name)
  | Some (path', name') =>
      match fuel with
      | O => nofuel
      | Datatypes.S fuel' =>
          ilock ip ;;;
          x <- get_inode ip ;;
          if negb (di_type (i_di x) =? T_DIR) then iunlockput ip ;;; ret (NULLP, name') else
          if nameiparent && bool_decide (path' = []) then
            tmp <- check_mounted ip ;;
            iunlock ip ;;;
            ret (if tmp =? NULLP then ip else tmp, name')
          else
          rv <- dirlookup ip name' ;; let (next, _) := rv in
          if next =? NULLP then iunlockput ip ;;; ret (NULLP, name') else
          iunlockput ip ;;;
          namex_loop fuel' next path' nameiparent name'
      end
  end.
(** Each round consumes at least one character of the path. *)
Definition namex (path : list Z) (nameiparent : bool) (name : list Z) : M fs (Z * list Z) :=
  mounted <- is_mounted path ;;
  if mounted : bool then
    o <- find_mp path ;;
    i <- of_option "find_mp" o ;;
    mp <- (fun s => match f_mounts s !! i with Some mp => Done mp s | None => Fault "mount point" end) ;;
    ip <- iget (mp_prt mp) ROOTINO ;;
    namex_loop 2 ip [SLASH] nameiparent name
  else
  ip <- (if hd 0 path =? SLASH then b <- gets f_boot ;; iget b ROOTINO
         else c <- gets f_cwd ;; idup c) ;;
  namex_loop (Datatypes.S (length path)) ip path nameiparent name.

(** The caller's [char name[DIRSIZ]] starts out with whatever is on the stack. *)
Definition namei (junk path : list Z) : M fs Z := rv <- namex path false junk ;; let (ip, _) := rv in ret ip.
Definition nameiparent (path name : list Z) : M fs (Z * list Z) := namex path true name.

(** ** Mounting *)

Fixpoint mp_free (i : nat) (l : list mount_point) : option nat :=
  match l with [] => None | it :: l' => if mp_taken it =? 0 then Some i else mp_free (Datatypes.S i) l' end.
Definition mpalloc : M fs (option nat) :=
  o <- gets (fun s => mp_free 0 (f_mounts s)) ;;
  match o with
  | None => ret None
  | Some i =>
      modify (fun s => with_mounts
        (alter (fun it => mkMp 1 (mp_path it) (mp_prt it) (mp_old_i it) (mp_old_prt it)) i (f_mounts s)) s) ;;;
      ret (Some i)
  end.
(** [&partitions[i]] is an address of the array, or the one behind it, or undefined. *)
Definition partition_at (i : Z) : M fs Z :=
  if (i <? 0) || (NPARTITIONS <? i) then fault "partitions" else ret i.
Definition mount (junk path : list Z) (i : Z) : M fs Z :=
  ip <- namei junk path ;;
  if ip =? NULLP then ret (-1) else
  mounted <- is_mounted path ;;
  if mounted : bool then ret (-1) else
  o <- mpalloc ;;
  match o with
  | None => ret (-1)
  | Some pnt =>
      prt <- partition_at i ;;
      x <- get_inode ip ;;
      modify (fun s => with_mounts
        (alter (fun it => mkMp (mp_taken it) (bsplice 0 (take (Z.to_nat DIRSIZ) path) (mp_path it))
                               prt (i_inum x) (i_prt x)) pnt (f_mounts s)) s) ;;;
      ret 0
  end.
End Files.
