(* ===== verification/Balloc.v ===== *)
(** * The block allocator of fs.c: [readsb], [bzero], [balloc], [bfree]

    Everything is proved against the interface of Blocks.v: what the calls do to the
    client's view of the disk and to the set of blocks in the transaction. *)

From S2P Require Import Prelude Buf Bio Blocks Fs.

Section Lift.
Context {S : Type} `{BK : Blocks S}.
Abbreviation fs := (fsys (S := S)).
Implicit Type (s : fs) (a : cache).

(** The block layer moved to the view [a]; the rest of the state is as in [s]. *)
Definition moved (e : benv) (s : fs) (a : cache) (s' : fs) : Prop :=
  exists b, s' = with_blk b s /\ k_rep e b a.

Lemma moved_start e s a : k_rep e (f_blk s) a -> moved e s a s.
Proof. intros Hr. exists (f_blk s). split; [by destruct s|done]. Qed.
Lemma moved_trans e s a1 s1 a2 s2 : moved e s a1 s1 -> moved e s1 a2 s2 -> moved e s a2 s2.
Proof. intros (b1 & -> & _) (b2 & -> & Hr). exists b2. by split. Qed.
Lemma moved_rep e s a s' : moved e s a s' -> k_rep e (f_blk s') a.
Proof. by intros (b & -> & Hr). Qed.
Lemma moved_parts e s a s' : moved e s a s' -> f_parts s' = f_parts s.
Proof. by intros (b & -> & Hr). Qed.
Lemma moved_icache e s a s' : moved e s a s' -> f_icache s' = f_icache s.
Proof. by intros (b & -> & Hr). Qed.

(** Blocks that may be read: usable and not held by the caller. *)
Definition readable (e : benv) (a : cache) (n : Z) : Prop :=
  be_ok e n /\ (forall i, c_held a !! i <> Some (be_dev e, n)) /\ room a (be_dev e, n).

Lemma bread_rule {A} e s0 a s n (k : Z -> M fs A) (Q : A -> fs -> Prop) :
  moved e s0 a s -> readable e a n ->
  (forall i s', c_held a !! i = None -> moved e s0 (hold i (be_dev e, n) a) s' -> wp (k i) Q s') ->
  wp (bp <- bread (be_dev e) n ;; k bp) Q s.
Proof.
  intros Hm (Hok & Hh & Hroom) HQ. apply wp_bind, wp_lift.
  eapply wp_mono; [apply k_bread_ok; [by apply (moved_rep _ s0)|done..]|].
  intros i b [Hi Hr]. apply HQ; [done|]. eapply moved_trans; [exact Hm|]. by exists b.
Qed.
Lemma get_rule {A} e s0 a s i n (k : list Z -> M fs A) (Q : A -> fs -> Prop) :
  moved e s0 a s -> c_held a !! i = Some n ->
  wp (k (view_at (c_view a) n)) Q s -> wp (x <- get_data i ;; k x) Q s.
Proof.
  intros Hm Hi HQ. apply wp_bind, wp_lift. eapply wp_mono; [apply (k_get_ok e _ a); [by apply (moved_rep _ s0)|done]|].
  intros x b [-> ->]. replace (with_blk (f_blk s) s) with s by (by destruct s). done.
Qed.
Lemma put_rule {A} e s0 a s i n x (k : M fs A) (Q : A -> fs -> Prop) :
  moved e s0 a s -> c_held a !! i = Some n -> blk_ok x ->
  (forall s', moved e s0 (touch n x a) s' -> wp k Q s') -> wp (put_data i x ;;; k) Q s.
Proof.
  intros Hm Hi Hx HQ. apply wp_bind, wp_lift. eapply wp_mono; [apply (k_put_ok e _ a i n); [by apply (moved_rep _ s0)|done..]|].
  intros [] b Hr. apply HQ. eapply moved_trans; [exact Hm|]. by exists b.
Qed.
Lemma log_rule {A} e s0 a s i n (k : M fs A) (Q : A -> fs -> Prop) :
  moved e s0 a s -> c_held a !! i = Some (be_dev e, n) -> be_ok e n -> (size (c_pinned a) < be_cap e)%nat ->
  (forall s', moved e s0 (pin (be_dev e, n) a) s' -> wp k Q s') -> wp (log_write i ;;; k) Q s.
Proof.
  intros Hm Hi Hok Hc HQ. apply wp_bind, wp_lift. eapply wp_mono; [apply (k_log_write_ok e _ a i n); [by apply (moved_rep _ s0)|done..]|].
  intros [] b Hr. apply HQ. eapply moved_trans; [exact Hm|]. by exists b.
Qed.
Lemma wp_brelse_last e s0 a s i n (Q : unit -> fs -> Prop) :
  moved e s0 a s -> c_held a !! i = Some n -> n ∉ c_touched a ->
  (forall s', moved e s0 (release i a) s' -> Q tt s') -> wp (brelse i) Q s.
Proof.
  intros Hm Hi Ht HQ. apply wp_lift. eapply wp_mono; [apply (k_brelse_ok e _ a i n); [by apply (moved_rep _ s0)|done..]|].
  intros [] b Hr. apply HQ. eapply moved_trans; [exact Hm|]. by exists b.
Qed.
Lemma brelse_rule {A} e s0 a s i n (k : M fs A) (Q : A -> fs -> Prop) :
  moved e s0 a s -> c_held a !! i = Some n -> n ∉ c_touched a ->
  (forall s', moved e s0 (release i a) s' -> wp k Q s') -> wp (brelse i ;;; k) Q s.
Proof. intros Hm Hi Ht HQ. apply wp_bind. by eapply wp_brelse_last. Qed.

(** ** Reading a block, and writing one in the transaction *)

Lemma release_hold i k a : c_held a !! i = None -> release i (hold i k a) = a.
Proof. intros Hi. destruct a. unfold release, hold. simpl in *. f_equal. by apply delete_insert_id. Qed.

(** The view after block [k] was overwritten with [x] and logged. *)
Definition logged (k : Z * Z) (x : list Z) (a : cache) : cache :=
  mkCache (upd_blk (c_view a) k.1 k.2 x) (c_held a) (c_touched a) ({[k]} ∪ c_pinned a).

Lemma release_logged i k x a : c_held a !! i = None -> k ∉ c_touched a ->
  release i (pin k (touch k x (hold i k a))) = logged k x a.
Proof.
  intros Hi Ht. destruct a. unfold release, pin, touch, hold, logged. simpl in *. f_equal; [by apply delete_insert_id|].
  set_solver.
Qed.

Lemma wp_peek {A} e s0 a s n (k : list Z -> M fs A) (Q : A -> fs -> Prop) :
  moved e s0 a s -> readable e a n -> (be_dev e, n) ∉ c_touched a ->
  (forall s', moved e s0 a s' -> wp (k (c_view a (be_dev e) n)) Q s') ->
  wp (bp <- bread (be_dev e) n ;; x <- get_data bp ;; brelse bp ;;; k x) Q s.
Proof.
  intros Hm Hn Ht HQ. eapply bread_rule; [done..|]. intros i s1 Hi Hm1.
  eapply get_rule; [exact Hm1|by apply lookup_insert_eq|].
  eapply brelse_rule; [exact Hm1|by apply lookup_insert_eq|done|]. intros s2 Hm2.
  rewrite release_hold in Hm2 by done. by apply HQ.
Qed.
End Lift.

(** ** A partition *)

Section Part.
Context {S : Type} `{BK : Blocks S}.
Abbreviation fs := (fsys (S := S)).
Implicit Type (s : fs) (a : cache).
Variables (e : benv) (pi : Z) (part : partition).
Abbreviation dev := (be_dev e).

(** Partition number [pi] is [part], on the device of the log. *)
Definition on_part s : Prop := 0 <= pi /\ f_parts s !! Z.to_nat pi = Some part /\ p_dev part = dev.
(** Its super block, with absolute block numbers, as [readsb] delivers it. *)
Definition part_sb a : superblock :=
  let sb := sb_of (c_view a dev (dp_offset (p_prt part))) in let o := dp_offset (p_prt part) in
  mkSb (sb_size sb) (sb_nblocks sb) (sb_ninodes sb) (sb_nlog sb)
       (u32 (sb_logstart sb + o)) (u32 (sb_inodestart sb + o)) (u32 (sb_bmapstart sb + o)).
Definition offset : Z := dp_offset (p_prt part).
Definition pt_bmapno a : Z := sb_bmapstart (part_sb a).
Definition pt_bitmap a : list Z := c_view a dev (pt_bmapno a).
(** The disk block that bit [i] of the bitmap stands for. *)
Definition pt_blk a (i : Z) : Z := pt_bmapno a + 1 + i.

Lemma on_part_moved s a s' : moved e s a s' -> on_part s -> on_part s'.
Proof. intros Hm. unfold on_part. by rewrite (moved_parts _ _ _ _ Hm). Qed.

Lemma wp_part_at {A} s (k : partition -> M fs A) (Q : A -> fs -> Prop) :
  on_part s -> wp (k part) Q s -> wp (x <- part_at pi ;; k x) Q s.
Proof.
  intros (Hpi & Hp & _) HQ. apply wp_bind. unfold part_at, wp.
  destruct (Z.ltb_spec pi 0); [lia|]. by rewrite Hp.
Qed.

(** No block the caller holds is [n], and there is a buffer for it. *)
Definition quietly a (n : Z) : Prop :=
  be_ok e n /\ (forall i, c_held a !! i <> Some (dev, n)) /\ (dev, n) ∉ c_touched a.
Lemma quietly_readable a n : quietly a n -> (size (kept a) < Z.to_nat NBUF)%nat -> readable e a n.
Proof. intros (Hok & Hh & _) Hs. split_and!; try done. by right. Qed.

Lemma wp_readsb {A} s0 a s (k : superblock -> M fs A) (Q : A -> fs -> Prop) :
  moved e s0 a s -> on_part s0 -> quietly a offset -> (size (kept a) < Z.to_nat NBUF)%nat ->
  (forall s', moved e s0 a s' -> wp (k (part_sb a)) Q s') -> wp (sb <- readsb pi ;; k sb) Q s.
Proof.
  intros Hm Hon Hq Hk HQ. apply wp_bind. unfold readsb. apply wp_part_at; [by eapply on_part_moved|].
  destruct Hon as (_ & _ & ->). cbv zeta. eapply wp_peek; [done|by apply quietly_readable|apply Hq|].
  intros s' Hm'. apply wp_ret. by apply HQ.
Qed.

Lemma kept_hold i k a : kept (hold i k a) ⊆ {[k]} ∪ kept a.
Proof.
  unfold kept. simpl. intros x [Hx|Hx]%elem_of_union; [set_solver|].
  apply elem_of_map_img in Hx as [j Hj]. destruct (decide (j = i)) as [-> |Hne].
  - rewrite lookup_insert_eq in Hj. injection Hj as ->. set_solver.
  - rewrite lookup_insert_ne in Hj by done. apply elem_of_union_r, elem_of_union_r, elem_of_map_img. eauto.
Qed.
Lemma kept_logged k x a : kept (logged k x a) = {[k]} ∪ kept a.
Proof. unfold kept, logged. simpl. set_solver. Qed.
Lemma size_add (k : Z * Z) (X Y : gset (Z * Z)) : Y ⊆ {[k]} ∪ X -> (size Y <= Datatypes.S (size X))%nat.
Proof.
  intros HY. etransitivity; [by apply subseteq_size|]. rewrite size_union_alt, size_singleton.
  pose proof (subseteq_size (X ∖ {[k]}) X ltac:(set_solver)). lia.
Qed.

(** A whole write: read the block, replace its contents, log it, release it. *)
Lemma wp_rewrite {A} s0 a s n (f : list Z -> list Z) (k : M fs A) (Q : A -> fs -> Prop) :
  moved e s0 a s -> quietly a n -> (size (kept a) < Z.to_nat NBUF)%nat -> (size (c_pinned a) < be_cap e)%nat ->
  blk_ok (f (c_view a dev n)) ->
  (forall s', moved e s0 (logged (dev, n) (f (c_view a dev n)) a) s' -> wp k Q s') ->
  wp (bp <- bread dev n ;; x <- get_data bp ;; put_data bp (f x) ;;; log_write bp ;;; brelse bp ;;; k) Q s.
Proof.
  intros Hm Hq Hk Hc Hf HQ. pose proof Hq as (Hok & _ & Ht).
  eapply bread_rule; [done|by apply quietly_readable|]. intros i s1 Hi Hm1.
  eapply get_rule; [exact Hm1|by apply lookup_insert_eq|].
  eapply put_rule; [exact Hm1|by apply lookup_insert_eq|exact Hf|]. intros s2 Hm2.
  eapply log_rule; [exact Hm2|by apply lookup_insert_eq|done|done|]. intros s3 Hm3.
  eapply brelse_rule; [exact Hm3|by apply lookup_insert_eq|simpl; set_solver|]. intros s4 Hm4.
  rewrite release_logged in Hm4 by done. by apply HQ.
Qed.

Lemma wp_bzero {A} s0 a s n (k : M fs A) (Q : A -> fs -> Prop) :
  moved e s0 a s -> quietly a n -> (size (kept a) < Z.to_nat NBUF)%nat -> (size (c_pinned a) < be_cap e)%nat ->
  (forall s', moved e s0 (logged (dev, n) zero_blk a) s' -> wp k Q s') ->
  wp (bzero dev n ;;; k) Q s.
Proof.
  intros Hm Hq Hk Hc HQ. pose proof Hq as (Hok & _ & Ht). apply wp_bind. unfold bzero.
  eapply bread_rule; [done|by apply quietly_readable|]. intros i s1 Hi Hm1.
  eapply put_rule; [exact Hm1|by apply lookup_insert_eq|apply zero_blk_ok|]. intros s2 Hm2.
  eapply log_rule; [exact Hm2|by apply lookup_insert_eq|done|done|]. intros s3 Hm3.
  eapply wp_brelse_last; [exact Hm3|by apply lookup_insert_eq|simpl; set_solver|]. intros s4 Hm4.
  rewrite release_logged in Hm4 by done. by apply HQ.
Qed.

End Part.

(** ** Bits *)

Lemma bit_byte (x : list Z) bi : 0 <= bi -> bit_of x bi = Z.testbit (nth (Z.to_nat (bi / 8)) x 0) (bi mod 8).
Proof.
  intros Hb. unfold bit_of. set (w := nth _ x 0). pose proof (Z.mod_pos_bound bi 8 ltac:(lia)) as Hm.
  rewrite Z.shiftl_1_l. destruct (Z.testbit w (bi mod 8)) eqn:E.
  - apply negb_true_iff, Z.eqb_neq. intros Hz. assert (Z.testbit (Z.land w (2 ^ (bi mod 8))) (bi mod 8) = true) as Hx.
    { by rewrite Z.land_spec, E, Z.pow2_bits_true by lia. }
    by rewrite Hz, Z.bits_0 in Hx.
  - apply negb_false_iff, Z.eqb_eq. apply Z.bits_inj'. intros k Hk. rewrite Z.land_spec, Z.bits_0.
    destruct (decide (k = bi mod 8)) as [-> |Hne]; [by rewrite E|].
    rewrite Z.pow2_bits_false by done. apply andb_false_r.
Qed.

Definition bit_index (i : Z) : Prop := 0 <= i < BPB.

Lemma nth_insert (l : list Z) i j v : (i < length l)%nat ->
  nth j (<[i := v]> l) 0 = if decide (j = i) then v else nth j l 0.
Proof.
  intros Hi. rewrite !nth_lookup. destruct (decide (j = i)) as [-> |Hne].
  - by rewrite list_lookup_insert_eq.
  - by rewrite list_lookup_insert_ne.
Qed.

Lemma bit_byte_range i : bit_index i -> (Z.to_nat (i / 8) < BSIZEn)%nat.
Proof. unfold bit_index, BPB, BSIZE. intros. apply Nat2Z.inj_lt. rewrite Z2Nat.id by zlia. zlia. Qed.

(** Two bits are the same bit when byte and position agree. *)
Lemma bit_same i j : 0 <= i -> 0 <= j -> Z.to_nat (i / 8) = Z.to_nat (j / 8) -> i mod 8 = j mod 8 -> i = j.
Proof. intros Hi Hj Hd Hm. apply Z2Nat.inj in Hd; zlia. Qed.

Lemma bit_set_bit x i j : length x = BSIZEn -> bit_index i -> bit_index j ->
  bit_of (set_bit x i) j = bool_decide (j = i) || bit_of x j.
Proof.
  intros Hl Hi Hj. pose proof (bit_byte_range i Hi). rewrite !bit_byte by apply Hj. unfold set_bit.
  rewrite nth_insert by lia. pose proof (Z.mod_pos_bound i 8 ltac:(lia)). pose proof (Z.mod_pos_bound j 8 ltac:(lia)).
  case_decide as Hb.
  - rewrite <- Hb, Z.lor_spec, Z.shiftl_1_l, Z.pow2_bits_eqb by lia. rewrite orb_comm. f_equal.
    destruct (Z.eqb_spec (i mod 8) (j mod 8)) as [E|E].
    + rewrite (bit_same i j); [by rewrite bool_decide_true|apply Hi|apply Hj|done|done].
    + rewrite bool_decide_false; [done|]. by intros ->.
  - rewrite bool_decide_false; [done|]. by intros ->.
Qed.

Lemma bit_clear_bit x i j : length x = BSIZEn -> bit_index i -> bit_index j ->
  bit_of (clear_bit x i) j = negb (bool_decide (j = i)) && bit_of x j.
Proof.
  intros Hl Hi Hj. pose proof (bit_byte_range i Hi). rewrite !bit_byte by apply Hj. unfold clear_bit.
  rewrite nth_insert by lia. pose proof (Z.mod_pos_bound i 8 ltac:(lia)). pose proof (Z.mod_pos_bound j 8 ltac:(lia)).
  case_decide as Hb.
  - unfold u8. rewrite <- Hb, Z.land_spec, Z.mod_pow2_bits_low by lia.
    rewrite Z.lnot_spec, Z.shiftl_1_l, Z.pow2_bits_eqb by lia. rewrite andb_comm. f_equal. f_equal.
    destruct (Z.eqb_spec (i mod 8) (j mod 8)) as [E|E].
    + rewrite (bit_same i j); [by rewrite bool_decide_true|apply Hi|apply Hj|done|done].
    + rewrite bool_decide_false; [done|]. by intros ->.
  - rewrite bool_decide_false; [done|]. by intros ->.
Qed.

Lemma nth_byte x n : bytes_ok x -> is_byte (nth n x 0).
Proof.
  intros Hx. rewrite nth_lookup. destruct (x !! n) as [b|] eqn:E; simpl; [|unfold is_byte; lia].
  by eapply (Forall_lookup_1 is_byte).
Qed.
Lemma byte_mod a : is_byte a <-> a mod 2 ^ 8 = a.
Proof.
  unfold is_byte. split; [intros; by apply Z.mod_small|]. intros <-. by apply Z.mod_pos_bound.
Qed.
Lemma lor_byte a b : is_byte a -> is_byte b -> is_byte (Z.lor a b).
Proof.
  rewrite !byte_mod. intros Ha Hb. rewrite <- Ha, <- Hb at 2. apply Z.bits_inj'. intros k Hk.
  rewrite Z.lor_spec. destruct (decide (k < 8)).
  - by rewrite !Z.mod_pow2_bits_low, Z.lor_spec by lia.
  - by rewrite !Z.mod_pow2_bits_high by lia.
Qed.
Lemma land_is_byte a b : is_byte a -> is_byte (Z.land a b).
Proof.
  rewrite !byte_mod. intros Ha. rewrite <- Ha at 2. apply Z.bits_inj'. intros k Hk.
  rewrite Z.land_spec. destruct (decide (k < 8)).
  - by rewrite !Z.mod_pow2_bits_low, Z.land_spec by lia.
  - by rewrite !Z.mod_pow2_bits_high by lia.
Qed.
Lemma pow_byte k : 0 <= k < 8 -> is_byte (Z.shiftl 1 k).
Proof.
  intros Hk. rewrite Z.shiftl_1_l. unfold is_byte. split; [lia|]. change 256 with (2 ^ 8). apply Z.pow_lt_mono_r; lia.
Qed.

Lemma blk_ok_insert x n v : blk_ok x -> is_byte v -> blk_ok (<[n := v]> x).
Proof.
  intros [Hl Hb] Hv. split; [by rewrite length_insert|]. apply Forall_lookup_2. intros j y.
  rewrite list_lookup_insert_Some. intros [(_ & <- & _)|[_ Hy]]; [done|]. by eapply Forall_lookup_1.
Qed.
Lemma set_bit_ok x i : blk_ok x -> blk_ok (set_bit x i).
Proof.
  intros Hx. apply blk_ok_insert; [done|]. apply lor_byte; [by apply nth_byte, Hx|apply pow_byte, Z.mod_pos_bound; lia].
Qed.
Lemma clear_bit_ok x i : blk_ok x -> blk_ok (clear_bit x i).
Proof. intros Hx. apply blk_ok_insert; [done|]. by apply land_is_byte, nth_byte, Hx. Qed.

(** A bitmap is its bits. *)
Lemma bitmap_ext x y : blk_ok x -> blk_ok y -> (forall i, bit_index i -> bit_of x i = bit_of y i) -> x = y.
Proof.
  intros [Hlx Hx] [Hly Hy] Hb. apply (list_eq_same_length _ _ BSIZEn); [done..|].
  intros n u v Hn Eu Ev. pose proof (Forall_lookup_1 _ _ _ _ Hx Eu) as Hu. pose proof (Forall_lookup_1 _ _ _ _ Hy Ev) as Hv.
  apply byte_mod in Hu, Hv. rewrite <- Hu, <- Hv. apply Z.bits_inj'. intros k Hk. destruct (decide (k < 8)).
  - rewrite !Z.mod_pow2_bits_low by lia. specialize (Hb (8 * Z.of_nat n + k)).
    rewrite !bit_byte in Hb by lia. replace ((8 * Z.of_nat n + k) / 8) with (Z.of_nat n) in Hb by zlia.
    replace ((8 * Z.of_nat n + k) mod 8) with k in Hb by zlia. rewrite Nat2Z.id, !nth_lookup, Eu, Ev in Hb.
    apply Hb. unfold bit_index, BPB, BSIZE. lia.
  - by rewrite !Z.mod_pow2_bits_high by lia.
Qed.

Lemma clear_set_bit x i : blk_ok x -> bit_index i -> bit_of x i = false -> clear_bit (set_bit x i) i = x.
Proof.
  intros Hx Hi Hf. apply bitmap_ext; [by apply clear_bit_ok, set_bit_ok|done|]. intros j Hj.
  rewrite bit_clear_bit, bit_set_bit by (done || apply set_bit_ok, Hx || apply Hx).
  case_bool_decide; [by subst|done].
Qed.

(** ** Allocating and freeing a block *)

Section Alloc.
Context {S : Type} `{BK : Blocks S}.
Abbreviation fs := (fsys (S := S)).
Implicit Type (s : fs) (a : cache).
Variables (e : benv) (pi : Z) (part : partition).
Abbreviation dev := (be_dev e).
Abbreviation bmapno := (pt_bmapno e part).
Abbreviation bitmap := (pt_bitmap e part).
Abbreviation data_blk := (pt_blk e part).
Abbreviation nbits a := (sb_size (part_sb e part a)).

(** The blocks the allocator works on are usable and nobody holds them; the
    bitmap is one block, as [balloc] assumes when it adds 1 to its number. *)
Record alloc_ready a : Prop := {
  ar_size : 0 <= nbits a <= BPB;
  ar_wrap : bmapno a + 1 + nbits a < 2 ^ 32;
  ar_off : offset part < bmapno a;
  ar_sb : quietly e a (offset part);
  ar_map : quietly e a (bmapno a);
  ar_data : forall i, 0 <= i < nbits a -> be_ok e (data_blk a i) /\ (dev, data_blk a i) ∉ c_touched a;
  ar_free : forall i, 0 <= i < nbits a -> bit_of (bitmap a) i = false ->
    forall j, c_held a !! j <> Some (dev, data_blk a i)
}.

Lemma ar_quiet a i : alloc_ready a -> 0 <= i < nbits a -> bit_of (bitmap a) i = false -> quietly e a (data_blk a i).
Proof. intros Har Hi Hb. destruct (ar_data _ Har i Hi) as [Hok Ht]. split_and!; [done|by apply (ar_free _ Har)|done]. Qed.


Lemma bmapno_range a : 0 <= bmapno a < 2 ^ 32.
Proof. unfold pt_bmapno, part_sb. simpl. apply u32_range. Qed.

(** The view after bit [i] was taken: the bit is set and the block zeroed. *)
Definition taken (i : Z) a : cache :=
  logged (dev, data_blk a i) zero_blk (logged (dev, bmapno a) (set_bit (bitmap a) i) a).

Lemma quietly_logged a k x n : quietly e a n -> quietly e (logged k x a) n.
Proof. done. Qed.

Lemma BBLOCK_0 a : BBLOCK 0 (part_sb e part a) = bmapno a.
Proof. unfold BBLOCK. rewrite Z.div_0_l by (unfold BPB, BSIZE; lia). apply u32_small, bmapno_range. Qed.

(** The inner loop: the first free bit from [0] on. *)
Lemma wp_find_bit s0 a s bp :
  alloc_ready a -> c_held a !! bp = None -> moved e s0 (hold bp (dev, bmapno a) a) s ->
  (size (kept a) + 1 < Z.to_nat NBUF)%nat -> (size (c_pinned a) + 1 < be_cap e)%nat ->
  wp (for_ (Z.to_nat (nbits a)) 0 (fun bi =>
      x <- get_data bp ;;
      if bit_of x bi then ret None else
      put_data bp (set_bit x bi) ;;; log_write bp ;;; brelse bp ;;;
      bzero dev (u32 (bmapno a + 1 + 0 + bi)) ;;;
      ret (Some (u32 (bmapno a + 1 + 0 + bi)))))
    (fun r s' => match r with
     | Some b => exists i, 0 <= i < nbits a /\ bit_of (bitmap a) i = false /\
         (forall j, 0 <= j < i -> bit_of (bitmap a) j = true) /\ b = data_blk a i /\ moved e s0 (taken i a) s'
     | None => (forall j, 0 <= j < nbits a -> bit_of (bitmap a) j = true) /\
         moved e s0 (hold bp (dev, bmapno a) a) s'
     end) s.
Proof.
  intros Har Hi Hm Hk Hc. pose proof Har as [Hsz Hwr Hoff Hsb Hmap Hdat Hfree]. pose proof (bmapno_range a) as Hbm.
  eapply (wp_for _ _ _ (fun bi t => (forall j, 0 <= j < bi -> bit_of (bitmap a) j = true) /\
    moved e s0 (hold bp (dev, bmapno a) a) t)); [split; [lia|done]| |].
  2:{ intros t [Hall Ht]. rewrite Z.add_0_l, Z2Nat.id in Hall by lia. done. }
  intros i t Hit [Hall Ht]. rewrite Z2Nat.id in Hit by lia.
  eapply get_rule; [exact Ht|by apply lookup_insert_eq|]. change (view_at _ _) with (bitmap a).
  destruct (bit_of (bitmap a) i) eqn:Hb.
  { apply wp_ret. split; [|done]. intros j Hj. destruct (decide (j = i)) as [-> |]; [done|apply Hall; lia]. }
  pose proof Hmap as (Hok & _ & Htch).
  eapply put_rule; [exact Ht|by apply lookup_insert_eq|apply set_bit_ok;
    exact (k_view_ok _ _ _ dev (bmapno a) (moved_rep _ _ _ _ Ht))|].
  intros s2 Hm2. eapply log_rule; [exact Hm2|by apply lookup_insert_eq|done|simpl; lia|].
  intros s3 Hm3. eapply brelse_rule; [exact Hm3|by apply lookup_insert_eq|simpl; set_solver|].
  intros s4 Hm4. rewrite release_logged in Hm4 by done. rewrite u32_small by lia.
  replace (bmapno a + 1 + 0 + i) with (data_blk a i) by (unfold pt_blk; lia).
  pose proof (size_add (dev, bmapno a) (c_pinned a) ({[(dev, bmapno a)]} ∪ c_pinned a) ltac:(done)).
  eapply wp_bzero; [exact Hm4|apply quietly_logged, ar_quiet; [done|lia|done]| |simpl; lia|].
  { rewrite kept_logged. pose proof (size_add (dev, bmapno a) (kept a) _ ltac:(done)). lia. }
  intros s5 Hm5. apply wp_ret. exists i. split_and!; try done; lia.
Qed.

(** [balloc]: with a free block in the partition it returns the first one, marked
    in use and zeroed; without one it panics. *)
Lemma wp_balloc s0 a s :
  moved e s0 a s -> on_part e pi part s0 -> alloc_ready a ->
  (size (kept a) + 1 < Z.to_nat NBUF)%nat -> (size (c_pinned a) + 1 < be_cap e)%nat ->
  (exists i, 0 <= i < nbits a /\ bit_of (bitmap a) i = false) ->
  wp (balloc pi) (fun b s' => exists i, 0 <= i < nbits a /\ bit_of (bitmap a) i = false /\
    (forall j, 0 <= j < i -> bit_of (bitmap a) j = true) /\ b = data_blk a i /\ moved e s0 (taken i a) s') s.
Proof.
  intros Hm Hon Har Hk Hc [i0 [Hi0 Hb0]]. pose proof Har as [Hsz Hwr Hoff Hsb Hmap Hdat Hfree]. pose proof (bmapno_range a) as Hbm.
  unfold balloc. apply (wp_part_at e pi part); [by eapply on_part_moved|]. pose proof Hon as (_ & _ & Hdev). rewrite Hdev. cbv zeta.
  eapply wp_readsb; [done..|lia|]. intros s1 Hm1. fold (bmapno a). rewrite (u32_small (bmapno a + 1)) by lia.
  replace (Z.to_nat ((nbits a + BPB - 1) / BPB)) with 1%nat.
  2:{ replace ((nbits a + BPB - 1) / BPB) with 1; [done|]. unfold BPB, BSIZE in *. zlia. }
  apply wp_bind. cbn [for_]. change (0 * BPB) with 0. rewrite Z.sub_0_r, BBLOCK_0, Z.min_r by lia. apply wp_bind.
  eapply bread_rule; [exact Hm1|apply quietly_readable; [done|lia]|]. intros bp s2 Hbp Hm2. apply wp_bind.
  eapply wp_mono; [by apply (wp_find_bit s0 a s2 bp)|]. intros [b|] s3.
  - intros HQ. by apply wp_ret, wp_ret, wp_ret.
  - intros [Hall _]. by rewrite Hall in Hb0.
Qed.

Lemma balloc_full s0 a s :
  moved e s0 a s -> on_part e pi part s0 -> alloc_ready a ->
  (size (kept a) + 1 < Z.to_nat NBUF)%nat -> (size (c_pinned a) + 1 < be_cap e)%nat -> 1 <= nbits a ->
  (forall i, 0 <= i < nbits a -> bit_of (bitmap a) i = true) ->
  panics (balloc pi) "balloc: out of blocks" s.
Proof.
  intros Hm Hon Har Hk Hc Hn Hall. pose proof Har as [Hsz Hwr Hoff Hsb Hmap Hdat Hfree]. pose proof (bmapno_range a) as Hbm.
  pose proof Hon as (_ & _ & Hdev). unfold balloc.
  apply panics_bind, wp_bind_ret, (wp_part_at e pi part), wp_ret; [by eapply on_part_moved|]. rewrite Hdev. cbv zeta.
  apply panics_bind, wp_bind_ret. eapply wp_readsb; [done..|lia|]. intros s1 Hm1. apply wp_ret.
  fold (bmapno a). rewrite (u32_small (bmapno a + 1)) by lia.
  replace (Z.to_nat ((nbits a + BPB - 1) / BPB)) with 1%nat.
  2:{ replace ((nbits a + BPB - 1) / BPB) with 1; [done|]. unfold BPB, BSIZE in *. zlia. }
  apply panics_bind. cbn [for_]. change (0 * BPB) with 0. rewrite Z.sub_0_r, BBLOCK_0, Z.min_r by lia. apply wp_bind.
  eapply bread_rule; [exact Hm1|apply quietly_readable; [done|lia]|]. intros bp s2 Hbp Hm2. apply wp_bind.
  eapply wp_mono; [by apply (wp_find_bit s0 a s2 bp)|]. intros [b|] s3.
  - intros (i & Hi & Hb & _). by rewrite Hall in Hb.
  - intros [_ Hm3]. eapply brelse_rule; [exact Hm3|by apply lookup_insert_eq|apply Hmap|]. intros s4 _. by apply wp_ret, wp_ret.
Qed.

(** ** Freeing *)

Definition freed (i : Z) a : cache := logged (dev, bmapno a) (clear_bit (bitmap a) i) a.

Lemma BBLOCK_bit a i : alloc_ready a -> 0 <= i < nbits a -> BBLOCK i (part_sb e part a) = bmapno a /\ i mod BPB = i.
Proof.
  intros [Hsz Hwr _ _ _ _ _] Hi. pose proof (bmapno_range a). unfold BBLOCK.
  assert (i / BPB = 0 /\ i mod BPB = i) as [-> ->] by (unfold BPB, BSIZE in *; zlia). split; [|done]. by apply u32_small.
Qed.

Lemma wp_bfree s0 a s i :
  moved e s0 a s -> on_part e pi part s0 -> alloc_ready a ->
  (size (kept a) < Z.to_nat NBUF)%nat -> (size (c_pinned a) < be_cap e)%nat ->
  0 <= i < nbits a -> bit_of (bitmap a) i = true ->
  wp (bfree pi (data_blk a i)) (fun _ s' => moved e s0 (freed i a) s') s.
Proof.
  intros Hm Hon Har Hk Hc Hi Hb. pose proof Har as [Hsz Hwr Hoff Hsb Hmap Hdat Hfree]. pose proof (bmapno_range a) as Hbm.
  pose proof Hon as (_ & _ & Hdev). unfold bfree.
  eapply wp_readsb; [done..|]. intros s1 Hm1. fold (bmapno a). cbv zeta.
  rewrite (u32_small (bmapno a + 1)) by lia. unfold pt_blk. rewrite u32_small by lia.
  replace (bmapno a + 1 + i - (bmapno a + 1)) with i by lia.
  apply (wp_part_at e pi part); [by eapply on_part_moved|]. rewrite Hdev.
  destruct (BBLOCK_bit a i Har Hi) as [-> ->]. pose proof Hmap as (Hok & _ & Htch).
  eapply bread_rule; [exact Hm1|by apply quietly_readable|]. intros bp s2 Hbp Hm2.
  eapply get_rule; [exact Hm2|by apply lookup_insert_eq|]. change (view_at _ _) with (bitmap a). rewrite Hb. simpl.
  eapply put_rule; [exact Hm2|by apply lookup_insert_eq|apply clear_bit_ok;
    exact (k_view_ok _ _ _ dev (bmapno a) (moved_rep _ _ _ _ Hm2))|]. intros s3 Hm3.
  eapply log_rule; [exact Hm3|by apply lookup_insert_eq|done|done|]. intros s4 Hm4.
  eapply wp_brelse_last; [exact Hm4|by apply lookup_insert_eq|simpl; set_solver|]. intros s5 Hm5.
  by rewrite release_logged in Hm5.
Qed.

Lemma bfree_free s0 a s i :
  moved e s0 a s -> on_part e pi part s0 -> alloc_ready a -> (size (kept a) < Z.to_nat NBUF)%nat ->
  0 <= i < nbits a -> bit_of (bitmap a) i = false ->
  panics (bfree pi (data_blk a i)) "freeing free block" s.
Proof.
  intros Hm Hon Har Hk Hi Hb. pose proof Har as [Hsz Hwr Hoff Hsb Hmap Hdat Hfree]. pose proof (bmapno_range a) as Hbm.
  pose proof Hon as (_ & _ & Hdev). unfold bfree.
  apply panics_bind, wp_bind_ret. eapply wp_readsb; [done..|]. intros s1 Hm1. apply wp_ret. fold (bmapno a). cbv zeta.
  rewrite (u32_small (bmapno a + 1)) by lia. unfold pt_blk. rewrite u32_small by lia.
  replace (bmapno a + 1 + i - (bmapno a + 1)) with i by lia.
  apply panics_bind, wp_bind_ret, (wp_part_at e pi part), wp_ret; [by eapply on_part_moved|]. rewrite Hdev.
  destruct (BBLOCK_bit a i Har Hi) as [-> ->].
  apply panics_bind, wp_bind_ret. eapply bread_rule; [exact Hm1|by apply quietly_readable|]. intros bp s2 Hbp Hm2. apply wp_ret.
  apply panics_bind, wp_bind_ret. eapply get_rule; [exact Hm2|by apply lookup_insert_eq|]. apply wp_ret.
  change (view_at _ _) with (bitmap a). by rewrite Hb.
Qed.

(** ** What allocation leaves alone *)

Lemma view_logged_eq k x a : view_at (c_view (logged k x a)) k = x.
Proof. destruct k. apply upd_blk_eq. Qed.
Lemma view_logged_same n x a : c_view (logged (dev, n) x a) dev n = x.
Proof. apply upd_blk_eq. Qed.
Lemma view_logged_ne n m x a : n <> m -> c_view (logged (dev, m) x a) dev n = c_view a dev n.
Proof. intros Hne. apply upd_blk_ne. simpl. congruence. Qed.

Lemma part_sb_logged n x a : n <> offset part -> part_sb e part (logged (dev, n) x a) = part_sb e part a.
Proof. intros Hne. unfold part_sb. by rewrite view_logged_ne by done. Qed.
Lemma bmapno_logged n x a : n <> offset part -> bmapno (logged (dev, n) x a) = bmapno a.
Proof. intros Hne. unfold pt_bmapno. by rewrite part_sb_logged. Qed.
Lemma bitmap_logged n x a : n <> offset part -> n <> bmapno a -> bitmap (logged (dev, n) x a) = bitmap a.
Proof. intros Hn Hb. unfold pt_bitmap. rewrite bmapno_logged by done. by apply view_logged_ne. Qed.
Lemma data_blk_logged n x a i : n <> offset part -> data_blk (logged (dev, n) x a) i = data_blk a i.
Proof. intros Hn. unfold pt_blk. by rewrite bmapno_logged. Qed.

Lemma alloc_ready_logged n x a : n <> offset part -> n <> bmapno a -> alloc_ready a -> alloc_ready (logged (dev, n) x a).
Proof.
  intros Hn Hb [H1 H2 H3 H4 H5 H6 H7].
  constructor; rewrite ?part_sb_logged, ?bmapno_logged by done; try done; intros i Hi; rewrite ?data_blk_logged by done; [by apply H6|].
  rewrite bitmap_logged by done. by apply H7.
Qed.
Lemma alloc_ready_marked x a : alloc_ready a ->
  (forall i, 0 <= i < nbits a -> bit_of x i = false -> bit_of (bitmap a) i = false) ->
  alloc_ready (logged (dev, bmapno a) x a).
Proof.
  intros [H1 H2 H3 H4 H5 H6 H7] Hx. assert (bmapno a <> offset part) as Hn by lia.
  constructor; rewrite ?part_sb_logged, ?bmapno_logged by done; try done; intros i Hi; rewrite ?data_blk_logged by done; [by apply H6|].
  unfold pt_bitmap. rewrite bmapno_logged, view_logged_same by done. intros Hf. by apply H7, Hx.
Qed.

Section Taken.
Context a i (Har : alloc_ready a) (Hi : 0 <= i < nbits a).
Lemma taken_off : bmapno a <> offset part /\ data_blk a i <> offset part /\ data_blk a i <> bmapno a.
Proof using Har Hi. pose proof (ar_off _ Har). unfold pt_blk. lia. Qed.
Lemma taken_sb : part_sb e part (taken i a) = part_sb e part a.
Proof using Har Hi. destruct taken_off as (? & ? & _). unfold taken. by rewrite !part_sb_logged. Qed.
Lemma taken_bmapno : bmapno (taken i a) = bmapno a.
Proof using Har Hi. unfold pt_bmapno. by rewrite taken_sb. Qed.
Lemma taken_bitmap : bitmap (taken i a) = set_bit (bitmap a) i.
Proof using Har Hi.
  destruct taken_off as (? & ? & ?). unfold pt_bitmap at 1. rewrite taken_bmapno. unfold taken.
  rewrite view_logged_ne by done. apply upd_blk_eq.
Qed.
Lemma taken_kept : (size (kept (taken i a)) <= size (kept a) + 2)%nat /\
  (size (c_pinned (taken i a)) <= size (c_pinned a) + 2)%nat.
Proof using Type.
  assert (forall (X : gset (Z * Z)) (k k' : Z * Z), (size ({[k]} ∪ ({[k']} ∪ X)) <= size X + 2)%nat) as Hs.
  { intros X k k'. pose proof (size_add k ({[k']} ∪ X) _ ltac:(done)). pose proof (size_add k' X _ ltac:(done)). lia. }
  unfold taken. rewrite !kept_logged. split; apply Hs.
Qed.
Lemma taken_blk j : data_blk (taken i a) j = data_blk a j.
Proof using Har Hi. unfold pt_blk. by rewrite taken_bmapno. Qed.
Lemma taken_view n : c_view (taken i a) dev n =
  if decide (n = data_blk a i) then zero_blk else if decide (n = bmapno a) then set_bit (bitmap a) i else c_view a dev n.
Proof using Har Hi.
  destruct taken_off as (? & ? & ?). unfold taken. case_decide as E1; [subst; apply upd_blk_eq|].
  rewrite view_logged_ne by done. case_decide as E2; [subst; apply upd_blk_eq|]. by apply view_logged_ne.
Qed.
Hypothesis Hlen : length (bitmap a) = BSIZEn.
Lemma taken_ready : alloc_ready (taken i a).
Proof using Har Hi Hlen.
  destruct taken_off as (? & ? & ?). pose proof (ar_size _ Har). unfold taken. apply alloc_ready_logged; [done|by rewrite bmapno_logged|].
  apply alloc_ready_marked; [done|]. intros j Hj. rewrite bit_set_bit by (done || (split; lia)).
  by intros [_ ?]%orb_false_elim.
Qed.
End Taken.

(** Allocating a block and freeing it again. *)
Lemma freed_taken a i : alloc_ready a -> 0 <= i < nbits a -> blk_ok (bitmap a) -> bit_of (bitmap a) i = false ->
  bitmap (freed i (taken i a)) = bitmap a /\
  forall n, n <> data_blk a i -> c_view (freed i (taken i a)) dev n = c_view a dev n.
Proof.
  intros Har Hi Hbm Hb. pose proof (taken_off a i Har Hi) as (Ho1 & Ho2 & Ho3). pose proof (ar_size _ Har).
  assert (bit_index i) as Hix by (split; lia). unfold freed.
  rewrite (taken_bitmap a i Har Hi), (taken_bmapno a i Har Hi), clear_set_bit by done. split.
  - unfold pt_bitmap at 1. rewrite bmapno_logged, (taken_bmapno a i Har Hi) by done. apply upd_blk_eq.
  - intros n Hn. destruct (decide (n = bmapno a)) as [-> |Hne]; [apply upd_blk_eq|].
    rewrite view_logged_ne, (taken_view a i Har Hi) by done. by rewrite !decide_False.
Qed.

(** C17. [balloc] returns the first block of the partition whose bit is clear, marked
    in use and zeroed, and changes no other block; freeing that block again
    restores the bitmap; and with no clear bit [balloc] panics. *)
Theorem balloc_bfree s a :
  k_rep e (f_blk s) a -> on_part e pi part s -> alloc_ready a -> 1 <= nbits a ->
  (size (kept a) + 2 < Z.to_nat NBUF)%nat -> (size (c_pinned a) + 2 < be_cap e)%nat ->
  ((exists i, 0 <= i < nbits a /\ bit_of (bitmap a) i = false) ->
   wp (balloc pi) (fun b s1 => exists i a1, 0 <= i < nbits a /\ bit_of (bitmap a) i = false /\
      (forall j, 0 <= j < i -> bit_of (bitmap a) j = true) /\ b = data_blk a i /\ moved e s a1 s1 /\
      c_view a1 dev b = zero_blk /\
      (forall j, 0 <= j < nbits a -> bit_of (bitmap a1) j = bool_decide (j = i) || bit_of (bitmap a) j) /\
      (forall n, n <> b -> n <> bmapno a -> c_view a1 dev n = c_view a dev n) /\
      wp (bfree pi b) (fun _ s2 => exists a2, moved e s a2 s2 /\ bitmap a2 = bitmap a /\
        (forall n, n <> b -> c_view a2 dev n = c_view a dev n)) s1) s) /\
  ((forall i, 0 <= i < nbits a -> bit_of (bitmap a) i = true) ->
   panics (balloc pi) "balloc: out of blocks" s).
Proof.
  intros Hr Hon Har Hn Hk Hc. pose proof (moved_start _ _ _ Hr) as Hm. split.
  2:{ intros Hall. apply (balloc_full s a s); try done; lia. }
  intros Hex. eapply wp_mono; [eapply (wp_balloc s a s); try done; lia|].
  intros b s1 (i & Hi & Hb & Hlt & -> & Hm1). exists i, (taken i a).
  pose proof (k_view_ok _ _ _ dev (bmapno a) Hr) as Hbm. fold (bitmap a) in Hbm.
  pose proof (ar_size _ Har) as Hsz. assert (bit_index i) as Hix by (split; lia).
  split; [done|]. split; [done|]. split_and!; try done.
  - rewrite taken_view by done. by rewrite decide_True.
  - intros j Hj. rewrite taken_bitmap by done. apply bit_set_bit; [apply Hbm|done|split; lia].
  - intros n H1 H2. rewrite taken_view by done. by rewrite !decide_False.
  - pose proof (bit_set_bit (bitmap a) i i (proj1 Hbm) Hix Hix) as Hset. rewrite bool_decide_true in Hset by done.
    pose proof (taken_kept a i) as [Hk' Hc']. rewrite <- (taken_blk a i Har Hi i). eapply wp_mono.
    + apply (wp_bfree s (taken i a) s1 i Hm1 Hon (taken_ready a i Har Hi (proj1 Hbm))); [lia|lia|..].
      * by rewrite (taken_sb a i Har Hi).
      * by rewrite (taken_bitmap a i Har Hi).
    + intros [] s2 Hm2. exists (freed i (taken i a)). rewrite (taken_blk a i Har Hi i). split; [done|]. by apply freed_taken.
Qed.
End Alloc.
