(* ===== verification/Inode.v ===== *)
(** * Inodes of fs.c: the on-disk codec, [iupdate], [ilock], [iunlock], [ialloc], [iget]

    [dinode_at] is the inode a disk view stores under a number; [iupdate] changes that
    one inode and [ilock] loads it. *)

From S2P Require Import Prelude Buf Bio Blocks Fs Balloc.

(** ** The codec *)

Section Codec.
Local Open Scope nat_scope.
Implicit Types (x w : list Z) (off k : nat).

Lemma bsplice_app off w1 w2 x : off + length w1 + length w2 <= length x ->
  bsplice (off + length w1) w2 (bsplice off w1 x) = bsplice off (w1 ++ w2) x.
Proof.
  intros Hl. apply list_eq. intros i. 
  rewrite !bsplice_lookup by (rewrite ?length_app, ?bsplice_length by lia; lia). rewrite length_app.
  destruct (decide (off + length w1 <= i < off + length w1 + length w2)).
  - rewrite decide_True by lia. rewrite lookup_app_r by lia. f_equal. lia.
  - destruct (decide (off <= i < off + length w1)).
    + rewrite decide_True by lia. by rewrite lookup_app_l by lia.
    + by rewrite decide_False by lia.
Qed.

Lemma bslice_inside off k n w x : off + length w <= length x -> k + n <= length w ->
  bslice (off + k) n (bsplice off w x) = bslice k n w.
Proof.
  intros Hl Hk. apply list_eq. intros i. destruct (decide (i < n)); [|by rewrite !bslice_lookup_ge by lia].
  rewrite !bslice_lookup, bsplice_lookup by lia. rewrite decide_True by lia. f_equal. lia.
Qed.
Lemma get16_inside off k w x : off + length w <= length x -> k + 2 <= length w ->
  get16 (off + k) (bsplice off w x) = get16 k w.
Proof. intros. unfold get16. by rewrite bslice_inside. Qed.
Lemma get32_inside off k w x : off + length w <= length x -> k + 4 <= length w ->
  get32 (off + k) (bsplice off w x) = get32 k w.
Proof. intros. unfold get32. by rewrite bslice_inside. Qed.
End Codec.

Record dinode_ok (d : dinode) : Prop := {
  do_type : - 2 ^ 15 <= di_type d < 2 ^ 15;
  do_major : - 2 ^ 15 <= di_major d < 2 ^ 15;
  do_minor : - 2 ^ 15 <= di_minor d < 2 ^ 15;
  do_nlink : - 2 ^ 15 <= di_nlink d < 2 ^ 15;
  do_size : 0 <= di_size d < 2 ^ 32;
  do_len : length (di_addrs d) = 13%nat;
  do_addrs : Forall (fun b => 0 <= b < 2 ^ 32) (di_addrs d)
}.

(** The 64 bytes of an inode on disk. *)
Definition dinode_bytes (d : dinode) : list Z :=
  le_bytes 2 (di_type d) ++ le_bytes 2 (di_major d) ++ le_bytes 2 (di_minor d) ++ le_bytes 2 (di_nlink d) ++
  le_bytes 4 (di_size d) ++ concat (map (le_bytes 4) (di_addrs d)).

Lemma concat_le_length l : length (concat (map (le_bytes 4) l)) = (4 * length l)%nat.
Proof. induction l as [|b l IH]; [done|]. cbn [map concat length]. rewrite length_app, le_bytes_length, IH. lia. Qed.
Lemma dinode_bytes_length d : length (di_addrs d) = 13%nat -> length (dinode_bytes d) = 64%nat.
Proof.
  intros Hl. unfold dinode_bytes. rewrite !length_app, !le_bytes_length, concat_le_length, Hl. done.
Qed.

Lemma put_dinode_bytes off d x : length (di_addrs d) = 13%nat -> (off + 64 <= length x)%nat ->
  put_dinode off d x = bsplice off (dinode_bytes d) x.
Proof.
  intros Hl Hx. unfold put_dinode, put_addrs, put16, put32.
  assert (forall a b c, (a + length b + length c <= length x)%nat -> forall n, n = (a + length b)%nat ->
    bsplice n c (bsplice a b x) = bsplice a (b ++ c) x) as HA.
  { intros a b c Hb n ->. by apply bsplice_app. }
  pose proof (concat_le_length (di_addrs d)) as Hc. rewrite Hl in Hc.
  rewrite (HA off (le_bytes 2 (di_type d))) by (rewrite ?length_app, ?le_bytes_length; lia).
  rewrite HA by (rewrite ?length_app, ?le_bytes_length; lia).
  rewrite HA by (rewrite ?length_app, ?le_bytes_length; lia).
  rewrite HA by (rewrite ?length_app, ?le_bytes_length; lia).
  rewrite HA by (rewrite ?length_app, ?le_bytes_length, ?Hc; lia).
  unfold dinode_bytes. by rewrite <- !app_assoc.
Qed.

Lemma s16_u16 z : - 2 ^ 15 <= z < 2 ^ 15 -> s16 (u16 z) = z.
Proof. intros Hz. unfold s16, u16. rewrite Zmod_mod. destruct (Z.ltb_spec (z mod 2 ^ 16) (2 ^ 15)); zlia. Qed.

Lemma get16_head z l : get16 0 (le_bytes 2 z ++ l) = u16 z.
Proof. rewrite <- le_val_bytes2. done. Qed.
Lemma get32_head z l : get32 0 (le_bytes 4 z ++ l) = u32 z.
Proof. rewrite <- le_val_bytes4. done. Qed.
Lemma get16_skip k w l : get16 (length w + k) (w ++ l) = get16 k l.
Proof. unfold get16, bslice. by rewrite drop_app_add. Qed.
Lemma get32_skip k w l : get32 (length w + k) (w ++ l) = get32 k l.
Proof. unfold get32, bslice. by rewrite drop_app_add. Qed.

Lemma get32_concat l j : (j < length l)%nat -> get32 (4 * j) (concat (map (le_bytes 4) l)) = u32 (nth j l 0).
Proof.
  revert j. induction l as [|b l IH]; intros j Hj; [simpl in Hj; lia|]. destruct j as [|j].
  - cbn [map concat]. apply get32_head.
  - cbn [map concat nth]. replace (4 * S j)%nat with (length (le_bytes 4 b) + 4 * j)%nat by (rewrite le_bytes_length; lia).
    rewrite get32_skip. apply IH. simpl in Hj. lia.
Qed.

Lemma map_nth_seqZ (l : list Z) n : length l = Z.to_nat n -> map (fun j => nth (Z.to_nat j) l 0) (seqZ 0 n) = l.
Proof.
  intros Hl. apply list_eq. intros i. rewrite list_lookup_fmap. destruct (decide (i < Z.to_nat n)%nat) as [Hi|Hi].
  - rewrite lookup_seqZ_lt by lia. cbn. replace (Z.to_nat _) with i by lia. rewrite nth_lookup.
    destruct (lookup_lt_is_Some_2 l i ltac:(lia)) as [v ->]. done.
  - rewrite lookup_seqZ_ge by lia. symmetry. apply lookup_ge_None. lia.
Qed.

(** The fields of the 64 bytes, at their offsets. *)
Lemma dinode_fields d : length (di_addrs d) = 13%nat ->
  get16 0 (dinode_bytes d) = u16 (di_type d) /\ get16 2 (dinode_bytes d) = u16 (di_major d) /\
  get16 4 (dinode_bytes d) = u16 (di_minor d) /\ get16 6 (dinode_bytes d) = u16 (di_nlink d) /\
  get32 8 (dinode_bytes d) = u32 (di_size d) /\
  forall j, (j < 13)%nat -> get32 (12 + 4 * j) (dinode_bytes d) = u32 (nth j (di_addrs d) 0).
Proof.
  intros Hl. split_and!; [by rewrite <- le_val_bytes2..|by rewrite <- le_val_bytes4|].
  intros j Hj. rewrite <- (get32_concat (di_addrs d) j) by lia. done.
Qed.

Lemma dinode_roundtrip off d x : dinode_ok d -> (off + 64 <= length x)%nat ->
  dinode_of off (put_dinode off d x) = d.
Proof.
  intros [H1 H2 H3 H4 H5 H6 H7] Hx. rewrite put_dinode_bytes by done. pose proof (dinode_bytes_length d H6) as Hw.
  destruct (dinode_fields d H6) as (E1 & E2 & E3 & E4 & E5 & E6).
  assert (map (fun j => get32 (off + 12 + 4 * Z.to_nat j) (bsplice off (dinode_bytes d) x)) (seqZ 0 (NDIRECT + 1)) = di_addrs d) as E7.
  { rewrite <- (map_nth_seqZ (di_addrs d) (NDIRECT + 1)) by done. apply map_ext_in.
    intros j Hj%list_elem_of_In%elem_of_seqZ. unfold NDIRECT in Hj. rewrite <- Nat.add_assoc.
    rewrite get32_inside, E6 by (rewrite ?Hw; lia). rewrite u32_small.
    - done.
    - rewrite nth_lookup. destruct (lookup_lt_is_Some_2 (di_addrs d) (Z.to_nat j) ltac:(lia)) as [v E]. rewrite E.
      by apply (Forall_lookup_1 _ _ _ _ H7 E). }
  unfold dinode_of. rewrite E7. rewrite <- (Nat.add_0_r off) at 1.
  rewrite !get16_inside, !get32_inside, E1, E2, E3, E4, E5 by (rewrite Hw; lia).
  rewrite !s16_u16, u32_small by (done || lia). by destruct d.
Qed.

(** Other bytes of the block are untouched. *)
Lemma dinode_other off off' d x : length (di_addrs d) = 13%nat -> (off + 64 <= length x)%nat -> (off' + 64 <= length x)%nat ->
  (off' + 64 <= off \/ off + 64 <= off')%nat -> dinode_of off' (put_dinode off d x) = dinode_of off' x.
Proof.
  intros Hl Hx Hx' Hd. rewrite put_dinode_bytes by done. pose proof (dinode_bytes_length d Hl) as Hw.
  assert (forall k, (k <= 62)%nat -> get16 (off' + k) (bsplice off (dinode_bytes d) x) = get16 (off' + k) x) as H16.
  { intros k Hk. unfold get16. rewrite bslice_bsplice_other; [done|lia|lia]. }
  assert (forall k, (k <= 60)%nat -> get32 (off' + k) (bsplice off (dinode_bytes d) x) = get32 (off' + k) x) as H32.
  { intros k Hk. unfold get32. rewrite bslice_bsplice_other; [done|lia|lia]. }
  unfold dinode_of. rewrite <- (Nat.add_0_r off') at 1. rewrite !H16, H32 by lia. rewrite Nat.add_0_r. f_equal.
  apply map_ext_in. intros j Hj%list_elem_of_In%elem_of_seqZ. unfold NDIRECT in Hj. rewrite <- Nat.add_assoc. apply H32. lia.
Qed.

Lemma put_dinode_ok off d x : length (di_addrs d) = 13%nat -> (off + 64 <= BSIZEn)%nat -> blk_ok x -> blk_ok (put_dinode off d x).
Proof.
  intros Hl Ho [Hx Hb]. pose proof (dinode_bytes_length d Hl) as Hw. rewrite put_dinode_bytes by lia. split.
  - rewrite bsplice_length; lia.
  - apply bytes_ok_splice; [|done]. unfold dinode_bytes. rewrite !Forall_app. split_and!; try apply le_bytes_ok.
    apply Forall_concat, Forall_fmap, Forall_forall. intros; apply le_bytes_ok.
Qed.

(** ** Cache entries *)

Section Entries.
Context {S : Type} `{BK : Blocks S}.
Abbreviation fs := (fsys (S := S)).
Implicit Type (s : fs) (a : cache).
Variable e : benv.

Definition entry_is s (ip : Z) (x : inode) : Prop := 0 <= ip /\ f_icache s !! Z.to_nat ip = Some x.
Definition set_entry (ip : Z) (x : inode) s : fs := with_icache (<[Z.to_nat ip := x]> (f_icache s)) s.

Lemma entry_set s ip x y : entry_is s ip x -> entry_is (set_entry ip y s) ip y.
Proof.
  intros [H0 E]. split; [done|]. simpl. apply list_lookup_insert_eq. by apply lookup_lt_Some in E.
Qed.
Lemma set_entry_twice ip x y s : set_entry ip y (set_entry ip x s) = set_entry ip y s.
Proof. unfold set_entry, with_icache. simpl. by rewrite list_insert_insert_eq. Qed.

Lemma wp_get_inode {A} s0 a s ip x (k : inode -> M fs A) (Q : A -> fs -> Prop) :
  moved e s0 a s -> entry_is s0 ip x -> wp (k x) Q s -> wp (x <- get_inode ip ;; k x) Q s.
Proof.
  intros Hm [H0 E] HQ. apply wp_bind. unfold get_inode, wp. destruct (Z.ltb_spec ip 0); [lia|].
  by rewrite (moved_icache _ _ _ _ Hm), E.
Qed.
Lemma wp_upd_inode_last s0 a s ip x f (Q : unit -> fs -> Prop) :
  moved e s0 a s -> entry_is s0 ip x -> (forall s', moved e (set_entry ip (f x) s0) a s' -> Q tt s') ->
  wp (upd_inode ip f) Q s.
Proof.
  intros Hm He HQ. unfold upd_inode. eapply wp_get_inode; [done..|]. apply wp_modify. apply HQ.
  destruct Hm as (b & -> & Hr). exists b. by split.
Qed.
Lemma wp_upd_inode {A} s0 a s ip x f (k : M fs A) (Q : A -> fs -> Prop) :
  moved e s0 a s -> entry_is s0 ip x -> (forall s', moved e (set_entry ip (f x) s0) a s' -> wp k Q s') ->
  wp (upd_inode ip f ;;; k) Q s.
Proof. intros Hm He HQ. apply wp_bind. by eapply wp_upd_inode_last. Qed.

Variables (pi : Z) (part : partition).
Abbreviation dev := (be_dev e).

Lemma on_part_set s ip x : on_part e pi part s -> on_part e pi part (set_entry ip x s).
Proof. done. Qed.

(** ** The inode a view stores under a number *)

Definition iblk a (inum : Z) : Z := IBLOCK inum (part_sb e part a).
Definition dinode_at a (inum : Z) : dinode := dinode_of (dinode_off inum) (c_view a dev (iblk a inum)).
Definition with_dinode a (inum : Z) (d : dinode) : cache :=
  logged (dev, iblk a inum) (put_dinode (dinode_off inum) d (c_view a dev (iblk a inum))) a.

Lemma dinode_off_range inum : (dinode_off inum + 64 <= BSIZEn)%nat.
Proof.
  unfold dinode_off, SIZEOF_DINODE, IPB, SIZEOF_DINODE, BSIZE. change (512 / 64) with 8.
  pose proof (Z.mod_pos_bound inum 8 ltac:(lia)). lia.
Qed.

Lemma wp_iupdate s0 a s ip x :
  moved e s0 a s -> entry_is s0 ip x -> i_prt x = pi -> on_part e pi part s0 ->
  quietly e a (offset part) -> quietly e a (iblk a (i_inum x)) ->
  (size (kept a) < Z.to_nat NBUF)%nat -> (size (c_pinned a) < be_cap e)%nat ->
  length (di_addrs (i_di x)) = 13%nat ->
  wp (iupdate ip) (fun _ s' => moved e s0 (with_dinode a (i_inum x) (i_di x)) s') s.
Proof.
  intros Hm He Hp Hon Hsb Hq Hk Hc Hlen. unfold iupdate. eapply wp_get_inode; [done..|]. rewrite Hp.
  eapply wp_readsb; [done..|]. intros s1 Hm1. apply (wp_part_at e pi part); [by eapply on_part_moved|].
  pose proof Hon as (_ & _ & Hdev). rewrite Hdev. fold (iblk a (i_inum x)). pose proof Hq as (Hok & _ & Ht).
  eapply bread_rule; [exact Hm1|by apply quietly_readable|]. intros bp s2 Hbp Hm2.
  eapply get_rule; [exact Hm2|by apply lookup_insert_eq|].
  pose proof (k_view_ok _ _ _ dev (iblk a (i_inum x)) (moved_rep _ _ _ _ Hm)) as Hv.
  eapply put_rule; [exact Hm2|by apply lookup_insert_eq| |].
  { apply put_dinode_ok; [done|apply dinode_off_range|exact Hv]. }
  intros s3 Hm3. eapply log_rule; [exact Hm3|by apply lookup_insert_eq|done|done|]. intros s4 Hm4.
  eapply wp_brelse_last; [exact Hm4|by apply lookup_insert_eq|simpl; set_solver|]. intros s5 Hm5.
  by rewrite release_logged in Hm5.
Qed.

(** Loading an inode that is not valid in the cache. *)
Lemma wp_ilock_load s0 a s ip x :
  moved e s0 a s -> entry_is s0 ip x -> i_prt x = pi -> on_part e pi part s0 ->
  quietly e a (offset part) -> quietly e a (iblk a (i_inum x)) -> (size (kept a) < Z.to_nat NBUF)%nat ->
  1 <= i_ref x -> i_flags x = 0 -> di_type (dinode_at a (i_inum x)) <> 0 ->
  wp (ilock ip) (fun _ s' =>
    moved e (set_entry ip (set_iflags (Z.lor I_BUSY I_VALID) (set_di (dinode_at a (i_inum x)) x)) s0) a s') s.
Proof.
  intros Hm He Hp Hon Hsb Hq Hk Href Hfl Hty. unfold ilock. pose proof He as [H0 _].
  destruct (Z.eqb_spec ip NULLP) as [->|_]; [done|]. eapply wp_get_inode; [done..|].
  destruct (Z.ltb_spec (i_ref x) 1); [lia|]. rewrite Hp. pose proof Hon as (Hpi & _ & Hdev).
  destruct (Z.eqb_spec pi NULLP) as [->|_]; [done|]. rewrite Hfl. change (has_flag 0 I_BUSY) with false.
  eapply wp_upd_inode; [done..|]. intros s1 Hm1. rewrite Hfl in Hm1.
  pose proof (entry_set _ _ _ (set_iflags (Z.lor 0 I_BUSY) x) He) as He1.
  eapply wp_readsb; [exact Hm1|exact Hon|done|done|]. intros s2 Hm2. change (has_flag 0 I_VALID) with false.
  apply (wp_part_at e pi part); [by eapply on_part_moved|]. rewrite Hdev. fold (iblk a (i_inum x)).
  eapply bread_rule; [exact Hm2|by apply quietly_readable|]. intros bp s3 Hbp Hm3.
  eapply get_rule; [exact Hm3|by apply lookup_insert_eq|]. cbv zeta. fold (dinode_at a (i_inum x)).
  change (view_at (c_view (hold bp (dev, iblk a (i_inum x)) a)) (dev, iblk a (i_inum x))) with (c_view a dev (iblk a (i_inum x))).
  fold (dinode_at a (i_inum x)).
  eapply wp_upd_inode; [exact Hm3|exact He1|]. intros s4 Hm4. rewrite set_entry_twice in Hm4.
  eapply brelse_rule; [exact Hm4|by apply lookup_insert_eq|apply Hq|]. intros s5 Hm5. rewrite release_hold in Hm5 by done.
  eapply wp_upd_inode; [exact Hm5|eapply entry_set; exact He|]. intros s6 Hm6. rewrite set_entry_twice in Hm6.
  destruct (Z.eqb_spec (di_type (dinode_at a (i_inum x))) 0); [done|]. by apply wp_ret.
Qed.

(** The inode area lies behind the super block and does not wrap around. *)
Record inodes_ready a : Prop := {
  ir_off : offset part < sb_inodestart (part_sb e part a);
  ir_wrap : sb_inodestart (part_sb e part a) + sb_ninodes (part_sb e part a) < 2 ^ 32;
  ir_sb : quietly e a (offset part);
  ir_blk : forall inum, 0 <= inum < sb_ninodes (part_sb e part a) -> quietly e a (iblk a inum)
}.

Lemma iblk_eq a inum : inodes_ready a -> 0 <= inum < sb_ninodes (part_sb e part a) ->
  iblk a inum = inum / 8 + sb_inodestart (part_sb e part a).
Proof.
  intros [H1 H2 _ _] Hi. unfold iblk, IBLOCK. change IPB with 8. apply u32_small.
  assert (0 <= sb_inodestart (part_sb e part a)) by apply u32_range. zlia.
Qed.
Lemma iblk_off a inum : inodes_ready a -> 0 <= inum < sb_ninodes (part_sb e part a) -> iblk a inum <> offset part.
Proof. intros Hr Hi. rewrite iblk_eq by done. destruct Hr as [H1 _ _ _]. zlia. Qed.

Lemma with_dinode_sb a inum d : inodes_ready a -> 0 <= inum < sb_ninodes (part_sb e part a) ->
  part_sb e part (with_dinode a inum d) = part_sb e part a.
Proof. intros Hr Hi. by apply part_sb_logged, iblk_off. Qed.

Lemma with_dinode_at a inum d j : inodes_ready a -> (forall n, blk_ok (c_view a dev n)) -> dinode_ok d ->
  0 <= inum < sb_ninodes (part_sb e part a) -> 0 <= j < sb_ninodes (part_sb e part a) ->
  dinode_at (with_dinode a inum d) j = if decide (j = inum) then d else dinode_at a j.
Proof.
  intros Hr Hv Hd Hi Hj. unfold dinode_at. unfold iblk at 1. rewrite with_dinode_sb by done. fold (iblk a j).
  pose proof (dinode_off_range inum). pose proof (dinode_off_range j). destruct (Hv (iblk a inum)) as [Hlen _].
  case_decide as E.
  - subst j. unfold with_dinode. rewrite view_logged_same. apply dinode_roundtrip; [done|lia].
  - destruct (decide (iblk a j = iblk a inum)) as [Eb|Eb].
    + unfold with_dinode. rewrite Eb, view_logged_same.
      apply dinode_other; [apply Hd|lia|lia|]. rewrite !iblk_eq in Eb by done.
      unfold dinode_off, SIZEOF_DINODE. change IPB with 8.
      pose proof (Z.mod_pos_bound inum 8 ltac:(lia)). pose proof (Z.mod_pos_bound j 8 ltac:(lia)).
      assert (j mod 8 <> inum mod 8) by zlia. lia.
    + unfold with_dinode. by rewrite view_logged_ne.
Qed.

(** C20. [iupdate] stores an inode and only that one: afterwards every other inode number of
    the partition reads as before, no block but its inode block changed, and
    [ilock] of a fresh cache entry for the number loads exactly what was stored. *)
Theorem iupdate_ilock s a ip x :
  k_rep e (f_blk s) a -> entry_is s ip x -> i_prt x = pi -> on_part e pi part s -> inodes_ready a ->
  0 <= i_inum x < sb_ninodes (part_sb e part a) -> dinode_ok (i_di x) -> di_type (i_di x) <> 0 ->
  (size (kept a) + 1 < Z.to_nat NBUF)%nat -> (size (c_pinned a) < be_cap e)%nat ->
  wp (iupdate ip) (fun _ s1 => exists a1, moved e s a1 s1 /\
    (forall j, 0 <= j < sb_ninodes (part_sb e part a) -> j <> i_inum x -> dinode_at a1 j = dinode_at a j) /\
    (forall n, n <> iblk a (i_inum x) -> c_view a1 dev n = c_view a dev n) /\
    forall s2 ip2 y, k_rep e (f_blk s2) a1 -> on_part e pi part s2 -> entry_is s2 ip2 y ->
      i_prt y = pi -> i_inum y = i_inum x -> 1 <= i_ref y -> i_flags y = 0 ->
      wp (ilock ip2) (fun _ s3 => exists z, entry_is s3 ip2 z /\ i_di z = i_di x /\
        i_flags z = Z.lor I_BUSY I_VALID) s2) s.
Proof.
  intros Hr He Hp Hon Hir Hi Hd Hty Hk Hc. pose proof (moved_start _ _ _ Hr) as Hm.
  assert (forall n, blk_ok (c_view a dev n)) as Hv by (intros n; by eapply k_view_ok).
  eapply wp_mono; [apply (wp_iupdate s a s ip x); try done; [apply Hir|by apply Hir|lia|apply Hd]|].
  intros [] s1 Hm1. exists (with_dinode a (i_inum x) (i_di x)). split_and!; [done| | |].
  - intros j Hj Hne. rewrite with_dinode_at by done. by rewrite decide_False.
  - intros n Hn. by apply view_logged_ne.
  - intros s2 ip2 y Hr2 Hon2 He2 Hp2 Hin2 Href Hfl. pose proof (moved_start _ _ _ Hr2) as Hm2.
    assert (dinode_at (with_dinode a (i_inum x) (i_di x)) (i_inum y) = i_di x) as Ed.
    { rewrite Hin2, with_dinode_at by done. by rewrite decide_True. }
    eapply wp_mono; [eapply (wp_ilock_load s2 _ s2 ip2 y); try done|].
    + apply (ir_sb _ Hir).
    + rewrite Hin2. unfold iblk. rewrite with_dinode_sb by done. by apply (ir_blk _ Hir).
    + unfold with_dinode. rewrite kept_logged. pose proof (size_add (dev, iblk a (i_inum x)) (kept a) _ ltac:(done)). lia.
    + by rewrite Ed.
    + intros [] s3 Hm3. destruct (entry_set s2 ip2 y (set_iflags (Z.lor I_BUSY I_VALID) (set_di (i_di x) y)) He2) as [E0 E1].
      exists (set_iflags (Z.lor I_BUSY I_VALID) (set_di (i_di x) y)). split; [split; [exact E0|]|by split].
      by rewrite (moved_icache _ _ _ _ Hm3), Ed.
Qed.
End Entries.
