(* ===== verification/FileData.v ===== *)
(** * The contents of an inode: [bmap], [readi], [writei] of fs.c

    A file is the sequence of its bytes ([file_bytes]); the block map of the inode,
    with its indirect block, represents it ([file_wf]).  [bmap] extends the map
    without disturbing what is mapped; [readi] returns a slice of the bytes
    and [writei] overwrites and extends them. *)

From S2P Require Import Prelude Buf Bio Log Blocks Fs Balloc Inode.

(** ** The block map *)

Lemma MAXFILE_val : MAXFILE = 140.
Proof. done. Qed.

Section Map.
Implicit Types (v : Z -> list Z) (d : dinode) (used : Z -> Prop).

Definition ind_of d : Z := addr_at d NDIRECT.
(** The disk block of file block [bn]; 0: none. *)
Definition iaddr v d (bn : Z) : Z :=
  if bn <? NDIRECT then addr_at d bn
  else if ind_of d =? 0 then 0 else get32 (Z.to_nat (4 * (bn - NDIRECT))) (v (ind_of d)).

Record file_wf used v d : Prop := {
  fw_len : length (di_addrs d) = 13%nat;
  fw_size : 0 <= di_size d <= MAXFILE * BSIZE;
  fw_inj : forall i j, 0 <= i < MAXFILE -> 0 <= j < MAXFILE -> iaddr v d i <> 0 -> iaddr v d i = iaddr v d j -> i = j;
  fw_ind : forall i, 0 <= i < MAXFILE -> iaddr v d i <> 0 -> iaddr v d i <> ind_of d;
  fw_used : forall i, 0 <= i < MAXFILE -> iaddr v d i <> 0 -> used (iaddr v d i);
  fw_indused : ind_of d <> 0 -> used (ind_of d);
  fw_cover : forall i, 0 <= i -> i * BSIZE < di_size d -> iaddr v d i <> 0
}.

(** The blocks that belong to the file. *)
Definition owns v d (n : Z) : Prop := n = ind_of d \/ exists i, 0 <= i < MAXFILE /\ n = iaddr v d i.

(** Byte [p] of the file; a block that is not mapped stands for zeroes. *)
Definition content v d (p : Z) : Z :=
  let b := iaddr v d (p / BSIZE) in if b =? 0 then 0 else nth (Z.to_nat (p mod BSIZE)) (v b) 0.
Definition file_bytes v d : list Z := map (content v d) (seqZ 0 (di_size d)).

(** A fresh block enters the map at [bn]. *)
Lemma grow_data used used' v d v' d' bn b :
  file_wf used v d -> ~ used b -> 0 <= bn < MAXFILE -> iaddr v d bn = 0 ->
  (forall n, used' n <-> used n \/ n = b) ->
  length (di_addrs d') = 13%nat -> di_size d' = di_size d -> ind_of d' = ind_of d ->
  (forall i, 0 <= i < MAXFILE -> iaddr v' d' i = if decide (i = bn) then b else iaddr v d i) ->
  file_wf used' v' d'.
Proof.
  intros [H1 H2 H3 H4 H5 H6 H7] Hb Hbn H0 Hu Hl Hs Hi Hm.
  assert (forall i, 0 <= i < MAXFILE -> iaddr v d i <> 0 -> iaddr v d i <> b) as Hne.
  { intros i Hi' Hn E. apply Hb. rewrite <- E. by apply H5. }
  split; rewrite ?Hs, ?Hi; try done.
  - intros i j Ri Rj. rewrite !Hm by done. repeat case_decide; subst; try done; intros Hn E; try (by apply H3).
    + exfalso. eapply (Hne j); [done|congruence|done].
    + exfalso. by eapply (Hne i).
  - intros i Ri. rewrite Hm by done. case_decide; [|by apply H4]. intros Hb0 E. apply Hb. rewrite E. apply H6. congruence.
  - intros i Ri. rewrite Hm by done. rewrite Hu. case_decide; [by right|]. intros Hn. left. by apply H5.
  - intros Hn. rewrite Hu. left. by apply H6.
  - intros i Ri Hsz. assert (0 <= i < MAXFILE) as Rm by (unfold MAXFILE, BSIZE in *; lia). rewrite Hm by done.
    case_decide; [|by apply H7]. subst i. exfalso. by apply (H7 bn).
Qed.

(** A fresh block becomes the indirect block. *)
Lemma grow_ind used used' v d v' d' b :
  file_wf used v d -> ~ used b -> b <> 0 ->
  (forall n, used' n <-> used n \/ n = b) ->
  length (di_addrs d') = 13%nat -> di_size d' = di_size d -> ind_of d' = b ->
  (forall i, 0 <= i < MAXFILE -> iaddr v' d' i = iaddr v d i) ->
  file_wf used' v' d'.
Proof.
  intros [H1 H2 H3 H4 H5 H6 H7] Hb Hb0 Hu Hl Hs Hi Hm. split; rewrite ?Hs, ?Hi; try done.
  - intros i j Ri Rj. rewrite !Hm by done. by apply H3.
  - intros i Ri. rewrite !Hm by done. intros Hn E. apply Hb. rewrite <- E. by apply H5.
  - intros i Ri. rewrite !Hm, Hu by done. intros Hn. left. by apply H5.
  - intros _. rewrite Hu. by right.
  - intros i Ri Hsz. rewrite Hm; [by apply H7|]. unfold MAXFILE, BSIZE in *. lia.
Qed.

(** The map depends on the indirect block alone. *)
Lemma iaddr_ext v v' d i : (ind_of d <> 0 -> v' (ind_of d) = v (ind_of d)) -> iaddr v' d i = iaddr v d i.
Proof.
  intros E. unfold iaddr. destruct (i <? NDIRECT); [done|]. destruct (Z.eqb_spec (ind_of d) 0) as [|Hn]; [done|].
  by rewrite E.
Qed.

Lemma addr_set d j k b : 0 <= j -> 0 <= k < 13 -> length (di_addrs d) = 13%nat ->
  addr_at (set_addr k b d) j = if decide (j = k) then b else addr_at d j.
Proof.
  intros Hj Hk Hl. unfold addr_at, set_addr. simpl. rewrite nth_insert by lia.
  destruct (decide (j = k)) as [-> |Hne]; [by rewrite decide_True|]. rewrite decide_False; [done|]. lia.
Qed.
Lemma set_addr_length d k b : length (di_addrs (set_addr k b d)) = length (di_addrs d).
Proof. apply length_insert. Qed.
End Map.

(** ** What an operation on one file may do to the partition *)

Section Grow.
Context {S : Type} `{BK : Blocks S}.
Abbreviation fs := (fsys (S := S)).
Implicit Type (s : fs) (a : cache).
Variables (e : benv) (pi : Z) (part : partition).
Abbreviation dev := (be_dev e).
Abbreviation bmapno := (pt_bmapno e part).
Abbreviation bitmap := (pt_bitmap e part).
Abbreviation data_blk := (pt_blk e part).
Abbreviation nbits a := (sb_size (part_sb e part a)).
Abbreviation V a := (c_view a dev).
Abbreviation ready := (alloc_ready e part).

(** The blocks in use, and the number of free ones. *)
Definition used a (n : Z) : Prop := exists i, 0 <= i < nbits a /\ n = data_blk a i /\ bit_of (bitmap a) i = true.
Definition nfree a : nat := sum_list_with (fun i => if bit_of (bitmap a) i then 0%nat else 1%nat) (seqZ 0 (nbits a)).
Abbreviation wf a d := (file_wf (used a) (V a) d).

Definition calm a : Prop := c_held a = ∅ /\ c_touched a = ∅.

(** A file's inode went from [d] to [d'] while the view went from [a] to [a']: blocks in
    use that are not the file's, and everything outside the data area but the bitmap, are as
    before. *)
Record extends a d a' d' : Prop := {
  ex_wf : wf a' d';
  ex_used : forall n, used a n -> used a' n;
  ex_ind : ind_of d' = ind_of d \/ (ind_of d = 0 /\ ~ used a (ind_of d'));
  ex_keep : forall i, 0 <= i < MAXFILE -> iaddr (V a') d' i = iaddr (V a) d i \/
    (iaddr (V a) d i = 0 /\ ~ used a (iaddr (V a') d' i));
  ex_view : forall n, used a n -> ~ owns (V a) d n -> V a' n = V a n;
  ex_meta : forall n, n <> bmapno a -> ~ (exists i, 0 <= i < nbits a /\ n = data_blk a i) -> V a' n = V a n;
  ex_sb : part_sb e part a' = part_sb e part a;
  ex_ready : ready a';
  ex_di : d' = mkDi (di_type d) (di_major d) (di_minor d) (di_nlink d) (di_size d) (di_addrs d');
  ex_held : c_held a' = c_held a;
  ex_touched : c_touched a' = c_touched a
}.

Lemma extends_refl a d : wf a d -> ready a -> extends a d a d.
Proof. intros Hw Hr. split; try done; [by left|by left|by destruct d]. Qed.
Lemma extends_trans a1 d1 a2 d2 a3 d3 : extends a1 d1 a2 d2 -> extends a2 d2 a3 d3 -> extends a1 d1 a3 d3.
Proof.
  intros [A1 A2 A3 Ak A4 A5 A6 A7 A8 A9 A10] [B1 B2 B3 Bk B4 B5 B6 B7 B8 B9 B10].
  assert (bmapno a2 = bmapno a1) as Eb by (unfold pt_bmapno; by rewrite A6).
  split; try done; try congruence.
  - auto.
  - destruct B3 as [-> |[Hz Hn]]; [done|]. destruct A3 as [E|[Hz' Hn']]; [|right; split; [done|]; auto].
    right. split; [congruence|]. auto.
  - intros i Hi. destruct (Bk i Hi) as [-> |[Hz Hn]]; [by apply Ak|]. destruct (Ak i Hi) as [E|[Hz' Hn']]; right.
    + split; [congruence|]. auto.
    + split; [done|]. auto.
  - intros n Hu Hn. rewrite B4; [by apply A4|by apply A2|]. intros [-> |(i & Hi & ->)].
    + destruct A3 as [E|[_ Hn']]; [|done]. apply Hn. by left.
    + destruct (Ak i Hi) as [E|[_ Hn']]; [|done]. apply Hn. right. eauto.
  - intros n Hn Hd. rewrite B5; [by apply A5|by rewrite Eb|]. unfold pt_blk. rewrite Eb, A6. done.
  - rewrite B8, A8. done.
Qed.

Lemma used_ne a n : ready a -> used a n -> n <> bmapno a /\ n <> offset part /\ be_ok e n /\ n <> 0.
Proof.
  intros Hr (i & Hi & -> & _). pose proof (ar_off _ _ _ Hr). pose proof (bmapno_range e part a).
  split_and!; [unfold pt_blk; lia..|by apply (ar_data _ _ _ Hr)|unfold pt_blk; lia].
Qed.
Lemma free_unused a i : 0 <= i < nbits a -> bit_of (bitmap a) i = false -> ~ used a (data_blk a i).
Proof. intros Hi Hb (j & Hj & E & Hbj). assert (j = i) as -> by (unfold pt_blk in E; lia). congruence. Qed.

Section Taken.
Context a i (Hr : ready a) (Hv : forall n, blk_ok (V a n)) (Hi : 0 <= i < nbits a).
Lemma used_taken n : used (taken e part i a) n <-> used a n \/ n = data_blk a i.
Proof using Hr Hv Hi.
  pose proof (ar_size _ _ _ Hr) as Hsz. unfold used. rewrite (taken_sb e part a i Hr Hi). setoid_rewrite (taken_blk e part a i Hr Hi).
  setoid_rewrite (taken_bitmap e part a i Hr Hi).
  assert (forall j, 0 <= j < nbits a -> bit_of (set_bit (bitmap a) i) j = bool_decide (j = i) || bit_of (bitmap a) j) as Hbit.
  { intros j Hj. apply bit_set_bit; [apply Hv|split; lia|split; lia]. }
  split.
  - intros (j & Hj & -> & Hb). rewrite Hbit in Hb by done. apply orb_true_iff in Hb as [Hb|Hb]; [|left; eauto].
    apply bool_decide_eq_true in Hb as ->. by right.
  - intros [(j & Hj & -> & Hb)| ->].
    + exists j. rewrite Hbit, Hb, orb_true_r by done. done.
    + exists i. rewrite Hbit by done. by rewrite bool_decide_true.
Qed.
Lemma taken_view_used n : used a n -> bit_of (bitmap a) i = false -> V (taken e part i a) n = V a n.
Proof using Hr Hv Hi.
  intros Hu Hb. rewrite (taken_view e part a i Hr Hi). rewrite !decide_False; [done|by apply (used_ne a n Hr Hu)|].
  intros ->. by apply (free_unused a i).
Qed.

(** Taking a block extends any file that takes it in. *)
Lemma extends_taken d d' : bit_of (bitmap a) i = false -> wf (taken e part i a) d' ->
  (ind_of d' = ind_of d \/ (ind_of d = 0 /\ ~ used a (ind_of d'))) ->
  (forall j, 0 <= j < MAXFILE -> iaddr (V (taken e part i a)) d' j = iaddr (V a) d j \/
    (iaddr (V a) d j = 0 /\ ~ used a (iaddr (V (taken e part i a)) d' j))) ->
  d' = mkDi (di_type d) (di_major d) (di_minor d) (di_nlink d) (di_size d) (di_addrs d') ->
  extends a d (taken e part i a) d'.
Proof using Hr Hv Hi.
  intros Hb Hw Hind Hkeep Hdi. split; try done.
  - intros n Hu. apply used_taken. by left.
  - intros n Hu _. by apply taken_view_used.
  - intros n Hn Hd. rewrite (taken_view e part a i Hr Hi). rewrite !decide_False; [done|done|]. intros ->. apply Hd. eauto.
  - by apply taken_sb.
  - exact (taken_ready e part a i Hr Hi (proj1 (Hv _))).
Qed.

Lemma sum_list_drop1 (f g : Z -> nat) l :
  NoDup l -> i ∈ l -> f i = 1%nat -> g i = 0%nat -> (forall j, j ∈ l -> j <> i -> f j = g j) ->
  sum_list_with f l = Datatypes.S (sum_list_with g l).
Proof using Type.
  clear. induction 1 as [|y l Hy Hn IH]; [by intros ?%elem_of_nil|]. intros Hin Hf Hg Hfg. simpl.
  assert (forall k, k ∉ l -> (forall j, j ∈ l -> j <> k -> f j = g j) -> sum_list_with f l = sum_list_with g l) as Hsame.
  { clear. intros k. induction l as [|z l IH]; [done|]. intros [Hz Hl]%not_elem_of_cons Hall. simpl.
    rewrite Hall, IH; [done|done|intros; apply Hall; [by right|done]|by left|done]. }
  apply elem_of_cons in Hin as [-> |Hin].
  - rewrite Hf, Hg, (Hsame y); [lia|done|]. intros j Hj Hne. apply Hfg; [by right|done].
  - rewrite Hfg, IH; [lia|done|done|done|intros; apply Hfg; [by right|done]|by left|]. by intros ->.
Qed.
Lemma nfree_taken : bit_of (bitmap a) i = false -> nfree a = Datatypes.S (nfree (taken e part i a)).
Proof using Hr Hv Hi.
  intros Hb. pose proof (ar_size _ _ _ Hr) as Hsz. unfold nfree.
  rewrite (taken_sb e part a i Hr Hi), (taken_bitmap e part a i Hr Hi).
  assert (forall j, 0 <= j < nbits a -> bit_of (set_bit (bitmap a) i) j = bool_decide (j = i) || bit_of (bitmap a) j) as Hbit.
  { intros j Hj. apply bit_set_bit; [apply Hv|split; lia|split; lia]. }
  apply sum_list_drop1; [apply NoDup_seqZ|apply elem_of_seqZ; lia|by rewrite Hb| |].
  - rewrite Hbit by done. by rewrite bool_decide_true.
  - intros j Hj%elem_of_seqZ Hne. rewrite Hbit by lia. by rewrite bool_decide_false.
Qed.
End Taken.

Lemma free_exists a : (1 <= nfree a)%nat -> exists i, 0 <= i < nbits a /\ bit_of (bitmap a) i = false.
Proof.
  unfold nfree. assert (forall l : list Z, (1 <= sum_list_with (fun i => if bit_of (bitmap a) i then 0 else 1) l)%nat ->
    exists i, i ∈ l /\ bit_of (bitmap a) i = false) as H.
  { induction l as [|x l IH]; simpl; [lia|]. destruct (bit_of (bitmap a) x) eqn:E.
    - intros [i [Hi Hb]]%IH. exists i. split; [by right|done].
    - intros _. exists x. split; [by left|done]. }
  intros [i [Hi%elem_of_seqZ Hb]]%H. exists i. split; [lia|done].
Qed.

(** An indirect block not yet there may have to be allocated as well. *)
Definition need (d : dinode) : nat := if ind_of d =? 0 then 1%nat else 0%nat.

(** What [bmap] does: file block [bn] is mapped to [b], everything else is kept. *)
Record mapped a d (bn b : Z) a' d' : Prop := {
  mp_ext : extends a d a' d';
  mp_addr : iaddr (V a') d' bn = b;
  mp_pos : b <> 0;
  mp_old : iaddr (V a) d bn <> 0 -> a' = a /\ d' = d;
  mp_new : iaddr (V a) d bn = 0 -> V a' b = zero_blk;
  mp_view : forall n, used a n -> n <> ind_of d -> V a' n = V a n;
  mp_rest : forall i, 0 <= i < MAXFILE -> i <> bn -> iaddr (V a') d' i = iaddr (V a) d i;
  mp_pin : c_pinned a' ⊆ {[(dev, b)]} ∪ ({[(dev, ind_of d')]} ∪ ({[(dev, bmapno a)]} ∪ c_pinned a));
  mp_free : (nfree a + need d' <= nfree a' + 1 + need d)%nat
}.

Lemma mapped_old a d bn : wf a d -> ready a -> 0 <= bn < MAXFILE -> iaddr (V a) d bn <> 0 ->
  mapped a d bn (iaddr (V a) d bn) a d.
Proof. intros Hw Hr Hbn Hn. split; try done; [by apply extends_refl|set_solver|lia]. Qed.

Lemma mapped_after a d a1 d1 bn b a' d' :
  extends a d a1 d1 -> ind_of d = 0 -> iaddr (V a) d bn = 0 -> (forall n, used a n -> V a1 n = V a n) ->
  (forall i, 0 <= i < MAXFILE -> iaddr (V a1) d1 i = iaddr (V a) d i) -> 0 <= bn < MAXFILE ->
  ind_of d1 <> 0 ->
  c_pinned a1 ⊆ {[(dev, ind_of d1)]} ∪ ({[(dev, bmapno a)]} ∪ c_pinned a) ->
  (nfree a + need d1 <= nfree a1 + need d)%nat ->
  mapped a1 d1 bn b a' d' -> mapped a d bn b a' d'.
Proof.
  intros He Hz0 Hz Hvs Hsame Hbn Hind Hpin Hfree [H1 H2 H3 H4 H5 Hv' H6 H7 H8].
  assert (bmapno a1 = bmapno a) as Eb by (unfold pt_bmapno; by rewrite (ex_sb _ _ _ _ He)).
  assert (ind_of d' = ind_of d1) as Ei by (destruct (ex_ind _ _ _ _ H1) as [?|[? _]]; done).
  split; try done.
  - by eapply extends_trans.
  - intros _. apply H5. by rewrite Hsame.
  - intros n Hu Hn. rewrite Hv'; [by apply Hvs|by apply (ex_used _ _ _ _ He)|].
    destruct (ex_ind _ _ _ _ He) as [E|[_ E]]; [congruence|]. by intros ->.
  - intros i Hi Hne. rewrite H6 by done. by apply Hsame.
  - rewrite Eb in H7. rewrite <- Ei in Hpin. set_solver.
  - lia.
Qed.

Section Steps.
Context a d i (Hw : wf a d) (Hr : ready a) (Hv : forall n, blk_ok (V a n))
  (Hi : 0 <= i < nbits a) (Hb : bit_of (bitmap a) i = false).
Abbreviation b := (data_blk a i).

Lemma fresh_blk : ~ used a b /\ 0 < b < 2 ^ 32.
Proof using Hr Hi Hb.
  split; [by apply free_unused|]. pose proof (bmapno_range e part a). pose proof (ar_wrap _ _ _ Hr). unfold pt_blk. lia.
Qed.
Lemma ind_taken_view : ind_of d <> 0 -> V (taken e part i a) (ind_of d) = V a (ind_of d).
Proof using Hw Hr Hv Hi Hb. intros Hn. apply taken_view_used; try done. by apply (fw_indused _ _ _ Hw). Qed.

(** A direct block. *)
Lemma mapped_direct bn : 0 <= bn < NDIRECT -> addr_at d bn = 0 ->
  mapped a d bn b (taken e part i a) (set_addr bn b d).
Proof using Hw Hr Hv Hi Hb.
  intros Hbn Hz. destruct fresh_blk as [Hfr Hpos]. pose proof (fw_len _ _ _ Hw) as Hl. unfold NDIRECT in *.
  assert (iaddr (V a) d bn = 0) as Hz' by (unfold iaddr, NDIRECT; destruct (Z.ltb_spec bn 12); [done|lia]).
  assert (ind_of (set_addr bn b d) = ind_of d) as Ei.
  { unfold ind_of, NDIRECT. rewrite addr_set by lia. rewrite decide_False by lia. done. }
  assert (forall j, 0 <= j < MAXFILE -> iaddr (V (taken e part i a)) (set_addr bn b d) j =
    if decide (j = bn) then b else iaddr (V a) d j) as Hm.
  { intros j Hj. rewrite (iaddr_ext (V a)) by (rewrite Ei; apply ind_taken_view). unfold iaddr. rewrite Ei, addr_set by lia.
    unfold NDIRECT. case_decide; [|done]. subst. by destruct (Z.ltb_spec bn 12); [|lia]. }
  assert (wf (taken e part i a) (set_addr bn b d)) as Hw'.
  { eapply (grow_data (used a) _ (V a) d _ _ bn b); try done.
    - rewrite MAXFILE_val. lia.
    - intros n. by apply used_taken.
    - by rewrite set_addr_length. }
  split; try done.
  - apply extends_taken; try done; [by left|]. intros j Hj. rewrite Hm by done. case_decide; [subst; by right|by left].
  - rewrite Hm by (rewrite MAXFILE_val; lia). by rewrite decide_True.
  - lia.
  - intros _. rewrite taken_view by done. by rewrite decide_True.
  - intros n Hu _. by apply taken_view_used.
  - intros j Hj Hne. rewrite Hm by done. by rewrite decide_False.
  - simpl. set_solver.
  - rewrite (nfree_taken a i) by done. unfold need. rewrite Ei. lia.
Qed.

(** The indirect block itself. *)
Lemma get32_zero off : get32 off zero_blk = 0.
Proof using Type.
  clear. unfold get32, bslice, zero_blk. rewrite drop_replicate, take_replicate. generalize (4 `min` (BSIZEn - off))%nat.
  intros n. induction n as [|n IH]; [done|]. simpl. rewrite IH. done.
Qed.
Lemma extends_ind : ind_of d = 0 ->
  let a1 := taken e part i a in let d1 := set_addr NDIRECT b d in
  extends a d a1 d1 /\ ind_of d1 = b /\ (forall j, 0 <= j < MAXFILE -> iaddr (V a1) d1 j = iaddr (V a) d j) /\
  (nfree a + need d1 <= nfree a1 + need d)%nat.
Proof using Hw Hr Hv Hi Hb.
  intros Hz a1 d1. destruct fresh_blk as [Hfr Hpos]. pose proof (fw_len _ _ _ Hw) as Hl.
  assert (ind_of d1 = b) as Ei by (unfold d1, ind_of, NDIRECT; rewrite addr_set by lia; by rewrite decide_True).
  assert (forall j, 0 <= j < MAXFILE -> iaddr (V a1) d1 j = iaddr (V a) d j) as Hm.
  { intros j Hj. unfold iaddr. rewrite Ei, Hz, Z.eqb_refl. destruct (Z.ltb_spec j NDIRECT).
    - unfold d1. rewrite addr_set by (unfold NDIRECT in *; lia). by rewrite decide_False by lia.
    - destruct (Z.eqb_spec b 0); [lia|]. unfold a1. rewrite taken_view by done. rewrite decide_True by done. apply get32_zero. }
  split_and!; try done.
  - apply extends_taken; try done; [|right; split; [done|by rewrite Ei]|intros j Hj; left; by apply Hm].
    eapply (grow_ind (used a) _ (V a) d _ _ b); try done; [lia|intros n; by apply used_taken|by unfold d1; rewrite set_addr_length].
  - unfold need. rewrite Ei, Hz. rewrite (nfree_taken a i) by done. fold a1. destruct (Z.eqb_spec b 0); simpl; lia.
Qed.

(** A block of the indirect block. *)
Lemma mapped_entry bn : NDIRECT <= bn < MAXFILE -> ind_of d <> 0 -> iaddr (V a) d bn = 0 ->
  mapped a d bn b (logged (dev, ind_of d) (put32 (Z.to_nat (4 * (bn - NDIRECT))) b (V a (ind_of d))) (taken e part i a)) d.
Proof using Hw Hr Hv Hi Hb.
  intros Hbn Hind Hz. destruct fresh_blk as [Hfr Hpos]. set (k := Z.to_nat _). set (x := put32 _ _ _). set (a1 := taken e part i a).
  pose proof (fw_indused _ _ _ Hw Hind) as Hu. destruct (used_ne a _ Hr Hu) as (Hn1 & Hn2 & Hok & _).
  assert (k + 4 <= BSIZEn)%nat as Hk by (rewrite MAXFILE_val in Hbn; unfold k, NDIRECT, BSIZE in *; lia).
  assert (ready a1) as Hr1 by (apply taken_ready; [done|done|apply Hv]).
  assert (bmapno a1 = bmapno a) as Eb by (by apply taken_bmapno).
  assert (part_sb e part (logged (dev, ind_of d) x a1) = part_sb e part a1) as Esb by (by apply part_sb_logged).
  assert (forall n, used (logged (dev, ind_of d) x a1) n <-> used a n \/ n = b) as Hused.
  { intros n. rewrite <- used_taken by done. fold a1. unfold used, pt_blk, pt_bmapno. rewrite Esb.
    unfold pt_bitmap. rewrite bmapno_logged by done. rewrite view_logged_ne by (by rewrite Eb). done. }
  assert (forall j, 0 <= j < MAXFILE -> iaddr (V (logged (dev, ind_of d) x a1)) d j = if decide (j = bn) then b else iaddr (V a) d j) as Hm.
  { intros j Hj. unfold iaddr. destruct (Z.ltb_spec j NDIRECT); [by rewrite decide_False by lia|].
    destruct (Z.eqb_spec (ind_of d) 0); [done|]. rewrite view_logged_same. unfold x. case_decide as E.
    - subst j. fold k. rewrite get_put32 by (destruct (Hv (ind_of d)) as [-> _]; lia). apply u32_small. lia.
    - apply get32_put32_ne; [destruct (Hv (ind_of d)) as [-> _]; lia|]. unfold k. lia. }
  assert (wf (logged (dev, ind_of d) x a1) d) as Hw'.
  { eapply (grow_data (used a) _ (V a) d _ _ bn b); try done; [unfold NDIRECT in *; lia|apply (fw_len _ _ _ Hw)]. }
  assert (b <> ind_of d) as Hbi by (intros E; apply Hfr; by rewrite E).
  assert (forall n, used a n -> n <> ind_of d -> V (logged (dev, ind_of d) x a1) n = V a n) as Hview.
  { intros n Hn Hne. rewrite view_logged_ne by done. by apply taken_view_used. }
  split; try done.
  - split; try done.
    + intros n Hn. apply Hused. by left.
    + by left.
    + intros j Hj. rewrite Hm by done. case_decide; [subst; by right|by left].
    + intros n Hn Hne. apply Hview; [done|]. intros ->. apply Hne. by left.
    + intros n Hn Hd. rewrite view_logged_ne.
      * unfold a1. rewrite taken_view by done. rewrite !decide_False; [done|done|]. intros ->. apply Hd. eauto.
      * intros ->. apply Hd. destruct Hu as (j & Hj & -> & _). eauto.
    + rewrite Esb. by apply taken_sb.
    + apply alloc_ready_logged; [done|by rewrite Eb|done].
    + by destruct d.
  - rewrite Hm by (unfold NDIRECT in *; lia). by rewrite decide_True.
  - lia.
  - intros _. rewrite view_logged_ne by done. unfold a1. rewrite taken_view by done. by rewrite decide_True.
  - intros j Hj Hne. rewrite Hm by done. by rewrite decide_False.
  - simpl. set_solver.
  - rewrite (nfree_taken a i) by done. fold a1.
    replace (nfree (logged (dev, ind_of d) x a1)) with (nfree a1); [lia|]. unfold nfree.
    rewrite Esb, bitmap_logged; [done|done|by rewrite Eb].
Qed.
End Steps.

(** ** [bmap] *)

Lemma calm_kept a : calm a -> kept a = c_pinned a.
Proof. intros [Hh Ht]. unfold kept. rewrite Hh, map_img_empty_L. set_solver. Qed.
Lemma calm_quiet a n : calm a -> be_ok e n -> quietly e a n.
Proof. intros [Hh Ht] Hok. split_and!; [done|intros i; by rewrite Hh|rewrite Ht; set_solver]. Qed.
Lemma extends_calm a d a' d' : extends a d a' d' -> calm a -> calm a'.
Proof. intros He [Hh Ht]. split; [by rewrite (ex_held _ _ _ _ He)|by rewrite (ex_touched _ _ _ _ He)]. Qed.

Lemma ready_hold bp a n : ready a -> used a n -> ready (hold bp (dev, n) a).
Proof.
  intros Hr Hu. destruct (used_ne a n Hr Hu) as (Hn1 & Hn2 & _ & _).
  assert (forall m, (forall j, c_held a !! j <> Some (dev, m)) -> n <> m -> forall j, c_held (hold bp (dev, n) a) !! j <> Some (dev, m)) as Hheld.
  { intros m Hm Hne j. simpl. destruct (decide (j = bp)) as [-> |Hj]; [rewrite lookup_insert_eq; congruence|].
    by rewrite lookup_insert_ne. }
  destruct Hr as [H1 H2 H3 (Q1 & Q2 & Q3) (P1 & P2 & P3) H6 H7]. split; try done.
  - split_and!; [done|by apply Hheld|done].
  - split_and!; [done|by apply Hheld|done].
  - intros i Hi Hb. apply Hheld; [by apply H7|]. change (data_blk (hold bp (dev, n) a) i) with (data_blk a i).
    intros ->. by apply (free_unused a i).
Qed.

Lemma wp_bmap_indirect s0 a s d bn :
  moved e s0 a s -> on_part e pi part s0 -> ready a -> calm a -> wf a d -> NDIRECT <= bn < MAXFILE -> ind_of d <> 0 ->
  (size (c_pinned a) + 2 < be_cap e)%nat -> (size (c_pinned a) + 2 < Z.to_nat NBUF)%nat ->
  (iaddr (V a) d bn = 0 -> (1 <= nfree a)%nat) ->
  wp (part <- part_at pi ;;
      bp <- bread (p_dev part) (ind_of d) ;;
      v <- get_data bp ;;
      addr <- (if get32 (Z.to_nat (4 * (bn - NDIRECT))) v =? 0 then
               addr <- balloc pi ;;
               put_data bp (put32 (Z.to_nat (4 * (bn - NDIRECT))) addr v) ;;;
               log_write bp ;;; ret addr
             else ret (get32 (Z.to_nat (4 * (bn - NDIRECT))) v)) ;;
      brelse bp ;;; ret addr)
    (fun b s' => exists a', moved e s0 a' s' /\ mapped a d bn b a' d) s.
Proof.
  intros Hm Hon Hr Hcalm Hw Hbn Hind Hcap Hbuf Hfree. pose proof Hon as (_ & _ & Hdev).
  pose proof (fw_indused _ _ _ Hw Hind) as Hu. destruct (used_ne a _ Hr Hu) as (Hn1 & Hn2 & Hok & _).
  assert (forall n, blk_ok (V a n)) as Hv by (intros n; eapply k_view_ok, moved_rep; exact Hm).
  pose proof (calm_quiet a _ Hcalm Hok) as Hq. pose proof (calm_kept a Hcalm) as Hkept.
  apply (wp_part_at e pi part); [by eapply on_part_moved|]. rewrite Hdev.
  eapply bread_rule; [exact Hm|apply quietly_readable; [done|rewrite Hkept; lia]|]. intros bp s1 Hbp Hm1.
  eapply get_rule; [exact Hm1|by apply lookup_insert_eq|]. change (view_at _ _) with (V a (ind_of d)).
  assert (iaddr (V a) d bn = get32 (Z.to_nat (4 * (bn - NDIRECT))) (V a (ind_of d))) as Ea.
  { unfold iaddr. destruct (Z.ltb_spec bn NDIRECT); [lia|]. by destruct (Z.eqb_spec (ind_of d) 0). }
  rewrite <- Ea. apply wp_bind. destruct (Z.eqb_spec (iaddr (V a) d bn) 0) as [Hz|Hz].
  2:{ apply wp_ret. eapply brelse_rule; [exact Hm1|by apply lookup_insert_eq|apply Hq|]. intros s2 Hm2.
      rewrite release_hold in Hm2 by done. apply wp_ret. exists a. split; [done|].
      apply mapped_old; try done. unfold NDIRECT in *. lia. }
  pose proof (kept_hold bp (dev, ind_of d) a) as Hkh. apply size_add in Hkh. rewrite Hkept in Hkh.
  apply wp_bind. eapply wp_mono; [apply (wp_balloc e pi part s0 _ s1 Hm1 Hon (ready_hold bp a _ Hr Hu))|].
  { lia. } { simpl. lia. } { by apply free_exists, Hfree. }
  intros b s2 (i & Hi & Hb & _ & -> & Hm2).
  change (taken e part i (hold bp (dev, ind_of d) a)) with (hold bp (dev, ind_of d) (taken e part i a)) in Hm2.
  change (data_blk (hold bp (dev, ind_of d) a) i) with (data_blk a i).
  change (bitmap (hold bp (dev, ind_of d) a)) with (bitmap a) in Hb.
  eapply put_rule; [exact Hm2|by apply lookup_insert_eq|apply put32_blk_ok; [|apply Hv]|].
  { rewrite MAXFILE_val in Hbn. unfold NDIRECT in *. lia. }
  intros s3 Hm3. pose proof (taken_kept e part a i) as [_ Hpin].
  eapply log_rule; [exact Hm3|by apply lookup_insert_eq|done|simpl in *; lia|]. intros s4 Hm4. apply wp_ret.
  eapply brelse_rule; [exact Hm4|by apply lookup_insert_eq|simpl; set_solver|]. intros s5 Hm5.
  rewrite release_logged in Hm5; [|done|apply Hq]. apply wp_ret. eexists. split; [exact Hm5|]. by apply mapped_entry.
Qed.

Lemma set_entry_same s ip x : entry_is s ip x -> set_entry ip (set_di (i_di x) x) s = s.
Proof.
  intros [_ E]. destruct s, x. unfold set_entry, set_di, with_icache. simpl in *. by rewrite list_insert_id.
Qed.
Lemma on_part_entry s ip x : on_part e pi part s -> on_part e pi part (set_entry ip x s).
Proof. done. Qed.

Lemma wp_bmap s0 a s ip x bn :
  moved e s0 a s -> entry_is s0 ip x -> i_prt x = pi -> on_part e pi part s0 -> ready a -> calm a -> wf a (i_di x) ->
  0 <= bn < MAXFILE -> (size (c_pinned a) + 4 < be_cap e)%nat -> (size (c_pinned a) + 4 < Z.to_nat NBUF)%nat ->
  (iaddr (V a) (i_di x) bn = 0 -> (1 + need (i_di x) <= nfree a)%nat) ->
  wp (bmap ip bn) (fun b s' => exists a' d',
    moved e (set_entry ip (set_di d' x) s0) a' s' /\ mapped a (i_di x) bn b a' d') s.
Proof.
  intros Hm He Hp Hon Hr Hcalm Hw Hbn Hcap Hbuf Hfree. set (d := i_di x) in *.
  assert (forall n, blk_ok (V a n)) as Hv by (intros n; eapply k_view_ok, moved_rep; exact Hm).
  pose proof (calm_kept a Hcalm) as Hkept. unfold bmap. eapply wp_get_inode; [done..|]. fold d. rewrite Hp. cbv zeta.
  destruct (Z.ltb_spec bn NDIRECT) as [Hd|Hd].
  - assert (iaddr (V a) d bn = addr_at d bn) as Ea by (unfold iaddr; by destruct (Z.ltb_spec bn NDIRECT); [|lia]).
    rewrite <- Ea. destruct (Z.eqb_spec (iaddr (V a) d bn) 0) as [Hz|Hz].
    + apply wp_bind. eapply wp_mono; [apply (wp_balloc e pi part s0 a s Hm Hon Hr); [rewrite Hkept; lia|lia|]|].
      { apply free_exists. specialize (Hfree Hz). lia. }
      intros b s1 (i & Hi & Hb & _ & -> & Hm1). unfold upd_di.
      eapply wp_upd_inode; [exact Hm1|exact He|]. intros s2 Hm2. apply wp_ret. eexists _, _. split; [exact Hm2|].
      apply mapped_direct; [done..|lia|exact (eq_trans (eq_sym Ea) Hz)].
    + apply wp_ret. exists a, d. unfold d. rewrite set_entry_same by done. split; [done|]. by apply mapped_old.
  - change (MAXFILE) with (NDIRECT + NINDIRECT) in *. destruct (Z.ltb_spec (bn - NDIRECT) NINDIRECT); [|lia].
    apply wp_bind. fold (ind_of d). destruct (Z.eqb_spec (ind_of d) 0) as [Hz|Hz].
    + assert (iaddr (V a) d bn = 0) as Hz0.
      { unfold iaddr. destruct (Z.ltb_spec bn NDIRECT); [lia|]. by rewrite Hz. }
      specialize (Hfree Hz0). apply wp_bind.
      eapply wp_mono; [apply (wp_balloc e pi part s0 a s Hm Hon Hr); [rewrite Hkept; lia|lia|apply free_exists; lia]|].
      intros b s1 (i & Hi & Hb & _ & -> & Hm1). unfold upd_di.
      eapply wp_upd_inode; [exact Hm1|exact He|]. intros s2 Hm2. apply wp_ret. fold d in Hm2.
      destruct (extends_ind a d i Hw Hr Hv Hi Hb Hz) as (Hex & Ei & Hsame & Hfr).
      destruct (fresh_blk a i Hr Hi Hb) as [_ Hpos]. pose proof (taken_kept e part a i) as [_ Hpin].
      set (a1 := taken e part i a) in *. set (d1 := set_addr NDIRECT (data_blk a i) d) in *.
      eapply wp_mono; [rewrite <- Ei; apply (wp_bmap_indirect _ a1 s2 d1 bn Hm2)|].
      * done.
      * apply (ex_ready _ _ _ _ Hex).
      * by eapply extends_calm.
      * apply (ex_wf _ _ _ _ Hex).
      * change MAXFILE with (NDIRECT + NINDIRECT). lia.
      * lia.
      * lia.
      * lia.
      * intros _. unfold need in *. rewrite Hz in *. destruct (Z.eqb_spec (ind_of d1) 0); simpl in *; lia.
      * intros b s3 (a' & Hm3 & Hmp). exists a', d1. split; [done|].
        eapply mapped_after; try done; [|lia|rewrite Ei; simpl; set_solver].
        intros n Hu. by apply taken_view_used.
    + apply wp_ret. eapply wp_mono; [apply (wp_bmap_indirect s0 a s d bn); try done; try lia|].
      * change MAXFILE with (NDIRECT + NINDIRECT). lia.
      * intros b s1 (a' & Hm1 & Hmp). exists a', d. split; [|done]. unfold d. by rewrite set_entry_same.
Qed.

(** ** Bytes *)

Lemma div_block p : 0 <= p < MAXFILE * BSIZE -> 0 <= p / BSIZE < MAXFILE.
Proof. unfold BSIZE. rewrite MAXFILE_val. zlia. Qed.

Lemma nth_zero_blk k : nth k zero_blk 0 = 0.
Proof. rewrite nth_lookup. destruct (zero_blk !! k) as [v|] eqn:E; [|done]. by apply lookup_replicate in E as [-> _]. Qed.

(** Mapping a block changes no byte of the file. *)
Lemma content_mapped a d bn b a' d' p : wf a d -> mapped a d bn b a' d' -> 0 <= p < MAXFILE * BSIZE ->
  content (V a') d' p = content (V a) d p.
Proof.
  intros Hw [H1 H2 H3 H4 H5 H5v H6 _ _] Hp%div_block. unfold content. destruct (decide (p / BSIZE = bn)) as [E|E].
  - rewrite E. destruct (decide (iaddr (V a) d bn = 0)) as [Hz|Hz].
    + rewrite H2, Hz, H5 by done. rewrite Z.eqb_refl. destruct (Z.eqb_spec b 0); [done|]. apply nth_zero_blk.
    + by destruct (H4 Hz) as [-> ->].
  - rewrite H6 by done. destruct (Z.eqb_spec (iaddr (V a) d (p / BSIZE)) 0) as [|Hn]; [done|]. f_equal.
    apply H5v; [by apply (fw_used _ _ _ Hw)|by apply (fw_ind _ _ _ Hw)].
Qed.

(** Overwriting a data block of the file. *)
Lemma extends_block a d bn y : wf a d -> ready a -> 0 <= bn < MAXFILE -> iaddr (V a) d bn <> 0 ->
  let a' := logged (dev, iaddr (V a) d bn) y a in
  extends a d a' d /\ (forall i, iaddr (V a') d i = iaddr (V a) d i) /\ nfree a' = nfree a /\
  forall p, 0 <= p < MAXFILE * BSIZE ->
    content (V a') d p = if decide (p / BSIZE = bn) then nth (Z.to_nat (p mod BSIZE)) y 0 else content (V a) d p.
Proof.
  intros Hw Hr Hbn Hn a'. set (b := iaddr (V a) d bn) in *. pose proof (fw_used _ _ _ Hw bn Hbn Hn) as Hu. fold b in Hu.
  destruct (used_ne a b Hr Hu) as (Hn1 & Hn2 & _ & _).
  assert (forall i, iaddr (V a') d i = iaddr (V a) d i) as Hm.
  { intros i. apply iaddr_ext. intros _. apply view_logged_ne. intros E. by apply (fw_ind _ _ _ Hw bn Hbn Hn). }
  assert (part_sb e part a' = part_sb e part a) as Esb by (by apply part_sb_logged).
  assert (bitmap a' = bitmap a) as Ebm by (by apply bitmap_logged).
  assert (forall n, used a' n <-> used a n) as Hus.
  { intros n. unfold used, pt_blk, pt_bmapno. rewrite Ebm, Esb. done. }
  split_and!; [|done|unfold nfree; by rewrite Esb, Ebm|].
  - split; try done.
    + destruct Hw as [W1 W2 W3 W4 W5 W6 W7]. split; try done; intros i; rewrite ?Hm; auto.
      * intros j. rewrite Hm. auto.
      * intros. apply Hus. auto.
      * apply Hus. auto.
    + intros n. by rewrite Hus.
    + by left.
    + intros i _. left. by rewrite Hm.
    + intros n Hun Hno. apply view_logged_ne. intros ->. apply Hno. right. eauto.
    + intros n Hnb Hnd. apply view_logged_ne. intros ->. apply Hnd. destruct Hu as (i & Hi & -> & _). eauto.
    + by apply alloc_ready_logged.
    + by destruct d.
  - intros p Hp%div_block. unfold content. rewrite Hm. case_decide as E.
    + rewrite E. fold b. destruct (Z.eqb_spec b 0); [done|]. unfold a'. by rewrite view_logged_same.
    + destruct (Z.eqb_spec (iaddr (V a) d (p / BSIZE)) 0) as [|Hn']; [done|]. f_equal. apply view_logged_ne.
      intros E'. by apply E, (fw_inj _ _ _ Hw).
Qed.

(** ** Reading *)

Lemma slice_content a d off m : 0 <= off -> 0 <= m -> off mod BSIZE + m <= BSIZE ->
  length (V a (iaddr (V a) d (off / BSIZE))) = BSIZEn -> iaddr (V a) d (off / BSIZE) <> 0 ->
  bslice (Z.to_nat (off mod BSIZE)) (Z.to_nat m) (V a (iaddr (V a) d (off / BSIZE))) =
  map (content (V a) d) (seqZ off m).
Proof.
  intros Ho Hm Hr Hl Hn. unfold BSIZE in *. apply list_eq. intros i. rewrite list_lookup_fmap.
  destruct (decide (i < Z.to_nat m)%nat) as [Hi|Hi].
  - rewrite bslice_lookup, lookup_seqZ_lt by lia. simpl. unfold content, BSIZE.
    assert ((off + Z.of_nat i) / 512 = off / 512) as -> by zlia.
    destruct (Z.eqb_spec (iaddr (V a) d (off / 512)) 0); [done|].
    assert (Z.to_nat ((off + Z.of_nat i) mod 512) = (Z.to_nat (off mod 512) + i)%nat) as -> by zlia.
    rewrite nth_lookup. destruct (V a _ !! _) eqn:E; [done|]. apply lookup_ge_None in E. zlia.
  - rewrite bslice_lookup_ge, lookup_seqZ_ge by lia. done.
Qed.

(** A round that does not end the transfer ends at a block boundary. *)
Lemma next_round off left k : 0 <= off -> left + off mod BSIZE <= BSIZE * Z.of_nat (Datatypes.S k) ->
  let m := Z.min left (BSIZE - off mod BSIZE) in m < left ->
  left - m + (off + m) mod BSIZE <= BSIZE * Z.of_nat k.
Proof. unfold BSIZE. intros. zlia. Qed.

Lemma wp_readi_loop fuel s0 a s ip x off n tot :
  moved e s0 a s -> entry_is s0 ip x -> i_prt x = pi -> on_part e pi part s0 -> ready a -> calm a -> wf a (i_di x) ->
  (size (c_pinned a) + 4 < be_cap e)%nat -> (size (c_pinned a) + 4 < Z.to_nat NBUF)%nat ->
  0 <= off -> 0 <= tot <= n -> off + (n - tot) <= di_size (i_di x) ->
  (tot < n -> n - tot + off mod BSIZE <= BSIZE * Z.of_nat fuel) ->
  wp (readi_loop fuel ip dev off n tot) (fun out s' =>
    moved e s0 a s' /\ out = map (content (V a) (i_di x)) (seqZ off (n - tot))) s.
Proof.
  revert s off tot. induction fuel as [|fuel IH]; intros s off tot Hm He Hp Hon Hr Hcalm Hw Hcap Hbuf Ho Ht Hsz Hfu; cbn [readi_loop].
  - destruct (Z.ltb_spec tot n); [unfold BSIZE in *; zlia|]. apply wp_ret. split; [done|].
    replace (n - tot) with 0 by lia. done.
  - destruct (Z.ltb_spec tot n) as [Hlt|]; [|apply wp_ret; split; [done|]; by replace (n - tot) with 0 by lia].
    pose proof (fw_size _ _ _ Hw) as Hmax.
    assert (0 <= off / BSIZE < MAXFILE) as Hbn by (apply div_block; lia).
    assert (iaddr (V a) (i_di x) (off / BSIZE) <> 0) as Hn by (apply (fw_cover _ _ _ Hw); unfold BSIZE in *; zlia).
    assert (forall n, blk_ok (V a n)) as Hv by (intros k; eapply k_view_ok, moved_rep; exact Hm).
    apply wp_bind. eapply wp_mono; [by apply (wp_bmap s0 a s ip x (off / BSIZE))|].
    intros b s1 (a' & d' & Hm1 & Hmp). destruct (mp_old _ _ _ _ _ _ Hmp Hn) as [-> ->]. pose proof (mp_addr _ _ _ _ _ _ Hmp) as Eb.
    rewrite set_entry_same in Hm1 by done. destruct (used_ne a b Hr) as (_ & _ & Hok & _).
    { rewrite <- Eb. by apply (fw_used _ _ _ Hw). }
    pose proof (calm_quiet a b Hcalm Hok) as Hq. cbv zeta. set (m := Z.min _ _).
    eapply wp_peek; [exact Hm1|apply quietly_readable; [done|rewrite calm_kept by done; lia]|apply Hq|]. intros s2 Hm2.
    apply wp_bind. assert (0 < m /\ m <= n - tot /\ off mod BSIZE + m <= BSIZE) as (Hm0 & Hmn & Hmb) by (unfold m, BSIZE in *; zlia).
    rewrite u32_small by (rewrite MAXFILE_val in Hmax; unfold BSIZE in *; lia).
    eapply wp_mono; [apply (IH s2 (off + m) (tot + m)); try done; [lia..|]|].
    { intros Hlt'. replace (n - (tot + m)) with (n - tot - m) by lia. apply next_round; [done|auto|unfold m in *; lia]. }
    intros rest s3 [Hm3 ->]. apply wp_ret. split; [done|]. rewrite <- Eb, slice_content; [|done|lia|done|apply Hv|done].
    rewrite <- map_app. f_equal. replace (n - tot) with (m + (n - (tot + m))) by lia. by rewrite seqZ_app by lia.
Qed.

(** ** Writing *)

(** [f] with the bytes [w] at [off]. *)
Definition over (off : Z) (w : list Z) (f : Z -> Z) (p : Z) : Z :=
  if decide (off <= p < off + Z.of_nat (length w)) then nth (Z.to_nat (p - off)) w 0 else f p.
Lemma over_app off w1 w2 f p : over (off + Z.of_nat (length w1)) w2 (over off w1 f) p = over off (w1 ++ w2) f p.
Proof.
  unfold over. rewrite length_app. repeat case_decide; try lia; try done.
  - rewrite app_nth2 by lia. f_equal. lia.
  - rewrite app_nth1 by lia. done.
Qed.
Lemma over_ext off w f g p : f p = g p -> over off w f p = over off w g p.
Proof. unfold over. by case_decide. Qed.

(** The blocks the transaction may come to hold besides the data. *)
Definition budget a d : nat := (size ({[(dev, bmapno a)]} ∪ ({[(dev, ind_of d)]} ∪ c_pinned a)) + need d)%nat.
Lemma budget_pinned a d : (size (c_pinned a) <= budget a d)%nat.
Proof. unfold budget. etransitivity; [|apply Nat.le_add_r]. apply subseteq_size. set_solver. Qed.
Lemma mapped_used a d bn b a' d' : mapped a d bn b a' d' -> 0 <= bn < MAXFILE -> used a' b.
Proof.
  intros Hmp Hbn. rewrite <- (mp_addr _ _ _ _ _ _ Hmp). apply (fw_used _ _ _ (ex_wf _ _ _ _ (mp_ext _ _ _ _ _ _ Hmp))); [done|].
  rewrite (mp_addr _ _ _ _ _ _ Hmp). apply (mp_pos _ _ _ _ _ _ Hmp).
Qed.
Lemma budget_round a d bn b a' d' y : 0 <= bn < MAXFILE -> mapped a d bn b a' d' ->
  (budget (logged (dev, b) y a') d' <= budget a d + 1)%nat.
Proof.
  intros Hbn Hmp. pose proof (mp_ext _ _ _ _ _ _ Hmp) as Hex. pose proof (mp_pin _ _ _ _ _ _ Hmp) as Hpin.
  destruct (used_ne a' b (ex_ready _ _ _ _ Hex) (mapped_used _ _ _ _ _ _ Hmp Hbn)) as (Hb1 & Hb2 & _ & _).
  unfold budget. rewrite bmapno_logged by done.
  assert (bmapno a' = bmapno a) as -> by (unfold pt_bmapno; by rewrite (ex_sb _ _ _ _ Hex)). simpl.
  set (P := c_pinned a) in *. destruct (decide (ind_of d' = ind_of d)) as [E|E].
  - unfold need. rewrite E in *. pose proof (size_add (dev, b) ({[(dev, bmapno a)]} ∪ ({[(dev, ind_of d)]} ∪ P))
        ({[(dev, bmapno a)]} ∪ ({[(dev, ind_of d)]} ∪ ({[(dev, b)]} ∪ c_pinned a'))) ltac:(set_solver)). lia.
  - destruct (ex_ind _ _ _ _ Hex) as [?|[Hz _]]; [done|]. unfold need. rewrite Hz in *.
      destruct (Z.eqb_spec (ind_of d') 0); [done|]. simpl.
      pose proof (size_add (dev, b) ({[(dev, ind_of d')]} ∪ ({[(dev, bmapno a)]} ∪ P))
        ({[(dev, bmapno a)]} ∪ ({[(dev, ind_of d')]} ∪ ({[(dev, b)]} ∪ c_pinned a'))) ltac:(set_solver)).
      pose proof (size_add (dev, ind_of d') ({[(dev, bmapno a)]} ∪ P) _ ltac:(done)).
      pose proof (subseteq_size ({[(dev, bmapno a)]} ∪ P) ({[(dev, bmapno a)]} ∪ ({[(dev, 0)]} ∪ P)) ltac:(set_solver)). lia.
Qed.

(** One round: map the block, overwrite [w] in it. *)
Lemma write_round a d off b a' d' w : wf a d -> 0 <= off -> off mod BSIZE + Z.of_nat (length w) <= BSIZE ->
  off / BSIZE < MAXFILE -> mapped a d (off / BSIZE) b a' d' -> length (V a' b) = BSIZEn ->
  let a2 := logged (dev, b) (bsplice (Z.to_nat (off mod BSIZE)) w (V a' b)) a' in
  extends a d a2 d' /\ iaddr (V a2) d' (off / BSIZE) <> 0 /\ (budget a2 d' <= budget a d + 1)%nat /\
  (nfree a + need d' <= nfree a2 + 1 + need d)%nat /\
  forall p, 0 <= p < MAXFILE * BSIZE -> content (V a2) d' p = over off w (content (V a) d) p.
Proof.
  intros Hw Ho Hlen Hbn Hmp Hl a2. pose proof (mp_ext _ _ _ _ _ _ Hmp) as Hex. pose proof (mp_addr _ _ _ _ _ _ Hmp) as Eb.
  assert (0 <= off / BSIZE < MAXFILE) as Hbn' by (unfold BSIZE in *; zlia). pose proof (mp_pos _ _ _ _ _ _ Hmp) as Hpos.
  set (y := bsplice _ w _) in *.
  destruct (extends_block a' d' (off / BSIZE) y (ex_wf _ _ _ _ Hex) (ex_ready _ _ _ _ Hex) Hbn') as (Hex2 & Hm2 & Hf2 & Hc2);
    [by rewrite Eb|]. rewrite Eb in Hex2, Hm2, Hf2, Hc2. fold a2 in Hex2, Hm2, Hf2, Hc2.
  split_and!.
  - by eapply extends_trans.
  - by rewrite Hm2, Eb.
  - by eapply budget_round.
  - rewrite Hf2. apply (mp_free _ _ _ _ _ _ Hmp).
  - intros p Hp. rewrite Hc2 by done. pose proof (content_mapped a d _ b a' d' p Hw Hmp Hp) as Hc. case_decide as E.
    + pose proof (Z.div_mod p BSIZE ltac:(done)). pose proof (Z.div_mod off BSIZE ltac:(done)).
      pose proof (Z.mod_pos_bound p BSIZE ltac:(done)). pose proof (Z.mod_pos_bound off BSIZE ltac:(done)).
      unfold y. rewrite nth_lookup, bsplice_lookup by (rewrite Hl; unfold BSIZE in *; lia). unfold over.
      repeat case_decide; try (exfalso; rewrite E in *; lia).
      * rewrite nth_lookup. do 2 f_equal. rewrite E in *. lia.
      * rewrite <- Hc. unfold content. rewrite E, Eb. destruct (Z.eqb_spec b 0); [done|]. by rewrite nth_lookup.
    + rewrite Hc. unfold over. rewrite decide_False; [done|]. intros Hin. apply E. unfold BSIZE in *. zlia.
Qed.

Lemma wp_writei_loop fuel k s0 a s ip x off n tot src :
  moved e s0 a s -> entry_is s0 ip x -> i_prt x = pi -> on_part e pi part s0 -> ready a -> calm a -> wf a (i_di x) ->
  (budget a (i_di x) + k + 4 <= be_cap e)%nat -> (budget a (i_di x) + k + 4 <= Z.to_nat NBUF)%nat ->
  (k + need (i_di x) <= nfree a)%nat -> bytes_ok src ->
  0 <= off -> 0 <= tot <= n -> n - tot = Z.of_nat (length src) -> off + (n - tot) <= MAXFILE * BSIZE ->
  (tot < n -> n - tot + off mod BSIZE <= BSIZE * Z.of_nat k) -> (k <= fuel)%nat ->
  wp (writei_loop fuel ip dev off n tot src) (fun r s' => r = off + (n - tot) /\ exists a' d',
    moved e (set_entry ip (set_di d' x) s0) a' s' /\ extends a (i_di x) a' d' /\
    (forall i, off / BSIZE <= i -> i * BSIZE < off + (n - tot) -> tot < n -> iaddr (V a') d' i <> 0) /\
    (budget a' d' <= budget a (i_di x) + k)%nat /\
    ((forall i, off / BSIZE <= i -> i * BSIZE < off + (n - tot) -> iaddr (V a) (i_di x) i <> 0) -> d' = i_di x) /\
    forall p, 0 <= p < MAXFILE * BSIZE -> content (V a') d' p = over off src (content (V a) (i_di x)) p) s.
Proof.
  revert k s0 a s x off tot src. induction fuel as [|fuel IH];
    intros k s0 a s x off tot src Hm He Hp Hon Hr Hcalm Hw Hcap Hbuf Hfree Hsrc Ho Ht Hlen Hmax Hk Hfu; cbn [writei_loop];
    (destruct (Z.ltb_spec tot n) as [Hlt|Hge];
      [|apply wp_ret; split; [lia|]; exists a, (i_di x); rewrite set_entry_same by done;
        destruct src; [|simpl in Hlen; lia]; split_and!; [done|by apply extends_refl|lia|lia|done|
        intros p _; unfold over; simpl; rewrite decide_False by lia; done]]).
  { unfold BSIZE in *. zlia. }
  destruct k as [|k]; [unfold BSIZE in *; zlia|].
  assert (0 <= off / BSIZE < MAXFILE) as Hbn by (apply div_block; lia). pose proof (budget_pinned a (i_di x)) as Hpb.
  apply wp_bind. eapply wp_mono; [apply (wp_bmap s0 a s ip x (off / BSIZE)); try done; try lia|].
  intros b s1 (a' & d' & Hm1 & Hmp). pose proof (mp_ext _ _ _ _ _ _ Hmp) as Hex.
  pose proof (mapped_used _ _ _ _ _ _ Hmp Hbn) as Hub. destruct (used_ne a' b (ex_ready _ _ _ _ Hex) Hub) as (Hb1 & Hb2 & Hok & _).
  assert (forall n, blk_ok (V a' n)) as Hv by (intros j; eapply k_view_ok, moved_rep; exact Hm1).
  cbv zeta. set (m := Z.min _ _). set (w := take (Z.to_nat m) src).
  assert (0 < m <= n - tot /\ off mod BSIZE + m <= BSIZE) as [Hm0 Hmb] by (unfold m, BSIZE in *; zlia).
  assert (Z.of_nat (length w) = m) as Hwl by (unfold w; rewrite length_take; lia).
  destruct (write_round a (i_di x) off b a' d' w Hw Ho) as (Hex2 & Hia & Hbud & Hfr & Hcont); [lia|lia|done|apply Hv|].
  set (a2 := logged _ _ a') in *. pose proof (extends_calm _ _ _ _ Hex Hcalm) as Hcalm'.
  assert (size (c_pinned a') <= budget a2 d')%nat as Hpa.
  { etransitivity; [|apply budget_pinned]. apply subseteq_size. simpl. set_solver. }
  eapply (wp_rewrite e _ a' s1 b (bsplice (Z.to_nat (off mod BSIZE)) w)); [exact Hm1|by apply calm_quiet|
    rewrite calm_kept by done; lia|lia| |].
  { destruct (Hv b) as [Hvl Hvb]. split; [rewrite bsplice_length; [done|rewrite Hvl; unfold BSIZE in *; zlia]|].
    apply bytes_ok_splice; [by apply Forall_take|done]. }
  intros s2 Hm2. fold a2 in Hm2.
  eapply wp_mono; [apply (IH k _ a2 s2 (set_di d' x) (off + m) (tot + m) (drop (Z.to_nat m) src) Hm2)|]; try done.
  - by eapply entry_set.
  - apply (ex_ready _ _ _ _ Hex2).
  - apply (ex_wf _ _ _ _ Hex2).
  - simpl. lia.
  - simpl. lia.
  - simpl. lia.
  - by apply Forall_drop.
  - lia.
  - lia.
  - rewrite length_drop. lia.
  - lia.
  - intros Hlt'. replace (n - (tot + m)) with (n - tot - m) by lia. apply next_round; [done|auto|unfold m in *; lia].
  - lia.
  - intros r s3 (-> & a3 & d3 & Hm3 & Hex3 & Hcov & Hbud3 & Hsame3 & Hc3). rewrite set_entry_twice in Hm3. cbn [i_di set_di] in Hex3, Hbud3, Hsame3, Hc3.
    split; [lia|]. exists a3, d3. split_and!; [done|by eapply extends_trans| |lia| |].
    + intros i Hi1 Hi2 _. destruct (decide (i = off / BSIZE)) as [-> |Hne].
      * destruct (ex_keep _ _ _ _ Hex3 (off / BSIZE) Hbn) as [-> |[? _]]; done.
      * apply Hcov; unfold m, BSIZE in *; zlia.
    + intros Hall. destruct (mp_old _ _ _ _ _ _ Hmp) as [Ea Ed]; [apply Hall; unfold BSIZE in *; zlia|].
      rewrite <- Ed. apply Hsame3. intros i Hi1 Hi2.
      destruct (ex_keep _ _ _ _ Hex2 i) as [-> |[Hz _]]; [unfold BSIZE in *; rewrite MAXFILE_val in *; zlia| |].
      * apply Hall; unfold BSIZE in *; zlia.
      * exfalso. revert Hz. apply Hall; unfold BSIZE in *; zlia.
    + intros p Hp'. rewrite Hc3 by done. replace (off + m) with (off + Z.of_nat (length w)) by lia. rewrite (over_ext _ _ _ _ p (Hcont p Hp')), over_app.
      unfold w. by rewrite take_drop.
Qed.

(** ** The two operations *)

Lemma bytes_length v d : 0 <= di_size d -> length (file_bytes v d) = Z.to_nat (di_size d).
Proof. intros. unfold file_bytes. by rewrite length_map, length_seqZ. Qed.
Lemma bytes_lookup v d i : (i < Z.to_nat (di_size d))%nat -> file_bytes v d !! i = Some (content v d (Z.of_nat i)).
Proof. intros Hi. unfold file_bytes. by rewrite list_lookup_fmap, lookup_seqZ_lt by lia. Qed.
Lemma bytes_slice v d off k : 0 <= off -> 0 <= k -> off + k <= di_size d ->
  map (content v d) (seqZ off k) = bslice (Z.to_nat off) (Z.to_nat k) (file_bytes v d).
Proof.
  intros Ho Hk Hs. apply list_eq. intros i. rewrite list_lookup_fmap. destruct (decide (i < Z.to_nat k)%nat).
  - rewrite lookup_seqZ_lt, bslice_lookup, bytes_lookup by lia. simpl. do 2 f_equal. lia.
  - by rewrite lookup_seqZ_ge, bslice_lookup_ge by lia.
Qed.

Section Readi.
Variable dev_read : Z -> option (Z -> Z -> M fs (Z * list Z)).

Lemma wp_readi s a ip x off n :
  k_rep e (f_blk s) a -> entry_is s ip x -> i_prt x = pi -> on_part e pi part s -> ready a -> calm a -> wf a (i_di x) ->
  di_type (i_di x) <> T_DEV -> 0 <= off < 2 ^ 32 -> 0 <= n < 2 ^ 31 ->
  (size (c_pinned a) + 4 < be_cap e)%nat -> (size (c_pinned a) + 4 < Z.to_nat NBUF)%nat ->
  wp (readi dev_read ip off n) (fun r s' => moved e s a s' /\
    let size := di_size (i_di x) in
    r = if (off <=? size) && (off + n <? 2 ^ 32)
        then (Z.min n (size - off), bslice (Z.to_nat off) (Z.to_nat n) (file_bytes (V a) (i_di x)))
        else (-1, [])) s.
Proof.
  intros Hk He Hp Hon Hr Hcalm Hw Hty Ho Hn Hcap Hbuf. pose proof (moved_start _ _ _ Hk) as Hm.
  pose proof (fw_size _ _ _ Hw) as Hsz. rewrite MAXFILE_val in Hsz. unfold BSIZE in Hsz.
  unfold readi. eapply wp_get_inode; [done..|]. destruct (Z.eqb_spec (di_type (i_di x)) T_DEV); [done|].
  set (d := i_di x) in *. cbv zeta. destruct (Z.leb_spec off (di_size d)) as [Hle|Hgt].
  2:{ rewrite (proj2 (Z.gtb_lt off (di_size d))) by lia. simpl. by apply wp_ret. }
  assert ((off >? di_size d) = false) as -> by lia. simpl.
  destruct (Z.ltb_spec (off + n) (2 ^ 32)) as [Hlt|Hge].
  2:{ assert ((u32 (off + n) <? off) = true) as ->; [|by apply wp_ret].
      unfold u32. apply Z.ltb_lt. rewrite <- (Z_mod_plus_full _ (-1)), Z.mod_small by lia. lia. }
  rewrite u32_small by lia. destruct (Z.ltb_spec (off + n) off); [lia|].
  rewrite Hp. apply (wp_part_at e pi part); [done|]. pose proof Hon as (_ & _ & ->).
  set (n' := if off + n >? di_size d then di_size d - off else n).
  assert (n' = Z.min n (di_size d - off)) as En by (unfold n'; destruct (Z.gtb_spec (off + n) (di_size d)); lia).
  apply wp_bind. eapply wp_mono; [apply (wp_readi_loop _ s a s ip x off n' 0); try done; try lia|].
  - fold d. lia.
  - intros _. unfold rounds, BSIZE. zlia.
  - intros out s' [Hm' ->]. apply wp_ret. split; [done|]. fold d.
    assert (s32 n' = n') as -> by (apply s32_small; lia).
    f_equal; [done|]. rewrite Z.sub_0_r, bytes_slice by lia. unfold bslice. rewrite En.
    destruct (decide (n <= di_size d - off)); [by rewrite Z.min_l|]. rewrite Z.min_r by lia.
    rewrite !take_ge; [done|rewrite length_drop, bytes_length; lia|rewrite length_drop, bytes_length; lia].
Qed.

(** C15. [readi] of an ordinary file: an offset past the end, or a range that wraps around, is
    refused; otherwise it returns the bytes of the file from the offset on, as
    many as were asked for or as there are, and changes nothing. *)
Theorem readi_slice s a ip x off n :
  k_rep e (f_blk s) a -> entry_is s ip x -> i_prt x = pi -> on_part e pi part s -> ready a -> calm a -> wf a (i_di x) ->
  di_type (i_di x) <> T_DEV -> 0 <= off < 2 ^ 32 -> 0 <= n < 2 ^ 31 ->
  (size (c_pinned a) + 4 < be_cap e)%nat -> (size (c_pinned a) + 4 < Z.to_nat NBUF)%nat ->
  wp (readi dev_read ip off n) (fun r s' => moved e s a s' /\
    let size := di_size (i_di x) in
    r = if (off <=? size) && (off + n <? 2 ^ 32)
        then (Z.min n (size - off), bslice (Z.to_nat off) (Z.to_nat n) (file_bytes (V a) (i_di x)))
        else (-1, [])) s.
Proof. exact (wp_readi s a ip x off n). Qed.

End Readi.

Variable dev_write : Z -> option (Z -> list Z -> M fs Z).

(** A block in front of the bitmap is overwritten. *)
Lemma meta_logged a d n y : wf a d -> ready a -> n <> offset part -> n < bmapno a ->
  let a' := logged (dev, n) y a in
  wf a' d /\ ready a' /\ (forall m, used a m -> used a' m) /\ part_sb e part a' = part_sb e part a /\
  (forall m, used a m -> V a' m = V a m) /\ forall p, 0 <= p < MAXFILE * BSIZE -> content (V a') d p = content (V a) d p.
Proof.
  intros Hw Hr Hn1 Hn2 a'. assert (part_sb e part a' = part_sb e part a) as Esb by (by apply part_sb_logged).
  assert (bitmap a' = bitmap a) as Ebm by (apply bitmap_logged; lia).
  assert (forall m, used a m -> V a' m = V a m) as Hview.
  { intros m (i & Hi & -> & _). apply view_logged_ne. unfold pt_blk. lia. }
  assert (forall m, used a' m <-> used a m) as Hus.
  { intros m. unfold used, pt_blk, pt_bmapno. rewrite Ebm, Esb. done. }
  assert (forall i, iaddr (V a') d i = iaddr (V a) d i) as Hm.
  { intros i. apply iaddr_ext. intros Hi. by apply Hview, (fw_indused _ _ _ Hw). }
  split_and!; try done.
  - destruct Hw as [W1 W2 W3 W4 W5 W6 W7]. split; try done; intros i; rewrite ?Hm; auto.
    + intros j. rewrite Hm. auto.
    + intros. apply Hus. auto.
    + apply Hus. auto.
  - apply alloc_ready_logged; [done|lia|done].
  - intros m. by rewrite Hus.
  - intros p Hp%div_block. unfold content. rewrite Hm. destruct (Z.eqb_spec (iaddr (V a) d (p / BSIZE)) 0); [done|].
    f_equal. by apply Hview, (fw_used _ _ _ Hw).
Qed.
Lemma wf_size a d sz : wf a d -> 0 <= sz <= MAXFILE * BSIZE ->
  (forall i, 0 <= i -> i * BSIZE < sz -> iaddr (V a) d i <> 0) -> wf a (set_size sz d).
Proof. intros [W1 W2 W3 W4 W5 W6 W7] Hs Hc. by split. Qed.

Lemma wf_addrs a d : wf a d -> ready a -> Forall (fun b => 0 <= b < 2 ^ 32) (di_addrs d).
Proof.
  intros Hw Hr. apply Forall_lookup_2. intros j v Ej. pose proof (lookup_lt_Some _ _ _ Ej) as Hj. rewrite (fw_len _ _ _ Hw) in Hj.
  assert (forall n, n = 0 \/ used a n -> 0 <= n < 2 ^ 32) as Hrange.
  { intros n [-> |(i & Hi & -> & _)]; [lia|]. pose proof (ar_wrap _ _ _ Hr). pose proof (bmapno_range e part a). unfold pt_blk. lia. }
  assert (addr_at d (Z.of_nat j) = v) as <- by (unfold addr_at; by rewrite Nat2Z.id, nth_lookup, Ej).
  apply Hrange. destruct (decide (addr_at d (Z.of_nat j) = 0)) as [|Hn]; [by left|right].
  destruct (decide (j = 12%nat)) as [-> |]; [by apply (fw_indused _ _ _ Hw)|].
  assert (iaddr (V a) d (Z.of_nat j) = addr_at d (Z.of_nat j)) as Ei.
  { unfold iaddr, NDIRECT. by destruct (Z.ltb_spec (Z.of_nat j) 12); [|lia]. }
  rewrite <- Ei. apply (fw_used _ _ _ Hw); [rewrite MAXFILE_val; lia|by rewrite Ei].
Qed.

(** Overwriting and extending, as lists. *)
Lemma bytes_over v d v' d' off src : 0 <= off <= di_size d -> 0 <= di_size d ->
  di_size d' = Z.max (di_size d) (off + Z.of_nat (length src)) ->
  (forall p, 0 <= p < di_size d' -> content v' d' p = over off src (content v d) p) ->
  file_bytes v' d' = take (Z.to_nat off) (file_bytes v d) ++ src ++ drop (Z.to_nat off + length src) (file_bytes v d).
Proof.
  intros Ho Hs Hs' Hc. apply list_eq. intros i. destruct (decide (i < Z.to_nat (di_size d'))%nat) as [Hi|Hi].
  - rewrite bytes_lookup, Hc by lia. unfold over. case_decide as Hin.
    + rewrite lookup_app_r, lookup_app_l; rewrite length_take, bytes_length by lia; [|lia..].
      rewrite nth_lookup. replace (Z.to_nat (Z.of_nat i - off)) with (i - Z.to_nat off `min` Z.to_nat (di_size d))%nat by lia.
      destruct (lookup_lt_is_Some_2 src (i - Z.to_nat off `min` Z.to_nat (di_size d)) ltac:(lia)) as [c ->]. done.
    + destruct (decide (i < Z.to_nat off)%nat).
      * rewrite lookup_app_l by (rewrite length_take, bytes_length; lia). rewrite lookup_take_lt, bytes_lookup by lia. done.
      * rewrite lookup_app_r, lookup_app_r; rewrite length_take, bytes_length by lia; [|lia..].
        rewrite lookup_drop, bytes_lookup by lia. do 2 f_equal. lia.
  - rewrite (proj2 (lookup_ge_None _ _)) by (rewrite bytes_length; lia). symmetry. apply lookup_ge_None.
    rewrite !length_app, length_take, length_drop, bytes_length by lia. lia.
Qed.

Abbreviation inodes := (inodes_ready e part).
(** The inode area ends in front of the bitmap, as mkfs lays it out. *)
Definition inodes_first a : Prop :=
  sb_inodestart (part_sb e part a) + sb_ninodes (part_sb e part a) / IPB < bmapno a.
Lemma iblk_first a j : inodes a -> inodes_first a -> 0 <= j < sb_ninodes (part_sb e part a) ->
  iblk e part a j < bmapno a /\ iblk e part a j <> offset part.
Proof.
  intros Hi Hf Hj. split; [|by apply iblk_off]. rewrite iblk_eq by done. unfold inodes_first in Hf. change IPB with 8 in Hf. zlia.
Qed.
Lemma inodes_ext a a' : part_sb e part a' = part_sb e part a -> calm a' -> calm a -> inodes a -> inodes a'.
Proof.
  intros Esb Hc' Hc [H1 H2 H3 H4]. split; rewrite ?Esb; try done.
  - apply calm_quiet; [done|apply H3].
  - intros j Hj. unfold iblk. rewrite Esb. apply calm_quiet; [done|]. by apply (H4 j).
Qed.

(** The blocks a transfer touches. *)
Definition spans (off n : Z) : nat := Z.to_nat ((off mod BSIZE + n + BSIZE - 1) / BSIZE).

(** What [writei] leaves: the new bytes, an inode on disk that agrees with the one in
    memory, and every other file and inode as they were. *)
Record stored a (x : inode) off src a' d' : Prop := {
  so_wf : wf a' d';
  so_ready : ready a';
  so_bytes : let old := file_bytes (V a) (i_di x) in
    file_bytes (V a') d' = take (Z.to_nat off) old ++ src ++ drop (Z.to_nat off + length src) old;
  so_disk : dinode_at e part a' (i_inum x) = d';
  so_other : forall j, 0 <= j < sb_ninodes (part_sb e part a) -> j <> i_inum x -> dinode_at e part a' j = dinode_at e part a j;
  so_files : forall m, used a m -> ~ owns (V a) (i_di x) m -> used a' m /\ V a' m = V a m
}.

Lemma dinode_at_ext a d a' d' j : extends a d a' d' -> inodes a -> inodes_first a -> 0 <= j < sb_ninodes (part_sb e part a) ->
  dinode_at e part a' j = dinode_at e part a j.
Proof.
  intros Hex Hi Hf Hj. unfold dinode_at, iblk. rewrite (ex_sb _ _ _ _ Hex). fold (iblk e part a j). f_equal.
  destruct (iblk_first a j Hi Hf Hj). apply (ex_meta _ _ _ _ Hex); [lia|]. intros (i & Hi' & E). unfold pt_blk in E. lia.
Qed.

(** The new size is recorded, in memory and on disk. *)
Lemma stored_grow a x off src a1 d1 :
  let d2 := set_size (off + Z.of_nat (length src)) d1 in
  extends a (i_di x) a1 d1 -> inodes a -> inodes_first a -> calm a -> (forall n, blk_ok (V a1 n)) -> dinode_ok (i_di x) ->
  0 <= i_inum x < sb_ninodes (part_sb e part a) -> 0 <= off <= di_size (i_di x) ->
  di_size (i_di x) < off + Z.of_nat (length src) <= MAXFILE * BSIZE ->
  (forall i, off / BSIZE <= i -> i * BSIZE < off + Z.of_nat (length src) -> iaddr (V a1) d1 i <> 0) ->
  (forall p, 0 <= p < MAXFILE * BSIZE -> content (V a1) d1 p = over off src (content (V a) (i_di x)) p) ->
  stored a x off src (with_dinode e part a1 (i_inum x) d2) d2.
Proof.
  intros d2 Hex Hi Hf Hcalm Hv Hdk Hin Hoff Hgrow Hcov Hc. pose proof (ex_sb _ _ _ _ Hex) as Esb.
  pose proof (ex_wf _ _ _ _ Hex) as Hw1. pose proof (fw_size _ _ _ Hw1) as Hs1. pose proof (ex_di _ _ _ _ Hex) as Edi.
  assert (di_size d1 = di_size (i_di x)) as Esz by (by rewrite Edi).
  assert (inodes a1) as Hi1 by (eapply inodes_ext; [exact Esb|by eapply extends_calm|done|done]).
  assert (inodes_first a1) as Hf1 by (unfold inodes_first, pt_bmapno in *; by rewrite Esb).
  assert (wf a1 d2) as Hw2.
  { apply wf_size; [done|lia|]. intros i H0 Hi2. destruct (decide (i * BSIZE < di_size d1)); [by apply (fw_cover _ _ _ Hw1)|].
    apply Hcov; [unfold BSIZE in *; zlia|done]. }
  rewrite <- Esb in Hin. destruct (iblk_first a1 _ Hi1 Hf1 Hin) as [Hb1 Hb2].
  destruct (meta_logged a1 d2 _ (put_dinode (dinode_off (i_inum x)) d2 (V a1 (iblk e part a1 (i_inum x)))) Hw2 (ex_ready _ _ _ _ Hex) Hb2 Hb1)
    as (Hw3 & Hr3 & Hu3 & _ & Hv3 & Hc3).
  fold (with_dinode e part a1 (i_inum x) d2) in *.
  assert (dinode_ok d2) as Hdk2.
  { destruct Hdk as [D1 D2 D3 D4 D5 D6 D7]. pose proof (wf_addrs a1 d2 Hw2 (ex_ready _ _ _ _ Hex)) as Ha. rewrite MAXFILE_val in Hgrow.
    unfold d2 in *. rewrite Edi in *. split; simpl; try done; [unfold BSIZE in *; lia|]. apply (fw_len _ _ _ Hw1). }
  split; try done.
  - apply bytes_over; [done|lia|simpl; lia|]. intros p Hp. rewrite Hc3 by (simpl in Hp; lia).
    rewrite <- Hc by (simpl in Hp; lia). done.
  - rewrite with_dinode_at by done. by rewrite decide_True.
  - intros j Hj Hne. rewrite <- Esb in Hj. rewrite with_dinode_at by done. rewrite decide_False by done.
    rewrite Esb in Hj. by eapply dinode_at_ext.
  - intros m Hm Ho. pose proof (ex_used _ _ _ _ Hex m Hm) as Hm1. split; [by apply Hu3|].
    rewrite Hv3 by done. by apply (ex_view _ _ _ _ Hex).
Qed.

(** Within the old size nothing but bytes changes. *)
Lemma stored_inside a x off src a1 d1 :
  wf a (i_di x) -> extends a (i_di x) a1 d1 -> inodes a -> inodes_first a -> dinode_at e part a (i_inum x) = i_di x ->
  0 <= i_inum x < sb_ninodes (part_sb e part a) -> 0 <= off -> off + Z.of_nat (length src) <= di_size (i_di x) -> d1 = i_di x ->
  (forall p, 0 <= p < MAXFILE * BSIZE -> content (V a1) d1 p = over off src (content (V a) (i_di x)) p) ->
  stored a x off src a1 d1.
Proof.
  intros Hw Hex Hi Hf Hdisk Hin Ho Hlen Ed Hc. pose proof (fw_size _ _ _ Hw) as Hsz. split.
  - apply (ex_wf _ _ _ _ Hex).
  - apply (ex_ready _ _ _ _ Hex).
  - apply bytes_over; [lia|lia|rewrite Ed; lia|]. intros p Hp. apply Hc. rewrite Ed in Hp. lia.
  - rewrite (dinode_at_ext a (i_di x) a1 d1) by done. by rewrite Hdisk, Ed.
  - intros j Hj _. by eapply dinode_at_ext.
  - intros m Hm Ho'. split; [by apply (ex_used _ _ _ _ Hex)|by apply (ex_view _ _ _ _ Hex)].
Qed.

Lemma wp_writei s a ip x off src :
  let n := Z.of_nat (length src) in let d := i_di x in
  k_rep e (f_blk s) a -> entry_is s ip x -> i_prt x = pi -> on_part e pi part s -> ready a -> calm a -> wf a d ->
  inodes a -> inodes_first a -> 0 <= i_inum x < sb_ninodes (part_sb e part a) -> dinode_at e part a (i_inum x) = d ->
  dinode_ok d -> di_type d <> T_DEV -> 0 <= off < 2 ^ 31 -> n < 2 ^ 31 -> bytes_ok src ->
  (budget a d + spans off n + 4 <= be_cap e)%nat -> (budget a d + spans off n + 4 <= Z.to_nat NBUF)%nat ->
  (spans off n + need d <= nfree a)%nat ->
  wp (writei dev_write ip src off n) (fun r s' =>
    if (off <=? di_size d) && (off + n <=? MAXFILE * BSIZE)
    then r = n /\ exists a' d', moved e (set_entry ip (set_di d' x) s) a' s' /\ stored a x off src a' d'
    else r = -1 /\ s' = s) s.
Proof.
  intros n d Hk He Hp Hon Hr Hcalm Hw Hi Hf Hin Hdisk Hdk Hty Ho Hn Hsrc Hcap Hbuf Hfree.
  pose proof (moved_start _ _ _ Hk) as Hm. pose proof (fw_size _ _ _ Hw) as Hsz.
  unfold writei. eapply wp_get_inode; [done..|]. fold d. destruct (Z.eqb_spec (di_type d) T_DEV); [done|].
  rewrite u32_small by lia. destruct (Z.ltb_spec (off + n) off); [lia|]. rewrite orb_false_r.
  destruct (Z.gtb_spec off (di_size d)); destruct (Z.leb_spec off (di_size d)); try lia; [by apply wp_ret|].
  destruct (Z.gtb_spec (off + n) (MAXFILE * BSIZE)); destruct (Z.leb_spec (off + n) (MAXFILE * BSIZE)); try lia; [by apply wp_ret|].
  cbn [andb]. rewrite Hp. apply (wp_part_at e pi part); [done|]. pose proof Hon as (_ & _ & ->).
  apply wp_bind. eapply wp_mono; [apply (wp_writei_loop (rounds n) (spans off n) s a s ip x off n 0 src); try done; try lia|].
  - unfold spans, BSIZE. zlia.
  - unfold spans, rounds, BSIZE. zlia.
  - intros r s1 (-> & a1 & d1 & Hm1 & Hex & Hcov & Hbud & Hsame & Hc). rewrite Z.sub_0_r in *. fold d in Hex, Hsame, Hc, Hbud.
    pose proof (entry_set s ip x (set_di d1 x) He) as He1. eapply wp_get_inode; [exact Hm1|exact He1|]. simpl i_di.
    assert (di_size d1 = di_size d) as Esz by (by rewrite (ex_di _ _ _ _ Hex)). rewrite Esz.
    destruct (Z.gtb_spec (off + n) (di_size d)) as [Hg|Hng].
    + assert ((n >? 0) = true) as -> by lia. simpl. apply wp_bind, wp_bind. unfold upd_di.
      eapply wp_upd_inode_last; [exact Hm1|exact He1|]. intros s2 Hm2. rewrite set_entry_twice in Hm2. simpl in Hm2.
      set (d2 := set_size (off + n) d1) in *. pose proof (entry_set s ip x (set_di d2 x) He) as He2.
      pose proof (budget_pinned a1 d1) as Hpin. pose proof (extends_calm _ _ _ _ Hex Hcalm) as Hcalm1.
      assert (inodes a1) as Hi1 by (eapply inodes_ext; [apply (ex_sb _ _ _ _ Hex)|done..]).
      eapply wp_mono; [apply (wp_iupdate e pi part _ a1 s2 ip (set_di d2 x) Hm2 He2); try done|].
      * apply (ir_sb _ _ _ Hi1).
      * apply (ir_blk _ _ _ Hi1). rewrite (ex_sb _ _ _ _ Hex). done.
      * rewrite calm_kept by done. lia.
      * lia.
      * apply (fw_len _ _ _ (ex_wf _ _ _ _ Hex)).
      * intros [] s3 Hm3. change (i_inum (set_di d2 x)) with (i_inum x) in Hm3. apply wp_ret. split; [done|]. eexists _, d2. split; [exact Hm3|].
        apply stored_grow; try done; fold d n; try lia; [|intros; apply Hcov; lia].
        intros k. eapply k_view_ok, moved_rep. exact Hm1.
    + rewrite andb_false_r. apply wp_bind, wp_ret, wp_ret. split; [done|]. exists a1, d1. split; [done|].
      apply stored_inside; try done; [lia|]. apply Hsame. intros i Hi1 Hi2. apply (fw_cover _ _ _ Hw); unfold BSIZE in *; zlia.
Qed.

(** C13. [writei] to an ordinary file refuses an offset past the end and a range past the largest
    file, changing nothing; otherwise, given free blocks and room in the
    transaction, it writes all bytes: the file is the old one with them put at
    the offset, the inode on disk agrees with the one in memory, and no other
    file or inode changes. *)
Theorem writei_bytes s a ip x off src :
  let n := Z.of_nat (length src) in let d := i_di x in
  k_rep e (f_blk s) a -> entry_is s ip x -> i_prt x = pi -> on_part e pi part s -> ready a -> calm a -> wf a d ->
  inodes a -> inodes_first a -> 0 <= i_inum x < sb_ninodes (part_sb e part a) -> dinode_at e part a (i_inum x) = d ->
  dinode_ok d -> di_type d <> T_DEV -> 0 <= off < 2 ^ 31 -> n < 2 ^ 31 -> bytes_ok src ->
  (budget a d + spans off n + 4 <= be_cap e)%nat -> (budget a d + spans off n + 4 <= Z.to_nat NBUF)%nat ->
  (spans off n + need d <= nfree a)%nat ->
  wp (writei dev_write ip src off n) (fun r s' =>
    if (off <=? di_size d) && (off + n <=? MAXFILE * BSIZE)
    then r = n /\ exists a' d', moved e (set_entry ip (set_di d' x) s) a' s' /\ stored a x off src a' d'
    else r = -1 /\ s' = s) s.
Proof. exact (wp_writei s a ip x off src). Qed.
End Grow.
