(* ===== verification/Path.v ===== *)
(** * Path names: [skipelem] of fs.c

    A path is the sequence of its components, what stands between slashes; [skipelem]
    takes them off one by one, cut to the length of a directory entry. *)

From S2P Require Import Prelude Buf Blocks Fs.

Implicit Types (path name e : list Z).

(** Splitting at every slash, and dropping the empty parts. *)
Fixpoint split_slash path : list (list Z) :=
  match path with
  | [] => [[]]
  | c :: path' =>
      if c =? SLASH then [] :: split_slash path'
      else match split_slash path' with w :: ws => (c :: w) :: ws | [] => [[c]] end
  end.
Definition components path : list (list Z) := filter (fun w => w <> []) (split_slash path).

Lemma split_nonempty path : split_slash path <> [].
Proof. destruct path as [|c path]; [done|]. simpl. destruct (c =? SLASH); [done|]. by destruct (split_slash path). Qed.

Lemma components_slash path : components (SLASH :: path) = components path.
Proof. unfold components. simpl. done. Qed.
Lemma components_skip path : components (skip_slashes path) = components path.
Proof.
  induction path as [|c path IH]; [done|]. simpl. destruct (Z.eqb_spec c SLASH) as [-> |]; [|done].
  by rewrite IH, components_slash.
Qed.
Lemma skip_head path c rest : skip_slashes path = c :: rest -> c <> SLASH.
Proof.
  induction path as [|x path IH]; [done|]. simpl. destruct (Z.eqb_spec x SLASH) as [|Hn]; [by apply IH|].
  by intros [= -> _].
Qed.

(** The first component of a path that does not start with a slash. *)
Lemma split_span path e rest : span_elem path = (e, rest) ->
  exists ws, split_slash path = e :: ws /\ filter (fun w => w <> []) ws = components rest /\ path = e ++ rest.
Proof.
  revert e rest. induction path as [|c path IH]; intros e rest; simpl.
  - intros [= <- <-]. exists []. split_and!; try done.
  - destruct (Z.eqb_spec c SLASH) as [-> |Hn].
    + intros [= <- <-]. exists (split_slash path). split_and!; [done|by rewrite components_slash|done].
    + destruct (span_elem path) as [e1 r1] eqn:E. intros [= <- <-].
      destruct (IH _ _ eq_refl) as (ws & Es & Ef & Ep). exists ws. rewrite Es. split_and!; [done|done|by rewrite Ep].
Qed.
Lemma span_nonempty c path e rest : c <> SLASH -> span_elem (c :: path) = (e, rest) -> e <> [].
Proof. intros Hc. simpl. destruct (Z.eqb_spec c SLASH); [done|]. destruct (span_elem path). by intros [= <- _]. Qed.
Lemma skip_shorter path : (length (skip_slashes path) <= length path)%nat.
Proof. induction path as [|c path IH]; [done|]. simpl. destruct (c =? SLASH); simpl; lia. Qed.

(** What the copy into [name] leaves there. *)
Lemma name_copied name e : length name = Z.to_nat DIRSIZ -> Forall (fun c => c <> 0) e ->
  let name' := if Z.of_nat (length e) >=? DIRSIZ then bsplice 0 (take (Z.to_nat DIRSIZ) e) name else bsplice 0 (e ++ [0]) name in
  length name' = Z.to_nat DIRSIZ /\ cstr name' = take (Z.to_nat DIRSIZ) e.
Proof.
  intros Hn He. change (Z.to_nat DIRSIZ) with 14%nat in *. unfold DIRSIZ.
  destruct (Z.geb_spec (Z.of_nat (length e)) 14) as [Hl|Hl]; cbv zeta.
  - rewrite bsplice_all by (rewrite length_take; lia). split; [rewrite length_take; lia|]. by apply cstr_all, Forall_take.
  - rewrite bsplice_length by (rewrite length_app; simpl; lia). split; [done|]. unfold bsplice. simpl.
    rewrite <- app_assoc. simpl. rewrite cstr_nul by done. by rewrite take_ge by lia.
Qed.

(** C24. [skipelem] takes the first component off a path: it reports none exactly when the path has
    none; otherwise the buffer holds the component cut to [DIRSIZ] bytes, as a C
    string, and the rest, which does not start with a slash, has the remaining components.  The rest is
    strictly shorter, so the loop of [namex] ends. *)
Theorem skipelem_components path name :
  Forall (fun c => c <> 0) path -> length name = Z.to_nat DIRSIZ ->
  match skipelem path name with
  | None => components path = []
  | Some (rest, name') => exists e, components path = e :: components rest /\ cstr name' = take (Z.to_nat DIRSIZ) e /\
      length name' = Z.to_nat DIRSIZ /\ hd 0 rest <> SLASH /\ (length rest < length path)%nat
  end.
Proof.
  intros Hp Hn. unfold skipelem. pose proof (components_skip path) as Ec. pose proof (skip_shorter path) as Hsh.
  destruct (skip_slashes path) as [|c p] eqn:Es; [done|]. pose proof (skip_head _ _ _ Es) as Hc.
  destruct (span_elem (c :: p)) as [e rest] eqn:Esp. destruct (split_span _ _ _ Esp) as (ws & E1 & E2 & E3).
  assert (Forall (fun c => c <> 0) (c :: p)) as Hcp.
  { rewrite <- Es. clear -Hp. induction Hp as [|x l Hx Hl IH]; [done|]. simpl. destruct (x =? SLASH); [done|]. by constructor. }
  rewrite E3 in Hcp. apply Forall_app in Hcp as [He _]. destruct (name_copied name e Hn He) as [Hlen Hstr].
  pose proof (span_nonempty _ _ _ _ Hc Esp) as Hne. exists e. split_and!.
  - rewrite <- Ec. unfold components. rewrite E1. rewrite filter_cons_True by done. f_equal. by rewrite E2, <- components_skip.
  - done.
  - done.
  - destruct (skip_slashes rest) as [|x r] eqn:Er; [done|]. simpl. by eapply skip_head.
  - pose proof (skip_shorter rest). apply (f_equal length) in E3. rewrite length_app in E3. destruct e; [done|]. simpl in *. lia.
Qed.

(** The examples in the comment of [skipelem]. *)
Lemma skipelem_components_witness :
  let name := replicate 14 0 in
  skipelem [47; 47; 47; 97; 47; 47; 98; 98] name = Some ([98; 98], 97 :: replicate 13 0) /\
  components [47; 47; 47; 97; 47; 47; 98; 98] = [97] :: components [98; 98].
Proof.
  split; [reflexivity|].
  destruct (skipelem_components [47; 47; 47; 97; 47; 47; 98; 98] (replicate 14 0)) as (e & He & _).
  - repeat constructor; discriminate.
  - reflexivity.
  - reflexivity.
Defined.
