(* ===== verification/Icache.v ===== *)
(** * The inode cache: [iget], [idup], [iput] of fs.c

    An entry of the cache stands for one inode of one partition as long as somebody
    holds a reference to it. *)

From S2P Require Import Prelude Buf Blocks Fs Balloc Inode.

Section Icache.
Context {S : Type} `{BK : Blocks S}.
Abbreviation fs := (fsys (S := S)).
Implicit Type (s : fs) (l : list inode).

(** What an entry stands for, and how often it is referenced. *)
Definition ident (x : inode) : Z * Z * Z := (i_prt x, i_inum x, i_ref x).
Definition idents s : list (Z * Z * Z) := map ident (f_icache s).

(** Everything but [iget], [idup] and the last step of [iput] keeps them. *)
Definition same_ids s s' : Prop := idents s' = idents s.
#[global] Instance same_ids_preorder : PreOrder same_ids.
Proof. split; [by intros s|]. intros s1 s2 s3 H1 H2. unfold same_ids in *. congruence. Qed.
Abbreviation keeps m := (moves same_ids m).

Lemma keeps_on_blk {A} (m : M S A) : keeps (on_blk m).
Proof. by apply moves_lift. Qed.
Lemma keeps_part_at p : keeps (part_at p).
Proof. intros s r s'. unfold part_at. case_match; [by intros [= _ <-]|done]. Qed.
Lemma keeps_get_inode i : keeps (get_inode i).
Proof. intros s r s'. unfold get_inode. case_match; [by intros [= _ <-]|done]. Qed.
Lemma keeps_upd_inode i f : (forall x, ident (f x) = ident x) -> keeps (upd_inode i f).
Proof.
  intros Hf s r s'. unfold upd_inode, bind, get_inode. destruct (i <? 0); [done|].
  destruct (f_icache s !! Z.to_nat i) as [x|] eqn:E; [|done]. intros [= _ <-]. unfold same_ids, idents. simpl.
  apply list_eq. intros j. rewrite !list_lookup_fmap. destruct (decide (j = Z.to_nat i)) as [-> |Hne].
  - rewrite list_lookup_insert_eq by (by eapply lookup_lt_Some). rewrite E. simpl. by rewrite Hf.
  - by rewrite list_lookup_insert_ne.
Qed.
Lemma keeps_upd_di i f : keeps (upd_di i f).
Proof. by apply keeps_upd_inode. Qed.
#[local] Hint Resolve keeps_on_blk keeps_part_at keeps_get_inode keeps_upd_di : moves.
#[local] Hint Extern 1 (moves _ (upd_inode _ _)) => by apply keeps_upd_inode : moves.
#[local] Hint Extern 1 (moves _ (Fs.bread _ _)) => apply keeps_on_blk : moves.
#[local] Hint Extern 1 (moves _ (Fs.get_data _)) => apply keeps_on_blk : moves.
#[local] Hint Extern 1 (moves _ (Fs.put_data _ _)) => apply keeps_on_blk : moves.
#[local] Hint Extern 1 (moves _ (Fs.log_write _)) => apply keeps_on_blk : moves.
#[local] Hint Extern 1 (moves _ (Fs.brelse _)) => apply keeps_on_blk : moves.

Lemma keeps_readsb p : keeps (readsb p).
Proof. unfold readsb. moves. Qed.
#[local] Hint Resolve keeps_readsb : moves.
Lemma keeps_balloc p : keeps (balloc p).
Proof. unfold balloc, bzero. moves. Qed.
Lemma keeps_bfree p b : keeps (bfree p b).
Proof. unfold bfree. moves. Qed.
#[local] Hint Resolve keeps_balloc keeps_bfree : moves.
Lemma keeps_iupdate ip : keeps (iupdate ip).
Proof. unfold iupdate. moves. Qed.
Lemma keeps_ilock ip : keeps (ilock ip).
Proof. unfold ilock. moves. Qed.
Lemma keeps_iunlock ip : keeps (iunlock ip).
Proof. unfold iunlock. moves. Qed.
Lemma keeps_bmap ip bn : keeps (bmap ip bn).
Proof. unfold bmap. moves. Qed.
#[local] Hint Resolve keeps_iupdate keeps_ilock keeps_iunlock keeps_bmap : moves.
Lemma keeps_itrunc ip : keeps (itrunc ip).
Proof. unfold itrunc. moves. Qed.
#[local] Hint Resolve keeps_itrunc : moves.

Section Devices.
Variable dev_read : Z -> option (Z -> Z -> M fs (Z * list Z)).
Variable dev_write : Z -> option (Z -> list Z -> M fs Z).
(** A device driver does not touch the references of the cache (consoleread, the only one
    there is, unlocks and locks the inode). *)
Hypothesis dev_read_keeps : forall major f ip n, dev_read major = Some f -> keeps (f ip n).
Hypothesis dev_write_keeps : forall major f ip src, dev_write major = Some f -> keeps (f ip src).

Lemma keeps_readi_loop fuel ip dev off n tot : keeps (readi_loop fuel ip dev off n tot).
Proof. revert off tot. induction fuel as [|fuel IH]; intros; simpl; moves. Qed.
Lemma keeps_writei_loop fuel ip dev off n tot src : keeps (writei_loop fuel ip dev off n tot src).
Proof. revert off tot src. induction fuel as [|fuel IH]; intros; simpl; moves. Qed.
#[local] Hint Resolve keeps_readi_loop keeps_writei_loop : moves.
Lemma keeps_readi ip off n : keeps (readi dev_read ip off n).
Proof.
  unfold readi. apply moves_bind; [apply _|apply keeps_get_inode|]. intros x. destruct (_ =? T_DEV); [|moves].
  destruct (_ || _); [apply moves_ret, _|]. destruct (dev_read (di_major (i_di x))) eqn:E; [by eapply dev_read_keeps|apply moves_ret, _].
Qed.
Lemma keeps_writei ip src off n : keeps (writei dev_write ip src off n).
Proof.
  unfold writei. apply moves_bind; [apply _|apply keeps_get_inode|]. intros x. destruct (_ =? T_DEV); [|moves].
  destruct (_ || _); [apply moves_ret, _|]. destruct (dev_write (di_major (i_di x))) eqn:E; [by eapply dev_write_keeps|apply moves_ret, _].
Qed.

(** ** What the reference operations do *)

Lemma upd_idents i f s r s' : upd_inode i f s = Done r s' -> exists x, 0 <= i /\ f_icache s !! Z.to_nat i = Some x /\
  idents s' = <[Z.to_nat i := ident (f x)]> (idents s).
Proof.
  unfold upd_inode, bind, get_inode. destruct (Z.ltb_spec i 0); [done|].
  destruct (f_icache s !! Z.to_nat i) as [x|] eqn:E; [|done]. intros [= _ <-]. exists x. split_and!; try done.
  unfold idents. simpl. by rewrite list_fmap_insert.
Qed.
Lemma idents_lookup s i x : f_icache s !! i = Some x -> idents s !! i = Some (ident x).
Proof. intros E. unfold idents. by rewrite list_lookup_fmap, E. Qed.

Lemma scan_spec prt inum l : forall i0 empty,
  match icache_scan prt inum empty i0 l with
  | (Some i, _) => exists x, (i0 <= i)%nat /\ l !! (i - i0)%nat = Some x /\ 0 < i_ref x /\ i_prt x = prt /\ i_inum x = inum
  | (None, o) => (forall j x, l !! j = Some x -> i_prt x = prt -> i_inum x = inum -> i_ref x <= 0) /\
      (o = empty \/ exists i x, o = Some i /\ (i0 <= i)%nat /\ l !! (i - i0)%nat = Some x /\ i_ref x = 0)
  end.
Proof.
  induction l as [|x l IH]; intros i0 empty; simpl; [split; [done|by left]|].
  destruct ((i_ref x >? 0) && (i_prt x =? prt) && (i_inum x =? inum)) eqn:Em.
  - exists x. rewrite Nat.sub_diag. split_and!; try done; lia.
  - specialize (IH (Datatypes.S i0) (match empty with None => if i_ref x =? 0 then Some i0 else None | Some _ => empty end)).
    destruct (icache_scan _ _ _ _ l) as [[i|] o].
    + destruct IH as (y & Hi & Hl & Hy). exists y. split; [lia|]. split; [|done].
      replace (i - i0)%nat with (Datatypes.S (i - Datatypes.S i0)) by lia. done.
    + destruct IH as [Hall Ho]. split.
      * intros [|j] y Hj H1 H2; simpl in Hj; [injection Hj as ->; lia|by eapply Hall].
      * destruct Ho as [-> |(i & y & -> & Hi & Hl & Hy)].
        -- destruct empty; [by left|]. destruct (Z.eqb_spec (i_ref x) 0); [|by left].
           right. exists i0, x. rewrite Nat.sub_diag. done.
        -- right. exists i, y. split_and!; try done; [lia|].
           replace (i - i0)%nat with (Datatypes.S (i - Datatypes.S i0)) by lia. done.
Qed.

Lemma iget_idents prt inum s ip s' : iget prt inum s = Done ip s' ->
  exists i p n r, ip = Z.of_nat i /\ idents s !! i = Some (p, n, r) /\
    idents s' = <[i := (prt, inum, r + 1)]> (idents s) /\
    ((p = prt /\ n = inum /\ 0 < r) \/ (r = 0 /\ forall j q, idents s !! j = Some (prt, inum, q) -> q <= 0)).
Proof.
  unfold iget. unfold bind at 1, gets. pose proof (scan_spec prt inum (f_icache s) 0 None) as Hs.
  destruct (icache_scan prt inum None 0 (f_icache s)) as [[i|] o].
  - destruct Hs as (x & _ & Hx & Hr & Hp & Hn). rewrite Nat.sub_0_r in Hx. unfold bind, ret.
    destruct (upd_inode _ _ s) as [[] t| | | |] eqn:E; try done. intros [= <- <-].
    apply upd_idents in E as (y & _ & Hy & Ei). rewrite Nat2Z.id in *. rewrite Hx in Hy. injection Hy as <-.
    exists i, (i_prt x), (i_inum x), (i_ref x). split_and!; [done|by apply idents_lookup| |by left].
    rewrite Ei, <- Hp, <- Hn. done.
  - destruct Hs as [Hall Ho]. destruct o as [i|]; [|done]. destruct Ho as [|(i' & x & [= <-] & _ & Hx & Hr)]; [done|].
    rewrite Nat.sub_0_r in Hx. unfold bind, ret. destruct (upd_inode _ _ s) as [[] t| | | |] eqn:E; try done. intros [= <- <-].
    apply upd_idents in E as (y & _ & Hy & Ei). rewrite Nat2Z.id in *. rewrite Hx in Hy. injection Hy as <-.
    exists i, (i_prt x), (i_inum x), 0. rewrite <- Hr at 1. split_and!; [done|by apply idents_lookup|by rewrite Ei|].
    right. split; [done|]. intros j q Hj. unfold idents in Hj. rewrite list_lookup_fmap in Hj.
    destruct (f_icache s !! j) as [y|] eqn:Ej; [|done]. injection Hj as H1 H2 <-. by eapply Hall.
Qed.
Lemma idup_idents ip s r s' : idup ip s = Done r s' -> exists p n q, 0 <= ip /\ r = ip /\
  idents s !! Z.to_nat ip = Some (p, n, q) /\ idents s' = <[Z.to_nat ip := (p, n, q + 1)]> (idents s).
Proof.
  unfold idup, bind, ret. destruct (upd_inode _ _ s) as [[] t| | | |] eqn:E; try done. intros [= <- <-].
  apply upd_idents in E as (x & H0 & Hx & Ei). exists (i_prt x), (i_inum x), (i_ref x).
  split_and!; try done. by apply idents_lookup.
Qed.
Lemma iput_idents ip s s' : iput ip s = Done tt s' -> exists p n q, 0 <= ip /\
  idents s !! Z.to_nat ip = Some (p, n, q) /\ idents s' = <[Z.to_nat ip := (p, n, q - 1)]> (idents s).
Proof.
  unfold iput. unfold bind at 1. destruct (get_inode ip s) as [x t| | | |] eqn:E0; try done.
  pose proof (keeps_get_inode ip _ _ _ E0) as Ht. unfold bind at 1.
  match goal with |- match ?m t with _ => _ end = _ -> _ => assert (keeps m) as Hk by moves; destruct (m t) as [[] t2| | | |] eqn:E1 end; try done.
  pose proof (Hk _ _ _ E1) as Ht2. intros E. apply upd_idents in E as (y & H0 & Hy & Ei).
  exists (i_prt y), (i_inum y), (i_ref y). unfold same_ids in *. rewrite <- Ht, <- Ht2. split_and!; [done|by apply idents_lookup|done].
Qed.

(** ** Clients and their references *)

(** Operations on an inode that leave its references alone. *)
Inductive inode_op : forall {A}, M fs A -> Prop :=
| op_lock ip : inode_op (ilock ip)
| op_unlock ip : inode_op (iunlock ip)
| op_update ip : inode_op (iupdate ip)
| op_trunc ip : inode_op (itrunc ip)
| op_stat ip : inode_op (stati ip)
| op_read ip off n : inode_op (readi dev_read ip off n)
| op_write ip src off n : inode_op (writei dev_write ip src off n).

(** The references handed out and not yet returned. *)
Inductive istep : fs * list Z -> fs * list Z -> Prop :=
| i_get prt inum s s' ip H : iget prt inum s = Done ip s' -> istep (s, H) (s', ip :: H)
| i_dup ip s s' r H : ip ∈ H -> idup ip s = Done r s' -> istep (s, H) (s', r :: H)
| i_put ip s s' H1 H2 : iput ip s = Done tt s' -> istep (s, H1 ++ ip :: H2) (s', H1 ++ H2)
| i_op s s' H : (exists A (m : M fs A) r, inode_op m /\ m s = Done r s') -> istep (s, H) (s', H).

Definition count (H : list Z) (i : nat) : nat := length (filter (fun p => p = Z.of_nat i) H).

Record cache_inv (s : fs) (H : list Z) : Prop := {
  ci_ref : forall i p n r, idents s !! i = Some (p, n, r) -> r = Z.of_nat (count H i);
  ci_uniq : forall i j p n r q, idents s !! i = Some (p, n, r) -> idents s !! j = Some (p, n, q) -> 0 < r -> 0 < q -> i = j;
  ci_held : forall ip, ip ∈ H -> exists i p n r, ip = Z.of_nat i /\ idents s !! i = Some (p, n, r)
}.

Lemma count_cons H i j : count (Z.of_nat j :: H) i = (if decide (i = j) then Datatypes.S (count H i) else count H i).
Proof.
  unfold count. rewrite filter_cons. repeat case_decide; try done; [lia|]. subst. by exfalso.
Qed.
Lemma count_remove H1 H2 i j : count (H1 ++ Z.of_nat j :: H2) i =
  (if decide (i = j) then Datatypes.S (count (H1 ++ H2) i) else count (H1 ++ H2) i).
Proof.
  unfold count. rewrite !filter_app, !length_app, filter_cons. repeat case_decide; simpl; try lia.
Qed.
Lemma count_in H i : Z.of_nat i ∈ H -> (0 < count H i)%nat.
Proof.
  intros Hi. unfold count. destruct (filter _ H) eqn:E; [|simpl; lia].
  assert (Z.of_nat i ∈ filter (fun p => p = Z.of_nat i) H) as Hf by (by apply list_elem_of_filter).
  rewrite E in Hf. by apply elem_of_nil in Hf.
Qed.

(** One more reference to entry [i], which is (or becomes) [(p, n)]. *)
Lemma inv_more s s' H i p0 n0 p n r : cache_inv s H -> idents s !! i = Some (p0, n0, r) ->
  idents s' = <[i := (p, n, r + 1)]> (idents s) ->
  ((p0 = p /\ n0 = n /\ 0 < r) \/ (r = 0 /\ forall j q, idents s !! j = Some (p, n, q) -> q <= 0)) ->
  cache_inv s' (Z.of_nat i :: H).
Proof.
  intros [C1 C2 C3] Hi Hs Hcase. pose proof (lookup_lt_Some _ _ _ Hi) as Hlt. pose proof (C1 _ _ _ _ Hi) as Hr. split; rewrite Hs.
  - intros j p' n' r'. rewrite count_cons. case_decide as E.
    + subst j. rewrite list_lookup_insert_eq by done. intros [= <- <- <-]. lia.
    + rewrite list_lookup_insert_ne by done. apply C1.
  - intros j k p' n' r' q'. destruct (decide (j = i)) as [-> |Hj], (decide (k = i)) as [-> |Hk]; try done.
    + rewrite list_lookup_insert_eq, list_lookup_insert_ne by done. intros [= <- <- <-] Hq _ Hq0.
      destruct Hcase as [(-> & -> & H0)|[_ Hall]]; [by eapply (C2 i k)|]. apply Hall in Hq. lia.
    + rewrite list_lookup_insert_eq, list_lookup_insert_ne by done. intros Hq [= <- <- <-] Hq0 _.
      destruct Hcase as [(-> & -> & H0)|[_ Hall]]; [by eapply (C2 j i)|]. apply Hall in Hq. lia.
    + rewrite !list_lookup_insert_ne by done. apply C2.
  - intros ip Hip. assert (exists k p' n' r', ip = Z.of_nat k /\ idents s !! k = Some (p', n', r')) as (k & p' & n' & r' & -> & Hk).
    { apply elem_of_cons in Hip as [-> |Hip]; [eauto 6|by apply C3]. }
    destruct (decide (k = i)) as [-> |Hne]; [exists i|exists k].
    + rewrite list_lookup_insert_eq by done. eauto 6.
    + rewrite list_lookup_insert_ne by done. eauto 6.
Qed.
Lemma inv_less s s' H1 H2 i p n r : cache_inv s (H1 ++ Z.of_nat i :: H2) -> idents s !! i = Some (p, n, r) ->
  idents s' = <[i := (p, n, r - 1)]> (idents s) -> cache_inv s' (H1 ++ H2).
Proof.
  intros [C1 C2 C3] Hi Hs. pose proof (lookup_lt_Some _ _ _ Hi) as Hlt. pose proof (C1 _ _ _ _ Hi) as Hr.
  rewrite count_remove, decide_True in Hr by done. split; rewrite Hs.
  - intros j p' n' r' Hj. destruct (decide (j = i)) as [-> |Hne].
    + rewrite list_lookup_insert_eq in Hj by done. injection Hj as <- <- <-. lia.
    + rewrite list_lookup_insert_ne in Hj by done. apply C1 in Hj. rewrite count_remove, decide_False in Hj by done. done.
  - intros j k p' n' r' q'. destruct (decide (j = i)) as [-> |Hj], (decide (k = i)) as [-> |Hk]; try done.
    + rewrite list_lookup_insert_eq, list_lookup_insert_ne by done. intros [= <- <- <-] Hq H0 Hq0. eapply (C2 i k); try done. lia.
    + rewrite list_lookup_insert_eq, list_lookup_insert_ne by done. intros Hq [= <- <- <-] Hq0 H0. eapply (C2 j i); try done. lia.
    + rewrite !list_lookup_insert_ne by done. apply C2.
  - intros ip Hip. destruct (C3 ip) as (k & p' & n' & r' & -> & Hk); [set_solver|].
    destruct (decide (k = i)) as [-> |Hne]; [exists i|exists k].
    + rewrite list_lookup_insert_eq by done. eauto 6.
    + rewrite list_lookup_insert_ne by done. eauto 6.
Qed.
Lemma inode_op_keeps {A} (m : M fs A) : inode_op m -> keeps m.
Proof using dev_read_keeps dev_write_keeps BK.
  intros []; [apply keeps_ilock|apply keeps_iunlock|apply keeps_iupdate|apply keeps_itrunc|unfold stati; moves|apply keeps_readi|apply keeps_writei].
Qed.

(** The identity of an entry. *)
Definition names (s : fs) (ip : Z) : option (Z * Z) := fst <$> idents s !! Z.to_nat ip.

Lemma istep_inv s H s' H' : istep (s, H) (s', H') -> cache_inv s H ->
  cache_inv s' H' /\ forall ip, ip ∈ H -> names s' ip = names s ip.
Proof using dev_read_keeps dev_write_keeps BK.
  intros Hstep Hinv. inversion Hstep; subst; clear Hstep.
  - match goal with E : iget _ _ _ = _ |- _ => apply iget_idents in E as (i & p & n & r & -> & Hi & Hs & Hc) end.
    split; [by eapply inv_more|]. intros jp Hj. destruct (ci_held _ _ Hinv jp Hj) as (j & p' & n' & r' & -> & Hjj).
    unfold names. rewrite Hs, Nat2Z.id. destruct (decide (j = i)) as [-> |Hne]; [|by rewrite list_lookup_insert_ne].
    rewrite list_lookup_insert_eq by (by eapply lookup_lt_Some). rewrite Hi. simpl.
    destruct Hc as [(-> & -> & _)|[-> _]]; [done|]. pose proof (ci_ref _ _ Hinv _ _ _ _ Hi). apply count_in in Hj. lia.
  - match goal with E : idup _ _ = _ |- _ => apply idup_idents in E as (p & n & q & H0 & -> & Hi & Hs) end.
    match goal with Hin : ip ∈ H |- _ => destruct (ci_held _ _ Hinv _ Hin) as (i & p' & n' & r' & -> & Hii); apply count_in in Hin as Hcnt end.
    rewrite Nat2Z.id in *. rewrite Hi in Hii. injection Hii as <- <- <-. pose proof (ci_ref _ _ Hinv _ _ _ _ Hi).
    split; [eapply inv_more; [done..|]; left; split_and!; [done|done|lia]|]. intros jp Hj. unfold names. rewrite Hs.
    destruct (decide (Z.to_nat jp = i)) as [E|Hne]; [|by rewrite list_lookup_insert_ne].
    rewrite E, list_lookup_insert_eq by (by eapply lookup_lt_Some). by rewrite Hi.
  - match goal with E : iput _ _ = _ |- _ => apply iput_idents in E as (p & n & r & H0 & Hi & Hs) end.
    rewrite <- (Z2Nat.id ip) in Hinv by done.
    split; [by eapply inv_less|]. intros jp Hj. unfold names. rewrite Hs.
    destruct (decide (Z.to_nat jp = Z.to_nat ip)) as [E|Hne]; [|by rewrite list_lookup_insert_ne].
    rewrite E, list_lookup_insert_eq by (by eapply lookup_lt_Some). by rewrite Hi.
  - match goal with E : exists A, _ |- _ => destruct E as (A & m & r & Hop & Hrun) end. apply inode_op_keeps in Hrun; [|done].
    unfold same_ids in Hrun. split; [destruct Hinv as [C1 C2 C3]; split; rewrite Hrun; done|]. intros jp _. unfold names. by rewrite Hrun.
Qed.

(** C22. References to inodes.  From an empty cache, whatever sequence of [iget], [idup], [iput] and operations on
    inodes runs: every reference a client holds points to an entry that is in use,
    two references to the same inode of the same partition are the same pointer, the
    count of an entry is the number of references handed out, and no step
    changes what a held reference stands for. *)
Theorem icache_references s0 s H :
  (forall i x, f_icache s0 !! i = Some x -> i_ref x = 0) -> rtc istep (s0, []) (s, H) ->
  (forall ip, ip ∈ H -> exists x, entry_is s ip x /\ i_ref x = Z.of_nat (count H (Z.to_nat ip)) /\ 0 < i_ref x) /\
  (forall ip jp, ip ∈ H -> jp ∈ H -> names s ip = names s jp -> ip = jp) /\
  (forall s' H' ip, istep (s, H) (s', H') -> ip ∈ H -> names s' ip = names s ip).
Proof using dev_read_keeps dev_write_keeps BK.
  intros H0 Hr. assert (cache_inv s H) as Hinv.
  { cut (forall c, rtc istep (s0, []) c -> cache_inv c.1 c.2); [intros Hall; exact (Hall _ Hr)|]. clear s H Hr.
    apply (rtc_ind_r (fun c => cache_inv c.1 c.2) (s0, [])).
    - cbn [fst snd]. split; [|..|by intros ip ?%elem_of_nil].
      + intros i p n r. unfold idents. rewrite list_lookup_fmap. destruct (f_icache s0 !! i) as [x|] eqn:E; [|done].
        intros [= _ _ <-]. by rewrite (H0 i x).
      + intros i j p n r q. unfold idents. rewrite list_lookup_fmap. destruct (f_icache s0 !! i) as [x|] eqn:E; [|done].
        intros [= _ _ <-]. rewrite (H0 i x) by done. lia.
    - intros [s1 H1] [s2 H2] _ Hst IH. by eapply istep_inv. }
  split_and!.
  - intros ip Hip. destruct (ci_held _ _ Hinv ip Hip) as (i & p & n & r & -> & Hi). pose proof (ci_ref _ _ Hinv _ _ _ _ Hi) as Hrr.
    apply count_in in Hip. unfold idents in Hi. rewrite list_lookup_fmap in Hi. destruct (f_icache s !! i) as [x|] eqn:E; [|done].
    injection Hi as _ _ <-. exists x. rewrite Nat2Z.id. split_and!; [split; [lia|by rewrite Nat2Z.id]|done|lia].
  - intros ip jp Hip Hjp. destruct (ci_held _ _ Hinv ip Hip) as (i & p & n & r & -> & Hi).
    destruct (ci_held _ _ Hinv jp Hjp) as (j & p' & n' & r' & -> & Hj). unfold names. rewrite !Nat2Z.id, Hi, Hj. simpl. intros [= -> ->].
    f_equal. apply count_in in Hip, Hjp. eapply (ci_uniq _ _ Hinv); try done.
    + rewrite (ci_ref _ _ Hinv _ _ _ _ Hi). lia.
    + rewrite (ci_ref _ _ Hinv _ _ _ _ Hj). lia.
  - intros s' H' ip Hst. by apply (istep_inv s H s' H').
Qed.
End Devices.
End Icache.

#[export] Hint Resolve keeps_on_blk keeps_part_at keeps_get_inode keeps_upd_di keeps_readsb keeps_balloc keeps_bfree
  keeps_iupdate keeps_ilock keeps_iunlock keeps_bmap keeps_itrunc keeps_readi keeps_writei : moves.
#[export] Hint Extern 1 (moves same_ids (upd_inode _ _)) => by apply keeps_upd_inode : moves.
#[export] Hint Extern 1 (moves same_ids (Fs.bread _ _)) => apply keeps_on_blk : moves.
#[export] Hint Extern 1 (moves same_ids (Fs.get_data _)) => apply keeps_on_blk : moves.
#[export] Hint Extern 1 (moves same_ids (Fs.put_data _ _)) => apply keeps_on_blk : moves.
#[export] Hint Extern 1 (moves same_ids (Fs.log_write _)) => apply keeps_on_blk : moves.
#[export] Hint Extern 1 (moves same_ids (Fs.brelse _)) => apply keeps_on_blk : moves.
