(* ===== verification/Dir.v ===== *)
(** * Directories: [dirlookup] and [dirlink] of fs.c

    A directory is a list of entries; looking a name up finds its first entry, and
    linking a name makes it be found, without affecting other names. *)

From S2P Require Import Prelude Buf Bio Log Blocks Fs Balloc Inode FileData.

(** ** Names *)

Lemma strncmp_field n name : strncmp n name (take n (name ++ replicate n 0)) = 0.
Proof.
  revert name. induction n as [|n IH]; intros name; [done|]. destruct name as [|c name]; [done|]. cbn [strncmp take app hd tl].
  destruct (Z.eqb_spec c 0) as [-> |Hc]; [done|]. rewrite Z.eqb_refl. simpl.
  replace (take n (name ++ 0 :: replicate n 0)) with (take n (name ++ replicate n 0)); [apply IH|].
  rewrite (replicate_S_end n 0 : 0 :: replicate n 0 = replicate n 0 ++ [0]), app_assoc. symmetry. apply take_app_le.
  rewrite length_app, length_replicate. lia.
Qed.
(** A name compares equal to its own entry. *)
Lemma namecmp_field name : namecmp name (name_field name) = 0.
Proof. apply strncmp_field. Qed.
Lemma name_field_length name : length (name_field name) = Z.to_nat DIRSIZ.
Proof. unfold name_field. rewrite length_take, length_app, length_replicate. lia. Qed.

(** ** Entries *)

Abbreviation DE := 16%nat.
Definition nent (bytes : list Z) : nat := (length bytes / DE)%nat.
Definition entry_at (bytes : list Z) (k : nat) : dirent := dirent_of (bslice (DE * k) DE bytes).
Definition dir_list (bytes : list Z) : list dirent := map (entry_at bytes) (seq 0 (nent bytes)).

Definition hits (name : list Z) (de : dirent) : bool := negb (de_inum de =? 0) && (namecmp name (de_name de) =? 0).
(** The first entry with a property, and its position. *)
Fixpoint find_entry (f : dirent -> bool) (k : nat) (l : list dirent) : option (nat * dirent) :=
  match l with [] => None | de :: l' => if f de then Some (k, de) else find_entry f (S k) l' end.
Definition lookup_name (name : list Z) (l : list dirent) : option (nat * dirent) := find_entry (hits name) 0 l.
Definition is_free (de : dirent) : bool := de_inum de =? 0.
(** The slot [dirlink] uses: the first free entry, or one past the end. *)
Definition free_slot (l : list dirent) : nat := match find_entry is_free 0 l with Some (k, _) => k | None => length l end.

Lemma find_entry_some f l : forall k0 k de, find_entry f k0 l = Some (k, de) ->
  (k0 <= k)%nat /\ l !! (k - k0)%nat = Some de /\ f de = true /\ forall j x, (j < k - k0)%nat -> l !! j = Some x -> f x = false.
Proof.
  induction l as [|y l IH]; intros k0 k de; simpl; [done|]. destruct (f y) eqn:Ef.
  - intros [= <- <-]. rewrite Nat.sub_diag. split_and!; try done. lia.
  - intros (H1 & H2 & H3 & H4)%IH. split; [lia|]. replace (k - k0)%nat with (S (k - S k0)) by lia.
    split_and!; [done|done|]. intros [|j] x Hj; simpl; [by intros [= <-]|]. intros Hx. apply (H4 j); [lia|done].
Qed.
Lemma find_entry_none f l : forall k0, find_entry f k0 l = None <-> forall j x, l !! j = Some x -> f x = false.
Proof.
  induction l as [|y l IH]; intros k0; simpl; [done|]. destruct (f y) eqn:Ef.
  - split; [done|]. intros H. specialize (H 0%nat y eq_refl). congruence.
  - rewrite IH. split; [intros H [|j] x; simpl; [by intros [= <-]|by apply H]|]. intros H j x Hj. by apply (H (S j)).
Qed.
Lemma find_entry_intro f l k de : forall k0, l !! k = Some de -> f de = true ->
  (forall j x, (j < k)%nat -> l !! j = Some x -> f x = false) -> find_entry f k0 l = Some ((k0 + k)%nat, de).
Proof.
  revert k. induction l as [|y l IH]; intros k k0 Hk Hf Hlt; [done|]. destruct k as [|k]; simpl in *.
  - injection Hk as ->. rewrite Hf. do 2 f_equal. lia.
  - rewrite (Hlt 0%nat y) by (done || lia). rewrite (IH k); try done; [do 2 f_equal; lia|]. intros j x Hj. apply (Hlt (S j)). lia.
Qed.

(** ** Writing an entry *)

Lemma entry_length bytes : length (dir_list bytes) = nent bytes.
Proof. unfold dir_list. by rewrite length_map, length_seq. Qed.
Lemma dir_lookup bytes k : (k < nent bytes)%nat -> dir_list bytes !! k = Some (entry_at bytes k).
Proof. intros Hk. unfold dir_list. rewrite list_lookup_fmap, lookup_seq_lt by done. done. Qed.

Definition write_entry (de : dirent) (k : nat) (bytes : list Z) : list Z :=
  take (DE * k) bytes ++ dirent_bytes de ++ drop (DE * k + DE) bytes.

Lemma dirent_bytes_length de : length (de_name de) = Z.to_nat DIRSIZ -> length (dirent_bytes de) = DE.
Proof. intros Hl. unfold dirent_bytes. rewrite length_app, le_bytes_length, Hl. done. Qed.
Lemma dirent_roundtrip de : 0 <= de_inum de < 2 ^ 16 -> length (de_name de) = Z.to_nat DIRSIZ -> dirent_of (dirent_bytes de) = de.
Proof.
  intros Hi Hl. destruct de as [inum name]. simpl in *. unfold dirent_of, dirent_bytes. simpl de_inum. simpl de_name. f_equal.
  - unfold get16, bslice. rewrite drop_0. rewrite take_app_le by (rewrite le_bytes_length; lia).
    rewrite take_ge by (rewrite le_bytes_length; lia). rewrite le_val_bytes2. by apply Z.mod_small.
  - unfold bslice. rewrite drop_app_length' by (by rewrite le_bytes_length). by rewrite take_ge by lia.
Qed.

Section WriteEntry.
Context (de : dirent) (k : nat) (bytes : list Z) (Hmod : length bytes = (DE * nent bytes)%nat) (Hk : (k <= nent bytes)%nat)
  (Hde : length (de_name de) = Z.to_nat DIRSIZ) (Hin : 0 <= de_inum de < 2 ^ 16).

Lemma write_entry_length : length (write_entry de k bytes) = (DE * max (nent bytes) (S k))%nat.
Proof using Hmod Hk Hde.
  unfold write_entry. rewrite !length_app, length_take, length_drop, dirent_bytes_length by done. lia.
Qed.
Lemma write_entry_nent : nent (write_entry de k bytes) = max (nent bytes) (S k).
Proof using Hmod Hk Hde. unfold nent at 1. rewrite write_entry_length, Nat.mul_comm. by apply Nat.div_mul. Qed.
Lemma write_entry_at j : (j < max (nent bytes) (S k))%nat ->
  entry_at (write_entry de k bytes) j = if decide (j = k) then de else entry_at bytes j.
Proof using Hmod Hk Hde Hin.
  intros Hj. pose proof (dirent_bytes_length de Hde) as Hl. unfold entry_at, write_entry. case_decide as E.
  - subst j. transitivity (dirent_of (dirent_bytes de)); [|by apply dirent_roundtrip]. f_equal. unfold bslice.
    rewrite drop_app_length' by (rewrite length_take; lia). rewrite take_app_le by lia. by rewrite take_ge by lia.
  - f_equal. unfold bslice. destruct (decide (j < k)%nat).
    + rewrite drop_app_le by (rewrite length_take; lia). rewrite take_app_le by (rewrite length_drop, length_take; lia).
      rewrite skipn_firstn_comm, firstn_firstn. f_equal. lia.
    + rewrite app_assoc, drop_app_ge by (rewrite length_app, length_take; lia). rewrite length_app, length_take, Hl.
      rewrite drop_drop. do 2 f_equal. lia.
Qed.
Lemma write_entry_dir : dir_list (write_entry de k bytes) =
  if decide (k < nent bytes)%nat then <[k := de]> (dir_list bytes) else dir_list bytes ++ [de].
Proof using Hmod Hk Hde Hin.
  apply list_eq. intros j. destruct (decide (j < max (nent bytes) (S k))%nat) as [Hj|Hj].
  - rewrite dir_lookup, write_entry_at by (rewrite ?write_entry_nent; lia). case_decide as E; case_decide as Hkn.
    + subst j. by rewrite list_lookup_insert_eq by (rewrite entry_length; lia).
    + subst j. rewrite lookup_app_r by (rewrite entry_length; lia). rewrite entry_length. by replace (k - nent bytes)%nat with 0%nat by lia.
    + rewrite list_lookup_insert_ne, dir_lookup by lia. done.
    + rewrite lookup_app_l, dir_lookup by (rewrite ?entry_length; lia). done.
  - rewrite (proj2 (lookup_ge_None (dir_list (write_entry _ _ _)) j)) by (rewrite entry_length, write_entry_nent; lia).
    symmetry. apply lookup_ge_None. case_decide; rewrite ?length_insert, ?length_app, entry_length; simpl; lia.
Qed.
End WriteEntry.

Lemma find_insert f x l k : f x = false -> (forall y, l !! k = Some y -> f y = false) ->
  forall k0, find_entry f k0 (<[k := x]> l) = find_entry f k0 l.
Proof.
  intros Hx. revert k. induction l as [|y l IH]; intros [|k] Hy k0; simpl; try done.
  - by rewrite Hx, (Hy y).
  - destruct (f y); [done|]. by apply IH.
Qed.
Lemma find_snoc f x l : f x = false -> forall k0, find_entry f k0 (l ++ [x]) = find_entry f k0 l.
Proof. intros Hx. induction l as [|y l IH]; intros k0; simpl; [by rewrite Hx|]. destruct (f y); [done|]. apply IH. Qed.

(** Linking, on the list of entries. *)
Definition link (de : dirent) (l : list dirent) : list dirent :=
  if decide (free_slot l < length l)%nat then <[free_slot l := de]> l else l ++ [de].

Lemma free_slot_le l : (free_slot l <= length l)%nat /\ forall y, l !! free_slot l = Some y -> de_inum y = 0.
Proof.
  unfold free_slot. destruct (find_entry is_free 0 l) as [[k y]|] eqn:E.
  - apply find_entry_some in E as (_ & Hk & Hf & _). rewrite Nat.sub_0_r in Hk. split; [apply lookup_lt_Some in Hk; lia|].
    rewrite Hk. intros y' [= <-]. by apply Z.eqb_eq.
  - split; [done|]. intros y Hy. apply lookup_lt_Some in Hy. lia.
Qed.
Lemma link_found name inum l : inum <> 0 -> lookup_name name l = None ->
  lookup_name name (link (mkDe inum (name_field name)) l) = Some (free_slot l, mkDe inum (name_field name)).
Proof.
  intros Hi Hnone. pose proof (proj1 (find_entry_none _ _ _) Hnone) as Hall. destruct (free_slot_le l) as [Hle _].
  assert (hits name (mkDe inum (name_field name)) = true) as Hh.
  { unfold hits. simpl. rewrite namecmp_field. destruct (Z.eqb_spec inum 0); done. }
  unfold lookup_name, link. case_decide as Hlt.
  - rewrite (find_entry_intro _ _ (free_slot l) (mkDe inum (name_field name)) 0); [done|by rewrite list_lookup_insert_eq|done|].
    intros j x Hj. rewrite list_lookup_insert_ne by lia. apply Hall.
  - rewrite (find_entry_intro _ _ (free_slot l) (mkDe inum (name_field name)) 0); [done| |done|].
    + rewrite lookup_app_r by lia. by replace (free_slot l - length l)%nat with 0%nat by lia.
    + intros j x Hj. rewrite lookup_app_l by lia. apply Hall.
Qed.
Lemma link_other name de l : namecmp name (de_name de) <> 0 -> lookup_name name (link de l) = lookup_name name l.
Proof.
  intros Hne. assert (hits name de = false) as Hh.
  { unfold hits. destruct (Z.eqb_spec (namecmp name (de_name de)) 0); [done|]. apply andb_false_r. }
  unfold lookup_name, link. case_decide; [|by apply find_snoc]. apply find_insert; [done|].
  intros y Hy. unfold hits. by rewrite (proj2 (free_slot_le l) y Hy).
Qed.

(** ** The operations *)

Section Ops.
Context {S : Type} `{BK : Blocks S}.
Abbreviation fs := (fsys (S := S)).
Implicit Type (s : fs) (a : cache).
Variables (e : benv) (pi : Z) (part : partition).
Abbreviation dev := (be_dev e).
Abbreviation V a := (c_view a dev).
Abbreviation ready := (alloc_ready e part).
Abbreviation wf a d := (file_wf (used e part a) (V a) d).

(** [iget] succeeds when the cache has a free entry. *)
Lemma scan_free prt inum (l : list inode) : forall i0 empty i o, icache_scan prt inum empty i0 l = (i, o) -> i = None -> o = None ->
  empty = None /\ forall x, x ∈ l -> i_ref x <> 0.
Proof.
  induction l as [|y l IH]; intros i0 empty i o; simpl; [intros [= <- <-] _ ->; split; [done|by intros x ?%elem_of_nil]|].
  destruct (_ && _); [by intros [= <- _]|]. intros E Hi Ho. destruct (IH _ _ _ _ E Hi Ho) as [He Hall].
  destruct empty; [done|]. destruct (Z.eqb_spec (i_ref y) 0); [done|]. split; [done|]. intros x [-> |Hx]%elem_of_cons; [done|auto].
Qed.
Definition has_free s : Prop := exists x, x ∈ f_icache s /\ i_ref x = 0.
Lemma scan_range prt inum (l : list inode) : forall i0 empty,
  match icache_scan prt inum empty i0 l with
  | (Some i, _) => (i < i0 + length l)%nat
  | (None, Some i) => empty = Some i \/ (i < i0 + length l)%nat
  | _ => True
  end.
Proof.
  induction l as [|y l IH]; intros i0 empty; simpl; [by destruct empty; [left|]|].
  destruct (_ && _); [lia|].
  specialize (IH (Datatypes.S i0) (match empty with None => if i_ref y =? 0 then Some i0 else None | Some _ => empty end)).
  destruct (icache_scan _ _ _ _ l) as [[i|] [j|]]; try lia; try done.
  destruct IH as [H|H]; [|right; lia]. destruct empty; [by left|]. destruct (i_ref y =? 0); [|done]. injection H as <-. right. lia.
Qed.
Lemma iget_runs prt inum s : has_free s -> exists ip s', iget prt inum s = Done ip s'.
Proof.
  intros (x & Hx & Hr). unfold iget, bind, gets. pose proof (scan_range prt inum (f_icache s) 0 None) as Hrg.
  assert (forall i f, (i < length (f_icache s))%nat -> exists t, upd_inode (Z.of_nat i) f s = Done tt t) as Hupd.
  { intros i f Hi. unfold upd_inode, bind, get_inode. destruct (Z.ltb_spec (Z.of_nat i) 0); [lia|]. rewrite Nat2Z.id.
    destruct (lookup_lt_is_Some_2 _ _ Hi) as [y ->]. eexists. done. }
  destruct (icache_scan prt inum None 0 (f_icache s)) as [[i|] o] eqn:E.
  - edestruct (Hupd i) as [t Ht]; [lia|]. rewrite Ht. eexists _, _. done.
  - destruct o as [i|].
    + edestruct (Hupd i) as [t Ht]; [destruct Hrg; [done|lia]|]. rewrite Ht. eexists _, _. done.
    + exfalso. destruct (scan_free _ _ _ _ _ _ _ E eq_refl eq_refl) as [_ Hall]. by apply (Hall x).
Qed.

Variable dev_read : Z -> option (Z -> Z -> M fs (Z * list Z)).

(** A directory that is not a mount point, locked by the caller. *)
Record is_dir s a (dp : Z) (x : inode) : Prop := {
  id_entry : entry_is s dp x;
  id_prt : i_prt x = pi;
  id_part : on_part e pi part s;
  id_ready : ready a;
  id_calm : calm a;
  id_wf : wf a (i_di x);
  id_type : di_type (i_di x) = T_DIR;
  id_size : di_size (i_di x) mod SIZEOF_DIRENT = 0;
  id_mount : mount_scan (i_inum x) (i_prt x) (f_mounts s) = None;
  id_cap : (size (c_pinned a) + 4 < be_cap e)%nat;
  id_buf : (size (c_pinned a) + 4 < Z.to_nat NBUF)%nat
}.
Definition dir_of a (x : inode) : list dirent := dir_list (file_bytes (V a) (i_di x)).

Lemma dir_nent s a dp x : is_dir s a dp x -> let bytes := file_bytes (V a) (i_di x) in
  di_size (i_di x) = 16 * Z.of_nat (nent bytes) /\ length bytes = (DE * nent bytes)%nat /\
  entries (di_size (i_di x)) = nent bytes.
Proof.
  intros Hd bytes. pose proof (fw_size _ _ _ (id_wf _ _ _ _ Hd)) as [Hs _]. pose proof (id_size _ _ _ _ Hd) as Hm. unfold SIZEOF_DIRENT in Hm.
  assert (length bytes = Z.to_nat (di_size (i_di x))) as Hl by (by apply bytes_length).
  assert (Z.of_nat (nent bytes) = di_size (i_di x) / 16) as Hn.
  { unfold nent. rewrite Hl, Nat2Z.inj_div, Z2Nat.id by done. done. }
  split_and!; [zlia|zlia|]. unfold entries, SIZEOF_DIRENT. zlia.
Qed.

Lemma wp_read_entry s0 a dp x t k : is_dir s0 a dp x -> moved e s0 a t ->
  0 <= k < Z.of_nat (nent (file_bytes (V a) (i_di x))) ->
  wp (readi dev_read dp (k * SIZEOF_DIRENT) SIZEOF_DIRENT) (fun rv t' => moved e s0 a t' /\
    rv = (SIZEOF_DIRENT, bslice (DE * Z.to_nat k) DE (file_bytes (V a) (i_di x)))) t.
Proof.
  intros Hd Hm Hk. destruct (dir_nent _ _ _ _ Hd) as (Hs & Hl & _). pose proof (fw_size _ _ _ (id_wf _ _ _ _ Hd)) as [_ Hmax].
  rewrite MAXFILE_val in Hmax. unfold BSIZE, SIZEOF_DIRENT in *.
  eapply wp_mono; [apply (wp_readi e pi part dev_read t a dp x (k * 16) 16)|].
  - by eapply moved_rep.
  - destruct (id_entry _ _ _ _ Hd) as [H0 E]. split; [done|]. by rewrite (moved_icache _ _ _ _ Hm).
  - apply (id_prt _ _ _ _ Hd).
  - eapply on_part_moved; [done|apply (id_part _ _ _ _ Hd)].
  - apply (id_ready _ _ _ _ Hd).
  - apply (id_calm _ _ _ _ Hd).
  - apply (id_wf _ _ _ _ Hd).
  - rewrite (id_type _ _ _ _ Hd). done.
  - lia.
  - lia.
  - apply (id_cap _ _ _ _ Hd).
  - apply (id_buf _ _ _ _ Hd).
  - intros rv t' [Hm' ->]. split; [by eapply moved_trans|].
    destruct (Z.leb_spec (k * 16) (di_size (i_di x))); [|lia]. destruct (Z.ltb_spec (k * 16 + 16) (2 ^ 32)); [|lia].
    simpl. f_equal; [lia|]. f_equal. lia.
Qed.

Lemma wp_dirlookup s0 a s dp x name : moved e s0 a s -> is_dir s0 a dp x -> has_free s0 ->
  wp (dirlookup dev_read dp name) (fun r s' =>
    match lookup_name name (dir_of a x) with
    | None => r = (NULLP, 0) /\ moved e s0 a s'
    | Some (k, de) => exists ip t, r = (ip, Z.of_nat k * SIZEOF_DIRENT) /\ moved e s0 a t /\
        iget (i_prt x) (de_inum de) t = Done ip s'
    end) s.
Proof.
  intros Hm Hd Hfree. destruct (dir_nent _ _ _ _ Hd) as (Hs & Hl & Hent). set (bytes := file_bytes (V a) (i_di x)) in *.
  unfold dirlookup, is_inode_mounted. apply wp_bind. eapply wp_get_inode; [exact Hm|apply (id_entry _ _ _ _ Hd)|]. apply wp_gets.
  assert (f_mounts s = f_mounts s0) as -> by (by destruct Hm as (b & -> & _)). rewrite (id_mount _ _ _ _ Hd).
  apply wp_bind, wp_ret. eapply wp_get_inode; [exact Hm|apply (id_entry _ _ _ _ Hd)|]. rewrite (id_type _ _ _ _ Hd). simpl negb. cbv iota.
  rewrite Hent. apply wp_bind.
  eapply (wp_for _ _ _ (fun k t => moved e s0 a t /\ forall j de, (Z.of_nat j < k) -> dir_of a x !! j = Some de -> hits name de = false)).
  - split; [done|]. lia.
  - intros k t Hk [Ht Hnone]. apply wp_bind. eapply wp_mono; [apply (wp_read_entry s0 a dp x t k Hd Ht); fold bytes; lia|].
    intros rv t1 [Ht1 ->]. fold bytes. change (negb (SIZEOF_DIRENT =? SIZEOF_DIRENT)) with false. cbv iota zeta.
    assert (dir_of a x !! Z.to_nat k = Some (entry_at bytes (Z.to_nat k))) as Hat by (apply dir_lookup; lia).
    fold (entry_at bytes (Z.to_nat k)). set (de := entry_at bytes (Z.to_nat k)) in *.
    assert (hits name de = false -> forall j de0, Z.of_nat j < k + 1 -> dir_of a x !! j = Some de0 -> hits name de0 = false) as Hnext.
    { intros Hh j de0 Hj Hjj. destruct (decide (Z.of_nat j = k)) as [<-|]; [|apply (Hnone j); [lia|done]].
      rewrite Nat2Z.id in Hat. rewrite Hat in Hjj. by injection Hjj as <-. }
    destruct (Z.eqb_spec (de_inum de) 0) as [Hz|Hz].
    { apply wp_ret. split; [done|]. apply Hnext. unfold hits. by rewrite Hz. }
    destruct (Z.eqb_spec (namecmp name (de_name de)) 0) as [Hc|Hc].
    2:{ apply wp_ret. split; [done|]. apply Hnext. unfold hits. destruct (Z.eqb_spec (namecmp name (de_name de)) 0); [done|]. apply andb_false_r. }
    apply wp_bind. destruct (iget_runs (i_prt x) (de_inum de) t1) as (ip & t2 & Eg).
    { destruct Hfree as (y & Hy & Hr). exists y. split; [by rewrite (moved_icache _ _ _ _ Ht1)|done]. }
    unfold wp at 1. rewrite Eg. apply wp_ret, wp_ret. unfold lookup_name.
    rewrite (find_entry_intro _ _ (Z.to_nat k) de 0); [| |unfold hits; rewrite Hc; by destruct (Z.eqb_spec (de_inum de) 0)|].
    + exists ip, t1. split_and!; try done. rewrite Nat.add_0_l, Z2Nat.id by lia. done.
    + done.
    + intros j y Hj. apply Hnone. lia.
  - intros t [Ht Hnone]. apply wp_ret. unfold lookup_name. rewrite (proj2 (find_entry_none _ _ _)); [done|].
    intros j y Hj. apply (Hnone j y); [|done]. apply lookup_lt_Some in Hj. unfold dir_of in Hj. rewrite entry_length in Hj. fold bytes in Hj. lia.
Qed.

(** C18. [dirlookup] in a directory that is no mount point finds the first entry in use with the name:
    it returns a reference to the entry's inode, from [iget], and the entry's
    offset; without such an entry it returns null.  Nothing on disk changes. *)
Theorem dirlookup_finds s a dp x name :
  k_rep e (f_blk s) a -> is_dir s a dp x -> has_free s ->
  wp (dirlookup dev_read dp name) (fun r s' =>
    match lookup_name name (dir_of a x) with
    | None => r = (NULLP, 0) /\ moved e s a s'
    | Some (k, de) => exists ip t, r = (ip, Z.of_nat k * SIZEOF_DIRENT) /\ moved e s a t /\
        iget (i_prt x) (de_inum de) t = Done ip s'
    end) s.
Proof. intros Hk. apply wp_dirlookup, moved_start, Hk. Qed.

Variable dev_write : Z -> option (Z -> list Z -> M fs Z).

(** The second loop of [dirlink]. *)
Lemma wp_free_entry s0 a s dp x : moved e s0 a s -> is_dir s0 a dp x ->
  wp (for_ (entries (di_size (i_di x))) 0 (fun k =>
    let off := k * SIZEOF_DIRENT in
    rv <- readi dev_read dp off SIZEOF_DIRENT ;; let (r, bytes) := rv in
    if negb (r =? SIZEOF_DIRENT) then panic "dirlink read" else
    if de_inum (dirent_of bytes) =? 0 then ret (Some off) else ret None))
  (fun r s' => moved e s0 a s' /\
    (match r with Some off => off | None => Z.of_nat (entries (di_size (i_di x))) * SIZEOF_DIRENT end) =
    Z.of_nat (free_slot (dir_of a x)) * SIZEOF_DIRENT) s.
Proof.
  intros Hm Hd. destruct (dir_nent _ _ _ _ Hd) as (Hs & Hl & Hent). set (bytes := file_bytes (V a) (i_di x)) in *. rewrite Hent.
  eapply (wp_for _ _ _ (fun k t => moved e s0 a t /\ forall j de, (Z.of_nat j < k) -> dir_of a x !! j = Some de -> is_free de = false)).
  - split; [done|]. lia.
  - intros k t Hk [Ht Hnone]. cbv zeta. apply wp_bind. eapply wp_mono; [apply (wp_read_entry s0 a dp x t k Hd Ht); fold bytes; lia|].
    intros rv t1 [Ht1 ->]. fold bytes. change (negb (SIZEOF_DIRENT =? SIZEOF_DIRENT)) with false. cbv iota.
    assert (dir_of a x !! Z.to_nat k = Some (entry_at bytes (Z.to_nat k))) as Hat by (apply dir_lookup; fold bytes; lia).
    fold (entry_at bytes (Z.to_nat k)). set (de := entry_at bytes (Z.to_nat k)) in *.
    destruct (Z.eqb_spec (de_inum de) 0) as [Hz|Hz]; apply wp_ret.
    + split; [done|]. unfold free_slot. rewrite (find_entry_intro _ _ (Z.to_nat k) de 0); [|done|by apply Z.eqb_eq|].
      * rewrite Nat.add_0_l, Z2Nat.id by lia. done.
      * intros j y Hj. apply Hnone. lia.
    + split; [done|]. intros j de0 Hj Hjj. destruct (decide (Z.of_nat j = k)) as [<-|]; [|apply (Hnone j); [lia|done]].
      rewrite Nat2Z.id in Hat. rewrite Hat in Hjj. injection Hjj as <-. by apply Z.eqb_neq.
  - intros t [Ht Hnone]. split; [done|]. unfold free_slot. rewrite (proj2 (find_entry_none _ _ _)).
    + unfold dir_of. rewrite entry_length. fold bytes. done.
    + intros j y Hj. apply (Hnone j y); [|done]. apply lookup_lt_Some in Hj. unfold dir_of in Hj. rewrite entry_length in Hj. fold bytes in Hj. lia.
Qed.

(** What a client may rely on before writing to a file of one inode. *)
Record may_write a (x : inode) (blocks : nat) : Prop := {
  mw_inodes : inodes_ready e part a;
  mw_first : inodes_first e part a;
  mw_inum : 0 <= i_inum x < sb_ninodes (part_sb e part a);
  mw_disk : dinode_at e part a (i_inum x) = i_di x;
  mw_ok : dinode_ok (i_di x);
  mw_cap : (budget e part a (i_di x) + blocks + 4 <= be_cap e)%nat;
  mw_buf : (budget e part a (i_di x) + blocks + 4 <= Z.to_nat NBUF)%nat;
  mw_free : (blocks + need (i_di x) <= nfree e part a)%nat
}.

(** C16. [dirlink] of a name that the directory does not have: afterwards the name is found and stands
    for the inode, every other name is found or not as before, and no other
    file or inode has changed. *)
Theorem dirlink_links s a dp x name inum :
  k_rep e (f_blk s) a -> is_dir s a dp x -> has_free s -> may_write a x 1 -> di_size (i_di x) + 16 <= MAXFILE * BSIZE ->
  lookup_name name (dir_of a x) = None -> 0 < inum < 2 ^ 16 -> bytes_ok name ->
  wp (dirlink dev_read dev_write dp name inum) (fun r s' => r = 0 /\ exists a' d',
    moved e (set_entry dp (set_di d' x) s) a' s' /\ dinode_at e part a' (i_inum x) = d' /\ wf a' d' /\
    lookup_name name (dir_list (file_bytes (V a') d')) = Some (free_slot (dir_of a x), mkDe inum (name_field name)) /\
    (forall other, namecmp other (name_field name) <> 0 ->
      lookup_name other (dir_list (file_bytes (V a') d')) = lookup_name other (dir_of a x)) /\
    (forall j, 0 <= j < sb_ninodes (part_sb e part a) -> j <> i_inum x -> dinode_at e part a' j = dinode_at e part a j) /\
    (forall m, used e part a m -> ~ owns (V a) (i_di x) m -> V a' m = V a m)) s.
Proof.
  intros Hk Hd Hfree [M1 M2 M3 M4 M5 M6 M7 M8] Hsz Hnone Hin Hname. pose proof (moved_start _ _ _ Hk) as Hm.
  destruct (dir_nent _ _ _ _ Hd) as (Hs & Hl & Hent). unfold dirlink. apply wp_bind.
  eapply wp_mono; [by apply (wp_dirlookup s a s dp x name)|]. rewrite Hnone. intros rv s1 [-> Hm1]. cbv iota beta.
  change (negb (NULLP =? NULLP)) with false. cbv iota.
  eapply wp_get_inode; [exact Hm1|apply (id_entry _ _ _ _ Hd)|]. apply wp_bind.
  eapply wp_mono; [by apply (wp_free_entry s a s1 dp x)|]. intros r s2 [Hm2 ->]. cbv zeta.
  destruct (free_slot_le (dir_of a x)) as [Hle _]. set (k := free_slot (dir_of a x)) in *.
  set (de := mkDe inum (name_field name)). pose proof (name_field_length name) as Hnl.
  assert (length (dirent_bytes de) = DE) as Hdl by (by apply dirent_bytes_length).
  unfold dir_of in Hle. rewrite entry_length in Hle. set (bytes := file_bytes (V a) (i_di x)) in *.
  assert (spans (Z.of_nat k * SIZEOF_DIRENT) (Z.of_nat (length (dirent_bytes de))) = 1%nat) as Hsp.
  { rewrite Hdl. unfold spans, SIZEOF_DIRENT, BSIZE. zlia. }
  rewrite MAXFILE_val in Hsz. unfold BSIZE in Hsz. apply wp_bind. eapply wp_mono.
  { change SIZEOF_DIRENT with (Z.of_nat DE) at 2. rewrite <- Hdl.
    apply (wp_writei e pi part dev_write s2 a dp x (Z.of_nat k * SIZEOF_DIRENT) (dirent_bytes de)); rewrite ?Hsp; try done.
    - by eapply moved_rep.
    - destruct (id_entry _ _ _ _ Hd) as [H0 E]. split; [done|]. by rewrite (moved_icache _ _ _ _ Hm2).
    - apply (id_prt _ _ _ _ Hd).
    - eapply on_part_moved; [done|apply (id_part _ _ _ _ Hd)].
    - apply (id_ready _ _ _ _ Hd).
    - apply (id_calm _ _ _ _ Hd).
    - apply (id_wf _ _ _ _ Hd).
    - rewrite (id_type _ _ _ _ Hd). done.
    - unfold SIZEOF_DIRENT. lia.
    - rewrite Hdl. lia.
    - apply Forall_app. split; [apply le_bytes_ok|]. apply Forall_take, Forall_app. split; [done|]. apply Forall_replicate. unfold is_byte. lia. }
  intros r' s3. rewrite Hdl, MAXFILE_val. unfold SIZEOF_DIRENT, BSIZE in *.
  destruct (Z.leb_spec (Z.of_nat k * 16) (di_size (i_di x))); [|lia]. destruct (Z.leb_spec (Z.of_nat k * 16 + Z.of_nat DE) (140 * 512)); [|lia].
  cbn [andb]. intros (-> & a' & d' & Hm3 & [W1 W2 W3 W4 W5 W6]). apply wp_ret. split; [done|]. exists a', d'.
  assert (file_bytes (V a') d' = write_entry de k bytes) as Eb.
  { cbv zeta in W3. rewrite W3, Hdl. unfold write_entry. do 2 f_equal; [lia|f_equal; f_equal; lia]. }
  assert (dir_list (file_bytes (V a') d') = link de (dir_of a x)) as El.
  { rewrite Eb, write_entry_dir; [|done|done|done|simpl; lia]. unfold link. fold k. unfold dir_of. rewrite entry_length. done. }
  rewrite El. split_and!; try done.
  - destruct Hm2 as (b2 & -> & _). destruct Hm3 as (b3 & -> & Hr3). exists b3. split; [done|exact Hr3].
  - apply link_found; [lia|done].
  - intros other Ho. by apply link_other.
  - intros m Hm' Ho. by apply W6.
Qed.
End Ops.
