(* ===== verification/Mount.v ===== *)
(** * Mount points: [mount], [find_mp] and the start of [namex] of fs.c *)

From S2P Require Import Prelude Buf Blocks Fs Balloc Inode Icache Dir.

(** ** Path resolution leaves the tables of the file system alone *)

Section Frame.
Context {S : Type} `{BK : Blocks S}.
Abbreviation fs := (fsys (S := S)).
Implicit Type s : fs.

(** Only the block layer and the inode cache may differ. *)
Definition same_tables s s' : Prop :=
  f_parts s' = f_parts s /\ f_boot s' = f_boot s /\ f_cur_part s' = f_cur_part s /\
  f_mounts s' = f_mounts s /\ f_cwd s' = f_cwd s.
#[global] Instance same_tables_preorder : PreOrder same_tables.
Proof. split; [by intros s|]. intros s1 s2 s3 (?&?&?&?&?) (?&?&?&?&?). split_and!; congruence. Qed.
Abbreviation frames m := (moves same_tables m).

Lemma frames_on_blk {A} (m : M S A) : frames (on_blk m).
Proof. by apply moves_lift. Qed.
Lemma frames_part_at p : frames (part_at p).
Proof. intros s r s'. unfold part_at. case_match; [by intros [= _ <-]|done]. Qed.
Lemma frames_get_inode i : frames (get_inode i).
Proof. intros s r s'. unfold get_inode. case_match; [by intros [= _ <-]|done]. Qed.
#[local] Hint Resolve frames_on_blk frames_part_at frames_get_inode : moves.
Lemma frames_upd_inode i f : frames (upd_inode i f).
Proof. unfold upd_inode. moves. by apply moves_modify. Qed.
#[local] Hint Resolve frames_upd_inode : moves.
#[local] Hint Extern 1 (moves _ (upd_di _ _)) => apply frames_upd_inode : moves.
#[local] Hint Extern 1 (moves _ (Fs.bread _ _)) => apply frames_on_blk : moves.
#[local] Hint Extern 1 (moves _ (Fs.get_data _)) => apply frames_on_blk : moves.
#[local] Hint Extern 1 (moves _ (Fs.put_data _ _)) => apply frames_on_blk : moves.
#[local] Hint Extern 1 (moves _ (Fs.log_write _)) => apply frames_on_blk : moves.
#[local] Hint Extern 1 (moves _ (Fs.brelse _)) => apply frames_on_blk : moves.

Lemma frames_readsb p : frames (readsb p).
Proof. unfold readsb. moves. Qed.
#[local] Hint Resolve frames_readsb : moves.
Lemma frames_balloc p : frames (balloc p).
Proof. unfold balloc, bzero. moves. Qed.
Lemma frames_bfree p b : frames (bfree p b).
Proof. unfold bfree. moves. Qed.
#[local] Hint Resolve frames_balloc frames_bfree : moves.
Lemma frames_iupdate ip : frames (iupdate ip).
Proof. unfold iupdate. moves. Qed.
Lemma frames_ilock ip : frames (ilock ip).
Proof. unfold ilock. moves. Qed.
Lemma frames_iunlock ip : frames (iunlock ip).
Proof. unfold iunlock. moves. Qed.
Lemma frames_bmap ip bn : frames (bmap ip bn).
Proof. unfold bmap. moves. Qed.
Lemma frames_iget p n : frames (iget p n).
Proof. unfold iget. moves. Qed.
Lemma frames_idup ip : frames (idup ip).
Proof. unfold idup. moves. Qed.
#[local] Hint Resolve frames_iupdate frames_ilock frames_iunlock frames_bmap frames_iget frames_idup : moves.
Lemma frames_itrunc ip : frames (itrunc ip).
Proof. unfold itrunc. moves. Qed.
#[local] Hint Resolve frames_itrunc : moves.
Lemma frames_iput ip : frames (iput ip).
Proof. unfold iput. moves. Qed.
#[local] Hint Resolve frames_iput : moves.
Lemma frames_iunlockput ip : frames (iunlockput ip).
Proof. unfold iunlockput. moves. Qed.
#[local] Hint Resolve frames_iunlockput : moves.

Section Devices.
Variable dev_read : Z -> option (Z -> Z -> M fs (Z * list Z)).
Hypothesis dev_read_frames : forall major f ip n, dev_read major = Some f -> frames (f ip n).

Lemma frames_readi_loop fuel ip dev off n tot : frames (readi_loop fuel ip dev off n tot).
Proof. revert off tot. induction fuel as [|fuel IH]; intros; simpl; moves. Qed.
#[local] Hint Resolve frames_readi_loop : moves.
Lemma frames_readi ip off n : frames (readi dev_read ip off n).
Proof.
  unfold readi. apply moves_bind; [apply _|apply frames_get_inode|]. intros x. destruct (_ =? T_DEV); [|moves].
  destruct (_ || _); [apply moves_ret, _|]. destruct (dev_read (di_major (i_di x))) eqn:E; [by eapply dev_read_frames|apply moves_ret, _].
Qed.
#[local] Hint Resolve frames_readi : moves.
Lemma frames_dirlookup dp name : frames (dirlookup dev_read dp name).
Proof. unfold dirlookup, is_inode_mounted. moves. Qed.
#[local] Hint Resolve frames_dirlookup : moves.
Lemma frames_namex_loop fuel ip path par name : frames (namex_loop dev_read fuel ip path par name).
Proof.
  revert ip path name. induction fuel as [|fuel IH]; intros ip path name; simpl; destruct (skipelem path name) as [[p' n']|];
    unfold check_mounted, is_inode_mounted; moves.
Qed.
#[local] Hint Resolve frames_namex_loop : moves.
Lemma frames_namei junk path : frames (namei dev_read junk path).
Proof.
  unfold namei, namex, is_mounted, find_mp. moves. intros s r s'. case_match; [by intros [= _ <-]|done].
Qed.

(** ** Mounting and resolving *)

Lemma find_mp_at path i mp : forall i0 (l : list mount_point), l !! i = Some mp -> namecmp path (mp_path mp) = 0 ->
  (forall j q, (j < i)%nat -> l !! j = Some q -> namecmp path (mp_path q) <> 0) -> find_mp_from path i0 l = Some (i0 + i)%nat.
Proof.
  revert i. intros i i0 l. revert i i0. induction l as [|x l IH]; intros [|i] i0 Hi Hc Hlt; simpl in *; try done.
  - injection Hi as ->. rewrite Hc. simpl. f_equal. lia.
  - destruct (Z.eqb_spec (namecmp path (mp_path x)) 0) as [E|_]; [by apply (Hlt 0%nat x) in E; [|lia|]|].
    rewrite (IH i); [f_equal; lia|done|done|]. intros j q Hj. apply (Hlt (Datatypes.S j)). lia.
Qed.
Lemma find_mp_none path : forall i0 (l : list mount_point), find_mp_from path i0 l = None ->
  forall j q, l !! j = Some q -> namecmp path (mp_path q) <> 0.
Proof.
  intros i0 l. revert i0. induction l as [|x l IH]; intros i0 Hn [|j] q Hj; simpl in *; try done.
  - injection Hj as ->. by destruct (Z.eqb_spec (namecmp path (mp_path q)) 0).
  - destruct (namecmp path (mp_path x) =? 0); [done|]. by eapply IH.
Qed.
Lemma mp_free_some : forall (l : list mount_point) i0 i, mp_free i0 l = Some i ->
  exists mp, (i0 <= i)%nat /\ l !! (i - i0)%nat = Some mp /\ mp_taken mp = 0.
Proof.
  induction l as [|x l IH]; intros i0 i; simpl; [done|]. destruct (Z.eqb_spec (mp_taken x) 0) as [E|E].
  - intros [= <-]. exists x. by rewrite Nat.sub_diag.
  - intros (mp & H1 & H2 & H3)%IH. exists mp. split_and!; [lia| |done]. replace (i - i0)%nat with (Datatypes.S (i - Datatypes.S i0)) by lia. done.
Qed.

(** A path that is a mount point resolves to the root of the mounted partition. *)
Lemma namei_mounted junk path s i mp : find_mp_from path 0 (f_mounts s) = Some i -> f_mounts s !! i = Some mp ->
  namei dev_read junk path s = iget (mp_prt mp) ROOTINO s.
Proof.
  intros Hf Hi. unfold namei, namex, is_mounted, find_mp, bind, gets, ret, of_option. rewrite Hf. cbv beta iota. rewrite Hf. unfold ret. cbv beta iota. rewrite Hi.
  cbv beta iota. by destruct (iget (mp_prt mp) ROOTINO s).
Qed.

Lemma mount_again junk path prt s i mp r s2 : find_mp_from path 0 (f_mounts s) = Some i -> f_mounts s !! i = Some mp ->
  mount dev_read junk path prt s = Done r s2 -> r = -1.
Proof.
  intros Hf Hi. unfold mount. unfold bind at 1. rewrite (namei_mounted _ _ _ i mp) by done.
  destruct (iget (mp_prt mp) ROOTINO s) as [ip2 s3| | | |] eqn:Eg; try done. destruct (frames_iget _ _ _ _ _ Eg) as (_ & _ & _ & Hm3 & _).
  destruct (ip2 =? NULLP); [by intros [= <- _]|]. unfold is_mounted, find_mp, bind, gets, ret at 1. rewrite Hm3, Hf. by intros [= <- _].
Qed.

(** The path of a mount point that is not in use is empty. *)
Definition mounts_ok s : Prop :=
  forall i mp, f_mounts s !! i = Some mp -> mp_taken mp = 0 -> mp_path mp = replicate (Z.to_nat DIRSIZ) 0.

Lemma namecmp_mount path : namecmp path (bsplice 0 (take (Z.to_nat DIRSIZ) path) (replicate (Z.to_nat DIRSIZ) 0)) = 0.
Proof.
  etransitivity; [|apply (namecmp_field path)]. f_equal. unfold name_field, bsplice. rewrite take_0, app_nil_l, drop_replicate.
  rewrite length_take, take_app, take_replicate. f_equal. f_equal. lia.
Qed.

(** C23. After [mount(path, prt)] has returned 0, [namei(path)] is the root directory of that
    partition, whatever the path led to before; an attempt to mount on the same path
    again returns -1.  (The index is not checked: with one outside the table [mount] computes an address outside
    it, which is a fault of the model.) *)
Theorem mount_resolves s junk path prt s' :
  mounts_ok s -> mount dev_read junk path prt s = Done 0 s' ->
  (forall junk', namei dev_read junk' path s' = iget prt ROOTINO s') /\
  (forall junk' prt' r s2, mount dev_read junk' path prt' s' = Done r s2 -> r = -1).
Proof using dev_read_frames.
  intros Hok Hrun. cut (exists i mp, find_mp_from path 0 (f_mounts s') = Some i /\ f_mounts s' !! i = Some mp /\ mp_prt mp = prt).
  { intros (i & mp & Hf & Hi & <-). split; [intros junk'; by rewrite (namei_mounted _ _ _ i mp)|].
    intros junk' prt' r s2 Hr. by eapply mount_again. }
  revert Hrun. unfold mount. unfold bind at 1. destruct (namei dev_read junk path s) as [ip s1| | | |] eqn:En; try done.
  destruct (frames_namei _ _ _ _ _ En) as (_ & _ & _ & Hmt & _).
  destruct (ip =? NULLP); [done|]. unfold is_mounted, find_mp, bind, gets, ret at 1.
  destruct (find_mp_from path 0 (f_mounts s1)) eqn:Ef; [done|]. unfold mpalloc, bind, gets.
  destruct (mp_free 0 (f_mounts s1)) as [i|] eqn:Efr; [|done]. apply mp_free_some in Efr as (mp & _ & Hi & Htk). rewrite Nat.sub_0_r in Hi.
  unfold modify at 1, ret at 1. unfold partition_at. destruct (_ || _); [done|]. unfold get_inode, ret at 1. destruct (ip <? 0); [done|]. simpl f_icache.
  destruct (f_icache s1 !! Z.to_nat ip) as [x|] eqn:Ex; [|done]. unfold modify, ret. intros [= <-].
  simpl f_mounts. set (l := alter _ i (alter _ i _)).
  assert (exists mp', l !! i = Some mp' /\ mp_prt mp' = prt /\ namecmp path (mp_path mp') = 0) as (mp' & Hi' & Hprt & Hnc).
  { eexists. unfold l. rewrite !list_lookup_alter_eq, Hi. simpl. split; [done|]. simpl. split; [done|].
    rewrite (Hok i mp); [apply namecmp_mount|by rewrite <- Hmt|done]. }
  exists i, mp'. split; [|done]. rewrite (find_mp_at path i mp' 0 l Hi' Hnc); [done|]. intros j q Hj Hq. unfold l in Hq.
  rewrite !list_lookup_alter_ne in Hq by lia. by eapply find_mp_none.
Qed.

(** C31. The empty path.  It compares equal to the empty path of an unused mount point, so [namei("")] does
    not fail: it returns a reference whose partition is null, and locking it, as
    every caller does, panics the kernel. *)
Theorem empty_path_panics s junk i mp :
  has_free s -> f_mounts s !! i = Some mp -> mp_path mp = replicate (Z.to_nat DIRSIZ) 0 -> mp_prt mp = NULLP ->
  (forall j q, (j < i)%nat -> f_mounts s !! j = Some q -> namecmp [] (mp_path q) <> 0) ->
  wp (namei dev_read junk []) (fun ip s' => ip <> NULLP /\ panics (ilock ip) "ilock no partition" s') s.
Proof.
  intros Hfree Hi Hpath Hprt Hlt. unfold wp. rewrite (namei_mounted junk [] s i mp); [|by rewrite (find_mp_at [] i mp 0); [| |rewrite Hpath|]|done].
  destruct (iget_runs (mp_prt mp) ROOTINO s Hfree) as (ip & s' & Eg). rewrite Eg. rewrite Hprt in Eg.
  apply iget_idents in Eg as (k & p & n & r & -> & Hk & Hs & Hc). split; [unfold NULLP; lia|].
  assert (exists x, f_icache s' !! k = Some x /\ ident x = (NULLP, ROOTINO, r + 1)) as (x & Hx & Hid).
  { assert (idents s' !! k = Some (NULLP, ROOTINO, r + 1)) as Hk'.
    { rewrite Hs. apply list_lookup_insert_eq. by eapply lookup_lt_Some. }
    unfold idents in Hk'. rewrite list_lookup_fmap in Hk'. destruct (f_icache s' !! k) as [x|]; [|done].
    injection Hk' as H1 H2 H3. exists x. split; [done|]. unfold ident. congruence. }
  injection Hid as H1 H2 H3. unfold panics, ilock. destruct (Z.eqb_spec (Z.of_nat k) NULLP); [unfold NULLP in *; lia|].
  unfold bind at 1, get_inode at 1. destruct (Z.ltb_spec (Z.of_nat k) 0); [lia|]. rewrite Nat2Z.id, Hx.
  destruct (Z.ltb_spec (i_ref x) 1); [destruct Hc as [(_ & _ & ?)|[? _]]; lia|]. by rewrite H1.
Qed.
End Devices.
End Frame.

#[export] Hint Resolve frames_on_blk frames_part_at frames_get_inode frames_upd_inode frames_readsb frames_balloc frames_bfree
  frames_iupdate frames_ilock frames_iunlock frames_bmap frames_iget frames_idup frames_itrunc frames_iput frames_iunlockput
  frames_readi frames_dirlookup frames_namex_loop frames_namei : moves.
#[export] Hint Extern 1 (moves same_tables (upd_di _ _)) => apply frames_upd_inode : moves.
#[export] Hint Extern 1 (moves same_tables (Fs.bread _ _)) => apply frames_on_blk : moves.
#[export] Hint Extern 1 (moves same_tables (Fs.get_data _)) => apply frames_on_blk : moves.
#[export] Hint Extern 1 (moves same_tables (Fs.put_data _ _)) => apply frames_on_blk : moves.
#[export] Hint Extern 1 (moves same_tables (Fs.log_write _)) => apply frames_on_blk : moves.
#[export] Hint Extern 1 (moves same_tables (Fs.brelse _)) => apply frames_on_blk : moves.

Section WriteFrames.
Context {S : Type} `{BK : Blocks S}.
Abbreviation fs := (fsys (S := S)).
Variable dev_read : Z -> option (Z -> Z -> M fs (Z * list Z)).
Variable dev_write : Z -> option (Z -> list Z -> M fs Z).
Hypothesis dev_read_frames : forall major f ip n, dev_read major = Some f -> moves same_tables (f ip n).
Hypothesis dev_write_frames : forall major f ip src, dev_write major = Some f -> moves same_tables (f ip src).

Lemma frames_writei_loop fuel ip dev off n tot src : moves same_tables (writei_loop fuel ip dev off n tot src).
Proof. revert off tot src. induction fuel as [|fuel IH]; intros; simpl; moves. Qed.
#[local] Hint Resolve frames_writei_loop : moves.
Lemma frames_writei ip src off n : moves same_tables (writei dev_write ip src off n).
Proof.
  unfold writei. apply moves_bind; [apply _|apply frames_get_inode|]. intros x. destruct (_ =? T_DEV); [|moves].
  destruct (_ || _); [apply moves_ret, _|]. destruct (dev_write (di_major (i_di x))) eqn:E; [by eapply dev_write_frames|apply moves_ret, _].
Qed.
#[local] Hint Resolve frames_writei : moves.
Lemma frames_dirlink dp name inum : moves same_tables (dirlink dev_read dev_write dp name inum).
Proof. unfold dirlink. moves. Qed.
Lemma frames_ialloc prt type : moves same_tables (ialloc prt type).
Proof. unfold ialloc. moves. Qed.
Lemma frames_nameiparent path name : moves same_tables (nameiparent dev_read path name).
Proof.
  unfold nameiparent, namex, is_mounted, find_mp. moves. intros s r s'. case_match; [by intros [= _ <-]|done].
Qed.
End WriteFrames.
#[export] Hint Resolve frames_writei frames_dirlink frames_ialloc frames_nameiparent : moves.
