(* ===== verification/FsRuns.v ===== *)
(** * A small file system, and runs on it

    A partition on a 64-block memory disk: a root directory and one file of 600
    bytes.  The theorems on the allocator, on inodes and on file contents
    apply to it inside a transaction. *)

From S2P Require Import Prelude Buf Ide Bio Log Blocks BlockRuns Fs Balloc Inode FileData Icache Dir Mount.

(** ** The disk image *)

(** Blocks 2..31 are the log; the partition starts at 32: super block, three inode
    blocks, bitmap at 36, data from 37 on. *)
Definition pad (l : list Z) : list Z := take BSIZEn (l ++ zero_blk).
Definition root_di : dinode := mkDi T_DIR 0 0 1 48 (37 :: replicate 12 0).
Definition file_di : dinode := mkDi T_FILE 0 0 1 600 (38 :: 39 :: replicate 11 0).
Definition img_block (n : Z) : list Z :=
  if n =? 32 then pad (concat (map (le_bytes 4) [20; 20; 16; 0; 0; 1; 4]))
  else if n =? 33 then put_dinode 128 file_di (put_dinode 64 root_di zero_blk)
  else if n =? 36 then pad [7]
  else if n =? 37 then pad (concat (map dirent_bytes
    [mkDe 1 (name_field [46]); mkDe 1 (name_field [46; 46]); mkDe 2 (name_field [97])]))
  else if n =? 38 then replicate BSIZEn 1
  else if n =? 39 then replicate BSIZEn 2
  else zero_blk.
Definition image : list Z := concat (map img_block (seqZ 0 64)).
#[global] Arguments image : simpl never.
Definition fs_disk : MemIde.memide := MemIde.mkMem 64 image.

Lemma fs_disk_idle : MemIde.mem_idle fs_disk.
Proof.
  split; [done|]. split; [apply Nat.leb_le; vm_compute; reflexivity|].
  apply bytes_ok_check. vm_compute. reflexivity.
Qed.

(** ** The state: an operation has begun *)

Definition trans_log : log := mkLog 2 30 1 0 1 (mkLh 0 (replicate (Z.to_nat LOGSIZE) 0)).
Definition blk0 : bst MemIde.memide := mkBst booted_bufs fs_disk trans_log [].
Definition env0 : benv := mkEnv 1 (fun n => 32 <= n < 64) 29.
Definition view0 : cache := fresh fs_disk.
Definition part0 : partition := mkPart 1 (mkDp 2 0 32 24).
Definition file_ino : inode := mkI 2 1 I_VALID 0 0 file_di.
Definition root_ino : inode := mkI 1 1 I_VALID 0 0 root_di.
Definition no_ino : inode := mkI 0 0 0 NULLP 0 (mkDi 0 0 0 0 0 (replicate 13 0)).
Definition icache0 : list inode := file_ino :: root_ino :: replicate (Z.to_nat NINODE - 2) no_ino.
Definition fs0 : fsys (S := bst MemIde.memide) := mkFs blk0 icache0 [part0] 0 0 [] 0.

Lemma fs0_rep : k_rep env0 (f_blk fs0) view0.
Proof.
  split; simpl.
  - split; [eexists; apply binit_ring|apply binit_cells, fs_disk_idle].
  - apply (log_wf_flags _ log64 1 0), log64_wf. intros. done.
  - done.
  - done.
  - done.
  - intros n Hn. split_and!; [lia..|split; [done|simpl; lia]|lia].
  - unfold LOGSIZE, MAXOPBLOCKS. lia.
  - done.
Qed.
Lemma fs0_part : on_part env0 0 part0 fs0.
Proof. split; [lia|]. split; reflexivity. Qed.
Lemma fs0_entry : entry_is fs0 0 file_ino.
Proof. split; [lia|reflexivity]. Qed.
Lemma fs0_sb : part_sb env0 part0 view0 = mkSb 20 20 16 0 32 33 36.
Proof. vm_compute. reflexivity. Qed.
Lemma fs0_calm : calm view0.
Proof. split; reflexivity. Qed.

Lemma quiet0 n : 32 <= n < 64 -> quietly env0 view0 n.
Proof. intros Hn. apply calm_quiet; [exact fs0_calm|exact Hn]. Qed.

Lemma off0 : offset part0 = 32.
Proof. reflexivity. Qed.
Lemma bmapno0 : pt_bmapno env0 part0 view0 = 36.
Proof. unfold pt_bmapno. by rewrite fs0_sb. Qed.

Lemma fs0_ready : alloc_ready env0 part0 view0.
Proof.
  constructor; unfold pt_blk; rewrite ?off0, ?bmapno0, ?fs0_sb; cbn [sb_size].
  - unfold BPB, BSIZE. lia.
  - lia.
  - lia.
  - apply quiet0. lia.
  - apply quiet0. lia.
  - intros i Hi. split; [|apply not_elem_of_empty]. cbn [be_ok env0]. lia.
  - intros i Hi _ j. cbn [c_held view0 fresh]. rewrite lookup_empty. discriminate.
Qed.
Lemma fs0_inodes : inodes_ready env0 part0 view0.
Proof.
  constructor; unfold iblk; rewrite ?off0, ?fs0_sb; cbn [sb_inodestart sb_ninodes].
  - lia.
  - lia.
  - apply quiet0. lia.
  - intros n Hn. apply quiet0. unfold IBLOCK. cbn [sb_inodestart]. change IPB with 8. rewrite u32_small by zlia. zlia.
Qed.
Lemma fs0_first : inodes_first env0 part0 view0.
Proof. unfold inodes_first. rewrite bmapno0, fs0_sb. reflexivity. Qed.

(** *** The file *)

Lemma file_iaddr i : 0 <= i < MAXFILE ->
  iaddr (c_view view0 1) file_di i = if i =? 0 then 38 else if i =? 1 then 39 else 0.
Proof.
  intros Hi. unfold iaddr, NDIRECT. change (ind_of file_di) with 0. rewrite Z.eqb_refl.
  destruct (Z.ltb_spec i 12); [|by destruct (Z.eqb_spec i 0), (Z.eqb_spec i 1); try lia].
  assert (i = 0 \/ i = 1 \/ i = 2 \/ i = 3 \/ i = 4 \/ i = 5 \/ i = 6 \/ i = 7 \/ i = 8 \/ i = 9 \/ i = 10 \/ i = 11) as Hc by lia.
  repeat destruct Hc as [-> |Hc]; try done. by subst.
Qed.
Lemma used0 i : 0 <= i < 3 -> used env0 part0 view0 (37 + i).
Proof.
  intros Hi. exists i. unfold pt_blk. rewrite bmapno0, fs0_sb. cbn [sb_size]. split; [lia|]. split; [lia|].
  assert (i = 0 \/ i = 1 \/ i = 2) as [-> |[-> | ->]] by lia; vm_compute; reflexivity.
Qed.
Lemma file_ok : file_wf (used env0 part0 view0) (c_view view0 1) file_di.
Proof.
  constructor.
  - reflexivity.
  - cbn [di_size file_di]. rewrite MAXFILE_val. unfold BSIZE. lia.
  - intros i j Hi Hj. rewrite !file_iaddr by done.
    destruct (Z.eqb_spec i 0), (Z.eqb_spec i 1), (Z.eqb_spec j 0), (Z.eqb_spec j 1); lia.
  - intros i Hi. rewrite file_iaddr by done. change (ind_of file_di) with 0. trivial.
  - intros i Hi. rewrite file_iaddr by done. destruct (Z.eqb_spec i 0); [intros _; apply (used0 1); lia|].
    destruct (Z.eqb_spec i 1); [intros _; apply (used0 2); lia|]. intros Hn. by destruct Hn.
  - change (ind_of file_di) with 0. intros Hn. by destruct Hn.
  - intros i Hi Hs. cbn [di_size file_di] in Hs. unfold BSIZE in Hs. rewrite file_iaddr by (rewrite MAXFILE_val; lia).
    destruct (Z.eqb_spec i 0); [done|]. destruct (Z.eqb_spec i 1); [done|lia].
Qed.
Lemma file_dinode : dinode_at env0 part0 view0 2 = file_di.
Proof. vm_compute. reflexivity. Qed.
Lemma file_di_ok : dinode_ok file_di.
Proof. split; simpl; try lia; try done. repeat constructor; lia. Qed.

(** *** The root directory *)

Lemma root_iaddr i : 0 <= i < MAXFILE -> iaddr (c_view view0 1) root_di i = if i =? 0 then 37 else 0.
Proof.
  intros Hi. unfold iaddr, NDIRECT. change (ind_of root_di) with 0. rewrite Z.eqb_refl.
  destruct (Z.ltb_spec i 12); [|by destruct (Z.eqb_spec i 0); try lia].
  assert (i = 0 \/ i = 1 \/ i = 2 \/ i = 3 \/ i = 4 \/ i = 5 \/ i = 6 \/ i = 7 \/ i = 8 \/ i = 9 \/ i = 10 \/ i = 11) as Hc by lia.
  repeat destruct Hc as [-> |Hc]; try done. by subst.
Qed.
Lemma root_ok : file_wf (used env0 part0 view0) (c_view view0 1) root_di.
Proof.
  constructor.
  - reflexivity.
  - cbn [di_size root_di]. rewrite MAXFILE_val. unfold BSIZE. lia.
  - intros i j Hi Hj. rewrite !root_iaddr by done. destruct (Z.eqb_spec i 0), (Z.eqb_spec j 0); lia.
  - intros i Hi. rewrite root_iaddr by done. change (ind_of root_di) with 0. trivial.
  - intros i Hi. rewrite root_iaddr by done. destruct (Z.eqb_spec i 0); [intros _; apply (used0 0); lia|]. intros Hn. by destruct Hn.
  - change (ind_of root_di) with 0. intros Hn. by destruct Hn.
  - intros i Hi Hs. cbn [di_size root_di] in Hs. unfold BSIZE in Hs. rewrite root_iaddr by (rewrite MAXFILE_val; lia).
    destruct (Z.eqb_spec i 0); [done|lia].
Qed.
Lemma root_dir : is_dir env0 0 part0 fs0 view0 1 root_ino.
Proof.
  constructor; [split; [lia|reflexivity]|reflexivity|exact fs0_part|exact fs0_ready|exact fs0_calm|exact root_ok|reflexivity..| |].
  - apply Nat.ltb_lt. vm_compute. reflexivity.
  - apply Nat.ltb_lt. vm_compute. reflexivity.
Qed.
Lemma fs0_free : has_free fs0.
Proof. exists no_ino. split; [|reflexivity]. do 2 right. left. Qed.
Lemma root_may_write : may_write env0 part0 view0 root_ino 1.
Proof.
  constructor; [exact fs0_inodes|exact fs0_first| | | |apply Nat.leb_le; vm_compute; reflexivity..].
  - rewrite fs0_sb. cbn [sb_ninodes i_inum root_ino]. lia.
  - vm_compute. reflexivity.
  - split; simpl; try lia; try done. repeat constructor; lia.
Qed.

(** ** The theorems on this file system *)

Lemma bit0_used i : 0 <= i < 3 -> bit_of (pt_bitmap env0 part0 view0) i = true.
Proof. intros Hi. assert (i = 0 \/ i = 1 \/ i = 2) as [-> |[-> | ->]] by lia; vm_compute; reflexivity. Qed.
Lemma bit0_free : bit_of (pt_bitmap env0 part0 view0) 3 = false.
Proof. vm_compute. reflexivity. Qed.

Lemma balloc_bfree_witness :
  wp (balloc 0) (fun b s1 => b = 40 /\ wp (bfree 0 b) (fun _ s2 => exists a2, moved env0 fs0 a2 s2 /\
    pt_bitmap env0 part0 a2 = pt_bitmap env0 part0 view0) s1) fs0.
Proof.
  assert (1 <= sb_size (part_sb env0 part0 view0)) as H1 by (rewrite fs0_sb; cbn [sb_size]; lia).
  assert (size (kept view0) + 2 < Z.to_nat NBUF)%nat as H2 by (apply Nat.ltb_lt; vm_compute; reflexivity).
  assert (size (c_pinned view0) + 2 < be_cap env0)%nat as H3 by (apply Nat.ltb_lt; vm_compute; reflexivity).
  eapply wp_mono; [eapply (proj1 (balloc_bfree env0 0 part0 fs0 view0 fs0_rep fs0_part fs0_ready H1 H2 H3))|].
  - exists 3. rewrite fs0_sb. cbn [sb_size]. split; [lia|exact bit0_free].
  - intros b s1 (i & a1 & Hi & Hbi & Hlt & -> & _ & _ & _ & _ & Hfree). split.
    + unfold pt_blk. rewrite bmapno0. destruct (Z.lt_trichotomy i 3) as [Hlt3|[-> |Hgt]]; [|lia|].
      * exfalso. rewrite (bit0_used i) in Hbi by lia. discriminate.
      * exfalso. pose proof (Hlt 3 ltac:(lia)) as Hb3. rewrite bit0_free in Hb3. discriminate.
    + eapply wp_mono; [exact Hfree|]. intros [] s2 (a2 & Hm & Hbm & _). exists a2. split; assumption.
Defined.

Lemma iupdate_ilock_witness :
  wp (iupdate 0) (fun _ s1 => exists a1, moved env0 fs0 a1 s1 /\ dinode_at env0 part0 a1 1 = root_di) fs0.
Proof.
  eapply wp_mono; [eapply (iupdate_ilock env0 0 part0 fs0 view0 0 file_ino fs0_rep fs0_entry eq_refl fs0_part fs0_inodes)|].
  - rewrite fs0_sb. cbn [sb_ninodes i_inum file_ino]. lia.
  - exact file_di_ok.
  - discriminate.
  - vm_compute. lia.
  - vm_compute. lia.
  - intros [] s1 (a1 & Hm & Hoth & _). exists a1. split; [exact Hm|]. rewrite Hoth.
    + vm_compute. reflexivity.
    + rewrite fs0_sb. cbn [sb_ninodes]. lia.
    + discriminate.
Defined.

Lemma readi_slice_witness :
  wp (readi (fun _ => None) 0 500 200) (fun r _ => r = (100, replicate 12 1 ++ replicate 88 2)) fs0.
Proof.
  eapply wp_mono; [eapply (readi_slice env0 0 part0 (fun _ => None) fs0 view0 0 file_ino 500 200 fs0_rep fs0_entry eq_refl
    fs0_part fs0_ready fs0_calm file_ok)|].
  - discriminate.
  - lia.
  - lia.
  - vm_compute. lia.
  - vm_compute. lia.
  - intros r s' [_ ->]. vm_compute. reflexivity.
Defined.

Lemma writei_bytes_witness :
  wp (writei (fun _ => None) 0 (replicate 40 9) 590 40) (fun r s' => r = 40 /\ exists a' d',
    moved env0 (set_entry 0 (set_di d' file_ino) fs0) a' s' /\ dinode_at env0 part0 a' 2 = d' /\
    dinode_at env0 part0 a' 1 = root_di /\
    file_bytes (c_view a' 1) d' = replicate 512 1 ++ replicate 78 2 ++ replicate 40 9) fs0.
Proof.
  assert (0 <= i_inum file_ino < sb_ninodes (part_sb env0 part0 view0)) as Hin by (rewrite fs0_sb; cbn [sb_ninodes i_inum file_ino]; lia).
  eapply wp_mono; [eapply (writei_bytes env0 0 part0 (fun _ => None) fs0 view0 0 file_ino 590 (replicate 40 9) fs0_rep fs0_entry eq_refl
    fs0_part fs0_ready fs0_calm file_ok fs0_inodes fs0_first Hin file_dinode file_di_ok)|].
  - discriminate.
  - lia.
  - reflexivity.
  - apply Forall_replicate. unfold is_byte. lia.
  - apply Nat.leb_le. vm_compute. reflexivity.
  - apply Nat.leb_le. vm_compute. reflexivity.
  - apply Nat.leb_le. vm_compute. reflexivity.
  - intros r s' H. destruct H as (-> & a' & d' & Hm & [_ _ Hb Hd Ho _]). split; [reflexivity|]. exists a', d'.
    split; [exact Hm|]. split; [exact Hd|]. split.
    + rewrite Ho; [vm_compute; reflexivity|rewrite fs0_sb; cbn [sb_ninodes]; lia|discriminate].
    + cbn zeta in Hb. etransitivity; [exact Hb|]. vm_compute. reflexivity.
Defined.

Lemma dirlookup_finds_witness :
  wp (dirlookup (fun _ => None) 1 [97]) (fun r _ => r.2 = 32) fs0.
Proof.
  eapply wp_mono; [exact (dirlookup_finds env0 0 part0 (fun _ => None) fs0 view0 1 root_ino [97] fs0_rep root_dir fs0_free)|].
  intros r s'. replace (lookup_name [97] (dir_of env0 view0 root_ino)) with (Some (2%nat, mkDe 2 (name_field [97]))) by (vm_compute; reflexivity).
  intros (ip & t & -> & _). reflexivity.
Defined.

Lemma dirlink_links_witness :
  wp (dirlink (fun _ => None) (fun _ => None) 1 [98] 5) (fun r s' => r = 0 /\ exists a' d',
    moved env0 (set_entry 1 (set_di d' root_ino) fs0) a' s' /\
    lookup_name [98] (dir_list (file_bytes (c_view a' 1) d')) = Some (3%nat, mkDe 5 (name_field [98])) /\
    lookup_name [97] (dir_list (file_bytes (c_view a' 1) d')) = Some (2%nat, mkDe 2 (name_field [97]))) fs0.
Proof.
  eapply wp_mono; [eapply (dirlink_links env0 0 part0 (fun _ => None) (fun _ => None) fs0 view0 1 root_ino [98] 5
    fs0_rep root_dir fs0_free root_may_write)|].
  - cbn [di_size i_di root_ino root_di]. rewrite MAXFILE_val. unfold BSIZE. lia.
  - vm_compute. reflexivity.
  - lia.
  - repeat constructor; lia.
  - intros r s' (-> & a' & d' & Hm & _ & _ & Hf & Ho & _). split; [reflexivity|]. exists a', d'. split; [exact Hm|]. split.
    + etransitivity; [exact Hf|]. vm_compute. reflexivity.
    + rewrite Ho; [vm_compute; reflexivity|vm_compute; discriminate].
Defined.

(** Two lookups of the same inode share an entry. *)
Definition ino2 (r : Z) : inode := mkI 2 r 0 0 0 (i_di no_ino).
Definition fs_with (b : bst MemIde.memide) (l : list inode) : fsys := mkFs b l [part0] 0 0 [] 0.
Lemma iget_first b : iget 0 2 (fs_with b (replicate 50 no_ino)) = Done 0 (fs_with b (ino2 1 :: replicate 49 no_ino)).
Proof. reflexivity. Qed.
Lemma iget_second b : iget 0 2 (fs_with b (ino2 1 :: replicate 49 no_ino)) = Done 0 (fs_with b (ino2 2 :: replicate 49 no_ino)).
Proof. reflexivity. Qed.
Lemma icache_references_witness :
  let s := fs_with blk0 (ino2 2 :: replicate 49 no_ino) in
  rtc (istep (fun _ => None) (fun _ => None)) (fs_with blk0 (replicate 50 no_ino), []) (s, [0; 0]) /\
  (exists x, entry_is s 0 x /\ i_ref x = 2).
Proof.
  intros s.
  assert (rtc (istep (fun _ => None) (fun _ => None)) (fs_with blk0 (replicate 50 no_ino), []) (s, [0; 0])) as Hr.
  { eapply rtc_l; [eapply i_get, iget_first|]. eapply rtc_l; [eapply i_get, iget_second|]. apply rtc_refl. }
  assert (forall i x, f_icache (fs_with blk0 (replicate 50 no_ino)) !! i = Some x -> i_ref x = 0) as H0.
  { intros i x Hx. cbn [f_icache fs_with] in Hx. apply lookup_replicate in Hx as [-> _]. reflexivity. }
  split; [exact Hr|].
  destruct (proj1 (icache_references (fun _ => None) (fun _ => None) ltac:(discriminate) ltac:(discriminate) _ s [0; 0] H0 Hr) 0
    ltac:(left)) as (x & Hx & Href & _).
  exists x. split; [exact Hx|]. rewrite Href. reflexivity.
Defined.

(** ** Mounting *)

Definition no_mp : mount_point := mkMp 0 (replicate 14 0) NULLP 0 NULLP.
Definition root_mp : mount_point := mkMp 1 (47 :: replicate 13 0) 0 1 0.
Definition fs_mnt (b : bst MemIde.memide) (r : Z) (l : list mount_point) : fsys :=
  mkFs b (file_ino :: set_ref r root_ino :: replicate 48 no_ino) [part0] 0 0 l 1.
Lemma mount_run b : mount (fun _ => None) [] [47] 0 (fs_mnt b 1 (replicate 200 no_mp)) =
  Done 0 (fs_mnt b 2 (root_mp :: replicate 199 no_mp)).
Proof. vm_compute. reflexivity. Qed.

Lemma mount_resolves_witness :
  namei (fun _ => None) [] [47] (fs_mnt blk0 2 (root_mp :: replicate 199 no_mp)) =
  iget 0 ROOTINO (fs_mnt blk0 2 (root_mp :: replicate 199 no_mp)).
Proof.
  apply (proj1 (mount_resolves (fun _ => None) ltac:(discriminate) (fs_mnt blk0 1 (replicate 200 no_mp)) [] [47] 0 _
    ltac:(intros i mp Hm _; cbn [f_mounts fs_mnt] in Hm; apply lookup_replicate in Hm as [-> _]; reflexivity) (mount_run blk0))).
Defined.

Lemma empty_path_panics_witness :
  wp (namei (fun _ => None) [] []) (fun ip s' => ip <> NULLP /\ panics (ilock ip) "ilock no partition" s')
    (fs_mnt blk0 1 (replicate 200 no_mp)).
Proof.
  apply (empty_path_panics (fun _ => None) (fs_mnt blk0 1 (replicate 200 no_mp)) [] 0 no_mp).
  - exists no_ino. split; [do 2 right; left|reflexivity].
  - reflexivity.
  - reflexivity.
  - reflexivity.
  - intros j q Hj. lia.
Defined.
