(* ===== verification/Syscall.v ===== *)
(** * System call arguments: syscall.c

    The kernel reads the arguments of a system call from the user stack and follows the
    pointers among them.  [uproc] is what the running process contributes: its
    size, the bytes that are mapped from address 0 on, and its stack pointer.  An
    access outside the mapped bytes is a fault. *)

From S2P Require Import Prelude.

Record uproc := mkU { u_sz : Z; u_mem : list Z; u_esp : Z; u_killed : bool }.

Definition uload (a n : Z) : M uproc (list Z) := fun u =>
  if (0 <=? a) && (a + n <=? Z.of_nat (length (u_mem u))) then Done (bslice (Z.to_nat a) (Z.to_nat n) (u_mem u)) u
  else Fault "user memory".
Definition ustore (a : Z) (x : list Z) : M uproc unit := fun u =>
  if (0 <=? a) && (a + Z.of_nat (length x) <=? Z.of_nat (length (u_mem u)))
  then Done tt (mkU (u_sz u) (bsplice (Z.to_nat a) x (u_mem u)) (u_esp u) (u_killed u))
  else Fault "user memory".

(** [None] is the result -1. *)
Definition fetchint (addr : Z) : M uproc (option Z) :=
  sz <- gets u_sz ;;
  if (addr >=? sz) || (u32 (addr + 4) >? sz) then ret None else
  x <- uload addr 4 ;; ret (Some (s32 (le_val x))).

(** The search for the terminator, from [pp] up to the end of the process. *)
Fixpoint fetchstr_loop (n : nat) (pp s : Z) : M uproc (option (Z * Z)) :=
  match n with
  | O => ret None
  | S n' => x <- uload s 1 ;; if le_val x =? 0 then ret (Some (pp, s - pp)) else fetchstr_loop n' pp (s + 1)
  end.
(** The pointer and the length of the string. *)
Definition fetchstr (addr : Z) : M uproc (option (Z * Z)) :=
  sz <- gets u_sz ;;
  if addr >=? sz then ret None else fetchstr_loop (Z.to_nat (sz - addr)) addr addr.

Definition argint (n : Z) : M uproc (option Z) :=
  esp <- gets u_esp ;; fetchint (u32 (esp + 4 + 4 * n)).

Definition argptr (n size : Z) : M uproc (option Z) :=
  o <- argint n ;;
  match o with
  | None => ret None
  | Some i =>
      sz <- gets u_sz ;;
      if (u32 i >=? sz) || (u32 (u32 i + size) >? sz) then ret None else ret (Some (u32 i))
  end.

Definition argstr (n : Z) : M uproc (option (Z * Z)) :=
  o <- argint n ;;
  match o with None => ret None | Some addr => fetchstr (u32 addr) end.

(** ** The dispatcher *)

Inductive sysname :=
| Sys_fork | Sys_exit | Sys_wait | Sys_pipe | Sys_read | Sys_kill | Sys_exec | Sys_fstat | Sys_chdir | Sys_dup
| Sys_getpid | Sys_sbrk | Sys_sleep | Sys_uptime | Sys_open | Sys_write | Sys_mknod | Sys_unlink | Sys_link
| Sys_mkdir | Sys_close | Sys_mount.
(** The table [syscalls], whose entry 0 is not initialised. *)
Definition syscalls : list (option sysname) :=
  [None; Some Sys_fork; Some Sys_exit; Some Sys_wait; Some Sys_pipe; Some Sys_read; Some Sys_kill; Some Sys_exec;
   Some Sys_fstat; Some Sys_chdir; Some Sys_dup; Some Sys_getpid; Some Sys_sbrk; Some Sys_sleep; Some Sys_uptime;
   Some Sys_open; Some Sys_write; Some Sys_mknod; Some Sys_unlink; Some Sys_link; Some Sys_mkdir; Some Sys_close;
   Some Sys_mount].
(** The value [syscall] puts into [tf->eax]; [call] runs a handler. *)
Definition syscall {K} (call : sysname -> M K Z) (num : Z) : M K Z :=
  if (num >? 0) && (num <? Z.of_nat (length syscalls)) then
    match syscalls !! Z.to_nat num with Some (Some f) => call f | _ => ret (-1) end
  else ret (-1).

(** ** What a checked argument guarantees *)

(** A process: what its size covers is mapped, and lies below the kernel. *)
Record uproc_ok (u : uproc) : Prop := {
  uo_sz : 0 <= u_sz u <= 2 ^ 31;
  uo_mem : u_sz u <= Z.of_nat (length (u_mem u));
  uo_bytes : bytes_ok (u_mem u)
}.

Lemma uload_ok u a n : 0 <= a -> a + n <= Z.of_nat (length (u_mem u)) ->
  uload a n u = Done (bslice (Z.to_nat a) (Z.to_nat n) (u_mem u)) u.
Proof. intros H1 H2. unfold uload. by rewrite (proj2 (Z.leb_le _ _) H1), (proj2 (Z.leb_le _ _) H2). Qed.

Lemma fetchint_run u a : uproc_ok u -> 0 <= a < 2 ^ 32 ->
  fetchint a u = Done (if a + 4 <=? u_sz u then Some (s32 (get32 (Z.to_nat a) (u_mem u))) else None) u.
Proof.
  intros [H1 H2 _] Ha. unfold fetchint, bind, gets.
  assert (((a >=? u_sz u) || (u32 (a + 4) >? u_sz u)) = negb (a + 4 <=? u_sz u)) as ->.
  { destruct (Z.leb_spec (a + 4) (u_sz u)); simpl; [rewrite u32_small by zlia; lia|].
    destruct (Z.geb_spec a (u_sz u)); [done|]. rewrite u32_small by zlia. simpl. lia. }
  destruct (Z.leb_spec (a + 4) (u_sz u)); [|done]. simpl. by rewrite uload_ok by lia.
Qed.

Lemma argint_run u n : uproc_ok u ->
  let a := u32 (u_esp u + 4 + 4 * n) in
  argint n u = Done (if a + 4 <=? u_sz u then Some (s32 (get32 (Z.to_nat a) (u_mem u))) else None) u.
Proof. intros Hu a. unfold argint, bind, gets. apply fetchint_run; [done|]. apply u32_range. Qed.

(** The word on the stack, as an address. *)
Definition arg_word (u : uproc) (n : Z) : option Z :=
  let a := u32 (u_esp u + 4 + 4 * n) in
  if a + 4 <=? u_sz u then Some (get32 (Z.to_nat a) (u_mem u)) else None.

Lemma u32_s32 z : u32 (s32 z) = u32 z.
Proof. unfold s32, u32. destruct (Z.ltb_spec (z mod 2 ^ 32) (2 ^ 31)); zlia. Qed.
Lemma u32_arg u n v : uproc_ok u -> arg_word u n = Some v -> u32 (s32 v) = v.
Proof.
  intros Hu. unfold arg_word. case_match; [|done]. intros [= <-]. rewrite u32_s32. apply u32_small.
  pose proof (get32_range (Z.to_nat (u32 (u_esp u + 4 + 4 * n))) (u_mem u) (uo_bytes _ Hu)). zlia.
Qed.

(** A C string lies at [p]: [len] bytes that are not 0, and a 0. *)
Definition string_at (m : list Z) (p len : Z) : Prop :=
  m !! Z.to_nat (p + len) = Some 0 /\ forall j, p <= j < p + len -> exists c, m !! Z.to_nat j = Some c /\ c <> 0.

Lemma byte_at m a : 0 <= a -> a < Z.of_nat (length m) -> exists c, m !! Z.to_nat a = Some c /\ bslice (Z.to_nat a) 1 m = [c].
Proof.
  intros H0 H1. destruct (lookup_lt_is_Some_2 m (Z.to_nat a)) as [c Hc]; [lia|]. exists c. split; [done|].
  apply list_eq. intros [|i]; [by rewrite bslice_lookup, Nat.add_0_r by lia|]. by rewrite bslice_lookup_ge by lia.
Qed.

Lemma fetchstr_loop_run u n p s : uproc_ok u -> 0 <= p <= s -> s + Z.of_nat n = u_sz u ->
  (forall j, p <= j < s -> exists c, u_mem u !! Z.to_nat j = Some c /\ c <> 0) ->
  exists r, fetchstr_loop n p s u = Done r u /\
    match r with
    | Some (q, len) => q = p /\ 0 <= len /\ p + len < u_sz u /\ string_at (u_mem u) p len
    | None => forall j, p <= j < u_sz u -> u_mem u !! Z.to_nat j <> Some 0
    end.
Proof.
  intros Hu. revert s. induction n as [|n IH]; intros s Hp Hs Hpre; simpl.
  - exists None. split; [done|]. intros j Hj. destruct (Hpre j) as (c & -> & Hc); [lia|congruence].
  - pose proof (uo_mem _ Hu). destruct (byte_at (u_mem u) s) as (c & Hc & Eb); [lia..|].
    unfold bind at 1. rewrite uload_ok by lia. change (Z.to_nat 1) with 1%nat. rewrite Eb. simpl. rewrite Z.add_0_r.
    destruct (Z.eqb_spec c 0) as [-> |Hnz].
    + exists (Some (p, s - p)). split; [done|]. split_and!; [done|lia|lia|]. split; [by replace (p + (s - p)) with s by lia|].
      intros j Hj. apply Hpre. lia.
    + apply IH; [lia|lia|]. intros j Hj. destruct (decide (j = s)) as [-> |]; [eauto|]. apply Hpre. lia.
Qed.

(** C3. The arguments of a system call.  Whatever the stack pointer and the words on the stack are,
    [argint], [argptr] and [argstr] return without touching memory the process does not have, and change
    nothing.  [argint] delivers exactly the words inside the process; [argptr] with a size that is not negative accepts
    exactly the pointers to that many bytes inside the process; a string [argstr]
    accepts has its terminator inside the process, and it rejects only strings that do
    not end there.  A negative size, however, makes [argptr] accept pointers without checking
    that anything behind them exists. *)
Theorem argument_bounds u n : uproc_ok u ->
  argint n u = Done (s32 <$> arg_word u n) u /\
  (forall size, 0 <= size < 2 ^ 31 ->
    argptr n size u = Done (arg_word u n ≫= fun p => if (p <? u_sz u) && (p + size <=? u_sz u) then Some p else None) u) /\
  (exists r, argstr n u = Done r u /\
    match r with
    | Some (p, len) => arg_word u n = Some p /\ 0 <= p /\ 0 <= len /\ p + len < u_sz u /\ string_at (u_mem u) p len
    | None => forall p, arg_word u n = Some p -> forall j, p <= j < u_sz u -> u_mem u !! Z.to_nat j <> Some 0
    end) /\
  (forall size p, arg_word u n = Some p -> p < u_sz u -> - p <= size < 0 -> argptr n size u = Done (Some p) u).
Proof.
  intros Hu. pose proof (argint_run u n Hu) as Hi. simpl in Hi.
  assert (argint n u = Done (s32 <$> arg_word u n) u) as Ei by (rewrite Hi; unfold arg_word; by case_match). clear Hi.
  assert (forall v, arg_word u n = Some v -> 0 <= v < 2 ^ 32) as Hv.
  { intros v. unfold arg_word. case_match; [|done]. intros [= <-]. apply get32_range, Hu. }
  destruct (uo_sz _ Hu) as [Hs0 Hs1]. split_and!; [done| | |].
  - intros size Hsz. unfold argptr, bind at 1. rewrite Ei. destruct (arg_word u n) as [v|] eqn:E; [|done]. simpl.
    unfold bind, gets. rewrite (u32_arg u n v Hu E). specialize (Hv v eq_refl).
    destruct (Z.geb_spec v (u_sz u)), (Z.ltb_spec v (u_sz u)); try lia; [done|]. simpl.
    rewrite u32_small by zlia. destruct (Z.gtb_spec (v + size) (u_sz u)), (Z.leb_spec (v + size) (u_sz u)); try lia; done.
  - unfold argstr, bind at 1. rewrite Ei. destruct (arg_word u n) as [v|] eqn:E; [|by exists None]. simpl.
    rewrite (u32_arg u n v Hu E). specialize (Hv v eq_refl). unfold fetchstr, bind, gets.
    destruct (Z.geb_spec v (u_sz u)) as [Hge|Hlt].
    + exists None. split; [done|]. intros p [= <-]. lia.
    + destruct (fetchstr_loop_run u (Z.to_nat (u_sz u - v)) v v Hu) as (r & Er & Hr); [lia|lia|lia|].
      exists r. split; [done|]. destruct r as [[q len]|]; [|by intros p [= <-]]. destruct Hr as (-> & H1 & H2 & H3). split_and!; [done|lia|done..].
  - intros size p E Hp Hsz. unfold argptr, bind at 1. rewrite Ei, E. simpl. unfold bind, gets. rewrite (u32_arg u n p Hu E).
    destruct (Z.geb_spec p (u_sz u)); [lia|]. simpl. specialize (Hv p E). rewrite u32_small by zlia.
    destruct (Z.gtb_spec (p + size) (u_sz u)); [lia|done].
Qed.

(** A process of 64 bytes whose stack pointer is 32: the first argument is 8, where the string "ab" is. *)
Definition u64 : uproc :=
  mkU 64 (bsplice 36 [8; 0; 0; 0] (bsplice 8 [97; 98; 0] (replicate 64 1))) 32 false.
Lemma argument_bounds_witness :
  argint 0 u64 = Done (Some 8) u64 /\ argptr 0 56 u64 = Done (Some 8) u64 /\ argptr 0 57 u64 = Done None u64 /\
  argptr 0 (-1) u64 = Done (Some 8) u64.
Proof.
  destruct (argument_bounds u64 0) as (H1 & H2 & H3 & H4).
  { split; [done|done|]. apply (bool_decide_unpack _). vm_compute. exact I. }
  split_and!; [exact H1|exact (H2 56 ltac:(lia))|exact (H2 57 ltac:(lia))|].
  apply H4; [reflexivity|vm_compute; reflexivity|lia].
Defined.
