(* ===== verification/Exec.v ===== *)
(** * Loading programs: exec.c, elf.h, [loaduvm] of vm.c and [sys_exec] of sysfile.c

    The state is that of Proc.v; [me] is the process that calls.  The strings [path] and [argv] are the bytes
    before their terminators.  [junk] is what the stack holds where the source declares [struct elfhdr elf]
    and [struct proghdr ph]. *)

From S2P Require Import Prelude Kalloc Vm Proc Syscall.

Definition ELF_MAGIC : Z := 0x464C457F.
Definition ELF_PROG_LOAD : Z := 1.
Definition MAXARG : Z := 32.
Definition SIZEOF_ELFHDR : Z := 52.
Definition SIZEOF_PROGHDR : Z := 32.

(** The fields the loader uses. *)
Record elfhdr := mkElf { eh_magic : Z; eh_entry : Z; eh_phoff : Z; eh_phnum : Z }.
Definition elfhdr_of (b : list Z) : elfhdr := mkElf (get32 0 b) (get32 24 b) (get32 28 b) (get16 44 b).
Record proghdr := mkPh { ph_type : Z; ph_off : Z; ph_vaddr : Z; ph_filesz : Z; ph_memsz : Z }.
Definition proghdr_of (b : list Z) : proghdr := mkPh (get32 0 b) (get32 4 b) (get32 8 b) (get32 16 b) (get32 20 b).

(** What the loader calls in the file layer, besides [Files]. *)
Class Inodes (F : Type) := {
  x_ilock : Z -> M F unit;
  x_readi : Z -> Z -> Z -> M F (Z * list Z);
  x_iunlockput : Z -> M F unit
}.

Section Exec.
Context {F : Type} `{Files F} `{Inodes F}.
Variables kend kdata : Z.
Variable junk : list Z.
Abbreviation pst := (pst (F := F)).

(** [for(i = 0; i < sz; i += PGSIZE)] *)
Fixpoint loaduvm_loop (fuel : nat) (pgdir addr ip offset sz i : Z) : M pst Z :=
  if i <? sz then
    match fuel with
    | O => nofuel
    | S fuel' =>
        pte <- on_mem (walkpgdir pgdir (u32 (addr + i)) 0) ;;
        if pte =? 0 then panic "loaduvm: address should exist" else
        w <- on_mem (ldw pte) ;;
        let n := if u32 (sz - i) <? PGSIZE then u32 (sz - i) else PGSIZE in
        rv <- on_fs (x_readi ip (u32 (offset + i)) n) ;; let (r, got) := rv : Z * list Z in
        on_mem (copy_in (p2v (PTE_ADDR w)) 0 got) ;;;
        if negb (u32 r =? n) then ret (-1) else loaduvm_loop fuel' pgdir addr ip offset sz (u32 (i + PGSIZE))
    end
  else ret 0.
(** The loop visits every page of the address space once at most. *)
Definition loaduvm (pgdir addr ip offset sz : Z) : M pst Z :=
  if negb (u32 addr mod PGSIZE =? 0) then panic "loaduvm: addr must be page aligned"
  else loaduvm_loop (Z.to_nat (2 ^ 20)) pgdir addr ip offset sz 0.

(** The loop over the [n] program headers from [off] on; [None]: [goto bad]. *)
Fixpoint load_segments (n : nat) (pgdir ip off sz : Z) : M pst (option Z) :=
  match n with
  | O => ret (Some sz)
  | S n' =>
      rv <- on_fs (x_readi ip off SIZEOF_PROGHDR) ;; let (r, got) := rv : Z * list Z in
      let ph := proghdr_of (bsplice 0 got junk) in
      if negb (u32 r =? SIZEOF_PROGHDR) then ret None else
      if negb (ph_type ph =? ELF_PROG_LOAD) then load_segments n' pgdir ip (u32 (off + SIZEOF_PROGHDR)) sz else
      if ph_memsz ph <? ph_filesz ph then ret None else
      sz <- on_mem (allocuvm kend pgdir sz (u32 (ph_vaddr ph + ph_memsz ph))) ;;
      if sz =? 0 then ret None else
      r <- loaduvm pgdir (ph_vaddr ph) ip (ph_off ph) (ph_filesz ph) ;;
      if r <? 0 then ret None else load_segments n' pgdir ip (u32 (off + SIZEOF_PROGHDR)) sz
  end.

(** The argument strings, from [sp] downwards: the stack pointer and the addresses. *)
Fixpoint push_args (pgdir argc sp : Z) (argv : list (list Z)) : M kst (option (Z * list Z)) :=
  match argv with
  | [] => ret (Some (sp, []))
  | a :: argv' =>
      if argc >=? MAXARG then ret None else
      let sp := Z.land (u32 (sp - (Z.of_nat (length a) + 1))) (Z.lnot 3) in
      r <- copyout pgdir sp (a ++ [0]) ;;
      if r <? 0 then ret None else
      o <- push_args pgdir (argc + 1) sp argv' ;;
      ret (match o with Some (sp', ptrs) => Some (sp', sp :: ptrs) | None => None end)
  end.
Definition words (ws : list Z) : list Z := concat (map (le_bytes 4) ws).
(** The words above the strings: a return address, the arguments of [main], and [argv]. *)
Definition ustack (sp : Z) (ptrs : list Z) : list Z :=
  let argc := Z.of_nat (length ptrs) in
  [0xffffffff; argc; u32 (sp - (argc + 1) * 4)] ++ ptrs ++ [0].
Definition push_stack (pgdir sp : Z) (argv : list (list Z)) : M kst (option Z) :=
  o <- push_args pgdir 0 sp argv ;;
  match o with
  | None => ret None
  | Some (sp, ptrs) =>
      let sp' := u32 (sp - (3 + Z.of_nat (length ptrs) + 1) * 4) in
      r <- copyout pgdir sp' (words (ustack sp ptrs)) ;;
      ret (if r <? 0 then None else Some sp')
  end.

(** What follows the last slash of the path. *)
Fixpoint last_elem (last s : list Z) : list Z :=
  match s with [] => last | c :: s' => last_elem (if c =? 47 then s' else last) s' end.

Definition bad (pgdir ip : Z) : M pst Z :=
  (if negb (pgdir =? 0) then on_mem (freevm kend pgdir) else ret tt) ;;;
  (if negb (ip =? 0) then on_fs (x_iunlockput ip) ;;; on_fs f_end_op else ret tt) ;;;
  ret (-1).

(** The part after the segments are loaded: stack, arguments, and the switch to the new image. *)
Definition exec_image (me : nat) (path : list Z) (argv : list (list Z)) (entry pgdir sz : Z) : M pst Z :=
  let sz := PGROUNDUP sz in
  sz <- on_mem (allocuvm kend pgdir sz (u32 (sz + 2 * PGSIZE))) ;;
  if sz =? 0 then bad pgdir 0 else
  on_mem (clearpteu pgdir (u32 (sz - 2 * PGSIZE))) ;;;
  o <- on_mem (push_stack pgdir sz argv) ;;
  match o with
  | None => bad pgdir 0
  | Some sp =>
      set_proc me (fun p => set_name (name_copy (last_elem path path) (name p)) p) ;;;
      p <- get_proc me ;;
      let oldpgdir := Proc.pgdir p in
      set_proc me (set_pgdir pgdir) ;;;
      set_proc me (set_sz sz) ;;;
      on_mem (stw (tf p + TF_EIP) entry) ;;;
      on_mem (stw (tf p + TF_ESP) sp) ;;;
      switchuvm me ;;;
      on_mem (freevm kend oldpgdir) ;;;
      ret 0
  end.

Definition exec (me : nat) (path : list Z) (argv : list (list Z)) : M pst Z :=
  on_fs f_begin_op ;;;
  ip <- on_fs (f_namei path) ;;
  if ip =? 0 then on_fs f_end_op ;;; ret (-1) else
  on_fs (x_ilock ip) ;;;
  rv <- on_fs (x_readi ip 0 SIZEOF_ELFHDR) ;; let (r, got) := rv : Z * list Z in
  let elf := elfhdr_of (bsplice 0 got junk) in
  if u32 r <? SIZEOF_ELFHDR then bad 0 ip else
  if negb (eh_magic elf =? ELF_MAGIC) then bad 0 ip else
  pgdir <- on_mem (setupkvm kdata) ;;
  if pgdir =? 0 then bad 0 ip else
  o <- load_segments (Z.to_nat (eh_phnum elf)) pgdir ip (eh_phoff elf) 0 ;;
  match o with
  | None => bad pgdir ip
  | Some sz =>
      on_fs (x_iunlockput ip) ;;;
      on_fs f_end_op ;;;
      exec_image me path argv (eh_entry elf) pgdir sz
  end.
End Exec.

(** ** [sys_exec] *)

(** The strings the vector at [uargv] points to, from its element [i] on. *)
Fixpoint fetch_argv (n : nat) (uargv i : Z) : M uproc (option (list (list Z))) :=
  match n with
  | O => ret None
  | S n' =>
      o <- fetchint (u32 (uargv + 4 * i)) ;;
      match o with
      | None => ret None
      | Some uarg =>
          if u32 uarg =? 0 then ret (Some []) else
          o <- fetchstr (u32 uarg) ;;
          match o with
          | None => ret None
          | Some (p, len) =>
              a <- uload p len ;;
              rest <- fetch_argv n' uargv (i + 1) ;;
              ret (match rest with Some argv => Some (a :: argv) | None => None end)
          end
      end
  end.
Definition exec_args : M uproc (option (list Z * list (list Z))) :=
  o <- argstr 0 ;;
  match o with
  | None => ret None
  | Some (p, len) =>
      path <- uload p len ;;
      o <- argint 1 ;;
      match o with
      | None => ret None
      | Some uargv =>
          argv <- fetch_argv (Z.to_nat MAXARG) (u32 uargv) 0 ;;
          ret (match argv with Some argv => Some (path, argv) | None => None end)
      end
  end.
(** What the handler computes from the user's stack and memory, which it only reads. *)
Definition from_user {S A} (m : M uproc A) (u : uproc) : M S A :=
  match m u with
  | Done a _ => ret a
  | Panic msg => panic msg
  | Sleep c => sleep_on c
  | Fault w => fault w
  | NoFuel => nofuel
  end.
Definition sys_exec {F} `{Files F} `{Inodes F} (kend kdata : Z) (junk : list Z) (me : nat) (u : uproc) : M (pst (F := F)) Z :=
  o <- from_user exec_args u ;;
  match o with
  | Some (path, argv) => exec kend kdata junk me path argv
  | None => ret (-1)
  end.
