(* ===== verification/Boot.v ===== *)
(** * The boot loader: bootmain.c

    Physical memory is a function from addresses to bytes.  The disk controller is the one of ide.c ([IdeController]):
    it is busy for a while after a command, and data fetched too early is unspecified.
    The theorem says that after [bootmain] every segment of the kernel is in
    its place, although [readseg] reads whole sectors and so writes more than it is asked for. *)

From S2P Require Import Prelude Buf Ide Exec.
Import Ide.

Definition SECTSIZE : Z := 512.

Section Boot.
Context {C : Type} `{IC : IdeController C}.

Record boot := mkBoot { mem : Z -> Z; dsk : C }.

Definition b_inb (port : Z) : M boot Z := fun s => let (v, c) := inb port (dsk s) in Done v (mkBoot (mem s) c).
Definition b_outb (port v : Z) : M boot unit := modify (fun s => mkBoot (mem s) (outb port (u8 v) (dsk s))).
Definition b_insl (port cnt : Z) : M boot (list Z) := fun s => let (x, c) := insl port cnt (dsk s) in Done x (mkBoot (mem s) c).
(** The bytes [l] at [a]. *)
Definition fill (a : Z) (l : list Z) (m : Z -> Z) : Z -> Z :=
  fun x => if (a <=? x) && (x <? a + Z.of_nat (length l)) then nth (Z.to_nat (x - a)) l 0 else m x.
Definition b_fill (a : Z) (l : list Z) : M boot unit := modify (fun s => mkBoot (fill a l (mem s)) (dsk s)).
Definition b_word (a : Z) : M boot Z := gets (fun s => le_val (map (fun i => mem s (a + i)) [0; 1; 2; 3])).
Definition b_half (a : Z) : M boot Z := gets (fun s => le_val (map (fun i => mem s (a + i)) [0; 1])).

Fixpoint waitdisk_loop (fuel : nat) : M boot unit :=
  match fuel with
  | O => nofuel
  | S fuel' => r <- b_inb 0x1F7 ;; if Z.land r 0xC0 =? 0x40 then ret tt else waitdisk_loop fuel'
  end.
Definition waitdisk : M boot unit := waitdisk_loop IDE_POLLS.

Definition readsect (dst offset : Z) : M boot unit :=
  waitdisk ;;;
  b_outb 0x1F2 1 ;;;
  b_outb 0x1F3 offset ;;;
  b_outb 0x1F4 (Z.shiftr offset 8) ;;;
  b_outb 0x1F5 (Z.shiftr offset 16) ;;;
  b_outb 0x1F6 (Z.lor (Z.shiftr offset 24) 0xE0) ;;;
  b_outb 0x1F7 0x20 ;;;
  waitdisk ;;;
  x <- b_insl 0x1F0 (SECTSIZE / 4) ;;
  b_fill dst x.

Fixpoint readseg_loop (fuel : nat) (pa epa offset : Z) : M boot unit :=
  if pa <? epa then
    match fuel with
    | O => nofuel
    | S fuel' => readsect pa offset ;;; readseg_loop fuel' (u32 (pa + SECTSIZE)) epa (u32 (offset + 1))
    end
  else ret tt.
(** The memory has 2^23 sectors. *)
Definition readseg (pa count offset : Z) : M boot unit :=
  let epa := u32 (pa + count) in
  let pa := u32 (pa - offset mod SECTSIZE) in
  let offset := offset / SECTSIZE + 1 in
  readseg_loop (Z.to_nat (2 ^ 23)) pa epa offset.

Definition SCRATCH : Z := 0x10000.
(** [for(; ph < eph; ph++)]; [phnum] is 16 bits wide. *)
Fixpoint load_loop (fuel : nat) (ph eph : Z) : M boot unit :=
  if ph <? eph then
    match fuel with
    | O => nofuel
    | S fuel' =>
        pa <- b_word (ph + 12) ;;
        filesz <- b_word (ph + 16) ;;
        off <- b_word (ph + 4) ;;
        readseg pa filesz off ;;;
        memsz <- b_word (ph + 20) ;;
        filesz <- b_word (ph + 16) ;;
        (if memsz >? filesz then b_fill (u32 (pa + filesz)) (replicate (Z.to_nat (memsz - filesz)) 0) else ret tt) ;;;
        load_loop fuel' (u32 (ph + SIZEOF_PROGHDR)) eph
    end
  else ret tt.
(** The entry point that is called; [None]: back to bootasm.S. *)
Definition bootmain : M boot (option Z) :=
  readseg SCRATCH 4096 0 ;;;
  magic <- b_word SCRATCH ;;
  if negb (magic =? ELF_MAGIC) then ret None else
  phoff <- b_word (SCRATCH + 28) ;;
  let ph := u32 (SCRATCH + phoff) in
  phnum <- b_half (SCRATCH + 44) ;;
  load_loop (Z.to_nat (2 ^ 16)) ph (u32 (ph + phnum * SIZEOF_PROGHDR)) ;;;
  entry <- b_word (SCRATCH + 24) ;;
  ret (Some entry).

(** ** Reading sectors *)

(** The command as bootmain.c writes it: ide.c also writes the control register. *)
Hypothesis boot_read : forall c l0 l1 l2 dh,
  ctl_ready c -> is_byte l0 -> is_byte l1 -> is_byte l2 -> is_byte dh ->
  let c' := outb 0x1f7 IDE_CMD_READ (outb 0x1f6 dh (outb 0x1f5 l2 (outb 0x1f4 l1 (outb 0x1f3 l0 (outb 0x1f2 1 c))))) in
  ctl_reading c' (drive dh) (lba l0 l1 l2 dh) /\ sectors c' = sectors c.

(** [waitdisk] while [before] holds, until [after] does. *)
Lemma wp_waitdisk (before after : C -> Prop) s (Q : unit -> boot -> Prop) :
  (forall c, before c -> let (v, c') := inb 0x1f7 c in sectors c' = sectors c /\
    (Z.land v (Z.lor IDE_BSY IDE_DRDY) = IDE_DRDY /\ after c' \/
     Z.land v (Z.lor IDE_BSY IDE_DRDY) <> IDE_DRDY /\ before c' /\ (ctl_polls c' < ctl_polls c)%nat)) ->
  before (dsk s) -> (forall c, after c -> sectors c = sectors (dsk s) -> Q tt (mkBoot (mem s) c)) -> wp waitdisk Q s.
Proof.
  intros Hst Hb HQ. unfold waitdisk. pose proof (polls_bound (dsk s)) as Hf. revert Hf. generalize IDE_POLLS as fuel.
  intros fuel. revert s Hb HQ. induction fuel as [|fuel IH]; intros s Hb HQ Hf; [lia|]. cbn [waitdisk_loop].
  apply wp_bind. unfold wp at 1, b_inb. pose proof (Hst _ Hb) as Hs. change 0xC0 with (Z.lor IDE_BSY IDE_DRDY). change 0x40 with IDE_DRDY.
  destruct (inb 0x1F7 (dsk s)) as [v c]. destruct Hs as [Es [[Hr Hc]|(Hr & Hc & Hp)]].
  - rewrite Hr, Z.eqb_refl. by apply wp_ret, HQ.
  - rewrite (proj2 (Z.eqb_neq _ _) Hr). apply IH; [done| |simpl; lia]. intros c' Hc' Es'. apply HQ; [done|]. by rewrite Es'.
Qed.
Lemma wp_wait_ready s (Q : unit -> boot -> Prop) : ctl_idle (dsk s) ->
  (forall c, ctl_ready c -> sectors c = sectors (dsk s) -> Q tt (mkBoot (mem s) c)) -> wp waitdisk Q s.
Proof. apply wp_waitdisk. apply status_idle. Qed.
Lemma wp_wait_data s d n (Q : unit -> boot -> Prop) : ctl_reading (dsk s) d n ->
  (forall c, ctl_data c d n -> sectors c = sectors (dsk s) -> Q tt (mkBoot (mem s) c)) -> wp waitdisk Q s.
Proof.
  apply (wp_waitdisk (fun c => ctl_reading c d n) (fun c => ctl_data c d n)). intros c Hc. pose proof (status_reading _ _ _ Hc) as Hs.
  destruct (inb 0x1f7 c) as [v c']. naive_solver.
Qed.

Lemma boot_lba n : 0 <= n < 2 ^ 28 -> let dh := u8 (Z.lor (Z.shiftr n 24) 0xE0) in
  lba (u8 n) (u8 (Z.shiftr n 8)) (u8 (Z.shiftr n 16)) dh = n /\ drive dh = 0.
Proof.
  intros Hn dh. rewrite !Z.shiftr_div_pow2 by lia. assert (0 <= n / 2 ^ 24 < 16) as Hq by zlia.
  assert (dh = 0xE0 + n / 2 ^ 24) as Edh.
  { unfold dh. rewrite Z.shiftr_div_pow2 by lia. set (q := n / 2 ^ 24) in *. clearbody q. clear - Hq.
    assert (q = 0 \/ q = 1 \/ q = 2 \/ q = 3 \/ q = 4 \/ q = 5 \/ q = 6 \/ q = 7 \/ q = 8 \/ q = 9 \/ q = 10 \/ q = 11 \/ q = 12 \/ q = 13 \/ q = 14 \/ q = 15) as H by lia.
    repeat destruct H as [->|H]; try reflexivity. by rewrite H. }
  split.
  - unfold lba. rewrite Edh. unfold u8. zlia.
  - unfold drive. rewrite Edh. replace (0xE0 + n / 2 ^ 24) with (n / 2 ^ 24 + 7 * 2 ^ 5) by lia.
    rewrite Z.testbit_eqb by lia. change (2 ^ 4) with 16. replace ((n / 2 ^ 24 + 7 * 2 ^ 5) / 16) with 14 by zlia. done.
Qed.

(** What the loader leaves of the controller: it is idle again, and the disk is the same. *)
Definition same_disk (s s' : boot) : Prop := ctl_idle (dsk s') /\ sectors (dsk s') = sectors (dsk s).

Lemma wp_readsect s dst n : ctl_idle (dsk s) -> 0 <= n < 2 ^ 28 ->
  wp (readsect dst n) (fun _ s' => mem s' = fill dst (sectors (dsk s) 0 n) (mem s) /\ same_disk s s') s.
Proof using boot_read.
  intros Hi Hn. unfold readsect. apply wp_bind, wp_wait_ready; [done|]. intros c1 W2 W3. do 6 (apply wp_bind, wp_modify). cbn [mem dsk].
  destruct (boot_lba n Hn) as [L1 L2]. set (dh := u8 (Z.lor (Z.shiftr n 24) 224)) in *.
  destruct (boot_read c1 (u8 n) (u8 (Z.shiftr n 8)) (u8 (Z.shiftr n 16)) dh W2) as [R1 R2]; [apply u8_range..|].
  rewrite L1, L2 in R1. change (u8 1) with 1. change (u8 32) with IDE_CMD_READ. set (c2 := outb _ _ _) in *.
  apply wp_bind, (wp_wait_data _ 0 n); [exact R1|]. cbn [mem dsk]. intros c3 V3 V4. destruct (ata_data c3 0 n V3) as (D1 & D2 & D3).
  apply wp_bind. unfold wp, b_insl. cbn [dsk]. change (SECTSIZE / 4) with (BSIZE / 4). destruct (insl 0x1f0 (BSIZE / 4) c3) as [x c4]. simpl in D1, D2, D3.
  simpl. split; [|split; [done|]].
  - by rewrite D1, V4, R2, W3.
  - simpl. by rewrite D3, V4, R2, W3.
Qed.

(** The bytes of the kernel file, which starts at sector 1. *)
Definition kbyte (c : C) (k : Z) : Z := nth (Z.to_nat (k mod SECTSIZE)) (sectors c 0 (k / SECTSIZE + 1)) 0.

Lemma wp_readseg_loop n : forall fuel s pa epa o, ctl_idle (dsk s) -> (n <= fuel)%nat -> 0 <= pa ->
  epa <= pa + Z.of_nat n * SECTSIZE < epa + SECTSIZE -> pa + Z.of_nat n * SECTSIZE < 2 ^ 32 -> 1 <= o -> o + Z.of_nat n <= 2 ^ 28 ->
  wp (readseg_loop fuel pa epa o) (fun _ s' => same_disk s s' /\ forall x, mem s' x =
    if decide (pa <= x < pa + Z.of_nat n * SECTSIZE) then kbyte (dsk s) (SECTSIZE * (o - 1) + (x - pa)) else mem s x) s.
Proof using boot_read.
  unfold SECTSIZE. induction n as [|n IH]; intros fuel s pa epa o Hi Hfu Hpa Hn Htop Ho Hon.
  { destruct fuel; cbn [readseg_loop]; (destruct (Z.ltb_spec pa epa); [lia|]); apply wp_ret; (split; [done|]); intros x; rewrite decide_False by lia; done. }
  destruct fuel as [|fuel]; [lia|]. cbn [readseg_loop]. destruct (Z.ltb_spec pa epa) as [Hlt|]; [|lia].
  apply wp_bind. eapply wp_mono; [apply (wp_readsect s pa o); [done|lia]|]. intros [] s1 (Hm1 & Hi1 & Hd1).
  unfold SECTSIZE. rewrite (u32_small (pa + 512)), (u32_small (o + 1)) by lia.
  eapply wp_mono; [apply (IH fuel s1 (pa + 512) epa (o + 1)); [done|lia..]|]. intros [] s2 ((Hi2 & Hd2) & Hm2).
  split; [split; [done|by rewrite Hd2]|]. intros x. rewrite Hm2. pose proof (sectors_ok (dsk s) 0 o Hi) as [Hlen _].
  change (BSIZEn) with 512%nat in Hlen. destruct (decide (pa + 512 <= x < pa + 512 + Z.of_nat n * 512)) as [H2|H2].
  - rewrite decide_True by lia. replace (512 * (o + 1 - 1) + (x - (pa + 512))) with (512 * (o - 1) + (x - pa)) by lia. unfold kbyte. by rewrite Hd1.
  - rewrite Hm1. unfold fill. rewrite Hlen. destruct (decide (pa <= x < pa + 512)) as [H3|H3].
    + rewrite (proj2 (Z.leb_le _ _)), (proj2 (Z.ltb_lt _ _)), decide_True by lia. cbn [andb]. unfold kbyte, SECTSIZE. f_equal; [f_equal|f_equal]; zlia.
    + rewrite decide_False by lia. replace ((pa <=? x) && (x <? pa + Z.of_nat 512)) with false; [done|].
      symmetry. apply andb_false_iff. destruct (Z.leb_spec pa x); [right; apply Z.ltb_ge; lia|by left].
Qed.

(** [readseg] reads the sectors that hold the [count] bytes from [off] on, and so also the bytes around them. *)
Lemma wp_readseg s pa count off : ctl_idle (dsk s) -> 0 <= off -> 0 <= count -> off mod SECTSIZE <= pa -> pa + count + SECTSIZE < 2 ^ 32 ->
  off + count + 2 * SECTSIZE <= 2 ^ 28 * SECTSIZE ->
  wp (readseg pa count off) (fun _ s' => same_disk s s' /\
    (forall x, pa <= x < pa + count -> mem s' x = kbyte (dsk s) (off + (x - pa))) /\
    (forall x, x < pa - off mod SECTSIZE \/ pa + count + SECTSIZE <= x -> mem s' x = mem s x)) s.
Proof using boot_read.
  intros Hi Ho Hc Hpa Htop Hoff. unfold readseg. set (b := off mod SECTSIZE) in *. assert (0 <= b < 512) as Hb by (unfold b, SECTSIZE; zlia).
  unfold SECTSIZE in Htop, Hoff. rewrite (u32_small (pa + count)), (u32_small (pa - b)) by lia.
  set (n := Z.to_nat ((count + b + 511) / 512)). assert (count + b <= Z.of_nat n * 512 < count + b + 512) as Hn by (unfold n; rewrite Z2Nat.id by zlia; zlia).
  eapply wp_mono; [apply (wp_readseg_loop n _ s (pa - b) (pa + count) (off / SECTSIZE + 1)); try done; unfold SECTSIZE|].
  - apply Nat2Z.inj_le. rewrite Z2Nat.id by lia. lia.
  - lia.
  - lia.
  - lia.
  - zlia.
  - zlia.
  - intros [] s' [Hd Hm]. split; [done|]. unfold SECTSIZE in Hm. split; intros x Hx; rewrite Hm.
    + rewrite decide_True by lia. f_equal. unfold b, SECTSIZE. zlia.
    + unfold SECTSIZE in Hx. rewrite decide_False by lia. done.
Qed.

(** ** The kernel *)

(** The fields of the program header at [h] of a file. *)
Definition fword (f : Z -> Z) (a : Z) : Z := le_val (map (fun i => f (a + i)) [0; 1; 2; 3]).
Definition s_off (f : Z -> Z) (h : Z) : Z := fword f (h + 4).
Definition s_pa (f : Z -> Z) (h : Z) : Z := fword f (h + 12).
Definition s_filesz (f : Z -> Z) (h : Z) : Z := fword f (h + 16).
Definition s_memsz (f : Z -> Z) (h : Z) : Z := fword f (h + 20).
(** The [n] segments from [h] on lie one behind the other above [lo], also with the bytes in front of
    them that are in the same sector of the file. *)
Fixpoint segs_ok (f : Z -> Z) (lo h : Z) (n : nat) : Prop :=
  match n with
  | O => True
  | S n' => lo <= s_pa f h - s_off f h mod SECTSIZE /\ s_filesz f h <= s_memsz f h /\ s_pa f h + s_memsz f h + SECTSIZE < 2 ^ 32 /\
      segs_ok f (s_pa f h + s_memsz f h) (h + SIZEOF_PROGHDR) n'
  end.
(** Their bytes are in place, followed by zeroes. *)
Fixpoint in_place (f : Z -> Z) (m : Z -> Z) (h : Z) (n : nat) : Prop :=
  match n with
  | O => True
  | S n' => (forall x, s_pa f h <= x < s_pa f h + s_memsz f h ->
        m x = if decide (x < s_pa f h + s_filesz f h) then f (s_off f h + (x - s_pa f h)) else 0) /\
      in_place f m (h + SIZEOF_PROGHDR) n'
  end.

(** The first page of the file is in the scratch space. *)
Definition header_in (f m : Z -> Z) : Prop := forall x, SCRATCH <= x < SCRATCH + 4096 -> m x = f (x - SCRATCH).
Lemma header_word f m y a : header_in f m -> y = SCRATCH + a -> 0 <= a -> a + 4 <= 4096 -> le_val (map (fun i => m (y + i)) [0; 1; 2; 3]) = fword f a.
Proof. intros Hh -> Ha Hb. unfold fword. cbn [map]. rewrite !Hh by lia. repeat f_equal; lia. Qed.
Lemma fword_range f a : (forall k, is_byte (f k)) -> 0 <= fword f a < 2 ^ 32.
Proof.
  intros Hf. unfold fword. pose proof (le_val_range (map (fun i => f (a + i)) [0; 1; 2; 3])) as H. cbn [map length] in H. apply H. repeat constructor; apply Hf.
Qed.

Lemma kbyte_ok c k : ctl_idle c -> is_byte (kbyte c k).
Proof.
  intros Hi. unfold kbyte. destruct (sectors_ok c 0 (k / SECTSIZE + 1) Hi) as [Hl Hb]. rewrite Forall_forall in Hb.
  rewrite nth_lookup. destruct (sectors c 0 (k / SECTSIZE + 1) !! Z.to_nat (k mod SECTSIZE)) as [b|] eqn:E; [|unfold is_byte; simpl; lia].
  simpl. apply Hb. by eapply list_elem_of_lookup_2.
Qed.

Lemma wp_load_loop n : forall fuel s h lo, let f := kbyte (dsk s) in
  ctl_idle (dsk s) -> header_in f (mem s) -> (n <= fuel)%nat -> 0 <= h -> h + Z.of_nat n * SIZEOF_PROGHDR <= 4096 ->
  SCRATCH + 4096 <= lo -> segs_ok f lo h n ->
  wp (load_loop fuel (SCRATCH + h) (SCRATCH + h + Z.of_nat n * SIZEOF_PROGHDR)) (fun _ s' => same_disk s s' /\
    (forall x, x < lo -> mem s' x = mem s x) /\ in_place f (mem s') h n) s.
Proof using boot_read.
  unfold SIZEOF_PROGHDR. induction n as [|n IH]; intros fuel s h lo; set (f := kbyte (dsk s)); intros Hi Hh Hfu H0 Hn Hlo Hseg.
  { destruct fuel; cbn [load_loop]; (rewrite (proj2 (Z.ltb_ge _ _)) by lia); apply wp_ret; split_and!; try done. }
  destruct fuel as [|fuel]; [lia|]. cbn [load_loop]. rewrite (proj2 (Z.ltb_lt _ _)) by lia. cbn [segs_ok] in Hseg.
  destruct Hseg as (S1 & S2 & S3 & Hrest). unfold SIZEOF_PROGHDR in Hrest.
  assert (forall a, 0 <= fword f a < 2 ^ 32) as Hr by (intros a; apply fword_range; intros k; by apply kbyte_ok).
  pose proof (Hr (h + 12)) as R1. pose proof (Hr (h + 16)) as R2. pose proof (Hr (h + 4)) as R3. pose proof (Hr (h + 20)) as R4.
  apply wp_bind, wp_gets. rewrite (header_word f (mem s) _ (h + 12)) by (done || lia).
  apply wp_bind, wp_gets. rewrite (header_word f (mem s) _ (h + 16)) by (done || lia).
  apply wp_bind, wp_gets. rewrite (header_word f (mem s) _ (h + 4)) by (done || lia).
  fold (s_pa f h) (s_filesz f h) (s_off f h) in *. fold (s_memsz f h) in *.
  set (pa := s_pa f h) in *. set (fs := s_filesz f h) in *. set (off := s_off f h) in *. set (ms := s_memsz f h) in *.
  assert (0 <= off mod SECTSIZE < 512) as Hb by (unfold SECTSIZE; zlia). unfold SECTSIZE in S3.
  apply wp_bind. eapply wp_mono; [apply (wp_readseg s pa fs off); try done; unfold SCRATCH, SECTSIZE in *; lia|]. intros [] s1 ((Hi1 & Hd1) & M1 & M2).
  unfold SECTSIZE in M2. assert (header_in f (mem s1)) as Hh1 by (intros x Hx; rewrite M2 by (unfold SECTSIZE in *; lia); by apply Hh).
  apply wp_bind, wp_gets. rewrite (header_word f (mem s1) _ (h + 20)) by (done || lia).
  apply wp_bind, wp_gets. rewrite (header_word f (mem s1) _ (h + 16)) by (done || lia). fold (s_filesz f h) (s_memsz f h). fold fs ms.
  set (s2 := mkBoot (fill (pa + fs) (replicate (Z.to_nat (ms - fs)) 0) (mem s1)) (dsk s1)).
  assert (forall x, mem s2 x = if decide (pa + fs <= x < pa + ms) then 0 else mem s1 x) as M3.
  { intros x. unfold s2, fill. simpl. rewrite length_replicate. case_decide as Hx.
    - rewrite (proj2 (Z.leb_le _ _)), (proj2 (Z.ltb_lt _ _)) by lia. cbn [andb]. rewrite nth_lookup.
      destruct (replicate _ 0 !! _) eqn:E; [|done]. by apply lookup_replicate in E as [-> _].
    - replace ((pa + fs <=? x) && (x <? pa + fs + Z.of_nat (Z.to_nat (ms - fs)))) with false; [done|].
      symmetry. apply andb_false_iff. destruct (Z.leb_spec (pa + fs) x); [right; apply Z.ltb_ge; lia|by left]. }
  apply wp_bind. apply (wp_mono _ (fun _ t => dsk t = dsk s2 /\ forall x, mem t x = mem s2 x)).
  { destruct (Z.gtb_spec ms fs) as [Hgt|Hle].
    - rewrite u32_small by lia. by apply wp_modify.
    - apply wp_ret. split; [done|]. intros x. rewrite M3, decide_False by lia. done. }
  intros [] t [Ed Em]. unfold SIZEOF_PROGHDR. rewrite u32_small by (unfold SCRATCH; lia).
  replace (SCRATCH + h + 32) with (SCRATCH + (h + 32)) by lia.
  replace (SCRATCH + h + Z.of_nat (S n) * 32) with (SCRATCH + (h + 32) + Z.of_nat n * 32) by lia.
  assert (kbyte (dsk t) = f) as Ef by (unfold f, kbyte; rewrite Ed; simpl; by rewrite Hd1).
  assert (forall x, x < lo -> mem t x = mem s x) as Hlow.
  { intros x Hx. rewrite Em, M3, decide_False by (unfold SECTSIZE in *; lia). apply M2. unfold SECTSIZE in *. lia. }
  eapply wp_mono; [apply (IH fuel t (h + 32) (pa + ms)); rewrite ?Ef; try done; try lia|].
  - by rewrite Ed.
  - intros x Hx. rewrite Hlow by lia. by apply Hh.
  - rewrite Ef. intros [] s' ((Hi' & Hd') & Hm' & Hp'). split; [split; [done|rewrite Hd', Ed; exact Hd1]|]. split.
    + intros x Hx. rewrite Hm' by (unfold SECTSIZE in *; lia). by apply Hlow.
    + cbn [in_place]. split; [|done]. fold pa ms fs off. intros x Hx. rewrite Hm', Em, M3 by lia. case_decide as H1.
      * rewrite decide_False by lia. done.
      * rewrite decide_True by lia. by apply M1; lia.
Qed.

(** The rounding is why segments need the distance: the bytes just below [pa], as many as lie in front
    of the segment in its first sector, are overwritten with what the file has there. *)
Lemma readseg_clobbers s pa count off x : ctl_idle (dsk s) -> 0 <= off -> 0 < count -> off mod SECTSIZE <= pa -> pa + count + SECTSIZE < 2 ^ 32 ->
  off + count + 2 * SECTSIZE <= 2 ^ 28 * SECTSIZE -> pa - off mod SECTSIZE <= x < pa ->
  wp (readseg pa count off) (fun _ s' => mem s' x = kbyte (dsk s) (off - (pa - x))) s.
Proof using boot_read.
  intros Hi Ho Hc Hpa Htop Hoff Hx. unfold SECTSIZE in *. pose proof (Z.mod_pos_bound off 512 ltac:(lia)) as Hb.
  pose proof (wp_readseg s (pa - off mod 512) (count + off mod 512) (512 * (off / 512)) Hi) as H. unfold SECTSIZE in H.
  assert ((512 * (off / 512)) mod 512 = 0) as E0 by (rewrite Z.mul_comm; by apply Z.mod_mul).
  assert (readseg pa count off = readseg (pa - off mod 512) (count + off mod 512) (512 * (off / 512))) as ->.
  { unfold readseg, SECTSIZE. rewrite E0, (Z.mul_comm 512 (off / 512)), Z.div_mul by done. rewrite (Z.sub_0_r (pa - off mod 512)).
    by replace (pa - off mod 512 + (count + off mod 512)) with (pa + count) by lia. }
  eapply wp_mono; [apply H; zlia|]. intros u s' (_ & M & _). rewrite M by lia. f_equal. zlia.
Qed.

(** C33. The boot loader loads the kernel.  When the file on the disk is an ELF program whose headers are in its first
    page and whose segments lie above the scratch space, one behind the other (with the bytes
    in front of each in its first sector), [bootmain] jumps to the entry point of the file with every segment in its place,
    followed by zeroes up to its size in memory, although every read is rounded to sectors; a file
    that is no ELF program is not started.  The segments need not be aligned to sectors, although the file Notes says that
    bootmain.c does not work right otherwise: [readseg] rounds the address down together with the offset.  What it cannot do is
    to load a segment so close behind another one that the rounding reaches into that one ([readseg_clobbers]). *)
Theorem bootmain_loads s : let f := kbyte (dsk s) in let phoff := fword f 28 in let phnum := f 44 + 256 * f 45 in
  ctl_idle (dsk s) -> phoff + phnum * SIZEOF_PROGHDR <= 4096 -> segs_ok f (SCRATCH + 4096 + SECTSIZE) phoff (Z.to_nat phnum) ->
  wp bootmain (fun r s' => if decide (fword f 0 = ELF_MAGIC)
    then r = Some (fword f 24) /\ in_place f (mem s') phoff (Z.to_nat phnum) else r = None) s.
Proof using boot_read.
  intros f phoff phnum Hi Hph Hseg. assert (forall k, is_byte (f k)) as Hf by (intros k; by apply kbyte_ok).
  pose proof (fword_range f 28 Hf) as R1. fold phoff in R1. assert (0 <= phnum < 2 ^ 16) as R2.
  { unfold phnum. pose proof (Hf 44). pose proof (Hf 45). unfold is_byte in *. lia. }
  unfold bootmain. apply wp_bind. eapply wp_mono; [apply (wp_readseg s SCRATCH 4096 0); try done; unfold SCRATCH, SECTSIZE; lia|].
  intros [] s1 ((Hi1 & Hd1) & M1 & _). assert (kbyte (dsk s1) = f) as Ef by (unfold f, kbyte; by rewrite Hd1).
  assert (header_in f (mem s1)) as Hh by (intros x Hx; by rewrite M1 by done).
  apply wp_bind, wp_gets. rewrite (header_word f (mem s1) _ 0) by (done || lia). destruct (Z.eqb_spec (fword f 0) ELF_MAGIC) as [Em|Em]; cbn [negb].
  2: { apply wp_ret. by rewrite decide_False. }
  apply wp_bind, wp_gets. rewrite (header_word f (mem s1) _ 28) by (done || lia). fold phoff.
  apply wp_bind, wp_gets. assert (le_val (map (fun i => mem s1 (SCRATCH + 44 + i)) [0; 1]) = phnum) as ->.
  { cbn [map le_val]. rewrite !Hh by lia. unfold phnum. change (SCRATCH + 44 + 0 - SCRATCH) with 44. change (SCRATCH + 44 + 1 - SCRATCH) with 45. lia. }
  unfold SIZEOF_PROGHDR in Hph. rewrite (u32_small (SCRATCH + phoff)) by (unfold SCRATCH; lia).
  rewrite u32_small by (unfold SCRATCH, SIZEOF_PROGHDR; lia). rewrite <- (Z2Nat.id phnum) at 1 by lia.
  apply wp_bind. eapply wp_mono; [apply (wp_load_loop (Z.to_nat phnum) _ s1 phoff (SCRATCH + 4096 + SECTSIZE)); rewrite ?Ef; try done|].
  - apply Nat2Z.inj_le. rewrite !Z2Nat.id by lia. lia.
  - lia.
  - rewrite Z2Nat.id by lia. unfold SIZEOF_PROGHDR. lia.
  - rewrite Ef. intros [] s2 (_ & Hlow & Hp). apply wp_bind, wp_gets. apply wp_ret. rewrite decide_True by done. split; [|done].
    f_equal. apply header_word; [|done|lia|lia]. intros x Hx. rewrite Hlow by (unfold SECTSIZE; lia). by apply Hh.
Qed.
End Boot.

(** ** A controller, and a kernel of one segment on its disk *)

Module Toy.
Inductive mode := Idle | Ready | Reading | Data.
Record toy := mkToy { r0 : Z; r1 : Z; r2 : Z; rdh : Z; md : mode; late : nat; disk : Z -> Z -> list Z }.
(** A read keeps the controller busy for three polls. *)
Definition t_outb (port v : Z) (c : toy) : toy :=
  if port =? 0x1f3 then mkToy v (r1 c) (r2 c) (rdh c) (md c) (late c) (disk c)
  else if port =? 0x1f4 then mkToy (r0 c) v (r2 c) (rdh c) (md c) (late c) (disk c)
  else if port =? 0x1f5 then mkToy (r0 c) (r1 c) v (rdh c) (md c) (late c) (disk c)
  else if port =? 0x1f6 then mkToy (r0 c) (r1 c) (r2 c) v (md c) (late c) (disk c)
  else if port =? 0x1f7 then mkToy (r0 c) (r1 c) (r2 c) (rdh c) (if v =? IDE_CMD_READ then Reading else md c) 3 (disk c)
  else c.
Definition t_inb (port : Z) (c : toy) : Z * toy :=
  match late c with
  | S k => (IDE_BSY, mkToy (r0 c) (r1 c) (r2 c) (rdh c) (md c) k (disk c))
  | O => (IDE_DRDY, mkToy (r0 c) (r1 c) (r2 c) (rdh c) (match md c with Idle => Ready | Reading => Data | m => m end) 0 (disk c))
  end.
Definition sel_drive (c : toy) : Z := drive (rdh c).
Definition sel_lba (c : toy) : Z := lba (r0 c) (r1 c) (r2 c) (rdh c).
(** Data that is not there yet reads as ones. *)
Definition t_insl (port cnt : Z) (c : toy) : list Z * toy :=
  (match md c with Data => disk c (sel_drive c) (sel_lba c) | _ => replicate 512 255 end, mkToy (r0 c) (r1 c) (r2 c) (rdh c) Idle 1 (disk c)).
Definition t_outsl (port : Z) (x : list Z) (c : toy) : toy :=
  mkToy (r0 c) (r1 c) (r2 c) (rdh c) Idle 5 (upd_blk (disk c) (sel_drive c) (sel_lba c) x).
Definition disk_ok (c : toy) : Prop := forall d n, blk_ok (disk c d n).

#[local] Program Instance toy_controller : IdeController toy := {|
  inb := t_inb; outb := t_outb; outsl := t_outsl; insl := t_insl; sectors := disk;
  ctl_idle := fun c => md c = Idle /\ (late c <= 5)%nat /\ disk_ok c;
  ctl_ready := fun c => md c = Ready /\ disk_ok c;
  ctl_reading := fun c d n => md c = Reading /\ (late c <= 5)%nat /\ disk_ok c /\ sel_drive c = d /\ sel_lba c = n;
  ctl_data := fun c d n => md c = Data /\ disk_ok c /\ sel_drive c = d /\ sel_lba c = n;
  ctl_polls := fun c => Nat.min 999 (late c) |}.
Next Obligation. intros c. unfold IDE_POLLS. lia. Qed.
Next Obligation. by intros c d n (_ & _ & H). Qed.
Next Obligation.
  intros c (Hm & Hl & Hd). unfold t_inb. destruct (late c) as [|k] eqn:El; (split; [done|]); [left|right]; cbn -[Nat.min]; rewrite ?Hm, ?El; split_and!; (done || lia).
Qed.
Next Obligation.
  intros c d n (Hm & Hl & Hd & E1 & E2). unfold t_inb. destruct (late c) as [|k] eqn:El; (split; [done|]); [left|right]; cbn -[Nat.min]; rewrite ?Hm, ?El; split_and!; (done || lia).
Qed.
Next Obligation.
  intros c l0 l1 l2 dh x [_ Hd] _ _ _ _ Hx. split; [split; [done|split; [simpl; lia|]]|done]. intros d n. simpl. unfold upd_blk. by case_match.
Qed.
Next Obligation. intros c l0 l1 l2 dh [_ Hd] _ _ _ _. split_and!; try done. simpl. lia. Qed.
Next Obligation. intros c d n (Hm & Hd & E1 & E2). simpl. rewrite Hm, E1, E2. split_and!; try done. lia. Qed.

Definition pad_to (l : list Z) : list Z := take 512 (l ++ replicate 512 0).
Definition kernel_sector (n : Z) : list Z :=
  if n =? 1 then pad_to ([127; 69; 76; 70] ++ replicate 20 0 ++ words [0x10000C; 52] ++ replicate 12 0 ++ [1; 0] ++ replicate 6 0 ++
    words [1; 512; 0x80100000; 0x100000; 4; 8; 7; 4096])
  else if n =? 2 then pad_to [0x90; 0x90; 0xEB; 0xFE] else replicate 512 0.
Lemma kernel_sector_ok n : blk_ok (kernel_sector n).
Proof.
  assert (forall l : list Z, length l = 512%nat -> forallb (fun x => (0 <=? x) && (x <? 256)) l = true -> blk_ok l) as H.
  { intros l Hl Hb. split; [done|by apply bytes_ok_check]. }
  unfold kernel_sector. destruct (n =? 1); [apply H; vm_compute; reflexivity|]. destruct (n =? 2); apply H; vm_compute; reflexivity.
Qed.
Definition kernel_disk : toy := mkToy 0 0 0 0 Idle 2 (fun _ n => kernel_sector n).

Lemma toy_boot_read c l0 l1 l2 dh :
  ctl_ready c -> is_byte l0 -> is_byte l1 -> is_byte l2 -> is_byte dh ->
  let c' := outb 0x1f7 IDE_CMD_READ (outb 0x1f6 dh (outb 0x1f5 l2 (outb 0x1f4 l1 (outb 0x1f3 l0 (outb 0x1f2 1 c))))) in
  ctl_reading c' (drive dh) (lba l0 l1 l2 dh) /\ sectors c' = sectors c.
Proof. intros [_ Hd] _ _ _ _. split; [|done]. split; [done|]. split; [cbn; lia|]. done. Qed.

Lemma bootmain_loads_witness : exists s s', dsk s = kernel_disk /\ bootmain s = Done (Some 0x10000C) s' /\
  mem s' 0x100002 = 0xEB /\ mem s' 0x100005 = 0.
Proof.
  set (s := mkBoot (fun _ => 0) kernel_disk). assert (dsk s = kernel_disk) as Es by done. set (f := kbyte (dsk s)).
  assert (fword f 0 = ELF_MAGIC /\ fword f 24 = 0x10000C /\ fword f 28 = 52 /\ f 44 + 256 * f 45 = 1 /\ f 514 = 0xEB) as (E1 & E2 & E3 & E4 & E5) by (vm_compute; done).
  assert (s_off f 52 = 512 /\ s_pa f 52 = 0x100000 /\ s_filesz f 52 = 4 /\ s_memsz f 52 = 8) as (F1 & F2 & F3 & F4) by (vm_compute; done).
  assert (ctl_idle (dsk s)) as Hi by (split; [done|]; split; [simpl; lia|]; intros d n; apply kernel_sector_ok).
  pose proof (bootmain_loads toy_boot_read s Hi) as H. fold f in H. clearbody f s. cbv zeta in H. rewrite E1, E2, E3, E4 in H.
  assert (segs_ok f (SCRATCH + 4096 + SECTSIZE) 52 (Z.to_nat 1)) as Hseg.
  { change (Z.to_nat 1) with 1%nat. cbn [segs_ok]. rewrite F1, F2, F3, F4. unfold SCRATCH, SECTSIZE. split_and!; [zlia|lia|lia|done]. }
  destruct (proj1 (wp_inv _ _ _) (H ltac:(unfold SIZEOF_PROGHDR; lia) Hseg)) as (r & s' & E & Hp).
  rewrite decide_True in Hp by done. destruct Hp as (-> & Hp & _). exists s, s'. split; [done|]. split; [done|]. rewrite F1, F2, F3, F4 in Hp.
  split; rewrite Hp by lia; [rewrite decide_True by lia; exact E5|by rewrite decide_False].
Defined.
End Toy.
