(* ===== verification/ExecMem.v ===== *)
(** * The address space that [exec] builds

    The steps by which [exec] makes a new image - a directory with the kernel part, zeroed pages,
    bytes of the program, a guard page - as steps on a description of the memory so far.  [s0] and [l0] are the
    memory and the free pages before the call: the new image takes its pages from [l0] and changes no other. *)

From S2P Require Import Prelude Kalloc Vm Uvm UvmGrow Kvm UvmCopy UvmWrite.

(** Zeroes in the pages that growing from [lo] to [hi] adds. *)
Definition extend (U : Z -> option Z) (lo hi : Z) : Z -> option Z :=
  fun x => if decide (within (PGROUNDUP lo) hi x) then Some 0 else U x.

Lemma pages_mono a b : 0 <= a <= b -> (pages_upto a <= pages_upto b)%nat.
Proof. intros Hab. unfold pages_upto. assert ((a + PGSIZE - 1) / PGSIZE <= (b + PGSIZE - 1) / PGSIZE) by (apply Z.div_le_mono; unfold PGSIZE; lia). lia. Qed.

Section Image.
Variables kend kdata : Z.
Context (s0 : kst) (l0 : list Z).

(** An image of [sz] bytes with the contents [U]; [acc] says which addresses the user may use. *)
Record child (d sz : Z) (U : Z -> option Z) (acc : Z -> bool) (l : list Z) (s : kst) : Prop := {
  ch_space : space kend s d l;
  ch_in : forall x, user x -> within 0 sz x -> frame_at (pages s) d x <> None /\ uaccess (pages s) d x = acc x;
  ch_out : forall x, user x -> ~ within 0 sz x -> frame_at (pages s) d x = None;
  ch_mem : forall x, user x -> umem (pages s) d x = U x;
  ch_ker : forall x, KERNBASE <= x < 2 ^ 32 -> pte_at (pages s) d x = kernel_pte kdata x;
  ch_own : forall v, own (pages s) d v \/ v ∈ l <-> v ∈ l0;
  ch_kept : forall v, (v ∉ l0) -> pages s !! v = pages s0 !! v;
  ch_len : (length l0 <= length l + 65 + 2 * pages_upto sz)%nat
}.

Section Start.
Hypotheses (Hdata : kdata mod PGSIZE = 0) (Hdr : KERNLINK < kdata < KERNBASE + PHYSTOP).
Lemma child_start : free_rep kend s0 l0 -> (65 <= length l0)%nat ->
  wp (setupkvm kdata) (fun d s => d <> 0 /\ exists l, child d 0 (fun _ => None) (fun _ => true) l s) s0.
Proof using Hdata Hdr.
  intros Hf Hlen. eapply wp_mono; [by apply (wp_setupkvm kend kdata Hdata Hdr s0 l0)|]. intros d s [Hk H1].
  rewrite decide_True in H1 by done. destruct H1 as (ts & l & El & Hts & Hs & Ho & _ & Hz & Hker).
  assert (forall x, user x -> frame_at (pages s) d x = None) as Hn by (intros x Hx; unfold frame_at; by rewrite Hz).
  split; [eapply page_aligned_nonzero, (sp_dir _ _ _ _ Hs)|]. exists l. split; try done.
  - intros x Hx [_ H2]. unfold PGSIZE, user in *. zlia.
  - intros x Hx _. by apply Hn.
  - intros x Hx. unfold umem, upage. by rewrite Hn.
  - intros v. rewrite Ho, El, elem_of_cons, elem_of_app. clear. tauto.
  - rewrite El. simpl. rewrite length_app. lia.
Qed.

End Start.

Lemma need_le m d a n : 0 <= a -> a mod PGSIZE = 0 -> a + Z.of_nat n * PGSIZE <= KERNBASE -> (need m d a n <= 2 * n)%nat.
Proof.
  intros Ha Hal Hn. destruct n as [|n]; [done|]. unfold need.
  assert (forall i k, lacking m d i k <= Z.to_nat k)%nat as Hl.
  { intros i k. unfold lacking. etrans; [apply length_filter|]. by rewrite length_seqZ. }
  etrans; [apply Nat.add_le_mono_l, Hl|]. unfold KERNBASE in *. rewrite !PDX_div by (unfold PGSIZE in *; lia).
  unfold PGSIZE in *. change (2 ^ 22) with 4194304. zlia.
Qed.

Lemma within_grow sz newsz x : 0 <= sz <= newsz -> newsz < KERNBASE -> user x ->
  (within 0 newsz x <-> within 0 sz x \/ within (PGROUNDUP sz) newsz x) /\ ~ (within 0 sz x /\ within (PGROUNDUP sz) newsz x).
Proof.
  intros Hs Hn Hx. destruct (round_up sz) as [H1 H2]; [lia|unfold KERNBASE, PGSIZE in *; lia|].
  set (r := PGROUNDUP sz) in *. unfold within, user, PGSIZE in *. split; [split|]; zlia.
Qed.

Lemma pages_grow sz newsz : 0 <= sz <= newsz -> newsz < KERNBASE ->
  (pages_upto newsz = pages_upto sz + new_pages sz newsz)%nat /\ PGROUNDUP sz + Z.of_nat (new_pages sz newsz) * PGSIZE <= KERNBASE.
Proof.
  intros Hs Hn. destruct (round_up sz) as [H1 H2]; [lia|unfold KERNBASE, PGSIZE in *; lia|].
  unfold new_pages, pages_upto. set (r := PGROUNDUP sz) in *. unfold KERNBASE, PGSIZE in *.
  assert (0 <= (newsz - r + 4096 - 1) / 4096) by zlia. assert (0 <= (sz + 4096 - 1) / 4096) by zlia. split.
  - apply Nat2Z.inj. rewrite Nat2Z.inj_add, !Z2Nat.id by zlia. zlia.
  - rewrite Z2Nat.id by done. zlia.
Qed.

Hypothesis Hkend : KERNBASE < kend.

(** Growing by zeroed pages. *)
Lemma child_grow d sz newsz U acc l s : child d sz U acc l s -> 0 <= sz <= newsz -> newsz < KERNBASE ->
  (forall x, acc x = true) -> (65 + 2 * pages_upto newsz <= length l0)%nat ->
  wp (allocuvm kend d sz newsz) (fun r s' => r = newsz /\ exists l', child d newsz (extend U sz newsz) acc l' s') s.
Proof using Hkend.
  intros [C1 C2 C3 C4 C5 C6 C7 C8] Hsz Hnew Hacc Hlen. pose proof (pages_grow sz newsz Hsz Hnew) as [Ep Hpg].
  destruct (round_up sz) as [Hr1 Hr2]; [lia|unfold KERNBASE, PGSIZE in *; lia|].
  assert (forall x, user x -> within (PGROUNDUP sz) newsz x -> frame_at (pages s) d x = None) as Hnone.
  { intros x Hx Hw. apply C3; [done|]. destruct (within_grow sz newsz x) as [_ H]; [done..|]. clear - H Hw. tauto. }
  eapply wp_mono; [by apply (wp_allocuvm kend Hkend s d l sz newsz)|]. cbv zeta.
  pose proof (need_le (pages s) d (PGROUNDUP sz) (new_pages sz newsz) ltac:(lia) Hr1 Hpg) as Hneed.
  intros r s' [(-> & l' & Hz & El)|[Hlt _]]; [|lia]. split; [done|]. exists l'. pose proof Hz as [Z1 Z2 Z3 Z4 Z5 Z6 Z7 Z8 Z9].
  assert (forall x, user x -> within (PGROUNDUP sz) newsz x -> umem (pages s') d x = Some 0 /\ uaccess (pages s') d x = true) as Hnew'.
  { intros x Hx Hw. destruct (Z2 x Hx Hw) as (p & Hup & -> & Hfl). split.
    - unfold umem. rewrite Hup. simpl. unfold page_of. apply lookup_replicate_2. unfold PGSIZE. zlia.
    - unfold uaccess. pose proof (pte_range (pages s') d x (space_mem _ _ _ _ Z1)) as Hpr.
      assert (Z.land (pte_at (pages s') d x) PTE_U = Z.land (PTE_FLAGS (pte_at (pages s') d x)) PTE_U) as E.
      { unfold PTE_FLAGS. rewrite u32_small by lia. by rewrite <- Z.land_assoc. }
      unfold has. by rewrite E, Hfl. }
  assert (forall x, user x -> ~ within (PGROUNDUP sz) newsz x -> frame_at (pages s') d x = frame_at (pages s) d x /\
    umem (pages s') d x = umem (pages s) d x /\ uaccess (pages s') d x = uaccess (pages s) d x) as Hold.
  { intros x Hx Hw. destruct (rz_old kend zeroed s d l _ _ _ _ _ x C1 Hz Hx Hw) as [E1 E2]. split; [done|]. split.
    - unfold umem. by rewrite E2.
    - unfold uaccess. by rewrite Z3 by (done || by apply user_word). }
  split; try done.
  - intros x Hx Hw. destruct (within_grow sz newsz x) as [Hg _]; [done..|]. destruct (decide (within (PGROUNDUP sz) newsz x)) as [Hw'|Hw'].
    + destruct (rz_frame _ _ _ _ _ _ _ _ _ _ x Hz Hx Hw') as [f ->]. split; [done|]. rewrite Hacc. by apply Hnew'.
    + destruct (Hold x Hx Hw') as (-> & _ & ->). apply C2; [done|]. clear - Hg Hw Hw'. tauto.
  - intros x Hx Hw. destruct (within_grow sz newsz x) as [Hg _]; [done..|]. destruct (Hold x Hx) as (-> & _); [clear - Hg Hw; tauto|].
    apply C3; [done|]. clear - Hg Hw. tauto.
  - intros x Hx. unfold extend. case_decide as Hw; [by apply Hnew'|]. destruct (Hold x Hx Hw) as (_ & -> & _). by apply C4.
  - intros x Hx. rewrite Z3; [by apply C5|unfold KERNBASE in *; lia|]. unfold within, KERNBASE, PGSIZE in *. zlia.
  - intros v. rewrite <- C6. specialize (Z7 v). rewrite elem_of_nil in Z7. clear - Z7. tauto.
  - intros v Hv. rewrite Z9; [by apply C7| | |].
    + intros Hl. apply Hv, C6. by right.
    + intros ->. apply Hv, C6. left. apply own_dir.
    + intros i Hi E. apply Hv, C6. left. by eapply own_table.
  - lia.
Qed.

(** Growing to less than there is does nothing. *)
Lemma alloc_less d sz newsz s : newsz < sz -> sz <= KERNBASE -> allocuvm kend d sz newsz s = Done sz s.
Proof.
  intros Hlt Hk. unfold allocuvm. destruct (Z.geb_spec newsz KERNBASE); [lia|]. by rewrite (proj2 (Z.ltb_lt _ _) Hlt).
Qed.

Lemma child_write d sz U U' acc l s s' : child d sz U acc l s -> written kend s d l U' s' -> child d sz U' acc l s'.
Proof.
  intros [C1 C2 C3 C4 C5 C6 C7 C8] W. pose proof W as [W1 W2 W3 W4 W5].
  assert (forall x, frame_at (pages s') d x = frame_at (pages s) d x) as Ef by (intros x; by apply frame_same).
  split; try done.
  - intros x Hx Hw. rewrite Ef. unfold uaccess. rewrite W4. by apply C2.
  - intros x Hx Hw. rewrite Ef. by apply C3.
  - intros x Hx. rewrite W4. by apply C5.
  - intros v. rewrite (wr_own kend s d l U' s' v W). apply C6.
  - intros v Hv. rewrite W5; [by apply C7|]. intros x Hx E. apply Hv, C6. left. by eapply own_frame.
Qed.

Lemma child_ext d sz U U' acc l s : (forall x, user x -> U' x = U x) -> child d sz U acc l s -> child d sz U' acc l s.
Proof. intros E [C1 C2 C3 C4 C5 C6 C7 C8]. split; try done. intros x Hx. by rewrite C4, E. Qed.

Lemma child_guard d sz U acc l s a s' : user a -> child d sz U acc l s -> guarded kend s d l a s' ->
  child d sz U (fun x => negb (x / PGSIZE =? a / PGSIZE) && acc x) l s'.
Proof.
  intros Ha [C1 C2 C3 C4 C5 C6 C7 C8] [G1 G2 G3 G4 G5 G6 G7]. split; try done.
  - intros x Hx Hw. rewrite G2 by done. split; [by apply C2|]. destruct (Z.eqb_spec (x / PGSIZE) (a / PGSIZE)) as [E|E]; simpl.
    + unfold uaccess in *. by rewrite (pte_page _ _ x a) by (done || by apply user_word).
    + unfold uaccess. rewrite G4 by (done || by apply user_word). by apply C2.
  - intros x Hx Hw. rewrite G2 by done. by apply C3.
  - intros x Hx. rewrite G3 by done. by apply C4.
  - intros x Hx. rewrite G4; [by apply C5|unfold KERNBASE in *; lia|]. unfold user, KERNBASE, PGSIZE in *. zlia.
  - intros v. rewrite G6. apply C6.
  - intros v Hv. rewrite G7; [by apply C7| |]; intros H; apply Hv, C6; [by right|by left].
Qed.

(** Dropping the image gives all its pages back. *)
Lemma child_free d sz U acc l s : child d sz U acc l s ->
  wp (freevm kend d) (fun _ s' => exists l', free_rep kend s' l' /\ (forall v, v ∈ l' <-> v ∈ l0) /\
    forall v, (v ∉ l0) -> pages s' !! v = pages s0 !! v) s.
Proof using Hkend.
  intros [C1 C2 C3 C4 C5 C6 C7 C8]. eapply wp_mono; [by apply (wp_freevm kend Hkend s d l)|]. intros [] s' (l' & H1 & H2 & H3).
  exists l'. split_and!; [done| |].
  - intros v. rewrite H2, <- C6. clear. tauto.
  - intros v Hv. rewrite H3; [by apply C7|]. split; intros H; apply Hv, C6; [by right|by left].
Qed.
End Image.
