(* ===== verification/ExecLoad.v ===== *)
(** * Program loading: the specification, and the segments of a program

    The specification takes the bytes of a file and the argument strings and says what the
    memory of the process is afterwards, or that the file is refused.  [room] is a size up to which there is memory for
    an image.  [load_segments] builds the memory that the specification describes. *)

From S2P Require Import Prelude Kalloc Vm Uvm UvmGrow Kvm UvmCopy UvmWrite Proc Syscall Exec ExecMem.

(** ** The specification *)

(** What reading [n] bytes at [off] of a file with the contents [c] delivers. *)
Definition read_of (c : list Z) (off n : Z) : Z * list Z :=
  let size := Z.of_nat (length c) in
  if (off <=? size) && (off + n <? 2 ^ 32) then (Z.min n (size - off), bslice (Z.to_nat off) (Z.to_nat n) c) else (-1, []).

Inductive loaded := Loaded (sz : Z) (U : Z -> option Z) | NotLoaded | Overruns.
(** The [n] program headers at [off].  A segment whose end wraps around or is beyond [room], or whose start is not the start
    of a page, is outside the specification. *)
Fixpoint spec_segments (room : Z) (c : list Z) (n : nat) (off sz : Z) (U : Z -> option Z) : loaded :=
  match n with
  | O => Loaded sz U
  | S n' =>
      if Z.of_nat (length c) <? off + SIZEOF_PROGHDR then NotLoaded else
      let ph := proghdr_of (bslice (Z.to_nat off) (Z.to_nat SIZEOF_PROGHDR) c) in
      if negb (ph_type ph =? ELF_PROG_LOAD) then spec_segments room c n' (off + SIZEOF_PROGHDR) sz U else
      if ph_memsz ph <? ph_filesz ph then NotLoaded else
      let newsz := ph_vaddr ph + ph_memsz ph in
      if 2 ^ 32 <=? newsz then Overruns else
      if KERNBASE <=? newsz then NotLoaded else
      if room <? newsz then Overruns else
      if Z.max sz newsz =? 0 then NotLoaded else
      if negb (ph_vaddr ph mod PGSIZE =? 0) then Overruns else
      if negb (ph_filesz ph =? 0) && (Z.of_nat (length c) <? ph_off ph + ph_filesz ph) then NotLoaded else
      spec_segments room c n' (off + SIZEOF_PROGHDR) (Z.max sz newsz)
        (store (extend U sz newsz) (ph_vaddr ph) (bslice (Z.to_nat (ph_off ph)) (Z.to_nat (ph_filesz ph)) c))
  end.

(** The argument strings below [sp], none of them below [bottom]. *)
Fixpoint spec_args (bottom sp : Z) (argv : list (list Z)) (U : Z -> option Z) : option (Z * list Z * (Z -> option Z)) :=
  match argv with
  | [] => Some (sp, [], U)
  | a :: argv' =>
      let sp := (sp - (Z.of_nat (length a) + 1)) / 4 * 4 in
      if sp <? bottom then None else
      match spec_args bottom sp argv' (store U sp (a ++ [0])) with
      | Some (sp', ptrs, U') => Some (sp', sp :: ptrs, U')
      | None => None
      end
  end.

Inductive verdict := Runs (sz : Z) (U : Z -> option Z) (entry sp : Z) | Refused | Unsafe.
(** The stack is the second page above the program; the first is not accessible. *)
Definition spec_image (room : Z) (argv : list (list Z)) (entry sz : Z) (U : Z -> option Z) : verdict :=
  let base := PGROUNDUP sz in
  let top := base + 2 * PGSIZE in
  if KERNBASE <=? top then Refused else
  if room <? top then Unsafe else
  match spec_args (base + PGSIZE) top argv (extend U base top) with
  | None => Refused
  | Some (sp, ptrs, U') =>
      let sp' := sp - (3 + Z.of_nat (length ptrs) + 1) * 4 in
      if (MAXARG <? Z.of_nat (length ptrs)) || (sp' <? base + PGSIZE) then Refused
      else Runs top (store U' sp' (words (ustack sp ptrs))) entry sp'
  end.
Definition spec_exec (room : Z) (c : list Z) (argv : list (list Z)) : verdict :=
  let elf := elfhdr_of (take (Z.to_nat SIZEOF_ELFHDR) c) in
  if Z.of_nat (length c) <? SIZEOF_ELFHDR then Refused else
  if negb (eh_magic elf =? ELF_MAGIC) then Refused else
  match spec_segments room c (Z.to_nat (eh_phnum elf)) (eh_phoff elf) 0 (fun _ => None) with
  | NotLoaded => Refused
  | Overruns => Unsafe
  | Loaded sz U => spec_image room argv (eh_entry elf) sz U
  end.

(** ** The file *)

Section Exec.
Context {F : Type} `{HF : Files F} `{HI : Inodes F}.
Variables kend kdata : Z.
Variable junk : list Z.
Abbreviation pst := (pst (F := F)).

(** In the states [opened] the inode [ip] is locked, in a transaction, and has the contents [c]; when it is given up and
    the transaction ends, the state is [closed]. *)
Record serves (ip : Z) (c : list Z) (opened closed : F -> Prop) : Prop := {
  sv_ip : ip <> 0;
  sv_len : Z.of_nat (length c) < 2 ^ 31;
  sv_bytes : bytes_ok c;
  sv_read : forall f off n, opened f -> 0 <= off < 2 ^ 32 -> 0 <= n < 2 ^ 31 ->
    wp (x_readi ip off n) (fun rv f' => rv = read_of c off n /\ opened f') f;
  sv_close : forall f, opened f -> wp (x_iunlockput ip ;;; f_end_op) (fun _ f' => closed f') f
}.

(** A state with another memory and file layer, but the same processes. *)
Definition same_table (s s' : pst) : Prop := procs s' = procs s /\ nextpid s' = nextpid s /\ initproc s' = initproc s.
Lemma same_table_refl s : same_table s s.
Proof. done. Qed.
Lemma same_table_trans s s1 s2 : same_table s s1 -> same_table s1 s2 -> same_table s s2.
Proof. intros (A & B & C) (A' & B' & C'). split_and!; congruence. Qed.

Lemma wp_on_mem {A} (m : M kst A) (Q : A -> pst -> Prop) s : wp m (fun a k => Q a (with_mem k s)) (kmem s) -> wp (on_mem m) Q s.
Proof. apply wp_lift. Qed.
Lemma wp_on_fs {A} (m : M F A) (Q : A -> pst -> Prop) s : wp m (fun a f => Q a (with_fs f s)) (kfs s) -> wp (on_fs m) Q s.
Proof. apply wp_lift. Qed.

Lemma get32_app o w r : (o + 4 <= length w)%nat -> get32 o (w ++ r) = get32 o w.
Proof. intros Hl. unfold get32, bslice. rewrite drop_app_le by lia. by rewrite take_app_le by (rewrite length_drop; lia). Qed.
Lemma get16_app o w r : (o + 2 <= length w)%nat -> get16 o (w ++ r) = get16 o w.
Proof. intros Hl. unfold get16, bslice. rewrite drop_app_le by lia. by rewrite take_app_le by (rewrite length_drop; lia). Qed.

Lemma proghdr_junk w : length w = Z.to_nat SIZEOF_PROGHDR -> proghdr_of (bsplice 0 w junk) = proghdr_of w.
Proof. intros Hl. unfold proghdr_of, bsplice. simpl. unfold SIZEOF_PROGHDR in Hl. by rewrite !get32_app by lia. Qed.
Lemma elfhdr_junk w : length w = Z.to_nat SIZEOF_ELFHDR -> elfhdr_of (bsplice 0 w junk) = elfhdr_of w.
Proof. intros Hl. unfold elfhdr_of, bsplice. simpl. unfold SIZEOF_ELFHDR in Hl. by rewrite !get32_app, get16_app by lia. Qed.

(** The header fields are 32-bit words. *)
Lemma proghdr_range w : bytes_ok w -> let ph := proghdr_of w in
  0 <= ph_off ph < 2 ^ 32 /\ 0 <= ph_vaddr ph < 2 ^ 32 /\ 0 <= ph_filesz ph < 2 ^ 32 /\ 0 <= ph_memsz ph < 2 ^ 32.
Proof. intros Hb ph. split_and!; by apply get32_range. Qed.
(** ** Loading a segment *)

Section Load.
Context (s0 : kst) (l0 : list Z) (ip : Z) (c : list Z) (opened closed : F -> Prop).
Hypothesis Hsv : serves ip c opened closed.
Abbreviation child := (child kend kdata s0 l0).

Lemma read_small off n : 0 <= off -> 0 < n <= PGSIZE -> off < 2 ^ 32 ->
  exists r got, read_of c off n = (r, got) /\ Z.of_nat (length got) <= n /\ bytes_ok got /\
    (u32 r =? n) = bool_decide (off + n <= Z.of_nat (length c)) /\
    (off + n <= Z.of_nat (length c) -> got = bslice (Z.to_nat off) (Z.to_nat n) c).
Proof using Hsv.
  intros Ho Hn Hlt. pose proof (sv_len _ _ _ _ Hsv) as Hlen. pose proof (sv_bytes _ _ _ _ Hsv) as Hb. unfold PGSIZE in Hn.
  unfold read_of. destruct (Z.leb_spec off (Z.of_nat (length c))) as [Hle|Hgt]; simpl.
  - rewrite (proj2 (Z.ltb_lt _ _)) by lia. eexists _, _. split; [done|]. split_and!; [|by apply bytes_ok_slice| |done].
    + unfold bslice. rewrite length_take, length_drop. lia.
    + rewrite u32_small by lia. case_bool_decide; [apply Z.eqb_eq|apply Z.eqb_neq]; lia.
  - eexists _, _. split; [done|]. split_and!; [simpl; lia|done| |lia]. rewrite bool_decide_eq_false_2 by lia.
    apply Z.eqb_neq. change (u32 (-1)) with 0xffffffff. lia.
Qed.

Lemma wp_loaduvm_loop fuel s d sz U acc l addr off fsz i :
  child d sz U acc l (kmem s) -> opened (kfs s) -> addr mod PGSIZE = 0 -> i mod PGSIZE = 0 -> 0 <= addr -> 0 <= i -> 0 <= fsz ->
  addr + fsz <= sz -> sz < KERNBASE -> 0 <= off < 2 ^ 32 -> (i = 0 \/ off + i <= Z.of_nat (length c) \/ fsz <= i) ->
  fsz - i <= Z.of_nat fuel * PGSIZE ->
  wp (loaduvm_loop fuel d addr ip off fsz i) (fun r s' => same_table s s' /\ opened (kfs s') /\
    if decide (fsz <= i \/ off + fsz <= Z.of_nat (length c))
    then r = 0 /\ child d sz (store U (addr + i) (bslice (Z.to_nat (off + i)) (Z.to_nat (fsz - i)) c)) acc l (kmem s')
    else r = -1 /\ exists U', child d sz U' acc l (kmem s')) s.
Proof using Hsv.
  revert s U i. induction fuel as [|fuel IH]; intros s U i Hc Hop Hal Hi Ha0 Hi0 Hf0 Hsz Hk Ho Hpre Hfu; cbn [loaduvm_loop];
    (destruct (Z.ltb_spec i fsz) as [Hlt|Hge]; [|apply wp_ret; split; [apply same_table_refl|split; [done|]];
      rewrite decide_True by lia; split; [done|]; eapply child_ext; [|done]; intros x _;
      replace (Z.to_nat (fsz - i)) with 0%nat by lia; apply store_nil]); [lia|].
  pose proof (sv_len _ _ _ _ Hsv) as Hlen. unfold KERNBASE in Hk.
  rewrite (u32_small (addr + i)), (u32_small (off + i)), (u32_small (fsz - i)) by lia.
  set (n := if fsz - i <? PGSIZE then fsz - i else PGSIZE).
  assert (n = Z.min (fsz - i) PGSIZE) as En by (unfold n; destruct (Z.ltb_spec (fsz - i) PGSIZE); lia).
  assert (user (addr + i)) as Hu by (unfold user, KERNBASE; lia).
  assert ((addr + i) mod PGSIZE = 0) as Hai by (unfold PGSIZE in *; zlia).
  destruct (ch_in _ _ _ _ _ _ _ _ _ _ Hc (addr + i) Hu) as [Hfr _]; [unfold within, PGSIZE in *; zlia|].
  destruct (frame_at (pages (kmem s)) d (addr + i)) as [f|] eqn:Hf; [|done]. destruct (frame_present _ _ _ _ Hf) as [HP Hpf].
  pose proof (ch_space _ _ _ _ _ _ _ _ _ _ Hc) as Hs. pose proof (sp_vm _ _ _ _ Hs) as Hvm. pose proof Hvm as (_ & Hdir & _).
  apply wp_bind, wp_on_mem. eapply wp_mono; [by apply (wp_walk0 kend (kmem s) d (addr + i) l)|]. intros r k [-> Hr].
  destruct (table_at (pages (kmem s)) d (PDX (addr + i))) as [t|] eqn:Et; [|unfold pte_at in HP; by rewrite Et in HP].
  destruct Hr as [-> Hr]. rewrite (proj2 (Z.eqb_neq _ _) Hr). destruct (do_tab _ _ _ Hdir _ _ (PDX_range (addr + i)) Et) as (T1 & T2 & T3 & _).
  apply wp_bind, wp_on_mem, wp_ldw; try done; [apply PTX_range|by eapply table_at_nonneg|].
  cbn [kmem with_mem]. replace (word (pages (kmem s)) t (PTX (addr + i))) with (pte_at (pages (kmem s)) d (addr + i)) by (unfold pte_at; by rewrite Et).
  rewrite Hpf. apply wp_bind, wp_on_fs. eapply wp_mono; [apply (sv_read _ _ _ _ Hsv); [done|lia|unfold PGSIZE in *; lia]|].
  intros rv f' [-> Hop']. destruct (read_small (off + i) n) as (r & got & -> & Hgl & Hgb & Hrn & Hgot); [lia|unfold PGSIZE in *; lia|lia|].
  apply wp_bind, wp_on_mem. cbn [kmem with_mem with_fs].
  eapply wp_mono; [apply (wp_copy_in kend (kmem s) d l (addr + i) f 0); try done; lia|]. intros [] k Hw. rewrite Z.add_0_r in Hw.
  apply (written_ext _ _ _ _ _ (store U (addr + i) got)) in Hw; [|intros x Hx; apply store_ext; symmetry; by apply (ch_mem _ _ _ _ _ _ _ _ _ _ Hc)].
  pose proof (child_write _ _ _ _ _ _ _ _ _ _ _ _ Hc Hw) as Hc1. rewrite Hrn. case_bool_decide as Hin; cbn [negb]; cbv iota.
  2: { apply wp_ret. split; [done|]. split; [done|]. rewrite decide_False by lia. split; [done|]. by eexists. }
  rewrite (Hgot Hin) in Hc1. rewrite (u32_small (i + PGSIZE)) by (unfold PGSIZE; lia).
  eapply wp_mono; [match goal with |- wp _ _ ?st => apply (IH st _ (i + PGSIZE) Hc1) end; try done; unfold PGSIZE in *; try lia; zlia|].
  intros r' s' (Ht & Ho' & H'). split; [done|]. split; [done|].
  destruct (decide (off + fsz <= Z.of_nat (length c))) as [Hall|Hnot].
  - rewrite decide_True by (by right). rewrite decide_True in H' by (by right). destruct H' as [-> H']. split; [done|].
    eapply child_ext; [|exact H']. intros x Hx. set (b := bslice (Z.to_nat (off + i)) (Z.to_nat (fsz - i)) c).
    assert (length b = Z.to_nat (fsz - i)) as Hbl by (apply bslice_length; lia).
    rewrite <- (store_split U (addr + i) b (Z.to_nat n)) by lia. rewrite Z2Nat.id by lia.
    replace (take (Z.to_nat n) b) with (bslice (Z.to_nat (off + i)) (Z.to_nat n) c).
    2: { unfold b, bslice. rewrite take_take. f_equal. lia. }
    destruct (decide (fsz <= i + PGSIZE)).
    + rewrite (drop_ge b) by lia. rewrite store_nil. replace (Z.to_nat (fsz - (i + PGSIZE))) with 0%nat by lia.
      symmetry. apply store_nil.
    + replace n with PGSIZE by lia. replace (addr + (i + PGSIZE)) with (addr + i + PGSIZE) by lia. f_equal. unfold b, bslice.
      rewrite skipn_firstn_comm, drop_drop. f_equal; [lia|]. f_equal. unfold PGSIZE. lia.
  - rewrite decide_False by lia. rewrite decide_False in H' by lia. done.
Qed.
Hypothesis Hkend : KERNBASE < kend.
Variable room : Z.
Hypothesis Hroom : (65 + 2 * pages_upto room <= length l0)%nat.

(** [allocuvm] with an end that does not wrap around. *)
Lemma wp_segment_alloc d sz U l k newsz :
  child d sz U (fun _ => true) l k -> 0 <= sz < KERNBASE -> 0 <= newsz -> newsz < KERNBASE -> newsz <= room ->
  wp (allocuvm kend d sz newsz) (fun r k' => r = Z.max sz newsz /\
    exists l', child d (Z.max sz newsz) (extend U sz newsz) (fun _ => true) l' k') k.
Proof using Hkend Hroom.
  intros Hc Hsz Hn0 Hn Hr. destruct (decide (newsz < sz)) as [Hlt|Hge].
  - rewrite Z.max_l by lia. unfold wp. rewrite alloc_less by lia. split; [done|]. exists l.
    eapply child_ext; [|exact Hc]. intros x Hx. unfold extend. rewrite decide_False; [done|].
    destruct (round_up sz) as [H1 H2]; [lia|unfold KERNBASE, PGSIZE in *; lia|]. unfold within, PGSIZE in *. zlia.
  - rewrite Z.max_r by lia. apply (child_grow _ _ _ _ Hkend _ _ _ _ _ _ _ Hc); try done; try lia.
    pose proof (pages_mono newsz room). lia.
Qed.

Lemma wp_load_segments n s d l off sz U :
  child d sz U (fun _ => true) l (kmem s) -> opened (kfs s) -> 0 <= off < 2 ^ 32 -> 0 <= sz < KERNBASE ->
  spec_segments room c n off sz U <> Overruns ->
  wp (load_segments kend junk n d ip off sz) (fun o s' => same_table s s' /\ opened (kfs s') /\
    exists sz' U' l', child d sz' U' (fun _ => true) l' (kmem s') /\ 0 <= sz' < KERNBASE /\
    match spec_segments room c n off sz U with
    | Loaded sz1 U1 => o = Some sz1 /\ sz' = sz1 /\ U' = U1
    | _ => o = None
    end) s.
Proof using Hkend Hroom Hsv.
  revert s l off sz U. induction n as [|n IH]; intros s l off sz U Hc Hop Ho Hsz Hspec; cbn [load_segments spec_segments] in *.
  { apply wp_ret. split; [done|]. split; [done|]. exists sz, U, l. done. }
  pose proof (sv_len _ _ _ _ Hsv) as Hlen. pose proof (sv_bytes _ _ _ _ Hsv) as Hbytes.
  apply wp_bind, wp_on_fs. eapply wp_mono; [apply (sv_read _ _ _ _ Hsv); [done|done|unfold SIZEOF_PROGHDR; lia]|].
  intros rv f [-> Hop1]. destruct (read_small off SIZEOF_PROGHDR) as (r & got & -> & Hgl & Hgb & Hrn & Hgot);
    [lia|unfold SIZEOF_PROGHDR, PGSIZE; lia|lia|].
  rewrite Hrn. destruct (Z.ltb_spec (Z.of_nat (length c)) (off + SIZEOF_PROGHDR)) as [Hshort|Hfull].
  { rewrite bool_decide_eq_false_2 by lia. apply wp_ret. split; [done|]. split; [done|]. by exists sz, U, l. }
  rewrite bool_decide_eq_true_2 by lia. cbn [negb]. cbv iota. unfold SIZEOF_PROGHDR in *.
  set (w := bslice (Z.to_nat off) (Z.to_nat 32) c) in *. rewrite (Hgot Hfull).
  assert (length w = Z.to_nat 32) as Hw by (apply bslice_length; lia). rewrite proghdr_junk by done.
  destruct (proghdr_range w) as (R1 & R2 & R3 & R4); [by apply bytes_ok_slice|]. set (ph := proghdr_of w) in *.
  rewrite (u32_small (off + 32)) by lia.
  destruct (ph_type ph =? ELF_PROG_LOAD); cbn [negb] in *; cbv iota in *.
  2: { eapply wp_mono; [by apply (IH (with_fs f s) l (off + 32) sz U); [..|lia|done|]|]. intros o s' (H1 & H2 & H3). done. }
  destruct (Z.ltb_spec (ph_memsz ph) (ph_filesz ph)) as [|Hmem].
  { apply wp_ret. split; [done|]. split; [done|]. by exists sz, U, l. }
  set (newsz := ph_vaddr ph + ph_memsz ph) in *. destruct (Z.leb_spec (2 ^ 32) newsz) as [|Hnw]; [done|].
  rewrite (u32_small newsz) by lia. destruct (Z.leb_spec KERNBASE newsz) as [Hbig|Hnk].
  { apply wp_bind, wp_on_mem. unfold allocuvm at 1. rewrite (proj2 (Z.geb_le _ _)) by lia. apply wp_ret. simpl Z.eqb. cbv iota.
    apply wp_ret. split; [done|]. split; [done|]. by exists sz, U, l. }
  destruct (Z.ltb_spec room newsz) as [|Hnr]; [done|].
  apply wp_bind, wp_on_mem. eapply wp_mono; [apply (wp_segment_alloc d sz U l); try done; lia|].
  intros r' k [-> (l1 & Hc1)]. destruct (Z.max sz newsz =? 0) eqn:Ez.
  { apply wp_ret. split; [done|]. split; [done|]. eexists _, _, l1. split; [exact Hc1|]. split; [lia|done]. }
  destruct (Z.eqb_spec (ph_vaddr ph mod PGSIZE) 0) as [Hal|]; [|done]. cbn [negb] in *. cbv iota in *.
  unfold loaduvm. rewrite (u32_small (ph_vaddr ph)) by lia. rewrite Hal. cbn [negb]. cbv iota.
  apply wp_bind. eapply wp_mono.
  { match goal with |- wp _ _ ?st => apply (wp_loaduvm_loop (Z.to_nat (2 ^ 20)) st d (Z.max sz newsz) (extend U sz newsz) (fun _ => true) l1) end;
      try done; try lia. rewrite Z2Nat.id by lia. unfold KERNBASE, PGSIZE in *. lia. }
  intros r'' s2 (Ht2 & Hop2 & H2). rewrite !Z.add_0_r, Z.sub_0_r in H2.
  destruct (decide (ph_filesz ph <= 0 \/ ph_off ph + ph_filesz ph <= Z.of_nat (length c))) as [Hok|Hno].
  - replace (negb (ph_filesz ph =? 0) && (Z.of_nat (length c) <? ph_off ph + ph_filesz ph)) with false in *.
    2: { symmetry. destruct (Z.eqb_spec (ph_filesz ph) 0); [done|]. cbn [negb andb]. apply Z.ltb_ge. lia. }
    destruct H2 as [-> Hc2]. simpl Z.ltb. cbv iota.
    eapply wp_mono; [apply (IH s2 l1 (off + 32) _ _ Hc2); try done; lia|]. intros o s' (Ht3 & Hop3 & H3).
    split; [|done]. eapply same_table_trans; [|exact Ht3]. exact Ht2.
  - replace (negb (ph_filesz ph =? 0) && (Z.of_nat (length c) <? ph_off ph + ph_filesz ph)) with true in *.
    2: { symmetry. apply andb_true_iff. split; [apply negb_true_iff, Z.eqb_neq|apply Z.ltb_lt]; lia. }
    destruct H2 as [-> (U' & Hc2)]. simpl Z.ltb. cbv iota. apply wp_ret. split; [exact Ht2|]. split; [done|].
    eexists _, U', l1. split; [exact Hc2|]. split; [lia|done].
Qed.
End Load.
End Exec.
