(* ===== verification/ExecStack.v ===== *)
(** * The stack of a new program: the argument strings and the vector of pointers to them *)

From S2P Require Import Prelude Kalloc Vm Uvm UvmGrow Kvm UvmCopy UvmWrite Proc Syscall Exec ExecMem ExecLoad.

(** Rounding down to a word, within the address space or below it. *)
Lemma align_word x : - 2 ^ 32 < x < 2 ^ 32 -> Z.land (u32 x) (Z.lnot 3) = if x <? 0 then x / 4 * 4 + 2 ^ 32 else x / 4 * 4.
Proof.
  intros Hx. assert (forall y, 0 <= y -> Z.land y (Z.lnot 3) = y / 4 * 4) as H.
  { intros y Hy. change 3 with (Z.ones 2). rewrite <- Z.ldiff_land, Z.ldiff_ones_r by lia.
    rewrite Z.shiftl_mul_pow2, Z.shiftr_div_pow2 by lia. done. }
  rewrite H by apply u32_range. unfold u32. destruct (Z.ltb_spec x 0); zlia.
Qed.

(** The kernel's own pages are not accessible to the user. *)
Lemma device_access kdata x : DEVSPACE <= x < 2 ^ 32 ->
  has (kernel_pte kdata x) PTE_P = true /\ has (kernel_pte kdata x) PTE_U = false.
Proof.
  intros Hx. unfold kernel_pte, DEVSPACE, KERNBASE, PHYSTOP in *. rewrite decide_False, decide_True by lia.
  set (p := x / PGSIZE * PGSIZE). assert (p mod PGSIZE = 0) as Hal by (unfold p, PGSIZE; zlia).
  assert (0 <= p /\ p + 3 < 2 ^ 32) as Hp by (unfold p, PGSIZE; zlia).
  unfold entry. rewrite <- Z.lor_assoc. change (Z.lor PTE_W PTE_P) with 3. rewrite lor_flags by (done || unfold PGSIZE; lia).
  rewrite u32_small by lia. unfold has. by rewrite !land_aligned by (done || unfold PGSIZE, PTE_P, PTE_U; lia).
Qed.

Section Stack.
Variables kend kdata : Z.
Context (s0 : kst) (l0 : list Z) (d base : Z).
Abbreviation child := (child kend kdata s0 l0).
Let top := base + 2 * PGSIZE.
Let bottom := base + PGSIZE.
(** The page at [base] is the guard page. *)
Let acc := fun x => negb (x / PGSIZE =? base / PGSIZE) && true.
Hypotheses (Hal : base mod PGSIZE = 0) (Hb0 : 0 <= base) (Htop : top < KERNBASE).

(** A store into the stack page is made; one that reaches the guard page fails. *)
Lemma wp_push U l s sp b : child d top U acc l s -> 0 <= sp -> (0 < length b)%nat -> bottom - 3 <= sp + Z.of_nat (length b) <= top -> bytes_ok b ->
  wp (copyout d sp b) (fun r s' => exists U', child d top U' acc l s' /\
    if bottom <=? sp then r = 0 /\ U' = store U sp b else r = -1) s.
Proof using Hal Hb0 Htop.
  intros Hc Hsp Hlen Hend Hb. pose proof (ch_space _ _ _ _ _ _ _ _ _ _ Hc) as Hs.
  assert (forall x, sp <= x < sp + Z.of_nat (length b) -> user x /\ within 0 top x) as Hin.
  { intros x Hx. unfold user, within, top, KERNBASE, PGSIZE in *. zlia. }
  eapply wp_mono; [apply (wp_copyout kend s d l sp b); try done|].
  - unfold KERNBASE in *. lia.
  - intros x Hx. destruct (Hin x Hx) as [Hu Hw]. by apply (ch_in _ _ _ _ _ _ _ _ _ _ Hc).
  - intros r s' [(-> & Hacc & Hw)|(-> & (x & Hx & Hax) & U' & Hw)].
    + destruct (Z.leb_spec bottom sp) as [|Hlt].
      * eexists. split; [|done]. eapply child_write; [exact Hc|].
        eapply written_ext; [|exact Hw]. intros x Hx. apply store_ext. symmetry. by apply (ch_mem _ _ _ _ _ _ _ _ _ _ Hc).
      * exfalso. set (x := Z.max sp base). assert (sp <= x < sp + Z.of_nat (length b)) as Hx by (unfold x, bottom, PGSIZE in *; lia).
        destruct (Hin x Hx) as [Hu Hwx]. destruct (ch_in _ _ _ _ _ _ _ _ _ _ Hc x Hu Hwx) as [_ Ha].
        rewrite Hacc in Ha by done. unfold acc in Ha. destruct (Z.eqb_spec (x / PGSIZE) (base / PGSIZE)) as [|Hne]; [done|].
        apply Hne. unfold x, bottom, PGSIZE in *. zlia.
    + exists U'. split; [by eapply child_write|]. destruct (Z.leb_spec bottom sp) as [Hle|]; [|done].
      exfalso. destruct (Hin x Hx) as [Hu Hwx]. destruct (ch_in _ _ _ _ _ _ _ _ _ _ Hc x Hu Hwx) as [_ Ha].
      rewrite Hax in Ha. unfold acc in Ha. destruct (Z.eqb_spec (x / PGSIZE) (base / PGSIZE)) as [E|]; [|done].
      unfold bottom, PGSIZE in *. zlia.
Qed.
(** A string that is longer than the address space below it: the pointer wraps around to the devices. *)
Lemma wp_push_wrapped U l s va b : child d top U acc l s -> DEVSPACE <= va < 2 ^ 32 -> b <> [] ->
  wp (copyout d va b) (fun r s' => r = -1 /\ s' = s) s.
Proof.
  intros Hc Hva Hb. unfold copyout. destruct b as [|x b]; [done|]. cbn [copyout_loop].
  assert (DEVSPACE <= PGROUNDDOWN va < 2 ^ 32) as Hr by (rewrite round_down by (unfold DEVSPACE in *; lia); unfold DEVSPACE, PGSIZE in *; zlia).
  destruct (device_access kdata (PGROUNDDOWN va) Hr) as [HP HU].
  assert (pte_at (pages s) d (PGROUNDDOWN va) = kernel_pte kdata (PGROUNDDOWN va)) as E.
  { apply (ch_ker _ _ _ _ _ _ _ _ _ _ Hc). unfold DEVSPACE, KERNBASE in *. lia. }
  apply wp_bind. eapply wp_mono; [apply (wp_uva2ka kend s d l); [apply (sp_vm _ _ _ _ (ch_space _ _ _ _ _ _ _ _ _ _ Hc))|by rewrite E]|].
  intros r s' [-> ->]. unfold uaccess. rewrite E, HU. simpl. by apply wp_ret.
Qed.

Definition arg_ok (a : list Z) : Prop := bytes_ok a /\ Z.of_nat (length a) < 2 ^ 24.

Lemma spec_args_range argv U sp sp' ptrs U1 : spec_args bottom sp argv U = Some (sp', ptrs, U1) -> bottom <= sp -> sp mod 4 = 0 ->
  bottom <= sp' <= sp /\ sp' mod 4 = 0 /\ length ptrs = length argv.
Proof.
  revert U sp ptrs. induction argv as [|a argv IH]; intros U sp ptrs; cbn [spec_args].
  - intros [= <- <- <-] H1 H2. split_and!; done || lia.
  - set (x := _ / 4 * 4). destruct (Z.ltb_spec x bottom); [done|].
    destruct (spec_args bottom x argv (store U x (a ++ [0]))) as [[[y ps] U2]|] eqn:E; [|done]. intros [= <- <- <-] H1 H2.
    destruct (IH _ _ _ E) as (I1 & I2 & I3); [done|unfold x; zlia|]. split_and!; [lia| |done|simpl; lia].
    etrans; [apply I1|]. unfold x. zlia.
Qed.

Lemma wp_push_args argv : Forall arg_ok argv -> forall U l s argc sp, child d top U acc l s -> bottom <= sp <= top -> sp mod 4 = 0 ->
  wp (push_args d argc sp argv) (fun o s' => exists U', child d top U' acc l s' /\
    match spec_args bottom sp argv U with
    | Some (sp', ptrs, U1) =>
        if argc + Z.of_nat (length argv) <=? Z.max argc MAXARG then o = Some (sp', ptrs) /\ U' = U1 else o = None
    | None => o = None
    end) s.
Proof using Hal Hb0 Htop.
  induction 1 as [|a argv [Ha Hla] Hargv IH]; intros U l s argc sp Hc Hsp Hsp4; cbn [push_args spec_args].
  { apply wp_ret. exists U. split; [done|]. rewrite (proj2 (Z.leb_le _ _)); [done|simpl; lia]. }
  destruct (Z.geb_spec argc MAXARG) as [Hmax|Hmax].
  { apply wp_ret. exists U. split; [done|].
    rewrite (proj2 (Z.leb_gt (argc + Z.of_nat (length (a :: argv))) _)) by (cbn [length]; lia).
    destruct (_ <? _); [done|]. by destruct (spec_args _ _ _ _) as [[[? ?] ?]|]. }
  assert (length (a ++ [0%Z]) = length a + 1)%nat as Hl1 by (by rewrite length_app).
  assert (bytes_ok (a ++ [0])) as Hb1 by (apply Forall_app; split; [done|]; constructor; [unfold is_byte; lia|constructor]).
  set (x := sp - (Z.of_nat (length a) + 1)). unfold KERNBASE in Htop. unfold bottom, PGSIZE in Hsp.
  rewrite align_word by (unfold x; lia). destruct (Z.ltb_spec x 0) as [Hneg|Hpos].
  - rewrite (proj2 (Z.ltb_lt (x / 4 * 4) bottom)) by (unfold bottom, PGSIZE; zlia).
    apply wp_bind. eapply wp_mono; [apply (wp_push_wrapped U l s); [done|unfold x, DEVSPACE in *; zlia|by destruct a]|].
    intros r s' [-> ->]. simpl. apply wp_ret. by exists U.
  - apply wp_bind. eapply wp_mono; [apply (wp_push U l); try done|].
    + zlia.
    + lia.
    + rewrite Hl1. unfold bottom, top, PGSIZE in *. zlia.
    + intros r s1 (U1 & Hc1 & H1). destruct (Z.ltb_spec (x / 4 * 4) bottom) as [Hlow|Hok].
      * rewrite (proj2 (Z.leb_gt _ _)) in H1 by done. subst r. simpl. apply wp_ret. by exists U1.
      * rewrite (proj2 (Z.leb_le _ _)) in H1 by done. destruct H1 as [-> ->]. simpl. apply wp_bind.
        eapply wp_mono; [apply (IH _ l s1 (argc + 1) (x / 4 * 4) Hc1); unfold bottom, top, PGSIZE in *; zlia|].
        intros o s2 (U2 & Hc2 & H2). apply wp_ret. exists U2. split; [done|]. fold x.
        destruct (spec_args bottom (x / 4 * 4) argv (store U (x / 4 * 4) (a ++ [0]))) as [[[sp' ptrs] U3]|]; [|by rewrite H2].
        replace (argc + Z.of_nat (S (length argv))) with (argc + 1 + Z.of_nat (length argv)) by lia.
        replace (Z.max argc MAXARG) with (Z.max (argc + 1) MAXARG) by lia.
        destruct (_ <=? _); [destruct H2 as [-> ->]; done|by rewrite H2].
Qed.
Lemma words_ok ws : bytes_ok (words ws) /\ length (words ws) = (4 * length ws)%nat.
Proof.
  unfold words. induction ws as [|w ws [IH1 IH2]]; [done|]. cbn [map concat]. split.
  - apply Forall_app. split; [apply le_bytes_ok|done].
  - rewrite length_app, le_bytes_length, IH2. simpl. lia.
Qed.

Lemma wp_push_stack argv U l s : Forall arg_ok argv -> child d top U acc l s ->
  wp (push_stack d top argv) (fun o s' => exists U', child d top U' acc l s' /\
    match spec_args bottom top argv U with
    | Some (sp, ptrs, U1) =>
        let sp' := sp - (3 + Z.of_nat (length ptrs) + 1) * 4 in
        if (MAXARG <? Z.of_nat (length ptrs)) || (sp' <? bottom) then o = None
        else o = Some sp' /\ U' = store U1 sp' (words (ustack sp ptrs))
    | None => o = None
    end) s.
Proof using Hal Hb0 Htop.
  intros Hargv Hc. assert (top mod 4 = 0) as Ht4 by (unfold top, PGSIZE in *; zlia). unfold push_stack. apply wp_bind.
  eapply wp_mono; [apply (wp_push_args argv Hargv U l s 0 top Hc); [unfold top, bottom, PGSIZE; lia|done]|].
  intros o s1 (U1 & Hc1 & H1). destruct (spec_args bottom top argv U) as [[[sp ptrs] U2]|] eqn:E.
  2: { subst o. apply wp_ret. by exists U1. }
  destruct (spec_args_range _ _ _ _ _ _ E) as (R1 & R2 & R3); [unfold top, bottom, PGSIZE; lia|done|]. cbv zeta.
  rewrite Z.add_0_l, <- R3 in H1. change (Z.max 0 MAXARG) with MAXARG in H1.
  destruct (Z.ltb_spec MAXARG (Z.of_nat (length ptrs))) as [Hmany|Hfew].
  { rewrite (proj2 (Z.leb_gt _ _)) in H1 by done. subst o. simpl. apply wp_ret. by exists U1. }
  rewrite (proj2 (Z.leb_le _ _)) in H1 by done. destruct H1 as [-> ->]. unfold MAXARG in Hfew. cbn [orb].
  set (sp' := sp - (3 + Z.of_nat (length ptrs) + 1) * 4).
  assert (0 <= sp' < 2 ^ 32) as Hr by (unfold sp', top, bottom, KERNBASE, PGSIZE in *; lia).
  rewrite u32_small by lia. destruct (words_ok (ustack sp ptrs)) as [W1 W2].
  assert (Z.of_nat (length (words (ustack sp ptrs))) = sp - sp') as W3.
  { rewrite W2. unfold ustack, sp'. rewrite !length_app. simpl. lia. }
  apply wp_bind. eapply wp_mono; [apply (wp_push U2 l s1 sp' (words (ustack sp ptrs)) Hc1); try done; unfold sp', top, bottom, PGSIZE in *; lia|].
  intros r s2 (U3 & Hc3 & H3). apply wp_ret. exists U3. split; [done|].
  destruct (Z.ltb_spec sp' bottom) as [Hlow|Hok].
  - rewrite (proj2 (Z.leb_gt _ _)) in H3 by done. by subst r.
  - rewrite (proj2 (Z.leb_le _ _)) in H3 by done. by destruct H3 as [-> ->].
Qed.
End Stack.
