(* ===== verification/ExecOk.v ===== *)
(** * [exec] implements the specification of a program loader

    For every file, [exec] either starts the program that [spec_exec] describes, in memory of its own and with the memory of
    the old image given back, or returns -1 and leaves the process, and the set of free pages, as they were. *)

From S2P Require Import Prelude Kalloc Vm Uvm UvmGrow Kvm UvmCopy UvmWrite Proc Syscall Exec ExecMem ExecLoad ExecStack.

Section Replace.
Variables kend kdata : Z.
Hypothesis Hkend : KERNBASE < kend.

(** The directory [d] describes an image of [sz] bytes with the contents [U], whose second page from the top is the
    guard page of the stack, and the kernel. *)
Record image (k : kst) (d sz : Z) (U : Z -> option Z) (l : list Z) : Prop := {
  im_space : space kend k d l;
  im_in : forall x, user x -> within 0 sz x -> frame_at (pages k) d x <> None /\
    uaccess (pages k) d x = negb (x / PGSIZE =? (sz - 2 * PGSIZE) / PGSIZE);
  im_out : forall x, user x -> ~ within 0 sz x -> frame_at (pages k) d x = None;
  im_mem : forall x, user x -> umem (pages k) d x = U x;
  im_ker : forall x, KERNBASE <= x < 2 ^ 32 -> pte_at (pages k) d x = kernel_pte kdata x
}.

Context (s0 : kst) (l0 : list Z) (old K : Z).
Hypotheses (Hold : space kend s0 old l0) (HK : K ∉ l0) (HKo : ~ own (pages s0) old K).
Abbreviation child := (child kend kdata s0 l0).

Lemma child_image d sz U acc l k k' l' : child d sz U acc l k ->
  (forall x, acc x = negb (x / PGSIZE =? (sz - 2 * PGSIZE) / PGSIZE)) ->
  (forall v, own (pages k) d v -> pages k' !! v = pages k !! v) -> space kend k' d l' -> image k' d sz U l'.
Proof using Type.
  intros [C1 C2 C3 C4 C5 C6 C7 C8] Hacc Hsame Hs'. destruct (same_pages _ _ _ Hsame) as (E1 & E2 & E3 & E4 & E5). split; try done.
  - intros x Hx Hw. rewrite E3. unfold uaccess. rewrite E2, <- Hacc. by apply C2.
  - intros x Hx Hw. rewrite E3. by apply C3.
  - intros x Hx. unfold umem. rewrite E5 by done. by apply C4.
  - intros x Hx. rewrite E2. by apply C5.
Qed.

(** The old address space is freed, after a store into the page [K] that belongs to neither of the two. *)
Lemma wp_free_old d sz U acc l k x x1 : child d sz U acc l k ->
  (forall x, acc x = negb (x / PGSIZE =? (sz - 2 * PGSIZE) / PGSIZE)) ->
  pages k !! K = Some x -> length x1 = Z.to_nat PGSIZE -> bytes_ok x1 ->
  wp (freevm kend old) (fun _ k' => exists l', image k' d sz U l' /\
    (forall v, own (pages k') d v \/ v ∈ l' <-> own (pages s0) old v \/ v ∈ l0) /\
    pages k' !! K = Some x1 /\
    (forall v, alien (pages s0) old l0 v -> v <> K -> pages k' !! v = pages s0 !! v)) (mkK (<[K := x1]> (pages k)) (freelist k)).
Proof using All.
  intros Hc Hacc Hx Hx1 Hb1. set (k1 := mkK (<[K := x1]> (pages k)) (freelist k)).
  pose proof Hc as [C1 C2 C3 C4 C5 C6 C7 C8].
  assert (forall v, own (pages k) d v -> v ∈ l0) as Hin by (intros v Hv; apply C6; by left).
  assert (forall v, v ∈ l -> v ∈ l0) as Hinl by (intros v Hv; apply C6; by right).
  assert (forall v, own (pages s0) old v -> v ∉ l0) as Hout by (intros v Hv; by apply (own_ok kend s0 old l0 v Hold Hv)).
  assert (forall v, own (pages k) d v -> pages k1 !! v = pages k !! v) as Hnew.
  { intros v Hv. simpl. apply lookup_insert_ne. intros <-. by apply HK, Hin. }
  assert (forall v, own (pages s0) old v -> pages k1 !! v = pages s0 !! v) as Hos.
  { intros v Hv. simpl. rewrite lookup_insert_ne by (by intros <-). by apply C7, Hout. }
  destruct (space_put kend k d l K x1) as (Sp & _ & _ & Eo); try done.
  { by intros H; apply HK, Hinl. } { intros ->. apply HK, Hin, own_dir. }
  { intros i Hi E. apply HK, Hin. by eapply own_table. }
  pose proof (space_free_rep _ _ _ _ Sp) as Hf1.
  assert (space kend k1 old l) as So.
  { apply (space_bystander kend s0 k1 old l0 l Hold Hos Hf1). intros v Hv Hv'. by apply (Hout v Hv'), Hinl. }
  destruct (same_pages _ _ _ Hos) as (_ & _ & _ & Eold & _).
  eapply wp_mono; [by apply (wp_freevm kend Hkend k1 old l)|]. intros _ k' (l' & Hf' & Hl' & Hal).
  assert (forall v, own (pages k) d v -> pages k' !! v = pages k !! v) as Hsame.
  { intros v Hv. rewrite Hal, Hnew; [done|done|]. split.
    - by apply (own_ok kend k d l v C1 Hv).
    - rewrite Eold. intros H. by apply (Hout v H), Hin. }
  assert (space kend k' d l') as Sd.
  { apply (space_bystander kend k k' d l l' C1 Hsame Hf'). intros v Hv Ho. apply Hl' in Hv as [Hv|Hv].
    - by apply (own_ok kend k d l v C1 Ho).
    - rewrite Eold in Hv. by apply (Hout v Hv), Hin. }
  exists l'. split; [by eapply child_image|]. destruct (same_pages _ _ _ Hsame) as (_ & _ & _ & Ed & _).
  split_and!.
  - intros v. rewrite Ed, Hl', Eold, <- C6. clear. tauto.
  - rewrite Hal; [by simpl; rewrite lookup_insert_eq|]. split; [by intros H; apply HK, Hinl|by rewrite Eold].
  - intros v [Hv1 Hv2] Hne. rewrite Hal; [|split; [by intros H; apply Hv1, Hinl|by rewrite Eold]].
    simpl. rewrite lookup_insert_ne by done. by apply C7.
Qed.
End Replace.

Lemma wp_stw_at k x a off w (Q : unit -> kst -> Prop) : 0 <= a -> 0 < off -> a mod PGSIZE + off + 4 <= PGSIZE ->
  pages k !! page_base a = Some x ->
  Q tt (mkK (<[page_base a := put32 (Z.to_nat (a mod PGSIZE + off)) w x]> (pages k)) (freelist k)) -> wp (stw (a + off) w) Q k.
Proof.
  intros Ha Ho Hm Hx HQ. unfold stw. rewrite (proj2 (Z.eqb_neq _ _)) by lia.
  replace (page_base (a + off)) with (page_base a) by (unfold page_base, PGSIZE in *; zlia).
  replace ((a + off) mod PGSIZE) with (a mod PGSIZE + off) by (unfold PGSIZE in *; zlia).
  apply wp_bind. eapply wp_get_page; [exact Hx|]. by apply wp_put_page.
Qed.

(** A size and the size rounded up to pages are the same to an image. *)
Lemma child_round kend kdata s0 l0 d sz U acc l k : 0 <= sz < KERNBASE -> child kend kdata s0 l0 d sz U acc l k ->
  child kend kdata s0 l0 d (PGROUNDUP sz) U acc l k.
Proof.
  intros Hsz [C1 C2 C3 C4 C5 C6 C7 C8]. destruct (round_up sz) as [H1 H2]; [lia|unfold KERNBASE, PGSIZE in *; lia|].
  set (r := PGROUNDUP sz) in *. assert (forall x, user x -> within 0 r x <-> within 0 sz x) as Hw.
  { intros x Hx. unfold within, user, PGSIZE in *. zlia. }
  split; try done.
  - intros x Hx Hr. apply C2; [done|]. by apply Hw.
  - intros x Hx Hr. apply C3; [done|]. by rewrite <- Hw.
  - replace (pages_upto r) with (pages_upto sz); [done|]. unfold pages_upto, PGSIZE in *. f_equal. zlia.
Qed.

Lemma wp_bind_inv {S A B} (m : M S A) (k : A -> M S B) Q s : wp (bind m k) Q s -> wp m (fun a s' => wp (k a) Q s') s.
Proof. unfold wp, bind. by destruct (m s). Qed.

Section Exec.
Context {F : Type} `{HF : Files F} `{HI : Inodes F}.
Variables kend kdata : Z.
Variable junk : list Z.
Abbreviation pst := (pst (F := F)).

(** The process [me], whose record was [p], runs the new image, and the pages of the old one are free. *)
Definition started (s : pst) (l : list Z) (me : nat) (p : proc) (path : list Z) (sz : Z) (U : Z -> option Z) (entry sp : Z) (s' : pst) : Prop :=
  exists d l' x, image kend kdata (kmem s') d sz U l' /\
    procs s' = <[me := set_sz sz (set_pgdir d (set_name (name_copy (last_elem path path) (name p)) p))]> (procs s) /\
    (forall v, own (pages (kmem s')) d v \/ v ∈ l' <-> own (pages (kmem s)) (pgdir p) v \/ v ∈ l) /\
    pages (kmem s) !! page_base (tf p) = Some x /\
    pages (kmem s') !! page_base (tf p) =
      Some (put32 (Z.to_nat (tf p mod PGSIZE + TF_ESP)) sp (put32 (Z.to_nat (tf p mod PGSIZE + TF_EIP)) entry x)) /\
    (forall v, alien (pages (kmem s)) (pgdir p) l v -> v <> page_base (tf p) -> pages (kmem s') !! v = pages (kmem s) !! v).
(** Nothing has changed but the contents and the order of the free pages. *)
Definition unchanged (s : pst) (l : list Z) (s' : pst) : Prop :=
  procs s' = procs s /\ (forall v, (v ∉ l) -> pages (kmem s') !! v = pages (kmem s) !! v) /\
  exists l', free_rep kend (kmem s') l' /\ forall v, v ∈ l' <-> v ∈ l.

Hypothesis Hkend : KERNBASE < kend.
Context (s : pst) (l0 : list Z) (me : nat) (p : proc) (room : Z) (closed : F -> Prop).
Hypotheses (Hme : procs s !! me = Some p) (Hold : space kend (kmem s) (pgdir p) l0)
  (Hroom : (65 + 2 * pages_upto room <= length l0)%nat).
(** The trap frame is in a page of its own, on the kernel stack of the process. *)
Hypotheses (Htf : 0 <= tf p /\ tf p mod PGSIZE + SIZEOF_TRAPFRAME <= PGSIZE)
  (HK : is_Some (pages (kmem s) !! page_base (tf p)) /\ alien (pages (kmem s)) (pgdir p) l0 (page_base (tf p))).
Abbreviation child := (child kend kdata (kmem s) l0).

Definition outcome_of (path : list Z) (v : verdict) (r : Z) (s' : pst) : Prop :=
  closed (kfs s') /\
  match v with
  | Runs sz U entry sp => r = 0 /\ started s l0 me p path sz U entry sp s'
  | _ => r = -1 /\ unchanged s l0 s'
  end.

Lemma wp_drop_image d sz U acc l t : child d sz U acc l (kmem t) -> same_table s t -> closed (kfs t) ->
  wp (bad kend d 0) (fun r s' => closed (kfs s') /\ r = -1 /\ unchanged s l0 s') t.
Proof using Hkend.
  intros Hc [Ht _] Hcl. unfold bad. rewrite (proj2 (Z.eqb_neq d 0)) by (eapply page_aligned_nonzero, (sp_dir _ _ _ _ (ch_space _ _ _ _ _ _ _ _ _ _ Hc))).
  cbn [negb]. apply wp_bind, wp_on_mem. eapply wp_mono; [by eapply child_free|]. intros [] k' (l' & H1 & H2 & H3).
  apply wp_bind, wp_ret, wp_ret. split; [done|]. split; [done|]. split; [done|]. split; [done|]. by exists l'.
Qed.
(** The switch to the new image. *)
Lemma wp_switch_image path entry sp d sz U acc l t : child d sz U acc l (kmem t) -> same_table s t -> closed (kfs t) ->
  (forall x, acc x = negb (x / PGSIZE =? (sz - 2 * PGSIZE) / PGSIZE)) ->
  wp (set_proc me (fun p => set_name (name_copy (last_elem path path) (name p)) p) ;;;
      p <- get_proc me ;;
      set_proc me (set_pgdir d) ;;; set_proc me (set_sz sz) ;;;
      on_mem (stw (tf p + TF_EIP) entry) ;;; on_mem (stw (tf p + TF_ESP) sp) ;;;
      switchuvm me ;;; on_mem (freevm kend (pgdir p)) ;;; ret 0)
    (fun r s' => closed (kfs s') /\ r = 0 /\ started s l0 me p path sz U entry sp s') t.
Proof using All.
  intros Hc [Ht _] Hcl Hacc. destruct HK as [[x Hx] [HK1 HK2]]. destruct Htf as [Htf0 Htf1]. unfold SIZEOF_TRAPFRAME in Htf1.
  pose proof (ch_kept _ _ _ _ _ _ _ _ _ _ Hc _ HK1) as Hxt. rewrite Hx in Hxt.
  destruct (space_mem _ _ _ _ Hold _ _ Hx) as [Hlen Hb]. set (o := tf p mod PGSIZE) in *. assert (0 <= o < PGSIZE) by (unfold o, PGSIZE; zlia).
  assert (procs t !! me = Some p) as Ep by (by rewrite Ht).
  apply wp_bind. eapply wp_set_proc; [exact Ep|]. set (p1 := set_name (name_copy (last_elem path path) (name p)) p).
  apply wp_bind. eapply wp_get_proc; [by apply procs_upd|]. change (tf _) with (tf p). change (pgdir _) with (pgdir p).
  apply wp_bind. eapply wp_set_proc; [by apply procs_upd|]. apply wp_bind. eapply wp_set_proc; [by apply procs_upd, procs_upd|].
  apply wp_bind, wp_on_mem. apply (wp_stw_at _ x); [done|done|unfold TF_EIP; lia|done|].
  set (x1 := put32 _ entry x). unfold TF_EIP, PGSIZE in *.
  assert (length x1 = Z.to_nat 4096) as Hl1 by (unfold x1; rewrite put32_length; [done|lia]).
  apply wp_bind, wp_on_mem. apply (wp_stw_at _ x1); [done|done|unfold TF_ESP, PGSIZE; lia|by simpl; rewrite lookup_insert_eq|].
  cbn [kmem with_mem upd pages freelist]. rewrite insert_insert_eq. set (x2 := put32 _ sp x1).
  assert (length x2 = Z.to_nat 4096) as Hl2 by (unfold x2; rewrite put32_length; [done|unfold TF_ESP, PGSIZE; lia]).
  unfold switchuvm. apply wp_bind, wp_bind. eapply wp_get_proc; [by apply procs_upd, procs_upd, procs_upd|].
  change (pgdir _ =? 0) with (d =? 0). rewrite (proj2 (Z.eqb_neq d 0)) by (eapply page_aligned_nonzero, (sp_dir _ _ _ _ (ch_space _ _ _ _ _ _ _ _ _ _ Hc))).
  apply wp_ret, wp_bind, wp_on_mem. cbn [kmem with_mem upd].
  eapply wp_mono; [apply (wp_free_old kend kdata Hkend (kmem s) l0 (pgdir p) (page_base (tf p)) Hold HK1 HK2 d sz U acc l (kmem t) x x2 Hc Hacc Hxt)|].
  - done.
  - apply bytes_ok_splice; [apply le_bytes_ok|]. apply bytes_ok_splice; [apply le_bytes_ok|done].
  - intros [] k' (l' & Him & Hcons & HKx & Hoth). apply wp_ret. split; [done|]. split; [done|]. exists d, l', x. split_and!; try done.
    cbn [procs with_mem upd]. rewrite Ht, !list_alter_alter_eq, list_insert_alter.
    apply list_alter_ext; [|done]. intros q Eq. rewrite Hme in Eq. by injection Eq as <-.
Qed.
(** From the loaded segments to the verdict. *)
Lemma wp_exec_image path argv entry sz U d l t : Forall arg_ok argv -> child d sz U (fun _ => true) l (kmem t) -> 0 <= sz < KERNBASE ->
  same_table s t -> closed (kfs t) -> spec_image room argv entry sz U <> Unsafe ->
  wp (exec_image kend me path argv entry d sz) (outcome_of path (spec_image room argv entry sz U)) t.
Proof using All.
  intros Hargv Hc0 Hsz Ht Hcl Hspec. destruct (round_up sz) as [Hb1 Hb2]; [lia|unfold KERNBASE, PGSIZE in *; lia|].
  pose proof (child_round _ _ _ _ _ _ _ _ _ _ Hsz Hc0) as Hc. unfold exec_image, spec_image in *. cbv zeta in *.
  set (base := PGROUNDUP sz) in *. set (top := base + 2 * PGSIZE) in *.
  assert (0 <= base <= KERNBASE) as Hbase by (unfold KERNBASE, PGSIZE in *; zlia).
  rewrite (u32_small top) by (unfold top, KERNBASE, PGSIZE in *; lia).
  destruct (Z.leb_spec KERNBASE top) as [Hbig|Hsmall].
  { apply wp_bind, wp_on_mem. unfold allocuvm at 1. rewrite (proj2 (Z.geb_le _ _)) by lia. apply wp_ret. simpl Z.eqb. cbv iota.
    by eapply wp_drop_image. }
  destruct (Z.ltb_spec room top) as [|Hr]; [done|].
  apply wp_bind, wp_on_mem. eapply wp_mono.
  { apply (child_grow _ _ _ _ Hkend d base top _ _ _ _ Hc); try done; [unfold top, PGSIZE; lia|].
    assert (0 <= top <= room) as Htr by (unfold top, PGSIZE in *; lia). pose proof (pages_mono top room Htr). lia. }
  intros r k [-> (l1 & Hc1)]. rewrite (proj2 (Z.eqb_neq top 0)) by (unfold top, PGSIZE; lia).
  replace (top - 2 * PGSIZE) with base by (unfold top; lia). rewrite (u32_small base) by (unfold KERNBASE in *; lia).
  assert (user base) as Hub by (unfold user, top, PGSIZE in *; lia).
  destruct (ch_in _ _ _ _ _ _ _ _ _ _ Hc1 base Hub) as [Hf _]; [unfold within, top, PGSIZE; zlia|].
  destruct (frame_at (pages k) d base) as [f|] eqn:Ef; [|done].
  apply wp_bind, wp_on_mem. eapply wp_mono; [eapply wp_clearpteu; [apply (ch_space _ _ _ _ _ _ _ _ _ _ Hc1)|done|exact Ef]|].
  intros [] k2 Hg. pose proof (child_guard _ _ _ _ _ _ _ _ _ _ _ _ Hub Hc1 Hg) as Hc2.
  apply wp_bind, wp_on_mem. eapply wp_mono; [apply (wp_push_stack kend kdata (kmem s) l0 d base Hb1 ltac:(lia) Hsmall argv _ _ _ Hargv Hc2)|].
  intros o k3 (U3 & Hc3 & H3). fold top in Hc3, H3.
  destruct (spec_args (base + PGSIZE) top argv (extend U base top)) as [[[sp ptrs] U4]|].
  2: { rewrite H3. by eapply wp_drop_image. }
  cbv zeta in H3. destruct ((MAXARG <? Z.of_nat (length ptrs)) || (sp - (3 + Z.of_nat (length ptrs) + 1) * 4 <? base + PGSIZE)).
  { rewrite H3. by eapply wp_drop_image. }
  destruct H3 as [-> ->]. eapply wp_switch_image; [exact Hc3|done|done|]. intros x. replace (top - 2 * PGSIZE) with base by (unfold top; lia). apply andb_true_r.
Qed.
Section File.
Context (path : list Z) (argv : list (list Z)).

(** What [namei] and [ilock] find at [path]: nothing, or the inode [ip] of a file with the contents [c]. *)
Definition opens (file : option (Z * list Z)) (opened : F -> Prop) (f : F) : Prop :=
  match file with
  | None => wp (f_begin_op ;;; ip <- f_namei path ;; f_end_op ;;; ret ip) (fun ip f' => ip = 0 /\ closed f') f
  | Some (ip, c) => serves ip c opened closed /\
      wp (f_begin_op ;;; ip' <- f_namei path ;; x_ilock ip' ;;; ret ip') (fun ip' f' => ip' = ip /\ opened f') f
  end.
Definition spec_file (file : option (Z * list Z)) : verdict :=
  match file with None => Refused | Some (_, c) => spec_exec room c argv end.

Hypotheses (Hdata : kdata mod PGSIZE = 0) (Hdr : KERNLINK < kdata < KERNBASE + PHYSTOP).

Lemma wp_bad_file ip c opened t : serves ip c opened closed -> opened (kfs t) -> same_table s t -> kmem t = kmem s ->
  wp (bad kend 0 ip) (outcome_of path Refused) t.
Proof using Hold.
  intros Hsv Hop [Ht _] Hm. unfold bad. rewrite (proj2 (Z.eqb_neq ip 0) (sv_ip _ _ _ _ Hsv)). simpl. apply wp_bind, wp_ret, wp_bind, wp_bind, wp_on_fs.
  pose proof (sv_close _ _ _ _ Hsv _ Hop) as Hcl. apply wp_bind_inv in Hcl. eapply wp_mono; [exact Hcl|]. intros u f Hf.
  apply wp_on_fs. eapply wp_mono; [exact Hf|]. intros u' f' Hf'. apply wp_ret. split; [done|]. split; [done|]. split; [done|]. simpl. rewrite Hm.
  split; [done|]. exists l0. split; [by apply (space_free_rep _ _ _ _ Hold)|done].
Qed.

(** A path that does not lead to a file. *)
Lemma wp_no_file opened : opens None opened (kfs s) -> wp (exec kend kdata junk me path argv) (outcome_of path Refused) s.
Proof using Hold.
  intros Ho. unfold exec. apply wp_bind_inv in Ho. apply wp_bind, wp_on_fs. eapply wp_mono; [exact Ho|]. intros u1 f1 H1.
  apply wp_bind_inv in H1. apply wp_bind, wp_on_fs. eapply wp_mono; [exact H1|]. intros ip f2 H2. apply wp_bind_inv in H2.
  apply wp_inv in H2 as (u & f3 & E & -> & Hcl). simpl Z.eqb. cbv iota. apply wp_bind, wp_on_fs, wp_inv. exists u, f3. split; [exact E|].
  apply wp_ret. split; [done|]. split; [done|]. split; [done|]. split; [done|]. exists l0. split; [by apply (space_free_rep _ _ _ _ Hold)|done].
Qed.

(** A file whose header is good. *)
Lemma wp_exec_loads ip c opened t : serves ip c opened closed -> opened (kfs t) -> same_table s t -> kmem t = kmem s -> Forall arg_ok argv ->
  forall n off entry, 0 <= off < 2 ^ 32 ->
  let v := match spec_segments room c n off 0 (fun _ => None) with
           | NotLoaded => Refused | Overruns => Unsafe | Loaded sz U => spec_image room argv entry sz U end in
  v <> Unsafe ->
  wp (pgdir <- on_mem (setupkvm kdata) ;; if pgdir =? 0 then bad kend 0 ip else
      o <- load_segments kend junk n pgdir ip off 0 ;;
      match o with
      | None => bad kend pgdir ip
      | Some sz => on_fs (x_iunlockput ip) ;;; on_fs f_end_op ;;; exec_image kend me path argv entry pgdir sz
      end) (outcome_of path v) t.
Proof using All.
  intros Hsv Hop Ht Hm Hargv n off entry Hoff v Hv. apply wp_bind, wp_on_mem. rewrite Hm.
  eapply wp_mono; [apply (child_start kend kdata (kmem s) l0 Hdata Hdr); [by apply (space_free_rep _ _ _ _ Hold)|lia]|].
  intros d k (Hd & l & Hc). rewrite (proj2 (Z.eqb_neq d 0) Hd). apply wp_bind. eapply wp_mono.
  { apply (wp_load_segments kend kdata junk (kmem s) l0 ip c opened closed Hsv Hkend room Hroom n (with_mem k t) d l off 0 _ Hc Hop Hoff); [unfold KERNBASE; lia|].
    intros E. unfold v in Hv. by rewrite E in Hv. }
  intros o t1 (Ht1 & Hop1 & sz & U & l1 & Hc1 & Hsz & H1). assert (same_table s t1) as Ht2 by (eapply same_table_trans; [|exact Ht1]; done).
  pose proof (sv_close _ _ _ _ Hsv _ Hop1) as Hcl. apply wp_bind_inv in Hcl. unfold v in *. clear v.
  destruct (spec_segments room c n off 0 _) as [sz1 U1| |]; [|subst o|done].
  - destruct H1 as (-> & -> & ->). apply wp_bind, wp_on_fs. eapply wp_mono; [exact Hcl|]. intros u f Hf.
    apply wp_bind, wp_on_fs. eapply wp_mono; [exact Hf|]. intros u' f' Hf'. by eapply wp_exec_image.
  - unfold bad. rewrite (proj2 (Z.eqb_neq d 0) Hd). rewrite (proj2 (Z.eqb_neq ip 0) (sv_ip _ _ _ _ Hsv)). cbn [negb]. cbv iota.
    apply wp_bind, wp_on_mem. eapply wp_mono; [by eapply child_free|]. intros [] k' (l' & H1 & H2 & H3).
    apply wp_bind, wp_bind, wp_on_fs. eapply wp_mono; [exact Hcl|]. intros u f Hf.
    apply wp_on_fs. eapply wp_mono; [exact Hf|]. intros u' f' Hf'. apply wp_ret. split; [done|]. split; [done|]. split; [apply Ht2|]. split; [done|]. by exists l'.
Qed.

(** Every case together. *)
Lemma wp_exec file opened : opens file opened (kfs s) -> Forall arg_ok argv -> spec_file file <> Unsafe ->
  wp (exec kend kdata junk me path argv) (outcome_of path (spec_file file)) s.
Proof using All.
  intros Ho Hargv Hspec. destruct file as [[ip c]|]; [|by eapply wp_no_file]. destruct Ho as [Hsv Ho].
  unfold exec. apply wp_bind_inv in Ho. apply wp_bind, wp_on_fs. eapply wp_mono; [exact Ho|]. intros u1 f1 H1.
  apply wp_bind_inv in H1. apply wp_bind, wp_on_fs. eapply wp_mono; [exact H1|]. intros ip' f2 H2.
  apply wp_bind_inv, wp_inv in H2 as (u & f3 & E & -> & Hop). rewrite (proj2 (Z.eqb_neq ip 0) (sv_ip _ _ _ _ Hsv)).
  apply wp_bind, wp_on_fs, wp_inv. exists u, f3. split; [exact E|].
  apply wp_bind, wp_on_fs. eapply wp_mono; [apply (sv_read _ _ _ _ Hsv); [exact Hop|lia|unfold SIZEOF_ELFHDR; lia]|].
  intros rv f4 [-> Hop4]. destruct (read_small ip c opened closed Hsv 0 SIZEOF_ELFHDR) as (r & got & Er & Hgl & Hgb & Hrn & Hgot);
    [lia|unfold SIZEOF_ELFHDR, PGSIZE; lia|lia|].
  pose proof (sv_len _ _ _ _ Hsv) as Hlen. pose proof (sv_bytes _ _ _ _ Hsv) as Hbytes.
  assert ((u32 r <? SIZEOF_ELFHDR) = (Z.of_nat (length c) <? SIZEOF_ELFHDR)) as Eu.
  { unfold read_of in Er. rewrite (proj2 (Z.leb_le 0 _)), (proj2 (Z.ltb_lt (0 + SIZEOF_ELFHDR) _)) in Er by (unfold SIZEOF_ELFHDR; lia).
    injection Er as <- _. unfold SIZEOF_ELFHDR. rewrite u32_small by lia. destruct (Z.ltb_spec (Z.of_nat (length c)) 52); [apply Z.ltb_lt|apply Z.ltb_ge]; lia. }
  rewrite Er, Eu. unfold spec_file, spec_exec in *. cbv zeta in *.
  destruct (Z.ltb_spec (Z.of_nat (length c)) SIZEOF_ELFHDR) as [|Hfull]; [by eapply wp_bad_file|].
  rewrite (Hgot ltac:(lia)), elfhdr_junk by (apply bslice_length; unfold SIZEOF_ELFHDR in *; lia).
  change (bslice (Z.to_nat 0) (Z.to_nat SIZEOF_ELFHDR) c) with (take (Z.to_nat SIZEOF_ELFHDR) c). set (elf := elfhdr_of _) in *.
  destruct (eh_magic elf =? ELF_MAGIC); cbn [negb] in *; cbv iota in *; [|by eapply wp_bad_file].
  eapply (wp_exec_loads ip c opened); try done. apply get32_range. by apply (bytes_ok_slice 0).
Qed.

(** C4. [exec] is the program loader that [spec_exec] specifies.  For a path without a file, a file that is no program, one
    that does not fit below the kernel, or arguments that do not fit on the stack page, [exec] returns -1, the process table
    and every page in use are as before and the free pages are the ones that were free.  Otherwise it returns 0 and the process has a new
    image: every byte of user memory is what the segments, the zeroes behind them, and the stack with the arguments
    say, all of it is accessible to the user but the guard page, the kernel is mapped as always, the trap frame starts the program at its
    entry with that stack and is otherwise as before, the name is the last element of the path, every page of the old image
    that the new one does not use is free, and no other page and no other process has changed.  In both cases the inode is released and the transaction
    ended.  The assumptions: the process has an address space and a trap frame in a page apart; the arguments are byte strings of less
    than 2^24 bytes; there are 65 + 2 pages(room) free pages, enough for the kernel part and for an image of [room] bytes with its tables; and the
    verdict is not [Unsafe], which means that every segment reached starts at a page boundary and does not wrap around
    2^32, and that each segment below the kernel, and the image with its stack, end within [room].  Nothing is claimed of other files: the code
    panics on an unaligned segment, may write over the kernel on one that wraps around, and loses the pages of the
    kernel part when it runs out of memory there. *)
Theorem exec_refines file opened : opens file opened (kfs s) -> Forall arg_ok argv -> spec_file file <> Unsafe ->
  wp (exec kend kdata junk me path argv) (outcome_of path (spec_file file)) s.
Proof using All. apply wp_exec. Qed.
End File.
End Exec.
