(* ===== verification/ExecFs.v ===== *)
(** * [exec] on the file system

    fs.c over log.c is a file layer for [exec]: an inode that is locked in a transaction serves the bytes
    of its file, and giving it up and ending the transaction succeeds.  So [exec] loads the bytes that are on the disk. *)

From S2P Require Import Prelude Buf Bio Log Blocks Kalloc Vm Uvm UvmGrow Proc Syscall Exec ExecMem ExecLoad ExecStack ExecOk Ide Fs Balloc Inode FileData FsRuns.

Section FileLayer.
Context {D : Type} `{BD : BlockDevice D}.
Abbreviation fs := (fsys (S := bst D)).
Implicit Type (s : fs) (a : cache).
Variable dev_read : Z -> option (Z -> Z -> M fs (Z * list Z)).
Variable junk_name : list Z.
(** The table of open files, which [exec] does not use. *)
Variables (fdup : Z -> M fs Z) (fclose : Z -> M fs unit).

(** A pointer to an entry of the inode cache: its index and one. *)
#[local] Instance fs_files : Files fs := {|
  f_filedup := fdup; f_fileclose := fclose;
  f_idup := fun ip => idup (ip - 1) ;;; ret ip; f_iput := fun ip => iput (ip - 1);
  f_begin_op := on_blk Log.begin_op; f_end_op := on_blk Log.end_op;
  f_namei := fun path => ip <- namei dev_read junk_name path ;; ret (ip + 1) |}.
#[local] Instance fs_inodes : Inodes fs := {|
  x_ilock := fun ip => ilock (ip - 1); x_readi := fun ip off n => readi dev_read (ip - 1) off n;
  x_iunlockput := fun ip => iunlockput (ip - 1) |}.

Variables (e : benv) (pi : Z) (part : partition).
Abbreviation dev := (be_dev e).
Abbreviation V a := (c_view a dev).

(** ** The end of a transaction that has written nothing of its own *)

Lemma wp_end_trans b a : in_trans e b a -> calm a -> (size (c_pinned a) < Z.to_nat NBUF)%nat -> wp Log.end_op (fun _ _ => True) b.
Proof.
  intros [Hr Hw Ho Hp Hd Hk Hc Hi] [Hh Ht] Hn. rewrite Hp, (home_keys_count _ _ Hw) in Hn. destruct (decide (log_outstanding (st_log b) = 1)) as [E1|E1].
  - eapply wp_mono; [eapply (wp_end_op_last b (c_view a)); try done|done].
    + eapply cache_rep_proper; [|exact Hr]. destruct a as [v h t P]. simpl in *. by subst h t P.
    + pose proof (wf_n _ _ Hw). lia.
  - unfold end_op. apply wp_bind, wp_gets. apply wp_bind, wp_modify. rewrite Hi. simpl negb. cbv iota.
    rewrite (proj2 (Z.eqb_neq _ _)) by lia. by apply wp_ret.
Qed.

(** ** The locked inode *)

Context (s1 : fs) (a : cache) (ip : Z) (x : inode).
Hypotheses (Hrep : k_rep e (f_blk s1) a) (He : entry_is s1 ip x) (Hpi : i_prt x = pi) (Hon : on_part e pi part s1) (Hready : alloc_ready e part a) (Hcalm : calm a)
  (Hwf : file_wf (used e part a) (V a) (i_di x)) (Hty : di_type (i_di x) <> T_DEV)
  (Hcap : (size (c_pinned a) + 4 < be_cap e)%nat) (Hbuf : (size (c_pinned a) + 4 < Z.to_nat NBUF)%nat)
  (Hflags : i_flags x = Z.lor I_BUSY I_VALID) (Href : 1 <= i_ref x) (Hlink : i_ref x = 1 -> di_nlink (i_di x) <> 0).

Definition ip_opened (f : fs) : Prop := moved e s1 a f.
Definition ip_closed (f : fs) : Prop := exists b, f = with_blk b (set_entry ip (set_ref (i_ref x - 1) (set_iflags I_VALID x)) s1).

Lemma wp_close f : ip_opened f -> wp (iunlockput ip ;;; on_blk Log.end_op) (fun _ f' => ip_closed f') f.
Proof.
  intros Hm. pose proof He as [H0 _]. unfold iunlockput, iunlock, iput. apply wp_bind, wp_bind.
  assert ((ip =? NULLP) = false) as -> by (apply Z.eqb_neq; unfold NULLP; lia).
  eapply wp_get_inode; [done..|]. rewrite Hflags. change (has_flag (Z.lor I_BUSY I_VALID) I_BUSY) with true. cbn [negb orb].
  destruct (Z.ltb_spec (i_ref x) 1); [lia|]. eapply wp_upd_inode_last; [done..|]. intros f1 Hm1. rewrite Hflags in Hm1.
  change (Z.land (Z.lor I_BUSY I_VALID) (Z.lnot I_BUSY)) with I_VALID in Hm1. set (y := set_iflags I_VALID x) in *.
  pose proof (entry_set _ _ _ y He) as He1. eapply wp_get_inode; [done..|]. apply wp_bind.
  replace ((i_ref y =? 1) && has_flag (i_flags y) I_VALID && (di_nlink (i_di y) =? 0)) with false.
  2: { symmetry. destruct (Z.eqb_spec (i_ref y) 1) as [E|]; [|done]. simpl in E. specialize (Hlink E). cbn [andb].
       change (has_flag (i_flags y) I_VALID) with true. cbn [andb]. by apply Z.eqb_neq. }
  apply wp_ret. eapply wp_upd_inode_last; [done..|]. intros f2 Hm2. rewrite set_entry_twice in Hm2.
  destruct Hm2 as (b & -> & Hb). apply wp_lift. eapply wp_mono; [eapply wp_end_trans; [exact Hb|done|lia]|]. intros [] b' _. by exists b'.
Qed.

Lemma file_layer : serves (ip + 1) (file_bytes (V a) (i_di x)) ip_opened ip_closed.
Proof using All.
  pose proof (fw_size _ _ _ Hwf) as Hsz. rewrite MAXFILE_val in Hsz. unfold BSIZE in Hsz. pose proof He as [H0 _]. split.
  - lia.
  - rewrite bytes_length by lia. lia.
  - apply Forall_forall. intros c Hc. apply list_elem_of_fmap in Hc as (q & -> & _). unfold content. destruct (_ =? 0); [unfold is_byte; lia|].
    destruct (k_view_ok e (f_blk s1) a dev (iaddr (V a) (i_di x) (q / BSIZE)) Hrep) as [_ Hb]. rewrite nth_lookup.
    destruct (_ !! _) eqn:E; [|unfold is_byte; simpl; lia]. by apply (Forall_lookup_1 _ _ _ _ Hb E).
  - intros f off n Hm Hoff Hn. unfold x_readi, fs_inodes. replace (ip + 1 - 1) with ip by lia. pose proof Hm as (b & Ef & Hb).
    eapply wp_mono; [apply (wp_readi e pi part dev_read f a ip x off n); try done|].
    + by rewrite Ef.
    + by rewrite Ef.
    + by rewrite Ef.
    + intros rv f' [Hm' ->]. split; [|by eapply moved_trans]. unfold read_of. by rewrite bytes_length, Z2Nat.id by lia.
  - intros f Hm. unfold x_iunlockput, fs_inodes, f_end_op, fs_files. replace (ip + 1 - 1) with ip by lia. by apply wp_close.
Qed.

(** C21. The file system is the file layer that [exec] relies on: in a transaction, an inode that is locked, is on a mounted partition
    and is no device delivers the bytes of its file for every read that [exec] makes, with the results of a short read and of
    an offset that is out of range as specified, and changes nothing that a client can see; [iunlockput] and
    [end_op] then unlock the inode, drop one reference, and end the transaction without a panic. *)
Theorem fs_serves : serves (ip + 1) (file_bytes (V a) (i_di x)) ip_opened ip_closed.
Proof using All. apply file_layer. Qed.

(** With the theorem on [exec]: what is executed is what is on the disk. *)
Lemma exec_on_disk kend kdata junk (st : pst (F := fs)) l0 me p room path argv :
  KERNBASE < kend -> kdata mod PGSIZE = 0 -> KERNLINK < kdata < KERNBASE + PHYSTOP ->
  procs st !! me = Some p -> space kend (kmem st) (pgdir p) l0 -> (65 + 2 * pages_upto room <= length l0)%nat ->
  0 <= tf p /\ tf p mod PGSIZE + SIZEOF_TRAPFRAME <= PGSIZE ->
  is_Some (pages (kmem st) !! page_base (tf p)) /\ alien (pages (kmem st)) (pgdir p) l0 (page_base (tf p)) ->
  wp (f_begin_op ;;; ip' <- f_namei path ;; x_ilock ip' ;;; ret ip') (fun ip' f => ip' = ip + 1 /\ ip_opened f) (kfs st) ->
  Forall arg_ok argv -> spec_exec room (file_bytes (V a) (i_di x)) argv <> Unsafe ->
  wp (exec kend kdata junk me path argv)
    (outcome_of kend kdata st l0 me p ip_closed path (spec_exec room (file_bytes (V a) (i_di x)) argv)) st.
Proof using All.
  intros Hk Hd Hdr Hme Hs Hroom Htf HK Ho Hargv Hspec.
  apply (wp_exec kend kdata junk Hk st l0 me p room ip_closed Hme Hs Hroom Htf HK path argv Hd Hdr (Some (ip + 1, file_bytes (V a) (i_di x))) ip_opened); try done.
  split; [apply file_layer|exact Ho].
Qed.
End FileLayer.

(** The file of the small file system, locked. *)
Definition locked_file : inode := set_iflags (Z.lor I_BUSY I_VALID) file_ino.
Definition fs_locked : fsys (S := bst MemIde.memide) := set_entry 0 locked_file fs0.
Lemma fs_serves_witness : @serves _ (fs_files (fun _ => None) [] (fun f => ret f) (fun _ => ret tt)) (fs_inodes (fun _ => None))
  1 (replicate 512 1 ++ replicate 88 2) (ip_opened env0 fs_locked view0) (ip_closed fs_locked 0 locked_file).
Proof.
  replace (replicate 512 1 ++ replicate 88 2) with (file_bytes (c_view view0 1) (i_di locked_file)) by (vm_compute; reflexivity).
  apply (fs_serves (fun _ => None) [] (fun f => ret f) (fun _ => ret tt) env0 0 part0 fs_locked view0 0 locked_file).
  - exact fs0_rep.
  - apply (entry_set fs0 0 file_ino), fs0_entry.
  - reflexivity.
  - exact fs0_part.
  - exact fs0_ready.
  - exact fs0_calm.
  - exact file_ok.
  - discriminate.
  - vm_compute. lia.
  - vm_compute. lia.
  - reflexivity.
  - simpl. lia.
  - intros _. discriminate.
Defined.
