(* ===== verification/Sysproc.v ===== *)
(** * Process system calls: sysproc.c, and the clock of trap.c

    The memory of a process under [growproc] and [sbrk]; the handlers of sysproc.c; sleeping for a number of clock
    ticks. *)

From S2P Require Import Prelude Kalloc Vm Uvm UvmGrow UvmWrite Proc Syscall Exec ExecMem ExecLoad.

(** ** The memory of a process that grows or shrinks *)

Section Memory.
Variable kend : Z.

(** The pages below [sz], and only those, have a frame. *)
Definition exact (m : gmap Z (list Z)) (d sz : Z) : Prop := forall x, user x -> frame_at m d x <> None <-> within 0 sz x.

(** From the memory [k] with the free pages [l], the address space [d] gets the size [sz] and the contents [U]; the pages are
    those it had and the free ones, but for the lost ones. *)
Definition becomes (k : kst) (d : Z) (l : list Z) (sz : Z) (U : Z -> option Z) (lost : list Z) (k' : kst) : Prop :=
  exists l', space kend k' d l' /\ exact (pages k') d sz /\ (forall x, user x -> umem (pages k') d x = U x) /\
    (forall v, own (pages k') d v \/ v ∈ l' \/ v ∈ lost <-> own (pages k) d v \/ v ∈ l) /\
    (forall v, alien (pages k) d l v -> pages k' !! v = pages k !! v).

Lemma space_grown k d l sz hi lost l' k' : space kend k d l -> exact (pages k) d sz -> 0 <= sz <= hi -> hi < KERNBASE ->
  range_added kend zeroed k d l (PGROUNDUP sz) hi lost l' k' -> becomes k d l hi (extend (umem (pages k) d) sz hi) lost k'.
Proof.
  intros Hs He Hsz Hhi Hz. pose proof Hz as [Z1 Z2 Z3 Z4 Z5 Z6 Z7 Z8 Z9]. exists l'. split_and!; try done.
  - intros x Hx. destruct (within_grow sz hi x) as [Hg _]; [done..|]. rewrite Hg. destruct (decide (within (PGROUNDUP sz) hi x)) as [Hw|Hw].
    + destruct (rz_frame _ _ _ _ _ _ _ _ _ _ x Hz Hx Hw) as [f ->]. split; [by right|done].
    + destruct (rz_old _ _ _ _ _ _ _ _ _ _ x Hs Hz Hx Hw) as [-> _]. rewrite (He x Hx). clear - Hw. tauto.
  - intros x Hx. unfold extend. case_decide as Hw.
    + destruct (Z2 x Hx Hw) as (p & Hp & -> & _). unfold umem. rewrite Hp. simpl. apply lookup_replicate_2. unfold PGSIZE. zlia.
    + destruct (rz_old _ _ _ _ _ _ _ _ _ _ x Hs Hz Hx Hw) as [_ E]. unfold umem. by rewrite E.
  - intros v [Hv1 Hv2]. apply Z9; [done| |].
    + intros ->. apply Hv2, own_dir.
    + intros i Hi E. apply Hv2. by eapply own_table.
Qed.

Lemma restored k d l sz lo hi lost l' k' : exact (pages k) d sz ->
  undone kend k d l lo hi lost l' k' -> becomes k d l sz (umem (pages k) d) lost k'.
Proof.
  intros He [U1 U2 U3 U4 U5]. exists l'. split_and!; try done.
  - intros x Hx. destruct (U3 x Hx) as [-> _]. by apply He.
  - intros x Hx. destruct (U3 x Hx) as [_ E]. unfold umem. by rewrite E.
Qed.

Lemma shrunk k d l sz new l' k' : space kend k d l -> exact (pages k) d sz -> 0 <= new < sz -> sz < KERNBASE ->
  range_freed kend k d l (PGROUNDUP new) sz l' k' ->
  becomes k d l new (fun x => if decide (within 0 new x) then umem (pages k) d x else None) [] k'.
Proof.
  intros Hs He Hn Hsz Hf. pose proof Hf as [F1 F2 F3 F4 F5 F6].
  assert (forall x, user x -> (within 0 sz x <-> within 0 new x \/ within (PGROUNDUP new) sz x) /\ ~ (within 0 new x /\ within (PGROUNDUP new) sz x)) as Hg.
  { intros x Hx. apply within_grow; [lia|done|done]. }
  assert (forall x, user x -> ~ within (PGROUNDUP new) sz x -> frame_at (pages k') d x = frame_at (pages k) d x) as Ef.
  { intros x Hx Hw. apply frame_same, F3; [by apply user_word|done]. }
  exists l'. split_and!; try done.
  - intros x Hx. destruct (Hg x Hx) as [Hg1 Hg2]. destruct (decide (within (PGROUNDUP new) sz x)) as [Hw|Hw].
    + rewrite F4 by done. clear - Hw Hg2. tauto.
    + rewrite Ef by done. rewrite (He x Hx), Hg1. clear - Hw. tauto.
  - intros x Hx. destruct (Hg x Hx) as [Hg1 Hg2]. unfold umem, upage. case_decide as Hw.
    + assert (~ within (PGROUNDUP new) sz x) as Hnw by (clear - Hw Hg2; tauto). rewrite Ef by done.
      destruct (frame_at (pages k) d x) as [f|] eqn:E; [|done]. simpl. f_equal. destruct (sp_frame _ _ _ _ Hs x f Hx E) as (_ & _ & G1 & G2 & G3).
      apply F6; try done. intros y Hy Wy Ey. pose proof (sp_inj _ _ _ _ Hs x y f Hx Hy E Ey) as Exy. apply Hnw. unfold within in *. by rewrite Exy.
    + destruct (decide (within (PGROUNDUP new) sz x)) as [W|W]; [by rewrite F4|]. rewrite Ef by done.
      destruct (frame_at (pages k) d x) eqn:E; [|done]. exfalso. assert (within 0 sz x) by (apply He; [done|by rewrite E]). clear - Hw W Hg1 H. tauto.
  - intros v. rewrite elem_of_nil, F5. split.
    + intros [Ho|[[Hl|(x & Hx & _ & E)]|[]]]; [|by right|left; by eapply own_frame]. left. destruct Ho as [|i t Hi E|x f Hx E].
      * apply own_dir.
      * rewrite F2 in E by done. by eapply own_table.
      * destruct (decide (within (PGROUNDUP new) sz x)) as [W|W]; [by rewrite F4 in E|]. rewrite Ef in E by done. by eapply own_frame.
    + intros [Ho|Hl]; [|by right; left; left]. destruct Ho as [|i t Hi E|x f Hx E].
      * left. apply own_dir.
      * left. rewrite <- F2 in E by done. by eapply own_table.
      * destruct (decide (within (PGROUNDUP new) sz x)) as [W|W]; [right; left; right; by exists x|].
        rewrite <- Ef in E by done. left. by eapply own_frame.
  - intros v [Hv1 Hv2]. apply F6; [done|intros ->; apply Hv2, own_dir| |].
    + intros i Hi E. apply Hv2. by eapply own_table.
    + intros x Hx _ E. apply Hv2. by eapply own_frame.
Qed.

Lemma becomes_refl k d l sz : space kend k d l -> exact (pages k) d sz -> becomes k d l sz (umem (pages k) d) [] k.
Proof. intros Hs He. exists l. split_and!; try done. intros v. rewrite elem_of_nil. tauto. Qed.

(** A process whose pages are exactly those below its size: [deallocuvm] finds a table where it starts. *)
Lemma exact_no_skip k d sz new : exact (pages k) d sz -> 0 <= new < sz -> sz < KERNBASE -> no_skip (pages k) d (PGROUNDUP new) sz.
Proof.
  intros He Hn Hsz. destruct (round_up new) as [H1 H2]; [lia|unfold KERNBASE, PGSIZE in *; lia|]. set (a := PGROUNDUP new) in *.
  right. destruct (decide (a < sz)) as [Hlt|Hge]; [left|right].
  - assert (user a) as Hu by (unfold user; lia). intros Et. apply (proj2 (He a Hu)).
    + unfold within, PGSIZE in *. zlia.
    + apply frame_none_P. unfold pte_at. by rewrite Et.
  - intros x Hx [W1 W2]. unfold PGSIZE in *. zlia.
Qed.
End Memory.

(** ** [growproc] *)

Section Grow.
Context {F : Type} `{HF : Files F}.
Variable kend : Z.
Hypothesis Hkend : KERNBASE < kend.
Abbreviation pst := (pst (F := F)).

(** The process [me] gets the size [new]; nothing of another process changes. *)
Definition resized (s : pst) (me : nat) (p : proc) (new : Z) (s' : pst) : Prop :=
  procs s' = <[me := set_sz new p]> (procs s) /\ nextpid s' = nextpid s /\ initproc s' = initproc s /\ kfs s' = kfs s.

Lemma with_mem_same (s : pst) : with_mem (kmem s) s = s.
Proof. by destruct s. Qed.
Lemma wp_resize s me p k r : procs s !! me = Some p -> pgdir p <> 0 ->
  wp (set_proc me (set_sz r) ;;; switchuvm me ;;; ret 0) (fun v s' => v = 0 /\ resized s me p r s' /\ kmem s' = k) (with_mem k s).
Proof.
  intros Hp Hd. apply wp_bind. eapply wp_set_proc; [exact Hp|]. unfold switchuvm. apply wp_bind, wp_bind.
  eapply wp_get_proc; [by apply procs_upd|]. change (pgdir _ =? 0) with (pgdir p =? 0). rewrite (proj2 (Z.eqb_neq _ _) Hd).
  apply wp_ret, wp_ret. split; [done|]. split; [|done]. split; [|done]. simpl. rewrite list_insert_alter.
  apply list_alter_ext; [|done]. intros q Eq. rewrite Hp in Eq. by injection Eq as <-.
Qed.

(** C12. [growproc], the memory of a process under [sbrk], for a process whose pages are exactly those below its size.  A positive number below
    the kernel's base, with the free pages it takes, makes the process larger by zeroed memory; a negative
    one that leaves a positive size makes it smaller and its pages free; the bytes that remain are as they were, and so is
    every page of others.  A size that would reach the kernel is refused without a change.  Without enough memory the call
    fails and gives back what it took but for a page at most, or, when only the table of the last page is missing, reports
    success for memory that is not mapped.  Shrinking to nothing frees all the memory but is reported as a
    failure with the old size kept; shrinking by more than there is is reported as a success. *)
Theorem growproc_sizes s me p l n :
  procs s !! me = Some p -> space kend (kmem s) (pgdir p) l -> exact (pages (kmem s)) (pgdir p) (sz p) ->
  0 < sz p < KERNBASE -> - 2 ^ 31 <= n < 2 ^ 31 ->
  wp (growproc kend me n) (fun r s' =>
    let k := kmem s in let k' := kmem s' in let d := pgdir p in let new := sz p + n in let U := umem (pages k) d in
    if decide (0 < n) then
      if decide (KERNBASE <= new) then r = -1 /\ s' = s
      else if decide (need (pages k) d (PGROUNDUP (sz p)) (new_pages (sz p) new) <= length l)%nat then
        r = 0 /\ resized s me p new s' /\ becomes kend k d l new (extend U (sz p) new) [] k'
      else
        r = -1 /\ s' = with_mem k' s /\ (exists lost, (length lost <= 1)%nat /\ becomes kend k d l (sz p) U lost k') \/
        r = 0 /\ resized s me p new s' /\ exists a v, sz p <= a < new /\ new <= a + PGSIZE /\ becomes kend k d l a (extend U (sz p) a) [v] k'
    else if decide (n = 0 \/ new < 0) then r = 0 /\ resized s me p (sz p) s' /\ k' = k
    else
      becomes kend k d l new (fun x => if decide (within 0 new x) then U x else None) [] k' /\
      if decide (new = 0) then r = -1 /\ s' = with_mem k' s else r = 0 /\ resized s me p new s') s.
Proof using Hkend.
  intros Hp Hs He Hsz Hn. unfold growproc. apply wp_bind. eapply wp_get_proc; [exact Hp|]. cbv zeta.
  assert (pgdir p <> 0) as Hd by (eapply page_aligned_nonzero, (sp_dir _ _ _ _ Hs)). unfold KERNBASE in Hsz.
  destruct (decide (0 < n)) as [Hpos|Hneg].
  - rewrite (proj2 (Z.gtb_lt n 0)), u32_small, (proj2 (Z.eqb_neq n 0)) by lia. cbn [negb andb]. apply wp_bind, wp_on_mem.
    case_decide as Hbig.
    { unfold allocuvm. rewrite (proj2 (Z.geb_le _ _)) by lia. apply wp_ret. simpl Z.eqb. cbv iota. apply wp_ret. split; [done|]. by destruct s. }
    eapply wp_mono; [apply (wp_allocuvm kend Hkend (kmem s) (pgdir p) l (sz p) (sz p + n)); [done|lia|unfold KERNBASE in *; lia|]|].
    { intros x Hx Hw. destruct (frame_at _ _ x) eqn:E; [|done]. destruct (within_grow (sz p) (sz p + n) x) as [_ H]; [lia|lia|done|].
      exfalso. apply H. split; [|done]. apply He; [done|]. by rewrite E. }
    cbv zeta. intros r k' [(-> & l' & Hz & El)|[Hlt Hfail]].
    + rewrite (proj2 (Z.eqb_neq (sz p + n) 0)) by lia. eapply wp_mono; [by eapply wp_resize|]. intros v s' (-> & Hr & ->).
      rewrite decide_True by lia. split; [done|]. split; [done|]. eapply space_grown; try done; lia.
    + case_decide; [lia|]. destruct Hfail as [[-> (lost & l' & Hlost & Hun)]|[-> (a & v & Ha & Ha2 & Hz)]].
      * simpl Z.eqb. cbv iota. apply wp_ret. left. split; [done|]. split; [done|]. exists lost. split; [done|]. by eapply restored.
      * rewrite (proj2 (Z.eqb_neq (sz p + n) 0)) by lia. eapply wp_mono; [by eapply wp_resize|]. intros u s' (-> & Hr & ->).
        right. split; [done|]. split; [done|]. destruct (round_up (sz p)) as [R1 R2]; [lia|unfold PGSIZE; lia|].
        exists a, v. split; [lia|]. split; [done|]. eapply space_grown; try done; lia.
  - rewrite (Z.gtb_ltb n 0), (proj2 (Z.ltb_ge 0 n)) by lia. destruct (decide (n = 0)) as [->|Hnz].
    { simpl Z.ltb. cbv iota. apply wp_bind, wp_ret. cbn [negb andb]. case_decide as H0; [|by destruct H0; left].
      pose proof (wp_resize s me p (kmem s) (sz p) Hp Hd) as H. by rewrite with_mem_same in H. }
    rewrite (proj2 (Z.ltb_lt n 0)) by lia. rewrite (proj2 (Z.eqb_neq n 0)) by done. cbn [negb andb]. apply wp_bind, wp_on_mem.
    destruct (decide (sz p + n < 0)) as [Hwrap|Hok].
    + case_decide as H0; [|by destruct H0; right]. unfold deallocuvm. assert (u32 (sz p + n) = sz p + n + 2 ^ 32) as -> by (unfold u32; zlia).
      rewrite (proj2 (Z.geb_le _ _)) by lia. apply wp_ret. rewrite (proj2 (Z.eqb_neq (sz p) 0)) by lia. by eapply wp_resize.
    + case_decide as H0; [destruct H0; lia|]. rewrite u32_small by lia.
      eapply wp_mono; [apply (wp_deallocuvm kend Hkend (kmem s) (pgdir p) l (sz p) (sz p + n)); [done|lia|unfold PGSIZE; lia|unfold KERNBASE; lia|]|].
      { apply exact_no_skip; [done|lia|unfold KERNBASE; lia]. }
      intros r k' [-> (l' & Hf)]. rewrite Z.min_r by lia. eapply shrunk in Hf; [|done|done|lia|unfold KERNBASE; lia].
      destruct (Z.eqb_spec (sz p + n) 0) as [E|E].
      * apply wp_ret. rewrite decide_True by done. done.
      * eapply wp_mono; [by eapply wp_resize|]. intros v s' (-> & Hr & ->). by rewrite decide_False.
Qed.
End Grow.

(** ** The handlers *)

Section Calls.
Context {F : Type} `{HF : Files F}.
Variables kend kdata ptab trapret forkret : Z.
(** [&ticks] *)
Variable tchan : Z.
Abbreviation pst := (pst (F := F)).

Record tst := mkT { tp : pst; ticks : Z }.
Definition on_proc {A} : M pst A -> M tst A := lift tp (fun p t => mkT p (ticks t)).

Definition sys_fork (me : nat) : M pst Z := fork kend kdata trapret forkret me.
(** [exit] does not come back. *)
Definition sys_exit (me : nat) : M pst unit := exit ptab me.
(** One round of the loop of [wait]. *)
Definition sys_wait (me : nat) : M pst (option Z) := wait_round kend ptab me.
Definition sys_kill (u : uproc) : M pst Z :=
  o <- from_user (argint 0) u ;; match o with None => ret (-1) | Some n => kill n end.
Definition sys_getpid (me : nat) : M pst Z := p <- get_proc me ;; ret (pid p).
Definition sys_sbrk (me : nat) (u : uproc) : M pst Z :=
  o <- from_user (argint 0) u ;;
  match o with
  | None => ret (-1)
  | Some n =>
      p <- get_proc me ;;
      let addr := s32 (sz p) in
      r <- growproc kend me n ;;
      if r <? 0 then ret (-1) else ret addr
  end.

(** One test of [while(ticks - ticks0 < n)]; [None]: the process went to sleep. *)
Definition sleep_test (me : nat) (n ticks0 : Z) : M tst (option Z) :=
  t <- gets ticks ;;
  if u32 (t - ticks0) <? u32 n then
    p <- on_proc (get_proc me) ;;
    if negb (killed p =? 0) then ret (Some (-1))
    else on_proc (sleep_start me tchan) ;;; ret None
  else ret (Some 0).
Definition sys_sleep (me : nat) (u : uproc) : M tst (option Z) :=
  o <- from_user (argint 0) u ;;
  match o with
  | None => ret (Some (-1))
  | Some n => ticks0 <- gets ticks ;; sleep_test me n ticks0
  end.
Definition sys_uptime : M tst Z := t <- gets ticks ;; ret (s32 t).

(** The timer interrupt on the first CPU. *)
Definition clock : M tst unit :=
  modify (fun t => mkT (tp t) (u32 (ticks t + 1))) ;;; on_proc (wakeup tchan).

(** [sys_sleep] from a test on: when it sleeps, a tick comes and the scheduler resumes it. *)
Fixpoint sleep_run (fuel : nat) (me : nat) (n ticks0 : Z) : M tst Z :=
  match fuel with
  | O => nofuel
  | S fuel' =>
      o <- sleep_test me n ticks0 ;;
      match o with
      | Some r => ret r
      | None =>
          clock ;;;
          p <- on_proc (get_proc me) ;;
          if bool_decide (state p = RUNNABLE) then
            on_proc (set_proc me (set_state RUNNING) ;;; sleep_end me) ;;; sleep_run fuel' me n ticks0
          else sleep_on "ticks"
      end
  end.

(** A process that sleeps on the clock is runnable after a tick. *)
Lemma wp_tick me q s : procs (tp s) !! me = Some q -> 
  wp (on_proc (sleep_start me tchan) ;;; clock) (fun _ s' => ticks s' = u32 (ticks s + 1) /\
    exists q', procs (tp s') !! me = Some q' /\ killed q' = killed q /\ state q' = RUNNABLE) s.
Proof.
  intros Hq. apply wp_bind, wp_lift. unfold sleep_start. apply wp_bind. eapply wp_set_proc; [exact Hq|].
  eapply wp_set_proc; [by apply procs_upd|]. unfold clock. apply wp_bind, wp_modify, wp_lift, wp_modify. split; [done|].
  simpl. rewrite list_lookup_fmap, !list_lookup_alter_eq, Hq. simpl. rewrite Z.eqb_refl. simpl. by eexists.
Qed.

Lemma wp_sleep_run k : forall fuel me q n t0 s, (k < fuel)%nat -> 0 <= t0 < 2 ^ 32 -> Z.of_nat k <= u32 n ->
  ticks s = u32 (t0 + (u32 n - Z.of_nat k)) -> procs (tp s) !! me = Some q -> killed q = 0 ->
  wp (sleep_run fuel me n t0) (fun r s' => r = 0 /\ ticks s' = u32 (t0 + n)) s.
Proof.
  induction k as [|k IH]; intros fuel me q n t0 s Hfu Ht0 Hk Ht Hq Hkl; (destruct fuel as [|fuel]; [lia|]); cbn [sleep_run]; unfold sleep_test at 1;
    pose proof (u32_range n) as Hr; apply wp_bind, wp_bind, wp_gets; rewrite Ht;
    assert (forall j, 0 <= j < 2 ^ 32 -> u32 (u32 (t0 + j) - t0) = j) as Hj by (intros j Hj; unfold u32; zlia); rewrite Hj by lia.
  - rewrite (proj2 (Z.ltb_ge _ _)) by lia. apply wp_ret, wp_ret. split; [done|]. rewrite Ht. unfold u32. zlia.
  - rewrite (proj2 (Z.ltb_lt _ _)) by lia. apply wp_bind, wp_lift. eapply wp_get_proc; [exact Hq|]. rewrite Hkl. cbn [negb Z.eqb].
    replace (mkT (tp s) (ticks s)) with s by (by destruct s).
    pose proof (wp_tick me q s Hq) as Htick. apply wp_inv in Htick as (u & s1 & E & Ht1 & q1 & Hq1 & Hk1 & Hs1).
    unfold bind in E. destruct (on_proc (sleep_start me tchan) s) as [[] s2| | | |] eqn:E2; try done.
    apply wp_bind. unfold wp at 1. rewrite E2. apply wp_ret, wp_bind. unfold wp at 1. rewrite E.
    apply wp_bind, wp_lift. eapply wp_get_proc; [exact Hq1|]. rewrite Hs1. rewrite bool_decide_eq_true_2 by done.
    apply wp_bind, wp_lift, wp_bind. eapply wp_set_proc; [exact Hq1|]. eapply wp_set_proc; [by apply procs_upd|].
    eapply (IH fuel me); [lia|done|lia| |apply procs_upd, procs_upd; exact Hq1|simpl; by rewrite Hk1].
    simpl. rewrite Ht1, Ht. unfold u32. zlia.
Qed.

(** C32. A process that sleeps for [n] ticks and is not killed is woken by every tick and returns from [sleep] with 0 at the first one
    at which [n] have passed, also when the counter wraps around in between; a negative [n] counts as the large
    unsigned number. *)
Theorem sleep_ticks me p n s :
  procs (tp s) !! me = Some p -> killed p = 0 -> 0 <= ticks s < 2 ^ 32 ->
  wp (sleep_run (S (Z.to_nat (u32 n))) me n (ticks s)) (fun r s' => r = 0 /\ ticks s' = u32 (ticks s + n)) s.
Proof.
  intros Hp Hkl Ht. pose proof (u32_range n). eapply (wp_sleep_run (Z.to_nat (u32 n))); [lia|done|lia| |done|done].
  rewrite Z2Nat.id by lia. rewrite u32_small; lia.
Qed.
End Calls.

#[local] Instance no_file_calls : Files unit := {|
  f_filedup := fun f => ret f; f_fileclose := fun _ => ret tt; f_idup := fun i => ret i; f_iput := fun _ => ret tt;
  f_begin_op := ret tt; f_end_op := ret tt; f_namei := fun _ => ret 1 |}.
Definition clock0 : tst (F := unit) :=
  mkT (mkP [mkProc 4096 0 0 RUNNING 1 None 0 0 0 0 (replicate 16 0) 0 (replicate 16 0)] 2 (Some 0%nat) (mkK ∅ 0) tt) 4294967294.
(** Five ticks across the end of the counter. *)
Lemma sleep_ticks_witness : exists s', sleep_run 0x80115000 6 0 5 4294967294 clock0 = Done 0 s' /\ ticks s' = 3.
Proof.
  assert (exists p, procs (tp clock0) !! 0%nat = Some p /\ killed p = 0) as (p & Hp & Hk) by (by eexists).
  pose proof (sleep_ticks 0x80115000 0 p 5 clock0 Hp Hk ltac:(simpl; lia)) as H.
  change (S (Z.to_nat (u32 5))) with 6%nat in H. change (ticks clock0) with 4294967294 in H.
  destruct (proj1 (wp_inv _ _ _) H) as (r & s' & E & -> & Ht). exists s'. split; [exact E|]. rewrite Ht. reflexivity.
Defined.
