(* ===== verification/MemRuns.v ===== *)
(** * Address spaces on a small machine

    Memory as [kinit2] leaves it, a process with two pages and a kernel stack, and the theorems on
    [copyuvm] and [exec] for this process. *)

From S2P Require Import Prelude Kalloc Vm Uvm UvmGrow Kvm UvmCopy UvmWrite Proc Syscall Exec ExecMem ExecLoad ExecStack ExecOk Sysproc.

(** ** A machine with 256 pages behind the kernel *)

Definition mend : Z := 0x80400000.
Definition mdata : Z := 0x80108000.
Definition ram (n : nat) : gmap Z (list Z) := foldr (fun v m => <[v := page_of 0]> m) ∅ (page_list n mend).
Lemma ram_at n v : v ∈ page_list n mend -> is_Some (ram n !! v).
Proof.
  unfold ram. induction (page_list n mend) as [|w l IH]; [by intros ?%not_elem_of_nil|]. simpl.
  destruct (decide (w = v)) as [->|Hne]; [rewrite lookup_insert_eq; by eexists|].
  rewrite lookup_insert_ne by done. intros [->|H]%elem_of_cons; [done|by apply IH].
Qed.
Lemma ram_ok n : mem_ok (ram n).
Proof.
  unfold ram. induction (page_list n mend) as [|w l IH]; simpl; [intros v x H; by rewrite lookup_empty in H|].
  apply mem_ok_insert; [done|..]; by apply page_of_ok.
Qed.

Lemma machine_pages : exists s l, free_rep mend s l /\ length l = 256%nat.
Proof.
  assert (wp (freerange_loop mend 256 mend (mend + 256 * PGSIZE)) (fun _ s => exists l, free_rep mend s l /\ length l = 256%nat) (mkK (ram 256) 0)) as H.
  { eapply wp_mono; [apply (wp_freerange_loop mend 256 256 mend (mend + 256 * PGSIZE) (mkK (ram 256) 0) [])|].
    - split; [done|constructor|apply ram_ok].
    - lia.
    - unfold PGSIZE. lia.
    - intros i Hi. split; [unfold page_ok, mend, KERNBASE, PHYSTOP, PGSIZE; zlia|]. split; [|apply not_elem_of_nil].
      apply ram_at, page_list_elem. by exists i.
    - intros [] s [Hs _]. eexists. split; [exact Hs|]. rewrite length_app. reflexivity. }
  destruct (proj1 (wp_inv _ _ _) H) as (u & s & _ & l & Hl). by exists s, l.
Qed.

(** A kernel stack [K], and an address space of two zeroed pages at [d]. *)
Lemma machine : exists s d K l, space mend s d l /\ (180 <= length l)%nat /\
  (forall x, user x -> within 0 8192 x -> frame_at (pages s) d x <> None /\ umem (pages s) d x = Some 0) /\
  exact (pages s) d 8192 /\ is_Some (pages s !! K) /\ page_ok mend K /\ alien (pages s) d l K.
Proof.
  destruct machine_pages as (s0 & l0 & Hf0 & Hl0). destruct l0 as [|K l0]; [done|]. simpl in Hl0.
  destruct (free_page mend s0 (K :: l0) K Hf0) as [Hok Hsome]; [by left|].
  pose proof (fr_nodup _ _ _ Hf0) as Hnd. apply NoDup_cons in Hnd as [HK _].
  assert (wp (kalloc ;;; d <- setupkvm mdata ;; allocuvm mend d 0 8192 ;;; ret d) (fun d s => exists l U,
    child mend mdata (mkK (pages s0) 0) l0 d 8192 (extend U 0 8192) (fun _ => true) l s) s0) as H.
  { apply wp_bind. eapply wp_mono; [by apply (wp_kalloc mend s0 (K :: l0))|]. intros r s1 [Epg [_ Hf1]].
    apply wp_bind. eapply wp_mono; [apply (child_start mend mdata s1 l0); [done|unfold KERNLINK, mdata, KERNBASE, PHYSTOP, EXTMEM; lia|done|lia]|].
    intros d s2 (Hd & l & Hc). apply wp_bind. eapply wp_mono; [apply (child_grow mend mdata s1 l0 ltac:(unfold KERNBASE, mend; lia) d 0 8192 _ _ l s2 Hc); try done|].
    + change (pages_upto 8192) with 2%nat. lia.
    + intros r' s3 [_ (l' & Hc')]. apply wp_ret. exists l', (fun _ => None). destruct Hc' as [C1 C2 C3 C4 C5 C6 C7 C8]. split; try done.
      intros v Hv. rewrite C7 by done. by rewrite Epg. }
  apply wp_inv in H as (d & s & _ & l & U & Hc). exists s, d, K, l. destruct Hc as [C1 C2 C3 C4 C5 C6 C7 C8].
  change (pages_upto 8192) with 2%nat in C8. split_and!; try done; try lia.
  - intros x Hx Hw. split; [by apply C2|]. rewrite C4 by done. unfold extend. by rewrite decide_True.
  - intros x Hx. destruct (decide (within 0 8192 x)); [split; [done|by intros _; apply C2]|]. by rewrite C3.
  - rewrite C7 by done. done.
  - split; intros Ho; apply HK, C6; [by right|by left].
Qed.

(** ** [copyuvm] *)

Lemma copyuvm_copies_witness : exists s p r s', copyuvm mend mdata p 8192 s = Done r s' /\
  forall x, user x -> umem (pages s') r x = if decide (within 0 8192 x) then Some 0 else None.
Proof.
  destruct machine as (s & p & K & l & Hs & Hl & Hin & _). exists s, p.
  pose proof (copyuvm_copies mend ltac:(unfold KERNBASE, mend; lia) mdata ltac:(reflexivity)
    ltac:(unfold KERNLINK, mdata, KERNBASE, PHYSTOP, EXTMEM; lia) s p l 8192 Hs ltac:(unfold KERNBASE; lia)
    (fun x Hx Hw => proj1 (Hin x Hx Hw))) as H.
  apply wp_inv in H as (r & s' & E & _ & H). rewrite decide_True in H by (vm_compute copy_need; lia).
  destruct H as (l' & _ & _ & Hm & _). exists r, s'. split; [done|]. intros x Hx. rewrite Hm by done.
  case_decide as Hw; [|done]. by apply Hin.
Defined.

(** ** [growproc] *)

Definition one_proc (d K : Z) : proc :=
  mkProc 8192 d K RUNNING 3 None (K + KSTACKSIZE - SIZEOF_TRAPFRAME) 0 0 0 (replicate 16 0) 1 (replicate 16 0).

(** Half a page more, and a page and a half less. *)
#[local] Instance no_file_layer : Files unit := {|
  f_filedup := fun f => ret f; f_fileclose := fun _ => ret tt; f_idup := fun i => ret i; f_iput := fun _ => ret tt;
  f_begin_op := ret tt; f_end_op := ret tt; f_namei := fun _ => ret 1 |}.
Lemma growproc_sizes_witness : exists (s s1 s2 : pst (F := unit)) d,
  growproc mend 0 2048 s = Done 0 s1 /\ option_map sz (procs s1 !! 0%nat) = Some 10240 /\ umem (pages (kmem s1)) d 9000 = Some 0 /\
  growproc mend 0 (-6144) s = Done 0 s2 /\ option_map sz (procs s2 !! 0%nat) = Some 2048 /\ umem (pages (kmem s2)) d 5000 = None.
Proof.
  destruct machine as (k & d & K & l & Hs & Hl & Hin & He & _). set (p := one_proc d K). set (s := mkP [p] 4 (Some 0%nat) k tt : pst (F := unit)).
  assert (KERNBASE < mend) as Hk by (unfold KERNBASE, mend; lia).
  pose proof (growproc_sizes mend Hk s 0 p l 2048 eq_refl Hs He ltac:(unfold KERNBASE; simpl; lia) ltac:(lia)) as H1.
  pose proof (growproc_sizes mend Hk s 0 p l (-6144) eq_refl Hs He ltac:(unfold KERNBASE; simpl; lia) ltac:(lia)) as H2.
  destruct (proj1 (wp_inv _ _ _) H1) as (r1 & s1 & E1 & H1'). destruct (proj1 (wp_inv _ _ _) H2) as (r2 & s2 & E2 & H2').
  cbv zeta in H1', H2'. change (sz p) with 8192 in *. rewrite decide_True, decide_False in H1' by (unfold KERNBASE; lia).
  rewrite decide_True in H1'.
  2: { etrans; [apply need_le; [vm_compute; done|vm_compute; done|unfold KERNBASE; vm_compute; done]|]. change (new_pages 8192 (8192 + 2048)) with 1%nat. lia. }
  destruct H1' as (-> & (R1 & _) & l1 & _ & _ & U1 & _). rewrite decide_False, decide_False in H2' by lia.
  rewrite decide_False in H2' by lia. destruct H2' as ((l2 & _ & _ & U2 & _) & -> & (R2 & _)).
  exists s, s1, s2, d. split_and!; [done|by rewrite R1| |done|by rewrite R2|].
  - rewrite U1 by (unfold user, KERNBASE; lia). unfold extend. rewrite decide_True; [done|]. split; vm_compute; done.
  - rewrite U2 by (unfold user, KERNBASE; lia). rewrite decide_False; [done|]. intros [_ H]. vm_compute in H. done.
Defined.

(** ** [exec] *)

(** A program of one segment: four bytes of code and four bytes of zeroes at 0, entered at 2. *)
Definition program : list Z :=
  [127; 69; 76; 70] ++ replicate 20 0 ++ words [2; 52] ++ replicate 12 0 ++ [1; 0] ++ replicate 6 0 ++
  words [1; 84; 0; 0; 4; 8; 5; 4096] ++ [0x90; 0x90; 0xEB; 0xFE].
(** A file layer with this one file; the state says whether it is locked. *)
#[local] Instance one_files : Files bool := {|
  f_filedup := fun f => ret f; f_fileclose := fun _ => ret tt; f_idup := fun i => ret i; f_iput := fun _ => ret tt;
  f_begin_op := ret tt; f_end_op := ret tt; f_namei := fun _ => ret 1 |}.
#[local] Instance one_inodes : Inodes bool := {|
  x_ilock := fun _ => modify (fun _ => true); x_readi := fun _ off n => ret (read_of program off n);
  x_iunlockput := fun _ => modify (fun _ => false) |}.
Definition one_opened (f : bool) : Prop := f = true.
Definition one_closed (f : bool) : Prop := f = false.
Definition one_file : option (Z * list Z) := Some (1, program).

Lemma program_bytes : bytes_ok program.
Proof. apply bytes_ok_check. vm_compute. reflexivity. Qed.
Lemma one_opens path : opens one_closed path one_file one_opened false.
Proof.
  split; [|done]. split; try done. apply program_bytes.
Qed.

(** The path /bin/a with the arguments "a" and "xy". *)
Definition one_path : list Z := [47; 98; 105; 110; 47; 97].
Definition one_argv : list (list Z) := [[97]; [120; 121]].
Definition expected (v : verdict) : bool :=
  match v with
  | Runs sz U _ _ => (sz =? 12288) && bool_decide (U 0 = Some 0x90) && bool_decide (U 5 = Some 0) && bool_decide (U 12288 = None)
  | _ => false
  end.

Lemma exec_refines_witness : exists (s s' : pst (F := bool)) sz U,
  exec mend mdata [] 0 one_path one_argv s = Done 0 s' /\ one_closed (kfs s') /\ sz = 12288 /\
  (U 0 = Some 0x90 /\ U 5 = Some 0 /\ U 12288 = None) /\
  exists d l, option_map pgdir (procs s' !! 0%nat) = Some d /\ image mend mdata (kmem s') d sz U l.
Proof.
  destruct machine as (k & d & K & l & Hs & Hl & Hin & _ & HKs & HKok & HKa).
  set (p := one_proc d K). set (s := mkP [p] 4 (Some 0%nat) k false : pst (F := bool)).
  assert (K mod PGSIZE = 0 /\ 0 < K) as [HK1 HK2] by (unfold page_ok, KERNBASE in HKok; lia).
  assert (tf p mod PGSIZE = 4020 /\ page_base (tf p) = K /\ 0 <= tf p) as (T1 & T2 & T3).
  { unfold page_base, p, one_proc, tf, KSTACKSIZE, SIZEOF_TRAPFRAME, PGSIZE in *. split_and!; zlia. }
  assert (expected (spec_file 0x4000 one_argv one_file) = true) as EU by (vm_compute; reflexivity).
  destruct (spec_file 0x4000 one_argv one_file) as [sz U entry sp| |] eqn:Ev; [|done..]. simpl in EU.
  rewrite !andb_true_iff, Z.eqb_eq, !bool_decide_eq_true in EU.
  pose proof (exec_refines mend mdata [] ltac:(unfold KERNBASE, mend; lia) s l 0 p 0x4000 one_closed eq_refl Hs ltac:(change (pages_upto 0x4000) with 4%nat; lia)
    ltac:(rewrite T1; unfold SIZEOF_TRAPFRAME, PGSIZE; lia) ltac:(rewrite T2; done) one_path one_argv eq_refl
    ltac:(unfold KERNLINK, mdata, KERNBASE, PHYSTOP, EXTMEM; lia) one_file one_opened (one_opens _)) as H.
  rewrite Ev in H. destruct (proj1 (wp_inv _ _ _) (H ltac:(repeat constructor; unfold is_byte; simpl; lia) ltac:(done))) as (r & s' & E & Hc & -> & d' & l' & x & Him & Hp & _).
  exists s, s', sz, U. split_and!; try done; try apply EU. exists d', l'. split; [by rewrite Hp|done].
Defined.
