(* ===== verification/Trap.v ===== *)
(** * Traps: trap.c

    [trap] in the pieces between which other processes may run: up to the call of [syscall] or [yield], and from their
    return on.  [None] for the current process: the CPU is in the scheduler.  The interrupt routines of the devices work on
    a state of their own. *)

From S2P Require Import Prelude Kalloc Vm Proc Syscall Exec Sysproc.

Definition T_SYSCALL : Z := 64.
Definition T_IRQ0 : Z := 32.
Definition IRQ_TIMER : Z := 0.
Definition IRQ_KBD : Z := 1.
Definition IRQ_COM1 : Z := 4.
Definition IRQ_IDE : Z := 14.
Definition IRQ_SPURIOUS : Z := 31.

(** The fields of the trap frame that [trap] looks at, and its address. *)
Record tframe := mkTf { t_addr : Z; t_no : Z; t_cs : Z }.

(** The interrupt routines that [trap] calls. *)
Class Interrupts (D : Type) := { i_ide : M D unit; i_kbd : M D unit; i_uart : M D unit; i_eoi : M D unit }.

(** Where control goes: back to the interrupted code, to the scheduler for good, to the scheduler for a while,
    or to [syscall]. *)
Inductive left := Back | Exited | Yielded | Calls.

Section Trap.
Context {F D : Type} `{HF : Files F} `{HD : Interrupts D}.
Variables ptab tchan : Z.
Abbreviation tst := (tst (F := F)).

Record kst2 := mkK2 { kt : tst; kd : D }.
Definition on_t {A} : M tst A -> M kst2 A := lift kt (fun t s => mkK2 t (kd s)).
Definition on_d {A} : M D A -> M kst2 A := lift kd (fun d s => mkK2 (kt s) d).
Definition on_p {A} (m : M (pst (F := F)) A) : M kst2 A := on_t (on_proc m).

Definition from_user_mode (tf : tframe) : bool := Z.land (t_cs tf) 3 =? 3.
Definition is_killed (me : nat) : M kst2 bool := p <- on_p (get_proc me) ;; ret (negb (killed p =? 0)).
Definition do_exit (me : nat) : M kst2 left := on_p (exit ptab me) ;;; ret Exited.

(** [if(proc->killed) exit(); return;] *)
Definition trap_after_call (me : nat) : M kst2 left :=
  k <- is_killed me ;; if k : bool then do_exit me else ret Back.
(** [if(proc && proc->killed && (tf->cs&3) == DPL_USER) exit();] with what follows when it does not *)
Definition kill_check (cur : option nat) (tf : tframe) (next : M kst2 left) : M kst2 left :=
  match cur with
  | None => next
  | Some me => k <- is_killed me ;; if k && from_user_mode tf then do_exit me else next
  end.
Definition trap_after_yield (cur : option nat) (tf : tframe) : M kst2 left := kill_check cur tf (ret Back).

(** The [switch]. *)
Definition dispatch (cpuid : Z) (cur : option nat) (tf : tframe) : M kst2 unit :=
  let n := t_no tf in
  if n =? T_IRQ0 + IRQ_TIMER then (if cpuid =? 0 then on_t (clock tchan) else ret tt) ;;; on_d i_eoi else
  if n =? T_IRQ0 + IRQ_IDE then on_d i_ide ;;; on_d i_eoi else
  if n =? T_IRQ0 + IRQ_IDE + 1 then ret tt else
  if n =? T_IRQ0 + IRQ_KBD then on_d i_kbd ;;; on_d i_eoi else
  if n =? T_IRQ0 + IRQ_COM1 then on_d i_uart ;;; on_d i_eoi else
  if (n =? T_IRQ0 + 7) || (n =? T_IRQ0 + IRQ_SPURIOUS) then on_d i_eoi else
  match cur with
  | None => panic "trap"
  | Some me => if Z.land (t_cs tf) 3 =? 0 then panic "trap" else on_p (set_proc me (set_killed 1))
  end.

Definition trap (cpuid : Z) (cur : option nat) (tf : tframe) : M kst2 left :=
  if t_no tf =? T_SYSCALL then
    match cur with
    | None => fault "proc"
    | Some me =>
        k <- is_killed me ;;
        if k : bool then do_exit me else on_p (set_proc me (set_tf (t_addr tf))) ;;; ret Calls
    end
  else
    dispatch cpuid cur tf ;;;
    kill_check cur tf
      (match cur with
       | None => ret Back
       | Some me =>
           p <- on_p (get_proc me) ;;
           if bool_decide (state p = RUNNING) && (t_no tf =? T_IRQ0 + IRQ_TIMER) then on_p (yield me) ;;; ret Yielded
           else trap_after_yield cur tf
       end).

(** ** A killed process does not get back to its program *)

Definition killed_of (me : nat) (s : kst2) : option Z := killed <$> procs (tp (kt s)) !! me.
Definition state_of (me : nat) (s : kst2) : option procstate := state <$> procs (tp (kt s)) !! me.

Lemma on_p_inv {A} (m : M pst A) s a s' : on_p m s = Done a s' ->
  exists t, m (tp (kt s)) = Done a t /\ s' = mkK2 (mkT t (ticks (kt s))) (kd s).
Proof.
  unfold on_p, on_t, on_proc, lift. destruct (m (tp (kt s))) as [a0 t| | | |]; try done. simpl. intros [= -> <-]. by exists t.
Qed.

Lemma is_killed_inv me s k s' : is_killed me s = Done k s' ->
  s' = s /\ exists p, procs (tp (kt s)) !! me = Some p /\ k = negb (killed p =? 0).
Proof.
  unfold is_killed. intros (p & s1 & H1 & [= <- <-])%bind_done. apply on_p_inv in H1 as (t & H1 & ->).
  apply get_proc_done in H1 as [H1 ->]. split; [by destruct s as [[] ]|by exists p].
Qed.

Lemma do_exit_inv me s r s' : do_exit me s = Done r s' -> r = Exited /\ state_of me s' = Some ZOMBIE.
Proof.
  unfold do_exit. intros (u & s1 & H1 & [= <- <-])%bind_done. split; [done|]. apply on_p_inv in H1 as (t & H1 & ->).
  unfold exit, exit_locked in H1. apply bind_done in H1 as (u1 & t1 & _ & H1). apply bind_done in H1 as (p & t2 & _ & H1).
  apply bind_done in H1 as (u3 & t3 & _ & H1). apply bind_done in H1 as (u4 & t4 & _ & H1).
  unfold set_proc in H1. apply bind_done in H1 as (q & t5 & H2 & [= _ <-]). apply get_proc_done in H2 as [H2 ->].
  unfold state_of. simpl. by rewrite list_lookup_alter_eq, H2.
Qed.
Lemma kill_check_inv me tf next s r s' : from_user_mode tf = true -> kill_check (Some me) tf next s = Done r s' ->
  r = Exited /\ state_of me s' = Some ZOMBIE \/ killed_of me s = Some 0 /\ next s = Done r s'.
Proof.
  intros Hu H. unfold kill_check in H. apply bind_done in H as (k & s1 & H1 & H). apply is_killed_inv in H1 as (-> & p & Hp & ->).
  rewrite Hu, andb_true_r in H. unfold killed_of. rewrite Hp. simpl. destruct (Z.eqb_spec (killed p) 0) as [->|Hk]; [by right|].
  left. by apply do_exit_inv in H.
Qed.

(** How a piece of [trap] may leave a process that was in user mode. *)
Definition leaves (me : nat) (r : left) (s' : kst2) : Prop :=
  match r with
  | Back | Calls => killed_of me s' = Some 0
  | Exited => state_of me s' = Some ZOMBIE
  | Yielded => state_of me s' = Some RUNNABLE
  end.

Lemma after_yield_leaves me tf s r s' : from_user_mode tf = true -> trap_after_yield (Some me) tf s = Done r s' -> leaves me r s'.
Proof. intros Hu H. apply kill_check_inv in H as [[-> H]|[H [= <- <-]]]; done. Qed.
Lemma after_call_leaves me s r s' : trap_after_call me s = Done r s' -> leaves me r s'.
Proof.
  intros H. apply bind_done in H as (k & s1 & H1 & H). apply is_killed_inv in H1 as (-> & p & Hp & ->).
  destruct (Z.eqb_spec (killed p) 0) as [Hk|Hk]; cbn [negb] in H.
  - injection H as <- <-. unfold leaves, killed_of. rewrite Hp. simpl. by rewrite Hk.
  - apply do_exit_inv in H as [-> H]. done.
Qed.

Definition interrupts : list Z := map (Z.add T_IRQ0) [IRQ_TIMER; IRQ_IDE; IRQ_IDE + 1; IRQ_KBD; IRQ_COM1; 7; IRQ_SPURIOUS].

Lemma dispatch_fault cpuid me tf s u s' : from_user_mode tf = true -> (t_no tf ∉ interrupts) ->
  dispatch cpuid (Some me) tf s = Done u s' -> exists p, procs (tp (kt s')) !! me = Some p /\ killed p = 1.
Proof.
  unfold interrupts, from_user_mode, dispatch. cbn [map]. rewrite !not_elem_of_cons, Z.eqb_eq. intros Hu (N1 & N2 & N3 & N4 & N5 & N6 & N7 & _).
  rewrite Hu. rewrite !(proj2 (Z.eqb_neq _ _)) by (rewrite <- ?Z.add_assoc; done). intros H.
  apply on_p_inv in H as (t & H & ->). unfold set_proc in H. apply bind_done in H as (q & t5 & H2 & [= _ <-]).
  apply get_proc_done in H2 as [H2 ->]. simpl. rewrite list_lookup_alter_eq, H2. simpl. by eexists.
Qed.

Lemma trap_leaves cpuid me tf s r s' : from_user_mode tf = true -> trap cpuid (Some me) tf s = Done r s' -> leaves me r s'.
Proof.
  intros Hu H. unfold trap in H. destruct (t_no tf =? T_SYSCALL).
  - apply bind_done in H as (k & s1 & H1 & H). apply is_killed_inv in H1 as (-> & p & Hp & ->).
    destruct (Z.eqb_spec (killed p) 0) as [Hk|Hk]; cbn [negb] in H; [|by apply do_exit_inv in H as [-> H]].
    apply bind_done in H as (u & s1 & H1 & [= <- <-]). apply on_p_inv in H1 as (t & H1 & ->). apply set_proc_done in H1 as ->.
    unfold leaves, killed_of. simpl. rewrite list_lookup_alter_eq, Hp. simpl. by rewrite Hk.
  - apply bind_done in H as (u & s1 & _ & H). apply kill_check_inv in H as [[-> H]|[Hk H]]; [done| |done].
    apply bind_done in H as (p & s2 & H2 & H). apply on_p_inv in H2 as (t & H2 & ->). apply get_proc_done in H2 as [Hp ->].
    destruct (bool_decide (state p = RUNNING) && (t_no tf =? T_IRQ0 + IRQ_TIMER)); [|by eapply after_yield_leaves].
    apply bind_done in H as (u' & s3 & H3 & [= <- <-]). apply on_p_inv in H3 as (t & H3 & ->). apply set_proc_done in H3 as ->.
    unfold leaves, state_of. simpl. simpl in Hp. by rewrite list_lookup_alter_eq, Hp.
Qed.

(** C29. [kill] takes effect.  A process that enters the kernel from its program, by a system call, an interrupt or a fault, goes back
    to the program, or on to the system call, only in a state in which it is not marked as killed; otherwise it has exited, or has
    given up the CPU on a tick and is tested again when it is resumed.  A process that is killed when it makes a
    system call exits without making it, and one that faults - any trap but the known interrupts - always exits. *)
Theorem kill_takes_effect cpuid me tf s : from_user_mode tf = true ->
  (forall r s', trap cpuid (Some me) tf s = Done r s' -> leaves me r s' /\
    (t_no tf = T_SYSCALL -> killed_of me s <> Some 0 -> r = Exited) /\
    (t_no tf <> T_SYSCALL -> (t_no tf ∉ interrupts) -> r = Exited)) /\
  (forall r s', trap_after_call me s = Done r s' -> leaves me r s') /\
  (forall r s', trap_after_yield (Some me) tf s = Done r s' -> leaves me r s').
Proof.
  intros Hu. split_and!; [|by apply after_call_leaves|by intros r s'; apply after_yield_leaves].
  intros r s' H. split; [by eapply trap_leaves|]. unfold trap in H. split.
  - intros Hn Hk. rewrite Hn, Z.eqb_refl in H. apply bind_done in H as (k & s1 & H1 & H). apply is_killed_inv in H1 as (-> & p & Hp & ->).
    unfold killed_of in Hk. rewrite Hp in Hk. destruct (Z.eqb_spec (killed p) 0) as [E|E]; [by simpl in Hk; rewrite E in Hk|]. by apply do_exit_inv in H as [-> _].
  - intros Hn Hi. rewrite (proj2 (Z.eqb_neq _ _) Hn) in H. apply bind_done in H as (u & s1 & H1 & H).
    apply dispatch_fault in H1 as (p & Hp & Hk); [|done|done]. apply kill_check_inv in H as [[-> _]|[H _]]; [done| |done].
    unfold killed_of in H. rewrite Hp in H. simpl in H. rewrite Hk in H. done.
Qed.
End Trap.

#[local] Instance no_open_files : Files unit := {|
  f_filedup := fun f => ret f; f_fileclose := fun _ => ret tt; f_idup := fun i => ret i; f_iput := fun _ => ret tt;
  f_begin_op := ret tt; f_end_op := ret tt; f_namei := fun _ => ret 1 |}.
#[local] Instance no_devices : Interrupts unit := {| i_ide := ret tt; i_kbd := ret tt; i_uart := ret tt; i_eoi := ret tt |}.
Definition slot (st : procstate) (n : Z) (par : option nat) : proc :=
  mkProc 4096 0 0 st n par 0 0 0 0 (replicate 16 0) 0 (replicate 16 0).
Definition two_procs : kst2 (F := unit) (D := unit) :=
  mkK2 (mkT (mkP (slot SLEEPING 1 None :: slot RUNNING 2 (Some 0%nat) :: replicate 62 (slot UNUSED 0 None)) 3 (Some 0%nat) (mkK ∅ 0) tt) 7) tt.

(** A page fault in a child of init. *)
Lemma kill_takes_effect_witness : exists s', trap 0x80110000 0x80115000 0 (Some 1%nat) (mkTf 0x8dffffb4 14 0x1b) two_procs = Done Exited s' /\
  state_of 1 s' = Some ZOMBIE.
Proof.
  destruct (trap 0x80110000 0x80115000 0 (Some 1%nat) (mkTf 0x8dffffb4 14 0x1b) two_procs) as [r s'| | | |] eqn:E; try (vm_compute in E; discriminate E).
  destruct (kill_takes_effect 0x80110000 0x80115000 0 1 (mkTf 0x8dffffb4 14 0x1b) two_procs eq_refl) as [H _].
  destruct (H r s' E) as (H1 & _ & H2).
  assert (r = Exited) as ->.
  { apply H2; [done|]. unfold interrupts. cbn. rewrite !not_elem_of_cons. split_and!; try done. apply not_elem_of_nil. }
  exists s'. split; [done|]. exact H1.
Defined.
