(* ===== verification/Mp.v ===== *)
(** * Processor discovery: mp.c, mp.h

    The tables are read from physical memory, a function from addresses to bytes; [struct cpu] is reduced to its [id].
    An access beyond [cpus[NCPU]] faults. *)

From S2P Require Import Prelude.

Definition NCPU : Z := 8.
Definition MPPROC : Z := 0.
Definition MPBUS : Z := 1.
Definition MPIOAPIC : Z := 2.
Definition MPIOINTR : Z := 3.
Definition MPLINTR : Z := 4.
Definition MPBOOT : Z := 2.
Definition SIZEOF_MP : Z := 16.
Definition SIZEOF_MPCONF : Z := 44.
Definition SIZEOF_MPPROC : Z := 20.
Definition SIZEOF_MPIOAPIC : Z := 8.

(** The variables of mp.c, [lapic], and what is written to ports. *)
Record mps := mkMps { cpus : list Z; bcpu : Z; ismp : Z; ncpu : Z; ioapicid : Z; lapic : Z; outs : list (Z * Z) }.
Definition set_ismp v s := mkMps (cpus s) (bcpu s) v (ncpu s) (ioapicid s) (lapic s) (outs s).
Definition set_bcpu v s := mkMps (cpus s) v (ismp s) (ncpu s) (ioapicid s) (lapic s) (outs s).
Definition set_ncpu v s := mkMps (cpus s) (bcpu s) (ismp s) v (ioapicid s) (lapic s) (outs s).
Definition set_ioapicid v s := mkMps (cpus s) (bcpu s) (ismp s) (ncpu s) v (lapic s) (outs s).
Definition set_lapic v s := mkMps (cpus s) (bcpu s) (ismp s) (ncpu s) (ioapicid s) v (outs s).
Definition set_cpu i v s := mkMps (<[Z.to_nat i := v]> (cpus s)) (bcpu s) (ismp s) (ncpu s) (ioapicid s) (lapic s) (outs s).
Definition mp_outb port v s := mkMps (cpus s) (bcpu s) (ismp s) (ncpu s) (ioapicid s) (lapic s) (outs s ++ [(port, u8 v)]).

Section Mp.
(** Physical memory, and the byte that port 0x23 delivers. *)
Variable m : Z -> Z.
Variable imcr : Z.

Definition word_at (a : Z) : Z := le_val (map (fun i => m (a + i)) [0; 1; 2; 3]).
Definition half_at (a : Z) : Z := le_val (map (fun i => m (a + i)) [0; 1]).
Definition starts_with (a : Z) (s : list Z) : bool := bool_decide (map (fun i => m (a + i)) (seqZ 0 (Z.of_nat (length s))) = s).

Fixpoint sum_loop (n : nat) (a acc : Z) : Z :=
  match n with O => acc | S n' => sum_loop n' (a + 1) (s32 (acc + m a)) end.
Definition sum (a len : Z) : Z := u8 (sum_loop (Z.to_nat len) a 0).

Definition mp_sig : list Z := [95; 77; 80; 95].
Definition pcmp_sig : list Z := [80; 67; 77; 80].

Fixpoint mpsearch_loop (n : nat) (p e : Z) : option Z :=
  if p <? e then
    match n with
    | O => None
    | S n' =>
        if starts_with p mp_sig && (sum p SIZEOF_MP =? 0) then Some p else mpsearch_loop n' (p + SIZEOF_MP) e
    end
  else None.
Definition mpsearch1 (a len : Z) : option Z := mpsearch_loop (Z.to_nat len) a (a + len).

Definition mpsearch : option Z :=
  let bda := 0x400 in
  let p := Z.shiftl (Z.lor (Z.shiftl (m (bda + 0x0F)) 8) (m (bda + 0x0E))) 4 in
  let first :=
    if negb (p =? 0) then mpsearch1 p 1024
    else mpsearch1 (u32 (Z.lor (Z.shiftl (m (bda + 0x14)) 8) (m (bda + 0x13)) * 1024 - 1024)) 1024 in
  match first with Some mp => Some mp | None => mpsearch1 0xF0000 0x10000 end.

(** The floating pointer and the configuration table. *)
Definition mpconfig : option (Z * Z) :=
  match mpsearch with
  | None => None
  | Some mp =>
      let conf := word_at (mp + 4) in
      if conf =? 0 then None else
      if negb (starts_with conf pcmp_sig) then None else
      if negb (m (conf + 6) =? 1) && negb (m (conf + 6) =? 4) then None else
      if negb (sum conf (half_at (conf + 4)) =? 0) then None else Some (mp, conf)
  end.

(** One processor entry. *)
Definition mpinit_proc (p : Z) : M mps unit :=
  n <- gets ncpu ;;
  (if negb (n =? m (p + 1)) then modify (set_ismp 0) else ret tt) ;;;
  (if negb (Z.land (m (p + 3)) MPBOOT =? 0) then modify (set_bcpu n) else ret tt) ;;;
  if n >=? NCPU then fault "cpus" else
  modify (set_cpu n (u8 n)) ;;;
  modify (set_ncpu (n + 1)).
Fixpoint mpinit_loop (fuel : nat) (p e : Z) : M mps unit :=
  if p <? e then
    match fuel with
    | O => nofuel
    | S fuel' =>
        let t := m p in
        if t =? MPPROC then mpinit_proc p ;;; mpinit_loop fuel' (p + SIZEOF_MPPROC) e
        else if t =? MPIOAPIC then modify (set_ioapicid (m (p + 1))) ;;; mpinit_loop fuel' (p + SIZEOF_MPIOAPIC) e
        else if (t =? MPBUS) || (t =? MPIOINTR) || (t =? MPLINTR) then mpinit_loop fuel' (p + 8) e
        else modify (set_ismp 0) ;;; mpinit_loop fuel' p e
    end
  else ret tt.
Definition mpinit : M mps unit :=
  modify (set_bcpu 0) ;;;
  match mpconfig with
  | None => ret tt
  | Some (mp, conf) =>
      modify (set_ismp 1) ;;;
      modify (set_lapic (word_at (conf + 36))) ;;;
      mpinit_loop (Z.to_nat (2 ^ 16)) (conf + SIZEOF_MPCONF) (conf + half_at (conf + 4)) ;;;
      i <- gets ismp ;;
      if i =? 0 then
        modify (set_ncpu 1) ;;; modify (set_lapic 0) ;;; modify (set_ioapicid 0)
      else if negb (m (mp + 12) =? 0) then
        modify (mp_outb 0x22 0x70) ;;; modify (mp_outb 0x23 (Z.lor imcr 1))
      else ret tt
  end.
Definition mpbcpu (s : mps) : Z := bcpu s.

(** ** The search *)

(** What the MultiProcessor Specification asks for, in terms of the bytes in memory: a signature, and bytes that
    add up to a multiple of 256. *)
Definition signed (a : Z) (sig : list Z) : Prop := forall i c, sig !! i = Some c -> m (a + Z.of_nat i) = c.
Definition checks (a len : Z) : Prop := foldr Z.add 0 (map m (seqZ a len)) mod 256 = 0.
(** A floating pointer structure. *)
Definition floating (p : Z) : Prop := signed p mp_sig /\ checks p SIZEOF_MP.
(** A configuration table that the kernel accepts. *)
Definition acceptable (conf : Z) : Prop :=
  conf <> 0 /\ signed conf pcmp_sig /\ (m (conf + 6) = 1 \/ m (conf + 6) = 4) /\ checks conf (half_at (conf + 4)).

(** The addresses searched, in order: the paragraphs of the first kilobyte of the extended BIOS data area, or,
    where there is none, of the last kilobyte of base memory; then those of the BIOS from 0xF0000 to 0xFFFFF. *)
Definition ebda : Z := 16 * (256 * m 0x40F + m 0x40E).
Definition low_area : Z := if decide (ebda = 0) then u32 (1024 * (256 * m 0x414 + m 0x413) - 1024) else ebda.
Definition paragraphs (a n : Z) : list Z := (fun k => a + k * SIZEOF_MP) <$> seqZ 0 n.
Definition searched : list Z := paragraphs low_area 64 ++ paragraphs 0xF0000 4096.
(** [mp] is the first floating pointer structure. *)
Definition first_floating (mp : Z) : Prop :=
  exists l1 l2, searched = l1 ++ mp :: l2 /\ floating mp /\ Forall (fun p => ~ floating p) l1.

Hypothesis bytes : forall a, is_byte (m a).

Lemma sum_loop_total n : forall a acc, sum_loop n a acc mod 256 = (acc + foldr Z.add 0 (map m (seqZ a (Z.of_nat n)))) mod 256.
Proof.
  induction n as [|n IH]; intros a acc; cbn [sum_loop]; [simpl; f_equal; lia|].
  rewrite IH, (seqZ_cons a) by lia. cbn [map foldr]. replace (Z.pred (Z.of_nat (S n))) with (Z.of_nat n) by lia. replace (Z.succ a) with (a + 1) by lia.
  set (F := foldr _ _ _). assert (s32 (acc + m a) mod 256 = (acc + m a) mod 256) as E.
  { unfold s32, u32. case_match; zlia. }
  rewrite <- Zplus_mod_idemp_l, E, Zplus_mod_idemp_l. f_equal. lia.
Qed.
Lemma sum_checks a len : 0 <= len -> sum a len = 0 <-> checks a len.
Proof. intros Hl. unfold sum, u8, checks. change (2 ^ 8) with 256. by rewrite sum_loop_total, Z.add_0_l, Z2Nat.id. Qed.
Lemma starts_signed a sig : starts_with a sig = true <-> signed a sig.
Proof.
  unfold starts_with. rewrite bool_decide_eq_true. split.
  - intros E i c Hi. rewrite <- E in Hi. change (map ?f ?l) with (f <$> l) in Hi. rewrite list_lookup_fmap in Hi.
    destruct (seqZ 0 _ !! i) as [k|] eqn:Ek; [|done]. apply lookup_seqZ in Ek as [-> _]. injection Hi as <-. by rewrite Z.add_0_l.
  - intros Hs. apply list_eq. intros i. change (map ?f ?l) with (f <$> l). rewrite list_lookup_fmap. destruct (sig !! i) as [c|] eqn:Ei.
    + pose proof (lookup_lt_Some _ _ _ Ei). rewrite (proj2 (lookup_seqZ 0 _ i (Z.of_nat i))) by lia. simpl. f_equal. by apply Hs.
    + apply lookup_ge_None in Ei. by rewrite lookup_seqZ_ge by lia.
Qed.

Definition test (p : Z) : bool := starts_with p mp_sig && (sum p SIZEOF_MP =? 0).
Lemma test_floating p : test p = true <-> floating p.
Proof. unfold test, floating. by rewrite andb_true_iff, Z.eqb_eq, starts_signed, sum_checks by done. Qed.

Lemma mpsearch_loop_find n : forall fuel p, (n <= fuel)%nat ->
  mpsearch_loop fuel p (p + Z.of_nat n * SIZEOF_MP) = List.find test (paragraphs p (Z.of_nat n)).
Proof.
  unfold paragraphs, SIZEOF_MP. induction n as [|n IH]; intros fuel p Hf.
  - destruct fuel; cbn [mpsearch_loop]; (rewrite (proj2 (Z.ltb_ge _ _)) by lia); done.
  - destruct fuel as [|fuel]; [lia|]. cbn [mpsearch_loop]. rewrite (proj2 (Z.ltb_lt _ _)) by lia.
    rewrite (seqZ_cons 0) by lia. cbn [fmap list_fmap List.find]. rewrite Z.mul_0_l, Z.add_0_r. fold (test p). destruct (test p); [done|].
    replace (p + Z.of_nat (S n) * 16) with (p + 16 + Z.of_nat n * 16) by lia. unfold SIZEOF_MP. rewrite IH by lia.
    replace (Z.pred (Z.of_nat (S n))) with (Z.of_nat n) by lia. f_equal. apply list_eq. intros i. rewrite !list_lookup_fmap.
    destruct (decide (i < n)%nat).
    + rewrite !lookup_seqZ_lt by lia. simpl. f_equal. lia.
    + by rewrite !lookup_seqZ_ge by lia.
Qed.

Lemma mpsearch1_find a n : 0 <= n -> mpsearch1 a (16 * n) = List.find test (paragraphs a n).
Proof.
  intros Hn. unfold mpsearch1. rewrite <- (Z2Nat.id n) at 3 by done.
  rewrite <- (mpsearch_loop_find (Z.to_nat n) (Z.to_nat (16 * n))) by lia. f_equal. unfold SIZEOF_MP. lia.
Qed.
Lemma find_app {A} (f : A -> bool) l1 l2 : List.find f (l1 ++ l2) = match List.find f l1 with Some x => Some x | None => List.find f l2 end.
Proof. induction l1 as [|x l1 IH]; [done|]. simpl. by destruct (f x). Qed.
Lemma find_first {A} (f : A -> bool) l x : List.find f l = Some x <->
  exists l1 l2, l = l1 ++ x :: l2 /\ f x = true /\ Forall (fun y => f y = false) l1.
Proof.
  split.
  - induction l as [|y l IH]; simpl; [done|]. destruct (f y) eqn:E; [intros [= <-]; by exists [], l|].
    intros (l1 & l2 & -> & ? & ?)%IH. exists (y :: l1), l2. split_and!; [done..|by constructor].
  - intros (l1 & l2 & -> & Hx & Hl). induction Hl as [|y l1 Hy _ IH]; simpl; [by rewrite Hx|by rewrite Hy].
Qed.

Lemma mpsearch_find : mpsearch = List.find test searched.
Proof using bytes.
  assert (forall a b : Z, is_byte a -> is_byte b -> Z.lor (Z.shiftl a 8) b = 256 * a + b) as Hw.
  { intros a b _ Hb. rewrite lor_shiftl_add by (unfold is_byte in Hb; lia). lia. }
  unfold mpsearch, searched. cbv zeta. change (0x400 + 0x0F) with 0x40F. change (0x400 + 0x0E) with 0x40E. change (0x400 + 0x14) with 0x414. change (0x400 + 0x13) with 0x413.
  rewrite !Hw, Z.shiftl_mul_pow2 by (done || apply bytes). change (2 ^ 4) with 16.
  change 1024 with (16 * 64) at 1 4. change 0x10000 with (16 * 4096). rewrite !mpsearch1_find, find_app by lia.
  unfold low_area, ebda. rewrite (Z.mul_comm 16 (_ + _)), (Z.mul_comm 1024).
  by destruct (Z.eqb_spec ((256 * m 0x40F + m 0x40E) * 16) 0); [rewrite decide_True|rewrite decide_False].
Qed.

Lemma mpsearch_first mp : mpsearch = Some mp <-> first_floating mp.
Proof using bytes.
  rewrite mpsearch_find, find_first. unfold first_floating. setoid_rewrite test_floating.
  assert (forall y, test y = false <-> ~ floating y) as Hf by (intros y; rewrite <- test_floating; by destruct (test y)).
  by setoid_rewrite Hf.
Qed.
Lemma mpsearch_none : mpsearch = None <-> Forall (fun p => ~ floating p) searched.
Proof using bytes.
  rewrite mpsearch_find. induction searched as [|x l IH]; simpl; [by split|]. rewrite Forall_cons, <- IH, <- test_floating. by destruct (test x); naive_solver.
Qed.

(** The table that [mpconfig] delivers is the one the first floating pointer structure points to, if it is acceptable. *)
Lemma mpconfig_table mp : first_floating mp ->
  mpconfig = Some (mp, word_at (mp + 4)) /\ acceptable (word_at (mp + 4)) \/ mpconfig = None /\ ~ acceptable (word_at (mp + 4)).
Proof using bytes.
  intros Hf. unfold mpconfig. rewrite (proj2 (mpsearch_first mp) Hf). set (conf := word_at (mp + 4)). clearbody conf. unfold acceptable.
  assert (0 <= half_at (conf + 4)) as Hh.
  { unfold half_at. cbn [map le_val]. pose proof (bytes (conf + 4 + 0)). pose proof (bytes (conf + 4 + 1)). unfold is_byte in *. lia. }
  rewrite <- starts_signed, <- sum_checks by done. destruct (Z.eqb_spec conf 0); [right; tauto|].
  destruct (starts_with conf pcmp_sig); cbn [negb]; [|right; naive_solver].
  destruct (Z.eqb_spec (m (conf + 6)) 1), (Z.eqb_spec (m (conf + 6)) 4); cbn [negb andb]; try (right; tauto);
    (destruct (Z.eqb_spec (sum conf (half_at (conf + 4))) 0); cbn [negb]; [left; tauto|right; tauto]).
Qed.

(** ** The table *)

(** The entries by their types, with the fields that count. *)
Inductive ent := EProc (apicid flags : Z) | EIoapic (apicno : Z) | EOther (type : Z).
(** The entries [es] are in memory from [p] to [e]. *)
Fixpoint table (p : Z) (es : list ent) (e : Z) : Prop :=
  match es with
  | [] => p = e
  | EProc id fl :: es' => m p = MPPROC /\ m (p + 1) = id /\ m (p + 3) = fl /\ table (p + SIZEOF_MPPROC) es' e
  | EIoapic no :: es' => m p = MPIOAPIC /\ m (p + 1) = no /\ table (p + SIZEOF_MPIOAPIC) es' e
  | EOther t :: es' => m p = t /\ t ∈ [MPBUS; MPIOINTR; MPLINTR] /\ table (p + 8) es' e
  end.
Definition proc_ids (es : list ent) : list Z := omap (fun x => match x with EProc id _ => Some id | _ => None end) es.
(** The number of the boot processor, when the first entry has the number [n]. *)
Fixpoint boot_index (es : list ent) (n b : Z) : Z :=
  match es with
  | [] => b
  | EProc _ fl :: es' => boot_index es' (n + 1) (if Z.land fl MPBOOT =? 0 then b else n)
  | _ :: es' => boot_index es' n b
  end.
Fixpoint last_ioapic (es : list ent) (x : Z) : Z :=
  match es with [] => x | EIoapic no :: es' => last_ioapic es' no | _ :: es' => last_ioapic es' x end.

(** The variables after a processor entry, and after all entries. *)
Definition after_proc (id fl : Z) (s : mps) : mps :=
  let n := ncpu s in
  let s := if n =? id then s else set_ismp 0 s in
  let s := if Z.land fl MPBOOT =? 0 then s else set_bcpu n s in
  set_ncpu (n + 1) (set_cpu n (u8 n) s).
Fixpoint after (es : list ent) (s : mps) : mps :=
  match es with
  | [] => s
  | EProc id fl :: es' => after es' (after_proc id fl s)
  | EIoapic no :: es' => after es' (set_ioapicid no s)
  | EOther _ :: es' => after es' s
  end.

Lemma table_length es : forall p e, table p es e -> p + 8 * Z.of_nat (length es) <= e.
Proof.
  induction es as [|x es IH]; intros p e H; simpl in *; [lia|]. unfold SIZEOF_MPPROC, SIZEOF_MPIOAPIC in H.
  destruct x; [destruct H as (_ & _ & _ & H)|destruct H as (_ & _ & H)|destruct H as (_ & _ & H)]; apply IH in H; lia.
Qed.

Lemma mpinit_proc_does p s : ncpu s < NCPU -> mpinit_proc p s = Done tt (after_proc (m (p + 1)) (m (p + 3)) s).
Proof.
  intros Hn. unfold mpinit_proc, after_proc, bind, gets. destruct (ncpu s =? m (p + 1)); destruct (Z.land (m (p + 3)) MPBOOT =? 0);
    (destruct (Z.geb_spec (ncpu s) NCPU); [lia|]); done.
Qed.

(** The loop reads the entries, and then is at their end. *)
Lemma mpinit_loop_reads es : forall k p q e s, table p es q -> q <= e -> 0 <= ncpu s -> ncpu s + Z.of_nat (length (proc_ids es)) <= NCPU ->
  mpinit_loop (length es + k) p e s = mpinit_loop k q e (after es s).
Proof.
  induction es as [|x es IH]; intros k p q e s Ht Hq H0 Hn; [simpl in Ht; by subst q|].
  pose proof (table_length (x :: es) p q Ht) as Hl. cbn [length] in Hl. cbn [length Nat.add mpinit_loop]. rewrite (proj2 (Z.ltb_lt p e)) by lia.
  destruct x as [id fl|no|t]; cbn [table] in Ht; cbn [after].
  - destruct Ht as (E0 & E1 & E3 & Ht). change (proc_ids (EProc id fl :: es)) with (id :: proc_ids es) in Hn. cbn [length] in Hn.
    rewrite E0. change (MPPROC =? MPPROC) with true. cbv iota. unfold bind. rewrite mpinit_proc_does, E1, E3 by lia.
    assert (ncpu (after_proc id fl s) = ncpu s + 1) as En by done. apply (IH k _ q e (after_proc id fl s)); [done|done|lia|lia].
  - destruct Ht as (E0 & E1 & Ht). rewrite E0, E1. cbn. apply (IH k _ q e (set_ioapicid no s)); done.
  - destruct Ht as (E0 & Hin & Ht). rewrite E0. replace ((t =? MPBUS) || (t =? MPIOINTR) || (t =? MPLINTR)) with true.
    + assert (t <> MPPROC /\ t <> MPIOAPIC) as [N1 N2] by (rewrite !elem_of_cons in Hin; unfold MPBUS, MPIOINTR, MPLINTR, MPPROC, MPIOAPIC in *; destruct Hin as [->|[->|[->|[]%not_elem_of_nil]]]; done).
      rewrite !(proj2 (Z.eqb_neq t _)) by done. apply (IH k _ q e s); done.
    + rewrite !elem_of_cons in Hin. destruct Hin as [->|[->|[->|[]%not_elem_of_nil]]]; done.
Qed.

Lemma after_spec es : forall s, 0 <= ncpu s -> ncpu s + Z.of_nat (length (proc_ids es)) <= Z.of_nat (length (cpus s)) ->
  let n := Z.of_nat (length (proc_ids es)) in
  ncpu (after es s) = ncpu s + n /\ bcpu (after es s) = boot_index es (ncpu s) (bcpu s) /\
  ismp (after es s) = (if decide (proc_ids es = seqZ (ncpu s) n) then ismp s else 0) /\
  ioapicid (after es s) = last_ioapic es (ioapicid s) /\ lapic (after es s) = lapic s /\ outs (after es s) = outs s /\
  forall i, 0 <= i -> cpus (after es s) !! Z.to_nat i = if decide (ncpu s <= i < ncpu s + n) then Some (u8 i) else cpus s !! Z.to_nat i.
Proof.
  induction es as [|x es IH]; intros s H0 Hn; cbv zeta.
  { simpl. split_and!; try done; try lia. intros i Hi. rewrite decide_False by lia. done. }
  destruct x as [id fl|no|t]; cbn [after boot_index last_ioapic].
  - change (proc_ids (EProc id fl :: es)) with (id :: proc_ids es) in *. cbn [length] in *. set (k := Z.of_nat (length (proc_ids es))) in *.
    assert (0 <= k) by (unfold k; lia). set (s1 := after_proc id fl s). set (n := ncpu s) in *.
    assert (ncpu s1 = n + 1 /\ bcpu s1 = (if Z.land fl MPBOOT =? 0 then bcpu s else n) /\ ismp s1 = (if n =? id then ismp s else 0) /\
      ioapicid s1 = ioapicid s /\ lapic s1 = lapic s /\ outs s1 = outs s /\ cpus s1 = <[Z.to_nat n := u8 n]> (cpus s)) as (A1 & A2 & A3 & A4 & A5 & A6 & A7).
    { unfold s1, after_proc. fold n. destruct (n =? id); destruct (Z.land fl MPBOOT =? 0); done. }
    destruct (IH s1) as (B1 & B2 & B3 & B4 & B5 & B6 & B7); [lia|rewrite A7, length_insert; fold k; lia|]. fold k in B1, B3, B7.
    rewrite A1, A2, A3, A4, A5, A6 in *. split_and!; try done; try lia.
    + rewrite B3. replace (Z.of_nat (S (length (proc_ids es)))) with (k + 1) by (unfold k; lia). rewrite (seqZ_cons n (k + 1)) by lia.
      replace (Z.succ n) with (n + 1) by lia. replace (Z.pred (k + 1)) with k by lia. destruct (Z.eqb_spec n id) as [->|Hne].
      * case_decide as H1; case_decide as H2; try done; [by rewrite H1 in H2|by injection H2 as H2].
      * rewrite (decide_False (P := id :: _ = _)) by (by intros [= ? _]). by case_decide.
    + clear B3. intros i Hi. unfold k, n in *. rewrite B7 by done. case_decide as H1; [by rewrite decide_True by lia|]. rewrite A7. case_decide as H2.
      * assert (i = ncpu s) as -> by lia. apply list_lookup_insert_eq. lia.
      * rewrite list_lookup_insert_ne by lia. done.
  - apply (IH (set_ioapicid no s)); done.
  - apply (IH s); done.
Qed.
Definition mp0 : mps := mkMps (replicate (Z.to_nat NCPU) 0) 0 0 0 0 0 [].

(** What [mpinit] leaves of a table with the entries [es]. *)
Definition configured (mp conf : Z) (es : list ent) (_ : unit) (s : mps) : Prop :=
  let n := Z.of_nat (length (proc_ids es)) in
  if decide (proc_ids es = seqZ 0 n) then
    ismp s = 1 /\ ncpu s = n /\ (forall i, 0 <= i < n -> cpus s !! Z.to_nat i = Some i) /\ mpbcpu s = boot_index es 0 0 /\
    ioapicid s = last_ioapic es 0 /\ lapic s = word_at (conf + 36) /\
    outs s = if m (mp + 12) =? 0 then [] else [(0x22, 0x70); (0x23, u8 (Z.lor imcr 1))]
  else ismp s = 0 /\ ncpu s = 1 /\ lapic s = 0 /\ ioapicid s = 0.

Lemma mpinit_reads mp conf es : mpconfig = Some (mp, conf) -> table (conf + SIZEOF_MPCONF) es (conf + half_at (conf + 4)) ->
  let n := Z.of_nat (length (proc_ids es)) in n <= NCPU ->
  wp mpinit (configured mp conf es) mp0.
Proof using bytes.
  intros Hc Ht n Hn. unfold configured. fold n. unfold mpinit. apply wp_bind, wp_modify. rewrite Hc. apply wp_bind, wp_modify. apply wp_bind, wp_modify.
  set (s0 := set_lapic _ _). set (e := conf + half_at (conf + 4)) in *.
  assert (half_at (conf + 4) < 2 ^ 16) as Hh.
  { unfold half_at. cbn [map le_val]. pose proof (bytes (conf + 4 + 0)). pose proof (bytes (conf + 4 + 1)). unfold is_byte in *. lia. }
  pose proof (table_length es _ _ Ht) as Hl. unfold SIZEOF_MPCONF in Hl.
  assert (exists k, Z.to_nat (2 ^ 16) = length es + k)%nat as [k Ek].
  { exists (Z.to_nat (2 ^ 16) - length es)%nat. unfold e in Hl. apply Nat2Z.inj. rewrite Nat2Z.inj_add, Nat2Z.inj_sub by (apply Nat2Z.inj_le; rewrite Z2Nat.id; lia). lia. }
  assert (mpinit_loop (Z.to_nat (2 ^ 16)) (conf + SIZEOF_MPCONF) e s0 = mpinit_loop k e e (after es s0)) as Hrun.
  { rewrite Ek. apply mpinit_loop_reads; [done|lia|done|done]. }
  destruct (after_spec es s0) as (A1 & A2 & A3 & A4 & A5 & A6 & A7); [done|simpl; unfold NCPU in Hn; lia|]. fold n in A1, A3, A7. change (ncpu s0) with 0 in *.
  set (s1 := after es s0) in *. assert (mpinit_loop k e e s1 = Done tt s1) as Hend by (destruct k; simpl; by rewrite Z.ltb_irrefl).
  apply wp_bind, wp_inv. exists tt, s1. split; [by rewrite Hrun|]. apply wp_bind, wp_gets. rewrite A3. destruct (decide (proc_ids es = seqZ 0 n)).
  - change (ismp s0 =? 0) with false. cbv iota. assert (forall i, 0 <= i < n -> cpus s1 !! Z.to_nat i = Some i) as Hcpu.
    { intros i Hi. rewrite A7, decide_True by lia. unfold u8, NCPU in *. f_equal. zlia. }
    destruct (m (mp + 12) =? 0); cbn [negb].
    + apply wp_ret. unfold mpbcpu. rewrite A1, A2, A3, A4, A5, A6. done.
    + apply wp_bind, wp_modify, wp_modify. unfold mpbcpu. simpl. rewrite A1, A2, A3, A4, A5, A6. done.
  - done.
Qed.

(** C35. [mpinit] finds the configuration table and reads it.  [searched] are the paragraphs of memory in which it looks for the floating
    pointer structure, which it knows by signature and checksum; the table it points to is used if it has the
    signature, a version of 1 or 4, and the right checksum.  If so, and the entries are of the known kinds and at most
    [NCPU] of them processors, [mpinit] ends; if the processors have the numbers 0, 1, ... in this order, it has recorded all of them with their numbers,
    the boot processor among them, the I/O APIC and the local APIC, and has masked external interrupts where the structure asks for it;
    otherwise it has fallen back to one processor.  Without a floating pointer structure, or when the first one does not point to an
    acceptable table, nothing is recorded.  The BIOS is searched from 0xF0000 on, not from 0xE0000 as the comment over [mpsearch] says. *)
Theorem mpinit_configures :
  (forall mp es, first_floating mp -> let conf := word_at (mp + 4) in acceptable conf ->
    table (conf + SIZEOF_MPCONF) es (conf + half_at (conf + 4)) -> Z.of_nat (length (proc_ids es)) <= NCPU ->
    wp mpinit (configured mp conf es) mp0) /\
  (Forall (fun p => ~ floating p) searched \/ (exists mp, first_floating mp /\ ~ acceptable (word_at (mp + 4))) ->
    mpinit mp0 = Done tt mp0).
Proof using bytes.
  split.
  - intros mp es Hf conf Ha. apply mpinit_reads. by destruct (mpconfig_table mp Hf) as [[? _]|[_ ?]].
  - intros [Hn|(mp & Hf & Ha)]; unfold mpinit, bind, modify.
    + unfold mpconfig. by rewrite (proj2 mpsearch_none Hn).
    + by destruct (mpconfig_table mp Hf) as [[_ ?]|[-> _]].
Qed.
(** An entry of an unknown type is not skipped: the loop of [mpinit] stays at it for ever, and the machine does not boot. *)
Theorem unknown_entry_hangs p es q e s fuel : table p es q -> q < e -> (m q ∉ [MPPROC; MPBUS; MPIOAPIC; MPIOINTR; MPLINTR]) ->
  0 <= ncpu s -> ncpu s + Z.of_nat (length (proc_ids es)) <= NCPU -> mpinit_loop (length es + fuel) p e s = NoFuel.
Proof.
  intros Ht Hq Hm H0 Hn. rewrite (mpinit_loop_reads es fuel p q e s Ht) by (done || lia). clear - Hq Hm. rewrite !not_elem_of_cons in Hm.
  destruct Hm as (N0 & N1 & N2 & N3 & N4 & _). generalize (after es s). induction fuel as [|fuel IH]; intros t; cbn [mpinit_loop];
    (rewrite (proj2 (Z.ltb_lt _ _)) by done); [done|]. rewrite !(proj2 (Z.eqb_neq (m q) _)) by done. cbn [orb]. cbv iota. apply IH.
Qed.
End Mp.

(** ** Two processors and an I/O APIC *)

Definition float_bytes : list Z := mp_sig ++ le_bytes 4 0xF0100 ++ [1; 4; 144; 0; 0; 0; 0; 0].
Definition conf_bytes (kind : Z) : list Z :=
  pcmp_sig ++ le_bytes 2 92 ++ [4; (147 - kind) mod 256] ++ replicate 28 0 ++ le_bytes 4 0xFEE00000 ++ replicate 4 0 ++
  [0; 0; 20; 1] ++ replicate 16 0 ++ [0; 1; 20; 3] ++ replicate 16 0 ++ [kind; 2; 17; 1] ++ le_bytes 4 0xFEC00000.
Definition bios (kind a : Z) : Z :=
  if (0xF0000 <=? a) && (a <? 0xF0010) then nth (Z.to_nat (a - 0xF0000)) float_bytes 0
  else if (0xF0100 <=? a) && (a <? 0xF0100 + 92) then nth (Z.to_nat (a - 0xF0100)) (conf_bytes kind) 0 else 0.
Definition two_cpus : list ent := [EProc 0 1; EProc 1 3; EIoapic 2].

Lemma bios_search : mpconfig (bios MPIOAPIC) = Some (0xF0000, 0xF0100) /\ mpconfig (bios 9) = Some (0xF0000, 0xF0100).
Proof. vm_compute. done. Qed.
Lemma bios_byte kind a : is_byte kind -> is_byte (bios kind a).
Proof.
  intros Hk. assert (Forall is_byte float_bytes /\ Forall is_byte (conf_bytes kind)) as [H1 H2].
  { split; [apply bytes_ok_check; vm_compute; reflexivity|]. unfold conf_bytes. repeat apply Forall_app_2; try apply le_bytes_ok; try (apply Forall_replicate; unfold is_byte; lia);
      repeat constructor; unfold is_byte in *; zlia. }
  assert (forall l i, Forall is_byte l -> is_byte (nth i l 0)) as Hn.
  { intros l i Hl. rewrite nth_lookup. destruct (l !! i) eqn:E; [|unfold is_byte; simpl; lia]. by apply (Forall_lookup_1 _ _ _ _ Hl E). }
  unfold bios. repeat case_match; try by apply Hn. unfold is_byte. lia.
Qed.

Lemma bios_bytes a : is_byte (bios MPIOAPIC a).
Proof. apply bios_byte. unfold is_byte, MPIOAPIC. lia. Qed.
Lemma bios_first : first_floating (bios MPIOAPIC) 0xF0000.
Proof. apply (mpsearch_first _ bios_bytes). vm_compute. reflexivity. Qed.
Lemma bios_word : word_at (bios MPIOAPIC) (0xF0000 + 4) = 0xF0100.
Proof. vm_compute. reflexivity. Qed.
Lemma bios_table : acceptable (bios MPIOAPIC) 0xF0100.
Proof.
  destruct (mpconfig_table _ bios_bytes _ bios_first) as [[_ H]|[H _]]; rewrite ?bios_word in H; [done|].
  by rewrite (proj1 bios_search) in H.
Qed.
Lemma mpinit_configures_witness : exists s, mpinit (bios MPIOAPIC) 0 mp0 = Done tt s /\ ncpu s = 2 /\ mpbcpu s = 1 /\ ioapicid s = 2 /\ lapic s = 0xFEE00000.
Proof.
  assert (table (bios MPIOAPIC) (0xF0100 + SIZEOF_MPCONF) two_cpus (0xF0100 + half_at (bios MPIOAPIC) (0xF0100 + 4))) as Ht by (vm_compute; done).
  assert (Z.of_nat (length (proc_ids two_cpus)) <= NCPU) as Hn by (vm_compute; done).
  pose proof (proj1 (mpinit_configures (bios MPIOAPIC) 0 bios_bytes) 0xF0000 two_cpus bios_first) as H. cbv zeta in H. rewrite bios_word in H.
  pose proof (H bios_table Ht Hn) as Hw. clear H Ht Hn.
  destruct (proj1 (wp_inv _ _ _) Hw) as ([] & s & E & Hs). unfold configured in Hs. rewrite decide_True in Hs by done. destruct Hs as (_ & H1 & _ & H2 & H3 & H4 & _).
  exists s. split_and!; [exact E|exact H1|rewrite H2; vm_compute; reflexivity|rewrite H3; reflexivity|rewrite H4; vm_compute; reflexivity].
Defined.
Lemma unknown_entry_hangs_witness : mpinit_loop (bios 9) (2 + 1000) (0xF0100 + SIZEOF_MPCONF) (0xF0100 + 92) mp0 = NoFuel.
Proof.
  apply (unknown_entry_hangs (bios 9) (0xF0100 + SIZEOF_MPCONF) [EProc 0 1; EProc 1 3] (0xF0100 + 84) (0xF0100 + 92) mp0 1000).
  - vm_compute. done.
  - lia.
  - replace (bios 9 (0xF0100 + 84)) with 9 by reflexivity. rewrite !not_elem_of_cons. split_and!; try done. apply not_elem_of_nil.
  - done.
  - done.
Defined.
