(* ===== verification/Devices.v ===== *)
(** * Interrupt controllers, timers, serial port and clock: ioapic.c, picirq.c, timer.c, uart.c, lapic.c

    The hardware is a parameter: [Hardware] has port I/O and the registers of the local APIC.  The I/O APIC is
    a register file reached through a select and a data word, as the comment in ioapic.c describes it.

    [ioapic_routes] and [pic_unmasks]: after the initialisation and any calls that enable interrupts,
    exactly the interrupts enabled can be delivered, with the vectors trap.c expects.  [lapicinit_programs]: what the
    local APIC holds after its initialisation, which ends.  [uartputc_sends], [uartinit_detects]: the serial driver never
    hangs and enables only its own interrupt.  [cmostime_reads]: the time read from the clock chip is one
    the clock showed, although it is read a byte at a time while the clock runs. *)

From S2P Require Import Prelude Trap.
From Stdlib Require Import String.

Class Hardware (P : Type) := {
  p_inb : Z -> M P Z;
  p_outb : Z -> Z -> M P unit;
  la_read : Z -> M P Z;
  la_write : Z -> Z -> M P unit
}.

Definition REG_ID : Z := 0x00.
Definition REG_VER : Z := 0x01.
Definition REG_TABLE : Z := 0x10.
Definition INT_DISABLED : Z := 0x00010000.
Definition IO_PIC1 : Z := 0x20.
Definition IO_PIC2 : Z := 0xA0.
Definition IRQ_SLAVE : Z := 2.
Definition IRQ_ERROR : Z := 19.
Definition irqmask0 : Z := Z.land 0xFFFF (Z.lnot (Z.shiftl 1 IRQ_SLAVE)).
Definition COM1 : Z := 0x3f8.
Definition IO_TIMER1 : Z := 0x040.
Definition TIMER_FREQ : Z := 1193182.
Definition TIMER_DIV (x : Z) : Z := (TIMER_FREQ + x / 2) / x.
Definition TIMER_MODE : Z := IO_TIMER1 + 3.
Definition TIMER_SEL0 : Z := 0x00.
Definition TIMER_RATEGEN : Z := 0x04.
Definition TIMER_16BIT : Z := 0x30.

Definition ID : Z := 0x0020 / 4.
Definition VER : Z := 0x0030 / 4.
Definition TPR : Z := 0x0080 / 4.
Definition EOI : Z := 0x00B0 / 4.
Definition SVR : Z := 0x00F0 / 4.
Definition ENABLE : Z := 0x00000100.
Definition ESR : Z := 0x0280 / 4.
Definition ICRLO : Z := 0x0300 / 4.
Definition INIT : Z := 0x00000500.
Definition STARTUP : Z := 0x00000600.
Definition DELIVS : Z := 0x00001000.
Definition ASSERT : Z := 0x00004000.
Definition LEVEL : Z := 0x00008000.
Definition BCAST : Z := 0x00080000.
Definition ICRHI : Z := 0x0310 / 4.
Definition TIMER : Z := 0x0320 / 4.
Definition X1 : Z := 0x0000000B.
Definition PERIODIC : Z := 0x00020000.
Definition PCINT : Z := 0x0340 / 4.
Definition LINT0 : Z := 0x0350 / 4.
Definition LINT1 : Z := 0x0360 / 4.
Definition ERROR : Z := 0x0370 / 4.
Definition MASKED : Z := 0x00010000.
Definition TICR : Z := 0x0380 / 4.
Definition TDCR : Z := 0x03E0 / 4.

Definition CMOS_PORT : Z := 0x70.
Definition CMOS_RETURN : Z := 0x71.
Definition CMOS_STATA : Z := 0x0a.
Definition CMOS_STATB : Z := 0x0b.
Definition CMOS_UIP : Z := Z.shiftl 1 7.
Definition SECS : Z := 0x00.
Definition MINS : Z := 0x02.
Definition HOURS : Z := 0x04.
Definition DAY : Z := 0x07.
Definition MONTH : Z := 0x08.
Definition YEAR : Z := 0x09.

Record rtcdate := mkRtc { second : Z; minute : Z; hour : Z; day : Z; month : Z; year : Z }.
#[global] Instance rtcdate_eq_dec : EqDecision rtcdate.
Proof. solve_decision. Defined.
Definition map_rtc (f : Z -> Z) (t : rtcdate) : rtcdate :=
  mkRtc (f (second t)) (f (minute t)) (f (hour t)) (f (day t)) (f (month t)) (f (year t)).

Definition set_reg (r v : Z) (f : Z -> Z) : Z -> Z := fun r' => if r' =? r then v else f r'.

Section Devices.
Context {P : Type} `{HW : Hardware P}.

(** [irqmask] is the variable of picirq.c, [uart] of uart.c, [ismp] and [ioapicid] of mp.c; [io_sel] is
    the register the I/O APIC has selected and [io_reg] its registers; [msgs] is what [cprintf] printed,
    without the ends of lines; [wrv] is the warm reset vector, two halfwords of low memory. *)
Record dev := mkDev {
  d_hw : P; irqmask : Z; uart : Z; ismp : Z; ioapicid : Z; io_sel : Z; io_reg : Z -> Z; msgs : list string;
  wrv : Z * Z
}.
Definition set_hw v s := mkDev v (irqmask s) (uart s) (ismp s) (ioapicid s) (io_sel s) (io_reg s) (msgs s) (wrv s).
Definition set_irqmask v s := mkDev (d_hw s) v (uart s) (ismp s) (ioapicid s) (io_sel s) (io_reg s) (msgs s) (wrv s).
Definition set_uart v s := mkDev (d_hw s) (irqmask s) v (ismp s) (ioapicid s) (io_sel s) (io_reg s) (msgs s) (wrv s).
Definition set_sel v s := mkDev (d_hw s) (irqmask s) (uart s) (ismp s) (ioapicid s) v (io_reg s) (msgs s) (wrv s).
Definition set_data v s :=
  mkDev (d_hw s) (irqmask s) (uart s) (ismp s) (ioapicid s) (io_sel s) (set_reg (io_sel s) v (io_reg s)) (msgs s) (wrv s).
Definition add_msg m s :=
  mkDev (d_hw s) (irqmask s) (uart s) (ismp s) (ioapicid s) (io_sel s) (io_reg s) (msgs s ++ [m]) (wrv s).
Definition set_wrv v s := mkDev (d_hw s) (irqmask s) (uart s) (ismp s) (ioapicid s) (io_sel s) (io_reg s) (msgs s) v.

Definition inb (port : Z) : M dev Z := lift d_hw set_hw (p_inb port).
Definition outb (port v : Z) : M dev unit := lift d_hw set_hw (p_outb port (u8 v)).
Definition lapic_at (index : Z) : M dev Z := lift d_hw set_hw (la_read index).

(** ** ioapic.c *)

Definition ioapicread (reg : Z) : M dev Z := modify (set_sel reg) ;;; gets (fun s => io_reg s (io_sel s)).
Definition ioapicwrite (reg data : Z) : M dev unit := modify (set_sel reg) ;;; modify (set_data (u32 data)).

Fixpoint ioapic_mask (n : nat) (i : Z) : M dev unit :=
  match n with
  | O => ret tt
  | S n' =>
      ioapicwrite (REG_TABLE + 2 * i) (Z.lor INT_DISABLED (T_IRQ0 + i)) ;;;
      ioapicwrite (REG_TABLE + 2 * i + 1) 0 ;;;
      ioapic_mask n' (i + 1)
  end.

Definition maxintr_of (ver : Z) : Z := Z.land (Z.shiftr ver 16) 0xFF.

Definition ioapicinit : M dev unit :=
  mp <- gets ismp ;;
  if mp =? 0 then ret tt else
  ver <- ioapicread REG_VER ;;
  idr <- ioapicread REG_ID ;;
  want <- gets ioapicid ;;
  (if negb (Z.shiftr idr 24 =? want)
   then modify (add_msg "ioapicinit: id isn't equal to ioapicid; not a MP") else ret tt) ;;;
  ioapic_mask (Z.to_nat (maxintr_of ver + 1)) 0.

Definition ioapicenable (irq cpunum : Z) : M dev unit :=
  mp <- gets ismp ;;
  if mp =? 0 then ret tt else
  ioapicwrite (REG_TABLE + 2 * irq) (T_IRQ0 + irq) ;;;
  ioapicwrite (REG_TABLE + 2 * irq + 1) (Z.shiftl cpunum 24).

(** ** picirq.c and timer.c *)

Definition picsetmask (mask : Z) : M dev unit :=
  modify (set_irqmask mask) ;;; outb (IO_PIC1 + 1) mask ;;; outb (IO_PIC2 + 1) (Z.shiftr mask 8).

Definition picenable (irq : Z) : M dev unit :=
  m <- gets irqmask ;; picsetmask (u16 (Z.land m (Z.lnot (Z.shiftl 1 irq)))).

Definition picinit : M dev unit :=
  outb (IO_PIC1 + 1) 0xFF ;;;
  outb (IO_PIC2 + 1) 0xFF ;;;
  outb IO_PIC1 0x11 ;;;
  outb (IO_PIC1 + 1) T_IRQ0 ;;;
  outb (IO_PIC1 + 1) (Z.shiftl 1 IRQ_SLAVE) ;;;
  outb (IO_PIC1 + 1) 0x3 ;;;
  outb IO_PIC2 0x11 ;;;
  outb (IO_PIC2 + 1) (T_IRQ0 + 8) ;;;
  outb (IO_PIC2 + 1) IRQ_SLAVE ;;;
  outb (IO_PIC2 + 1) 0x3 ;;;
  outb IO_PIC1 0x68 ;;;
  outb IO_PIC1 0x0a ;;;
  outb IO_PIC2 0x68 ;;;
  outb IO_PIC2 0x0a ;;;
  m <- gets irqmask ;;
  if negb (m =? 0xFFFF) then picsetmask m else ret tt.

Definition timerinit : M dev unit :=
  outb TIMER_MODE (Z.lor (Z.lor TIMER_SEL0 TIMER_RATEGEN) TIMER_16BIT) ;;;
  outb IO_TIMER1 (TIMER_DIV 100 mod 256) ;;;
  outb IO_TIMER1 (TIMER_DIV 100 / 256) ;;;
  picenable IRQ_TIMER.

(** ** uart.c *)

(** [microdelay] does nothing. *)
Fixpoint uart_wait (n : nat) : M dev unit :=
  match n with
  | O => ret tt
  | S n' => st <- inb (COM1 + 5) ;; if negb (Z.land st 0x20 =? 0) then ret tt else uart_wait n'
  end.
Definition uartputc (c : Z) : M dev unit :=
  u <- gets uart ;; if u =? 0 then ret tt else uart_wait 128 ;;; outb (COM1 + 0) c.
Definition uartgetc : M dev Z :=
  u <- gets uart ;; if u =? 0 then ret (-1) else
  st <- inb (COM1 + 5) ;;
  if Z.land st 0x01 =? 0 then ret (-1) else inb (COM1 + 0).
Fixpoint uart_puts (l : list Z) : M dev unit :=
  match l with [] => ret tt | c :: l' => uartputc c ;;; uart_puts l' end.
Definition uartinit : M dev unit :=
  outb (COM1 + 2) 0 ;;;
  outb (COM1 + 3) 0x80 ;;;
  outb (COM1 + 0) (115200 / 9600) ;;;
  outb (COM1 + 1) 0 ;;;
  outb (COM1 + 3) 0x03 ;;;
  outb (COM1 + 4) 0 ;;;
  outb (COM1 + 1) 0x01 ;;;
  st <- inb (COM1 + 5) ;;
  if st =? 0xFF then ret tt else
  modify (set_uart 1) ;;;
  inb (COM1 + 2) ;;;
  inb (COM1 + 0) ;;;
  picenable IRQ_COM1 ;;;
  ioapicenable IRQ_COM1 0 ;;;
  uart_puts [120; 118; 54; 46; 46; 46; 10].

(** ** lapic.c

    [lapic] tells whether the pointer of that name is set: without the tables of mp.c there is no local APIC. *)

Definition lapicw (index value : Z) : M dev unit :=
  lift d_hw set_hw (la_write index (u32 value)) ;;; lapic_at ID ;;; ret tt.

Fixpoint lapic_delivered (fuel : nat) : M dev unit :=
  match fuel with
  | O => nofuel
  | S fuel' => v <- lapic_at ICRLO ;; if negb (Z.land v DELIVS =? 0) then lapic_delivered fuel' else ret tt
  end.

Definition lapicinit (fuel : nat) (lapic : bool) : M dev unit :=
  if negb lapic then ret tt else
  lapicw SVR (Z.lor ENABLE (T_IRQ0 + IRQ_SPURIOUS)) ;;;
  lapicw TDCR X1 ;;;
  lapicw TIMER (Z.lor PERIODIC (T_IRQ0 + IRQ_TIMER)) ;;;
  lapicw TICR 10000000 ;;;
  lapicw LINT0 MASKED ;;;
  lapicw LINT1 MASKED ;;;
  ver <- lapic_at VER ;;
  (if 4 <=? Z.land (Z.shiftr ver 16) 0xFF then lapicw PCINT MASKED else ret tt) ;;;
  lapicw ERROR (T_IRQ0 + IRQ_ERROR) ;;;
  lapicw ESR 0 ;;;
  lapicw ESR 0 ;;;
  lapicw EOI 0 ;;;
  lapicw ICRHI 0 ;;;
  lapicw ICRLO (Z.lor (Z.lor BCAST INIT) LEVEL) ;;;
  lapic_delivered fuel ;;;
  lapicw TPR 0.

Definition lapiceoi (lapic : bool) : M dev unit :=
  if lapic then lapicw EOI 0 else ret tt.

Definition lapicstartap (apicid addr : Z) : M dev unit :=
  outb CMOS_PORT 0xF ;;;
  outb (CMOS_PORT + 1) 0x0A ;;;
  modify (set_wrv (0, u16 (Z.shiftr addr 4))) ;;;
  lapicw ICRHI (Z.shiftl apicid 24) ;;;
  lapicw ICRLO (Z.lor (Z.lor INIT LEVEL) ASSERT) ;;;
  lapicw ICRLO (Z.lor INIT LEVEL) ;;;
  lapicw ICRHI (Z.shiftl apicid 24) ;;;
  lapicw ICRLO (Z.lor STARTUP (Z.shiftr addr 12)) ;;;
  lapicw ICRHI (Z.shiftl apicid 24) ;;;
  lapicw ICRLO (Z.lor STARTUP (Z.shiftr addr 12)).

Definition cmos_read (reg : Z) : M dev Z := outb CMOS_PORT reg ;;; inb CMOS_RETURN.

Definition fill_rtcdate : M dev rtcdate :=
  s <- cmos_read SECS ;; m <- cmos_read MINS ;; h <- cmos_read HOURS ;;
  d <- cmos_read DAY ;; mo <- cmos_read MONTH ;; y <- cmos_read YEAR ;;
  ret (mkRtc s m h d mo y).

Fixpoint cmos_loop (fuel : nat) : M dev rtcdate :=
  match fuel with
  | O => nofuel
  | S fuel' =>
      t1 <- fill_rtcdate ;;
      a <- cmos_read CMOS_STATA ;;
      if negb (Z.land a CMOS_UIP =? 0) then cmos_loop fuel' else
      t2 <- fill_rtcdate ;;
      if bool_decide (t1 = t2) then ret t1 else cmos_loop fuel'
  end.

Definition CONV (x : Z) : Z := Z.shiftr x 4 * 10 + Z.land x 0xf.

Definition cmostime (fuel : nat) : M dev rtcdate :=
  sb <- cmos_read CMOS_STATB ;;
  let bcd := Z.land sb (Z.shiftl 1 2) =? 0 in
  t1 <- cmos_loop fuel ;;
  let t1 := if bcd then map_rtc CONV t1 else t1 in
  ret (mkRtc (second t1) (minute t1) (hour t1) (day t1) (month t1) (year t1 + 2000)).

(** ** Which interrupts can be delivered *)

Fixpoint enable_all (es : list (Z * Z)) : M dev unit :=
  match es with [] => ret tt | (irq, cpu) :: es' => ioapicenable irq cpu ;;; enable_all es' end.

(** The processor the last call that enabled [i] named. *)
Fixpoint routed (es : list (Z * Z)) (i : Z) : option Z :=
  match es with
  | [] => None
  | (irq, cpu) :: es' => match routed es' i with Some c => Some c | None => if irq =? i then Some cpu else None end
  end.

(** The two words of the redirection table for an interrupt. *)
Definition entry (i : Z) (r : option Z) : Z * Z :=
  match r with None => (INT_DISABLED + (T_IRQ0 + i), 0) | Some c => (T_IRQ0 + i, u32 (Z.shiftl c 24)) end.

Definition table (n : Z) (f : Z -> option Z) (s : dev) : Prop :=
  forall i, 0 <= i < n -> (io_reg s (REG_TABLE + 2 * i), io_reg s (REG_TABLE + 2 * i + 1)) = entry i (f i).

Lemma wp_ioapicwrite r v (Q : unit -> dev -> Prop) s :
  Q tt (set_data (u32 v) (set_sel r s)) -> wp (ioapicwrite r v) Q s.
Proof. done. Qed.

Lemma set_reg_eq r v f : set_reg r v f r = v.
Proof. unfold set_reg. by rewrite Z.eqb_refl. Qed.
Lemma set_reg_ne r v f r' : r' <> r -> set_reg r v f r' = f r'.
Proof. intros. unfold set_reg. by rewrite (proj2 (Z.eqb_neq _ _)). Qed.

Lemma disabled_vector i : 0 <= i < 256 -> u32 (Z.lor INT_DISABLED (T_IRQ0 + i)) = INT_DISABLED + (T_IRQ0 + i).
Proof.
  intros. change INT_DISABLED with (Z.shiftl 1 16). unfold T_IRQ0.
  rewrite lor_shiftl_add by lia. rewrite u32_small by lia. done.
Qed.

(** Writing the pair of one interrupt leaves the other pairs as they are. *)
Lemma table_write n f s i lo hi r :
  (forall j, 0 <= j < n -> j <> i -> (io_reg s (REG_TABLE + 2 * j), io_reg s (REG_TABLE + 2 * j + 1)) = entry j (f j)) ->
  (lo, hi) = entry i r ->
  table n (fun j => if j =? i then r else f j)
    (set_data hi (set_sel (REG_TABLE + 2 * i + 1) (set_data lo (set_sel (REG_TABLE + 2 * i) s)))).
Proof.
  intros T E j Hj. cbn [io_reg io_sel set_data set_sel]. destruct (Z.eqb_spec j i) as [->|Hne].
  - rewrite set_reg_eq, set_reg_ne by lia. by rewrite set_reg_eq.
  - rewrite !set_reg_ne by lia. by apply T.
Qed.

Lemma ioapic_mask_ok n i s : 0 <= i -> i + Z.of_nat n <= 256 -> table i (fun _ => None) s ->
  wp (ioapic_mask n i) (fun _ s' => table (i + Z.of_nat n) (fun _ => None) s' /\ ismp s' = ismp s) s.
Proof.
  revert i s. induction n as [|n IH]; intros i s Hi Hn T; cbn [ioapic_mask].
  - apply wp_ret. by rewrite Z.add_0_r.
  - apply wp_bind, wp_ioapicwrite, wp_bind, wp_ioapicwrite. rewrite disabled_vector by lia.
    replace (i + Z.of_nat (S n)) with (i + 1 + Z.of_nat n) by lia.
    eapply wp_mono; [apply IH; [lia..|]|by intros].
    intros j Hj. etrans; [apply (table_write (i + 1) (fun _ => None) s i _ _ None); [|done|done]|by case_match].
    intros k ??. apply T. lia.
Qed.

Lemma enable_all_ok es n f s : ismp s <> 0 -> Forall (fun e => 0 <= e.1 < 256) es -> table n f s ->
  wp (enable_all es) (fun _ => table n (fun i => match routed es i with Some c => Some c | None => f i end)) s.
Proof.
  revert f s. induction es as [|[irq cpu] es IH]; intros f s Hmp Hes T; cbn [enable_all routed]; [by apply wp_ret|].
  apply Forall_cons in Hes as [Hirq Hes]. cbn [fst] in Hirq.
  apply wp_bind, wp_bind, wp_gets. rewrite (proj2 (Z.eqb_neq _ _) Hmp).
  apply wp_bind, wp_ioapicwrite, wp_ioapicwrite.
  eapply wp_mono; [apply IH; [done..|]|].
  - apply (table_write n f s irq _ _ (Some cpu)); [by intros; apply T|]. by rewrite u32_small by (unfold T_IRQ0; lia).
  - intros ? s' T' i Hi. rewrite (T' i Hi). f_equal. destruct (routed es i); [done|].
    by rewrite (Z.eqb_sym irq i); destruct (i =? irq).
Qed.

(** After [ioapicinit] and any sequence of [ioapicenable] on a machine with an I/O APIC, every interrupt
    line the chip has is in one of two states: masked, if nothing enabled it; else unmasked, edge-triggered, with
    vector [T_IRQ0 + i], which is the one trap.c dispatches on, and routed to the processor the last call named. *)
Theorem ioapic_routes es s : ismp s <> 0 -> Forall (fun e => 0 <= e.1 < 256) es ->
  wp (ioapicinit ;;; enable_all es) (fun _ => table (maxintr_of (io_reg s REG_VER) + 1) (routed es)) s.
Proof.
  intros Hmp Hes. apply wp_bind. unfold ioapicinit. apply wp_bind, wp_gets. rewrite (proj2 (Z.eqb_neq _ _) Hmp).
  assert (0 <= maxintr_of (io_reg s REG_VER) < 256) as Hn.
  { unfold maxintr_of. change 0xFF with (Z.ones 8). rewrite Z.land_ones by lia. apply Z.mod_pos_bound. lia. }
  apply wp_bind, wp_bind, wp_modify, wp_gets, wp_bind, wp_bind, wp_modify, wp_gets, wp_bind, wp_gets, wp_bind.
  cbn [io_sel set_sel io_reg ioapicid]. apply (wp_mono _ (fun _ s' => ismp s' = ismp s)); [by case_match|].
  intros _ s1 E. eapply wp_mono; [apply ioapic_mask_ok; [lia..|intros ??; lia]|].
  intros ? s2 [T E2]. rewrite Z2Nat.id, Z.add_0_l in T by lia.
  eapply wp_mono; [apply enable_all_ok; [by rewrite E2, E|done|exact T]|].
  intros ? s3 T3 i Hi. rewrite (T3 i Hi). by destruct (routed es i).
Qed.

(** *** The interrupt controllers of a single-processor machine *)

(** The ports remember the byte last written. *)
Class Latches := {
  latch : P -> Z -> Z;
  latch_outb port v (h : P) : wp (p_outb port v) (fun _ h' => latch h' = set_reg port v (latch h)) h;
  latch_inb port (h : P) : wp (p_inb port) (fun _ h' => latch h' = latch h) h
}.
Context `{LA : Latches}.

Lemma wp_outb port v (Q : unit -> dev -> Prop) s :
  (forall h, latch h = set_reg port (u8 v) (latch (d_hw s)) -> Q tt (set_hw h s)) -> wp (outb port v) Q s.
Proof. intros H. apply wp_lift. eapply wp_mono; [apply latch_outb|]. intros [] h E. by apply H. Qed.

(** The lines the two chips mask, the slave's above the master's. *)
Definition pic_mask (s : dev) : Z := latch (d_hw s) (IO_PIC1 + 1) + 2 ^ 8 * latch (d_hw s) (IO_PIC2 + 1).

(** The chips hold [irqmask], in which the lines of [E] are clear. *)
Definition unmasked (E : Z -> bool) (s : dev) : Prop :=
  pic_mask s = irqmask s /\ 0 <= irqmask s < 2 ^ 16 /\ (forall i, 0 <= i < 16 -> Z.testbit (irqmask s) i = negb (E i)).

Lemma picsetmask_ok m E s : 0 <= m < 2 ^ 16 -> (forall i, 0 <= i < 16 -> Z.testbit m i = negb (E i)) ->
  wp (picsetmask m) (fun _ => unmasked E) s.
Proof.
  intros Hm HE. apply wp_bind, wp_modify, wp_bind, wp_outb. intros h1 E1. apply wp_outb. intros h2 E2.
  split; [|done]. unfold pic_mask. cbn [d_hw set_hw irqmask set_irqmask].
  rewrite E2, set_reg_eq, set_reg_ne by done. cbn [d_hw set_hw]. rewrite E1, set_reg_eq.
  rewrite Z.shiftr_div_pow2 by lia. unfold u8. zlia.
Qed.

Lemma picenable_ok irq E s : 0 <= irq < 16 -> unmasked E s ->
  wp (picenable irq) (fun _ => unmasked (fun i => (i =? irq) || E i)) s.
Proof.
  intros Hirq (_ & Hm & HE). apply wp_bind, wp_gets, picsetmask_ok; [apply Z.mod_pos_bound; lia|].
  intros i Hi. unfold u16. rewrite Z.mod_pow2_bits_low, Z.land_spec, Z.lnot_spec, HE, Z.shiftl_1_l by lia.
  rewrite Z.pow2_bits_eqb, (Z.eqb_sym irq i) by lia. by destruct (i =? irq), (E i).
Qed.

Fixpoint picenable_all (es : list Z) : M dev unit :=
  match es with [] => ret tt | irq :: es' => picenable irq ;;; picenable_all es' end.

Lemma unmasked_ext (E E' : Z -> bool) s : (forall i, 0 <= i < 16 -> E i = E' i) -> unmasked E s -> unmasked E' s.
Proof. intros HE (? & ? & B). split; [done|]. split; [done|]. intros i Hi. by rewrite <- HE, B. Qed.

Lemma picenable_all_ok es E s : Forall (fun i => 0 <= i < 16) es -> unmasked E s ->
  wp (picenable_all es) (fun _ => unmasked (fun i => E i || bool_decide (i ∈ es))) s.
Proof.
  revert E s. induction es as [|irq es IH]; intros E s Hes HE; cbn [picenable_all].
  - apply wp_ret. apply (unmasked_ext E); [|done]. intros. rewrite bool_decide_false by apply not_elem_of_nil. by rewrite orb_false_r.
  - apply Forall_cons in Hes as [Hirq Hes]. apply wp_bind. eapply wp_mono; [by apply picenable_ok|].
    intros ? s1 HE1. eapply wp_mono; [exact (IH _ _ Hes HE1)|]. intros ? s2. apply unmasked_ext. intros i Hi.
    rewrite (bool_decide_ext (i ∈ irq :: es) (i = irq \/ i ∈ es)) by apply elem_of_cons.
    rewrite bool_decide_or. destruct (Z.eqb_spec i irq).
    + rewrite (bool_decide_true (i = irq)) by done. by destruct (E i).
    + rewrite (bool_decide_false (i = irq)) by done. by destruct (E i).
Qed.

(** After [picinit] and any sequence of [picenable] the lines that are not masked are those enabled
    and the one by which the slave reports to the master. *)
Theorem pic_unmasks es s : irqmask s = irqmask0 -> Forall (fun i => 0 <= i < 16) es ->
  wp (picinit ;;; picenable_all es) (fun _ s' => forall i, 0 <= i < 16 ->
    Z.testbit (pic_mask s') i = negb (bool_decide (i = IRQ_SLAVE \/ i ∈ es))) s.
Proof.
  intros Hm Hes. apply wp_bind. unfold picinit. do 14 (apply wp_bind, wp_outb; intros ? _).
  apply wp_bind, wp_gets. cbn [irqmask set_hw]. rewrite Hm. cbn [negb Z.eqb irqmask0].
  change (negb (irqmask0 =? 0xFFFF)) with true. cbv iota.
  eapply wp_mono; [apply (picsetmask_ok _ (fun i => i =? IRQ_SLAVE)); [done|]|].
  { intros i Hi. unfold irqmask0. rewrite Z.land_spec, Z.lnot_spec, Z.shiftl_1_l, Z.pow2_bits_eqb by (unfold IRQ_SLAVE; lia).
    change 0xFFFF with (Z.ones 16). by rewrite Z.ones_spec_low, (Z.eqb_sym IRQ_SLAVE i) by lia. }
  intros ? s1 H1. eapply wp_mono; [exact (picenable_all_ok _ _ _ Hes H1)|]. intros ? s2 (-> & _ & B) i Hi.
  rewrite (B i Hi), bool_decide_or. do 2 f_equal.
  destruct (Z.eqb_spec i IRQ_SLAVE); symmetry; [by apply bool_decide_true|by apply bool_decide_false].
Qed.

(** *** The serial port *)

Lemma wp_inb port (Q : Z -> dev -> Prop) s :
  (forall v h, latch h = latch (d_hw s) -> Q v (set_hw h s)) -> wp (inb port) Q s.
Proof. intros H. apply wp_lift. eapply wp_mono; [apply latch_inb|]. intros v h E. by apply H. Qed.

Lemma wp_uart_wait n (Q : unit -> dev -> Prop) s :
  (forall h, latch h = latch (d_hw s) -> Q tt (set_hw h s)) -> Q tt s -> wp (uart_wait n) Q s.
Proof.
  revert s. induction n as [|n IH]; intros s HQ H0; [done|]. cbn [uart_wait].
  apply wp_bind, wp_inb. intros v h E. case_match; [by apply wp_ret, HQ|].
  apply IH; [|by apply HQ]. intros h' E'. apply (HQ h'). by rewrite E'.
Qed.

(** [uartputc] gives up waiting after 128 polls: whatever the port answers, the call ends and the character has been
    written to it; without a port it does nothing. *)
Theorem uartputc_sends c s :
  wp (uartputc c) (fun _ s' => if uart s =? 0 then s' = s else
    latch (d_hw s') (COM1 + 0) = u8 c /\ uart s' = uart s /\ irqmask s' = irqmask s) s.
Proof.
  apply wp_bind, wp_gets. destruct (uart s =? 0); [done|].
  apply wp_bind, wp_uart_wait; intros; apply wp_outb; intros h0 E0; cbn [d_hw set_hw]; by rewrite E0, set_reg_eq.
Qed.

Lemma uart_puts_keeps l s : wp (uart_puts l) (fun _ s' => uart s' = uart s /\ irqmask s' = irqmask s) s.
Proof.
  revert s. induction l as [|c l IH]; intros s; cbn [uart_puts]; [done|].
  apply wp_bind. eapply wp_mono; [apply uartputc_sends|]. intros ? s1 H. eapply wp_mono; [apply IH|].
  destruct (uart s =? 0); [by subst s1|]. destruct H as (_ & E1 & E2). intros ? s2 [-> ->]. done.
Qed.

(** [uartinit] either finds no port and leaves the driver off, or turns it on and lets its interrupt through, all
    other lines as they were. *)
Theorem uartinit_detects s : 0 <= irqmask s < 2 ^ 16 ->
  wp uartinit (fun _ s' => (uart s' = uart s /\ irqmask s' = irqmask s) \/
    (uart s' = 1 /\ forall i, 0 <= i < 16 -> Z.testbit (irqmask s') i = negb (i =? IRQ_COM1) && Z.testbit (irqmask s) i)) s.
Proof.
  intros Hm. unfold uartinit. do 7 (apply wp_bind, wp_outb; intros ? _).
  apply wp_bind, wp_inb. intros st ? _. destruct (st =? 0xFF); [by apply wp_ret; left|].
  apply wp_bind, wp_modify. do 2 (apply wp_bind, wp_inb; intros ?? _).
  apply wp_bind, wp_bind, wp_gets, wp_bind, wp_modify, wp_bind, wp_outb. intros ? _. apply wp_outb. intros ? _.
  cbn [irqmask set_hw set_uart]. apply wp_bind, wp_bind, wp_gets.
  eapply (wp_mono _ (fun _ s' => uart s' = 1 /\ irqmask s' = u16 (Z.land (irqmask s) (Z.lnot (Z.shiftl 1 IRQ_COM1))))).
  { by case_match. }
  intros ? s1 [U I]. eapply wp_mono; [apply uart_puts_keeps|]. intros ? s2 [-> ->]. right. split; [done|].
  intros i Hi. rewrite I. unfold u16. rewrite Z.mod_pow2_bits_low, Z.land_spec, Z.lnot_spec, Z.shiftl_1_l by lia.
  rewrite Z.pow2_bits_eqb, (Z.eqb_sym _ i), andb_comm by done. done.
Qed.

(** *** The local APIC *)

(** Registers keep what is written to them.  Reading the command register also tells whether the last command is still
    being delivered, which ends after a bounded number of reads. *)
Class LocalApic := {
  la_view : P -> Z -> Z;
  la_left : P -> nat;
  la_bound : nat;
  la_left_bound h : (la_left h <= la_bound)%nat;
  la_write_ok i v h : wp (la_write i v) (fun _ h' => la_view h' = set_reg i v (la_view h)) h;
  la_read_ok i h : wp (la_read i) (fun v h' => la_view h' = la_view h /\
    (i <> ICRLO -> v = la_view h i) /\ (i = ICRLO -> Z.land v DELIVS = 0 \/ (la_left h' < la_left h)%nat)) h
}.
Context `{AP : LocalApic}.

Lemma wp_lapicw i v (Q : unit -> dev -> Prop) s :
  (forall h, la_view h = set_reg i (u32 v) (la_view (d_hw s)) -> Q tt (set_hw h s)) -> wp (lapicw i v) Q s.
Proof.
  intros H. apply wp_bind, wp_lift. eapply wp_mono; [apply la_write_ok|]. intros ? h1 E1.
  apply wp_bind, wp_lift. eapply wp_mono; [apply la_read_ok|]. intros ? h2 (E2 & _).
  apply wp_ret. apply (H h2). cbn [d_hw set_hw] in E2. by rewrite E2.
Qed.

Lemma wp_lapic_delivered fuel (Q : unit -> dev -> Prop) s : (la_left (d_hw s) < fuel)%nat ->
  (forall h, la_view h = la_view (d_hw s) -> Q tt (set_hw h s)) -> wp (lapic_delivered fuel) Q s.
Proof.
  revert s. induction fuel as [|fuel IH]; intros s Hf HQ; [lia|]. cbn [lapic_delivered].
  apply wp_bind, wp_lift. eapply wp_mono; [apply la_read_ok|]. intros v h (E & _ & D). specialize (D eq_refl).
  destruct (Z.eqb_spec (Z.land v DELIVS) 0); cbn [negb]; [by apply wp_ret, HQ|].
  apply IH; cbn [d_hw set_hw]; [destruct D; [done|lia]|]. intros h' E'. apply (HQ h'). by rewrite E'.
Qed.

(** [lapicinit] ends, and leaves the local APIC enabled with the timer periodic on the vector of the timer interrupt,
    spurious interrupts and errors on theirs, the two external lines masked, the performance counter masked where the
    chip has one, and no interrupt held back by priority. *)
Theorem lapicinit_programs fuel s : (la_bound < fuel)%nat ->
  wp (lapicinit fuel true) (fun _ s' =>
    let v := la_view (d_hw s) in let v' := la_view (d_hw s') in
    v' SVR = ENABLE + (T_IRQ0 + IRQ_SPURIOUS) /\ v' TIMER = PERIODIC + (T_IRQ0 + IRQ_TIMER) /\ v' TDCR = X1 /\
    v' TICR = 10000000 /\ v' ERROR = T_IRQ0 + IRQ_ERROR /\ v' LINT0 = MASKED /\ v' LINT1 = MASKED /\ v' TPR = 0 /\
    v' PCINT = (if 4 <=? Z.land (Z.shiftr (v VER) 16) 0xFF then MASKED else v PCINT)) s.
Proof.
  intros Hf. unfold lapicinit. cbn [negb].
  do 6 (apply wp_bind, wp_lapicw; intros ? ?). cbn [d_hw set_hw] in *.
  apply wp_bind, wp_lift. eapply wp_mono; [apply la_read_ok|]. intros ver h6 (E6 & V & _). cbn [d_hw set_hw] in *.
  apply wp_bind. apply (wp_mono _ (fun _ s' => la_view (d_hw s') =
    if 4 <=? Z.land (Z.shiftr ver 16) 0xFF then set_reg PCINT MASKED (la_view h6) else la_view h6)).
  { case_match; [|done]. apply wp_lapicw. intros h' E'. exact E'. }
  intros ? s7 E7. do 6 (apply wp_bind, wp_lapicw; intros ? ?). cbn [d_hw set_hw] in *.
  apply wp_bind, wp_lapic_delivered; [cbn [d_hw set_hw]; match goal with |- (la_left ?h < _)%nat => pose proof (la_left_bound h) end; lia|].
  intros ? ?. apply wp_lapicw. intros ? ?. cbn [d_hw set_hw] in *.
  assert (V' : ver = la_view (d_hw s) VER) by (rewrite V by done; by repeat match goal with E : la_view _ = _ |- _ => rewrite E; clear E end).
  cbv zeta. rewrite <- V'. clear V V'.
  repeat match goal with E : la_view ?h = _ |- context [la_view ?h] => rewrite E end.
  destruct (4 <=? _); split_and!; reflexivity.
Qed.

(** [lapicstartap] points the warm reset vector at the code of the other processor and ends with the
    command that starts the processor at the page of that code. *)
Theorem lapicstartap_commands apicid addr s :
  wp (lapicstartap apicid addr) (fun _ s' =>
    wrv s' = (0, u16 (Z.shiftr addr 4)) /\ la_view (d_hw s') ICRHI = u32 (Z.shiftl apicid 24) /\
    la_view (d_hw s') ICRLO = u32 (Z.lor STARTUP (Z.shiftr addr 12))) s.
Proof.
  unfold lapicstartap. do 2 (apply wp_bind, wp_outb; intros ? _). apply wp_bind, wp_modify.
  do 6 (apply wp_bind, wp_lapicw; intros ? ?). apply wp_lapicw. intros hf E. cbn [d_hw set_hw wrv set_wrv] in *.
  split; [done|]. rewrite E, set_reg_eq, set_reg_ne by done. split; [|done].
  match goal with E : la_view ?h = set_reg ICRHI _ _ |- la_view ?h _ = _ => by rewrite E, set_reg_eq end.
Qed.

(** *** The clock *)

(** The registers of the clock chip as a function of time, which passes from one read to the next. *)
Class Clock := {
  now : P -> nat;
  sel : P -> Z;
  rtc : nat -> Z -> Z;
  clock_select r h : wp (p_outb CMOS_PORT r) (fun _ h' => now h' = now h /\ sel h' = r) h;
  clock_read h : wp (p_inb CMOS_RETURN) (fun v h' => v = rtc (now h) (sel h) /\ now h' = S (now h)) h
}.
Context `{CL : Clock}.

(** The six registers are read at six times. *)
Definition regs (n : nat) : rtcdate :=
  mkRtc (rtc n SECS) (rtc (1 + n) MINS) (rtc (2 + n) HOURS) (rtc (3 + n) DAY) (rtc (4 + n) MONTH) (rtc (5 + n) YEAR).
Definition updating (n : nat) : bool := negb (Z.land (rtc n CMOS_STATA) CMOS_UIP =? 0).

(** The way the chip writes a number below one hundred. *)
Definition bcd_of (x : Z) : Z := 16 * (x / 10) + x mod 10.
Definition encode (bcd : bool) (t : rtcdate) : rtcdate := if bcd then map_rtc bcd_of t else t.
Definition shows (bcd : bool) (t : rtcdate) (n : nat) : Prop :=
  let e := encode bcd t in
  rtc n SECS = second e /\ rtc n MINS = minute e /\ rtc n HOURS = hour e /\
  rtc n DAY = day e /\ rtc n MONTH = month e /\ rtc n YEAR = year e.
Definition two_digits (t : rtcdate) : Prop :=
  0 <= second t < 100 /\ 0 <= minute t < 100 /\ 0 <= hour t < 100 /\
  0 <= day t < 100 /\ 0 <= month t < 100 /\ 0 <= year t < 100.

Lemma CONV_bcd x : 0 <= x < 100 -> CONV (bcd_of x) = x.
Proof.
  intros. unfold CONV, bcd_of. change 0xf with (Z.ones 4). rewrite Z.land_ones, Z.shiftr_div_pow2 by lia. zlia.
Qed.
Lemma CONV_date t : two_digits t -> map_rtc CONV (map_rtc bcd_of t) = t.
Proof. intros (?&?&?&?&?&?). destruct t. unfold map_rtc. cbn in *. by rewrite !CONV_bcd. Qed.

Lemma wp_cmos_read r (Q : Z -> dev -> Prop) s : 0 <= r < 2 ^ 8 ->
  (forall h, now h = S (now (d_hw s)) -> Q (rtc (now (d_hw s)) r) (set_hw h s)) -> wp (cmos_read r) Q s.
Proof.
  intros Hr HQ. apply wp_bind, wp_lift. unfold u8. rewrite Z.mod_small by done.
  eapply wp_mono; [apply clock_select|]. intros ? h1 [E1 S1].
  apply wp_lift. eapply wp_mono; [apply clock_read|]. cbn [d_hw set_hw]. intros ? h2 [-> E2].
  rewrite S1, E1. apply (HQ h2). lia.
Qed.

Lemma wp_fill_rtcdate (Q : rtcdate -> dev -> Prop) s :
  (forall h, now h = (6 + now (d_hw s))%nat -> Q (regs (now (d_hw s))) (set_hw h s)) -> wp fill_rtcdate Q s.
Proof.
  intros HQ. unfold fill_rtcdate.
  do 6 (apply wp_bind, wp_cmos_read; [done|intros ? ?]). cbn [d_hw set_hw] in *.
  repeat match goal with E : now ?h = _, E' : context [now ?h] |- _ => lazymatch type of E' with now h = _ => fail | _ => rewrite E in E' end end.
  apply wp_ret. repeat match goal with E : now ?h = _ |- context [rtc (now ?h)] => rewrite E end.
  by apply HQ.
Qed.

Section Reading.
Context (bcd : bool) (D : nat -> rtcdate) (N : nat).
(** While the flag of an update in progress is clear, an update is at least 244 microseconds away: the registers
    keep the date for the six reads that follow. *)
Hypothesis promise : forall n, updating n = false -> forall i, (n < i <= n + 6)%nat -> shows bcd (D n) i.
Hypothesis digits : forall n, two_digits (D n).
(** The mode bit of the second status register tells which encoding the chip uses. *)
Hypothesis mode : forall n, (Z.land (rtc n CMOS_STATB) (Z.shiftl 1 2) =? 0) = bcd.
(** Updates are a second apart: at some time the next twenty-six reads fall between two of them. *)
Hypothesis quiet : forall i, (N <= i < N + 26)%nat -> updating i = false /\ shows bcd (D N) i.

Lemma shows_regs t n : (forall i, (n <= i < n + 6)%nat -> shows bcd t i) -> regs n = encode bcd t.
Proof.
  intros H. unfold regs. destruct (encode bcd t) as [s m h d mo y] eqn:E.
  assert (forall i, (n <= i < n + 6)%nat -> rtc i SECS = s /\ rtc i MINS = m /\ rtc i HOURS = h /\
    rtc i DAY = d /\ rtc i MONTH = mo /\ rtc i YEAR = y) as K.
  { intros i Hi. specialize (H i Hi). unfold shows in H. by rewrite E in H. }
  f_equal; apply K; lia.
Qed.

Lemma wp_cmos_loop fuel s : (now (d_hw s) <= N + 13)%nat -> (N + 13 - now (d_hw s) < fuel)%nat ->
  wp (cmos_loop fuel) (fun t _ => exists n, (now (d_hw s) <= n)%nat /\ t = encode bcd (D n)) s.
Proof.
  revert s. induction fuel as [|fuel IH]; intros s H1 H2; [lia|]. cbn [cmos_loop].
  apply wp_bind, wp_fill_rtcdate. intros h1 E1. apply wp_bind, wp_cmos_read; [done|]. intros h2 E2.
  cbn [d_hw set_hw] in *. set (n := now (d_hw s)) in *. rewrite E1 in *. fold (updating (6 + n)).
  assert (Hq : (N <= n)%nat -> updating (6 + n) = false /\ regs n = regs (7 + n)).
  { intros. split; [apply quiet; lia|]. rewrite !(shows_regs (D N)); [done|intros; apply quiet; lia..]. }
  destruct (updating (6 + n)) eqn:U.
  - destruct (decide (N <= n)%nat) as [L|L]; [by destruct (Hq L)|].
    eapply wp_mono; [apply IH; cbn [d_hw set_hw]; lia|]. cbn [d_hw set_hw]. intros t ? (k & ? & ->). exists k. split; [lia|done].
  - apply wp_bind, wp_fill_rtcdate. intros h3 E3. cbn [d_hw set_hw] in *. rewrite E2 in *. case_bool_decide as Ht.
    + apply wp_ret. exists (6 + n)%nat. split; [lia|]. rewrite Ht. apply shows_regs. intros i Hi. apply promise; [done|lia].
    + destruct (decide (N <= n)%nat) as [L|L]; [by destruct (Hq L)|].
      eapply wp_mono; [apply IH; cbn [d_hw set_hw]; lia|]. cbn [d_hw set_hw]. intros t ? (k & ? & ->). exists k. split; [lia|done].
Qed.

(** C36. The clock runs while [cmostime] reads it register by register.  By the promise of the chip about its update
    flag, and as updates are rare, [cmostime] ends, and the date it returns is one that the clock showed at one moment during
    the call, decoded, with the year counted from 2000; it is never a mixture of two dates. *)
Theorem cmostime_reads fuel s : (now (d_hw s) <= N)%nat -> (N + 13 - now (d_hw s) < fuel)%nat ->
  wp (cmostime fuel) (fun t _ => exists n, (now (d_hw s) < n)%nat /\
    t = mkRtc (second (D n)) (minute (D n)) (hour (D n)) (day (D n)) (month (D n)) (year (D n) + 2000)) s.
Proof using promise digits mode quiet.
  intros H1 H2. unfold cmostime. apply wp_bind, wp_cmos_read; [done|]. intros h1 E1. rewrite mode.
  apply wp_bind. eapply wp_mono; [apply wp_cmos_loop; cbn [d_hw set_hw]; lia|].
  cbn [d_hw set_hw]. intros ? s' (n & Hn & ->). apply wp_ret. exists n. split; [lia|].
  unfold encode. destruct bcd; [|done]. by rewrite CONV_date.
Qed.
End Reading.
End Devices.
Arguments dev : clear implicits.

(** ** A machine

    Ports and registers that keep what is written to them, and a clock that goes from the last second of 2026 to
    the first of 2027: its update flag is set from the tenth read on, and for four reads its registers hold garbage. *)
Module Toy.
Record machine := mkMachine { m_latch : Z -> Z; m_la : Z -> Z; m_now : nat }.

Definition date (n : nat) : rtcdate := if decide (n < 21)%nat then mkRtc 59 59 23 31 12 26 else mkRtc 0 0 0 1 1 27.
Definition field (t : rtcdate) (r : Z) : Z :=
  if r =? SECS then second t else if r =? MINS then minute t else if r =? HOURS then hour t else
  if r =? DAY then day t else if r =? MONTH then month t else if r =? YEAR then year t else 0.
Definition toy_rtc (n : nat) (r : Z) : Z :=
  if r =? CMOS_STATA then (if decide (10 <= n < 21)%nat then CMOS_UIP else 0) else
  if decide (17 <= n < 21)%nat then (if r =? CMOS_STATB then 0 else 0xFF) else field (map_rtc bcd_of (date n)) r.

#[global] Instance toy_hardware : Hardware machine := {
  p_inb port := fun m => Done (toy_rtc (m_now m) (m_latch m CMOS_PORT)) (mkMachine (m_latch m) (m_la m) (S (m_now m)));
  p_outb port v := modify (fun m => mkMachine (set_reg port v (m_latch m)) (m_la m) (m_now m));
  la_read i := gets (fun m => if i =? ICRLO then Z.land (m_la m i) (Z.lnot DELIVS) else m_la m i);
  la_write i v := modify (fun m => mkMachine (m_latch m) (set_reg i v (m_la m)) (m_now m))
}.
#[global] Instance toy_latches : Latches (P := machine).
Proof. by refine {| latch := m_latch |}. Defined.
#[global] Instance toy_apic : LocalApic (P := machine).
Proof.
  refine {| la_view := m_la; la_left := fun _ => 0%nat; la_bound := 0%nat |}; [done..|].
  intros i h. apply wp_gets. split_and!; [done|by intros; rewrite (proj2 (Z.eqb_neq _ _))|].
  intros ->. left. rewrite Z.eqb_refl, <- Z.land_assoc. by rewrite Z.land_0_r.
Defined.
#[global] Instance toy_clock : Clock (P := machine).
Proof. by refine {| now := m_now; sel := fun m => m_latch m CMOS_PORT; rtc := toy_rtc |}. Defined.

Definition powered (n : nat) : dev machine :=
  mkDev (mkMachine (fun _ => 0) (fun _ => 0) n) irqmask0 0 1 0 0 (fun _ => 0) [] (0, 0).

Lemma toy_shows n i : (n < 21 /\ i < 17 \/ 21 <= n /\ 21 <= i)%nat -> shows true (date n) i.
Proof.
  intros H. unfold shows, rtc, toy_clock, toy_rtc, date. cbn [Z.eqb].
  destruct H; repeat case_decide; try lia; by vm_compute.
Qed.
Lemma toy_updating n : updating n = bool_decide (10 <= n < 21)%nat.
Proof. unfold updating, rtc, toy_clock, toy_rtc. rewrite Z.eqb_refl. by case_decide; [rewrite bool_decide_true|rewrite bool_decide_false]. Qed.

(** Started just before the update, a call meets the flag, garbage and a mixed reading. *)
Lemma cmostime_reads_witness :
  wp (cmostime 40) (fun t _ => exists n, (now (d_hw (powered 4)) < n)%nat /\
    t = mkRtc (second (date n)) (minute (date n)) (hour (date n)) (day (date n)) (month (date n)) (year (date n) + 2000))
    (powered 4) /\
  match cmostime 40 (powered 4) with Done t _ => t = mkRtc 0 0 0 1 1 2027 | _ => False end.
Proof.
  split; [|vm_compute; reflexivity].
  refine (cmostime_reads true date 21 _ _ _ _ 40 (powered 4) _ _); [..|cbn; lia|cbn; lia].
  - intros n U i Hi. rewrite toy_updating in U. apply bool_decide_eq_false in U. apply toy_shows. lia.
  - intros n. unfold date. case_decide; split_and!; simpl; lia.
  - intros n. unfold rtc, toy_clock, toy_rtc. repeat case_decide; by vm_compute.
  - intros i Hi. rewrite toy_updating. split; [apply bool_decide_false; lia|apply toy_shows; lia].
Defined.
End Toy.
