(* ===== verification/File.v ===== *)
(** * Open files: file.c, [pipealloc] and [pipeclose] of pipe.c

    The state of the file system calls: the file system, the table of open files, the
    pipes (each in a page of its own), and of the running process its descriptors and its
    memory.  A [struct file *] is 0 for null and [i + 1] for entry [i] of the table; a pipe is
    the address of its page.  Sections under [ftable.lock] run as one step; a pipe that
    is empty or full puts the caller to sleep.  The wakeups of the pipe operations act on the process table, which is not
    part of this state; Pipe.v has them, and the interleavings of readers and writers. *)

From S2P Require Import Prelude Buf Bio Log Blocks Kalloc Pipe Syscall Fs.

Definition NFILE : Z := 100.
Definition NOFILE : Z := 16.

Inductive ftype := FD_NONE | FD_PIPE | FD_INODE.
#[global] Instance ftype_eq_dec : EqDecision ftype.
Proof. solve_decision. Defined.

Record file := mkFile {
  fl_type : ftype; fl_ref : Z; fl_readable : Z; fl_writable : Z; fl_pipe : Z; fl_ip : Z; fl_off : Z
}.
Definition set_fref v f := mkFile (fl_type f) v (fl_readable f) (fl_writable f) (fl_pipe f) (fl_ip f) (fl_off f).
Definition set_off v f := mkFile (fl_type f) (fl_ref f) (fl_readable f) (fl_writable f) (fl_pipe f) (fl_ip f) v.
(** [f->ref = 0; f->type = FD_NONE] *)
Definition set_free f := mkFile FD_NONE 0 (fl_readable f) (fl_writable f) (fl_pipe f) (fl_ip f) (fl_off f).
(** What [pipealloc] and [sys_open] fill in. *)
Definition set_pipe p r w f := mkFile FD_PIPE (fl_ref f) r w p (fl_ip f) (fl_off f).
Definition set_inode ip r w f := mkFile FD_INODE (fl_ref f) r w (fl_pipe f) ip 0.

(** The transactions of log.c. *)
Class Transactions (S : Type) := { t_begin_op : M S unit; t_end_op : M S unit }.
#[global] Instance log_transactions {D} `{BlockDevice D} : Transactions (bst D) :=
  {| t_begin_op := Log.begin_op; t_end_op := Log.end_op |}.

Section File.
Context {S : Type} `{BK : Blocks S} `{TR : Transactions S}.
Abbreviation fs := (fsys (S := S)).
Variable dev_read : Z -> option (Z -> Z -> M fs (Z * list Z)).
Variable dev_write : Z -> option (Z -> list Z -> M fs Z).
(** The linker symbol [end]. *)
Variable kend : Z.

Record ker := mkKer {
  k_fs : fs; k_ftable : list file; k_pipes : gmap Z pipe; k_mem : kst; k_ofile : list Z; k_user : uproc
}.
Definition with_kfs v s := mkKer v (k_ftable s) (k_pipes s) (k_mem s) (k_ofile s) (k_user s).
Definition with_ftable v s := mkKer (k_fs s) v (k_pipes s) (k_mem s) (k_ofile s) (k_user s).
Definition with_pipes v s := mkKer (k_fs s) (k_ftable s) v (k_mem s) (k_ofile s) (k_user s).
Definition with_kmem v s := mkKer (k_fs s) (k_ftable s) (k_pipes s) v (k_ofile s) (k_user s).
Definition with_ofile v s := mkKer (k_fs s) (k_ftable s) (k_pipes s) (k_mem s) v (k_user s).
Definition with_user v s := mkKer (k_fs s) (k_ftable s) (k_pipes s) (k_mem s) (k_ofile s) v.

Definition on_fs {A} : M fs A -> M ker A := lift k_fs with_kfs.
Definition on_mem {A} : M kst A -> M ker A := lift k_mem with_kmem.
Definition on_user {A} : M uproc A -> M ker A := lift k_user with_user.
Definition begin_op : M ker unit := on_fs (on_blk t_begin_op).
Definition end_op : M ker unit := on_fs (on_blk t_end_op).

Definition get_file (f : Z) : M ker file := fun s =>
  match (if f <? 1 then None else k_ftable s !! Z.to_nat (f - 1)) with Some x => Done x s | None => Fault "file" end.
Definition upd_file (f : Z) (g : file -> file) : M ker unit :=
  x <- get_file f ;; modify (fun s => with_ftable (<[Z.to_nat (f - 1) := g x]> (k_ftable s)) s).
Definition get_pipe (p : Z) : M ker pipe := fun s =>
  match k_pipes s !! p with Some x => Done x s | None => Fault "pipe" end.
Definition put_pipe (p : Z) (x : pipe) : M ker unit := modify (fun s => with_pipes (<[p := x]> (k_pipes s)) s).

(** ** The table of open files *)

Fixpoint free_file (i : Z) (l : list file) : Z :=
  match l with [] => 0 | f :: l' => if fl_ref f =? 0 then i else free_file (i + 1) l' end.
Definition filealloc : M ker Z :=
  f <- gets (fun s => free_file 1 (k_ftable s)) ;;
  if f =? 0 then ret 0 else upd_file f (set_fref 1) ;;; ret f.

Definition filedup (f : Z) : M ker Z :=
  x <- get_file f ;;
  if fl_ref x <? 1 then panic "filedup" else
  upd_file f (set_fref (fl_ref x + 1)) ;;; ret f.

Definition pipeclose (p writable : Z) : M ker unit :=
  x <- get_pipe p ;;
  let '(x', freed, _) := Pipe.pipeclose writable x in
  if freed : bool then modify (fun s => with_pipes (delete p (k_pipes s)) s) ;;; on_mem (kfree kend p)
  else put_pipe p x'.

Definition fileclose (f : Z) : M ker unit :=
  x <- get_file f ;;
  if fl_ref x <? 1 then panic "fileclose" else
  if fl_ref x - 1 >? 0 then upd_file f (set_fref (fl_ref x - 1)) else
  upd_file f set_free ;;;
  match fl_type x with
  | FD_PIPE => pipeclose (fl_pipe x) (fl_writable x)
  | FD_INODE => begin_op ;;; on_fs (iput (fl_ip x)) ;;; end_op
  | FD_NONE => ret tt
  end.

(** The fields of [struct stat], which has two bytes of padding after each [short]. *)
Definition put_stat (a : Z) (st : stat) : M uproc unit :=
  ustore (a + 4) (le_bytes 4 (st_dev st)) ;;;
  ustore (a + 8) (le_bytes 4 (st_ino st)) ;;;
  ustore a (le_bytes 2 (st_type st)) ;;;
  ustore (a + 12) (le_bytes 2 (st_nlink st)) ;;;
  ustore (a + 16) (le_bytes 4 (st_size st)) ;;;
  ustore (a + 20) (le_bytes 4 (st_prti st)).
Definition SIZEOF_STAT : Z := 24.

Definition filestat (f addr : Z) : M ker Z :=
  x <- get_file f ;;
  match fl_type x with
  | FD_INODE =>
      on_fs (ilock (fl_ip x)) ;;;
      st <- on_fs (stati (fl_ip x)) ;;
      on_user (put_stat addr st) ;;;
      on_fs (iunlock (fl_ip x)) ;;;
      ret 0
  | _ => ret (-1)
  end.

Definition fileread (f addr n : Z) : M ker Z :=
  x <- get_file f ;;
  if fl_readable x =? 0 then ret (-1) else
  match fl_type x with
  | FD_PIPE =>
      p <- get_pipe (fl_pipe x) ;;
      killed <- gets (fun s => u_killed (k_user s)) ;;
      match piperead killed n p with
      | (Returns r, got, p', _) => put_pipe (fl_pipe x) p' ;;; on_user (ustore addr got) ;;; ret r
      | (Sleeps _, _, _, _) => sleep_on "pipe"
      end
  | FD_INODE =>
      on_fs (ilock (fl_ip x)) ;;;
      rv <- on_fs (readi dev_read (fl_ip x) (fl_off x) (u32 n)) ;; let (r, got) := rv in
      on_user (ustore addr got) ;;;
      (if r >? 0 then upd_file f (set_off (u32 (fl_off x + r))) else ret tt) ;;;
      on_fs (iunlock (fl_ip x)) ;;;
      ret r
  | FD_NONE => panic "fileread"
  end.

(** The most bytes [filewrite] writes in one transaction. *)
Definition write_max : Z := ((LOGSIZE - 1 - 1 - 2) / 2) * 512.

(** The loop of [filewrite]: how many bytes it got through. *)
Fixpoint filewrite_loop (fuel : nat) (f ip addr n i : Z) : M ker Z :=
  if i <? n then
    match fuel with
    | O => nofuel
    | Datatypes.S fuel' =>
        let n1 := if n - i >? write_max then write_max else n - i in
        begin_op ;;;
        on_fs (ilock ip) ;;;
        src <- on_user (uload (addr + i) n1) ;;
        x <- get_file f ;;
        r <- on_fs (writei dev_write ip src (fl_off x) n1) ;;
        (if r >? 0 then upd_file f (set_off (u32 (fl_off x + r))) else ret tt) ;;;
        on_fs (iunlock ip) ;;;
        end_op ;;;
        if r <? 0 then ret i else
        if negb (r =? n1) then panic "short filewrite" else
        filewrite_loop fuel' f ip addr n (i + r)
    end
  else ret i.
(** Every round but the last writes [write_max] bytes. *)
Definition filewrite (f addr n : Z) : M ker Z :=
  x <- get_file f ;;
  if fl_writable x =? 0 then ret (-1) else
  match fl_type x with
  | FD_PIPE =>
      p <- get_pipe (fl_pipe x) ;;
      killed <- gets (fun s => u_killed (k_user s)) ;;
      src <- on_user (uload addr (Z.max n 0)) ;;
      match pipewrite_loop killed n src p with
      | (Returns r, _, p', _) => put_pipe (fl_pipe x) p' ;;; ret r
      | (Sleeps _, _, _, _) => sleep_on "pipe"
      end
  | FD_INODE =>
      i <- filewrite_loop (Z.to_nat (n / write_max + 1)) f (fl_ip x) addr n 0 ;;
      ret (if i =? n then n else -1)
  | FD_NONE => panic "filewrite"
  end.

(** ** Pipes *)

(** The [data] of a new pipe is what its page held; a [struct spinlock] takes 52 bytes. *)
Definition SIZEOF_SPINLOCK : nat := 52.
(** The label [bad], which no path reaches with a pipe. *)
Definition pipe_bad (f0 f1 : Z) : M ker (option (Z * Z)) :=
  (if f0 =? 0 then ret tt else fileclose f0) ;;;
  (if f1 =? 0 then ret tt else fileclose f1) ;;;
  ret None.
(** The two files, read end first. *)
Definition pipealloc : M ker (option (Z * Z)) :=
  f0 <- filealloc ;;
  if f0 =? 0 then pipe_bad 0 0 else
  f1 <- filealloc ;;
  if f1 =? 0 then pipe_bad f0 0 else
  p <- on_mem kalloc ;;
  if p =? 0 then pipe_bad f0 f1 else
  page <- on_mem (get_page p) ;;
  put_pipe p (pipeinit (bslice SIZEOF_SPINLOCK (Z.to_nat PIPESIZE) page)) ;;;
  upd_file f0 (set_pipe p 1 0) ;;;
  upd_file f1 (set_pipe p 0 1) ;;;
  ret (Some (f0, f1)).
End File.
