(* ===== verification/Sysfile.v ===== *)
(** * File system calls: sysfile.c

    One definition per handler, over the state of File.v; the result is the value of
    [tf->eax].  [junk] is what the stack holds where a handler declares [char name[DIRSIZ]]. *)

From S2P Require Import Prelude Buf Blocks Kalloc Pipe Syscall Fs File.

Section Sysfile.
Context {S : Type} `{BK : Blocks S} `{TR : Transactions S}.
Abbreviation fs := (fsys (S := S)).
Variable dev_read : Z -> option (Z -> Z -> M fs (Z * list Z)).
Variable dev_write : Z -> option (Z -> list Z -> M fs Z).
Variable kend : Z.
Variable junk : list Z.
Abbreviation ker := (ker (S := S)).
Abbreviation namei := (namei dev_read junk).
Abbreviation nameiparent path := (nameiparent dev_read path junk).
Abbreviation dirlookup := (dirlookup dev_read).
Abbreviation dirlink := (dirlink dev_read dev_write).

(** ** Descriptors *)

Definition fd_at (fd : Z) (s : ker) : Z := nth (Z.to_nat fd) (k_ofile s) 0.
Definition set_fd (fd f : Z) : M ker unit := modify (fun s => with_ofile (<[Z.to_nat fd := f]> (k_ofile s)) s).

Definition argfd (n : Z) : M ker (option (Z * Z)) :=
  o <- on_user (argint n) ;;
  match o with
  | None => ret None
  | Some fd =>
      if (fd <? 0) || (fd >=? NOFILE) then ret None else
      f <- gets (fd_at fd) ;;
      if f =? 0 then ret None else ret (Some (fd, f))
  end.

Fixpoint free_fd (fd : Z) (l : list Z) : Z :=
  match l with [] => -1 | f :: l' => if f =? 0 then fd else free_fd (fd + 1) l' end.
Definition fdalloc (f : Z) : M ker Z :=
  fd <- gets (fun s => free_fd 0 (k_ofile s)) ;;
  if fd <? 0 then ret (-1) else set_fd fd f ;;; ret fd.

Definition sys_dup : M ker Z :=
  o <- argfd 0 ;;
  match o with
  | None => ret (-1)
  | Some (_, f) =>
      fd <- fdalloc f ;;
      if fd <? 0 then ret (-1) else filedup f ;;; ret fd
  end.

(** The arguments of [read] and [write]. *)
Definition arg_rw : M ker (option (Z * Z * Z)) :=
  o <- argfd 0 ;;
  match o with
  | None => ret None
  | Some (_, f) =>
      o <- on_user (argint 2) ;;
      match o with
      | None => ret None
      | Some n => o <- on_user (argptr 1 n) ;; ret (match o with None => None | Some p => Some (f, p, n) end)
      end
  end.
Definition sys_read : M ker Z :=
  o <- arg_rw ;; match o with None => ret (-1) | Some (f, p, n) => fileread dev_read f p n end.
Definition sys_write : M ker Z :=
  o <- arg_rw ;; match o with None => ret (-1) | Some (f, p, n) => filewrite dev_write f p n end.

Definition sys_close : M ker Z :=
  o <- argfd 0 ;;
  match o with
  | None => ret (-1)
  | Some (fd, f) => set_fd fd 0 ;;; fileclose kend f ;;; ret 0
  end.

Definition sys_fstat : M ker Z :=
  o <- argfd 0 ;;
  match o with
  | None => ret (-1)
  | Some (_, f) =>
      o <- on_user (argptr 1 SIZEOF_STAT) ;;
      match o with None => ret (-1) | Some st => filestat f st end
  end.

(** ** Links *)

(** A string argument: the bytes before the terminator. *)
Definition argpath (n : Z) : M ker (option (list Z)) :=
  o <- on_user (argstr n) ;;
  match o with None => ret None | Some (p, len) => x <- on_user (uload p len) ;; ret (Some x) end.

(** [ip->nlink += d], on a [short]. *)
Definition add_nlink (ip d : Z) : M ker unit :=
  on_fs (upd_di ip (fun di => set_nlink (s16 (di_nlink di + d)) di) ;;; iupdate ip).

(** The part of [sys_link] from [nameiparent] on; false: [goto bad]. *)
Definition link_entry (new : list Z) (ip : Z) : M ker bool :=
  rv <- on_fs (nameiparent new) ;; let (dp, name) := rv in
  if dp =? NULLP then ret false else
  on_fs (ilock dp) ;;;
  d <- on_fs (get_inode dp) ;;
  x <- on_fs (get_inode ip) ;;
  ok <- (if negb (i_prt d =? i_prt x) then ret false
         else r <- on_fs (dirlink dp (cstr name) (i_inum x)) ;; ret (negb (r <? 0))) ;;
  on_fs (iunlockput dp) ;;;
  ret ok.
Definition sys_link : M ker Z :=
  o <- argpath 0 ;;
  match o with
  | None => ret (-1)
  | Some old =>
      o <- argpath 1 ;;
      match o with
      | None => ret (-1)
      | Some new =>
          begin_op ;;;
          ip <- on_fs (namei old) ;;
          if ip =? NULLP then end_op ;;; ret (-1) else
          on_fs (ilock ip) ;;;
          x <- on_fs (get_inode ip) ;;
          if di_type (i_di x) =? T_DIR then on_fs (iunlockput ip) ;;; end_op ;;; ret (-1) else
          add_nlink ip 1 ;;;
          on_fs (iunlock ip) ;;;
          ok <- link_entry new ip ;;
          if ok : bool then on_fs (iput ip) ;;; end_op ;;; ret 0 else
          on_fs (ilock ip) ;;;
          add_nlink ip (-1) ;;;
          on_fs (iunlockput ip) ;;;
          end_op ;;;
          ret (-1)
      end
  end.

(** [for(off=2*sizeof(de); off<dp->size; off+=sizeof(de))] *)
Definition isdirempty (dp : Z) : M fs bool :=
  x <- get_inode dp ;;
  r <- for_ (entries (di_size (i_di x)) - 2) 2 (fun k =>
    rv <- readi dev_read dp (k * SIZEOF_DIRENT) SIZEOF_DIRENT ;; let (r, bytes) := rv in
    if negb (r =? SIZEOF_DIRENT) then panic "isdirempty: readi" else
    if negb (de_inum (dirent_of bytes) =? 0) then ret (Some tt) else ret None) ;;
  ret (match r with Some _ => false | None => true end).

Definition DOT : list Z := [46].
Definition DOTDOT : list Z := [46; 46].

(** What [sys_unlink] does with the directory and the entry it found. *)
Definition unlink_entry (dp ip off : Z) : M ker Z :=
  on_fs (ilock ip) ;;;
  x <- on_fs (get_inode ip) ;;
  if di_nlink (i_di x) <? 1 then panic "unlink: nlink < 1" else
  empty <- (if di_type (i_di x) =? T_DIR then on_fs (isdirempty ip) else ret true) ;;
  if negb empty then on_fs (iunlockput ip) ;;; on_fs (iunlockput dp) ;;; end_op ;;; ret (-1) else
  w <- on_fs (writei dev_write dp (replicate (Z.to_nat SIZEOF_DIRENT) 0) off SIZEOF_DIRENT) ;;
  if negb (w =? SIZEOF_DIRENT) then panic "unlink: writei" else
  (if di_type (i_di x) =? T_DIR then add_nlink dp (-1) else ret tt) ;;;
  on_fs (iunlockput dp) ;;;
  add_nlink ip (-1) ;;;
  on_fs (iunlockput ip) ;;;
  end_op ;;;
  ret 0.
Definition sys_unlink : M ker Z :=
  o <- argpath 0 ;;
  match o with
  | None => ret (-1)
  | Some path =>
      begin_op ;;;
      rv <- on_fs (nameiparent path) ;; let (dp, name) := rv in
      if dp =? NULLP then end_op ;;; ret (-1) else
      on_fs (ilock dp) ;;;
      if (namecmp name DOT =? 0) || (namecmp name DOTDOT =? 0)
      then on_fs (iunlockput dp) ;;; end_op ;;; ret (-1) else
      rv <- on_fs (dirlookup dp name) ;; let (ip, off) := rv in
      if ip =? NULLP then on_fs (iunlockput dp) ;;; end_op ;;; ret (-1) else
      unlink_entry dp ip off
  end.

(** ** Creating and opening *)

Definition set_dev_nlink (major minor nlink : Z) (d : dinode) : dinode :=
  mkDi (di_type d) (s16 major) (s16 minor) nlink (di_size d) (di_addrs d).

(** A locked inode, or null. *)
Definition create (path : list Z) (type major minor : Z) : M ker Z :=
  rv <- on_fs (nameiparent path) ;; let (dp, name) := rv in
  if dp =? NULLP then ret NULLP else
  on_fs (ilock dp) ;;;
  rv <- on_fs (dirlookup dp name) ;; let (ip, _) := rv in
  if negb (ip =? NULLP) then
    on_fs (iunlockput dp) ;;;
    on_fs (ilock ip) ;;;
    x <- on_fs (get_inode ip) ;;
    if (type =? T_FILE) && (di_type (i_di x) =? T_FILE) then ret ip else
    on_fs (iunlockput ip) ;;; ret NULLP
  else
  d <- on_fs (get_inode dp) ;;
  ip <- on_fs (ialloc (i_prt d) type) ;;
  if ip =? NULLP then panic "create: ialloc" else
  on_fs (ilock ip) ;;;
  on_fs (upd_di ip (set_dev_nlink major minor 1)) ;;;
  on_fs (iupdate ip) ;;;
  x <- on_fs (get_inode ip) ;;
  (if type =? T_DIR then
     add_nlink dp 1 ;;;
     r1 <- on_fs (dirlink ip DOT (i_inum x)) ;;
     if r1 <? 0 then panic "create dots" else
     r2 <- on_fs (dirlink ip DOTDOT (i_inum d)) ;;
     if r2 <? 0 then panic "create dots" else ret tt
   else ret tt) ;;;
  r <- on_fs (dirlink dp (cstr name) (i_inum x)) ;;
  if r <? 0 then panic "create: dirlink" else
  on_fs (iunlockput dp) ;;;
  ret ip.

Definition sys_mount : M ker Z :=
  o <- argpath 0 ;;
  match o with
  | None => ret (-1)
  | Some path =>
      o <- on_user (argint 1) ;;
      match o with None => ret (-1) | Some prt => on_fs (mount dev_read junk path prt) end
  end.

(** The inode to open, locked, or null. *)
Definition open_inode (path : list Z) (omode : Z) : M ker Z :=
  if negb (Z.land omode O_CREATE =? 0) then create path T_FILE 0 0
  else
    ip <- on_fs (namei path) ;;
    if ip =? NULLP then ret NULLP else
    on_fs (ilock ip) ;;;
    x <- on_fs (get_inode ip) ;;
    if (di_type (i_di x) =? T_DIR) && negb (omode =? O_RDONLY) then on_fs (iunlockput ip) ;;; ret NULLP
    else ret ip.
Definition flag (b : bool) : Z := if b then 1 else 0.
Definition sys_open : M ker Z :=
  o <- argpath 0 ;;
  match o with
  | None => ret (-1)
  | Some path =>
      o <- on_user (argint 1) ;;
      match o with
      | None => ret (-1)
      | Some omode =>
          begin_op ;;;
          ip <- open_inode path omode ;;
          if ip =? NULLP then end_op ;;; ret (-1) else
          f <- filealloc ;;
          if f =? 0 then on_fs (iunlockput ip) ;;; end_op ;;; ret (-1) else
          fd <- fdalloc f ;;
          if fd <? 0 then fileclose kend f ;;; on_fs (iunlockput ip) ;;; end_op ;;; ret (-1) else
          on_fs (iunlock ip) ;;;
          end_op ;;;
          upd_file f (set_inode ip (flag (Z.land omode O_WRONLY =? 0))
            (flag (negb (Z.land omode O_WRONLY =? 0) || negb (Z.land omode O_RDWR =? 0)))) ;;;
          ret fd
      end
  end.

(** [mkdir] and [mknod] after their arguments. *)
Definition create_only (path : list Z) (type major minor : Z) : M ker Z :=
  ip <- create path type major minor ;;
  if ip =? NULLP then end_op ;;; ret (-1) else
  on_fs (iunlockput ip) ;;; end_op ;;; ret 0.
Definition sys_mkdir : M ker Z :=
  begin_op ;;;
  o <- argpath 0 ;;
  match o with
  | None => end_op ;;; ret (-1)
  | Some path => create_only path T_DIR 0 0
  end.
Definition sys_mknod : M ker Z :=
  begin_op ;;;
  o <- argpath 0 ;;
  match o with
  | None => end_op ;;; ret (-1)
  | Some path =>
      a <- on_user (argint 1) ;;
      match a with
      | None => end_op ;;; ret (-1)
      | Some major =>
          b <- on_user (argint 2) ;;
          match b with
          | None => end_op ;;; ret (-1)
          | Some minor => create_only path T_DEV major minor
          end
      end
  end.

Definition sys_chdir : M ker Z :=
  begin_op ;;;
  o <- argpath 0 ;;
  match o with
  | None => end_op ;;; ret (-1)
  | Some path =>
      ip <- on_fs (namei path) ;;
      if ip =? NULLP then end_op ;;; ret (-1) else
      on_fs (ilock ip) ;;;
      x <- on_fs (get_inode ip) ;;
      if negb (di_type (i_di x) =? T_DIR) then on_fs (iunlockput ip) ;;; end_op ;;; ret (-1) else
      on_fs (iunlock ip) ;;;
      c <- on_fs (gets f_cwd) ;;
      on_fs (iput c) ;;;
      end_op ;;;
      on_fs (modify (with_cwd ip)) ;;;
      ret 0
  end.

Definition sys_pipe : M ker Z :=
  o <- on_user (argptr 0 8) ;;
  match o with
  | None => ret (-1)
  | Some fd =>
      o <- pipealloc kend ;;
      match o with
      | None => ret (-1)
      | Some (rf, wf) =>
          fd0 <- fdalloc rf ;;
          fd1 <- (if fd0 <? 0 then ret (-1) else fdalloc wf) ;;
          if fd1 <? 0 then
            (if fd0 >=? 0 then set_fd fd0 0 else ret tt) ;;;
            fileclose kend rf ;;;
            fileclose kend wf ;;;
            ret (-1)
          else
            on_user (ustore fd (le_bytes 4 fd0)) ;;;
            on_user (ustore (fd + 4) (le_bytes 4 fd1)) ;;;
            ret 0
      end
  end.

(** The handlers of this file by their number; the rest are those of sysproc.c and [sys_exec]. *)
Definition file_call (f : sysname) : option (M ker Z) :=
  match f with
  | Sys_pipe => Some sys_pipe | Sys_read => Some sys_read | Sys_fstat => Some sys_fstat
  | Sys_chdir => Some sys_chdir | Sys_dup => Some sys_dup | Sys_open => Some sys_open
  | Sys_write => Some sys_write | Sys_mknod => Some sys_mknod | Sys_unlink => Some sys_unlink
  | Sys_link => Some sys_link | Sys_mkdir => Some sys_mkdir | Sys_close => Some sys_close
  | Sys_mount => Some sys_mount
  | _ => None
  end.
End Sysfile.
