(* ===== verification/Refs.v ===== *)
(** * References to inodes that run through fs.c

    What code that walks paths does to the reference counts of the inode cache.  [held b d s0 s] says
    that in [s] entry [j] has at least [b j + d j] references, [b j] of them
    kept by somebody else for as long as the code runs and [d j] held by the code,
    and that the entries with [b j > 0] stand for what they stood for in [s0].
    The counts are lower bounds: an entry may have references nobody gives back. *)

From S2P Require Import Prelude Buf Blocks Fs Balloc Inode Icache.

(** One reference, to [i]; none if [i] is null. *)
Definition own (i j : Z) : Z := if decide (i = j) then 1 else 0.

(** The obligations about references are linear arithmetic. *)
Ltac own_solve :=
  intros; cbn [fst snd] in *;
  repeat match goal with
  | Hd : (forall j, 0 <= j -> 0 <= ?d j), Hk : 0 <= ?k |- _ =>
      is_var k; let T := eval cbv beta in (0 <= d k) in
      lazymatch goal with _ : T |- _ => fail | _ => assert T by exact (Hd k Hk) end
  end;
  unfold own, NULLP in *; repeat case_decide; subst; try lia.

Section Refs.
Context {S : Type} `{BK : Blocks S}.
Abbreviation fs := (fsys (S := S)).
Implicit Type (s : fs) (b d : Z -> Z).

Definition refcount s (j : Z) : Z := match idents s !! Z.to_nat j with Some (_, _, r) => r | None => 0 end.

Record held b d s0 s : Prop := {
  h_count : forall j, 0 <= j -> b j + d j <= refcount s j;
  h_names : forall j, 0 <= j -> 0 < b j -> names s j = names s0 j;
  h_b : forall j, 0 <= j -> 0 <= b j;
  h_d : forall j, 0 <= j -> 0 <= d j
}.

Lemma held_ids b d s0 s s' : idents s' = idents s -> held b d s0 s -> held b d s0 s'.
Proof. intros E [H1 H2 H3 H4]. split; unfold refcount, names in *; rewrite ?E; done. Qed.
Lemma held_less b d d' s0 s : held b d s0 s -> (forall j, 0 <= j -> 0 <= d' j <= d j) -> held b d' s0 s.
Proof. intros [H1 H2 H3 H4] Hd. split; try done; intros j Hj; specialize (Hd j Hj); specialize (H1 j Hj); lia. Qed.

Lemma own_self i : own i i = 1.
Proof. unfold own. by rewrite decide_True. Qed.
Lemma own_null j : 0 <= j -> own NULLP j = 0.
Proof. intros Hj. unfold own. rewrite decide_False; [done|]. unfold NULLP. lia. Qed.
Lemma own_pos i j : 0 <= own i j <= 1.
Proof. unfold own. case_decide; lia. Qed.

(** One entry's count changes. *)
Lemma held_insert b d d' s0 s s' i p n r p' n' r' :
  held b d s0 s -> idents s !! i = Some (p, n, r) -> idents s' = <[i := (p', n', r')]> (idents s) ->
  (forall j, 0 <= j -> 0 <= d' j <= d j + (if decide (j = Z.of_nat i) then r' - r else 0)) ->
  ((p', n') = (p, n) \/ r = 0) -> held b d' s0 s'.
Proof.
  intros [H1 H2 H3 H4] Hi Hs Hd Hid. pose proof (lookup_lt_Some _ _ _ Hi) as Hlt.
  assert (forall j, 0 <= j -> refcount s' j = refcount s j + (if decide (j = Z.of_nat i) then r' - r else 0)) as Hc.
  { intros j Hj. unfold refcount. rewrite Hs. case_decide as E.
    - subst j. rewrite Nat2Z.id, Hi, list_lookup_insert_eq by done. lia.
    - rewrite list_lookup_insert_ne by lia. lia. }
  split; try done.
  - intros j Hj. rewrite Hc by done. specialize (H1 j Hj). specialize (Hd j Hj). lia.
  - intros j Hj Hb. rewrite <- H2 by done. unfold names. rewrite Hs. destruct (decide (i = Z.to_nat j)) as [-> |Hne].
    + rewrite list_lookup_insert_eq by done. rewrite Hi. simpl. destruct Hid as [E| ->]; [by rewrite E|].
      specialize (H1 j Hj). unfold refcount in H1. rewrite Hi in H1. specialize (H4 j Hj). lia.
    + by rewrite list_lookup_insert_ne.
  - intros j Hj. apply Hd. done.
Qed.

Section Held.
Variables (b : Z -> Z) (s0 : fs).
Abbreviation tr d m d' := (triple (held b d s0) m (fun r => held b (d' r) s0)).

Lemma tr_keeps {A} d (m : M fs A) : moves same_ids m -> tr d m (fun _ => d).
Proof. intros Hm s r s' Hs E. eapply held_ids; [|done]. by eapply Hm. Qed.
Lemma tr_less {A} d d' (m : M fs A) (e : A -> Z -> Z) :
  tr d' m e -> (forall j, 0 <= j -> 0 <= d j -> 0 <= d' j <= d j) -> tr d m e.
Proof.
  intros Hm Hd s r s' Hs E. eapply Hm; [|done]. eapply held_less; [done|]. intros j Hj. apply Hd; [done|]. by eapply h_d.
Qed.
Lemma tr_iget d p n : tr d (iget p n) (fun r j => d j + own r j).
Proof.
  intros s r s' Hs E. apply iget_idents in E as (i & p0 & n0 & q & -> & Hi & Es & Hc).
  eapply held_insert; [exact Hs|exact Hi|exact Es| |].
  - intros j Hj. pose proof (h_d _ _ _ _ Hs j Hj). unfold own. repeat case_decide; lia.
  - destruct Hc as [(-> & -> & _)|[-> _]]; [by left|by right].
Qed.
Lemma tr_idup d ip : tr d (idup ip) (fun r j => d j + own r j).
Proof.
  intros s r s' Hs E. apply idup_idents in E as (p & n & q & H0 & -> & Hi & Es).
  eapply held_insert; [exact Hs|exact Hi|exact Es| |by left].
  intros j Hj. rewrite Z2Nat.id by done. pose proof (h_d _ _ _ _ Hs j Hj). unfold own. repeat case_decide; lia.
Qed.
Lemma tr_iput d ip : (0 <= ip -> 1 <= d ip) -> tr d (iput ip) (fun _ j => d j - own ip j).
Proof.
  intros Hip s [] s' Hs E. apply iput_idents in E as (p & n & q & H0 & Hi & Es).
  eapply held_insert; [exact Hs|exact Hi|exact Es| |by left].
  intros j Hj. rewrite Z2Nat.id by done. pose proof (h_d _ _ _ _ Hs j Hj). specialize (Hip H0). unfold own.
  repeat case_decide; subst; lia.
Qed.

Section Devices.
Variable dev_read : Z -> option (Z -> Z -> M fs (Z * list Z)).
Variable dev_write : Z -> option (Z -> list Z -> M fs Z).
Hypothesis dev_read_keeps : forall major f ip n, dev_read major = Some f -> moves same_ids (f ip n).
Hypothesis dev_write_keeps : forall major f ip src, dev_write major = Some f -> moves same_ids (f ip src).

(** Sequencing with a routine that keeps all counts, and with one that does not. *)
Lemma tr_seq {A B} d (m : M fs A) (k : A -> M fs B) (e : B -> Z -> Z) :
  moves same_ids m -> (forall a, tr d (k a) e) -> tr d (bind m k) e.
Proof. intros Hm Hk. eapply triple_bind; [by apply tr_keeps|]. apply Hk. Qed.
Lemma tr_ret {A} d (a : A) (e : A -> Z -> Z) : (forall j, 0 <= j -> 0 <= d j -> 0 <= e a j <= d j) -> tr d (ret a) e.
Proof. intros Hd. apply triple_ret. intros s Hs. eapply held_less; [done|]. intros j Hj. apply Hd; [done|]. by eapply h_d. Qed.
Lemma tr_panic {A} d msg (e : A -> Z -> Z) : tr d (panic msg) e.
Proof. by apply triple_stuck. Qed.

Lemma tr_nonneg {A} d (m : M fs A) (e : A -> Z -> Z) : ((forall j, 0 <= j -> 0 <= d j) -> tr d m e) -> tr d m e.
Proof. intros Hm s r s' Hs E. by eapply (Hm (h_d _ _ _ _ Hs)). Qed.
Lemma tr_post {A} d (m : M fs A) (e e' : A -> Z -> Z) :
  tr d m e -> (forall a j, 0 <= j -> 0 <= d j -> 0 <= e a j -> 0 <= e' a j <= e a j) -> tr d m e'.
Proof.
  intros Hm He. apply tr_nonneg. intros Hd. eapply triple_conseq; [exact Hm|done|]. intros a s Hs.
  eapply held_less; [exact Hs|]. intros j Hj. apply He; [done|by apply Hd|by apply (h_d _ _ _ _ Hs)].
Qed.

Lemma tr_dirlookup d dp name : tr d (dirlookup dev_read dp name) (fun r j => d j + own r.1 j).
Proof using dev_read_keeps.
  unfold dirlookup. apply tr_seq; [unfold is_inode_mounted; moves|]. intros flag.
  apply (triple_bind _ _ _ (fun _ => held b d s0)).
  { destruct flag as [p|]; [|by apply triple_ret]. eapply tr_post; [apply tr_iget|]. own_solve. }
  intros dp'. apply tr_seq; [apply keeps_get_inode|]. intros x. destruct (negb _); [apply tr_panic|].
  apply (triple_bind _ _ _ (fun r => held b (match r with Some p => fun j => d j + own p.1 j | None => d end) s0)).
  - apply triple_for; [|done]. intros k. eapply triple_bind; [apply (tr_keeps d); moves|]. intros [r bytes]. destruct (negb _); [by apply triple_stuck|].
    destruct (_ =? 0); [by apply triple_ret|]. destruct (_ =? 0); [|by apply triple_ret].
    eapply triple_bind; [apply tr_iget|]. intros ip. by apply triple_ret.
  - intros [p|]; [by apply triple_ret|]. apply tr_ret. simpl. own_solve.
Qed.

Lemma tr_dirlink d dp name inum : tr d (dirlink dev_read dev_write dp name inum) (fun _ => d).
Proof using dev_read_keeps dev_write_keeps.
  apply tr_nonneg. intros Hd. unfold dirlink. eapply triple_bind; [apply tr_dirlookup|]. intros [ip off]. simpl. destruct (Z.eqb_spec ip NULLP) as [-> |Hne]; simpl.
  - eapply (tr_less _ d); [apply tr_keeps; moves|own_solve].
  - eapply triple_bind; [apply tr_iput; own_solve|]. intros []. apply tr_ret. own_solve.
Qed.

Lemma tr_iunlockput d ip : (0 <= ip -> 1 <= d ip) -> tr d (iunlockput ip) (fun _ j => d j - own ip j).
Proof. intros Hd. unfold iunlockput. apply tr_seq; [moves|]. intros []. by apply tr_iput. Qed.

Lemma tr_namex_loop fuel ip path par name d : (forall j, 0 <= j -> 0 <= d j) ->
  tr (fun j => d j + own ip j) (namex_loop dev_read fuel ip path par name) (fun r j => d j + own r.1 j).
Proof using dev_read_keeps.
  intros Hd. revert ip path name. induction fuel as [|fuel IH]; intros ip path name; simpl.
  all: destruct (skipelem path name) as [[path' name']|].
  all: try (destruct par; [|by apply triple_ret]; eapply triple_bind; [apply tr_iput; own_solve|intros []; apply tr_ret; own_solve]).
  { by apply triple_stuck. }
  assert (tr (fun j => d j + own ip j) (iunlockput ip ;;; ret (NULLP, name')) (fun r j => d j + own r.1 j)) as Hfail.
  { eapply triple_bind; [apply tr_iunlockput; own_solve|]. intros []. apply tr_ret. own_solve. }
  apply tr_seq; [moves|]. intros []. apply tr_seq; [moves|]. intros x. destruct (negb _); [done|]. destruct (par && _).
  - eapply (triple_bind _ _ _ (fun r => held b (fun j => d j + own ip j + own r j) s0)).
    { unfold check_mounted. apply (triple_bind _ _ _ (fun _ => held b (fun j => d j + own ip j) s0)); [apply tr_keeps; unfold is_inode_mounted; moves|].
      intros [p|]; [apply tr_iget|]. apply tr_ret. own_solve. }
    intros tmp. apply tr_seq; [moves|]. intros []. apply tr_ret. intros j Hj _. destruct (Z.eqb_spec tmp NULLP); own_solve.
  - eapply triple_bind; [apply tr_dirlookup|]. intros [next off]. simpl. destruct (Z.eqb_spec next NULLP) as [-> |].
    + eapply tr_less; [exact Hfail|]. own_solve.
    + eapply triple_bind; [apply tr_iunlockput; own_solve|]. intros []. eapply tr_less; [apply IH|]. own_solve.
Qed.

Lemma tr_namex d path par name : tr d (namex dev_read path par name) (fun r j => d j + own r.1 j).
Proof using dev_read_keeps.
  apply tr_nonneg. intros Hd. unfold namex. apply tr_seq; [unfold is_mounted, find_mp; moves|]. intros m. destruct m.
  - apply tr_seq; [unfold find_mp; moves|]. intros o. apply tr_seq; [moves|]. intros i.
    apply tr_seq; [intros s r s'; case_match; by intros [= _ <-]|]. intros mp.
    eapply triple_bind; [apply tr_iget|]. intros ip. by apply tr_namex_loop.
  - apply (triple_bind _ _ _ (fun r => held b (fun j => d j + own r j) s0)); [|intros ip; by apply tr_namex_loop].
    destruct (_ =? SLASH); (apply tr_seq; [moves|]); intros c; [apply tr_iget|apply tr_idup].
Qed.
Lemma tr_namei d junk path : tr d (namei dev_read junk path) (fun r j => d j + own r j).
Proof using dev_read_keeps. eapply triple_bind; [apply tr_namex|]. intros [ip name]. by apply triple_ret. Qed.

Lemma tr_mount d junk path prt : tr d (mount dev_read junk path prt) (fun _ => d).
Proof using dev_read_keeps.
  apply tr_nonneg. intros Hd. unfold mount. eapply triple_bind; [apply tr_namei|]. intros ip. eapply (tr_less _ d); [|own_solve].
  apply tr_keeps. unfold is_mounted, find_mp, mpalloc, partition_at. moves; by apply moves_modify.
Qed.

Lemma tr_ialloc d prt type : tr d (ialloc prt type) (fun r j => d j + own r j).
Proof.
  unfold ialloc. apply tr_seq; [moves|]. intros part. apply tr_seq; [moves|]. intros sb.
  apply (triple_bind _ _ _ (fun r => held b (match r with Some p => fun j => d j + own p j | None => d end) s0)).
  - apply triple_for; [|done]. intros k. do 2 (eapply triple_bind; [apply (tr_keeps d); moves|]; intros ?).
    destruct (_ =? 0); [|eapply triple_bind; [apply (tr_keeps d); moves|]; intros []; by apply triple_ret].
    do 3 (eapply triple_bind; [apply (tr_keeps d); moves|]; intros ?).
    eapply triple_bind; [apply tr_iget|]. intros ip. by apply triple_ret.
  - intros [p|]; [by apply triple_ret|by apply triple_stuck].
Qed.
End Devices.
End Held.

End Refs.
