(* ===== verification/Tables.v ===== *)
(** * The tables behind file descriptors stay consistent

    Descriptors point to entries of the file table, these to pipes and to entries of the inode
    cache, and counts keep track.  [kok] is the invariant of these tables, with what the
    running code holds in its variables; the lemmas say what each operation of
    file.c does to it, and [tables_ok] is the invariant between system calls. *)

From S2P Require Import Prelude Buf Blocks Kalloc Pipe Syscall Fs Balloc Inode Icache Dir Mount Refs File Sysfile.

Definition fdcount (l : list Z) (f : Z) : Z := Z.of_nat (length (filter (fun g => g = f) l)).
Lemma fdcount_pos l f : 0 <= fdcount l f.
Proof. unfold fdcount. lia. Qed.
Lemma fdcount_insert l k f g h : l !! k = Some g -> fdcount (<[k := f]> l) h = fdcount l h - own g h + own f h.
Proof.
  revert k. induction l as [|a l IH]; intros [|k] Hk; simpl in Hk; try done.
  - injection Hk as ->. unfold fdcount, own. simpl. rewrite !filter_cons. repeat case_decide; simpl; lia.
  - specialize (IH k Hk). unfold fdcount, own in *. simpl. rewrite !filter_cons. repeat case_decide; simpl in *; lia.
Qed.

(** What a file is, apart from its count and offset. *)
Definition kind (x : file) : ftype * Z * Z * Z * Z := (fl_type x, fl_readable x, fl_writable x, fl_pipe x, fl_ip x).

(** Every file of a pipe has a pipe whose end is open, and no other file has that end. *)
Record pipes_ok (ft : list file) (ps : gmap Z pipe) : Prop := {
  pk_open : forall i x, ft !! i = Some x -> fl_type x = FD_PIPE ->
    exists p, ps !! fl_pipe x = Some p /\ (if fl_writable x =? 0 then readopen p else writeopen p) <> 0;
  pk_ends : forall i j x y, ft !! i = Some x -> ft !! j = Some y -> fl_type x = FD_PIPE -> fl_type y = FD_PIPE ->
    fl_pipe x = fl_pipe y -> (fl_writable x =? 0) = (fl_writable y =? 0) -> i = j
}.
(** Every pipe has a page of its own that is not free. *)
Definition pages_ok (kend : Z) (ps : gmap Z pipe) (m : kst) : Prop :=
  exists l, free_rep kend m l /\ (forall a p, ps !! a = Some p -> page_ok kend a /\ (a ∉ l) /\ is_Some (pages m !! a)).

Lemma pipes_ok_insert ft ps i x y : pipes_ok ft ps -> ft !! i = Some x -> fl_type y <> FD_PIPE \/ kind y = kind x ->
  pipes_ok (<[i := y]> ft) ps.
Proof.
  intros [H1 H2] Hi Hy.
  assert (forall k z, <[i := y]> ft !! k = Some z -> fl_type z = FD_PIPE -> exists w, ft !! k = Some w /\ kind z = kind w) as Hk.
  { intros k z. destruct (decide (k = i)) as [-> |].
    - rewrite list_lookup_insert_eq by (by eapply lookup_lt_Some). intros [= <-] ?. destruct Hy as [|E]; [done|eauto].
    - rewrite list_lookup_insert_ne by done. eauto. }
  split.
  - intros k z Hz Ht. destruct (Hk k z Hz Ht) as (w & Hw & [= E1 E2 E3 E4 E5]). rewrite E4, E3. eapply H1; [done|congruence].
  - intros k k' z z' Hz Hz' Ht Ht' E4' E3'. destruct (Hk k z Hz Ht) as (w & Hw & [= E1 E2 E3 E4 E5]).
    destruct (Hk k' z' Hz' Ht') as (w' & Hw' & [= F1 F2 F3 F4 F5]). eapply (H2 k k' w w'); congruence.
Qed.

Section Tables.
Context {S : Type} `{BK : Blocks S} `{TR : Transactions S}.
Abbreviation fs := (fsys (S := S)).
Abbreviation ker := (ker (S := S)).
Implicit Type s : ker.
Variable kend : Z.
(** The references other processes have: to inodes and to files. *)
Variables oi ofs : Z -> Z.

(** The references of the file table to inode [j], without the files other processes have open too. *)
Definition ip_of (i : nat) (x : file) (j : Z) : Z :=
  if bool_decide (fl_type x = FD_INODE) && (ofs (Z.of_nat i + 1) <=? 0) then own (fl_ip x) j else 0.
Fixpoint ips (i : nat) (l : list file) (j : Z) : Z :=
  match l with [] => 0 | x :: l' => ip_of i x j + ips (Datatypes.S i) l' j end.

Lemma ips_insert l : forall i0 i x y j, l !! i = Some x ->
  ips i0 (<[i := y]> l) j = ips i0 l j - ip_of (i0 + i) x j + ip_of (i0 + i) y j.
Proof.
  induction l as [|z l IH]; intros i0 [|i] x y j Hi; simpl in *; try done.
  - injection Hi as ->. rewrite Nat.add_0_r. lia.
  - rewrite (IH (Datatypes.S i0) i x y j Hi). replace (Datatypes.S i0 + i)%nat with (i0 + Datatypes.S i)%nat by lia. lia.
Qed.
Lemma ip_of_pos i x j : 0 <= ip_of i x j.
Proof. unfold ip_of. case_match; [apply own_pos|done]. Qed.

(** What the running code holds: references to inodes, references to files, and files it has allocated but not
    filled in. *)
Record flight := mkFl { in_i : Z -> Z; in_f : Z -> Z; in_raw : Z -> Prop }.
Definition idle : flight := mkFl (fun _ => 0) (fun _ => 0) (fun _ => False).

Record kok (s0 : ker) (F : flight) (s : ker) : Prop := {
  ko_fs : held oi (fun j => ips 0 (k_ftable s) j + own (f_cwd (k_fs s)) j + in_i F j) (k_fs s0) (k_fs s);
  ko_len : length (k_ftable s) = Z.to_nat NFILE /\ length (k_ofile s) = Z.to_nat NOFILE;
  ko_fds : Forall (fun f => 0 <= f <= NFILE) (k_ofile s);
  ko_file : forall i x, k_ftable s !! i = Some x ->
    let f := Z.of_nat i + 1 in
    fl_ref x = fdcount (k_ofile s) f + ofs f + in_f F f /\ 0 <= ofs f /\
    (fl_type x = FD_NONE <-> fl_ref x = 0 \/ in_raw F f) /\ (in_raw F f -> fl_ref x = 1 /\ ofs f = 0);
  ko_pin : forall i x, k_ftable s !! i = Some x -> 0 < ofs (Z.of_nat i + 1) ->
    exists y, k_ftable s0 !! i = Some y /\ kind x = kind y;
  ko_pipes : pipes_ok (k_ftable s) (k_pipes s);
  ko_pages : pages_ok kend (k_pipes s) (k_mem s)
}.

(** Between system calls. *)
Definition tables_ok (s : ker) : Prop := kok s idle s.

Definition same_flight (F F' : flight) : Prop :=
  (forall j, 0 <= j -> in_i F' j = in_i F j) /\ (forall f, 1 <= f -> in_f F' f = in_f F f) /\
  (forall f, 1 <= f -> in_raw F' f <-> in_raw F f).

Section Kok.
Variable s0 : ker.
Abbreviation kt F m G := (triple (kok s0 F) m (fun r => kok s0 (G r))).

Lemma kok_ext F F' s : kok s0 F s -> same_flight F F' -> kok s0 F' s.
Proof.
  intros [H1 H2 H3 H4 H5 H6 H7] (Hi & Hf & Hr). split; try done.
  - eapply held_less; [exact H1|]. intros j Hj. pose proof (h_d _ _ _ _ H1 j Hj). simpl in *. rewrite Hi by done. lia.
  - intros i x Hx. specialize (H4 i x Hx). simpl in *. rewrite Hf, Hr by lia. done.
Qed.
Lemma kt_ret {A} F (a : A) (G : A -> flight) : same_flight F (G a) -> kt F (ret a) G.
Proof. intros HF. apply triple_ret. intros s Hs. by eapply kok_ext. Qed.
Lemma kt_ext {A} F F' (m : M ker A) (G : A -> flight) : kt F' m G -> same_flight F F' -> kt F m G.
Proof. intros Hm HF s r s' Hs E. eapply Hm; [|done]. by eapply kok_ext. Qed.
Lemma kt_post {A} F (m : M ker A) (G G' : A -> flight) : kt F m G -> (forall r, same_flight (G r) (G' r)) -> kt F m G'.
Proof. intros Hm HF. eapply triple_conseq; [exact Hm|done|]. intros a s Hs. exact (kok_ext _ _ _ Hs (HF a)). Qed.

(** Changes the invariant does not see. *)
Definition unseen (s s' : ker) : Prop :=
  idents (k_fs s') = idents (k_fs s) /\ f_cwd (k_fs s') = f_cwd (k_fs s) /\ k_ftable s' = k_ftable s /\
  k_pipes s' = k_pipes s /\ k_mem s' = k_mem s /\ k_ofile s' = k_ofile s.
Lemma kok_unseen F s s' : kok s0 F s -> unseen s s' -> kok s0 F s'.
Proof.
  intros [H1 H2 H3 H4 H5 H6 H7] (E1 & E2 & E3 & E4 & E5 & E6). split; rewrite ?E3, ?E4, ?E5, ?E6; try done.
  rewrite E2. by eapply held_ids.
Qed.
#[global] Instance unseen_preorder : PreOrder unseen.
Proof.
  split; [by intros s|]. intros s1 s2 s3 (?&?&?&?&?&?) (?&?&?&?&?&?). unfold unseen. split_and!; congruence.
Qed.
Lemma kt_unseen {A} F (m : M ker A) : moves unseen m -> kt F m (fun _ => F).
Proof. intros Hm s r s' Hs E. eapply kok_unseen; [done|]. by eapply Hm. Qed.
Lemma unseen_user {A} (m : M uproc A) : moves unseen (on_user m).
Proof. by apply moves_lift. Qed.
Lemma unseen_fs {A} (m : M fs A) : moves same_ids m -> moves same_tables m -> moves unseen (on_fs m).
Proof.
  intros H1 H2 s r s'. unfold on_fs, lift. destruct (m (k_fs s)) as [a t| | | |] eqn:E; try done. intros [= _ <-].
  split_and!; try done; [by eapply H1|]. by apply H2 in E as (_ & _ & _ & _ & ?).
Qed.
Lemma unseen_begin : moves unseen begin_op.
Proof. apply unseen_fs; [apply keeps_on_blk|apply frames_on_blk]. Qed.
Lemma unseen_end : moves unseen end_op.
Proof. apply unseen_fs; [apply keeps_on_blk|apply frames_on_blk]. Qed.
Lemma unseen_get_file f : moves unseen (get_file f).
Proof. intros s r s'. unfold get_file. repeat case_match; try done; by intros [= _ <-]. Qed.
Lemma unseen_get_pipe p : moves unseen (get_pipe p).
Proof. intros s r s'. unfold get_pipe. case_match; try done; by intros [= _ <-]. Qed.
#[local] Hint Resolve unseen_user unseen_begin unseen_end unseen_get_file unseen_get_pipe : moves.
#[local] Hint Extern 2 (moves unseen (on_fs _)) => apply unseen_fs; solve [moves] : moves.

(** ** One entry of the file table changes *)

Lemma kok_file F F' s i x y :
  kok s0 F s -> k_ftable s !! i = Some x ->
  let f := Z.of_nat i + 1 in
  fl_ref y = fdcount (k_ofile s) f + ofs f + in_f F' f ->
  (fl_type y = FD_NONE <-> fl_ref y = 0 \/ in_raw F' f) -> (in_raw F' f -> fl_ref y = 1 /\ ofs f = 0) ->
  (0 < ofs f -> kind y = kind x) ->
  (forall g, 1 <= g -> g <> f -> in_f F' g = in_f F g /\ (in_raw F' g <-> in_raw F g)) ->
  (forall j, 0 <= j -> ip_of i y j + in_i F' j = ip_of i x j + in_i F j) ->
  pipes_ok (<[i := y]> (k_ftable s)) (k_pipes s) ->
  kok s0 F' (with_ftable (<[i := y]> (k_ftable s)) s).
Proof.
  intros [H1 H2 H3 H4 H5 H6 H7] Hi f Hy1 Hy2 Hy3 Hy4 Hg Hd Hp. pose proof (lookup_lt_Some _ _ _ Hi) as Hlt. split; try done; simpl.
  - eapply held_less; [exact H1|]. intros j Hj. pose proof (h_d _ _ _ _ H1 j Hj). simpl in *. rewrite (ips_insert _ 0 i x y j Hi).
    simpl. specialize (Hd j Hj). lia.
  - by rewrite length_insert.
  - intros k z. destruct (decide (k = i)) as [-> |Hne].
    + rewrite list_lookup_insert_eq by done. intros [= <-]. split_and!; try done. apply (H4 i x Hi).
    + rewrite list_lookup_insert_ne by done. intros Hz. destruct (Hg (Z.of_nat k + 1)) as [-> Hr]; [lia|unfold f; lia|].
      rewrite Hr. by apply H4.
  - intros k z. destruct (decide (k = i)) as [-> |Hne].
    + rewrite list_lookup_insert_eq by done. intros [= <-] Hpin. destruct (H5 i x Hi Hpin) as (w & Hw & E). exists w.
      split; [done|]. by rewrite Hy4.
    + rewrite list_lookup_insert_ne by done. apply H5.
Qed.

Lemma get_file_done f s x s' : get_file f s = Done x s' -> exists i, f = Z.of_nat i + 1 /\ k_ftable s !! i = Some x /\ s' = s.
Proof.
  unfold get_file. destruct (Z.ltb_spec f 1); [done|]. destruct (k_ftable s !! _) eqn:E; [|done]. intros [= <- <-].
  exists (Z.to_nat (f - 1)). split; [lia|done].
Qed.
Lemma upd_file_done f g s r s' : upd_file f g s = Done r s' ->
  exists i x, f = Z.of_nat i + 1 /\ k_ftable s !! i = Some x /\ s' = with_ftable (<[i := g x]> (k_ftable s)) s.
Proof.
  unfold upd_file, bind. destruct (get_file f s) as [x t| | | |] eqn:E; try done. intros [= _ <-].
  apply get_file_done in E as (i & -> & Hi & ->). exists i, x. replace (Z.to_nat (Z.of_nat i + 1 - 1)) with i by lia. done.
Qed.

(** A change of the offset. *)
Lemma kt_set_off F f v : kt F (upd_file f (set_off v)) (fun _ => F).
Proof.
  intros s [] s' Hs E. apply upd_file_done in E as (i & x & -> & Hi & ->). pose proof (ko_file _ _ _ Hs i x Hi) as (R1 & R2 & R3 & R4).
  eapply kok_file; try done. eapply pipes_ok_insert; [apply Hs|done|by right].
Qed.

Definition plus_f (F : flight) (f : Z) : flight := mkFl (in_i F) (fun g => in_f F g + own f g) (in_raw F).
Definition minus_f (F : flight) (f : Z) : flight := mkFl (in_i F) (fun g => in_f F g - own f g) (in_raw F).
Definition plus_i (F : flight) (i : Z) : flight := mkFl (fun j => in_i F j + own i j) (in_f F) (in_raw F).
Definition minus_i (F : flight) (i : Z) : flight := mkFl (fun j => in_i F j - own i j) (in_f F) (in_raw F).
Definition plus_raw (F : flight) (f : Z) : flight := mkFl (in_i F) (in_f F) (fun g => in_raw F g \/ g = f).
Definition minus_raw (F : flight) (f : Z) : flight := mkFl (in_i F) (in_f F) (fun g => in_raw F g /\ g <> f).

Lemma free_file_spec l : forall i0 f, free_file i0 l = f -> 0 < i0 ->
  f = 0 \/ exists i x, f = i0 + Z.of_nat i /\ l !! i = Some x /\ fl_ref x = 0.
Proof.
  induction l as [|x l IH]; intros i0 f Hf H0; simpl in Hf; [by left|]. destruct (Z.eqb_spec (fl_ref x) 0) as [E|E].
  - right. exists 0%nat, x. split_and!; [lia|done|done].
  - destruct (IH (i0 + 1) f Hf ltac:(lia)) as [|(i & y & -> & Hy & E')]; [by left|]. right. exists (Datatypes.S i), y. split_and!; [lia|done|done].
Qed.

Lemma kt_filealloc F : (forall f, 1 <= f -> 0 <= in_f F f) -> kt F filealloc (fun f => plus_raw (plus_f F f) f).
Proof.
  intros HF s f s' Hs. unfold filealloc, bind at 1, gets. destruct (free_file_spec (k_ftable s) 1 _ eq_refl) as [E|(i & x & E & Hx & Hr)]; [lia| |].
  - rewrite E. intros [= <- <-]. eapply kok_ext; [exact Hs|]. split_and!; [done| |]; intros f Hf; simpl; [own_solve|]. intuition lia.
  - rewrite E. destruct (Z.eqb_spec (1 + Z.of_nat i) 0); [lia|]. unfold bind, ret.
    destruct (upd_file (1 + Z.of_nat i) (set_fref 1) s) as [[] t| | | |] eqn:E2; try done. intros [= <- <-].
    apply upd_file_done in E2 as (i' & x' & Ei & Hx' & ->). assert (i' = i) as -> by lia. rewrite Hx in Hx'. injection Hx' as <-.
    rewrite Ei. pose proof (ko_file _ _ _ Hs i x Hx) as (R1 & R2 & R3 & R4). pose proof (fdcount_pos (k_ofile s) (Z.of_nat i + 1)).
    pose proof (HF (Z.of_nat i + 1) ltac:(lia)). assert (fl_type x = FD_NONE) as Ht by (apply R3; by left).
    eapply kok_file; try done; simpl.
    + rewrite own_self. lia.
    + rewrite Ht. split; [by right; right|done].
    + intros _. lia.
    + intros g Hg Hne. split; [own_solve|]. intuition.
    + eapply pipes_ok_insert; [apply Hs|done|]. left. simpl. by rewrite Ht.
Qed.

Lemma kt_filedup F f : ~ in_raw F f -> kt F (filedup f) (fun _ => plus_f F f).
Proof.
  intros Hraw s r s' Hs. unfold filedup, bind at 1. destruct (get_file f s) as [x t| | | |] eqn:E; try done.
  apply get_file_done in E as (i & -> & Hi & ->). destruct (Z.ltb_spec (fl_ref x) 1); [done|]. unfold bind, ret.
  destruct (upd_file _ _ s) as [[] t| | | |] eqn:E2; try done. intros [= _ <-].
  apply upd_file_done in E2 as (i' & x' & Ei & Hx' & ->). assert (i' = i) as -> by lia. rewrite Hi in Hx'. injection Hx' as <-.
  pose proof (ko_file _ _ _ Hs i x Hi) as (R1 & R2 & R3 & R4). eapply kok_file; try done; simpl.
  - rewrite own_self. lia.
  - split; [intros Ht; apply R3 in Ht as [|]; [lia|by right]|]. intros [|]; [lia|done].
  - intros g Hg Hne. split; [own_solve|done].
  - eapply pipes_ok_insert; [apply Hs|done|by right].
Qed.

(** ** Closing *)

Lemma kok_pipes F s ps m : kok s0 F s -> pipes_ok (k_ftable s) ps -> pages_ok kend ps m ->
  kok s0 F (with_kmem m (with_pipes ps s)).
Proof. intros [H1 H2 H3 H4 H5 H6 H7] Hp Hm. by split. Qed.

(** A pipe whose end [w] no file has any more. *)
Definition end_unused (p w : Z) s : Prop :=
  forall k z, k_ftable s !! k = Some z -> fl_type z = FD_PIPE -> fl_pipe z = p -> (fl_writable z =? 0) <> (w =? 0).

Lemma pipes_ok_put ft ps p x x' : pipes_ok ft ps -> ps !! p = Some x ->
  (forall k z, ft !! k = Some z -> fl_type z = FD_PIPE -> fl_pipe z = p ->
    (if fl_writable z =? 0 then readopen x' else writeopen x') = (if fl_writable z =? 0 then readopen x else writeopen x)) ->
  pipes_ok ft (<[p := x']> ps).
Proof.
  intros [H1 H2] Hx Hsame. split; [|done]. intros k z Hz Ht. destruct (H1 k z Hz Ht) as (q & Hq & Ho).
  destruct (decide (fl_pipe z = p)) as [E|Hne]; [|exists q; by rewrite lookup_insert_ne].
  exists x'. rewrite E, lookup_insert_eq. split; [done|]. rewrite (Hsame k z) by done. rewrite E, Hx in Hq. by injection Hq as ->.
Qed.

Lemma pages_ok_put ps m p x x' : pages_ok kend ps m -> ps !! p = Some x -> pages_ok kend (<[p := x']> ps) m.
Proof.
  intros (l & Hl & Hps) Hx. exists l. split; [done|]. intros a q. destruct (decide (a = p)) as [-> |]; [intros _; by eapply Hps|].
  rewrite lookup_insert_ne by done. apply Hps.
Qed.

Lemma kt_pipeclose F p w :
  triple (fun s => kok s0 F s /\ end_unused p w s) (File.pipeclose kend p w) (fun _ => kok s0 F).
Proof.
  intros s [] s' [Hs Hun]. unfold File.pipeclose, bind at 1, get_pipe. destruct (k_pipes s !! p) as [x|] eqn:Ex; [|done].
  pose proof (ko_pipes _ _ _ Hs) as Hpk. pose proof (ko_pages _ _ _ Hs) as Hpg.
  destruct (Pipe.pipeclose w x) as [[x' freed] wk] eqn:Epc. unfold Pipe.pipeclose in Epc.
  assert ((if negb (w =? 0) then mkPipe (data x) (nread x) (nwrite x) (readopen x) 0 else mkPipe (data x) (nread x) (nwrite x) 0 (writeopen x)) = x' /\
    (readopen x' =? 0) && (writeopen x' =? 0) = freed) as [Ex' Ef] by (destruct (negb (w =? 0)); by injection Epc as <- <- _).
  assert (forall k z, k_ftable s !! k = Some z -> fl_type z = FD_PIPE -> fl_pipe z = p ->
    (if fl_writable z =? 0 then readopen x' else writeopen x') = (if fl_writable z =? 0 then readopen x else writeopen x)) as Hsame.
  { intros k z Hz Ht Hp. specialize (Hun k z Hz Ht Hp). rewrite <- Ex'. destruct (fl_writable z =? 0), (w =? 0); simpl; done. }
  destruct freed.
  - unfold bind, modify, on_mem, lift. simpl. destruct Hpg as (l & Hl & Hps). destruct (Hps p x Ex) as (P1 & P2 & P3).
    pose proof (wp_kfree kend (k_mem s) l p Hl P1 P3 P2 ltac:(pose proof (free_rep_head _ _ _ Hl); lia)) as Hk.
    unfold wp in Hk. destruct (kfree kend p (k_mem s)) as [[] m'| | | |]; try done. destruct Hk as (Hl' & _ & Hpm). intros [= <-].
    change (kok s0 F (with_kmem m' (with_pipes (delete p (k_pipes s)) s))). apply kok_pipes; [done| |].
    + split; [|apply Hpk]. intros k z Hz Ht. destruct (pk_open _ _ Hpk k z Hz Ht) as (q & Hq & Ho). exists q. split; [|done].
      rewrite lookup_delete_ne; [done|]. intros ->. apply Ho. rewrite Ex in Hq. injection Hq as <-. rewrite <- (Hsame k z) by done.
      apply andb_true_iff in Ef as [E1%Z.eqb_eq E2%Z.eqb_eq]. by case_match.
    + exists (p :: l). split; [done|]. intros a q Ha. apply lookup_delete_Some in Ha as [Hne Ha]. destruct (Hps a q Ha) as (A1 & A2 & A3).
      split_and!; [done|set_solver|]. rewrite Hpm, lookup_insert_ne by done. done.
  - intros [= <-]. change (kok s0 F (with_kmem (k_mem s) (with_pipes (<[p := x']> (k_pipes s)) s))).
    apply kok_pipes; [done|by eapply pipes_ok_put|by eapply pages_ok_put].
Qed.

(** ** Calls into fs.c *)

Definition same_cwd (s s' : fs) : Prop := f_cwd s' = f_cwd s.
Lemma cwd_frames {A} (m : M fs A) : moves same_tables m -> moves same_cwd m.
Proof. intros Hm s r s' E. by apply Hm in E as (_ & _ & _ & _ & ?). Qed.

Lemma ips_pos l : forall i j, 0 <= ips i l j.
Proof. induction l as [|x l IH]; intros i j; simpl; [lia|]. pose proof (ip_of_pos i x j). pose proof (IH (Datatypes.S i) j). lia. Qed.

Lemma kt_fs {A} F (P : ker -> Prop) (m : M fs A) (x : A -> Z -> Z) :
  (forall s, P s -> kok s0 F s -> forall b t, 
    let D j := ips 0 (k_ftable s) j + own (f_cwd (k_fs s)) j + in_i F j in
    triple (held b D t) m (fun r => held b (fun j => D j + x r j) t)) ->
  moves same_cwd m ->
  triple (fun s => kok s0 F s /\ P s) (on_fs m) (fun r => kok s0 (mkFl (fun j => in_i F j + x r j) (in_f F) (in_raw F))).
Proof.
  intros Hm Hc s r s' [Hs HP]. unfold on_fs, lift. destruct (m (k_fs s)) as [a t| | | |] eqn:E; try done. intros [= <- <-].
  pose proof (Hm s HP Hs oi (k_fs s0)) as Ht. pose proof (Ht _ _ _ (ko_fs _ _ _ Hs) E) as H1. pose proof (Hc _ _ _ E) as Hcwd.
  unfold same_cwd in Hcwd. destruct Hs as [H0 H2 H3 H4 H5 H6 H7]. split; try done. simpl. rewrite Hcwd.
  eapply held_less; [exact H1|]. intros j Hj. pose proof (h_d _ _ _ _ H1 j Hj). simpl in *. lia.
Qed.

Lemma kt_fs' {A} F (m : M fs A) (x : A -> Z -> Z) :
  (forall b t D, triple (held b D t) m (fun r => held b (fun j => D j + x r j) t)) -> moves same_cwd m ->
  kt F (on_fs m) (fun r => mkFl (fun j => in_i F j + x r j) (in_f F) (in_raw F)).
Proof.
  intros Hm Hc. eapply triple_conseq; [apply (kt_fs F (fun _ => True) m x)|done|done]; [|done]. intros s _ _ b t D. apply Hm.
Qed.

Lemma kt_iput_cwd F ip :
  triple (fun s => kok s0 F s /\ (0 <= ip -> 1 <= own (f_cwd (k_fs s)) ip + in_i F ip)) (on_fs (iput ip))
    (fun _ => kok s0 (minus_i F ip)).
Proof.
  eapply triple_conseq; [apply (kt_fs F (fun s => 0 <= ip -> 1 <= own (f_cwd (k_fs s)) ip + in_i F ip) (iput ip) (fun _ j => - own ip j))|done|].
  - intros s Hp Hs b t D. eapply triple_conseq; [apply tr_iput|done|].
    + intros H0. unfold D. pose proof (ips_pos (k_ftable s) 0 ip). specialize (Hp H0). lia.
    + intros a s1 H1. eapply held_less; [exact H1|]. intros j Hj. pose proof (h_d _ _ _ _ H1 j Hj). simpl in *. lia.
  - apply cwd_frames, frames_iput.
  - intros a s Hs. eapply kok_ext; [exact Hs|]. split_and!; [|done..]. intros j Hj. simpl. lia.
Qed.
Lemma kt_iput F ip : (0 <= ip -> 1 <= in_i F ip) -> kt F (on_fs (iput ip)) (fun _ => minus_i F ip).
Proof.
  intros Hip. eapply triple_conseq; [apply (kt_iput_cwd F)| |done]. intros s Hs. split; [exact Hs|]. intros H0.
  pose proof (own_pos (f_cwd (k_fs s)) ip). specialize (Hip H0). lia.
Qed.
Lemma on_fs_bind {A B} (m : M fs A) (k : A -> M fs B) : forall s, on_fs (bind m k) s = bind (on_fs m) (fun a => on_fs (k a)) s.
Proof. intros s. unfold on_fs, lift, bind. destruct (m (k_fs s)); try done. Qed.
Lemma kt_iunlockput F ip : (0 <= ip -> 1 <= in_i F ip) -> kt F (on_fs (iunlockput ip)) (fun _ => minus_i F ip).
Proof.
  intros Hip s r s' Hs. unfold iunlockput. rewrite on_fs_bind. revert s r s' Hs.
  eapply triple_bind; [apply kt_unseen; moves|]. intros []. by apply kt_iput.
Qed.

(** ** Closing a file *)

(** The last reference to a file: its entry is free, and what it referred to is in the hands of the code. *)
Definition freed (F : flight) (i : nat) (x : file) : flight :=
  mkFl (fun j => in_i F j + ip_of i x j) (fun g => in_f F g - own (Z.of_nat i + 1) g)
       (fun g => in_raw F g /\ g <> Z.of_nat i + 1).
Lemma kok_set_free F s i x : kok s0 F s -> k_ftable s !! i = Some x -> fl_ref x = 1 -> 1 <= in_f F (Z.of_nat i + 1) ->
  kok s0 (freed F i x) (with_ftable (<[i := set_free x]> (k_ftable s)) s) /\ ofs (Z.of_nat i + 1) = 0.
Proof.
  intros Hs Hi Hr Hf. pose proof (ko_file _ _ _ Hs i x Hi) as (R1 & R2 & R3 & R4).
  pose proof (fdcount_pos (k_ofile s) (Z.of_nat i + 1)) as R0. split; [|lia]. eapply kok_file; try done; simpl.
  - rewrite own_self. lia.
  - tauto.
  - tauto.
  - intros H0. lia.
  - intros g Hg Hne. split; [own_solve|]. intuition.
  - intros j Hj. unfold ip_of at 1. simpl. lia.
  - eapply pipes_ok_insert; [apply Hs|done|by left].
Qed.
Lemma end_unused_free s i x : pipes_ok (k_ftable s) (k_pipes s) -> k_ftable s !! i = Some x -> fl_type x = FD_PIPE ->
  end_unused (fl_pipe x) (fl_writable x) (with_ftable (<[i := set_free x]> (k_ftable s)) s).
Proof.
  intros Hpk Hi Ht k z. simpl. destruct (decide (k = i)) as [-> |Hne].
  - rewrite list_lookup_insert_eq by (by eapply lookup_lt_Some). by intros [= <-].
  - rewrite list_lookup_insert_ne by done. intros Hz Htz Hp Hw. apply Hne. by eapply (pk_ends _ _ Hpk).
Qed.

(** A reference to a file goes out of use. *)
Lemma kt_fileclose F f : 1 <= in_f F f -> (forall j, 0 <= j -> 0 <= in_i F j) ->
  kt F (fileclose kend f) (fun _ => minus_raw (minus_f F f) f).
Proof.
  intros Hf HF s r s' Hs. unfold fileclose, bind at 1. destruct (get_file f s) as [x t| | | |] eqn:E; try done.
  apply get_file_done in E as (i & -> & Hi & ->). destruct (Z.ltb_spec (fl_ref x) 1); [done|].
  pose proof (ko_file _ _ _ Hs i x Hi) as (R1 & R2 & R3 & R4).
  destruct (Z.gtb_spec (fl_ref x - 1) 0) as [Hgt|Hle].
  - intros E2. apply upd_file_done in E2 as (i' & x' & Ei & Hx' & ->). assert (i' = i) as -> by lia. rewrite Hi in Hx'. injection Hx' as <-.
    eapply kok_file; try done; simpl.
    + rewrite own_self. lia.
    + split; [|intros [|]; [lia|tauto]]. intros Ht. apply R3 in Ht as [|Hr]; [lia|]. apply R4 in Hr. lia.
    + tauto.
    + intros g Hg Hne. split; [own_solve|]. intuition.
    + eapply pipes_ok_insert; [apply Hs|done|by right].
  - unfold bind at 1. destruct (upd_file _ set_free s) as [[] t| | | |] eqn:E2; try done.
    apply upd_file_done in E2 as (i' & x' & Ei & Hx' & ->). assert (i' = i) as -> by lia. rewrite Hi in Hx'. injection Hx' as <-.
    destruct (kok_set_free F s i x Hs Hi) as [Hs1 Eo]; [lia|done|].
    assert (forall G : flight, (forall j, in_i G j = in_i F j + ip_of i x j - (if fl_type x is FD_INODE then own (fl_ip x) j else 0)) ->
      in_f G = in_f (freed F i x) -> in_raw G = in_raw (freed F i x) ->
      same_flight G (minus_raw (minus_f F (Z.of_nat i + 1)) (Z.of_nat i + 1))) as Hsame.
    { intros G G1 G2 G3. split_and!; [|by rewrite G2|by rewrite G3]. intros j Hj. rewrite G1. unfold ip_of. simpl.
      rewrite Eo. destruct (fl_type x); simpl; lia. }
    destruct (fl_type x) eqn:Et.
    + intros [= _ <-]. eapply kok_ext; [exact Hs1|]. apply Hsame; [|done..]. intros j. simpl. lia.
    + intros E3. eapply kok_ext; [eapply (kt_pipeclose (freed F i x)); [split; [exact Hs1|]|exact E3]|].
      * apply end_unused_free; [apply Hs|done|done].
      * apply Hsame; [|done..]. intros j. simpl. lia.
    + assert (kt (freed F i x) (begin_op ;;; on_fs (iput (fl_ip x)) ;;; end_op) (fun _ => minus_i (freed F i x) (fl_ip x))) as Ht.
      { eapply triple_bind; [apply kt_unseen; moves|]. intros []. eapply triple_bind; [apply kt_iput|intros []; apply kt_unseen; moves].
        intros H0. simpl. unfold ip_of. rewrite Et, Eo. simpl. rewrite own_self. specialize (HF _ H0). lia. }
      intros E3. eapply kok_ext; [eapply Ht; [exact Hs1|exact E3]|]. by apply Hsame.
Qed.

(** ** Descriptors *)

Lemma kok_ofile F s k f g : kok s0 F s -> k_ofile s !! k = Some g -> 0 <= f <= NFILE ->
  kok s0 (mkFl (in_i F) (fun h => in_f F h + own g h - own f h) (in_raw F)) (with_ofile (<[k := f]> (k_ofile s)) s).
Proof.
  intros [H1 H2 H3 H4 H5 H6 H7] Hk Hf. split; try done; simpl.
  - by rewrite length_insert.
  - by apply Forall_insert.
  - intros i x Hx. specialize (H4 i x Hx). simpl in *. rewrite (fdcount_insert _ k f g) by done. split; [lia|tauto].
Qed.

Lemma free_fd_spec l : forall fd0, 0 <= fd0 ->
  free_fd fd0 l = -1 \/ exists k, free_fd fd0 l = fd0 + Z.of_nat k /\ l !! k = Some 0.
Proof.
  induction l as [|f l IH]; intros fd0 H0; simpl; [by left|]. destruct (Z.eqb_spec f 0) as [-> |].
  - right. exists 0%nat. split; [lia|done].
  - destruct (IH (fd0 + 1)) as [E|(k & E & Hk)]; [lia|by left|]. right. exists (Datatypes.S k). split; [rewrite E; lia|done].
Qed.

Lemma kt_fdalloc F f : 1 <= f <= NFILE -> kt F (fdalloc f) (fun fd => if fd <? 0 then F else minus_f F f).
Proof.
  intros Hf s r s' Hs. unfold fdalloc, bind, gets, set_fd. destruct (free_fd_spec (k_ofile s) 0) as [E|(k & E & Hk)]; [lia| |].
  - rewrite E. by intros [= <- <-].
  - rewrite E. destruct (Z.ltb_spec (0 + Z.of_nat k) 0) as [|Hnn]; [lia|]. intros [= <- <-].
    rewrite (proj2 (Z.ltb_ge _ _) Hnn). replace (Z.to_nat (0 + Z.of_nat k)) with k by lia.
    eapply kok_ext; [apply (kok_ofile F s k f 0 Hs Hk); lia|]. split_and!; [done| |done]. intros g Hg. simpl. own_solve.
Qed.

(** ** Filling in a new file *)

Lemma kt_set_inode F f ip r w : in_raw F f -> kt F (upd_file f (set_inode ip r w)) (fun _ => minus_raw (minus_i F ip) f).
Proof.
  intros Hraw s [] s' Hs E. apply upd_file_done in E as (i & x & -> & Hi & ->).
  pose proof (ko_file _ _ _ Hs i x Hi) as (R1 & R2 & R3 & R4). destruct (R4 Hraw) as [E1 E2].
  assert (fl_type x = FD_NONE) as Ht by (apply R3; by right). eapply kok_file; try done; simpl.
  - split; [done|]. intros [|[_ ?]]; [lia|done].
  - intros H0. lia.
  - intros g Hg Hne. split; [done|]. intuition.
  - intros j Hj. unfold ip_of. simpl. rewrite Ht, E2. simpl. lia.
  - eapply pipes_ok_insert; [apply Hs|done|by left].
Qed.

Lemma kok_set_pipe F s i x p r w q : kok s0 F s -> k_ftable s !! i = Some x -> in_raw F (Z.of_nat i + 1) ->
  k_pipes s !! p = Some q -> (if w =? 0 then readopen q else writeopen q) <> 0 -> end_unused p w s ->
  kok s0 (minus_raw F (Z.of_nat i + 1)) (with_ftable (<[i := set_pipe p r w x]> (k_ftable s)) s).
Proof.
  intros Hs Hi Hraw Hq Ho Hun. pose proof (ko_file _ _ _ Hs i x Hi) as (R1 & R2 & R3 & R4). destruct (R4 Hraw) as [E1 E2].
  assert (fl_type x = FD_NONE) as Ht by (apply R3; by right). pose proof (lookup_lt_Some _ _ _ Hi) as Hlt.
  eapply kok_file; try done; simpl.
  - split; [done|]. intros [|[_ ?]]; [lia|done].
  - intros H0. lia.
  - intros g Hg Hne. split; [done|]. intuition.
  - intros j Hj. unfold ip_of. simpl. by rewrite Ht.
  - destruct (ko_pipes _ _ _ Hs) as [P1 P2]. split.
    + intros k z. destruct (decide (k = i)) as [-> |]; [rewrite list_lookup_insert_eq by done|rewrite list_lookup_insert_ne by done; apply P1].
      intros [= <-] _. simpl. eauto.
    + intros k k' z z' Hz Hz' Tz Tz' Ep Ew. destruct (decide (k = i)) as [-> |Hk], (decide (k' = i)) as [-> |Hk']; try done.
      * rewrite list_lookup_insert_eq in Hz by done. rewrite list_lookup_insert_ne in Hz' by done. injection Hz as <-. simpl in *.
        by apply (Hun k' z') in Hz'.
      * rewrite list_lookup_insert_ne in Hz by done. rewrite list_lookup_insert_eq in Hz' by done. injection Hz' as <-. simpl in *.
        by apply (Hun k z) in Hz.
      * rewrite list_lookup_insert_ne in Hz by done. rewrite list_lookup_insert_ne in Hz' by done. by eapply P2.
Qed.

(** A new pipe in a page from [kalloc]. *)
Lemma kok_kalloc F s p m : kok s0 F s -> kalloc (k_mem s) = Done p m ->
  if decide (p = 0) then kok s0 F (with_kmem m s)
  else k_pipes s !! p = None /\ forall q, kok s0 F (with_kmem m (with_pipes (<[p := q]> (k_pipes s)) s)).
Proof.
  intros Hs Ek. pose proof (ko_pipes _ _ _ Hs) as Hpk. destruct (ko_pages _ _ _ Hs) as (l & Hl & Hps).
  pose proof (wp_kalloc kend (k_mem s) l Hl) as Hw. unfold wp in Hw. rewrite Ek in Hw. destruct Hw as [Epg Hw].
  destruct l as [|v l'].
  - destruct Hw as [-> ->]. rewrite decide_True by done. destruct Hs as [H1 H2 H3 H4 H5 H6 H7]. by split.
  - destruct Hw as [-> Hl']. pose proof (fr_chain _ _ _ Hl) as (_ & Hv & y & Hy & _). pose proof (fr_nodup _ _ _ Hl) as Hnd.
    apply NoDup_cons in Hnd as [Hvl _]. rewrite decide_False by (by eapply page_aligned_nonzero).
    assert (k_pipes s !! v = None) as Hnone.
    { destruct (k_pipes s !! v) as [q|] eqn:E; [|done]. destruct (Hps v q E) as (_ & Hni & _). set_solver. }
    split; [done|]. intros q. apply kok_pipes; [done| |].
    + split; [|apply Hpk]. intros k z Hz Ht. destruct (pk_open _ _ Hpk k z Hz Ht) as (q' & Hq' & Ho). exists q'. split; [|done].
      rewrite lookup_insert_ne; [done|]. intros ->. congruence.
    + exists l'. split; [done|]. intros a q' Ha. rewrite Epg. destruct (decide (a = v)) as [-> |Hne]; [by split_and!|].
      rewrite lookup_insert_ne in Ha by done. destruct (Hps a q' Ha) as (A1 & A2 & A3). split_and!; [done|set_solver|done].
Qed.

Lemma kok_lengths F s i x : kok s0 F s -> k_ftable s !! i = Some x -> 1 <= Z.of_nat i + 1 <= NFILE.
Proof. intros Hs Hi. apply lookup_lt_Some in Hi. destruct (ko_len _ _ _ Hs) as [Hl _]. unfold NFILE in *. lia. Qed.
(** No code holds two references to a file it has just allocated. *)
Lemma kok_raw_once F s i x : kok s0 F s -> k_ftable s !! i = Some x -> in_raw F (Z.of_nat i + 1) -> in_f F (Z.of_nat i + 1) <= 1.
Proof.
  intros Hs Hi Hr. pose proof (ko_file _ _ _ Hs i x Hi) as (R1 & R2 & R3 & R4). destruct (R4 Hr).
  pose proof (fdcount_pos (k_ofile s) (Z.of_nat i + 1)). lia.
Qed.

(** Two new files become the ends of a new pipe. *)
Lemma kok_pipe_ends F s p q f0 f1 s1 s2 : kok s0 F s -> k_pipes s !! p = Some q -> readopen q = 1 -> writeopen q = 1 ->
  (forall k z, k_ftable s !! k = Some z -> fl_type z = FD_PIPE -> fl_pipe z <> p) ->
  in_raw F f0 -> in_raw F f1 -> f0 <> f1 ->
  upd_file f0 (set_pipe p 1 0) s = Done tt s1 -> upd_file f1 (set_pipe p 0 1) s1 = Done tt s2 ->
  kok s0 (minus_raw (minus_raw F f0) f1) s2 /\ 1 <= f0 <= NFILE /\ 1 <= f1 <= NFILE.
Proof.
  intros Hs Hq Hro Hwo Hfresh Hr0 Hr1 Hne E1 E2. apply upd_file_done in E1 as (i & x & -> & Hi & ->).
  pose proof (kok_set_pipe F s i x p 1 0 q Hs Hi Hr0 Hq) as H1. simpl in H1. rewrite Hro in H1.
  specialize (H1 ltac:(done) ltac:(intros k z Hz Ht Hp _; exact (Hfresh k z Hz Ht Hp))).
  apply upd_file_done in E2 as (k & y & -> & Hk & ->). split; [|split; [exact (kok_lengths _ _ i x Hs Hi)|exact (kok_lengths _ _ k y H1 Hk)]].
  eapply (kok_set_pipe _ _ k y p 0 1 q H1 Hk); [split; [done|lia]|done|simpl; by rewrite Hwo|].
  intros k' z Hz Ht Hp. simpl in Hz. destruct (decide (k' = i)) as [-> |].
  - rewrite list_lookup_insert_eq in Hz by (by eapply lookup_lt_Some). by injection Hz as <-.
  - rewrite list_lookup_insert_ne in Hz by done. intros _. exact (Hfresh k' z Hz Ht Hp).
Qed.

Lemma bad_close F f : (f <> 0 -> 1 <= in_f F f) -> (forall j, 0 <= j -> 0 <= in_i F j) ->
  kt F (if f =? 0 then ret tt else fileclose kend f) (fun _ => minus_raw (minus_f F f) f).
Proof.
  intros Hf HF. destruct (Z.eqb_spec f 0) as [-> |Hne]; [|by apply kt_fileclose; auto].
  apply kt_ret. split_and!; [done| |]; intros g Hg; simpl; [own_solve|]. intuition lia.
Qed.

Lemma filealloc_entry s f s' : filealloc s = Done f s' -> f = 0 \/ exists i x, f = Z.of_nat i + 1 /\ k_ftable s' !! i = Some x.
Proof.
  unfold filealloc, bind, gets, ret. destruct (_ =? 0); [intros [= <- <-]; by left|].
  destruct (upd_file _ _ s) as [[] t| | | |] eqn:E; try done. intros [= <- <-]. right.
  apply upd_file_done in E as (i & x & -> & Hi & ->). exists i. simpl. rewrite list_lookup_insert_eq by (by eapply lookup_lt_Some). eauto.
Qed.

(** What [pipealloc] holds after its two calls of [filealloc], and how it gives that back. *)
Definition two_raw (f0 f1 : Z) : flight := plus_raw (plus_f (plus_raw (plus_f idle f0) f0) f1) f1.
Lemma kt_pipe_bad f0 f1 : f0 <> f1 -> kt (two_raw f0 f1) (pipe_bad kend f0 f1) (fun r => idle).
Proof.
  intros Hne. unfold pipe_bad. eapply triple_bind; [apply bad_close; [simpl; own_solve|simpl; lia]|]. intros [].
  eapply triple_bind; [apply bad_close; [simpl; own_solve|simpl; lia]|]. intros [].
  apply kt_ret. split_and!; [done| |]; intros g Hg; simpl; [own_solve|]. intuition.
Qed.
Lemma pipe_bad_none f0 f1 s r s' : pipe_bad kend f0 f1 s = Done r s' -> r = None.
Proof. unfold pipe_bad, bind, ret. repeat case_match; try done; by intros [= <- _]. Qed.

Lemma kt_pipealloc :
  triple (kok s0 idle) (pipealloc kend) (fun r s => match r with
    | None => kok s0 idle s
    | Some (f0, f1) => kok s0 (plus_f (plus_f idle f0) f1) s /\ 1 <= f0 <= NFILE /\ 1 <= f1 <= NFILE /\ f0 <> f1
    end).
Proof.
  intros s r s' Hs. unfold pipealloc. unfold bind at 1. destruct (filealloc s) as [f0 s1| | | |] eqn:E1; try done.
  apply (kt_filealloc idle) in E1; [|done|done].
  destruct (Z.eqb_spec f0 0) as [-> |Hf0].
  { intros [= <- <-]. eapply kok_ext; [exact E1|]. split_and!; [done| |]; intros g Hg; simpl; [own_solve|]. intuition lia. }
  unfold bind at 1. destruct (filealloc s1) as [f1 s2| | | |] eqn:E2; try done. pose proof (filealloc_entry _ _ _ E2) as Hent.
  apply (kt_filealloc (plus_raw (plus_f idle f0) f0)) in E2; [|intros f Hf; simpl; own_solve|exact E1]. fold (two_raw f0 f1) in E2.
  assert (f0 <> f1) as Hne.
  { intros <-. destruct Hent as [|(i & x & -> & Hi)]; [done|]. pose proof (kok_raw_once _ _ i x E2 Hi) as Ho. simpl in Ho.
    rewrite own_self in Ho. specialize (Ho ltac:(by right)). lia. }
  destruct (Z.eqb_spec f1 0) as [-> |Hf1].
  { intros Hb. pose proof (pipe_bad_none _ _ _ _ _ Hb) as ->. by eapply (kt_pipe_bad f0 0). }
  unfold bind at 1, on_mem at 1, lift. destruct (kalloc (k_mem s2)) as [p m| | | |] eqn:E3; try done.
  pose proof (kok_kalloc _ _ _ _ E2 E3) as Hp. destruct (Z.eqb_spec p 0) as [-> |Hp0].
  { rewrite decide_True in Hp by done. intros Hb. pose proof (pipe_bad_none _ _ _ _ _ Hb) as ->. by eapply (kt_pipe_bad f0 f1). }
  rewrite decide_False in Hp by done. destruct Hp as [Hfresh Hp]. unfold bind at 1, on_mem at 1, lift, get_page at 1. simpl.
  destruct (pages m !! p) as [pg|]; [|done]. set (q := pipeinit _). unfold bind at 1, put_pipe, modify. simpl.
  specialize (Hp q). unfold bind at 1.
  destruct (upd_file f0 (set_pipe p 1 0) _) as [[] s4| | | |] eqn:E4; try done. unfold bind at 1.
  destruct (upd_file f1 (set_pipe p 0 1) s4) as [[] s5| | | |] eqn:E5; try done. intros [= <- <-].
  destruct (kok_pipe_ends _ _ p q f0 f1 s4 s5 Hp) as (H5 & R0 & R1); simpl; try done.
  - apply lookup_insert_eq.
  - intros k z Hz Ht E. destruct (pk_open _ _ (ko_pipes _ _ _ E2) k z Hz Ht) as (q' & Hq' & _). congruence.
  - by left; right.
  - by right.
  - split_and!; try done; try lia. eapply kok_ext; [exact H5|]. split_and!; [done| |]; intros g Hg; simpl; [own_solve|]. intuition.
Qed.
End Kok.
End Tables.

#[export] Hint Resolve unseen_user unseen_begin unseen_end unseen_get_file unseen_get_pipe : moves.
#[export] Hint Extern 2 (moves unseen (on_fs _)) => apply unseen_fs; solve [moves] : moves.
