(* ===== verification/SysfileInv.v ===== *)
(** * Every file system call keeps the tables consistent

    The handlers of sysfile.c against the invariant of Tables.v. *)

From S2P Require Import Prelude Buf Blocks Kalloc Pipe Syscall Fs Balloc Inode Icache Dir Mount Refs File Sysfile Tables.

(** Reading and writing leave the ends of a pipe open. *)
Lemma pipewrite_ends killed n addr : forall p st left p' wk, pipewrite_loop killed n addr p = (st, left, p', wk) ->
  readopen p' = readopen p /\ writeopen p' = writeopen p.
Proof.
  induction addr as [|c addr IH]; intros p st left p' wk; simpl; [by intros [= _ _ <- _]|].
  destruct (_ =? _); [|by intros H%IH]. destruct (_ || _); by intros [= _ _ <- _].
Qed.
Lemma piperead_loop_ends n : forall p got p', piperead_loop n p = (got, p') -> readopen p' = readopen p /\ writeopen p' = writeopen p.
Proof.
  induction n as [|n IH]; intros p got p'; simpl; [by intros [= _ <-]|]. destruct (_ =? _); [by intros [= _ <-]|].
  destruct (piperead_loop n _) as [g p''] eqn:E. intros [= _ <-]. by apply IH in E.
Qed.
Lemma piperead_ends killed n p st got p' wk : piperead killed n p = (st, got, p', wk) -> readopen p' = readopen p /\ writeopen p' = writeopen p.
Proof.
  unfold piperead. destruct (_ && _); [destruct killed; by intros [= _ _ <- _]|].
  destruct (piperead_loop _ p) as [g q] eqn:E. intros [= _ _ <- _]. by eapply piperead_loop_ends.
Qed.

Section SysfileInv.
Context {S : Type} `{BK : Blocks S} `{TR : Transactions S}.
Abbreviation fs := (fsys (S := S)).
Abbreviation ker := (ker (S := S)).
Variable dev_read : Z -> option (Z -> Z -> M fs (Z * list Z)).
Variable dev_write : Z -> option (Z -> list Z -> M fs Z).
(** A driver leaves the references of the inode cache and the tables of the file system alone. *)
Hypothesis dev_read_keeps : forall major f ip n, dev_read major = Some f -> moves same_ids (f ip n).
Hypothesis dev_read_frames : forall major f ip n, dev_read major = Some f -> moves same_tables (f ip n).
Hypothesis dev_write_keeps : forall major f ip src, dev_write major = Some f -> moves same_ids (f ip src).
Hypothesis dev_write_frames : forall major f ip src, dev_write major = Some f -> moves same_tables (f ip src).
Variables (kend : Z) (junk : list Z) (oi ofs : Z -> Z).

Section Calls.
Variable s0 : ker.
Implicit Type s : ker.
Abbreviation ok := (kok kend oi ofs s0).
Abbreviation kt F m G := (triple (ok F) m (fun r => ok (G r))).

(** ** Calls into fs.c *)

Ltac from_fs L := eapply kt_post; [apply kt_fs'; [intros b t D; apply L|]|].

Lemma kt_namei F path : kt F (on_fs (namei dev_read junk path)) (fun ip => plus_i F ip).
Proof using dev_read_keeps dev_read_frames. from_fs tr_namei; [done|apply cwd_frames; moves|done]. Qed.
Lemma kt_nameiparent F path : kt F (on_fs (nameiparent dev_read path junk)) (fun r => plus_i F r.1).
Proof using dev_read_keeps dev_read_frames. from_fs tr_namex; [done|apply cwd_frames; moves|done]. Qed.
Lemma kt_dirlookup F dp name : kt F (on_fs (dirlookup dev_read dp name)) (fun r => plus_i F r.1).
Proof using dev_read_keeps dev_read_frames. from_fs tr_dirlookup; [done|apply cwd_frames; moves|done]. Qed.
Lemma kt_ialloc F prt type : kt F (on_fs (ialloc prt type)) (fun ip => plus_i F ip).
Proof. from_fs tr_ialloc; [apply cwd_frames; moves|done]. Qed.

Lemma kt_same {A} F (m : M fs A) : (forall b t D, triple (held b D t) m (fun _ => held b D t)) -> moves same_cwd m -> kt F (on_fs m) (fun _ => F).
Proof.
  intros Hm Hc. eapply kt_post; [apply (kt_fs' _ _ _ _ F m (fun _ _ => 0)); [|done]|].
  - intros b t D. eapply triple_conseq; [apply (Hm b t D)|done|]. intros r s Hs. eapply held_less; [exact Hs|].
    intros j Hj. pose proof (h_d _ _ _ _ Hs j Hj). lia.
  - intros r. split_and!; [|done..]. intros j Hj. simpl. lia.
Qed.
Lemma kt_dirlink F dp name inum : kt F (on_fs (dirlink dev_read dev_write dp name inum)) (fun _ => F).
Proof using dev_read_keeps dev_read_frames dev_write_keeps dev_write_frames.
  apply kt_same; [intros b t D; by apply tr_dirlink|apply cwd_frames; moves].
Qed.
Lemma kt_mount F path prt : kt F (on_fs (mount dev_read junk path prt)) (fun _ => F).
Proof using dev_read_keeps dev_read_frames.
  apply kt_same; [intros b t D; by apply tr_mount|].
  assert (PreOrder (same_cwd (S := S))) by (split; [done|intros x y z; unfold same_cwd; congruence]).
  unfold mount. apply moves_bind; [done|apply cwd_frames; moves|]. intros ip. unfold is_mounted, find_mp, mpalloc, partition_at. moves; try by apply moves_modify.
  apply cwd_frames, frames_get_inode.
Qed.

(** ** The handlers *)

Ltac flight := split_and!; intros; simpl in *; [own_solve|own_solve|intuition (try lia)].
(** Sequencing with a routine that changes nothing of the tables, and the end of a handler. *)
Ltac skip := eapply triple_bind; [apply kt_unseen; solve [moves]|intros ?].
Ltac finish := apply kt_ret; flight.
Ltac giveup := solve [finish | by apply triple_stuck | eapply triple_bind; [apply kt_unseen; solve [moves]|intros ?; finish]
  | eapply triple_bind; [apply kt_iunlockput; simpl; own_solve|intros ?; skip; finish]].

Lemma kt_put_pipe F p x x' : readopen x' = readopen x -> writeopen x' = writeopen x ->
  triple (fun s => ok F s /\ k_pipes s !! p = Some x) (put_pipe p x') (fun _ => ok F).
Proof.
  intros E1 E2 s [] s' [Hs Hx] [= <-]. change (ok F (with_kmem (k_mem s) (with_pipes (<[p := x']> (k_pipes s)) s))).
  apply kok_pipes; [done| |by eapply pages_ok_put; [apply Hs|]].
  eapply pipes_ok_put; [apply Hs|done|]. intros k z _ _ _. by rewrite E1, E2.
Qed.

Lemma kt_fileread F f addr n : kt F (fileread dev_read f addr n) (fun _ => F).
Proof using dev_read_keeps dev_read_frames.
  unfold fileread. skip. rename a into x. destruct (_ =? 0); [finish|]. destruct (fl_type x); [by apply triple_stuck| |].
  - apply (triple_bind _ _ _ (fun p s => ok F s /\ k_pipes s !! fl_pipe x = Some p)).
    { intros s p s' Hs. unfold get_pipe. destruct (k_pipes s !! fl_pipe x) eqn:E; [|done]. by intros [= <- <-]. }
    intros p. eapply triple_bind; [apply (triple_gets _ _ (fun _ s => ok F s /\ k_pipes s !! fl_pipe x = Some p)); by intros s|]. intros killed.
    destruct (piperead killed n p) as [[[[r|] got] p'] wk] eqn:Er; [|by apply triple_stuck]. apply piperead_ends in Er as [E1 E2].
    eapply triple_bind; [by apply (kt_put_pipe F (fl_pipe x) p)|]. intros []. skip. finish.
  - skip. skip. destruct a0 as [r got]. skip.
    apply (triple_bind _ _ _ (fun _ => ok F)); [|intros ?; skip; finish]. destruct (r >? 0); [apply kt_set_off|finish].
Qed.

Lemma kt_filewrite_loop F fuel f ip addr n : forall i, kt F (filewrite_loop dev_write fuel f ip addr n i) (fun _ => F).
Proof using dev_write_keeps dev_write_frames.
  induction fuel as [|fuel IH]; intros i; simpl; destruct (i <? n); try finish; [by apply triple_stuck|].
  do 5 skip. apply (triple_bind _ _ _ (fun _ => ok F)); [destruct (_ >? 0); [apply kt_set_off|finish]|]. intros []. do 2 skip.
  destruct (_ <? 0); [finish|]. destruct (negb _); [by apply triple_stuck|apply IH].
Qed.
Lemma kt_filewrite F f addr n : kt F (filewrite dev_write f addr n) (fun _ => F).
Proof using dev_write_keeps dev_write_frames.
  unfold filewrite. skip. rename a into x. destruct (_ =? 0); [finish|]. destruct (fl_type x); [by apply triple_stuck| |].
  - apply (triple_bind _ _ _ (fun p s => ok F s /\ k_pipes s !! fl_pipe x = Some p)).
    { intros s p s' Hs. unfold get_pipe. destruct (k_pipes s !! fl_pipe x) eqn:E; [|done]. by intros [= <- <-]. }
    intros p. eapply triple_bind; [apply (triple_gets _ _ (fun _ s => ok F s /\ k_pipes s !! fl_pipe x = Some p)); by intros s|]. intros killed.
    apply (triple_bind _ _ _ (fun _ s => ok F s /\ k_pipes s !! fl_pipe x = Some p)).
    { intros s r s' [Hs Hx] E. apply unseen_user in E. split; [by eapply kok_unseen|]. destruct E as (_ & _ & _ & -> & _). done. }
    intros src. destruct (pipewrite_loop killed n src p) as [[[[r|] rest] p'] wk] eqn:Er; [|by apply triple_stuck]. apply pipewrite_ends in Er as [E1 E2].
    eapply triple_bind; [by apply (kt_put_pipe F (fl_pipe x) p)|]. intros []. finish.
  - eapply triple_bind; [apply kt_filewrite_loop|]. intros r. finish.
Qed.

(** A descriptor argument is one of the process's descriptors, and open. *)
Lemma kt_argfd F n : triple (ok F) (argfd n) (fun r s => ok F s /\
  match r with Some (fd, f) => k_ofile s !! Z.to_nat fd = Some f /\ 1 <= f <= NFILE | None => True end).
Proof.
  unfold argfd. skip. destruct a as [fd|]; [|by apply triple_ret]. destruct (_ || _); [by apply triple_ret|].
  intros s r s' Hs. unfold bind, gets, fd_at. destruct (Z.eqb_spec (nth (Z.to_nat fd) (k_ofile s) 0) 0) as [E|E]; [by intros [= <- <-]|].
  intros [= <- <-]. split; [done|]. destruct (k_ofile s !! Z.to_nat fd) as [f|] eqn:Ef.
  - rewrite (nth_lookup_Some _ _ _ _ Ef) in *. split; [done|]. pose proof (Forall_lookup_1 _ _ _ _ (ko_fds _ _ _ _ _ _ Hs) Ef). simpl in *. lia.
  - by rewrite nth_lookup, Ef in E.
Qed.
(** The handlers that only look at the descriptor. *)
Lemma kt_argfd_then F n (k : option (Z * Z) -> M ker Z) : (forall r, kt F (k r) (fun _ => F)) -> kt F (r <- argfd n ;; k r) (fun _ => F).
Proof. intros Hk. eapply triple_bind; [apply kt_argfd|]. intros r. eapply triple_weaken; [apply Hk|by intros s [? _]]. Qed.

Lemma kt_rw (k : option (Z * Z * Z) -> M ker Z) : (forall r, kt idle (k r) (fun _ => idle)) -> kt idle (r <- arg_rw ;; k r) (fun _ => idle).
Proof.
  intros Hk. apply (triple_bind _ _ _ (fun _ => ok idle)); [|apply Hk]. unfold arg_rw. eapply triple_bind; [apply kt_argfd|].
  intros r. apply (triple_weaken (ok idle)); [|by intros s [? _]]. destruct r as [[fd f]|]; [|finish]. skip. destruct a as [n|]; [|finish]. skip. finish.
Qed.
Lemma kt_sys_read : kt idle (sys_read dev_read) (fun _ => idle).
Proof using dev_read_keeps dev_read_frames. apply kt_rw. intros [[[f p] n]|]; [apply kt_fileread|finish]. Qed.
Lemma kt_sys_write : kt idle (sys_write dev_write) (fun _ => idle).
Proof using dev_write_keeps dev_write_frames. apply kt_rw. intros [[[f p] n]|]; [apply kt_filewrite|finish]. Qed.

Lemma kt_sys_dup : kt idle sys_dup (fun _ => idle).
Proof.
  unfold sys_dup. eapply triple_bind; [apply kt_argfd|]. intros [[fd f]|]; [|intros s r s' [Hs _] [= _ <-]; exact Hs].
  intros s r s' (Hs & _ & Hf). revert s r s' Hs. eapply triple_bind; [by apply kt_fdalloc|]. intros nfd. cbv beta. destruct (nfd <? 0); [finish|].
  eapply triple_bind; [apply kt_filedup; intros []|]. intros r. finish.
Qed.
Lemma kt_sys_close : kt idle (sys_close kend) (fun _ => idle).
Proof.
  unfold sys_close. eapply triple_bind; [apply kt_argfd|]. intros [[fd f]|]; [|intros s r s' [Hs _] [= _ <-]; exact Hs].
  apply (triple_bind _ _ _ (fun _ s => ok (plus_f idle f) s /\ 1 <= f)).
  { intros s r s' (Hs & Hfd & Hf) [= _ <-]. split; [|lia]. eapply kok_ext; [apply (kok_ofile _ _ _ _ _ _ _ 0 f Hs Hfd); unfold NFILE; lia|]. flight. }
  intros []. intros s r s' [Hs Hf]. revert s r s' Hs. eapply triple_bind; [apply kt_fileclose|].
  - simpl. rewrite own_self. lia.
  - done.
  - intros []. finish.
Qed.
Lemma kt_sys_fstat : kt idle sys_fstat (fun _ => idle).
Proof.
  apply kt_argfd_then. intros [[fd f]|]; [|finish]. skip. destruct a as [st|]; [|finish]. unfold filestat, stati. skip. rename a into x.
  destruct (fl_type x); try finish. do 2 skip. unfold put_stat. skip. skip. finish.
Qed.

Lemma kt_argpath F n : kt F (argpath n) (fun _ => F).
Proof. unfold argpath. skip. destruct a as [[p len]|]; [|finish]. skip. finish. Qed.
Ltac path := eapply triple_bind; [apply kt_argpath|intros [?|]].

Lemma kt_link_entry F new ip : (forall j, 0 <= j -> 0 <= in_i F j) -> kt F (link_entry dev_read dev_write junk new ip) (fun _ => F).
Proof using dev_read_keeps dev_read_frames dev_write_keeps dev_write_frames.
  intros HF. unfold link_entry. eapply triple_bind; [apply kt_nameiparent|]. intros [dp name]. simpl. destruct (Z.eqb_spec dp NULLP) as [-> |]; [finish|].
  do 3 skip. apply (triple_bind _ _ _ (fun _ => ok (plus_i F dp))).
  { destruct (negb _); [finish|]. eapply triple_bind; [apply kt_dirlink|]. intros r. finish. }
  intros okk. eapply triple_bind; [apply kt_iunlockput; simpl; own_solve|]. intros []. finish.
Qed.
Lemma kt_sys_link : kt idle (sys_link dev_read dev_write junk) (fun _ => idle).
Proof using dev_read_keeps dev_read_frames dev_write_keeps dev_write_frames.
  unfold sys_link. path; [|finish]. path; [|finish]. skip. eapply triple_bind; [apply kt_namei|]. intros ip.
  destruct (Z.eqb_spec ip NULLP) as [-> |]; [giveup|]. do 2 skip. destruct (_ =? T_DIR); [giveup|]. unfold add_nlink. do 2 skip.
  eapply triple_bind; [apply kt_link_entry; simpl; own_solve|]. intros b. destruct b.
  - eapply triple_bind; [apply kt_iput; simpl; own_solve|]. intros []. giveup.
  - do 2 skip. giveup.
Qed.

Lemma kt_unlink_entry dp ip off : ip <> NULLP -> dp <> NULLP ->
  kt (plus_i (plus_i idle dp) ip) (unlink_entry dev_read dev_write dp ip off) (fun _ => idle).
Proof using dev_read_keeps dev_read_frames dev_write_keeps dev_write_frames.
  intros Hip Hdp. unfold unlink_entry, add_nlink. do 2 skip. destruct (_ <? 1); [by apply triple_stuck|].
  apply (triple_bind _ _ _ (fun _ => ok (plus_i (plus_i idle dp) ip))).
  { destruct (_ =? T_DIR); [|finish]. apply kt_unseen. unfold isdirempty. moves. }
  intros e. destruct (negb e).
  { eapply triple_bind; [apply kt_iunlockput; simpl; own_solve|]. intros []. giveup. }
  skip. destruct (negb _); [by apply triple_stuck|].
  apply (triple_bind _ _ _ (fun _ => ok (plus_i (plus_i idle dp) ip))).
  { destruct (_ =? T_DIR); [|finish]. apply kt_unseen. moves. }
  intros []. eapply triple_bind; [apply kt_iunlockput; simpl; own_solve|]. intros []. skip. giveup.
Qed.
Lemma kt_sys_unlink : kt idle (sys_unlink dev_read dev_write junk) (fun _ => idle).
Proof using dev_read_keeps dev_read_frames dev_write_keeps dev_write_frames.
  unfold sys_unlink. path; [|finish]. skip. eapply triple_bind; [apply kt_nameiparent|]. intros [dp name]. simpl.
  destruct (Z.eqb_spec dp NULLP) as [-> |]; [giveup|]. skip. destruct (_ || _); [giveup|].
  eapply triple_bind; [apply kt_dirlookup|]. intros [ip off]. simpl. destruct (Z.eqb_spec ip NULLP) as [-> |]; [giveup|by apply kt_unlink_entry].
Qed.

(** A new inode holds one reference, to itself. *)
Lemma kt_create path type major minor : kt idle (create dev_read dev_write junk path type major minor) (fun ip => plus_i idle ip).
Proof using dev_read_keeps dev_read_frames dev_write_keeps dev_write_frames.
  unfold create, add_nlink. eapply triple_bind; [apply kt_nameiparent|]. intros [dp name]. simpl.
  destruct (Z.eqb_spec dp NULLP) as [-> |]; [finish|]. skip. eapply triple_bind; [apply kt_dirlookup|]. intros [ip off]. simpl.
  destruct (Z.eqb_spec ip NULLP) as [-> |]; simpl.
  - skip. rename a0 into d. eapply triple_bind; [apply kt_ialloc|]. intros ip. destruct (Z.eqb_spec ip NULLP); [by apply triple_stuck|].
    do 4 skip. apply (triple_bind _ _ _ (fun _ => ok (plus_i (plus_i (plus_i idle dp) NULLP) ip))).
    { destruct (type =? T_DIR); [|finish]. skip. do 2 (eapply triple_bind; [apply kt_dirlink|]; intros ?; destruct (_ <? 0); [by apply triple_stuck|]). finish. }
    intros []. eapply triple_bind; [apply kt_dirlink|]. intros r. destruct (r <? 0); [by apply triple_stuck|].
    eapply triple_bind; [apply kt_iunlockput; simpl; own_solve|]. intros []. finish.
  - eapply triple_bind; [apply kt_iunlockput; simpl; own_solve|]. intros []. do 2 skip. destruct (_ && _); [finish|].
    eapply triple_bind; [apply kt_iunlockput; simpl; own_solve|]. intros []. finish.
Qed.
Lemma kt_create_only path type major minor : kt idle (create_only dev_read dev_write junk path type major minor) (fun _ => idle).
Proof using dev_read_keeps dev_read_frames dev_write_keeps dev_write_frames.
  unfold create_only. eapply triple_bind; [apply kt_create|]. intros ip. destruct (Z.eqb_spec ip NULLP) as [-> |]; giveup.
Qed.
Lemma kt_sys_mkdir : kt idle (sys_mkdir dev_read dev_write junk) (fun _ => idle).
Proof using dev_read_keeps dev_read_frames dev_write_keeps dev_write_frames.
  unfold sys_mkdir. skip. path; [apply kt_create_only|giveup].
Qed.
Lemma kt_sys_mknod : kt idle (sys_mknod dev_read dev_write junk) (fun _ => idle).
Proof using dev_read_keeps dev_read_frames dev_write_keeps dev_write_frames.
  unfold sys_mknod. skip. path; [|giveup]. skip. destruct a0 as [major|]; [|giveup]. skip. destruct a0 as [minor|]; [apply kt_create_only|giveup].
Qed.
Lemma kt_sys_mount : kt idle (sys_mount dev_read junk) (fun _ => idle).
Proof using dev_read_keeps dev_read_frames. unfold sys_mount. path; [|finish]. skip. destruct a as [prt|]; [apply kt_mount|finish]. Qed.

Lemma kt_open_inode path omode : kt idle (open_inode dev_read dev_write junk path omode) (fun ip => plus_i idle ip).
Proof using dev_read_keeps dev_read_frames dev_write_keeps dev_write_frames.
  unfold open_inode. destruct (negb _); [apply kt_create|]. eapply triple_bind; [apply kt_namei|]. intros ip.
  destruct (Z.eqb_spec ip NULLP) as [-> |]; [finish|]. do 2 skip. destruct (_ && _); [|finish].
  eapply triple_bind; [apply kt_iunlockput; simpl; own_solve|]. intros []. finish.
Qed.
Lemma filealloc_range F s f s' : ok F s' -> filealloc s = Done f s' -> f = 0 \/ 1 <= f <= NFILE.
Proof.
  intros Hs [-> |(i & x & -> & Hi)]%filealloc_entry; [by left|]. right. by eapply kok_lengths.
Qed.
Lemma kt_sys_open : kt idle (sys_open dev_read dev_write kend junk) (fun _ => idle).
Proof using dev_read_keeps dev_read_frames dev_write_keeps dev_write_frames.
  unfold sys_open. path; [|finish]. skip. destruct a as [omode|]; [|finish]. skip. eapply triple_bind; [apply kt_open_inode|]. intros ip.
  destruct (Z.eqb_spec ip NULLP) as [-> |Hip]; [giveup|].
  apply (triple_bind _ _ _ (fun f s => ok (plus_raw (plus_f (plus_i idle ip) f) f) s /\ (f = 0 \/ 1 <= f <= NFILE))).
  { intros s f s' Hs E. pose proof (kt_filealloc kend oi ofs s0 (plus_i idle ip) ltac:(simpl; lia) _ _ _ Hs E) as H1.
    split; [done|]. exact (filealloc_range _ _ _ _ H1 E). }
  intros f s r s' [Hs Hf]. revert s r s' Hs. destruct (Z.eqb_spec f 0) as [-> |Hf0].
  { eapply triple_bind; [apply kt_iunlockput; simpl; own_solve|]. intros []. skip. finish. }
  assert (1 <= f <= NFILE) as Hr by (destruct Hf; [done|lia]). eapply triple_bind; [by apply kt_fdalloc|]. intros fd. cbv beta.
  destruct (fd <? 0).
  - eapply triple_bind; [apply kt_fileclose; simpl; own_solve|]. intros [].
    eapply triple_bind; [apply kt_iunlockput; simpl; own_solve|]. intros []. skip. finish.
  - do 2 skip. eapply triple_bind; [apply kt_set_inode; by right|]. intros []. finish.
Qed.

Lemma kt_sys_chdir : kt idle (sys_chdir dev_read junk) (fun _ => idle).
Proof using dev_read_keeps dev_read_frames.
  unfold sys_chdir. skip. path; [|giveup]. eapply triple_bind; [apply kt_namei|]. intros ip. destruct (Z.eqb_spec ip NULLP) as [-> |]; [giveup|].
  do 2 skip. destruct (negb _); [giveup|]. skip.
  apply (triple_bind _ _ _ (fun c s => ok (plus_i idle ip) s /\ f_cwd (k_fs s) = c)).
  { intros s c s' Hs [= <- <-]. split; [|done]. eapply kok_unseen; [exact Hs|done]. }
  intros c. apply (triple_bind _ _ _ (fun _ s => ok (minus_i (plus_i idle ip) c) s /\ f_cwd (k_fs s) = c)).
  { intros s r s' [Hs Hc] E. split.
    - eapply (kt_iput_cwd _ _ _ _ (plus_i idle ip) c); [|exact E]. split; [done|]. intros H0. rewrite Hc, own_self. simpl. own_solve.
    - unfold on_fs, lift in E. destruct (iput c (k_fs s)) as [[] t| | | |] eqn:Ei; try done. injection E as _ <-. simpl.
      apply frames_iput in Ei as (_ & _ & _ & _ & ->). done. }
  intros []. apply (triple_bind _ _ _ (fun _ s => ok (minus_i (plus_i idle ip) c) s /\ f_cwd (k_fs s) = c)).
  { intros s r s' [Hs Hc] E. apply unseen_end in E. split; [by eapply kok_unseen|]. destruct E as (_ & -> & _). done. }
  intros []. apply (triple_bind _ _ _ (fun _ => ok idle)); [|intros ?; finish].
  intros s r s' [[H1 H2 H3 H4 H5 H6 H7] Hc] [= _ <-]. split; try done. simpl. apply (held_ids _ _ _ (k_fs s)); [done|].
  eapply held_less; [exact H1|]. intros j Hj. pose proof (h_d _ _ _ _ H1 j Hj). simpl in *. rewrite Hc in *. lia.
Qed.

Lemma fdalloc_at f s fd s' : fdalloc f s = Done fd s' ->
  fd < 0 /\ s' = s \/ 0 <= fd /\ k_ofile s' !! Z.to_nat fd = Some f.
Proof.
  unfold fdalloc, bind, gets, set_fd. destruct (free_fd_spec (k_ofile s) 0) as [E|(k & E & Hk)]; [lia| |]; rewrite E.
  - intros [= <- <-]. left. split; [lia|done].
  - destruct (Z.ltb_spec (0 + Z.of_nat k) 0); [lia|]. intros [= <- <-]. right. split; [lia|]. simpl.
    rewrite list_lookup_insert_eq; [done|]. apply lookup_lt_Some in Hk. lia.
Qed.
(** [sys_pipe] without room for its two descriptors. *)
Lemma kt_close_both f0 f1 : 1 <= f0 -> 1 <= f1 -> f0 <> f1 ->
  kt (plus_f (plus_f idle f0) f1) (fileclose kend f0 ;;; fileclose kend f1 ;;; ret (-1)) (fun _ => idle).
Proof.
  intros H0 H1 Hne. eapply triple_bind; [apply kt_fileclose; simpl; own_solve|]. intros [].
  eapply triple_bind; [apply kt_fileclose; simpl; own_solve|]. intros []. finish.
Qed.
Lemma kt_sys_pipe : kt idle (sys_pipe kend) (fun _ => idle).
Proof.
  unfold sys_pipe. skip. destruct a as [p|]; [|finish]. eapply triple_bind; [apply kt_pipealloc|]. intros [[f0 f1]|]; [|finish].
  intros s r s' (Hs & R0 & R1 & Hne). unfold bind at 1. destruct (fdalloc f0 s) as [fd0 s1| | | |] eqn:E0; try done.
  pose proof (fdalloc_at _ _ _ _ E0) as Hat. apply (kt_fdalloc kend oi ofs s0 _ f0 R0 _ _ _ Hs) in E0. destruct Hat as [[Hlt ->]|[Hge Hat]].
  - rewrite (proj2 (Z.ltb_lt _ _) Hlt). unfold bind at 1, ret at 1. destruct (Z.geb_spec fd0 0); [lia|]. simpl.
    intros E. eapply (kt_close_both f0 f1); [lia|lia|done|exact Hs|exact E].
  - rewrite (proj2 (Z.ltb_ge _ _) Hge) in *. unfold bind at 1. destruct (fdalloc f1 s1) as [fd1 s2| | | |] eqn:E1; try done.
    pose proof (fdalloc_at _ _ _ _ E1) as Hat1. apply (kt_fdalloc kend oi ofs s0 _ f1 R1 _ _ _ E0) in E1. destruct Hat1 as [[Hlt ->]|[Hge1 _]].
    + rewrite (proj2 (Z.ltb_lt _ _) Hlt). destruct (Z.geb_spec fd0 0); [|lia]. unfold bind at 1, set_fd, modify.
      intros E. eapply (kt_close_both f0 f1); [lia|lia|done| |exact E].
      eapply kok_ext; [apply (kok_ofile _ _ _ _ _ _ _ 0 f0 E0 Hat); unfold NFILE; lia|]. flight.
    + rewrite (proj2 (Z.ltb_ge _ _) Hge1) in *. revert s2 E1 r s'.
      assert (kt (minus_f (minus_f (plus_f (plus_f idle f0) f1) f0) f1) (on_user (ustore p (le_bytes 4 fd0)) ;;;
        on_user (ustore (p + 4) (le_bytes 4 fd1)) ;;; ret 0) (fun _ => idle)) as Hk by (do 2 skip; finish).
      intros s2 E1 r s'. by apply Hk.
Qed.

Lemma kt_file_call f m : file_call dev_read dev_write kend junk f = Some m -> kt idle m (fun _ => idle).
Proof using dev_read_keeps dev_read_frames dev_write_keeps dev_write_frames.
  destruct f; intros [= <-]; auto using kt_sys_pipe, kt_sys_read, kt_sys_fstat, kt_sys_chdir, kt_sys_dup, kt_sys_open, kt_sys_write,
    kt_sys_mknod, kt_sys_unlink, kt_sys_link, kt_sys_mkdir, kt_sys_close, kt_sys_mount.
Qed.
End Calls.

(** C2. The object tables.  Whatever arguments a process passes, a file system call that returns leaves the
    tables well-formed: descriptors are null or point into the file table; the count of every file is
    the number of descriptors that point to it, in this process and (as [ofs]) in others; a
    file has a type exactly when it is in use; a file of a pipe has a pipe whose end is open, in a
    page that is not free, and is the only file of that end; the count of every inode covers the files,
    the current directory and the references (as [oi]) of others.  No file and no inode that
    others refer to is turned into another one. *)
Theorem file_calls_typed f m s r s' :
  file_call dev_read dev_write kend junk f = Some m -> tables_ok kend oi ofs s -> m s = Done r s' ->
  tables_ok kend oi ofs s' /\
  (forall j, 0 <= j -> 0 < oi j -> names (k_fs s') j = names (k_fs s) j) /\
  (forall i x, k_ftable s' !! i = Some x -> 0 < ofs (Z.of_nat i + 1) -> exists y, k_ftable s !! i = Some y /\ kind x = kind y).
Proof using dev_read_keeps dev_read_frames dev_write_keeps dev_write_frames.
  intros Hf Hs Hm. pose proof (kt_file_call s f m Hf s r s' Hs Hm) as [H1 H2 H3 H4 H5 H6 H7]. split_and!; [|by intros j; apply (h_names _ _ _ _ H1)|done].
  split; try done; [|eauto]. destruct H1 as [A1 A2 A3 A4]. by split.
Qed.
End SysfileInv.
