(* ===== verification/CallRuns.v ===== *)
(** * Runs of file system calls on the small file system of FsRuns.v *)

From S2P Require Import Prelude Buf Ide Bio Log Blocks Kalloc Vm Pipe Syscall Fs Icache Mount Refs File Sysfile Tables SysfileInv FsRuns.

(** A process with root as its current directory and no open files, and a kernel with two free pages. *)
Definition no_file : file := mkFile FD_NONE 0 0 0 0 0 0.
Definition ker0 (b : bst MemIde.memide) (u : uproc) : ker :=
  mkKer (fs_mnt b 1 []) (replicate 100 no_file) ∅ vm0 (replicate 16 0) u.

Lemma fdcount_replicate n g f : g <> f -> fdcount (replicate n g) f = 0.
Proof. intros Hne. unfold fdcount. induction n as [|n IH]; [done|]. cbn [replicate]. by rewrite filter_cons_False. Qed.
Lemma ker0_tables b u : tables_ok 0x80400000 (fun _ => 0) (fun _ => 0) (ker0 b u).
Proof.
  split; cbn [ker0 k_fs k_ftable k_pipes k_mem k_ofile].
  - split; [|intros; lia|intros; lia|].
    + intros j Hj. change (ips _ 0 (replicate 100 no_file) j) with 0. cbn [idle in_i f_cwd fs_mnt]. unfold own. case_decide as E; [subst j|].
      * vm_compute. discriminate.
      * unfold refcount. cbn [idents f_icache fs_mnt]. destruct (idents _ !! _) as [[[p n] r]|] eqn:El; [|lia].
        unfold idents in El. cbn [f_icache fs_mnt] in El. rewrite list_lookup_fmap in El. apply fmap_Some in El as (x & Hx & [= -> -> ->]).
        destruct (Z.to_nat j) as [|[|k]] eqn:Ek; [injection Hx as <-; done|lia|]. apply lookup_replicate in Hx as [-> _]. done.
    + intros j Hj. change (ips _ 0 (replicate 100 no_file) j) with 0. cbn [idle in_i f_cwd fs_mnt]. pose proof (own_pos 1 j). lia.
  - done.
  - apply Forall_replicate. unfold NFILE. lia.
  - intros i x [-> Hi]%lookup_replicate. cbn [fl_ref fl_type no_file idle in_f in_raw].
    assert (fdcount (replicate 16 0) (Z.of_nat i + 1) = 0) as ->.
    { apply fdcount_replicate. lia. }
    split_and!; [done|done|split; [by left|done]|done].
  - intros i x _ ?. lia.
  - split; [intros i x [-> _]%lookup_replicate; done|]. intros i j x y [-> _]%lookup_replicate. done.
  - exists [0x80401000; 0x80402000]. split; [apply vm0_ok|]. intros a p. by rewrite lookup_empty.
Qed.

Lemma pipe_run b : exists s', sys_pipe 0x80400000 (ker0 b u64) = Done 0 s' /\ k_ofile s' = 1 :: 2 :: replicate 14 0 /\
  u_mem (k_user s') = bsplice 8 [0; 0; 0; 0; 1; 0; 0; 0] (u_mem u64).
Proof. eexists. split; [vm_compute; reflexivity|]. split; vm_compute; reflexivity. Qed.

Lemma file_calls_typed_witness :
  exists s', sys_pipe 0x80400000 (ker0 blk0 u64) = Done 0 s' /\ tables_ok 0x80400000 (fun _ => 0) (fun _ => 0) s'.
Proof.
  destruct (pipe_run blk0) as (s' & E & _). exists s'. split; [exact E|].
  exact (proj1 (file_calls_typed (fun _ => None) (fun _ => None) ltac:(discriminate) ltac:(discriminate) ltac:(discriminate) ltac:(discriminate)
    0x80400000 [] (fun _ => 0) (fun _ => 0) Sys_pipe _ _ _ _ eq_refl (ker0_tables blk0 u64) E)).
Defined.

(** ** A read of -1 bytes

    [argptr] does not reject a negative size, and [readi] takes it for one beyond the end of the file:
    the file is copied to the buffer, however small, and past the end of the process. *)
Definition neg_args : uproc :=
  mkU 64 (bsplice 36 (concat (map (le_bytes 4) [0; 60; -1])) (replicate 64 1)) 32 false.
Definition file_open : file := mkFile FD_INODE 1 1 0 0 0 0.
Example read_negative_faults :
  sys_read (fun _ => None) (mkKer fs0 (file_open :: replicate 99 no_file) ∅ vm0 (1 :: replicate 15 0) neg_args) = Fault "user memory".
Proof. vm_compute. reflexivity. Qed.
