(* ===== verification/Grep.v ===== *)
(** * grep.c: the regular-expression matcher and the line loop

    The matcher of Kernighan and Pike decides the language of the pattern; the
    line loop prints the complete lines that match. *)

From S2P Require Import Prelude.

(** Strings are the bytes before the terminator. *)
Definition STAR : Z := 42.
Definition DOT : Z := 46.
Definition DOLLAR : Z := 36.
Definition CARET : Z := 94.
Definition NL : Z := 10.

(** ** The matcher *)

Section Star.
Variable here : list Z -> bool.
(** [do { if(matchhere(re, text)) return 1; } while(text[0] != 0 && (text++[0] == c || c == '.'))] *)
Fixpoint star_loop (c : Z) (text : list Z) : bool :=
  here text || match text with
               | [] => false
               | t :: text' => if (t =? c) || (c =? DOT) then star_loop c text' else false
               end.
End Star.

Fixpoint matchhere (re text : list Z) {struct re} : bool :=
  match re with
  | [] => true
  | c :: re1 =>
      let next := match text with
                  | [] => false
                  | t :: text' => if (c =? DOT) || (c =? t) then matchhere re1 text' else false
                  end in
      match re1 with
      | [] => if c =? DOLLAR then match text with [] => true | _ => false end else next
      | s :: re2 => if s =? STAR then star_loop (matchhere re2) c text else next
      end
  end.
Definition matchstar (c : Z) (re text : list Z) : bool := star_loop (matchhere re) c text.

(** [do { if(matchhere(re, text)) return 1; } while(text++[0] != 0)] *)
Fixpoint match_loop (re text : list Z) : bool :=
  matchhere re text || match text with [] => false | _ :: text' => match_loop re text' end.
Definition match_ (re text : list Z) : bool :=
  match re with
  | c :: re' => if c =? CARET then matchhere re' text else match_loop re text
  | [] => match_loop re text
  end.

(** ** What a pattern means *)

(** A pattern is a sequence of characters and repeated characters, perhaps tied to
    the end of the text. *)
Inductive elem := One (a : Z) | Many (a : Z).
Fixpoint parse (re : list Z) : list elem * bool :=
  match re with
  | [] => ([], false)
  | c :: re1 =>
      match re1 with
      | [] => if c =? DOLLAR then ([], true) else ([One c], false)
      | s :: re2 =>
          if s =? STAR then let (es, b) := parse re2 in (Many c :: es, b)
          else let (es, b) := parse re1 in (One c :: es, b)
      end
  end.

Definition fits (a t : Z) : Prop := a = DOT \/ a = t.
Inductive lang : list elem -> list Z -> Prop :=
| lang_nil : lang [] []
| lang_one a t es w : fits a t -> lang es w -> lang (One a :: es) (t :: w)
| lang_many a v es w : Forall (fits a) v -> lang es w -> lang (Many a :: es) (v ++ w).

(** The text begins with a word of the pattern. *)
Definition begins (p : list elem * bool) (text : list Z) : Prop :=
  exists w v, text = w ++ v /\ lang p.1 w /\ (p.2 = true -> v = []).

Lemma begins_one a es b t text : begins (One a :: es, b) (t :: text) <-> fits a t /\ begins (es, b) text.
Proof.
  split.
  - intros (w & v & E & Hl & Hb). inversion Hl; subst. injection E as -> ->. split; [done|]. by eexists _, v.
  - intros (Hf & w & v & -> & Hl & Hb). exists (t :: w), v. split_and!; [done|by constructor|done].
Qed.
Lemma begins_one_nil a es b : ~ begins (One a :: es, b) [].
Proof. intros (w & v & E & Hl & Hb). inversion Hl; subst. done. Qed.
Lemma begins_many a es b text :
  begins (Many a :: es, b) text <-> exists u text', text = u ++ text' /\ Forall (fits a) u /\ begins (es, b) text'.
Proof.
  split.
  - intros (w & v & E & Hl & Hb). inversion Hl as [| |a' u es' w' Hu Hw]; subst. rewrite <- app_assoc.
    exists u, (w' ++ v). split_and!; [done|done|]. by eexists _, v.
  - intros (u & text' & -> & Hu & w & v & -> & Hl & Hb). exists (u ++ w), v.
    split_and!; [by rewrite app_assoc|by constructor|done].
Qed.

Lemma star_loop_spec here c text :
  star_loop here c text = true <-> exists u text', text = u ++ text' /\ Forall (fits c) u /\ here text' = true.
Proof.
  induction text as [|t text IH]; simpl.
  - rewrite orb_false_r. split; [intros H; by exists [], []|]. intros (u & text' & E & _ & H).
    symmetry in E. apply app_eq_nil in E as [-> ->]. done.
  - rewrite orb_true_iff. split.
    + intros [H|H]; [by exists [], (t :: text)|]. destruct ((t =? c) || (c =? DOT)) eqn:Ef; [|done].
      apply IH in H as (u & text' & -> & Hu & H). exists (t :: u), text'. split_and!; [done| |done].
      constructor; [|done]. unfold fits. lia.
    + intros (u & text' & E & Hu & H). destruct u as [|x u]; simpl in E; [left; by rewrite E|]. injection E as -> ->.
      inversion Hu; subst. right. replace ((x =? c) || (c =? DOT)) with true by (unfold fits in *; lia). apply IH. eauto.
Qed.

Lemma matchhere_cons c s re text : matchhere (c :: s :: re) text =
  if s =? STAR then star_loop (matchhere re) c text
  else match text with [] => false | t :: text' => if (c =? DOT) || (c =? t) then matchhere (s :: re) text' else false end.
Proof. reflexivity. Qed.
Lemma parse_cons c s re : parse (c :: s :: re) =
  if s =? STAR then let (es, b) := parse re in (Many c :: es, b) else let (es, b) := parse (s :: re) in (One c :: es, b).
Proof. reflexivity. Qed.

Lemma matchhere_spec re text : matchhere re text = true <-> begins (parse re) text.
Proof.
  remember (length re) as n eqn:Hn. revert re Hn text. induction (lt_wf n) as [n _ IH]. intros re -> text.
  destruct re as [|c re1].
  { simpl. split; [intros _; by exists [], text; split_and!; [|constructor|]|done]. }
  assert (forall es b, parse re1 = (es, b) ->
    (match text with [] => false | t :: text' => if (c =? DOT) || (c =? t) then matchhere re1 text' else false end = true) <->
    begins (One c :: es, b) text) as Hnext.
  { intros es b Hp. destruct text as [|t text']; [split; [done|by intros ?%begins_one_nil]|]. rewrite begins_one, <- Hp, <- (IH (length re1)); [|simpl; lia|done].
    unfold fits. destruct (Z.eqb_spec c DOT), (Z.eqb_spec c t); simpl; naive_solver. }
  destruct re1 as [|s re2]; [cbn [matchhere parse]|rewrite matchhere_cons, parse_cons].
  - destruct (Z.eqb_spec c DOLLAR) as [->|Hc].
    + split; [destruct text; [|done]; intros _; exists [], []; split_and!; [done|constructor|done]|].
      intros (w & v & -> & Hl & Hb). inversion Hl; subst. simpl in *. by rewrite Hb.
    + apply (Hnext [] false eq_refl).
  - destruct (Z.eqb_spec s STAR) as [->|Hs].
    + rewrite star_loop_spec. destruct (parse re2) as [es b] eqn:Ep. rewrite begins_many.
      assert (forall t, matchhere re2 t = true <-> begins (es, b) t) as H2 by (intros t; rewrite <- Ep; apply (IH (length re2)); simpl; [lia|done]).
      setoid_rewrite H2. done.
    + destruct (parse (s :: re2)) as [es b] eqn:Ep. by apply Hnext.
Qed.

Lemma match_loop_spec re text : match_loop re text = true <-> exists u text', text = u ++ text' /\ begins (parse re) text'.
Proof.
  induction text as [|t text IH]; simpl; rewrite orb_true_iff, matchhere_spec.
  - split; [intros [H|H]; [by exists [], []|done]|]. intros (u & text' & E & H). symmetry in E. apply app_eq_nil in E as [-> ->]. by left.
  - rewrite IH. split.
    + intros [H|(u & text' & -> & H)]; [by exists [], (t :: text)|by exists (t :: u), text'].
    + intros (u & text' & E & H). destruct u as [|x u]; simpl in E; [left; by rewrite E|]. injection E as -> ->. right. eauto.
Qed.

(** C11. The matcher of grep decides the meaning of the pattern: [match] succeeds exactly when a piece of the
    text is a word of the pattern, at the beginning of the text when the pattern
    starts with a caret and at its end when it ends in a dollar sign. *)
Theorem match_decides re text :
  match_ re text = true <->
  let caret := bool_decide (head re = Some CARET) in
  let p := parse (if caret then tail re else re) in
  exists u w v, text = u ++ w ++ v /\ lang p.1 w /\ (caret = true -> u = []) /\ (p.2 = true -> v = []).
Proof.
  assert (forall q, (exists u text', text = u ++ text' /\ begins q text') <->
    exists u w v, text = u ++ w ++ v /\ lang q.1 w /\ (false = true -> u = []) /\ (q.2 = true -> v = [])) as Hq.
  { intros q. split.
    - intros (u & t' & -> & w & v & -> & Hl & Hb). by exists u, w, v.
    - intros (u & w & v & -> & Hl & _ & Hb). exists u, (w ++ v). split; [done|]. by exists w, v. }
  destruct re as [|c re']; [simpl; rewrite match_loop_spec; apply Hq|]. cbn [match_ head tail].
  destruct (Z.eqb_spec c CARET) as [->|Hc]; case_bool_decide as Hd; try congruence.
  - rewrite matchhere_spec. cbv zeta. split.
    + intros (w & v & -> & Hl & Hb). by exists [], w, v.
    + intros (u & w & v & -> & Hl & Hu & Hb). rewrite (Hu eq_refl). by exists w, v.
  - rewrite match_loop_spec. apply Hq.
Qed.

(** ** The line loop *)

Definition BUF : nat := 1024.

(** [strchr(p, '\n')]: the line before the newline and what follows it; a zero byte ends
    the search. *)
Fixpoint cut_line (p : list Z) : option (list Z * list Z) :=
  match p with
  | [] => None
  | c :: p' => if c =? 0 then None else
               if c =? NL then Some ([], p')
               else match cut_line p' with Some (l, r) => Some (c :: l, r) | None => None end
  end.
Lemma cut_line_length p l r : cut_line p = Some (l, r) -> (length r < length p)%nat.
Proof.
  revert l r. induction p as [|c p IH]; intros l r; simpl; [done|]. destruct (c =? 0); [done|]. destruct (c =? NL); [intros [= <- <-]; lia|].
  destruct (cut_line p) as [[l' r']|] eqn:E; [|done]. intros [= <- <-]. specialize (IH _ _ eq_refl). lia.
Qed.

(** The inner loop: the lines written, and what is left behind the last newline. *)
Fixpoint grep_lines (fuel : nat) (pattern p : list Z) : list (list Z) * list Z :=
  match fuel with
  | O => ([], p)
  | S fuel' =>
      match cut_line p with
      | None => ([], p)
      | Some (l, r) =>
          let (out, rest) := grep_lines fuel' pattern r in
          ((if match_ pattern l then [l ++ [NL]] else []) ++ out, rest)
      end
  end.

(** The outer loop on what successive calls of [read] deliver: each at most the room
    left in the buffer, the last one empty. *)
Fixpoint grep (pattern : list Z) (m : list Z) (reads : list (list Z)) : list (list Z) :=
  match reads with
  | [] => []
  | r :: reads' =>
      match r with
      | [] => []
      | _ =>
          let b := m ++ r in
          let (out, rest) := grep_lines (S (length b)) pattern b in
          let m' := if bool_decide (length rest = length b) then [] else rest in
          out ++ grep pattern m' reads'
      end
  end.

(** The complete lines of a text, and what follows the last newline. *)
Fixpoint split_lines (p : list Z) : list (list Z) * list Z :=
  match p with
  | [] => ([], [])
  | c :: p' =>
      let (ls, r) := split_lines p' in
      if c =? NL then ([] :: ls, r) else match ls with [] => ([], c :: r) | l :: ls' => ((c :: l) :: ls', r) end
  end.

Lemma split_cut p : Forall (fun c => c <> 0) p ->
  match cut_line p with
  | Some (l, r) => split_lines p = (l :: (split_lines r).1, (split_lines r).2) /\ Forall (fun c => c <> 0) r
  | None => split_lines p = ([], p)
  end.
Proof.
  induction 1 as [|c p Hc Hp IH]; [done|]. simpl. destruct (Z.eqb_spec c 0); [done|]. destruct (Z.eqb_spec c NL) as [->|Hn].
  - by destruct (split_lines p).
  - destruct (cut_line p) as [[l r]|]; [|by rewrite IH]. destruct IH as [-> Hr]. done.
Qed.
Lemma split_app p q : split_lines (p ++ q) =
  ((split_lines p).1 ++ (split_lines ((split_lines p).2 ++ q)).1, (split_lines ((split_lines p).2 ++ q)).2).
Proof.
  induction p as [|c p IH]; [simpl; by destruct (split_lines q)|]. simpl. rewrite IH. destruct (split_lines p) as [ls r]. simpl in *.
  destruct (Z.eqb_spec c NL) as [->|Hn]; [done|]. destruct ls as [|l ls]; [|done].
  cbn [fst snd app split_lines]. destruct (split_lines (r ++ q)) as [ls2 r2]. simpl.
  destruct (Z.eqb_spec c NL); [done|]. by destruct ls2.
Qed.
Lemma split_rest p : Forall (fun c => c <> 0) p ->
  split_lines (split_lines p).2 = ([], (split_lines p).2) /\ Forall (fun c => c <> 0) (split_lines p).2 /\
  (length (split_lines p).2 <= length p)%nat /\ (NL ∈ p -> length (split_lines p).2 < length p)%nat.
Proof.
  induction 1 as [|c p Hc Hp (IH1 & IH2 & IH3 & IH4)]; [split_and!; try done; by intros ?%elem_of_nil|].
  simpl. destruct (split_lines p) as [ls r] eqn:E. simpl in *. destruct (Z.eqb_spec c NL) as [->|Hn]; simpl.
  { split_and!; try done; lia. }
  destruct ls as [|l ls]; simpl; [|split_and!; [done|done|lia|lia]]. rewrite IH1. destruct (Z.eqb_spec c NL); [done|].
  split_and!; [done|by constructor|lia|]. intros [?|Hin]%elem_of_cons; [done|]. apply IH4 in Hin. simpl. lia.
Qed.

Definition chosen (pattern : list Z) (ls : list (list Z)) : list (list Z) :=
  map (fun l => l ++ [NL]) (filter (fun l => match_ pattern l = true) ls).
Lemma grep_lines_spec pattern fuel p : Forall (fun c => c <> 0) p -> (length p < fuel)%nat ->
  grep_lines fuel pattern p = (chosen pattern (split_lines p).1, (split_lines p).2).
Proof.
  revert p. induction fuel as [|fuel IH]; intros p Hp Hf; [lia|]. cbn [grep_lines]. pose proof (split_cut p Hp) as Hs.
  destruct (cut_line p) as [[l r]|] eqn:E; [|by rewrite Hs]. destruct Hs as [Hs Hr]. apply cut_line_length in E.
  rewrite IH, Hs by (done || lia). unfold chosen. cbn [fst snd]. rewrite filter_cons.
  destruct (match_ pattern l) eqn:Em; simpl; [done|]. done.
Qed.

(** The loop prints the complete lines that match, however [read] cuts the input up, as long as every
    piece has a newline in it. *)
Theorem grep_prints_lines pattern reads :
  Forall (fun r => NL ∈ r) reads -> Forall (Forall (fun c => c <> 0)) reads ->
  grep pattern [] reads = chosen pattern (split_lines (concat reads)).1.
Proof.
  intros Hnl Hz. enough (forall m, split_lines m = ([], m) -> Forall (fun c => c <> 0) m ->
    grep pattern m reads = chosen pattern (split_lines (m ++ concat reads)).1) as H by (by apply (H [])).
  revert Hz. induction Hnl as [|r reads Hr _ IH]; intros Hz m Hm Hmz; cbn [grep concat].
  - by rewrite app_nil_r, Hm.
  - inversion Hz as [|? ? Hz1 Hz2]; subst. destruct r as [|c r]; [by apply elem_of_nil in Hr|]. set (b := m ++ c :: r).
    assert (Forall (fun c => c <> 0) b) as Hb by (by apply Forall_app).
    rewrite grep_lines_spec by (done || lia). destruct (split_rest b Hb) as (H1 & H2 & _ & H4).
    assert (length (split_lines b).2 < length b)%nat as Hlt by (apply H4; unfold b; set_solver).
    rewrite bool_decide_false by lia.
    rewrite (IH Hz2 _ H1 H2), app_assoc. fold b. rewrite (split_app b). cbn [fst]. unfold chosen. by rewrite filter_app, map_app.
Qed.

(** A piece without a newline at the front of the buffer is thrown away: of the line [abc], delivered in
    two pieces, only [c] is looked at. *)
Example grep_loses_piece :
  grep [CARET; 97] [] [[97; 98]; [99; NL]] = [] /\ grep [CARET; 97] [] [[97; 98; 99; NL]] = [[97; 98; 99; NL]].
Proof. split; reflexivity. Qed.
