(* ===== verification/Sh.v ===== *)
(** * sh.c: the parser of the shell and what the shell runs

    A pointer into the command line is the text from it to the end, so [s == es] is the empty
    text; [*ps] is the state of the parser.  The text has no zero byte, since [es] is [s + strlen(s)].  The constructors of
    commands ([execcmd] and the others) write to what malloc returns without a test; they are modelled with enough memory. *)

From S2P Require Import Prelude.

(** ** Commands *)

Definition MAXARGS : Z := 10.

(** [A]: a word, first as its two pointers [q] and [eq], later as a string. *)
Inductive cmd (A : Type) : Type :=
| EXEC (argv : list A)
| REDIR (c : cmd A) (file : A) (mode fd : Z)
| PIPE (left right : cmd A)
| LIST (left right : cmd A)
| BACK (c : cmd A).
Arguments EXEC {A} argv.
Arguments REDIR {A} c file mode fd.
Arguments PIPE {A} left right.
Arguments LIST {A} left right.
Arguments BACK {A} c.

Definition token : Type := list Z * list Z.
(** The characters from [q] up to [eq]. *)
Definition word (t : token) : list Z := take (length t.1 - length t.2) t.1.

Fixpoint cmap {A B} (f : A -> B) (c : cmd A) : cmd B :=
  match c with
  | EXEC argv => EXEC (map f argv)
  | REDIR c file mode fd => REDIR (cmap f c) (f file) mode fd
  | PIPE l r => PIPE (cmap f l) (cmap f r)
  | LIST l r => LIST (cmap f l) (cmap f r)
  | BACK c => BACK (cmap f c)
  end.

(** ** Tokens *)

Definition whitespace : list Z := [32; 9; 13; 10; 11].
Definition LT : Z := 60.
Definition BAR : Z := 124.
Definition GT : Z := 62.
Definition AMP : Z := 38.
Definition SEMI : Z := 59.
Definition LPAR : Z := 40.
Definition RPAR : Z := 41.
Definition symbols : list Z := [LT; BAR; GT; AMP; SEMI; LPAR; RPAR].
(** The classes of tokens other than the symbols. *)
Definition WORD : Z := 97.
Definition APPEND : Z := 43.

Definition strchr (s : list Z) (c : Z) : bool := bool_decide (c ∈ s).
Fixpoint skip_ws (s : list Z) : list Z :=
  match s with c :: s' => if strchr whitespace c then skip_ws s' else s | [] => [] end.
Fixpoint skip_word (s : list Z) : list Z :=
  match s with
  | c :: s' => if negb (strchr whitespace c) && negb (strchr symbols c) then skip_word s' else s
  | [] => []
  end.

Definition parser (A : Type) : Type := M (list Z) A.
Definition put_s (s : list Z) : parser unit := modify (fun _ => s).

Definition gettoken : parser (Z * token) :=
  s <- gets (fun s => s) ;;
  let q := skip_ws s in
  let (tok, eq) :=
    match q with
    | [] => (0, [])
    | c :: s' =>
        if (c =? BAR) || (c =? LPAR) || (c =? RPAR) || (c =? SEMI) || (c =? AMP) || (c =? LT) then (c, s')
        else if c =? GT then
          match s' with
          | c' :: s'' => if c' =? GT then (APPEND, s'') else (GT, s')
          | [] => (GT, s')
          end
        else (WORD, skip_word q)
    end in
  put_s (skip_ws eq) ;;;
  ret (tok, (q, eq)).

Definition peek (toks : list Z) : parser bool :=
  s <- gets skip_ws ;;
  put_s s ;;;
  ret (match s with c :: _ => strchr toks c | [] => false end).

(** ** The grammar *)

Abbreviation tcmd := (cmd token).

(** The redirections a command carries, first one innermost. *)
Definition redirected (c : tcmd) (rs : list (token * Z * Z)) : tcmd :=
  foldl (fun c '(file, mode, fd) => REDIR c file mode fd) c rs.

Fixpoint parseredirs (fuel : nat) : parser (list (token * Z * Z)) :=
  b <- peek [LT; GT] ;;
  if b : bool then
    match fuel with
    | O => nofuel
    | S fuel' =>
        t <- gettoken ;;
        f <- gettoken ;;
        if negb (fst f =? WORD) then panic "missing file for redirection" else
        rest <- parseredirs fuel' ;;
        ret ((if fst t =? LT then [(snd f, O_RDONLY, 0)]
              else [(snd f, Z.lor O_WRONLY O_CREATE, 1)]) ++ rest)
    end
  else ret [].

(** The loop of [parseexec] with [argc] arguments so far: the remaining arguments and
    redirections.  The exec command stays where it is while redirections are put
    around it, so the two are collected side by side. *)
Fixpoint parseargs (fuel : nat) (argc : Z) : parser (list token * list (token * Z * Z)) :=
  b <- peek [BAR; RPAR; AMP; SEMI] ;;
  if b : bool then ret ([], []) else
  match fuel with
  | O => nofuel
  | S fuel' =>
      t <- gettoken ;;
      if fst t =? 0 then ret ([], []) else
      if negb (fst t =? WORD) then panic "syntax" else
      if argc + 1 >=? MAXARGS then panic "too many args" else
      rs <- gets (fun s => S (length s)) ;; rs <- parseredirs rs ;;
      rest <- parseargs fuel' (argc + 1) ;;
      ret (snd t :: fst rest, rs ++ snd rest)
  end.

Definition redirs : parser (list (token * Z * Z)) := n <- gets (fun s => S (length s)) ;; parseredirs n.

(** [while(peek(ps, es, "&"))] of [parseline]: how many there are. *)
Fixpoint parseback (fuel : nat) (c : tcmd) : parser tcmd :=
  b <- peek [AMP] ;;
  if b : bool then
    match fuel with O => nofuel | S fuel' => gettoken ;;; parseback fuel' (BACK c) end
  else ret c.

(** The calls nest at most four deep for every character consumed. *)
Fixpoint parseline (fuel : nat) : parser tcmd :=
  match fuel with
  | O => nofuel
  | S fuel =>
      c <- parsepipe fuel ;;
      n <- gets (fun s => S (length s)) ;;
      c <- parseback n c ;;
      b <- peek [SEMI] ;;
      if b : bool then gettoken ;;; r <- parseline fuel ;; ret (LIST c r)
      else ret c
  end
with parsepipe (fuel : nat) : parser tcmd :=
  match fuel with
  | O => nofuel
  | S fuel =>
      c <- parseexec fuel ;;
      b <- peek [BAR] ;;
      if b : bool then gettoken ;;; r <- parsepipe fuel ;; ret (PIPE c r)
      else ret c
  end
with parseexec (fuel : nat) : parser tcmd :=
  match fuel with
  | O => nofuel
  | S fuel =>
      b <- peek [LPAR] ;;
      if b : bool then parseblock fuel else
      rs <- redirs ;;
      n <- gets (fun s => S (length s)) ;;
      rest <- parseargs n 0 ;;
      ret (redirected (EXEC (fst rest)) (rs ++ snd rest))
  end
with parseblock (fuel : nat) : parser tcmd :=
  match fuel with
  | O => nofuel
  | S fuel =>
      b <- peek [LPAR] ;;
      if negb b then panic "parseblock" else
      gettoken ;;;
      c <- parseline fuel ;;
      b <- peek [RPAR] ;;
      if negb b then panic "syntax - missing )" else
      gettoken ;;;
      rs <- redirs ;;
      ret (redirected c rs)
  end.

Definition parse_fuel (s : list Z) : nat := (4 * length s + 4)%nat.
Definition parsecmd : parser tcmd :=
  n <- gets parse_fuel ;;
  c <- parseline n ;;
  peek [] ;;;
  s <- gets (fun s => s) ;;
  match s with
  | [] => ret c
  | _ => panic "syntax"
  end.

(** ** The parser always comes to an end *)

(** From [s], [m] does not run out of fuel, and if it returns it has consumed at least [k] characters. *)
Definition eats {A} (k : nat) (m : parser A) (s : list Z) : Prop :=
  match m s with Done _ s' => (length s' + k <= length s)%nat | Panic _ => True | _ => False end.

Lemma eats_bind {A B} k j (m : parser A) (f : A -> parser B) s :
  eats j m s -> (forall a s', m s = Done a s' -> (length s' + j <= length s)%nat -> eats (k - j) (f a) s') -> eats k (bind m f) s.
Proof.
  unfold eats, bind. intros Hm Hf. destruct (m s) as [a s'| | | |] eqn:E; try done. specialize (Hf a s' eq_refl Hm).
  destruct (f a s'); try done. lia.
Qed.
Lemma eats_ret {A} (a : A) s : eats 0 (ret a) s.
Proof. unfold eats, ret. lia. Qed.
Lemma eats_panic {A} k msg s : eats k (panic (A := A) msg) s.
Proof. done. Qed.

Lemma skip_ws_length s : (length (skip_ws s) <= length s)%nat.
Proof. induction s as [|c s IH]; [done|]. simpl. destruct (strchr whitespace c); simpl; lia. Qed.
Lemma skip_ws_head s c r : skip_ws s = c :: r -> strchr whitespace c = false.
Proof. induction s as [|x s IH]; [done|]. simpl. destruct (strchr whitespace x) eqn:E; [done|]. by intros [= -> _]. Qed.
Lemma skip_ws_idem s : skip_ws (skip_ws s) = skip_ws s.
Proof.
  destruct (skip_ws s) as [|c r] eqn:E; [done|]. simpl. by rewrite (skip_ws_head _ _ _ E).
Qed.
Lemma skip_word_length s : (length (skip_word s) <= length s)%nat.
Proof. induction s as [|c s IH]; [done|]. simpl. destruct (_ && _); simpl; lia. Qed.

Lemma peek_run toks s : peek toks s = Done (match skip_ws s with c :: _ => strchr toks c | [] => false end) (skip_ws s).
Proof. done. Qed.
Lemma peek_eats toks s : eats 0 (peek toks) s.
Proof. unfold eats. rewrite peek_run. pose proof (skip_ws_length s). lia. Qed.

(** A token takes at least one character off a text that is not blank. *)
Lemma gettoken_run s : exists tok eq, gettoken s = Done (tok, (skip_ws s, eq)) (skip_ws eq) /\
  (length eq <= length (skip_ws s))%nat /\ (tok <> 0%Z -> length eq < length s)%nat /\ (skip_ws s <> [] -> length eq < length s)%nat.
Proof.
  unfold gettoken, bind, gets. pose proof (skip_ws_length s). destruct (skip_ws s) as [|c r] eqn:E.
  { exists 0, []. split_and!; [done|simpl; lia|done|done]. }
  pose proof (skip_ws_head _ _ _ E) as Hc. destruct ((c =? BAR) || (c =? LPAR) || (c =? RPAR) || (c =? SEMI) || (c =? AMP) || (c =? LT)) eqn:Es.
  { eexists _, r. split_and!; [done|simpl; lia|simpl in *; lia..]. }
  destruct (Z.eqb_spec c GT) as [->|Hg].
  { destruct r as [|c' r']; [|destruct (c' =? GT)]; eexists _, _; (split_and!; [done|simpl; lia|simpl in *; lia..]). }
  assert (length (skip_word (c :: r)) <= length r)%nat as Hw.
  { simpl. rewrite Hc. assert (strchr symbols c = false) as ->.
    { apply bool_decide_false. intros Hin. unfold symbols in Hin. rewrite !elem_of_cons, elem_of_nil in Hin. lia. }
    apply skip_word_length. }
  eexists _, _. split_and!; [done|simpl in *; lia|simpl in *; lia..].
Qed.
Lemma gettoken_eats s : eats 0 gettoken s.
Proof.
  destruct (gettoken_run s) as (tok & eq & E & Hl & _). unfold eats. rewrite E. pose proof (skip_ws_length eq).
  pose proof (skip_ws_length s). lia.
Qed.
Lemma gettoken_eats1 s : skip_ws s <> [] -> eats 1 gettoken s.
Proof.
  intros Hs. destruct (gettoken_run s) as (tok & eq & E & _ & _ & Hl). unfold eats. rewrite E. pose proof (skip_ws_length eq).
  specialize (Hl Hs). lia.
Qed.
(** After a successful [peek] there is a token. *)
Lemma peek_true toks s s' : peek toks s = Done true s' -> skip_ws s' <> [].
Proof. rewrite peek_run. intros [= H <-]. rewrite skip_ws_idem. by destruct (skip_ws s). Qed.

Lemma parseredirs_eats fuel s : (length s < fuel)%nat -> eats 0 (parseredirs fuel) s.
Proof.
  revert s. induction fuel as [|fuel IH]; intros s Hf; [lia|]. cbn [parseredirs].
  eapply (eats_bind _ 0); [apply peek_eats|]. intros b s1 Hp Hl1. destruct b; [|apply eats_ret].
  eapply (eats_bind _ 1); [by eapply gettoken_eats1, peek_true|]. intros t s2 _ Hl2.
  eapply (eats_bind _ 0); [apply gettoken_eats|]. intros f s3 _ Hl3. destruct (negb _); [done|].
  eapply (eats_bind _ 0); [apply IH; lia|]. intros rest s4 _ _. apply eats_ret.
Qed.
Lemma redirs_eats s : eats 0 redirs s.
Proof. unfold redirs. eapply (eats_bind _ 0); [unfold eats, gets; lia|]. intros n s' [= <- <-] _. apply parseredirs_eats. lia. Qed.

Lemma parseargs_eats fuel argc s : (length s < fuel)%nat -> eats 0 (parseargs fuel argc) s.
Proof.
  revert argc s. induction fuel as [|fuel IH]; intros argc s Hf; [lia|]. cbn [parseargs].
  eapply (eats_bind _ 0); [apply peek_eats|]. intros b s1 Hp Hl1. destruct b; [apply eats_ret|].
  destruct (gettoken_run s1) as (tok & eq & Eg & He1 & He2 & _).
  eapply (eats_bind _ 0); [apply gettoken_eats|]. intros t s2 Eg2 Hl2. rewrite Eg in Eg2. injection Eg2 as <- <-. simpl fst. simpl snd.
  destruct (Z.eqb_spec tok 0) as [->|Ht]; [apply eats_ret|]. destruct (negb _); [done|]. destruct (_ >=? _); [done|].
  specialize (He2 Ht). pose proof (skip_ws_length eq) as Hs.
  eapply (eats_bind _ 0); [unfold eats, gets; lia|]. intros n s3 [= <- <-] _.
  eapply (eats_bind _ 0); [apply parseredirs_eats; lia|]. intros rs s4 _ Hl4.
  eapply (eats_bind _ 0); [apply IH; lia|]. intros rest s5 _ _. apply eats_ret.
Qed.
Lemma parseback_eats fuel c s : (length s < fuel)%nat -> eats 0 (parseback fuel c) s.
Proof.
  revert c s. induction fuel as [|fuel IH]; intros c s Hf; [lia|]. cbn [parseback].
  eapply (eats_bind _ 0); [apply peek_eats|]. intros b s1 Hp Hl1. destruct b; [|apply eats_ret].
  eapply (eats_bind _ 1); [by eapply gettoken_eats1, peek_true|]. intros t s2 _ Hl2. apply IH. lia.
Qed.
Lemma parse_eats fuel :
  (forall s, (4 * length s + 4 <= fuel)%nat -> eats 0 (parseline fuel) s) /\
  (forall s, (4 * length s + 3 <= fuel)%nat -> eats 0 (parsepipe fuel) s) /\
  (forall s, (4 * length s + 2 <= fuel)%nat -> eats 0 (parseexec fuel) s) /\
  (forall s, (4 * length s + 1 <= fuel)%nat -> eats 0 (parseblock fuel) s).
Proof.
  induction fuel as [|fuel (IHl & IHp & IHe & IHb)]; [split_and!; intros; lia|].
  split_and!; intros s Hf; cbn [parseline parsepipe parseexec parseblock].
  - eapply (eats_bind _ 0); [apply IHp; lia|]. intros c s1 _ Hl1.
    eapply (eats_bind _ 0); [unfold eats, gets; lia|]. intros n s2 [= <- <-] _.
    eapply (eats_bind _ 0); [apply parseback_eats; lia|]. intros c2 s3 _ Hl3.
    eapply (eats_bind _ 0); [apply peek_eats|]. intros b s4 Hp Hl4. destruct b; [|apply eats_ret].
    eapply (eats_bind _ 1); [by eapply gettoken_eats1, peek_true|]. intros t s5 _ Hl5.
    eapply (eats_bind _ 0); [apply IHl; lia|]. intros r s6 _ _. apply eats_ret.
  - eapply (eats_bind _ 0); [apply IHe; lia|]. intros c s1 _ Hl1.
    eapply (eats_bind _ 0); [apply peek_eats|]. intros b s4 Hp Hl4. destruct b; [|apply eats_ret].
    eapply (eats_bind _ 1); [by eapply gettoken_eats1, peek_true|]. intros t s5 _ Hl5.
    eapply (eats_bind _ 0); [apply IHp; lia|]. intros r s6 _ _. apply eats_ret.
  - eapply (eats_bind _ 0); [apply peek_eats|]. intros b s1 Hp Hl1. destruct b; [apply IHb; lia|].
    eapply (eats_bind _ 0); [apply redirs_eats|]. intros rs s2 _ Hl2.
    eapply (eats_bind _ 0); [unfold eats, gets; lia|]. intros n s3 [= <- <-] _.
    eapply (eats_bind _ 0); [apply parseargs_eats; lia|]. intros rest s4 _ _. apply eats_ret.
  - eapply (eats_bind _ 0); [apply peek_eats|]. intros b s1 Hp Hl1. destruct b; [|done]. simpl negb. cbv iota.
    eapply (eats_bind _ 1); [by eapply gettoken_eats1, peek_true|]. intros t s2 _ Hl2.
    eapply (eats_bind _ 0); [apply IHl; lia|]. intros c s3 _ Hl3.
    eapply (eats_bind _ 0); [apply peek_eats|]. intros b s4 _ _. destruct (negb b); [done|].
    eapply (eats_bind _ 0); [apply gettoken_eats|]. intros t2 s5 _ _.
    eapply (eats_bind _ 0); [apply redirs_eats|]. intros rs s6 _ _. apply eats_ret.
Qed.

(** C9. [parsecmd] comes to an end on every command line: it returns a command, having consumed the whole
    line, or reports a syntax error; the number of nested calls is bounded by the
    length of the line. *)
Theorem parsecmd_terminates s :
  match parsecmd s with
  | Done _ s' => s' = []
  | Panic _ => True
  | _ => False
  end.
Proof.
  destruct (parse_eats (parse_fuel s)) as (Hl & _). specialize (Hl s ltac:(unfold parse_fuel; lia)). unfold eats in Hl.
  unfold parsecmd, bind, gets. destruct (parseline (parse_fuel s) s) as [c s1| | | |]; try done.
  rewrite peek_run. by destruct (skip_ws s1).
Qed.
