(* ===== verification/ShPrint.v ===== *)
(** * Printing and parsing shell commands

    Every command can be written as a command line that [parsecmd] of sh.c reads back. *)

From S2P Require Import Prelude Sh.

Abbreviation wcmd := (cmd (list Z)).
Implicit Types (c b : wcmd) (w s rest : list Z).

(** ** Printing *)

Definition SPACE : Z := 32.
Definition print_args (l : list (list Z)) : list Z := concat (map (fun w => w ++ [SPACE]) l).
Definition redir_sym (fd : Z) : Z := if fd =? 0 then LT else GT.
Definition print_redirs (l : list (list Z * Z * Z)) : list Z :=
  concat (map (fun '(f, _, fd) => redir_sym fd :: f ++ [SPACE]) l).
Definition paren (p : bool) (text : list Z) : list Z := if p then LPAR :: text ++ [RPAR] else text.

(** At level 0 a list, at 1 a background command, at 2 a pipeline, at 3 a single command. *)
Fixpoint unparse (lvl : nat) c : list Z :=
  match c with
  | EXEC argv => print_args argv
  | REDIR c f m fd => unparse 3 c ++ redir_sym fd :: f ++ [SPACE]
  | PIPE l r => paren (2 <? lvl)%nat (unparse 3 l ++ BAR :: unparse 2 r)
  | BACK c => paren (1 <? lvl)%nat (unparse 1 c ++ [AMP])
  | LIST l r => paren (0 <? lvl)%nat (unparse 1 l ++ SEMI :: unparse 0 r)
  end.

(** ** Commands that can be written *)

Definition plain (x : Z) : bool := negb (strchr whitespace x) && negb (strchr symbols x).
Definition word_ok w : Prop := w <> [] /\ Forall (fun x => plain x = true) w.
Definition redir_ok (r : list Z * Z * Z) : Prop :=
  word_ok r.1.1 /\ ((r.1.2 = O_RDONLY /\ r.2 = 0) \/ (r.1.2 = Z.lor O_WRONLY O_CREATE /\ r.2 = 1)).
Fixpoint cmd_ok c : Prop :=
  match c with
  | EXEC argv => Z.of_nat (length argv) < MAXARGS /\ Forall word_ok argv
  | REDIR c f m fd => cmd_ok c /\ redir_ok (f, m, fd)
  | PIPE l r | LIST l r => cmd_ok l /\ cmd_ok r
  | BACK c => cmd_ok c
  end.

(** ** Tokens *)

Definition stop (toks : list Z) rest : Prop := match skip_ws rest with [] => True | x :: _ => x ∈ toks end.

Lemma plain_not x : plain x = true -> strchr whitespace x = false /\ x ∉ symbols.
Proof. unfold plain, strchr. intros [H1 H2]%andb_true_iff. split; [by apply negb_true_iff|]. by apply negb_true_iff, bool_decide_eq_false in H2. Qed.
Lemma skip_word_ok w t : Forall (fun x => plain x = true) w -> skip_word (w ++ SPACE :: t) = SPACE :: t.
Proof. induction 1 as [|x w Hx _ IH]; [done|]. simpl. unfold plain in Hx. rewrite Hx. done. Qed.
Lemma skip_ws_plain x t : plain x = true -> skip_ws (x :: t) = x :: t.
Proof. intros [H _]%plain_not. simpl. by rewrite H. Qed.
Lemma skip_ws_word w t : word_ok w -> skip_ws (w ++ t) = w ++ t.
Proof. intros [Hn Hw]. destruct w as [|x w]; [done|]. inversion Hw; subst. by apply skip_ws_plain. Qed.
Lemma skip_ws_sym x t : x ∈ symbols -> skip_ws (x :: t) = x :: t.
Proof. intros Hx. unfold symbols in Hx. rewrite !elem_of_cons, elem_of_nil in Hx. by destruct Hx as [-> |[-> |[-> |[-> |[-> |[-> |[-> |]]]]]]]. Qed.

Lemma gettoken_word s w t : word_ok w -> skip_ws s = w ++ SPACE :: t ->
  gettoken s = Done (WORD, (w ++ SPACE :: t, SPACE :: t)) (skip_ws t).
Proof.
  intros [Hn Hw] Hs. unfold gettoken, bind, gets. rewrite Hs. pose proof (skip_word_ok w t Hw) as Hsk. destruct w as [|x w]; [done|]. simpl app in *.
  inversion Hw as [|? ? Hx Hw']; subst. pose proof (plain_not x Hx) as [_ Hsym]. unfold symbols in Hsym. rewrite !not_elem_of_cons in Hsym.
  destruct Hsym as (H1 & H2 & H3 & H4 & H5 & H6 & H7 & _).
  change ((x :: w) ++ SPACE :: t) with (x :: (w ++ SPACE :: t)). cbv beta iota zeta. rewrite (proj2 (Z.eqb_neq x BAR)), (proj2 (Z.eqb_neq x LPAR)), (proj2 (Z.eqb_neq x RPAR)), (proj2 (Z.eqb_neq x SEMI)),
    (proj2 (Z.eqb_neq x AMP)), (proj2 (Z.eqb_neq x LT)), (proj2 (Z.eqb_neq x GT)) by done. simpl orb. cbv iota. rewrite Hsk. done.
Qed.
Lemma word_token w t : word (w ++ SPACE :: t, SPACE :: t) = w.
Proof. unfold word. simpl fst. simpl snd. rewrite length_app. replace (_ - _)%nat with (length w) by lia. by rewrite take_app_length. Qed.
Lemma gettoken_sym s x t : skip_ws s = x :: t -> x ∈ [BAR; LPAR; RPAR; SEMI; AMP; LT] ->
  gettoken s = Done (x, (x :: t, t)) (skip_ws t).
Proof.
  intros Hs Hx. unfold gettoken, bind, gets. rewrite Hs. rewrite !elem_of_cons, elem_of_nil in Hx.
  by destruct Hx as [-> |[-> |[-> |[-> |[-> |[-> |]]]]]].
Qed.
Lemma gettoken_gt s w t : word_ok w -> skip_ws s = GT :: w ++ t -> gettoken s = Done (GT, (GT :: w ++ t, w ++ t)) (w ++ t).
Proof.
  intros Hw Hs. pose proof (skip_ws_word w t Hw) as Hsw. unfold gettoken, bind, gets. rewrite Hs. destruct Hw as [Hn Hw]. destruct w as [|x w]; [done|].
  inversion Hw as [|? ? Hx _]; subst. pose proof (plain_not x Hx) as [_ Hsym]. simpl app in *. cbn -[skip_ws]. 
  destruct (Z.eqb_spec x GT) as [->|_]; [exfalso; apply Hsym; unfold symbols; set_solver|]. by rewrite Hsw.
Qed.

(** ** Redirections and arguments *)

Definition rword (r : token * Z * Z) : list Z * Z * Z := (word r.1.1, r.1.2, r.2).

Lemma redirs_ok rs : forall fuel s rest, Forall redir_ok rs -> skip_ws s = skip_ws (print_redirs rs ++ rest) -> (length s < fuel)%nat ->
  (forall x t, skip_ws rest = x :: t -> x <> LT /\ x <> GT) ->
  exists rs', parseredirs fuel s = Done rs' (skip_ws rest) /\ map rword rs' = rs.
Proof.
  induction rs as [|[[f m] fd] rs IH]; intros fuel s rest Hok Hs Hf Hrest; (destruct fuel as [|fuel]; [lia|]); cbn [parseredirs];
    unfold bind at 1; rewrite peek_run, Hs.
  - exists []. split; [|done]. change (print_redirs [] ++ rest) with rest. destruct (skip_ws rest) as [|x t] eqn:E; [done|].
    destruct (Hrest x t eq_refl). unfold strchr. rewrite bool_decide_false; [done|set_solver].
  - inversion Hok as [|? ? [Hw Hm] Hok']; subst. simpl in Hw, Hm. set (T := print_redirs rs ++ rest).
    assert (print_redirs ((f, m, fd) :: rs) ++ rest = redir_sym fd :: f ++ SPACE :: T) as Et.
    { unfold print_redirs. simpl. rewrite <- !app_assoc. done. }
    rewrite Et in *. rewrite skip_ws_sym in * by (unfold redir_sym, symbols; destruct (fd =? 0); set_solver).
    assert (strchr [LT; GT] (redir_sym fd) = true) as -> by (apply bool_decide_true; unfold redir_sym; destruct (fd =? 0); set_solver).
    unfold bind at 1. assert (gettoken (redir_sym fd :: f ++ SPACE :: T) =
      Done (redir_sym fd, (redir_sym fd :: f ++ SPACE :: T, f ++ SPACE :: T)) (f ++ SPACE :: T)) as ->.
    { unfold redir_sym. destruct (fd =? 0).
      - rewrite (gettoken_sym _ LT (f ++ SPACE :: T)); [by rewrite skip_ws_word|done|set_solver].
      - apply gettoken_gt; done. }
    unfold bind at 1. rewrite (gettoken_word _ f T); [|done|by apply skip_ws_word]. cbn [fst snd]. rewrite Z.eqb_refl. cbn [negb].
    assert (length (skip_ws T) < fuel)%nat as Hlen.
    { apply (f_equal length) in Hs. simpl in Hs. rewrite length_app in Hs. simpl in Hs. pose proof (skip_ws_length s). pose proof (skip_ws_length T). lia. }
    destruct (IH fuel (skip_ws T) rest Hok' (skip_ws_idem T) Hlen Hrest) as (rs' & E & Hrs). unfold bind at 1. rewrite E.
    eexists. split; [reflexivity|]. rewrite map_app, Hrs. f_equal.
    destruct Hm as [[-> ->]|[-> ->]]; simpl; unfold rword; simpl; by rewrite word_token.
Qed.

Lemma redirs_run rs s rest : Forall redir_ok rs -> skip_ws s = skip_ws (print_redirs rs ++ rest) ->
  (forall x t, skip_ws rest = x :: t -> x <> LT /\ x <> GT) ->
  exists rs', redirs s = Done rs' (skip_ws rest) /\ map rword rs' = rs.
Proof. intros Hok Hs Hrest. unfold redirs, bind, gets. by apply redirs_ok; [|done|lia|]. Qed.

Definition ends : list Z := [BAR; RPAR; AMP; SEMI].
Lemma ends_head rest x t : stop ends rest -> skip_ws rest = x :: t -> (x <> LT /\ x <> GT) /\ x <> LPAR /\ strchr ends x = true.
Proof.
  unfold stop. intros Hst E. rewrite E in Hst. split_and!; [..|by apply bool_decide_true]; intros ->; unfold ends in Hst;
    rewrite !elem_of_cons, elem_of_nil in Hst; by destruct Hst as [|[|[|[|]]]].
Qed.
Lemma plain_head x : plain x = true -> x <> LT /\ x <> GT /\ x <> LPAR /\ strchr ends x = false.
Proof.
  intros [_ H]%plain_not. unfold symbols in H. rewrite !not_elem_of_cons in H. destruct H as (? & ? & ? & ? & ? & ? & ? & _).
  split_and!; try done. apply bool_decide_false. unfold ends. set_solver.
Qed.

Lemma args_ok args : forall rs fuel argc s rest, Forall word_ok args -> Forall redir_ok rs -> (args = [] -> rs = []) ->
  skip_ws s = skip_ws (print_args args ++ print_redirs rs ++ rest) -> (length s < fuel)%nat -> stop ends rest ->
  argc + Z.of_nat (length args) < MAXARGS ->
  exists args' rs', parseargs fuel argc s = Done (args', rs') (skip_ws rest) /\ map word args' = args /\ map rword rs' = rs.
Proof.
  induction args as [|w args IH]; intros rs fuel argc s rest Hw Hr He Hs Hf Hst Hmax; (destruct fuel as [|fuel]; [lia|]); cbn [parseargs];
    unfold bind at 1; rewrite peek_run, Hs; fold ends.
  - rewrite (He eq_refl) in *. exists [], []. change (print_args [] ++ print_redirs [] ++ rest) with rest in *. split; [|done].
    destruct (skip_ws rest) as [|x t] eqn:E.
    + unfold bind. by rewrite (eq_refl : gettoken [] = Done (0, ([], [])) []).
    + by destruct (ends_head rest x t Hst E) as (_ & _ & ->).
  - inversion Hw as [|? ? Hw1 Hw2]; subst. set (T := print_args args ++ print_redirs rs ++ rest).
    assert (print_args (w :: args) ++ print_redirs rs ++ rest = w ++ SPACE :: T) as Et.
    { unfold print_args. simpl. rewrite <- !app_assoc. done. }
    rewrite Et, skip_ws_word in * by done.
    assert (match w ++ SPACE :: T with x :: _ => strchr ends x | [] => false end = false) as ->.
    { destruct Hw1 as [Hn Hp]. destruct w as [|x w']; [done|]. inversion Hp; subst. simpl. by apply plain_head. }
    unfold bind at 1. rewrite (gettoken_word _ w T) by (done || by apply skip_ws_word). cbn [fst snd]. change (WORD =? 0) with false.
    rewrite Z.eqb_refl. cbn [negb]. simpl length in Hmax. destruct (Z.geb_spec (argc + 1) MAXARGS); [lia|].
    unfold bind at 1, gets. set (rs1 := match args with [] => rs | _ => [] end). set (rs2 := match args with [] => [] | _ => rs end).
    set (R := match args with [] => rest | _ => T end).
    assert (skip_ws (skip_ws T) = skip_ws (print_redirs rs1 ++ R)) as HT.
    { rewrite skip_ws_idem. unfold T, rs1, R. by destruct args. }
    assert (forall x t, skip_ws R = x :: t -> x <> LT /\ x <> GT) as HR.
    { unfold R. destruct args as [|w2 args]; [intros x t E; by apply (ends_head rest x t)|].
      inversion Hw2 as [|? ? [Hn2 Hp2] _]; subst. destruct w2 as [|y w2]; [done|]. inversion Hp2 as [|? ? Hy _]; subst.
      intros x t. unfold T, print_args. simpl. destruct (plain_not y Hy) as [Hyw _]. rewrite Hyw. intros [= <- _].
      destruct (plain_head y Hy) as (? & ? & _). done. }
    destruct (redirs_ok rs1 (S (length (skip_ws T))) (skip_ws T) R) as (r1 & E1 & Hr1); [unfold rs1; by destruct args|done|lia|done|].
    unfold bind at 1. rewrite E1.
    assert (length (skip_ws R) < fuel)%nat as HlR.
    { apply (f_equal length) in Hs. rewrite length_app in Hs. simpl in Hs. pose proof (skip_ws_length s). pose proof (skip_ws_length R).
      assert (length R <= length T)%nat by (unfold R, T; destruct args; [simpl; rewrite length_app; lia|lia]). lia. }
    destruct (IH rs2 fuel (argc + 1) (skip_ws R) rest) as (a2 & r2 & E2 & Ha2 & Hr2); try done.
    + unfold rs2. by destruct args.
    + unfold rs2. by destruct args.
    + rewrite skip_ws_idem. unfold R, T, rs2. by destruct args.
    + lia.
    + unfold bind. rewrite E2. eexists _, _. split; [reflexivity|]. cbn [fst snd map]. rewrite Ha2, word_token, map_app, Hr1, Hr2. split; [done|].
      unfold rs1, rs2. destruct args; [apply app_nil_r|done].
Qed.

(** ** Commands *)

Definition redirect c (rs : list (list Z * Z * Z)) : wcmd := foldl (fun c '(f, m, fd) => REDIR c f m fd) c rs.
Lemma cmap_redirected (t : cmd token) rs : cmap word (redirected t rs) = redirect (cmap word t) (map rword rs).
Proof. revert t. induction rs as [|[[f m] fd] rs IH]; intros t; [done|]. simpl. unfold redirected, redirect in *. simpl. by rewrite IH. Qed.

(** The command under the redirections. *)
Fixpoint spine c : wcmd * list (list Z * Z * Z) :=
  match c with REDIR c f m fd => let (b, rs) := spine c in (b, rs ++ [(f, m, fd)]) | _ => (c, []) end.
Lemma spine_spec c : let (b, rs) := spine c in c = redirect b rs /\ unparse 3 c = unparse 3 b ++ print_redirs rs /\
  (cmd_ok c -> cmd_ok b /\ Forall redir_ok rs) /\ (match b with REDIR _ _ _ _ => False | _ => True end).
Proof.
  induction c as [argv|c IH f m fd|l _ r _|l _ r _|c _]; cbn [spine];
    try (split_and!; [done|unfold print_redirs; by rewrite app_nil_r|done|done]).
  destruct (spine c) as [b rs]. destruct IH as (-> & H2 & H3 & H4). split_and!; [| | |done].
  - unfold redirect. by rewrite foldl_app.
  - cbn [unparse]. rewrite H2, <- app_assoc. unfold print_redirs. rewrite map_app, concat_app. simpl. by rewrite app_nil_r.
  - intros [Hc Hf]. destruct (H3 Hc). split; [done|]. apply Forall_app. split; [done|]. by apply Forall_singleton.
Qed.

(** What parsing a printed command at each level means. *)
Definition reads (m : nat -> parser (cmd token)) (slack : nat) (toks text : list Z) c : Prop :=
  forall fuel s rest, skip_ws s = skip_ws (text ++ rest) -> (4 * length s + slack <= fuel)%nat -> stop toks rest ->
  exists t, m fuel s = Done t (skip_ws rest) /\ cmap word t = c.
Definition reads_exec c : Prop := reads parseexec 2 ends (unparse 3 c) c.
Definition reads_pipe c : Prop := reads parsepipe 3 [RPAR; AMP; SEMI] (unparse 2 c) c.
(** The first half of [parseline]. *)
Definition pback (fuel : nat) : parser (cmd token) :=
  match fuel with O => nofuel | S fuel => c <- parsepipe fuel ;; n <- gets (fun s => S (length s)) ;; parseback n c end.
Definition reads_back c : Prop := reads pback 4 [RPAR; SEMI] (unparse 1 c) c.
Definition reads_line c : Prop := reads parseline 4 [RPAR] (unparse 0 c) c.

Lemma stop_weak toks toks' rest : stop toks rest -> (forall x, x ∈ toks -> x ∈ toks') -> stop toks' rest.
Proof. unfold stop. destruct (skip_ws rest); [done|]. auto. Qed.
Lemma stop_sym toks x rest : x ∈ symbols -> x ∈ toks -> stop toks (x :: rest).
Proof. intros Hs Hx. unfold stop. by rewrite skip_ws_sym. Qed.
Lemma peek_stop toks toks' s rest : skip_ws s = skip_ws rest -> stop toks rest -> (forall x, x ∈ toks -> x ∉ toks') ->
  peek toks' s = Done false (skip_ws rest).
Proof.
  intros Hs Hst Hd. rewrite peek_run, Hs. unfold stop in Hst. destruct (skip_ws rest); [done|].
  unfold strchr. rewrite bool_decide_false; [done|]. auto.
Qed.
Lemma peek_sym x s rest : x ∈ symbols -> skip_ws s = skip_ws (x :: rest) -> peek [x] s = Done true (x :: rest).
Proof. intros Hx Hs. rewrite peek_run, Hs, skip_ws_sym by done. unfold strchr. rewrite bool_decide_true; [done|set_solver]. Qed.
(** Results are no longer than what was read. *)
Lemma eats_length {A} k (m : parser A) s a s' : eats k m s -> m s = Done a s' -> (length s' + k <= length s)%nat.
Proof. unfold eats. intros H E. by rewrite E in H. Qed.

(** A simple command. *)
Lemma reads_simple args rs : Z.of_nat (length args) < MAXARGS -> Forall word_ok args -> Forall redir_ok rs ->
  reads parseexec 2 ends (print_args args ++ print_redirs rs) (redirect (EXEC args) rs).
Proof.
  intros Hn Hw Hr fuel s rest Hs Hf Hst. rewrite <- app_assoc in Hs. destruct fuel as [|fuel]; [lia|]. cbn [parseexec]. unfold bind at 1.
  set (T := print_args args ++ print_redirs rs ++ rest) in *.
  assert (forall x t, skip_ws T = x :: t -> x <> LPAR) as Hlp.
  { intros x t. unfold T. destruct args as [|w args].
    - destruct rs as [|[[f m] fd] rs]; [intros E; by apply (ends_head rest x t)|]. unfold print_redirs, print_args. simpl.
      unfold redir_sym. destruct (fd =? 0); by intros [= <- _].
    - inversion Hw as [|? ? [Hn2 Hp2] _]; subst. destruct w as [|y w2]; [done|]. inversion Hp2 as [|? ? Hy _]; subst.
      unfold print_args. simpl. destruct (plain_not y Hy) as [Hyw _]. rewrite Hyw. intros [= <- _]. by apply plain_head. }
  assert (peek [LPAR] s = Done false (skip_ws T)) as ->.
  { rewrite peek_run, Hs. destruct (skip_ws T) as [|x t] eqn:E; [done|]. unfold strchr. rewrite bool_decide_false; [done|].
    specialize (Hlp x t eq_refl). set_solver. }
  set (rs1 := match args with [] => rs | _ => [] end). set (rs2 := match args with [] => [] | _ => rs end).
  set (R := match args with [] => rest | _ => T end).
  assert (forall x t, skip_ws R = x :: t -> x <> LT /\ x <> GT) as HR.
  { unfold R. destruct args as [|w args]; [intros x t E; by apply (ends_head rest x t)|]. inversion Hw as [|? ? [Hn2 Hp2] _]; subst.
    destruct w as [|y w2]; [done|]. inversion Hp2 as [|? ? Hy _]; subst. intros x t. unfold T, print_args. simpl.
    destruct (plain_not y Hy) as [Hyw _]. rewrite Hyw. intros [= <- _]. destruct (plain_head y Hy) as (? & ? & _). done. }
  destruct (redirs_run rs1 (skip_ws T) R) as (r1 & E1 & Hr1); [unfold rs1; by destruct args| |done|].
  { rewrite skip_ws_idem. unfold T, rs1, R. by destruct args. }
  unfold bind at 1. rewrite E1. unfold bind at 1, gets.
  destruct (args_ok args rs2 (S (length (skip_ws R))) 0 (skip_ws R) rest) as (a2 & r2 & E2 & Ha2 & Hr2); try done.
  - unfold rs2. by destruct args.
  - unfold rs2. by destruct args.
  - rewrite skip_ws_idem. unfold R, T, rs2. by destruct args.
  - lia.
  - unfold bind. rewrite E2. eexists. split; [reflexivity|]. rewrite cmap_redirected. cbn [fst snd cmap]. rewrite map_app, Ha2, Hr1, Hr2.
    f_equal. unfold rs1, rs2. destruct args; [apply app_nil_r|done].
Qed.

(** A command in parentheses, with redirections. *)
Lemma reads_block b rs : reads_line b -> Forall redir_ok rs ->
  reads parseexec 2 ends (LPAR :: unparse 0 b ++ RPAR :: print_redirs rs) (redirect b rs).
Proof.
  intros Hline Hr fuel s rest Hs Hf Hst. destruct fuel as [|[|fuel]]; [lia|lia|]. cbn [parseexec].
  assert ((LPAR :: unparse 0 b ++ RPAR :: print_redirs rs) ++ rest = LPAR :: unparse 0 b ++ RPAR :: print_redirs rs ++ rest) as Et.
  { simpl. by rewrite <- app_assoc. }
  rewrite Et in Hs. set (T := unparse 0 b ++ RPAR :: print_redirs rs ++ rest) in *.
  unfold bind at 1. rewrite (peek_sym LPAR s T) by (done || (unfold symbols; set_solver)). cbn [parseblock].
  unfold bind at 1. rewrite (peek_sym LPAR (LPAR :: T) T) by (done || (unfold symbols; set_solver)). cbn [negb].
  unfold bind at 1. rewrite (gettoken_sym _ LPAR T) by (done || set_solver).
  rewrite skip_ws_sym in Hs by (unfold symbols; set_solver). apply (f_equal length) in Hs. simpl in Hs.
  pose proof (skip_ws_length s). pose proof (skip_ws_length T).
  destruct (Hline fuel (skip_ws T) (RPAR :: print_redirs rs ++ rest)) as (t & E & Ht);
    [apply skip_ws_idem|lia|apply stop_sym; [unfold symbols; set_solver|set_solver]|].
  unfold bind at 1. rewrite E, skip_ws_sym by (unfold symbols; set_solver).
  unfold bind at 1. rewrite (peek_sym RPAR (RPAR :: print_redirs rs ++ rest) (print_redirs rs ++ rest)) by (done || (unfold symbols; set_solver)). cbn [negb].
  unfold bind at 1. rewrite (gettoken_sym _ RPAR (print_redirs rs ++ rest)) by (done || set_solver).
  destruct (redirs_run rs (skip_ws (print_redirs rs ++ rest)) rest) as (r' & E' & Hr'); [done|apply skip_ws_idem|intros x u Ex; by apply (ends_head rest x u)|].
  unfold bind. rewrite E'. eexists. split; [reflexivity|]. by rewrite cmap_redirected, Ht, Hr'.
Qed.

(** ** Levels *)

Lemma pipe_of_exec c : unparse 2 c = unparse 3 c -> reads_exec c -> reads_pipe c.
Proof.
  intros Eu He fuel s rest Hs Hf Hst. rewrite Eu in Hs. destruct fuel as [|fuel]; [lia|]. cbn [parsepipe].
  destruct (He fuel s rest Hs) as (t & E & Ht); [lia|eapply stop_weak; [exact Hst|unfold ends; set_solver]|].
  unfold bind at 1. rewrite E. unfold bind at 1. rewrite (peek_stop [RPAR; AMP; SEMI] [BAR] _ rest); [by exists t|apply skip_ws_idem|done|].
  intros x Hx. rewrite !elem_of_cons, elem_of_nil in Hx. rewrite elem_of_cons, elem_of_nil. by destruct Hx as [-> |[-> |[-> |]]]; intros [|].
Qed.
Lemma reads_PIPE l r : reads_exec l -> reads_pipe r -> reads_pipe (PIPE l r).
Proof.
  intros Hl Hr fuel s rest Hs Hf Hst. cbn [unparse paren] in Hs. destruct fuel as [|fuel]; [lia|]. cbn [parsepipe].
  simpl paren in Hs. rewrite <- app_assoc in Hs. change ((BAR :: unparse 2 r) ++ rest) with (BAR :: unparse 2 r ++ rest) in Hs.
  destruct (Hl fuel s _ Hs) as (t & E & Ht); [lia|apply stop_sym; [unfold symbols; set_solver|unfold ends; set_solver]|].
  pose proof (eats_length 0 _ _ _ _ (proj1 (proj2 (proj2 (parse_eats fuel))) s ltac:(lia)) E) as Hlen.
  rewrite skip_ws_sym in * by (unfold symbols; set_solver). simpl in Hlen.
  unfold bind at 1. rewrite E. unfold bind at 1. rewrite (peek_sym BAR _ (unparse 2 r ++ rest)) by (done || (unfold symbols; set_solver)).
  unfold bind at 1. rewrite (gettoken_sym _ BAR (unparse 2 r ++ rest)) by (done || set_solver).
  pose proof (skip_ws_length (unparse 2 r ++ rest)).
  destruct (Hr fuel (skip_ws (unparse 2 r ++ rest)) rest) as (t2 & E2 & Ht2); [apply skip_ws_idem|lia|done|].
  unfold bind. rewrite E2. eexists. split; [reflexivity|]. simpl. by rewrite Ht, Ht2.
Qed.

Fixpoint backs {A} (k : nat) (c : cmd A) : cmd A := match k with O => c | S k => backs k (BACK c) end.
Lemma parseback_run k t : forall fuel s rest, skip_ws s = skip_ws (replicate k AMP ++ rest) -> (length s < fuel)%nat -> stop [RPAR; SEMI] rest ->
  parseback fuel t s = Done (backs k t) (skip_ws rest).
Proof.
  revert t. induction k as [|k IH]; intros t fuel s rest Hs Hf Hst; (destruct fuel as [|fuel]; [lia|]); cbn [parseback]; unfold bind at 1.
  - rewrite (peek_stop [RPAR; SEMI] [AMP] s rest); [done|done|done|]. intros x Hx. rewrite !elem_of_cons, elem_of_nil in Hx.
    rewrite elem_of_cons, elem_of_nil. by destruct Hx as [-> |[-> |]]; intros [|].
  - simpl app in Hs. rewrite (peek_sym AMP s (replicate k AMP ++ rest)) by (done || (unfold symbols; set_solver)).
    unfold bind. rewrite (gettoken_sym _ AMP (replicate k AMP ++ rest)) by (done || set_solver).
    apply IH; [apply skip_ws_idem| |done]. rewrite skip_ws_sym in Hs by (unfold symbols; set_solver). apply (f_equal length) in Hs. simpl in Hs.
    pose proof (skip_ws_length s). pose proof (skip_ws_length (replicate k AMP ++ rest)). lia.
Qed.
Lemma cmap_backs k t : cmap word (backs k t) = backs k (cmap word t).
Proof. revert t. induction k as [|k IH]; intros t; [done|]. simpl. by rewrite IH. Qed.
Lemma reads_backs k c : unparse 1 (backs k c) = unparse 2 c ++ replicate k AMP -> reads_pipe c -> reads_back (backs k c).
Proof.
  intros Eu Hp fuel s rest Hs Hf Hst. rewrite Eu, <- app_assoc in Hs. destruct fuel as [|fuel]; [lia|]. cbn [pback].
  destruct (Hp fuel s _ Hs) as (t & E & Ht); [lia| |].
  { destruct k; [eapply stop_weak; [exact Hst|set_solver]|]. apply stop_sym; [unfold symbols; set_solver|set_solver]. }
  unfold bind at 1. rewrite E. unfold bind, gets. rewrite (parseback_run k t _ _ rest); [|apply skip_ws_idem|lia|done].
  eexists. split; [reflexivity|]. by rewrite cmap_backs, Ht.
Qed.

Lemma parseline_pback fuel s : parseline (S fuel) s =
  (c <- pback (S fuel) ;; b <- peek [SEMI] ;;
   if b : bool then gettoken ;;; r <- parseline fuel ;; ret (LIST c r) else ret c) s.
Proof.
  cbn [parseline pback]. unfold bind, gets. destruct (parsepipe fuel s); [|done..]. destruct (parseback _ _ _); done.
Qed.
Lemma line_of_back c : unparse 0 c = unparse 1 c -> reads_back c -> reads_line c.
Proof.
  intros Eu Hb fuel s rest Hs Hf Hst. rewrite Eu in Hs. destruct fuel as [|fuel]; [lia|]. rewrite parseline_pback. unfold bind at 1.
  destruct (Hb (S fuel) s rest Hs) as (t & E & Ht); [lia|eapply stop_weak; [exact Hst|set_solver]|]. rewrite E.
  unfold bind at 1. rewrite (peek_stop [RPAR] [SEMI] _ rest); [by exists t|apply skip_ws_idem|done|].
  intros x Hx. rewrite elem_of_cons, elem_of_nil in *. by destruct Hx as [-> |]; intros [|].
Qed.
Lemma pback_eats fuel s : (4 * length s + 4 <= fuel)%nat -> eats 0 (pback fuel) s.
Proof.
  intros Hf. destruct fuel as [|fuel]; [lia|]. cbn [pback]. eapply (eats_bind _ 0); [apply parse_eats; lia|]. intros c s1 _ Hl1.
  eapply (eats_bind _ 0); [unfold eats, gets; lia|]. intros n s2 [= <- <-] _. apply parseback_eats. lia.
Qed.
Lemma reads_LIST l r : reads_back l -> reads_line r -> reads_line (LIST l r).
Proof.
  intros Hl Hr fuel s rest Hs Hf Hst. cbn [unparse] in Hs. simpl paren in Hs. rewrite <- app_assoc in Hs.
  change ((SEMI :: unparse 0 r) ++ rest) with (SEMI :: unparse 0 r ++ rest) in Hs.
  destruct fuel as [|fuel]; [lia|]. rewrite parseline_pback. unfold bind at 1.
  destruct (Hl (S fuel) s _ Hs) as (t & E & Ht); [lia|apply stop_sym; [unfold symbols; set_solver|set_solver]|].
  pose proof (eats_length 0 _ _ _ _ (pback_eats (S fuel) s ltac:(lia)) E) as Hlen.
  rewrite skip_ws_sym in * by (unfold symbols; set_solver). simpl in Hlen. rewrite E.
  unfold bind at 1. rewrite (peek_sym SEMI _ (unparse 0 r ++ rest)) by (done || (unfold symbols; set_solver)).
  unfold bind at 1. rewrite (gettoken_sym _ SEMI (unparse 0 r ++ rest)) by (done || set_solver).
  pose proof (skip_ws_length (unparse 0 r ++ rest)).
  destruct (Hr fuel (skip_ws (unparse 0 r ++ rest)) rest) as (t2 & E2 & Ht2); [apply skip_ws_idem|lia|done|].
  unfold bind. rewrite E2. eexists. split; [reflexivity|]. simpl. by rewrite Ht, Ht2.
Qed.

(** ** Every command *)

Fixpoint csize c : nat :=
  match c with
  | EXEC _ => 1
  | REDIR c _ _ _ => S (csize c)
  | PIPE l r | LIST l r => S (csize l + csize r)
  | BACK c => S (csize c)
  end.
Fixpoint strip_back c : nat * wcmd := match c with BACK c => let (k, p) := strip_back c in (S k, p) | _ => (0%nat, c) end.
Lemma backs_S k c : backs k (BACK c) = BACK (backs k c).
Proof. revert c. induction k as [|k IH]; intros c; [done|]. simpl. by rewrite <- IH. Qed.
Lemma strip_back_spec c : let (k, p) := strip_back c in c = backs k p /\ (csize p + k = csize c)%nat /\
  (match p with BACK _ => False | _ => True end) /\ (cmd_ok c -> cmd_ok p).
Proof.
  induction c as [argv|c _ f m fd|l _ r _|l _ r _|c IH]; cbn [strip_back]; try (split_and!; [done|simpl; lia|done|done]).
  destruct (strip_back c) as [k p]. destruct IH as (-> & H2 & H3 & H4). split_and!; [simpl; by rewrite backs_S|simpl; lia|done|done].
Qed.
Lemma unparse_backs k p : (match p with BACK _ => False | _ => True end) -> unparse 1 (backs k p) = unparse 2 p ++ replicate k AMP.
Proof.
  intros Hp. induction k as [|k IH]; [rewrite app_nil_r; by destruct p|]. simpl backs. rewrite backs_S. cbn [unparse]. simpl paren.
  by rewrite IH, <- app_assoc, <- replicate_S_end.
Qed.

Lemma block_exec c : unparse 3 c = LPAR :: unparse 0 c ++ [RPAR] -> reads_line c -> reads_exec c.
Proof.
  intros Eu Hl. pose proof (reads_block c [] Hl (Forall_nil_2 _)) as H. unfold reads_exec. rewrite Eu. exact H.
Qed.
Lemma redirect_size b rs : csize (redirect b rs) = (csize b + length rs)%nat.
Proof.
  revert b. induction rs as [|[[f m] fd] rs IH]; intros b; [simpl; lia|]. change (redirect b ((f, m, fd) :: rs)) with (redirect (REDIR b f m fd) rs).
  rewrite IH. simpl. lia.
Qed.

Lemma all_reads c : cmd_ok c -> reads_exec c /\ reads_pipe c /\ reads_back c /\ reads_line c.
Proof.
  remember (csize c) as n eqn:Hn. revert c Hn. induction (lt_wf n) as [n _ IH]. intros c -> Hok.
  (* from a single command up *)
  assert (unparse 2 c = unparse 3 c -> unparse 1 c = unparse 2 c -> unparse 0 c = unparse 1 c -> reads_exec c ->
    reads_exec c /\ reads_pipe c /\ reads_back c /\ reads_line c) as Hup.
  { intros E2 E1 E0 He. pose proof (pipe_of_exec c E2 He) as Hp. assert (reads_back c) as Hb.
    { apply (reads_backs 0 c); [|done]. simpl. by rewrite app_nil_r. }
    split_and!; [done|done|done|]. by apply line_of_back. }
  destruct c as [argv|c f m fd|l r|l r|c].
  - apply Hup; try done. destruct Hok as [H1 H2]. pose proof (reads_simple argv [] H1 H2 (Forall_nil_2 _)) as H.
    unfold reads_exec. cbn [unparse]. unfold print_redirs in H. simpl in H. by rewrite app_nil_r in H.
  - apply Hup; try done. pose proof (spine_spec (REDIR c f m fd)) as Hs. destruct (spine (REDIR c f m fd)) as [b rs] eqn:Esp.
    destruct Hs as (Ec & Eu & Hok' & Hb). destruct (Hok' Hok) as [Hbok Hrs]. unfold reads_exec. rewrite Eu, Ec.
    assert (rs <> []) as Hne by (simpl in Esp; destruct (spine c); injection Esp as _ <-; by intros [_ ?]%app_eq_nil).
    assert (csize b < csize (REDIR c f m fd))%nat as Hlt by (rewrite Ec, redirect_size; destruct rs; [done|simpl; lia]).
    destruct (IH _ Hlt b eq_refl Hbok) as (_ & _ & _ & Hl). destruct b as [argv| |l r|l r|b]; try done.
    + destruct Hbok as [H1 H2]. by apply reads_simple.
    + pose proof (reads_block (PIPE l r) rs Hl Hrs) as H. cbn [unparse] in *. simpl paren in *. rewrite <- !app_comm_cons, <- !app_assoc. simpl. rewrite <- !app_assoc in H. exact H.
    + pose proof (reads_block (LIST l r) rs Hl Hrs) as H. cbn [unparse] in *. simpl paren in *. rewrite <- !app_comm_cons, <- !app_assoc. simpl. rewrite <- !app_assoc in H. exact H.
    + pose proof (reads_block (BACK b) rs Hl Hrs) as H. cbn [unparse] in *. simpl paren in *. rewrite <- !app_comm_cons, <- !app_assoc. simpl. rewrite <- !app_assoc in H. exact H.
  - destruct Hok as [Hl Hr]. destruct (IH (csize l) ltac:(simpl; lia) l eq_refl Hl) as (He & _). destruct (IH (csize r) ltac:(simpl; lia) r eq_refl Hr) as (_ & Hp & _).
    pose proof (reads_PIPE l r He Hp) as Hpipe. assert (reads_back (PIPE l r)) as Hb.
    { apply (reads_backs 0 (PIPE l r)); [|done]. simpl backs. rewrite app_nil_r. done. }
    pose proof (line_of_back (PIPE l r) eq_refl Hb) as Hline. split_and!; [|done..]. by apply block_exec.
  - destruct Hok as [Hl Hr]. destruct (IH (csize l) ltac:(simpl; lia) l eq_refl Hl) as (_ & _ & Hb & _). destruct (IH (csize r) ltac:(simpl; lia) r eq_refl Hr) as (_ & _ & _ & Hli).
    pose proof (reads_LIST l r Hb Hli) as Hline. pose proof (block_exec (LIST l r) eq_refl Hline) as He. pose proof (pipe_of_exec (LIST l r) eq_refl He) as Hp.
    split_and!; [done|done| |done]. apply (reads_backs 0 (LIST l r)); [|done]. simpl backs. rewrite app_nil_r. done.
  - pose proof (strip_back_spec (BACK c)) as Hs. destruct (strip_back (BACK c)) as [k p] eqn:Esb. destruct Hs as (Ec & Hsz & Hnb & Hpk).
    assert (0 < k)%nat as Hk by (simpl in Esb; destruct (strip_back c); injection Esb as <- _; lia).
    destruct (IH (csize p) ltac:(lia) p eq_refl (Hpk Hok)) as (_ & Hp & _). assert (reads_back (BACK c)) as Hb.
    { rewrite Ec. apply reads_backs; [by apply unparse_backs|done]. }
    pose proof (line_of_back (BACK c) eq_refl Hb) as Hline. pose proof (block_exec (BACK c) eq_refl Hline) as He.
    split_and!; [done|by apply pipe_of_exec|done|done].
Qed.

(** C8. Printing and parsing.  Every command whose words are plain and which has fewer than [MAXARGS] arguments
    a piece can be written as a command line, with parentheses where the grammar
    needs them, and [parsecmd] reads that line back as the command: arguments,
    redirections, pipelines, lists and background commands in their places. *)
Theorem parse_print c : cmd_ok c -> wp parsecmd (fun t s' => cmap word t = c /\ s' = []) (unparse 0 c).
Proof.
  intros Hok. destruct (all_reads c Hok) as (_ & _ & _ & Hl). unfold wp, parsecmd, bind, gets.
  destruct (Hl (parse_fuel (unparse 0 c)) (unparse 0 c) []) as (t & E & Ht); [by rewrite app_nil_r|unfold parse_fuel; lia|done|].
  rewrite E. simpl. done.
Qed.

(** [(a x | b < f); c &] *)
Lemma parse_print_witness :
  let c := LIST (PIPE (EXEC [[97]; [120]]) (REDIR (EXEC [[98]]) [102] 0 0)) (BACK (EXEC [[99]])) in
  unparse 0 c = [97; 32; 120; 32; 124; 98; 32; 60; 102; 32; 59; 99; 32; 38] /\
  wp parsecmd (fun t s' => cmap word t = c /\ s' = []) (unparse 0 c).
Proof.
  intros c. split; [reflexivity|]. apply (parse_print c).
  assert (forall x, plain x = true -> word_ok [x]) as H by (intros x Hx; split; [discriminate|repeat constructor; exact Hx]).
  simpl. unfold MAXARGS. split_and!; try lia; try (repeat constructor; apply H; vm_compute; reflexivity).
Defined.
