(* ===== verification/ShRun.v ===== *)
(** * Running shell commands: [nulterminate] and [runcmd] of sh.c *)

From S2P Require Import Prelude Sh.

(** ** [nulterminate] *)

(** On the line buffer, [len] characters and a terminator: every word is cut off where its end pointer points. *)
Definition cut (len : nat) (m : list Z) (t : token) : list Z := <[(len - length t.2)%nat := 0]> m.
Fixpoint nulterminate (len : nat) (c : cmd token) (m : list Z) : list Z :=
  match c with
  | EXEC argv => foldl (cut len) m argv
  | REDIR c f _ _ => cut len (nulterminate len c m) f
  | PIPE l r | LIST l r => nulterminate len r (nulterminate len l m)
  | BACK c => nulterminate len c m
  end.

(** The words of a command. *)
Fixpoint tokens (c : cmd token) : list token :=
  match c with
  | EXEC argv => argv
  | REDIR c f _ _ => tokens c ++ [f]
  | PIPE l r | LIST l r => tokens l ++ tokens r
  | BACK c => tokens c
  end.
Lemma nulterminate_cuts len c m : nulterminate len c m = foldl (cut len) m (tokens c).
Proof.
  revert m. induction c as [argv|c IH f md fd|l IHl r IHr|l IHl r IHr|c IH]; intros m; simpl; rewrite ?foldl_app; [done|by rewrite IH| | |done].
  - by rewrite IHl, IHr.
  - by rewrite IHl, IHr.
Qed.

(** A word of the line: no blanks and no symbols in it, and one of them, or the end, behind it. *)
Definition in_word (x : Z) : bool := negb (strchr whitespace x) && negb (strchr symbols x).
Definition token_of (line : list Z) (t : token) : Prop :=
  t.1 `suffix_of` line /\ t.2 `suffix_of` t.1 /\ Forall (fun x => in_word x = true) (word t) /\
  match t.2 with [] => True | x :: _ => in_word x = false end.

Lemma suffix_skip_ws s : skip_ws s `suffix_of` s.
Proof. induction s as [|x s IH]; [done|]. simpl. destruct (strchr whitespace x); [|done]. by apply suffix_cons_r. Qed.
Lemma skip_word_split s : exists w, s = w ++ skip_word s /\ Forall (fun x => in_word x = true) w /\
  match skip_word s with [] => True | x :: _ => in_word x = false end.
Proof.
  induction s as [|x s (w & E & Hw & Hs)]; [by exists []|]. simpl. fold (in_word x). destruct (in_word x) eqn:Ex.
  - exists (x :: w). split_and!; [simpl; by rewrite <- E|by constructor|done].
  - exists []. by rewrite Ex.
Qed.

Lemma gettoken_of line s tok t s' : s `suffix_of` line -> gettoken s = Done (tok, t) s' ->
  s' `suffix_of` line /\ (tok = WORD -> token_of line t).
Proof.
  intros Hs. unfold gettoken, bind, gets, put_s, modify, ret. pose proof (suffix_skip_ws s) as Hq. set (q := skip_ws s) in *.
  assert (q `suffix_of` line) as Hql by (by etransitivity).
  assert (forall eq, eq `suffix_of` q -> skip_ws eq `suffix_of` line) as Hend.
  { intros eq He. etransitivity; [apply suffix_skip_ws|]. by etransitivity. }
  destruct q as [|c r] eqn:Eq; [intros [= <- _ <-]; split; [by apply (Hend [])|done]|].
  destruct (_ || _) eqn:Es.
  { intros [= <- _ <-]. split; [by apply Hend, suffix_cons_r|]. intros ->. by vm_compute in Es. }
  destruct (c =? GT).
  { destruct r as [|c' r']; [|destruct (c' =? GT)]; intros [= <- _ <-]; (split; [|done]).
    - apply (Hend []). by apply suffix_cons_r.
    - apply (Hend r'). by do 2 apply suffix_cons_r.
    - apply (Hend (c' :: r')). by apply suffix_cons_r. }
  destruct (skip_word_split (c :: r)) as (w & Ew & Hw & Hx). intros [= <- <- <-].
  assert (skip_word (c :: r) `suffix_of` c :: r) as Hsuf by (exists w; exact Ew).
  split; [by apply Hend|]. intros _. split_and!; [done|done| |done]. unfold word. simpl fst. simpl snd.
  assert (length (c :: r) = length w + length (skip_word (c :: r)))%nat as El by (by rewrite <- length_app, <- Ew).
  rewrite El, Nat.add_sub, Ew, take_app_length. done.
Qed.

(** Wherever [m] returns, the rest is still part of the line and every word is one of it. *)
Definition stays {A} (line : list Z) (toks : A -> list token) (m : parser A) : Prop :=
  forall s a s', s `suffix_of` line -> m s = Done a s' -> s' `suffix_of` line /\ Forall (token_of line) (toks a).

Section Stays.
Variable line : list Z.
Abbreviation rtoks := (fun rs : list (token * Z * Z) => map (fun r => r.1.1) rs).

Lemma stays_peek toks : stays line (fun _ : bool => []) (peek toks).
Proof. intros s a s' Hs [= _ <-]. split; [|done]. etransitivity; [apply suffix_skip_ws|done]. Qed.
Lemma stays_redirs fuel : stays line rtoks (parseredirs fuel).
Proof.
  induction fuel as [|fuel IH]; intros s a s' Hs; cbn [parseredirs]; unfold bind at 1; rewrite peek_run;
    (assert (skip_ws s `suffix_of` line) as H1 by (etransitivity; [apply suffix_skip_ws|done]));
    destruct (match skip_ws s with c :: _ => _ | [] => _ end); try (by intros [= <- <-]); try done.
  unfold bind at 1. destruct (gettoken (skip_ws s)) as [[k1 t1] s1| | | |] eqn:E1; try done. destruct (gettoken_of _ _ _ _ _ H1 E1) as [H2 _].
  unfold bind at 1. destruct (gettoken s1) as [[k2 t2] s2| | | |] eqn:E2; try done. destruct (gettoken_of _ _ _ _ _ H2 E2) as [H3 Ht].
  cbn [fst snd]. destruct (Z.eqb_spec k2 WORD) as [->|]; [|done]. cbn [negb]. unfold bind.
  destruct (parseredirs fuel s2) as [rest s3| | | |] eqn:E3; try done. destruct (IH _ _ _ H3 E3) as [H4 Hr]. intros [= <- <-]. split; [done|].
  rewrite map_app, Forall_app. split; [|done]. destruct (k1 =? LT); repeat constructor; by apply Ht.
Qed.
Lemma stays_args fuel argc : stays line (fun r => r.1 ++ rtoks r.2) (parseargs fuel argc).
Proof.
  revert argc. induction fuel as [|fuel IH]; intros argc s a s' Hs; cbn [parseargs]; unfold bind at 1; rewrite peek_run;
    (assert (skip_ws s `suffix_of` line) as H1 by (etransitivity; [apply suffix_skip_ws|done]));
    destruct (match skip_ws s with c :: _ => _ | [] => _ end); try (by intros [= <- <-]); try done.
  unfold bind at 1. destruct (gettoken (skip_ws s)) as [[k1 t1] s1| | | |] eqn:E1; try done. destruct (gettoken_of _ _ _ _ _ H1 E1) as [H2 Ht].
  cbn [fst snd]. destruct (k1 =? 0); [by intros [= <- <-]|]. destruct (Z.eqb_spec k1 WORD) as [->|]; [|done]. cbn [negb].
  destruct (_ >=? _); [done|]. unfold bind at 1, gets. unfold bind at 1.
  destruct (parseredirs _ s1) as [rs s2| | | |] eqn:E2; try done. destruct (stays_redirs _ _ _ _ H2 E2) as [H3 Hr].
  unfold bind. destruct (parseargs fuel (argc + 1) s2) as [[a1 r1] s3| | | |] eqn:E3; try done. destruct (IH _ _ _ _ H3 E3) as [H4 Ha].
  intros [= <- <-]. split; [done|]. simpl in *. rewrite Forall_app in Ha. destruct Ha as [Ha1 Hr1].
  constructor; [by apply Ht|]. rewrite map_app, !Forall_app. done.
Qed.
Lemma tokens_redirected c rs : tokens (redirected c rs) = tokens c ++ rtoks rs.
Proof.
  revert c. induction rs as [|[[f m] fd] rs IH]; intros c; [by rewrite app_nil_r|]. unfold redirected in *. simpl. rewrite IH. simpl. by rewrite <- app_assoc.
Qed.
Lemma stays_back fuel c : Forall (token_of line) (tokens c) -> stays line tokens (parseback fuel c).
Proof.
  revert c. induction fuel as [|fuel IH]; intros c Hc s a s' Hs; cbn [parseback]; unfold bind at 1; rewrite peek_run;
    (assert (skip_ws s `suffix_of` line) as H1 by (etransitivity; [apply suffix_skip_ws|done]));
    destruct (match skip_ws s with c :: _ => _ | [] => _ end); try (by intros [= <- <-]); try done.
  unfold bind. destruct (gettoken (skip_ws s)) as [[k1 t1] s1| | | |] eqn:E1; try done. destruct (gettoken_of _ _ _ _ _ H1 E1) as [H2 _].
  by apply IH.
Qed.

Lemma stays_parse fuel :
  stays line tokens (parseline fuel) /\ stays line tokens (parsepipe fuel) /\
  stays line tokens (parseexec fuel) /\ stays line tokens (parseblock fuel).
Proof.
  induction fuel as [|fuel (IHl & IHp & IHe & IHb)]; [done|].
  split_and!; intros s a s' Hs; cbn [parseline parsepipe parseexec parseblock]; unfold bind at 1.
  - destruct (parsepipe fuel s) as [c s1| | | |] eqn:E1; try done. destruct (IHp _ _ _ Hs E1) as [H1 Hc].
    unfold bind at 1, gets. unfold bind at 1. destruct (parseback _ c s1) as [c2 s2| | | |] eqn:E2; try done.
    destruct (stays_back _ _ Hc _ _ _ H1 E2) as [H2 Hc2]. unfold bind at 1. destruct (peek [SEMI] s2) as [b s3| | | |] eqn:E3; try done.
    destruct (stays_peek _ _ _ _ H2 E3) as [H3 _]. destruct b; [|by intros [= <- <-]]. unfold bind at 1.
    destruct (gettoken s3) as [[k t] s4| | | |] eqn:E4; try done. destruct (gettoken_of _ _ _ _ _ H3 E4) as [H4 _].
    unfold bind. destruct (parseline fuel s4) as [r s5| | | |] eqn:E5; try done. destruct (IHl _ _ _ H4 E5) as [H5 Hr].
    intros [= <- <-]. split; [done|]. simpl. by apply Forall_app.
  - destruct (parseexec fuel s) as [c s1| | | |] eqn:E1; try done. destruct (IHe _ _ _ Hs E1) as [H1 Hc].
    unfold bind at 1. destruct (peek [BAR] s1) as [b s3| | | |] eqn:E3; try done.
    destruct (stays_peek _ _ _ _ H1 E3) as [H3 _]. destruct b; [|by intros [= <- <-]]. unfold bind at 1.
    destruct (gettoken s3) as [[k t] s4| | | |] eqn:E4; try done. destruct (gettoken_of _ _ _ _ _ H3 E4) as [H4 _].
    unfold bind. destruct (parsepipe fuel s4) as [r s5| | | |] eqn:E5; try done. destruct (IHp _ _ _ H4 E5) as [H5 Hr].
    intros [= <- <-]. split; [done|]. simpl. by apply Forall_app.
  - destruct (peek [LPAR] s) as [b s1| | | |] eqn:E1; try done. destruct (stays_peek _ _ _ _ Hs E1) as [H1 _]. destruct b; [by apply IHb|].
    unfold bind at 1, redirs. unfold bind at 1, gets. destruct (parseredirs _ s1) as [rs s2| | | |] eqn:E2; try done.
    destruct (stays_redirs _ _ _ _ H1 E2) as [H2 Hr]. unfold bind at 1, gets. unfold bind.
    destruct (parseargs _ 0 s2) as [[a1 r1] s3| | | |] eqn:E3; try done. destruct (stays_args _ _ _ _ _ H2 E3) as [H3 Ha].
    intros [= <- <-]. split; [done|]. rewrite tokens_redirected. simpl in *. rewrite map_app, !Forall_app in *. tauto.
  - destruct (peek [LPAR] s) as [b s1| | | |] eqn:E1; try done. destruct (stays_peek _ _ _ _ Hs E1) as [H1 _]. destruct b; [|done]. cbn [negb].
    unfold bind at 1. destruct (gettoken s1) as [[k t] s2| | | |] eqn:E2; try done. destruct (gettoken_of _ _ _ _ _ H1 E2) as [H2 _].
    unfold bind at 1. destruct (parseline fuel s2) as [c s3| | | |] eqn:E3; try done. destruct (IHl _ _ _ H2 E3) as [H3 Hc].
    unfold bind at 1. destruct (peek [RPAR] s3) as [b s4| | | |] eqn:E4; try done. destruct (stays_peek _ _ _ _ H3 E4) as [H4 _].
    destruct b; [|done]. cbn [negb]. unfold bind at 1. destruct (gettoken s4) as [[k2 t2] s5| | | |] eqn:E5; try done.
    destruct (gettoken_of _ _ _ _ _ H4 E5) as [H5 _]. unfold bind, redirs, bind, gets.
    destruct (parseredirs _ s5) as [rs s6| | | |] eqn:E6; try done. destruct (stays_redirs _ _ _ _ H5 E6) as [H6 Hr].
    intros [= <- <-]. split; [done|]. rewrite tokens_redirected, Forall_app. done.
Qed.
End Stays.

Lemma cuts_length len ts m : length (foldl (cut len) m ts) = length m.
Proof. revert m. induction ts as [|t ts IH]; intros m; [done|]. simpl. rewrite IH. apply length_insert. Qed.
Definition is_end (len i : nat) (t : token) : Prop := (len - length t.2)%nat = i.
#[local] Instance is_end_dec len i t : Decision (is_end len i t).
Proof. unfold is_end. apply _. Defined.
Lemma cuts_lookup len ts m i : foldl (cut len) m ts !! i =
  if decide (Exists (is_end len i) ts) then (if decide (i < length m)%nat then Some 0 else None) else m !! i.
Proof.
  revert m. induction ts as [|t ts IH]; intros m; cbn [foldl]; [by rewrite decide_False by (by intros ?%Exists_nil)|].
  assert (length (cut len m t) = length m) as El by apply length_insert. rewrite IH, El. destruct (decide (Exists (is_end len i) ts)) as [He|He].
  - by rewrite (decide_True (P := Exists (is_end len i) (t :: ts))) by (by apply Exists_cons_tl).
  - unfold cut. destruct (decide (is_end len i t)) as [Hi|Hi].
    + rewrite (decide_True (P := Exists (is_end len i) (t :: ts))) by (by apply Exists_cons_hd). unfold is_end in Hi. subst i. case_decide.
      * by apply list_lookup_insert_eq.
      * apply lookup_ge_None. rewrite length_insert. lia.
    + rewrite decide_False by (rewrite Exists_cons; tauto). by apply list_lookup_insert_ne.
Qed.

(** The end of a word is not inside a word. *)
Lemma end_not_in_word line t i x : token_of line t -> (length line - length t.2)%nat = i -> line !! i = Some x -> in_word x = false.
Proof.
  intros ((pre & E1) & (w & E2) & _ & Hx) Hi Hl. rewrite E1, E2, app_assoc in Hl, Hi. rewrite length_app in Hi.
  replace (length (pre ++ w) + length t.2 - length t.2)%nat with (length (pre ++ w)) in Hi by lia. subst i.
  rewrite lookup_app_r, Nat.sub_diag in Hl by lia. destruct t.2 as [|y r]; [done|]. by injection Hl as ->.
Qed.

(** After [parsecmd] and [nulterminate] every argument and file name of the command is, as a
    C string in the line buffer, the word that was written there. *)
Theorem nulterminate_strings line c s' : Forall (fun x => x <> 0) line -> parsecmd line = Done c s' ->
  let m := nulterminate (length line) c (line ++ [0]) in
  Forall (fun t => cstr (drop (length line - length t.1) m) = word t) (tokens c).
Proof.
  intros Hz Hp m. assert (Forall (token_of line) (tokens c)) as Htoks.
  { unfold parsecmd, bind, gets in Hp. destruct (parseline (parse_fuel line) line) as [c1 s1| | | |] eqn:E; try done.
    rewrite peek_run in Hp. destruct (skip_ws s1); [|done]. injection Hp as <- _.
    by apply (proj1 (stays_parse line (parse_fuel line)) line c1 s1). }
  apply Forall_forall. intros t Ht. pose proof (proj1 (Forall_forall _ _) Htoks t Ht) as Hok.
  pose proof Hok as ((pre & E1) & (w & E2) & Hw & _).
  assert (word t = w) as Ew.
  { unfold word. rewrite E2, length_app, Nat.add_sub. apply take_app_length. }
  rewrite Ew in *. assert (length line - length t.1 = length pre)%nat as -> by (rewrite E1, length_app; lia).
  assert (drop (length pre) m = w ++ 0 :: drop (S (length pre + length w)) m) as ->.
  { apply list_eq. intros j. rewrite lookup_drop. unfold m. rewrite nulterminate_cuts.
    destruct (Nat.lt_trichotomy j (length w)) as [Hj|[->|Hj]].
    - rewrite cuts_lookup, decide_False.
      + rewrite lookup_app_l by (rewrite E1, E2, !length_app; lia). rewrite E1, E2 at 1. rewrite lookup_app_r by lia.
        rewrite lookup_app_l by lia. rewrite lookup_app_l by lia. f_equal. lia.
      + intros (t2 & Ht2 & Hi)%Exists_exists. destruct (lookup_lt_is_Some_2 w j Hj) as [x Hx].
        assert (line !! (length pre + j)%nat = Some x) as Hl.
        { rewrite E1, E2, lookup_app_r by lia. rewrite lookup_app_l by lia. rewrite <- Hx. f_equal. lia. }
        pose proof (end_not_in_word line t2 _ x (proj1 (Forall_forall _ _) Htoks t2 Ht2) Hi Hl).
        pose proof (Forall_lookup_1 _ _ _ _ Hw Hx) as Hin. simpl in Hin. congruence.
    - rewrite cuts_lookup, decide_True, decide_True.
      + rewrite lookup_app_r, Nat.sub_diag by lia. done.
      + rewrite length_app, E1, E2, !length_app. simpl. lia.
      + apply Exists_exists. exists t. split; [done|]. unfold is_end. rewrite E1, E2, !length_app. lia.
    - rewrite lookup_app_r by lia. destruct (j - length w)%nat as [|k] eqn:Ek; [lia|]. simpl. rewrite lookup_drop. f_equal. lia. }
  apply cstr_nul. rewrite E1, E2, !Forall_app in Hz. tauto.
Qed.

(** ** [runcmd] *)

(** What a descriptor of a process refers to. *)
Inductive fobj :=
| Inherited (n : nat)
| Opened (file : list Z) (mode : Z)
| PipeRead (id : list nat)
| PipeWrite (id : list nat).
Abbreviation fdtable := (list (option fobj)).

Fixpoint lowest_free (k : nat) (t : fdtable) : option nat :=
  match t with [] => None | o :: t' => match o with None => Some k | Some _ => lowest_free (S k) t' end end.
Definition fd_close (fd : nat) (t : fdtable) : fdtable := <[fd := None]> t.
(** The lowest free descriptor is used; with none the call fails and changes nothing. *)
Definition fd_new (o : fobj) (t : fdtable) : option nat * fdtable :=
  match lowest_free 0 t with Some k => (Some k, <[k := Some o]> t) | None => (None, t) end.
Definition fd_dup (fd : nat) (t : fdtable) : fdtable :=
  match t !! fd with Some (Some o) => snd (fd_new o t) | _ => t end.

(** What a process of the shell goes on to do: [AExec] is [exec], after which the process only
    reports the failure and exits; [AFork] is [fork1], with the child and the rest of the
    parent (if [fork] itself fails the process panics there); [AWait] is [wait], with the descriptors the
    process has while it waits. *)
Inductive act :=
| AExit
| APanic (msg : string)
| AExec (argv : list (list Z)) (t : fdtable)
| AFork (child parent : act)
| AWait (t : fdtable) (k : act).

Section Run.
(** Whether the kernel opens a file in a mode. *)
Variable can_open : list Z -> Z -> bool.

Fixpoint runcmd (c : cmd (list Z)) (t : fdtable) (id : list nat) : act :=
  match c with
  | EXEC argv => match argv with [] => AExit | _ => AExec argv t end
  | REDIR c file mode fd =>
      let t := fd_close (Z.to_nat fd) t in
      if can_open file mode then
        match fd_new (Opened file mode) t with
        | (Some _, t) => runcmd c t id
        | (None, _) => AExit
        end
      else AExit
  | LIST l r => AFork (runcmd l t (0%nat :: id)) (AWait t (runcmd r t (1%nat :: id)))
  | PIPE l r =>
      match fd_new (PipeRead id) t with
      | (Some p0, t0) =>
          match fd_new (PipeWrite id) t0 with
          | (Some p1, t1) =>
              AFork (runcmd l (fd_close p1 (fd_close p0 (fd_dup p1 (fd_close 1 t1)))) (0%nat :: id))
                (AFork (runcmd r (fd_close p1 (fd_close p0 (fd_dup p0 (fd_close 0 t1)))) (1%nat :: id))
                  (let t2 := fd_close p1 (fd_close p0 t1) in AWait t2 (AWait t2 AExit)))
          | (None, _) => APanic "pipe"
          end
      | (None, _) => APanic "pipe"
      end
  | BACK c => AFork (runcmd c t (0%nat :: id)) AExit
  end.

Lemma lowest_free_spec t : forall k i, lowest_free k t = Some i ->
  (k <= i)%nat /\ t !! (i - k)%nat = Some None /\ forall j, (j < i - k)%nat -> exists o, t !! j = Some (Some o).
Proof.
  induction t as [|[o|] t IH]; intros k i; simpl; [done| |].
  - intros (H1 & H2 & H3)%IH. split; [lia|]. replace (i - k)%nat with (S (i - S k)) by lia. split; [done|].
    intros [|j] Hj; [by exists o|]. apply H3. lia.
  - intros [= <-]. rewrite Nat.sub_diag. split_and!; [lia|done|lia].
Qed.
Lemma lowest_free_intro t i k : t !! i = Some None -> (forall j, (j < i)%nat -> exists o, t !! j = Some (Some o)) -> lowest_free k t = Some (k + i)%nat.
Proof.
  revert i k. induction t as [|o t IH]; intros [|i] k Hi Hlt; simpl in *; [done..| |].
  - injection Hi as ->. f_equal. lia.
  - destruct (Hlt 0%nat ltac:(lia)) as [x [= ->]]. rewrite (IH i); [f_equal; lia|done|]. intros j Hj. apply (Hlt (S j)). lia.
Qed.

(** One end of a pipe is moved to descriptor [n] and both originals are closed: the table is the parent's with
    [n] replaced. *)
Lemma rewire t n p0 p1 (r w o : fobj) (keep : nat) : t !! p0 = Some None -> t !! p1 = Some None -> p0 <> p1 ->
  (n < p0)%nat -> (n < p1)%nat -> (forall j, (j <= n)%nat -> exists x, t !! j = Some (Some x)) ->
  let t1 := <[p1 := Some w]> (<[p0 := Some r]> t) in t1 !! keep = Some (Some o) -> keep <> n ->
  fd_close p1 (fd_close p0 (fd_dup keep (fd_close n t1))) = <[n := Some o]> t.
Proof.
  intros H0 H1 Hne Hn0 Hn1 Hlow t1 Hk Hkn. pose proof (lookup_lt_Some _ _ _ H0). pose proof (lookup_lt_Some _ _ _ H1).
  assert (length t1 = length t) as Hl1 by (unfold t1; by rewrite !length_insert).
  assert (fd_dup keep (fd_close n t1) = <[n := Some o]> t1) as ->.
  { unfold fd_dup, fd_close, fd_new. rewrite list_lookup_insert_ne, Hk by done. rewrite (lowest_free_intro _ n 0).
    - simpl. apply list_insert_insert_eq.
    - apply list_lookup_insert_eq. lia.
    - intros j Hj. rewrite list_lookup_insert_ne by lia. unfold t1. rewrite !list_lookup_insert_ne by lia. apply Hlow. lia. }
  unfold fd_close. apply list_eq. intros i. destruct (decide (i = p1)) as [-> |]; [|destruct (decide (i = p0)) as [-> |]].
  - rewrite list_lookup_insert_eq by (rewrite !length_insert; lia). by rewrite list_lookup_insert_ne by lia.
  - rewrite list_lookup_insert_ne, list_lookup_insert_eq by (rewrite ?length_insert; lia). by rewrite list_lookup_insert_ne by lia.
  - rewrite !(list_lookup_insert_ne _ p1), !(list_lookup_insert_ne _ p0) by done. destruct (decide (i = n)) as [-> |].
    + rewrite !list_lookup_insert_eq by lia. done.
    + rewrite !list_lookup_insert_ne by done. unfold t1. by rewrite !list_lookup_insert_ne.
Qed.

(** C25. A pipeline.  With standard input and output open and two more descriptors free, [runcmd] of
    [left | right] starts two processes that have exactly the descriptors of the
    shell, but for the output of the left one, which is the write end of a new pipe,
    and the input of the right one, which is its read end.  No other end stays open in any of the three
    processes: the shell waits for both with the descriptors it had before, so that the
    right process sees the end of its input when the left one is done. *)
Theorem pipeline_wiring l r t id p0 p1 a b :
  t !! 0%nat = Some (Some a) -> t !! 1%nat = Some (Some b) ->
  lowest_free 0 t = Some p0 -> lowest_free 0 (<[p0 := Some (PipeRead id)]> t) = Some p1 ->
  runcmd (PIPE l r) t id =
    AFork (runcmd l (<[1%nat := Some (PipeWrite id)]> t) (0%nat :: id))
      (AFork (runcmd r (<[0%nat := Some (PipeRead id)]> t) (1%nat :: id)) (AWait t (AWait t AExit))).
Proof.
  intros Ha Hb H0 H1. pose proof (lowest_free_spec _ _ _ H0) as (_ & E0 & _). pose proof (lowest_free_spec _ _ _ H1) as (_ & E1 & _).
  rewrite Nat.sub_0_r in *. assert (p0 <> p1) as Hne.
  { intros ->. by rewrite list_lookup_insert_eq in E1 by (by eapply lookup_lt_Some). }
  rewrite list_lookup_insert_ne in E1 by done.
  assert (1 < p0)%nat as Hp0 by (destruct p0 as [|[|]]; [congruence|congruence|lia]).
  assert (1 < p1)%nat as Hp1 by (destruct p1 as [|[|]]; [congruence|congruence|lia]).
  pose proof (lookup_lt_Some _ _ _ E0). pose proof (lookup_lt_Some _ _ _ E1).
  assert (forall j, (j <= 1)%nat -> exists x, t !! j = Some (Some x)) as Hlow by (intros [|[|]] Hj; eauto; lia).
  cbn [runcmd]. unfold fd_new at 1. rewrite H0. unfold fd_new at 1. rewrite H1.
  assert (fd_close p1 (fd_close p0 (<[p1:=Some (PipeWrite id)]> (<[p0:=Some (PipeRead id)]> t))) = t) as ->.
  { unfold fd_close. rewrite (list_insert_insert_ne _ p1 p0), list_insert_insert_eq by done.
    rewrite <- (list_insert_insert_ne _ p1 p0), list_insert_insert_eq, (list_insert_id t p0) by done. by apply list_insert_id. }
  cbv zeta. rewrite (rewire t 1 p0 p1 (PipeRead id) (PipeWrite id) (PipeWrite id) p1); try done; try lia.
  2:{ apply list_lookup_insert_eq. rewrite length_insert. lia. }
  rewrite (rewire t 0 p0 p1 (PipeRead id) (PipeWrite id) (PipeRead id) p0); try done; try lia.
  - intros j Hj. apply Hlow. lia.
  - rewrite list_lookup_insert_ne by done. apply list_lookup_insert_eq. lia.
Qed.
End Run.

Lemma pipeline_wiring_witness :
  let t := [Some (Inherited 0); Some (Inherited 1); Some (Inherited 2); None; None] in
  runcmd (fun _ _ => true) (PIPE (EXEC [[97]]) (EXEC [[98]])) t [] =
    AFork (AExec [[97]] [Some (Inherited 0); Some (PipeWrite []); Some (Inherited 2); None; None])
      (AFork (AExec [[98]] [Some (PipeRead []); Some (Inherited 1); Some (Inherited 2); None; None]) (AWait t (AWait t AExit))).
Proof. intros t. rewrite (pipeline_wiring _ _ _ t [] 3 4 (Inherited 0) (Inherited 1)); reflexivity. Defined.
