(* ===== verification/Umalloc.v ===== *)
(** * The allocator of user programs: umalloc.c

    Free blocks form a circular list in address order that starts at the static header [base]; sizes count
    headers of 8 bytes.  Memory maps the addresses of headers to headers; memory that was never
    written is zero, as [sbrk] delivers it, and an access outside the static header and the heap
    is a fault.  [can_grow] tells whether the kernel grants an [sbrk]. *)

From S2P Require Import Prelude.

Record header := mkH { h_ptr : Z; h_size : Z }.
Definition SIZEOF_HEADER : Z := 8.

Record ust := mkUm { um : gmap Z header; freep : Z; ubrk : Z }.

Section Umalloc.
(** The address of [base], the start of the heap, and the answers of the kernel. *)
Variables base heap0 : Z.
Variable can_grow : Z -> Z -> bool.

Definition at_hdr (m : gmap Z header) (p : Z) : header := default (mkH 0 0) (m !! p).
Definition valid (p : Z) (s : ust) : bool := (p =? base) || ((heap0 <=? p) && (p + SIZEOF_HEADER <=? ubrk s)).
Definition hdr (p : Z) : M ust header := fun s => if valid p s then Done (at_hdr (um s) p) s else Fault "user memory".
Definition put_hdr (p : Z) (f : header -> header) : M ust unit := fun s =>
  if valid p s then Done tt (mkUm (<[p := f (at_hdr (um s) p)]> (um s)) (freep s) (ubrk s)) else Fault "user memory".
Definition set_ptr (p v : Z) : M ust unit := put_hdr p (fun h => mkH v (h_size h)).
Definition set_hsize (p v : Z) : M ust unit := put_hdr p (fun h => mkH (h_ptr h) (u32 v)).
Definition set_freep (p : Z) : M ust unit := modify (fun s => mkUm (um s) p (ubrk s)).

(** [p + n] on a [Header *]. *)
Definition padd (p n : Z) : Z := p + SIZEOF_HEADER * n.

(** The number of headers the heap has room for bounds the search. *)
Definition rounds (s : ust) : nat := Z.to_nat ((ubrk s - heap0) / SIZEOF_HEADER + 2).

(** The search of [free]: the free block before [bp]. *)
Fixpoint free_loop (fuel : nat) (bp p : Z) : M ust Z :=
  h <- hdr p ;;
  if (bp >? p) && (bp <? h_ptr h) then ret p else
  if (p >=? h_ptr h) && ((bp >? p) || (bp <? h_ptr h)) then ret p else
  match fuel with
  | O => nofuel
  | S fuel' => free_loop fuel' bp (h_ptr h)
  end.

(** [bp] goes in front of what follows [p], as one block with it where they touch. *)
Definition join_right (bp p : Z) : M ust unit :=
  hp <- hdr p ;;
  hb <- hdr bp ;;
  if padd bp (h_size hb) =? h_ptr hp then
    hn <- hdr (h_ptr hp) ;;
    set_hsize bp (h_size hb + h_size hn) ;;;
    set_ptr bp (h_ptr hn)
  else set_ptr bp (h_ptr hp).
(** [bp] goes behind [p], as one block with it where they touch. *)
Definition join_left (bp p : Z) : M ust unit :=
  hp <- hdr p ;;
  if padd p (h_size hp) =? bp then
    hb <- hdr bp ;;
    set_hsize p (h_size hp + h_size hb) ;;;
    set_ptr p (h_ptr hb)
  else set_ptr p bp.

Definition free (ap : Z) : M ust unit :=
  let bp := padd ap (-1) in
  p0 <- gets freep ;;
  n <- gets rounds ;;
  p <- free_loop n bp p0 ;;
  join_right bp p ;;;
  join_left bp p ;;;
  set_freep p.

(** The system call: the old end of the heap, or -1. *)
Definition sbrk (n : Z) : M ust Z := fun s =>
  if can_grow (ubrk s) n then Done (ubrk s) (mkUm (um s) (freep s) (ubrk s + n)) else Done (-1) s.

Definition morecore (nu : Z) : M ust Z :=
  let nu := if nu <? 4096 then 4096 else nu in
  p <- sbrk (s32 (nu * SIZEOF_HEADER)) ;;
  if p =? -1 then ret 0 else
  set_hsize p nu ;;;
  free (padd p 1) ;;;
  gets freep.

(** Block [p], behind [prevp], is large enough: it leaves the list, or its tail is cut off. *)
Definition take_block (nunits prevp p : Z) : M ust Z :=
  h <- hdr p ;;
  r <- (if h_size h =? nunits then set_ptr prevp (h_ptr h) ;;; ret p
        else
          set_hsize p (h_size h - nunits) ;;;
          h' <- hdr p ;;
          let q := padd p (h_size h') in
          set_hsize q nunits ;;; ret q) ;;
  set_freep prevp ;;;
  ret (padd r 1).
(** The first fit after [prevp]; once around the list, more memory is asked for. *)
Fixpoint malloc_loop (fuel : nat) (nunits prevp p : Z) : M ust Z :=
  h <- hdr p ;;
  if h_size h >=? nunits then take_block nunits prevp p
  else
    fp <- gets freep ;;
    p <- (if p =? fp then morecore nunits else ret p) ;;
    if p =? 0 then ret 0 else
    match fuel with
    | O => nofuel
    | S fuel' => h <- hdr p ;; malloc_loop fuel' nunits p (h_ptr h)
    end.

Definition units (nbytes : Z) : Z := u32 (nbytes + SIZEOF_HEADER - 1) / SIZEOF_HEADER + 1.
(** At most two rounds over the list: before and after a call of [morecore]. *)
Definition malloc (nbytes : Z) : M ust Z :=
  let nunits := units nbytes in
  fp <- gets freep ;;
  (if fp =? 0 then set_ptr base base ;;; set_freep base ;;; set_hsize base 0 else ret tt) ;;;
  prevp <- gets freep ;;
  h <- hdr prevp ;;
  n <- gets rounds ;;
  malloc_loop (2 * n + 4) nunits prevp (h_ptr h).

(** ** Blocks and the list of free ones *)

Implicit Type (m : gmap Z header) (L bs A : list (Z * Z)) (s : ust).

Definition hd_addr (first : Z) L : Z := match L with [] => first | (a, _) :: _ => a end.
(** Every header of [L] has its size and points to the next one, the last one to [first]. *)
Fixpoint links m (first : Z) L : Prop :=
  match L with
  | [] => True
  | (a, n) :: L' => at_hdr m a = mkH (hd_addr first L') n /\ links m first L'
  end.
(** In address order, with a gap before each block. *)
Fixpoint ordered (lo : Z) L : Prop :=
  match L with [] => True | (a, n) :: L' => lo < a /\ 1 <= n /\ ordered (padd a n) L' end.
Definition apart (b c : Z * Z) : Prop := padd b.1 b.2 <= c.1 \/ padd c.1 c.2 <= b.1.
Fixpoint apart_all L : Prop := match L with [] => True | b :: L' => Forall (apart b) L' /\ apart_all L' end.
Definition inside (brk : Z) (b : Z * Z) : Prop := heap0 <= b.1 /\ 1 <= b.2 /\ padd b.1 b.2 <= brk /\ (SIZEOF_HEADER | b.1 - heap0).

(** The free blocks [bs] and the blocks [A] in use. *)
Record heap_ok s bs A : Prop := {
  hk_links : links (um s) base ((base, 0) :: bs);
  hk_freep : freep s = base \/ freep s ∈ bs.*1;
  hk_order : ordered base bs;
  hk_free : Forall (inside (ubrk s)) bs;
  hk_used : Forall (inside (ubrk s)) A;
  hk_sizes : Forall (fun b => h_size (at_hdr (um s) b.1) = b.2) A;
  hk_apart : apart_all A;
  hk_cross : forall b c, b ∈ bs -> c ∈ A -> apart b c;
  hk_range : 0 < base < heap0 /\ heap0 <= ubrk s <= 2 ^ 31 /\ (SIZEOF_HEADER | ubrk s - heap0)
}.

Lemma links_app m f L1 L2 : links m f (L1 ++ L2) <-> links m (hd_addr f L2) L1 /\ links m f L2.
Proof.
  induction L1 as [|[a n] L1 IH]; simpl; [tauto|]. rewrite IH.
  assert (hd_addr f (L1 ++ L2) = hd_addr (hd_addr f L2) L1) as -> by (by destruct L1 as [|[]]). tauto.
Qed.
Lemma links_same m m' f L : (forall a, a ∈ L.*1 -> at_hdr m' a = at_hdr m a) -> links m f L -> links m' f L.
Proof.
  induction L as [|[a n] L IH]; intros Hs; simpl; [done|]. intros [H1 H2]. split; [rewrite Hs; [done|by left]|].
  apply IH; [|done]. intros x Hx. apply Hs. by right.
Qed.
Lemma ordered_weak lo lo' L : ordered lo L -> lo' <= lo -> ordered lo' L.
Proof. destruct L as [|[a n] L]; [done|]. intros (H1 & H2 & H3) Hlo. split_and!; [lia|done|done]. Qed.
Lemma ordered_above lo L : ordered lo L -> Forall (fun b => lo < b.1) L.
Proof.
  revert lo. induction L as [|[a n] L IH]; intros lo; [by constructor|]. intros (H1 & H2 & H3). constructor; [done|].
  eapply Forall_impl; [apply (IH _ H3)|]. intros b Hb. simpl in *. unfold padd, SIZEOF_HEADER in Hb. lia.
Qed.
Fixpoint endof (lo : Z) L : Z := match L with [] => lo | (a, n) :: L' => endof (padd a n) L' end.
Lemma ordered_app lo L1 L2 : ordered lo (L1 ++ L2) <-> ordered lo L1 /\ ordered (endof lo L1) L2.
Proof. revert lo. induction L1 as [|[a n] L1 IH]; intros lo; simpl; [tauto|]. rewrite IH. tauto. Qed.
(** The blocks of an ordered list take up space. *)
Lemma ordered_length lo hi L : ordered lo L -> Forall (fun b => padd b.1 b.2 <= hi) L -> lo <= hi -> 8 * Z.of_nat (length L) <= hi - lo.
Proof.
  revert lo. induction L as [|[a n] L IH]; intros lo; simpl; [lia|]. intros (H1 & H2 & H3) [H4 H5]%Forall_cons Hlo. simpl in H4.
  specialize (IH _ H3 H5 H4). unfold padd, SIZEOF_HEADER in *. lia.
Qed.
(** The list around an address. *)
Lemma ordered_split lo L bp : ordered lo L -> (forall b, b ∈ L -> b.1 <> bp) ->
  exists M N, L = M ++ N /\ Forall (fun b => b.1 < bp) M /\ Forall (fun b => bp < b.1) N.
Proof.
  revert lo. induction L as [|[a n] L IH]; intros lo Ho Hne; [by exists [], []|]. destruct Ho as (H1 & H2 & H3).
  destruct (Z.lt_trichotomy a bp) as [Hlt|[-> |Hgt]].
  - destruct (IH _ H3) as (M & N & -> & HM & HN); [intros b Hb; apply Hne; by right|].
    exists ((a, n) :: M), N. split; [done|]. split; [by constructor|done].
  - by destruct (Hne (bp, n)); [left|].
  - exists [], ((a, n) :: L). split; [done|]. split; [constructor|]. constructor; [done|]. eapply Forall_impl; [apply (ordered_above _ _ H3)|].
    intros b Hb. simpl in *. unfold padd, SIZEOF_HEADER in Hb. lia.
Qed.

(** ** The search of [free] *)

Lemma valid_base s : valid base s = true.
Proof. unfold valid. by rewrite Z.eqb_refl. Qed.
Lemma valid_inside s b : inside (ubrk s) b -> valid b.1 s = true.
Proof. unfold inside, valid, padd, SIZEOF_HEADER. intros (H1 & H2 & H3 & _). apply orb_true_intro. right. apply andb_true_intro. lia. Qed.
Lemma free_loop_step fuel bp p h s : valid p s = true -> at_hdr (um s) p = h ->
  free_loop fuel bp p s = (if (bp >? p) && (bp <? h_ptr h) then ret p else
    if (p >=? h_ptr h) && ((bp >? p) || (bp <? h_ptr h)) then ret p else
    match fuel with O => nofuel | S fuel' => free_loop fuel' bp (h_ptr h) end) s.
Proof. intros Hv Hh. destruct fuel; cbn [free_loop]; unfold bind at 1, hdr at 1; by rewrite Hv, Hh. Qed.

Definition listed s L : Prop := Forall (fun b => valid b.1 s = true /\ base <= b.1) L.

(** From a block below [bp] the search goes up to the last one below it. *)
Lemma free_loop_below s bp N M : forall fuel L1 p n lo,
  links (um s) base (L1 ++ (p, n) :: M ++ N) -> listed s ((p, n) :: M) -> p < bp -> p <= lo -> ordered lo M ->
  Forall (fun b => b.1 < bp) M -> Forall (fun b => bp < b.1) N -> (length M <= fuel)%nat ->
  exists L q nq, L1 ++ (p, n) :: M = L ++ [(q, nq)] /\ free_loop fuel bp p s = Done q s.
Proof.
  induction M as [|[a na] M IH]; intros fuel L1 p n lo Hl Hv Hp Hlo Ho HM HN Hf.
  - exists L1, p, n. split; [done|]. apply links_app in Hl as [_ [Hh _]]. apply Forall_cons in Hv as [[Hv Hb] _].
    rewrite (free_loop_step _ _ _ _ _ Hv Hh). simpl in Hb. destruct N as [|[b nb] N]; simpl.
    + replace (bp >? p) with true by lia. replace (bp <? base) with false by lia. replace (p >=? base) with true by lia. done.
    + apply Forall_cons in HN as [HN _]. simpl in HN. replace (bp >? p) with true by lia. by replace (bp <? b) with true by lia.
  - pose proof Hl as Hl'. apply links_app in Hl' as [_ [Hh _]]. apply Forall_cons in Hv as [[Hv Hb] Hv2].
    rewrite (free_loop_step _ _ _ _ _ Hv Hh). apply Forall_cons in HM as [Ha HM]. destruct Ho as (H1 & H2 & H3). simpl in Ha |- *.
    replace (bp <? a) with false by lia. replace (p >=? a) with false by lia. rewrite andb_false_r. simpl.
    destruct fuel as [|fuel]; [simpl in Hf; lia|].
    destruct (IH fuel (L1 ++ [(p, n)]) a na (padd a na)) as (L & q & nq & E & E2);
      try done; [by rewrite <- app_assoc|unfold padd, SIZEOF_HEADER; lia|simpl in Hf; lia|].
    exists L, q, nq. rewrite <- app_assoc in E. done.
Qed.
(** From a block above [bp] it wraps around to [base]. *)
Lemma free_loop_above s bp M : forall fuel L1 p n N lo,
  links (um s) base ((base, 0) :: M ++ L1 ++ (p, n) :: N) -> listed s ((base, 0) :: M) -> listed s ((p, n) :: N) ->
  base < bp -> ordered base M -> Forall (fun b => b.1 < bp) M ->
  Forall (fun b => bp < b.1) (L1 ++ (p, n) :: N) -> p <= lo -> ordered lo N -> (length M + length N + 1 <= fuel)%nat ->
  exists L q nq, (base, 0) :: M = L ++ [(q, nq)] /\ free_loop fuel bp p s = Done q s.
Proof.
  intros fuel L1 p n N. revert fuel L1 p n. induction N as [|[a na] N IH]; intros fuel L1 p n lo Hl HvM HvN Hb HoM HM HN Hlo HoN Hf;
    pose proof Hl as Hl'; rewrite app_assoc, app_comm_cons in Hl'; apply links_app in Hl' as [_ [Hh _]]; apply Forall_cons in HvN as [[Hv Hbp] HvN];
    rewrite (free_loop_step _ _ _ _ _ Hv Hh); pose proof HN as HN'; apply Forall_app in HN' as [_ [Hp HN']%Forall_cons]; simpl in Hp, Hbp |- *;
    (destruct fuel as [|fuel]; [simpl in Hf; lia|]); replace (bp >? p) with false by lia; simpl.
  - replace (bp <? base) with false by lia. rewrite andb_false_r.
    destruct (free_loop_below s bp (L1 ++ [(p, n)]) M fuel [] base 0 base) as (L & q & nq & E & E2); try done; [simpl in Hf; lia|].
    exists L, q, nq. done.
  - destruct HoN as (H1 & H2 & H3). replace (p >=? a) with false by lia. simpl.
    apply (IH fuel (L1 ++ [(p, n)]) a na (padd a na)); try done; [by rewrite <- app_assoc|by rewrite <- app_assoc|unfold padd, SIZEOF_HEADER; lia|simpl in Hf; lia].
Qed.

Lemma free_listed s bs A : heap_ok s bs A -> listed s ((base, 0) :: bs).
Proof.
  intros H. constructor; [split; [apply valid_base|simpl; lia]|]. eapply Forall_impl; [apply (hk_free _ _ _ H)|].
  intros b Hb. split; [by apply valid_inside|]. pose proof (hk_range _ _ _ H). destruct Hb as (? & _). lia.
Qed.
Lemma free_count s bs A : heap_ok s bs A -> (length bs + 2 <= rounds s)%nat.
Proof.
  intros H. pose proof (hk_range _ _ _ H) as (? & ? & ?).
  assert (ordered (heap0 - 1) bs) as Ho.
  { pose proof (hk_order _ _ _ H) as Ho. pose proof (hk_free _ _ _ H) as Hf. destruct bs as [|[a n] bs]; [done|].
    destruct Ho as (H3 & H4 & H5). apply Forall_cons in Hf as [(H6 & _) _]. simpl in H6. split_and!; [lia|done|done]. }
  pose proof (ordered_length _ (ubrk s) _ Ho) as Hl. unfold rounds, SIZEOF_HEADER in *.
  assert (8 * Z.of_nat (length bs) <= ubrk s - (heap0 - 1)).
  { apply Hl; [|lia]. eapply Forall_impl; [apply (hk_free _ _ _ H)|]. intros b Hb. apply Hb. }
  enough (Z.of_nat (length bs) <= (ubrk s - heap0) / 8) by lia. apply Z.div_le_lower_bound; [lia|].
  destruct (hk_range _ _ _ H) as (_ & _ & [k Hk]). unfold SIZEOF_HEADER in Hk. lia.
Qed.
(** The search finds the free block before [bp]. *)
Lemma free_search s bs A bp : heap_ok s bs A -> base < bp -> (forall b, b ∈ bs -> b.1 <> bp) ->
  exists L q n N, (base, 0) :: bs = L ++ (q, n) :: N /\ q < bp /\ Forall (fun b => bp < b.1) N /\
    free_loop (rounds s) bp (freep s) s = Done q s.
Proof.
  intros H Hbp Hne. pose proof (hk_order _ _ _ H) as Ho. pose proof (hk_links _ _ _ H) as Hl. pose proof (free_listed _ _ _ H) as Hv.
  pose proof (free_count _ _ _ H) as Hc. destruct (ordered_split _ _ _ Ho Hne) as (M & N & -> & HM & HN).
  apply ordered_app in Ho as [HoM HoN]. pose proof Hv as Hv'. rewrite app_comm_cons in Hv'. apply Forall_app in Hv' as [HvM HvN].
  rewrite length_app in Hc.
  enough (exists L q nq, (base, 0) :: M = L ++ [(q, nq)] /\ free_loop (rounds s) bp (freep s) s = Done q s) as (L & q & nq & E & E2).
  { exists L, q, nq, N. rewrite app_comm_cons, E, <- app_assoc. split_and!; try done.
    assert (Forall (fun b => b.1 < bp) ((base, 0) :: M)) as HF by (by constructor). rewrite E in HF.
    apply Forall_app in HF as [_ [HF _]%Forall_cons]. done. }
  destruct (hk_freep _ _ _ H) as [-> |Hp].
  { apply (free_loop_below s bp N M (rounds s) [] base 0 base); try done; lia. }
  apply list_elem_of_fmap in Hp as ([p n] & -> & Hp). apply elem_of_app in Hp as [Hp|Hp].
  - apply list_elem_of_split in Hp as (M1 & M2 & ->). apply ordered_app in HoM as [_ (H1 & H2 & HoM)]. apply Forall_app in HM as [_ [Hp HM]%Forall_cons].
    rewrite length_app in Hc. simpl in Hc.
    rewrite <- (app_assoc M1) in Hl. rewrite app_comm_cons in Hl, HvM |- *. apply Forall_app in HvM as [_ HvM].
    apply (free_loop_below s bp N M2 (rounds s) ((base, 0) :: M1) p n (padd p n)); try done; [unfold padd, SIZEOF_HEADER; lia|lia].
  - apply list_elem_of_split in Hp as (N1 & N2 & ->). apply ordered_app in HoN as [_ (H1 & H2 & HoN)].
    rewrite length_app in Hc. simpl in Hc. apply Forall_app in HvN as [_ HvN].
    apply (free_loop_above s bp M (rounds s) N1 p n N2 (padd p n)); try done; [unfold padd, SIZEOF_HEADER; lia|lia].
Qed.

(** ** [free] *)

Lemma at_insert m p h x : at_hdr (<[p := h]> m) x = if decide (x = p) then h else at_hdr m x.
Proof. unfold at_hdr. case_decide as E; [subst; by rewrite lookup_insert_eq|by rewrite lookup_insert_ne]. Qed.
Lemma hdr_run s p : valid p s = true -> hdr p s = Done (at_hdr (um s) p) s.
Proof. unfold hdr. by intros ->. Qed.
Lemma put_hdr_run s p f : valid p s = true -> put_hdr p f s = Done tt (mkUm (<[p := f (at_hdr (um s) p)]> (um s)) (freep s) (ubrk s)).
Proof. unfold put_hdr. by intros ->. Qed.

Lemma ordered_mid lo L q n N : ordered lo (L ++ (q, n) :: N) -> Forall (fun b => b.1 < q) L /\ Forall (fun b => q < b.1) N.
Proof.
  revert lo. induction L as [|[a na] L IH]; intros lo; simpl.
  - intros (H1 & H2 & H3). split; [constructor|]. eapply Forall_impl; [apply (ordered_above _ _ H3)|]. intros b. simpl. unfold padd, SIZEOF_HEADER. lia.
  - intros (H1 & H2 & H3). destruct (IH _ H3) as [H4 H5]. split; [|done]. constructor; [|done]. simpl.
    pose proof (ordered_above _ _ H3) as Ha. apply Forall_app in Ha as [_ [Ha _]%Forall_cons]. simpl in Ha. unfold padd, SIZEOF_HEADER in Ha. lia.
Qed.
(** The list split at one of its blocks: [base] or a block after [base]. *)
Lemma list_at bs L q n N : (base, 0) :: bs = L ++ (q, n) :: N ->
  (L = [] /\ q = base /\ n = 0 /\ bs = N) \/ exists L', L = (base, 0) :: L' /\ bs = L' ++ (q, n) :: N.
Proof. destruct L as [|b L]; intros E; simplify_eq/=; [by left|right; eauto]. Qed.

Lemma set_ptr_run s p v : valid p s = true ->
  set_ptr p v s = Done tt (mkUm (<[p := mkH v (h_size (at_hdr (um s) p))]> (um s)) (freep s) (ubrk s)).
Proof. apply put_hdr_run. Qed.
Lemma set_hsize_run s p v : valid p s = true ->
  set_hsize p v s = Done tt (mkUm (<[p := mkH (h_ptr (at_hdr (um s) p)) (u32 v)]> (um s)) (freep s) (ubrk s)).
Proof. apply put_hdr_run. Qed.
Lemma u32_id n : 0 <= n < 2 ^ 32 -> u32 n = n.
Proof. intros H. unfold u32. by apply Z.mod_small. Qed.


Lemma join_right_run s bp q sb n N : valid bp s = true -> valid q s = true ->
  at_hdr (um s) q = mkH (hd_addr base N) n -> h_size (at_hdr (um s) bp) = sb -> links (um s) base N ->
  Forall (fun b => valid b.1 s = true /\ 0 <= sb + b.2 < 2 ^ 32) N -> padd bp sb <> base ->
  exists c R m, join_right bp q s = Done tt (mkUm m (freep s) (ubrk s)) /\ at_hdr m bp = mkH (hd_addr base R) c /\
    (forall x, x <> bp -> at_hdr m x = at_hdr (um s) x) /\
    (N = R /\ c = sb /\ padd bp sb <> hd_addr base N \/ exists k, N = (padd bp sb, k) :: R /\ c = sb + k).
Proof.
  intros Vb Vq Hq Hsb HN HF Hne. unfold join_right. unfold bind at 1 2. rewrite (hdr_run s q Vq), (hdr_run s bp Vb), Hq, Hsb. cbn [h_ptr].
  destruct (Z.eqb_spec (padd bp sb) (hd_addr base N)) as [E|E].
  - destruct N as [|[a k] R]; [done|]. simpl in E. apply Forall_cons in HF as [[Va Hk] _]. destruct HN as [Ha _]. simpl in Va, Hk |- *.
    unfold bind at 1. rewrite (hdr_run s a Va), Ha. cbn [h_size h_ptr]. unfold bind at 1. rewrite (set_hsize_run s bp _ Vb).
    rewrite set_ptr_run by exact Vb. cbn [um freep ubrk]. rewrite at_insert, decide_True by done. cbn [h_size].
    rewrite insert_insert_eq, (u32_id _ Hk). exists (sb + k), R, (<[bp := mkH (hd_addr base R) (sb + k)]> (um s)).
    rewrite at_insert, decide_True by done. split_and!; try done; [intros x Hx; by rewrite at_insert, decide_False|]. right. exists k. by rewrite E.
  - rewrite set_ptr_run by exact Vb. rewrite Hsb. eexists sb, N, _. split; [done|]. rewrite at_insert, decide_True by done.
    split_and!; try done; [intros x Hx; by rewrite at_insert, decide_False|]. by left.
Qed.
Lemma join_left_run s bp q n c r : valid bp s = true -> valid q s = true -> q <> bp ->
  h_size (at_hdr (um s) q) = n -> at_hdr (um s) bp = mkH r c -> 0 <= n + c < 2 ^ 32 ->
  exists m, join_left bp q s = Done tt (mkUm m (freep s) (ubrk s)) /\ (forall x, x <> q -> at_hdr m x = at_hdr (um s) x) /\
    at_hdr m q = if padd q n =? bp then mkH r (n + c) else mkH bp n.
Proof.
  intros Vb Vq Hne Hq Hb Hr. unfold join_left. unfold bind at 1. rewrite (hdr_run s q Vq), Hq.
  destruct (padd q n =? bp).
  - unfold bind at 1. rewrite (hdr_run s bp Vb), Hb. cbn [h_size h_ptr]. unfold bind at 1. rewrite (set_hsize_run s q _ Vq).
    rewrite set_ptr_run by exact Vq. cbn [um freep ubrk]. rewrite at_insert, decide_True by done. cbn [h_size]. rewrite insert_insert_eq, (u32_id _ Hr).
    eexists. split; [done|]. split; [intros x Hx; by rewrite at_insert, decide_False|by rewrite at_insert, decide_True].
  - rewrite set_ptr_run by exact Vq. rewrite Hq. eexists. split; [done|].
    split; [intros x Hx; by rewrite at_insert, decide_False|by rewrite at_insert, decide_True].
Qed.

Definition kept A m m' : Prop := forall b x, b ∈ A -> b.1 <= x < padd b.1 b.2 -> at_hdr m' x = at_hdr m x.

Lemma kept_sizes A m m' brk : Forall (inside brk) A -> kept A m m' -> Forall (fun b => h_size (at_hdr m b.1) = b.2) A ->
  Forall (fun b => h_size (at_hdr m' b.1) = b.2) A.
Proof.
  rewrite !Forall_forall. intros Hi Hk Hs b Hb. rewrite (Hk b b.1 Hb); [by apply Hs|].
  destruct (Hi b Hb) as (_ & ? & _). unfold padd, SIZEOF_HEADER. lia.
Qed.
Lemma apart_join a n k d : apart (a, n) d -> apart (padd a n, k) d -> 0 <= n -> 0 <= k -> 1 <= d.2 -> apart (a, n + k) d.
Proof. unfold apart, padd, SIZEOF_HEADER; simpl. lia. Qed.
Lemma inside_join brk a n k : inside brk (a, n) -> inside brk (padd a n, k) -> inside brk (a, n + k).
Proof. unfold inside, padd, SIZEOF_HEADER; simpl. intros (? & ? & ? & ?) (? & ? & ? & ?). split_and!; [lia..|done]. Qed.
Lemma inside_bound brk a n : inside brk (a, n) -> brk <= 2 ^ 31 -> 0 < heap0 -> 1 <= n < 2 ^ 28.
Proof. unfold inside, padd, SIZEOF_HEADER; simpl. lia. Qed.

Lemma around bs L q n N : ordered base bs -> (base, 0) :: bs = L ++ (q, n) :: N -> Forall (fun b => b.1 < q) L /\ Forall (fun b => q < b.1) N.
Proof.
  intros Ho E. destruct (list_at _ _ _ _ _ E) as [(-> & -> & -> & ->)|(L' & -> & ->)]; [split; [constructor|by apply ordered_above]|].
  destruct (ordered_mid _ _ _ _ _ Ho) as [H1 H2]. split; [|done].
  constructor; [|done]. apply ordered_above, Forall_app in Ho as [_ [Hq _]%Forall_cons]. done.
Qed.

Section Insert.
Variables (s : ust) (bs A : list (Z * Z)) (bp sb : Z).
Hypothesis H : heap_ok s bs ((bp, sb) :: A).

Lemma new_inside : inside (ubrk s) (bp, sb).
Proof using H can_grow. pose proof (hk_used _ _ _ H) as HF. by apply Forall_cons in HF as [? _]. Qed.
Lemma new_cross b : b ∈ bs -> apart b (bp, sb).
Proof using H can_grow. intros Hb. apply (hk_cross _ _ _ H); [done|by left]. Qed.
Lemma new_apart d : d ∈ A -> apart (bp, sb) d.
Proof using H can_grow. pose proof (hk_apart _ _ _ H) as [HF _]. by apply Forall_forall. Qed.
Lemma used_inside d : d ∈ A -> inside (ubrk s) d.
Proof using H can_grow. pose proof (hk_used _ _ _ H) as HF. apply Forall_cons in HF as [_ HF]. by apply Forall_forall. Qed.
Lemma free_inside b : b ∈ bs -> inside (ubrk s) b.
Proof using H can_grow. pose proof (hk_free _ _ _ H) as HF. by apply Forall_forall. Qed.

(** What [join_right] makes of the block and of the list after it. *)
Lemma joined L q n N c R : (base, 0) :: bs = L ++ (q, n) :: N -> Forall (fun b => bp < b.1) N ->
  (N = R /\ c = sb /\ padd bp sb <> hd_addr base N \/ exists k, N = (padd bp sb, k) :: R /\ c = sb + k) ->
  inside (ubrk s) (bp, c) /\ (forall d, d ∈ A -> apart (bp, c) d) /\ ordered (padd bp c) R /\ sb <= c /\
  (forall b, b ∈ R -> b ∈ bs).
Proof using H can_grow.
  intros E HN Hc. pose proof (hk_order _ _ _ H) as Ho. pose proof new_inside as Hi.
  assert (exists lo, ordered lo N) as [lo HoN].
  { destruct (list_at _ _ _ _ _ E) as [(-> & -> & -> & ->)|(L' & -> & ->)]; [by eexists|].
    apply ordered_app in Ho as [_ (_ & _ & Ho)]. by eexists. }
  assert (forall b, b ∈ N -> b ∈ bs) as Hsub.
  { intros b Hb. destruct (list_at _ _ _ _ _ E) as [(-> & -> & -> & ->)|(L' & -> & ->)]; [done|].
    apply elem_of_app. right. by right. }
  destruct Hc as [(-> & -> & Hne)|(k & -> & ->)].
  - split_and!; try done; [apply new_apart|]. destruct R as [|[a k] R]; [done|]. destruct HoN as (H1 & H2 & H3).
    split_and!; [|done|done]. pose proof (new_cross (a, k) ltac:(apply Hsub; by left)) as Ha. apply Forall_cons in HN as [HN _].
    simpl in Hne. unfold inside in Hi. unfold apart, padd, SIZEOF_HEADER in *; simpl in *. lia.
  - destruct HoN as (H1 & H2 & H3). assert ((padd bp sb, k) ∈ bs) as Hk by (apply Hsub; by left).
    pose proof (free_inside _ Hk) as Hki. split_and!.
    + by apply inside_join.
    + intros d Hd. pose proof (used_inside _ Hd) as (? & ? & _). destruct Hi as (_ & ? & _). simpl in *.
      apply apart_join; [by apply new_apart|apply (hk_cross _ _ _ H); [done|by right]|lia..].
    + by replace (padd bp (sb + k)) with (padd (padd bp sb) k) by (unfold padd; lia).
    + lia.
    + intros b Hb. apply Hsub. by right.
Qed.

(** The list with a block put in behind [q], or [q] grown. *)
Lemma relink m m' L q n N R X : links m base (L ++ (q, n) :: N) -> (forall x, x <> bp -> x <> q -> at_hdr m' x = at_hdr m x) ->
  (exists K, N = K ++ R) -> q <= bp -> Forall (fun b => b.1 < q) L -> Forall (fun b => bp < b.1) N ->
  hd_addr base X = q -> (links m' base R -> links m' base X) -> links m' base (L ++ X).
Proof using can_grow.
  intros Hl Hm [K ->] Hq HL HN HX HR. apply links_app in Hl as [H1 [_ H2]]. apply links_app in H2 as [_ H2]. apply links_app.
  apply Forall_app in HN as [_ HN]. rewrite HX. split.
  - eapply links_same; [|exact H1]. intros a (b & -> & Hb)%list_elem_of_fmap. rewrite Forall_forall in HL. specialize (HL b Hb). simpl in HL. apply Hm; lia.
  - apply HR. eapply links_same; [|exact H2]. intros a (b & -> & Hb)%list_elem_of_fmap. rewrite Forall_forall in HN. specialize (HN b Hb). simpl in HN. apply Hm; lia.
Qed.
(** The new list is in order, inside the heap and apart from the blocks in use. *)
Lemma placed L q n N c R : (base, 0) :: bs = L ++ (q, n) :: N -> q < bp -> (forall b, b ∈ R -> b ∈ bs) ->
  inside (ubrk s) (bp, c) -> (forall d, d ∈ A -> apart (bp, c) d) -> ordered (padd bp c) R ->
  exists bs', (base, 0) :: bs' = (if padd q n =? bp then L ++ (q, n + c) :: R else L ++ (q, n) :: (bp, c) :: R) /\
    ordered base bs' /\ Forall (inside (ubrk s)) bs' /\ (forall b d, b ∈ bs' -> d ∈ A -> apart b d) /\
    (exists b, b ∈ bs' /\ c <= b.2) /\ (q = base \/ q ∈ bs'.*1).
Proof using H can_grow.
  intros E Hq HR Hi Ha HoR. pose proof (hk_order _ _ _ H) as Ho. destruct (hk_range _ _ _ H) as [Hr _].
  assert (forall b d, b ∈ bs -> d ∈ A -> apart b d) as Hx by (intros b d Hb Hd; apply (hk_cross _ _ _ H); [done|by right]).
  pose proof free_inside as Hf. pose proof used_inside as Hu. pose proof new_cross as Hnc. pose proof new_inside as (_ & Hni & _). pose proof Hi as (Hi1 & Hi2 & _). simpl in Hi1, Hi2.
  destruct (list_at _ _ _ _ _ E) as [(-> & -> & -> & ->)|(L' & -> & ->)].
  { assert ((padd base 0 =? bp) = false) as -> by (unfold padd, SIZEOF_HEADER; lia). exists ((bp, c) :: R). split; [done|].
    split_and!; try done; [|intros b d [-> |Hb]%elem_of_cons Hd; eauto|exists (bp, c); split; [by left|done]|by left].
    constructor; [done|]. apply Forall_forall; eauto. }
  apply ordered_app in Ho as [Ho1 (Ho2 & Ho3 & Ho4)].
  assert ((q, n) ∈ L' ++ (q, n) :: N) as Hin by (apply elem_of_app; right; by left).
  destruct (Z.eqb_spec (padd q n) bp) as [Et|Et].
  - exists (L' ++ (q, n + c) :: R). split; [done|]. split_and!.
    + apply ordered_app. split; [done|]. split_and!; [done|lia|]. by replace (padd q (n + c)) with (padd bp c) by (unfold padd in *; lia).
    + apply Forall_app. split; [apply Forall_forall; intros b Hb; apply Hf, elem_of_app; by left|]. constructor; [|by apply Forall_forall; eauto].
      apply inside_join; [by apply Hf|by rewrite Et].
    + intros b d [Hb|[-> |Hb]%elem_of_cons]%elem_of_app Hd; [apply Hx; [apply elem_of_app; by left|done]| |eauto].
      pose proof (Hu _ Hd) as (_ & ? & _). apply apart_join; [by apply Hx|rewrite Et; by apply Ha|lia..].
    + exists (q, n + c). split; [apply elem_of_app; right; by left|simpl; lia].
    + right. apply list_elem_of_fmap. exists (q, n + c). split; [done|]. apply elem_of_app; right; by left.
  - assert (padd q n < bp) as Hlt.
    { pose proof (Hnc _ Hin) as Hc. unfold apart, padd, SIZEOF_HEADER in *. simpl in *. lia. }
    exists (L' ++ (q, n) :: (bp, c) :: R). split; [done|]. split_and!.
    + apply ordered_app. split; [done|]. by split_and!.
    + apply Forall_app. split; [apply Forall_forall; intros b Hb; apply Hf, elem_of_app; by left|].
      constructor; [by apply Hf|]. constructor; [done|]. by apply Forall_forall; eauto.
    + intros b d [Hb|[-> |[-> |Hb]%elem_of_cons]%elem_of_cons]%elem_of_app Hd; [apply Hx; [apply elem_of_app; by left|done]|by apply Hx|by apply Ha|eauto].
    + exists (bp, c). split; [apply elem_of_app; right; right; by left|done].
    + right. apply list_elem_of_fmap. exists (q, n). split; [done|]. apply elem_of_app; right; by left.
Qed.

Lemma list_valid L q n N : (base, 0) :: bs = L ++ (q, n) :: N -> valid q s = true /\ 0 <= n < 2 ^ 28 /\
  Forall (fun b => valid b.1 s = true /\ 0 <= sb + b.2 < 2 ^ 32) N.
Proof using H can_grow.
  intros E. pose proof (hk_range _ _ _ H) as (Hr & Hb & _). pose proof (inside_bound _ _ _ new_inside ltac:(lia) ltac:(lia)) as Hsb.
  assert (forall b, b ∈ bs -> valid b.1 s = true /\ 1 <= b.2 < 2 ^ 28) as HF.
  { intros [a k] Ha. pose proof (free_inside _ Ha) as Hi. split; [by apply valid_inside in Hi|]. apply (inside_bound _ _ _ Hi); lia. }
  destruct (list_at _ _ _ _ _ E) as [(-> & -> & -> & ->)|(L' & -> & ->)].
  - split_and!; [apply valid_base|lia..|]. apply Forall_forall. intros b Hb'. destruct (HF b Hb'). split; [done|lia].
  - destruct (HF (q, n)) as [? Hn]; [apply elem_of_app; right; by left|]. simpl in Hn. split_and!; [done|lia..|]. apply Forall_forall.
    intros b Hb'. destruct (HF b) as [? Hb2]; [apply elem_of_app; right; by right|]. split; [done|lia].
Qed.
Lemma kept_except m' q : (q = base \/ exists n, (q, n) ∈ bs) -> (forall x, x <> bp -> x <> q -> at_hdr m' x = at_hdr (um s) x) -> kept A (um s) m'.
Proof using H can_grow.
  intros Hq Hm d x Hd Hx. pose proof (used_inside _ Hd) as (H1 & H2 & _). pose proof new_inside as (_ & H3 & _). simpl in H3.
  pose proof (hk_range _ _ _ H) as (Hr & _). apply Hm.
  - pose proof (new_apart _ Hd) as Ha. unfold apart, padd, SIZEOF_HEADER in *. simpl in *. lia.
  - destruct Hq as [-> |[n Hn]]; [lia|]. pose proof (hk_cross _ _ _ H _ d Hn ltac:(by right)) as Ha. pose proof (free_inside _ Hn) as (_ & H4 & _).
    unfold apart, padd, SIZEOF_HEADER in *. simpl in *. lia.
Qed.

(** [free] takes a block in use back: it returns, the list stays in order and merged, some free block has
    at least its size, and the other blocks in use keep their contents. *)
Lemma free_ok : exists bs' s', free (padd bp 1) s = Done tt s' /\ heap_ok s' bs' A /\ ubrk s' = ubrk s /\
  kept A (um s) (um s') /\ (exists b, b ∈ bs' /\ sb <= b.2) /\ (length bs' <= length bs + 1)%nat.
Proof using H can_grow.
  pose proof (hk_range _ _ _ H) as Hr. pose proof new_inside as Hni. pose proof Hni as (Hn1 & Hn2 & Hn3 & _). simpl in Hn1, Hn2, Hn3.
  assert (heap_ok s bs ((bp, sb) :: A)) as H0 by exact H.
  destruct (free_search s bs _ bp H0) as (L & q & n & N & E & Hq & HN & Ef); [lia| |].
  { intros [a k] Ha. pose proof (new_cross _ Ha) as Hc. pose proof (free_inside _ Ha) as (_ & ? & _). unfold apart, padd, SIZEOF_HEADER in *. simpl in *. lia. }
  pose proof (hk_links _ _ _ H) as Hl. rewrite E in Hl. pose proof Hl as Hl'. apply links_app in Hl' as [_ [Hlq HlN]].
  destruct (list_valid _ _ _ _ E) as (Vq & Hn & HV). assert (valid bp s = true) as Vb by (by apply valid_inside in Hni).
  destruct (join_right_run s bp q sb n N) as (c & R & m1 & E1 & Hb1 & Hm1 & Hc); try done.
  { pose proof (hk_sizes _ _ _ H) as HF. by apply Forall_cons in HF as [? _]. }
  { unfold padd, SIZEOF_HEADER in *; lia. }
  destruct (joined _ _ _ _ _ _ E HN Hc) as (Hic & Hac & HoR & Hsc & HR). pose proof (inside_bound _ _ _ Hic ltac:(lia) ltac:(lia)) as Hcb.
  destruct (join_left_run (mkUm m1 (freep s) (ubrk s)) bp q n c (hd_addr base R)) as (m2 & E2 & Hm2 & Hq2); try done;
    [lia|cbn [um]; by rewrite Hm1, Hlq by lia|lia|].
  cbn [um] in Hm2. destruct (placed _ _ _ _ _ _ E Hq HR Hic Hac HoR) as (bs' & E' & Ho' & Hf' & Hx' & Hbig & Hq').
  assert (forall x, x <> bp -> x <> q -> at_hdr m2 x = at_hdr (um s) x) as Hm by (intros x ? ?; by rewrite Hm2, Hm1).
  assert (kept A (um s) m2) as Hk.
  { eapply kept_except; [|exact Hm]. destruct (list_at _ _ _ _ _ E) as [(_ & -> & _)|(L' & _ & ->)]; [by left|right]. exists n. apply elem_of_app. right. by left. }
  exists bs', (mkUm m2 q (ubrk s)). split_and!; [| |done|done| |].
  - unfold free. replace (padd (padd bp 1) (-1)) with bp by (unfold padd, SIZEOF_HEADER; lia).
    unfold bind, gets. rewrite Ef, E1, E2. done.
  - destruct H as [_ _ _ _ Hu Hs Hap _ _]. apply Forall_cons in Hu as [_ Hu]. apply Forall_cons in Hs as [_ Hs].
    split; cbn [um freep ubrk]; try done; [|clear - Hs Hk Hu|by destruct Hap].
    + rewrite E'. destruct (Z.eqb_spec (padd q n) bp); (eapply relink; [exact Hl|exact Hm| |lia|apply (around _ _ _ _ _ (hk_order _ _ _ H0) E)|exact HN|done|]);
        try (destruct Hc as [(-> & _)|(k & -> & _)]; [by exists []|by exists [(padd bp sb, k)]]).
      * intros HlR. simpl. by rewrite Hq2.
      * intros HlR. simpl. rewrite Hq2, Hm2, Hb1 by lia. done.
    + by eapply kept_sizes.
  - destruct Hbig as (b & Hb & Hcb'). exists b. split; [done|lia].
  - apply (f_equal length) in E, E'. assert (length R <= length N)%nat by (destruct Hc as [(-> & _)|(k & -> & _)]; simpl; lia).
    destruct (_ =? _); rewrite ?length_app in *; simpl in *; rewrite ?length_app in *; simpl in *; lia.
Qed.
End Insert.

(** ** [malloc] *)

Hypothesis grow_limit : forall brk n, can_grow brk n = true -> brk + n <= 2 ^ 31.

Lemma kept_trans A m1 m2 m3 : kept A m1 m2 -> kept A m2 m3 -> kept A m1 m3.
Proof. intros H1 H2 b x Hb Hx. rewrite (H2 b x Hb Hx). exact (H1 b x Hb Hx). Qed.
Lemma inside_weak brk brk' b : inside brk b -> brk <= brk' -> inside brk' b.
Proof. unfold inside. intros (? & ? & ? & ?) ?. split_and!; [lia..|done]. Qed.

(** A new block at the end of the heap. *)
Lemma grown s bs A nu : heap_ok s bs A -> 1 <= nu < 2 ^ 28 -> ubrk s + nu * SIZEOF_HEADER <= 2 ^ 31 -> forall m h,
  m = <[ubrk s := mkH h nu]> (um s) -> heap_ok (mkUm m (freep s) (ubrk s + nu * SIZEOF_HEADER)) bs ((ubrk s, nu) :: A) /\ kept A (um s) m.
Proof.
  intros H Hnu Hb m h ->. pose proof (hk_range _ _ _ H) as (Hr1 & Hr2 & Hr3). destruct H as [Hl Hf Ho Hfr Hu Hs Ha Hx _].
  pose proof Hu as Hu'. rewrite !Forall_forall in Hfr, Hu.
  assert (kept A (um s) (<[ubrk s := mkH h nu]> (um s))) as Hk.
  { intros b x Hb' Hx'. rewrite at_insert, decide_False; [done|]. destruct (Hu b Hb') as (_ & _ & ? & _). lia. }
  split; [|exact Hk]. unfold SIZEOF_HEADER in *. split; cbn [um freep ubrk]; try done.
  - eapply links_same; [|exact Hl]. intros a Ha'. rewrite at_insert, decide_False; [done|]. apply list_elem_of_fmap in Ha' as (b & -> & Hb').
    apply elem_of_cons in Hb' as [-> |Hb']; [simpl; lia|]. destruct (Hfr b Hb') as (_ & ? & ? & _). unfold padd, SIZEOF_HEADER in *. lia.
  - apply Forall_forall. intros b Hb'. eapply inside_weak; [by apply Hfr|lia].
  - constructor; [unfold inside, padd, SIZEOF_HEADER; simpl; split_and!; [lia..|done]|]. apply Forall_forall. intros b Hb'. eapply inside_weak; [by apply Hu|lia].
  - constructor; [simpl; by rewrite at_insert, decide_True|]. by eapply kept_sizes.
  - split; [|done]. apply Forall_forall. intros b Hb'. destruct (Hu b Hb') as (_ & _ & ? & _). right. done.
  - intros b c Hb' [-> |Hc]%elem_of_cons; [|by apply Hx]. destruct (Hfr b Hb') as (_ & _ & ? & _). left. done.
  - split_and!; [lia..|]. unfold SIZEOF_HEADER. replace (_ - heap0) with (ubrk s - heap0 + nu * 8) by lia. apply Z.divide_add_r; [done|]. by apply Z.divide_factor_r.
Qed.
Lemma s32_units nu : 0 <= nu < 2 ^ 28 -> s32 (nu * SIZEOF_HEADER) = nu * SIZEOF_HEADER.
Proof. intros H. unfold s32, SIZEOF_HEADER. rewrite (u32_id (nu * 8)) by lia. by destruct (Z.ltb_spec (nu * 8) (2 ^ 31)); [|lia]. Qed.

Lemma morecore_ok s bs A nu : heap_ok s bs A -> 1 <= nu < 2 ^ 28 ->
  morecore nu s = Done 0 s \/
  exists bs' s', morecore nu s = Done (freep s') s' /\ heap_ok s' bs' A /\ kept A (um s) (um s') /\
    (exists b, b ∈ bs' /\ nu <= b.2) /\ (length bs' <= length bs + 1)%nat.
Proof using grow_limit.
  intros H Hnu. unfold morecore. set (nu' := if nu <? 4096 then 4096 else nu).
  assert (nu <= nu' /\ 1 <= nu' < 2 ^ 28) as [Hle Hnu'] by (unfold nu'; destruct (Z.ltb_spec nu 4096); lia).
  pose proof (hk_range _ _ _ H) as (Hr1 & Hr2 & _). rewrite s32_units by lia.
  destruct (can_grow (ubrk s) (nu' * SIZEOF_HEADER)) eqn:Eg; [right|left; unfold bind, sbrk; by rewrite Eg].
  unfold bind at 1, sbrk. rewrite Eg. apply grow_limit in Eg. assert ((ubrk s =? -1) = false) as -> by lia.
  unfold bind at 1. rewrite set_hsize_run.
  2:{ unfold valid. cbn [ubrk]. apply orb_true_intro. right. apply andb_true_intro. unfold SIZEOF_HEADER. lia. }
  cbn [um freep ubrk]. rewrite (u32_id nu') by lia.
  edestruct (grown s bs A nu' H Hnu' Eg) as [Hg Hk]; [reflexivity|]. destruct (free_ok _ _ _ _ _ Hg) as (bs' & s' & E & H' & _ & Hk' & (b & Hb & Hsz) & Hlen).
  exists bs', s'. unfold bind. rewrite E. split_and!; [done|done|eapply kept_trans; [exact Hk|exact Hk']| |done]. exists b. split; [done|lia].
Qed.

Lemma ordered_ends lo L q n N : ordered lo (L ++ (q, n) :: N) ->
  Forall (fun b => padd b.1 b.2 < q) L /\ Forall (fun b => padd q n < b.1) N.
Proof.
  revert lo. induction L as [|[a na] L IH]; intros lo; simpl.
  - intros (H1 & H2 & H3). split; [constructor|by apply ordered_above].
  - intros (H1 & H2 & H3). destruct (IH _ H3) as [H4 H5]. split; [|done]. constructor; [|done].
    apply ordered_above, Forall_app in H3 as [_ [H3 _]%Forall_cons]. done.
Qed.
Lemma kept_free s bs A m' : heap_ok s bs A ->
  (forall x, x <> base -> (forall b, b ∈ bs -> ~ (b.1 <= x < padd b.1 b.2)) -> at_hdr m' x = at_hdr (um s) x) -> kept A (um s) m'.
Proof.
  intros H Hm d x Hd Hx. pose proof (hk_range _ _ _ H) as (Hr & _). pose proof (hk_used _ _ _ H) as Hu. rewrite Forall_forall in Hu.
  destruct (Hu d Hd) as (? & _). apply Hm; [lia|]. intros b Hb Hin. destruct (hk_cross _ _ _ H b d Hb Hd); lia.
Qed.
(** A block [(r, nu)] cut out of the free block [(p, n)] and a list [bs'] of what is left. *)
Lemma carve s bs A P p n N X r nu m fp : heap_ok s bs A -> bs = P ++ (p, n) :: N ->
  (X = [] /\ r = p /\ n = nu \/ X = [(p, n - nu)] /\ r = padd p (n - nu) /\ 1 <= n - nu) -> 1 <= nu ->
  links m base ((base, 0) :: P ++ X ++ N) -> fp = base \/ fp ∈ (P ++ X ++ N).*1 -> h_size (at_hdr m r) = nu ->
  kept A (um s) m -> heap_ok (mkUm m fp (ubrk s)) (P ++ X ++ N) ((r, nu) :: A).
Proof.
  intros H -> HX Hnu Hl Hfp Hr Hk. destruct H as [_ _ Ho Hf Hu Hs Ha Hx Hrg]. destruct (ordered_ends _ _ _ _ _ Ho) as [HeP HeN].
  rewrite !Forall_forall in HeP, HeN. pose proof Hf as Hf'. apply Forall_app in Hf' as [HfP [Hp HfN]%Forall_cons].
  apply ordered_app in Ho as [Ho1 (Ho2 & Ho3 & Ho4)]. destruct Hp as (Hp1 & Hp2 & Hp3 & Hp4). simpl in Hp1, Hp2, Hp3, Hp4.
  assert (p <= r /\ padd r nu = padd p n) as [Hpr Hre] by (destruct HX as [(_ & -> & ->)|(_ & -> & ?)]; unfold padd, SIZEOF_HEADER; lia).
  assert (forall d, d ∈ A -> apart (r, nu) d) as Hrd.
  { intros d Hd. assert (apart (p, n) d) as Hpd by (apply Hx; [apply elem_of_app; right; by left|done]). unfold apart, padd, SIZEOF_HEADER in *; simpl in *. lia. }
  assert (forall b, b ∈ X -> b = (p, n - nu) /\ 1 <= n - nu /\ padd p (n - nu) = r) as HX'.
  { intros b Hb. destruct HX as [(-> & _)|(-> & -> & ?)]; [by apply elem_of_nil in Hb|]. apply list_elem_of_singleton in Hb as ->. done. }
  split; cbn [um freep ubrk]; try done.
  - apply ordered_app. split; [done|]. destruct HX as [(-> & _)|(-> & -> & ?)]; simpl; [|split_and!; [done|done|]]; eapply ordered_weak; try done;
      unfold padd, SIZEOF_HEADER in *; lia.
  - apply Forall_app. split; [done|]. apply Forall_app. split; [|done]. apply Forall_forall. intros b Hb. destruct (HX' b Hb) as (-> & ? & ?).
    unfold inside, padd, SIZEOF_HEADER in *. simpl. split_and!; [lia..|done].
  - constructor; [|done]. unfold inside. simpl. split_and!; [lia|lia|unfold padd in *; lia|].
    destruct HX as [(_ & -> & _)|(_ & -> & _)]; [done|]. unfold padd. replace (_ - heap0) with (p - heap0 + SIZEOF_HEADER * (n - nu)) by lia.
    apply Z.divide_add_r; [done|]. apply Z.divide_factor_l.
  - constructor; [done|]. by eapply kept_sizes.
  - split; [|done]. by apply Forall_forall.
  - intros b c Hb [-> |Hc]%elem_of_cons.
    + apply elem_of_app in Hb as [Hb|[Hb|Hb]%elem_of_app].
      * left. specialize (HeP b Hb). simpl in *. lia.
      * destruct (HX' b Hb) as (-> & _ & <-). by left.
      * right. specialize (HeN b Hb). simpl in *. lia.
    + apply elem_of_app in Hb as [Hb|[Hb|Hb]%elem_of_app].
      * apply Hx; [apply elem_of_app; by left|done].
      * destruct (HX' b Hb) as (-> & ? & ?). assert (apart (p, n) c) as Hpd by (apply Hx; [apply elem_of_app; right; by left|done]).
        unfold apart, padd, SIZEOF_HEADER in *; simpl in *. lia.
      * apply Hx; [apply elem_of_app; right; by right|done].
Qed.

Lemma size_base s bs A : heap_ok s bs A -> h_size (at_hdr (um s) base) = 0.
Proof. intros H. destruct (hk_links _ _ _ H) as [-> _]. done. Qed.

Section Take.
Variables (s : ust) (bs A L P N : list (Z * Z)) (nu q nq p n : Z).
Hypothesis H : heap_ok s bs A.
Hypothesis (E : (base, 0) :: bs = L ++ (q, nq) :: (p, n) :: N) (Ebs : bs = P ++ (p, n) :: N) (EP : (base, 0) :: P = L ++ [(q, nq)]).
Hypothesis (Hnu : 1 <= nu < 2 ^ 28) (Hn : nu <= n).

Lemma take_links : links (um s) base (L ++ (q, nq) :: (p, n) :: N).
Proof using H E. pose proof (hk_links _ _ _ H) as Hl. by rewrite E in Hl. Qed.
Lemma take_p : inside (ubrk s) (p, n) /\ 1 <= n < 2 ^ 28 /\ valid p s = true /\ at_hdr (um s) p = mkH (hd_addr base N) n /\ (p, n) ∈ bs.
Proof using H E Ebs can_grow.
  assert ((p, n) ∈ bs) as Hin by (rewrite Ebs; apply elem_of_app; right; by left). pose proof (hk_free _ _ _ H) as Hf. rewrite Forall_forall in Hf.
  pose proof (Hf _ Hin) as Hi. pose proof (hk_range _ _ _ H) as (Hr1 & Hr2 & _). pose proof take_links as Hl. apply links_app in Hl as [_ [_ [Hp _]]].
  split; [done|]. split; [apply (inside_bound _ _ _ Hi); lia|]. split; [by apply valid_inside in Hi|done].
Qed.
Lemma take_q : q < p /\ valid q s = true /\ at_hdr (um s) q = mkH p nq /\ (q = base \/ q ∈ P.*1) /\
  (q = base \/ exists b, b ∈ bs /\ b.1 <= q < padd b.1 b.2).
Proof using H E Ebs EP can_grow.
  pose proof take_links as Hl. apply links_app in Hl as [_ [Hq _]]. pose proof (hk_free _ _ _ H) as Hf. rewrite Forall_forall in Hf.
  assert (q < p) as Hlt by (destruct (around _ _ _ _ _ (hk_order _ _ _ H) E) as [_ [? _]%Forall_cons]; done).
  destruct L as [|b L']; simplify_eq/=; [split_and!; try done; [apply valid_base|by left|by left]|].
  assert ((q, nq) ∈ (L' ++ [(q, nq)]) ++ (p, n) :: N) as Hin by (apply elem_of_app; left; apply elem_of_app; right; by left).
  pose proof (Hf _ Hin) as Hi. split_and!; try done; [by apply valid_inside in Hi| |].
  - right. rewrite fmap_app. apply elem_of_app. right. by left.
  - right. exists (q, nq). split; [done|]. destruct Hi as (_ & ? & _). simpl in *. unfold padd, SIZEOF_HEADER. lia.
Qed.

Lemma take_exact : n = nu -> exists r bs' s', take_block nu q p s = Done (padd r 1) s' /\ heap_ok s' bs' ((r, nu) :: A) /\ kept A (um s) (um s').
Proof using H E Ebs EP Hnu can_grow.
  intros En. destruct take_p as (Hpi & Hnb & Vp & Hp & Hpin). destruct take_q as (Hqp & Vq & Hq & HqP & Hqb).
  set (m := <[q := mkH (hd_addr base N) nq]> (um s)).
  assert (kept A (um s) m) as Hk.
  { apply (kept_free _ _ _ _ H). intros x Hx1 Hx2. unfold m. rewrite at_insert, decide_False; [done|]. intros ->.
    destruct Hqb as [-> |(b & Hb & Hi)]; [done|]. by apply (Hx2 b). }
  exists p, (P ++ [] ++ N), (mkUm m q (ubrk s)). split_and!; [| |exact Hk].
  - unfold take_block. unfold bind at 1. rewrite (hdr_run s p Vp), Hp. cbn [h_size h_ptr]. rewrite (proj2 (Z.eqb_eq n nu) En).
    unfold bind. rewrite (set_ptr_run s q _ Vq), Hq. done.
  - eapply carve; [exact H|exact Ebs|by left|lia| | | |exact Hk].
    + rewrite app_comm_cons, EP, <- app_assoc. destruct (around _ _ _ _ _ (hk_order _ _ _ H) E) as [HL HN].
      eapply (relink q); [apply take_links| |by exists [(p, n)]|lia|exact HL|exact HN|done|].
      * intros x Hx _. unfold m. by rewrite at_insert, decide_False.
      * intros HlN. simpl. unfold m at 1. by rewrite at_insert, decide_True.
    + destruct HqP; [by left|right]. rewrite fmap_app. apply elem_of_app. by left.
    + unfold m. rewrite at_insert, decide_False by lia. by rewrite Hp.
Qed.
Lemma take_split : n <> nu -> exists r bs' s', take_block nu q p s = Done (padd r 1) s' /\ heap_ok s' bs' ((r, nu) :: A) /\ kept A (um s) (um s').
Proof using H E Ebs EP Hnu Hn can_grow.
  intros En. destruct take_p as (Hpi & Hnb & Vp & Hp & Hpin). destruct take_q as (Hqp & Vq & Hq & HqP & Hqb).
  pose (r := padd p (n - nu)). set (m1 := <[p := mkH (hd_addr base N) (n - nu)]> (um s)). set (m := <[r := mkH (h_ptr (at_hdr m1 r)) nu]> m1).
  assert (forall x, x <> r -> x <> p -> at_hdr m x = at_hdr (um s) x) as Hm by (intros x ? ?; unfold m, m1; by rewrite !at_insert, !decide_False).
  assert (p < r /\ padd r nu = padd p n) as [Hpr Hre] by (unfold r, padd, SIZEOF_HEADER; lia).
  assert (kept A (um s) m) as Hk.
  { apply (kept_free _ _ _ _ H). intros x Hx1 Hx2. specialize (Hx2 _ Hpin). apply Hm; intros ->; apply Hx2; simpl; unfold padd, SIZEOF_HEADER in *; lia. }
  exists r, (P ++ [(p, n - nu)] ++ N), (mkUm m q (ubrk s)). split_and!; [| |exact Hk].
  - unfold take_block. unfold bind at 1. rewrite (hdr_run s p Vp), Hp. cbn [h_size h_ptr]. rewrite (proj2 (Z.eqb_neq n nu) En).
    unfold bind. rewrite (set_hsize_run s p _ Vp), Hp. rewrite (u32_id (n - nu)) by lia. cbn [h_ptr]. rewrite hdr_run by exact Vp.
    cbn [um freep ubrk]. rewrite at_insert, decide_True by done. cbn [h_size]. rewrite set_hsize_run.
    2:{ destruct Hpi as (? & _ & ? & _). unfold valid, SIZEOF_HEADER. cbn [ubrk]. apply orb_true_intro. right. apply andb_true_intro.
        unfold r, padd, SIZEOF_HEADER in *. simpl in *. lia. }
    cbn [um freep ubrk]. rewrite (u32_id nu) by lia. done.
  - assert (at_hdr m p = mkH (hd_addr base N) (n - nu)) as Hmp by (unfold m, m1; rewrite at_insert, decide_False by lia; by rewrite at_insert, decide_True).
    eapply carve; [exact H|exact Ebs|right; split_and!; [done|done|lia]|lia| | | |exact Hk].
    + pose proof take_links as Hl. pose proof E as E2. rewrite (cons_middle (q, nq)), app_assoc in Hl, E2. rewrite app_comm_cons, EP.
      destruct (around _ _ _ _ _ (hk_order _ _ _ H) E2) as [HL HN]. destruct (ordered_ends base P p n N) as [_ HeN]; [rewrite <- Ebs; apply (hk_order _ _ _ H)|].
      eapply (relink r); [exact Hl|exact Hm|by exists []|lia|exact HL| |done|intros HlN; simpl; by rewrite Hmp].
      eapply Forall_impl; [exact HeN|]. intros b Hb. cbv beta in *. unfold r, padd, SIZEOF_HEADER in *. lia.
    + destruct HqP; [by left|right]. rewrite fmap_app. apply elem_of_app. by left.
    + unfold m. by rewrite at_insert, decide_True.
Qed.
End Take.

Lemma take_ok s bs A nu q nq p : heap_ok s bs A -> 1 <= nu < 2 ^ 28 -> (q, nq) ∈ (base, 0) :: bs ->
  h_ptr (at_hdr (um s) q) = p -> nu <= h_size (at_hdr (um s) p) ->
  exists r bs' s', take_block nu q p s = Done (padd r 1) s' /\ heap_ok s' bs' ((r, nu) :: A) /\ kept A (um s) (um s').
Proof.
  intros H Hnu Hq Hp Hn. pose proof (hk_links _ _ _ H) as Hl. apply list_elem_of_split in Hq as (L & N' & E). rewrite E in Hl.
  pose proof Hl as Hl'. apply links_app in Hl' as [_ [Hq HN]]. rewrite Hq in Hp. simpl in Hp.
  destruct N' as [|[p' n] N]; simpl in Hp; subst p; [rewrite (size_base _ _ _ H) in Hn; lia|]. destruct HN as [Hp HN]. rewrite Hp in Hn. simpl in Hn.
  assert (exists P, bs = P ++ (p', n) :: N /\ (base, 0) :: P = L ++ [(q, nq)]) as (P & Ebs & EP).
  { destruct (list_at _ _ _ _ _ E) as [(-> & -> & -> & ->)|(L' & -> & ->)]; [by exists []|].
    exists (L' ++ [(q, nq)]). by rewrite <- app_assoc. }
  destruct (decide (n = nu)); [eapply take_exact|eapply take_split]; done.
Qed.

(** Once around the list: a block that is large enough, or a call of [morecore] at [freep]. *)
Lemma malloc_scan s f nu : freep s = f -> valid f s = true -> forall K fuel prev np,
  links (um s) f ((prev, np) :: K) -> Forall (fun b => valid b.1 s = true /\ b.1 <> 0 /\ b.1 <> f) K -> (length K <= fuel)%nat ->
  (exists q nq p, (q, nq) ∈ (prev, np) :: K /\ h_ptr (at_hdr (um s) q) = p /\ nu <= h_size (at_hdr (um s) p) /\
    malloc_loop fuel nu prev (hd_addr f K) s = take_block nu q p s) \/
  (Forall (fun b => b.2 < nu) K /\ h_size (at_hdr (um s) f) < nu /\ exists fuel', (fuel - length K <= fuel')%nat /\
    malloc_loop fuel nu prev (hd_addr f K) s =
    (p <- morecore nu ;; if p =? 0 then ret 0 else
       match fuel' with O => nofuel | S k => h <- hdr p ;; malloc_loop k nu p (h_ptr h) end) s).
Proof.
  intros Hf Vf K. induction K as [|[a na] K IH]; intros fuel prev np [Hl1 Hl2] HK Hlen; simpl hd_addr in *.
  - destruct (Z.ltb_spec (h_size (at_hdr (um s) f)) nu) as [Hlt|Hge].
    + right. split_and!; [constructor|done|]. exists fuel. split; [lia|]. destruct fuel; cbn [malloc_loop]; unfold bind at 1; rewrite (hdr_run s f Vf);
        (replace (_ >=? nu) with false by lia); unfold bind at 1, gets; by rewrite Hf, Z.eqb_refl.
    + left. exists prev, np, f. split_and!; [by left|by rewrite Hl1|lia|]. destruct fuel; cbn [malloc_loop]; unfold bind at 1; rewrite (hdr_run s f Vf);
        by (replace (_ >=? nu) with true by lia).
  - apply Forall_cons in HK as [(Va & Ha0 & Haf) HK]. simpl in Va, Ha0, Haf. pose proof Hl2 as [Ha _]. destruct fuel as [|fuel]; [simpl in Hlen; lia|].
    destruct (Z.ltb_spec na nu) as [Hlt|Hge].
    + assert (malloc_loop (S fuel) nu prev a s = malloc_loop fuel nu a (hd_addr f K) s) as ->.
      { cbn [malloc_loop]. unfold bind at 1. rewrite (hdr_run s a Va), Ha. cbn [h_size h_ptr]. replace (na >=? nu) with false by lia.
        unfold bind, gets. rewrite Hf. replace (a =? f) with false by lia. unfold ret at 1. replace (a =? 0) with false by lia.
        by rewrite (hdr_run s a Va), Ha. }
      simpl in Hlen. destruct (IH fuel a na Hl2 HK ltac:(lia)) as [(q & nq & p & H1 & H2 & H3 & H4)|(H1 & H2 & fuel' & H3 & H4)].
      * left. exists q, nq, p. split_and!; try done. by right.
      * right. split_and!; [by constructor|done|]. exists fuel'. split; [simpl; lia|done].
    + left. exists prev, np, a. split_and!; [by left|by rewrite Hl1|rewrite Ha; simpl; lia|]. cbn [malloc_loop]. unfold bind at 1. rewrite (hdr_run s a Va), Ha.
      cbn [h_size]. by replace (na >=? nu) with true by lia.
Qed.

(** The list from [freep] on. *)
Lemma rotated s bs A : heap_ok s bs A -> exists nf K, links (um s) (freep s) ((freep s, nf) :: K) /\
  (forall b, b ∈ (freep s, nf) :: K <-> b ∈ (base, 0) :: bs) /\ length K = length bs /\ valid (freep s) s = true /\ freep s <> 0 /\
  Forall (fun b => valid b.1 s = true /\ b.1 <> 0 /\ b.1 <> freep s) K.
Proof.
  intros H. pose proof (hk_links _ _ _ H) as Hl. pose proof (free_listed _ _ _ H) as Hv. pose proof (hk_range _ _ _ H) as ((Hb & _) & _).
  assert (exists nf, (freep s, nf) ∈ (base, 0) :: bs) as [nf Hin].
  { destruct (hk_freep _ _ _ H) as [-> |([a k] & -> & Hk)%list_elem_of_fmap]; [exists 0; by left|exists k; by right]. }
  apply list_elem_of_split in Hin as (L1 & L2 & E). exists nf, (L2 ++ L1). rewrite E in Hl, Hv.
  destruct (around _ _ _ _ _ (hk_order _ _ _ H) E) as [HL1 HL2]. apply links_app in Hl as [Hl1 [Hl2 Hl3]].
  apply Forall_app in Hv as [Hv1 [Hvf Hv2]%Forall_cons].
  assert (hd_addr (freep s) L1 = base) as Eh by (destruct L1 as [|[]]; simplify_eq/=; congruence).
  split_and!.
  - simpl. split; [|apply links_app; by rewrite Eh]. rewrite Hl2. destruct L2 as [|[]]; simpl; [by rewrite Eh|done].
  - intros b. rewrite E, !elem_of_app, !elem_of_cons, elem_of_app. tauto.
  - apply (f_equal length) in E. rewrite length_app in *. simpl in E. lia.
  - by destruct Hvf.
  - destruct Hvf as [_ ?]. simpl in *. lia.
  - rewrite !Forall_forall in *. intros b [Hb'|Hb']%elem_of_app.
    + destruct (Hv2 b Hb'). specialize (HL2 b Hb'). simpl in *. split_and!; [done|lia|lia].
    + destruct (Hv1 b Hb'). specialize (HL1 b Hb'). simpl in *. split_and!; [done|lia|lia].
Qed.

(** [malloc] with enough fuel for two rounds. *)
Lemma malloc_scan_ok s bs A nu fuel : heap_ok s bs A -> 1 <= nu < 2 ^ 28 -> (2 * length bs + 2 <= fuel)%nat ->
  exists s' r bs', malloc_loop fuel nu (freep s) (h_ptr (at_hdr (um s) (freep s))) s = Done r s' /\ kept A (um s) (um s') /\
    (r = 0 /\ heap_ok s' bs' A \/ exists p, r = padd p 1 /\ heap_ok s' bs' ((p, nu) :: A)).
Proof using grow_limit.
  intros H Hnu Hfuel. destruct (rotated _ _ _ H) as (nf & K & Hl & HK & Hlen & Vf & _ & HF). pose proof Hl as [Hf _]. rewrite Hf. cbn [h_ptr].
  destruct (malloc_scan s (freep s) nu eq_refl Vf K fuel (freep s) nf Hl HF ltac:(lia)) as [(q & nq & p & H1 & H2 & H3 & ->)|(_ & _ & fuel' & Hf' & ->)].
  { apply HK in H1. destruct (take_ok _ _ _ _ _ _ _ H Hnu H1 H2 H3) as (r & bs' & s' & E & H' & Hk). exists s', (padd r 1), bs'. split_and!; eauto. }
  unfold bind at 1. destruct (morecore_ok s bs A nu H Hnu) as [->|(bs' & s' & -> & H' & Hk & (b & Hb & Hsz) & Hlen')].
  { exists s, 0, bs. split_and!; try done. by left. }
  clear Hf HF Hl HK Vf nf. destruct (rotated _ _ _ H') as (nf & K' & Hl & HK & HlenK & Vf & Hnz & HF). pose proof Hl as [Hf _].
  destruct (freep s' =? 0) eqn:Ez; [lia|]. destruct fuel' as [|fuel']; [lia|]. unfold bind. rewrite (hdr_run s' _ Vf), Hf. cbn [h_ptr].
  destruct (malloc_scan s' (freep s') nu eq_refl Vf K' fuel' (freep s') nf Hl HF ltac:(lia)) as [(q & nq & p & H1 & H2 & H3 & ->)|(H1 & H2 & _)].
  { apply HK in H1. destruct (take_ok _ _ _ _ _ _ _ H' Hnu H1 H2 H3) as (r & bs2 & s2 & E & H2' & Hk2). exists s2, (padd r 1), bs2.
    split_and!; eauto using kept_trans. }
  assert (b ∈ (freep s', nf) :: K') as Hb' by (apply HK; by right). rewrite Hf in H2. simpl in H2.
  apply elem_of_cons in Hb' as [-> |Hb']; [simpl in Hsz; lia|]. rewrite Forall_forall in H1. specialize (H1 b Hb'). simpl in H1. lia.
Qed.

Lemma units_bound n : 0 <= n < 2 ^ 31 - 16 -> 1 <= units n < 2 ^ 28 /\ n <= 8 * (units n - 1).
Proof. intros H. unfold units, SIZEOF_HEADER. rewrite u32_id by lia. zlia. Qed.

(** ** Programs that use the allocator *)

(** The state before the first call. *)
Definition fresh s : Prop := freep s = 0 /\ 0 < base < heap0 /\ heap0 <= ubrk s <= 2 ^ 31 /\ (SIZEOF_HEADER | ubrk s - heap0).
(** What a program can do: allocate, write to the blocks it has, give them back. *)
Inductive program : ust -> list (Z * Z) -> Prop :=
| prog_start s : fresh s -> program s []
| prog_malloc s A n r s' : program s A -> 0 <= n < 2 ^ 31 - 16 -> malloc n s = Done r s' ->
    program s' (if r =? 0 then A else (padd r (-1), units n) :: A)
| prog_write s A b x h : program s A -> b ∈ A -> padd b.1 1 <= x < padd b.1 b.2 ->
    program (mkUm (<[x := h]> (um s)) (freep s) (ubrk s)) A
| prog_free s A1 b A2 s' : program s (A1 ++ b :: A2) -> free (padd b.1 1) s = Done tt s' -> program s' (A1 ++ A2).

Definition prog_ok s A : Prop := fresh s /\ A = [] \/ exists bs, heap_ok s bs A.

(** Before the first call the list is made of [base] alone. *)
Lemma malloc_ok s A n : prog_ok s A -> 0 <= n < 2 ^ 31 - 16 ->
  exists s' r bs', malloc n s = Done r s' /\ kept A (um s) (um s') /\
    (r = 0 /\ heap_ok s' bs' A \/ exists p, r = padd p 1 /\ heap_ok s' bs' ((p, units n) :: A)).
Proof using grow_limit.
  intros Hp Hn. destruct (units_bound n Hn) as [Hu _].
  enough (forall s1 bs, heap_ok s1 bs A -> kept A (um s) (um s1) -> malloc n s = (prevp <- gets freep ;; h <- hdr prevp ;; k <- gets rounds ;;
      malloc_loop (2 * k + 4) (units n) prevp (h_ptr h)) s1 -> exists s' r bs', malloc n s = Done r s' /\ kept A (um s) (um s') /\
    (r = 0 /\ heap_ok s' bs' A \/ exists p, r = padd p 1 /\ heap_ok s' bs' ((p, units n) :: A))) as Hgo.
  { destruct Hp as [((Hf & Hr & Hb) & ->)|[bs H]].
    - apply (Hgo (mkUm (<[base := mkH base 0]> (um s)) base (ubrk s)) []).
      + split; cbn [um freep ubrk]; try done; [|by left|intros b c Hb'; by apply elem_of_nil in Hb']. simpl. by rewrite at_insert, decide_True.
      + intros b x Hb'. by apply elem_of_nil in Hb'.
      + unfold malloc. unfold bind at 1, gets at 1. rewrite Hf. simpl (0 =? 0). cbv iota. unfold bind at 1 2 3. rewrite set_ptr_run by apply valid_base.
        unfold set_freep, modify. cbn [um freep ubrk]. rewrite set_hsize_run by apply valid_base. cbn [um freep ubrk].
        by rewrite at_insert, decide_True, insert_insert_eq.
    - apply (Hgo s bs H); [by intros b x|]. unfold malloc. unfold bind at 1, gets at 1.
      destruct (rotated _ _ _ H) as (_ & _ & _ & _ & _ & _ & Hnz & _). by replace (freep s =? 0) with false by lia. }
  intros s1 bs H Hk ->. destruct (rotated _ _ _ H) as (_ & _ & _ & _ & _ & Vf & _). pose proof (free_count _ _ _ H) as Hc.
  unfold bind, gets. rewrite (hdr_run s1 _ Vf). destruct (malloc_scan_ok s1 bs A (units n) (2 * rounds s1 + 4) H Hu ltac:(lia)) as (s' & r & bs' & E & Hk' & Ho).
  exists s', r, bs'. rewrite E. split_and!; eauto using kept_trans.
Qed.

Lemma apart_sym b c : apart b c -> apart c b.
Proof. unfold apart. tauto. Qed.
Lemma apart_all_perm A A' : A ≡ₚ A' -> apart_all A -> apart_all A'.
Proof.
  induction 1 as [|b A A' Hp IH|b c A|]; simpl; [done| | |tauto].
  - intros [H1 H2]. split; [by rewrite <- Hp|tauto].
  - intros [[H1 H2]%Forall_cons [H3 H4]]. split_and!; [constructor; [by apply apart_sym|done]|done|done].
Qed.
Lemma heap_ok_perm s bs A A' : A ≡ₚ A' -> heap_ok s bs A -> heap_ok s bs A'.
Proof.
  intros Hp [? ? ? ? Hu Hs Ha Hx ?]. split; try done; [by rewrite <- Hp|by rewrite <- Hp|by eapply apart_all_perm|].
  intros b c Hb Hc. apply Hx; [done|]. by rewrite Hp.
Qed.
Lemma free_used s bs A1 b A2 : heap_ok s bs (A1 ++ b :: A2) -> exists bs' s', free (padd b.1 1) s = Done tt s' /\
  heap_ok s' bs' (A1 ++ A2) /\ kept (A1 ++ A2) (um s) (um s').
Proof.
  intros H. destruct b as [bp sb]. apply (heap_ok_perm _ _ _ ((bp, sb) :: A1 ++ A2)) in H; [|by rewrite Permutation_middle].
  destruct (free_ok _ _ _ _ _ H) as (bs' & s' & E & H' & _ & Hk & _). eauto.
Qed.
(** The blocks in use are the program's: writing to them does not touch the list. *)
Lemma write_ok s bs A b x h : heap_ok s bs A -> b ∈ A -> padd b.1 1 <= x < padd b.1 b.2 ->
  heap_ok (mkUm (<[x := h]> (um s)) (freep s) (ubrk s)) bs A.
Proof.
  intros H Hb Hx. pose proof (hk_range _ _ _ H) as ((_ & Hr) & _). pose proof (hk_free _ _ _ H) as Hf. pose proof (hk_used _ _ _ H) as Hu.
  rewrite Forall_forall in Hf, Hu. pose proof (Hu b Hb) as (Hb1 & _). unfold padd, SIZEOF_HEADER in Hx.
  destruct H as [Hl ? ? ? ? Hs Ha Hc ?]. split; cbn [um freep ubrk]; try done.
  - eapply links_same; [|exact Hl]. intros a (c & -> & Hc')%list_elem_of_fmap. rewrite at_insert, decide_False; [done|].
    apply elem_of_cons in Hc' as [-> |Hc']; [simpl; lia|]. destruct (Hf c Hc') as (_ & ? & _). pose proof (Hc c b Hc' Hb) as Ho.
    unfold apart, padd, SIZEOF_HEADER in Ho. lia.
  - apply list_elem_of_split in Hb as (A1 & A2 & ->). apply (apart_all_perm _ (b :: A1 ++ A2)) in Ha as [Ha _]; [|by rewrite Permutation_middle].
    rewrite Forall_forall in Hs, Ha. apply Forall_forall. intros d Hd. rewrite at_insert, decide_False; [by apply Hs|].
    destruct (Hu d Hd) as (_ & ? & _). rewrite <- Permutation_middle in Hd. apply elem_of_cons in Hd as [-> |Hd]; [lia|].
    pose proof (Ha d Hd) as Ho. unfold apart, padd, SIZEOF_HEADER in Ho. lia.
Qed.

Lemma prog_inv s A : program s A -> prog_ok s A.
Proof using grow_limit.
  induction 1 as [s Hf|s A n r s' Hp IH Hn E|s A b x h Hp IH Hb Hx|s A1 b A2 s' Hp IH E]; [by left|right..].
  - destruct (malloc_ok s A n IH Hn) as (s2 & r2 & bs' & E2 & _ & Ho). rewrite E in E2. injection E2 as <- <-.
    exists bs'. destruct Ho as [[-> H]|(p & -> & H)]; [done|]. pose proof (hk_used _ _ _ H) as Hu. apply Forall_cons in Hu as [(Hp' & _) _].
    pose proof (hk_range _ _ _ H) as (Hr & _). simpl in Hp'. replace (padd p 1 =? 0) with false by (unfold padd, SIZEOF_HEADER; lia).
    by replace (padd (padd p 1) (-1)) with p by (unfold padd, SIZEOF_HEADER; lia).
  - destruct IH as [[_ ->]|[bs H]]; [by apply elem_of_nil in Hb|]. exists bs. by eapply write_ok.
  - destruct IH as [[_ Hn]|[bs H]]; [by destruct A1|]. destruct (free_used _ _ _ _ _ H) as (bs' & s2 & E2 & H' & _).
    rewrite E in E2. injection E2 as <-. by exists bs'.
Qed.

(** C14. The allocator is safe for every program that keeps to the blocks it was given and whose requests are all
    smaller than 2^31 - 16 bytes (see [huge_request_shrinks] and [huge_request_wraps] for others).  In any state such a program
    reaches, with blocks [A] in use, [malloc] of less than 2^31 - 16 bytes returns: null, or memory of the size asked for, aligned,
    inside the heap and apart from every block in use; [free] of a block in use returns as well;
    and both leave the contents of all (other) blocks in use as they were. *)
Theorem malloc_safe s A n : program s A -> 0 <= n < 2 ^ 31 - 16 ->
  (exists r s', malloc n s = Done r s' /\ kept A (um s) (um s') /\
    (r = 0 \/ heap0 < r /\ r + n <= ubrk s' /\ (SIZEOF_HEADER | r - heap0) /\
              forall b, b ∈ A -> padd b.1 b.2 <= r - SIZEOF_HEADER \/ r + n <= b.1)) /\
  (forall A1 b A2, A = A1 ++ b :: A2 -> exists s', free (padd b.1 1) s = Done tt s' /\ kept (A1 ++ A2) (um s) (um s')).
Proof using grow_limit.
  intros Hp Hn. apply prog_inv in Hp. split.
  - destruct (malloc_ok s A n Hp Hn) as (s' & r & bs' & E & Hk & Ho). exists r, s'. split_and!; [done|done|].
    destruct Ho as [[-> _]|(p & -> & H)]; [by left|right]. destruct (units_bound n Hn) as [_ Hu]. destruct H as [_ _ _ _ Hu' _ [Ha _] _ _].
    apply Forall_cons in Hu' as [(H1 & _ & H3 & H4) _]. simpl in *. unfold padd, SIZEOF_HEADER in *. split_and!; [lia|lia| |].
    + replace (p + 8 * 1 - heap0) with (p - heap0 + 8 * 1) by lia. apply Z.divide_add_r; [done|]. apply Z.divide_factor_l.
    + intros b Hb. rewrite Forall_forall in Ha. specialize (Ha b Hb). unfold apart, padd, SIZEOF_HEADER in Ha. simpl in Ha. lia.
  - intros A1 b A2 ->. destruct Hp as [[_ He]|[bs H]]; [by destruct A1|]. destruct (free_used _ _ _ _ _ H) as (bs' & s' & E & _ & Hk). eauto.
Qed.
End Umalloc.

(** A program with two blocks, one of them written to, that gives the first one back. *)
Definition grow_to_limit (brk n : Z) : bool := brk + n <=? 2 ^ 31.
Definition at_malloc (n : Z) (s : ust) : ust := match malloc 64 4096 grow_to_limit n s with Done _ s' => s' | _ => s end.
Definition um0 : ust := mkUm ∅ 0 4096.
Definition um2 : ust := at_malloc 20 (at_malloc 100 um0).

Lemma malloc_safe_witness : exists s A, A <> [] /\
  (exists r s', malloc 64 4096 grow_to_limit 5000 s = Done r s' /\ r <> 0) /\
  exists r s', malloc 64 4096 grow_to_limit 5000 s = Done r s' /\ kept A (um s) (um s') /\
    (r = 0 \/ 4096 < r /\ r + 5000 <= ubrk s' /\ (SIZEOF_HEADER | r - 4096) /\
              forall b, b ∈ A -> padd b.1 b.2 <= r - SIZEOF_HEADER \/ r + 5000 <= b.1).
Proof.
  assert (forall brk n, grow_to_limit brk n = true -> brk + n <= 2 ^ 31) as Hg by (unfold grow_to_limit; lia).
  assert (program 64 4096 grow_to_limit um2 [(36720, 4); (36752, 14)]) as Hp.
  { refine (prog_malloc 64 4096 grow_to_limit (at_malloc 100 um0) [(36752, 14)] 20 36728 um2 _ _ _); [|lia|vm_compute; reflexivity].
    refine (prog_malloc 64 4096 grow_to_limit um0 [] 100 36760 (at_malloc 100 um0) _ _ _); [|lia|vm_compute; reflexivity].
    apply prog_start. unfold fresh, SIZEOF_HEADER. split_and!; simpl; try lia. by exists 0. }
  apply (prog_write _ _ _ _ _ (36720, 4) 36728 (mkH 7 7)) in Hp; [|by left|unfold padd, SIZEOF_HEADER; simpl; lia].
  exists (mkUm (<[36728 := mkH 7 7]> (um um2)) (freep um2) (ubrk um2)), [(36720, 4); (36752, 14)]. split; [done|]. split.
  - eexists _, _. split; [vm_compute; reflexivity|lia].
  - destruct (malloc_safe 64 4096 grow_to_limit Hg _ _ 5000 Hp ltac:(lia)) as [Hm _]. exact Hm.
Defined.

(** The requests [malloc_safe] leaves out, from 2 GB on.  Where the list has no block for such a request [morecore] passes a negative
    size to [sbrk], which takes memory away instead of adding it; and within 8 bytes of 2^32 the computation of [nunits] wraps around: the
    request is served as if it were for no bytes, with one header and no memory behind it. *)
Lemma huge_request_shrinks n : 2 ^ 31 - 15 <= n < 2 ^ 32 - 15 -> s32 (units n * SIZEOF_HEADER) < 0.
Proof.
  intros Hn. unfold units, SIZEOF_HEADER. rewrite (u32_small (n + 8 - 1)) by lia.
  pose proof (Z.div_mod (n + 8 - 1) 8 ltac:(lia)). pose proof (Z.mod_pos_bound (n + 8 - 1) 8 ltac:(lia)).
  unfold s32. rewrite u32_small by lia. destruct (Z.ltb_spec (((n + 8 - 1) / 8 + 1) * 8) (2 ^ 31)); lia.
Qed.
Lemma huge_request_wraps base heap0 can_grow n : 2 ^ 32 - 7 <= n < 2 ^ 32 -> malloc base heap0 can_grow n = malloc base heap0 can_grow 0.
Proof.
  intros Hn. unfold malloc. replace (units n) with (units 0); [done|].
  unfold units, SIZEOF_HEADER, u32. rewrite <- (Z.mod_add (n + 8 - 1) (-1)) by lia. rewrite (Z.mod_small (_ + _)) by lia.
  change (((0 + 8 - 1) mod 2 ^ 32) / 8) with 0. rewrite Z.div_small by lia. done.
Qed.
