(* ===== verification/Mkfs.v ===== *)
(** * The image builder: mkfs.c

    [mkfs] runs on the build machine and writes the disk image: the boot loader with the
    partition table in sector 0, the kernel behind it, and then every partition with its
    super block, log, inodes, bitmap and files.  The image is a map from sectors to blocks,
    as long as the furthest sector written; a sector inside it that was never written
    reads as zeroes, and a failed read ends the program, as a failed assertion does.  The build
    machine is little-endian, like the x86 it compiles for.  The files of the build directory are
    a parameter; what is uninitialised in the source is an argument. *)

From S2P Require Import Prelude Buf Bio Log Blocks Fs.

Definition NINODES : Z := 200.
Definition FS_INODE : Z := 0.

Definition nbitmap : Z := FSSIZE / (BSIZE * 8) + 1.
Definition ninodeblocks : Z := NINODES / IPB + 1.
Definition nlog : Z := LOGSIZE.

Record mbr := mkMbr { mbr_bootstrap : list Z; mbr_partitions : list dpartition; mbr_magic : list Z }.
Record mk := mkMk {
  g_img : gmap Z (list Z); g_len : Z;      (** fsfd *)
  g_sb : superblock; g_freeinode : Z; g_freeblock : Z; g_nmeta : Z; g_nblocks : Z; g_mbr : mbr
}.
Definition set_img m l s := mkMk m l (g_sb s) (g_freeinode s) (g_freeblock s) (g_nmeta s) (g_nblocks s) (g_mbr s).
Definition set_sb b s := mkMk (g_img s) (g_len s) b (g_freeinode s) (g_freeblock s) (g_nmeta s) (g_nblocks s) (g_mbr s).
Definition set_freeinode i s := mkMk (g_img s) (g_len s) (g_sb s) i (g_freeblock s) (g_nmeta s) (g_nblocks s) (g_mbr s).
Definition set_freeblock b s := mkMk (g_img s) (g_len s) (g_sb s) (g_freeinode s) b (g_nmeta s) (g_nblocks s) (g_mbr s).
Definition set_counts m n s := mkMk (g_img s) (g_len s) (g_sb s) (g_freeinode s) (g_freeblock s) m n (g_mbr s).
Definition set_mbr m s := mkMk (g_img s) (g_len s) (g_sb s) (g_freeinode s) (g_freeblock s) (g_nmeta s) (g_nblocks s) m.

(** Intel byte order, read back as an integer of the machine. *)
Definition xshort (x : Z) : Z := le_val [u8 x; u8 (Z.shiftr x 8)].
Definition xint (x : Z) : Z := le_val [u8 x; u8 (Z.shiftr x 8); u8 (Z.shiftr x 16); u8 (Z.shiftr x 24)].

Definition exit1 {A} : M mk A := panic "exit".
Definition assert (b : bool) : M mk unit := if b then ret tt else panic "assertion failed".

(** The sector [lseek] goes to: the offset is a [uint]. *)
Definition sector (sec : Z) : Z := u32 (sec * BSIZE) / BSIZE.
Definition wsect (sec : Z) (buf : list Z) : M mk unit :=
  modify (fun s => set_img (<[sector sec := buf]> (g_img s)) (Z.max (g_len s) (sector sec + 1)) s).
Definition rsect (sec : Z) : M mk (list Z) := fun s =>
  if sector sec <? g_len s then Done (default zero_blk (g_img s !! sector sec)) s else exit1 s.

Definition winode (inum : Z) (ip : dinode) : M mk unit :=
  sb <- gets g_sb ;;
  let bn := IBLOCK inum sb in
  buf <- rsect bn ;;
  wsect bn (put_dinode (dinode_off inum) ip buf).
Definition rinode (inum : Z) : M mk dinode :=
  sb <- gets g_sb ;;
  let bn := IBLOCK inum sb in
  buf <- rsect bn ;;
  ret (dinode_of (dinode_off inum) buf).

Definition ialloc (type : Z) : M mk Z :=
  inum <- gets g_freeinode ;;
  modify (set_freeinode (u32 (inum + 1))) ;;;
  winode inum (mkDi (s16 (xshort type)) 0 0 (s16 (xshort 1)) (xint 0) (replicate 13 0)) ;;;
  ret inum.

Definition balloc (used : Z) : M mk unit :=
  assert (used <? BSIZE * 8) ;;;
  sb <- gets g_sb ;;
  wsect (sb_bmapstart sb) (fold_left set_bit (seqZ 0 used) zero_blk).

(** [freeblock++] *)
Definition next_block : M mk Z :=
  b <- gets g_freeblock ;; modify (set_freeblock (u32 (b + 1))) ;;; ret b.

(** The disk block of file block [fbn], with a block from the free ones where there is none. *)
Definition append_block (din : dinode) (fbn : Z) : M mk (dinode * Z) :=
  if fbn <? NDIRECT then
    din <- (if xint (addr_at din fbn) =? 0 then b <- next_block ;; ret (set_addr fbn (xint b) din) else ret din) ;;
    ret (din, xint (addr_at din fbn))
  else
    din <- (if xint (addr_at din NDIRECT) =? 0 then b <- next_block ;; ret (set_addr NDIRECT (xint b) din) else ret din) ;;
    indirect <- rsect (xint (addr_at din NDIRECT)) ;;
    let j := Z.to_nat (4 * (fbn - NDIRECT)) in
    indirect <- (if get32 j indirect =? 0 then
                   b <- next_block ;;
                   let indirect := put32 j (xint b) indirect in
                   wsect (xint (addr_at din NDIRECT)) indirect ;;; ret indirect
                 else ret indirect) ;;
    ret (din, xint (get32 j indirect)).

Fixpoint iappend_loop (fuel : nat) (din : dinode) (off : Z) (p : list Z) (n : Z) : M mk (dinode * Z) :=
  if n >? 0 then
    match fuel with
    | O => nofuel
    | S fuel' =>
        let fbn := off / BSIZE in
        assert (fbn <? MAXFILE) ;;;
        r <- append_block din fbn ;;
        let (din, x) := r : dinode * Z in
        let n1 := Z.min n ((fbn + 1) * BSIZE - off) in
        buf <- rsect x ;;
        wsect x (bsplice (Z.to_nat (off - fbn * BSIZE)) (take (Z.to_nat n1) p) buf) ;;;
        iappend_loop fuel' din (off + n1) (drop (Z.to_nat n1) p) (n - n1)
    end
  else ret (din, off).
Definition iappend (inum : Z) (p : list Z) : M mk unit :=
  let n := Z.of_nat (length p) in
  din <- rinode inum ;;
  r <- iappend_loop (Z.to_nat (n / BSIZE + 2)) din (xint (di_size din)) p n ;;
  let (din, off) := r : dinode * Z in
  winode inum (set_size (xint off) din).

(** ** The partition table *)

Definition initialize_mbr : M mk unit :=
  modify (set_mbr (mkMbr (replicate (Z.to_nat BOOTSTRAP) 0) (replicate (Z.to_nat NPARTITIONS) (mkDp 0 0 0 0)) [0x55; 0xAA])).
Definition add_partition (part : dpartition) (index : Z) : M mk unit :=
  modify (fun s => set_mbr (mkMbr (mbr_bootstrap (g_mbr s)) (<[Z.to_nat index := part]> (mbr_partitions (g_mbr s))) (mbr_magic (g_mbr s))) s).
(** [SET_BOOTABLE] sets the first byte of the flags. *)
Definition create_partition (part : dpartition) (bootable type offset size : Z) : dpartition :=
  mkDp (dp_flags part - dp_flags part mod 256 + u8 bootable) type offset size.
Definition dpartition_bytes (p : dpartition) : list Z :=
  le_bytes 4 (dp_flags p) ++ le_bytes 4 (dp_type p) ++ le_bytes 4 (dp_offset p) ++ le_bytes 4 (dp_size p).
Definition mbr_bytes (m : mbr) : list Z := mbr_bootstrap m ++ concat (map dpartition_bytes (mbr_partitions m)) ++ mbr_magic m.
Definition sb_bytes (b : superblock) : list Z :=
  le_bytes 4 (sb_size b) ++ le_bytes 4 (sb_nblocks b) ++ le_bytes 4 (sb_ninodes b) ++ le_bytes 4 (sb_nlog b) ++
  le_bytes 4 (sb_logstart b) ++ le_bytes 4 (sb_inodestart b) ++ le_bytes 4 (sb_bmapstart b).

Section Host.
(** The files of the build machine. *)
Variable host : list Z -> option (list Z).

(** [while((cc = read(fd, buf, sizeof(buf))) > 0)]; the tail of [buf] keeps what it had. *)
Fixpoint write_kernel (fuel : nat) (rest buf : list Z) (i : Z) : M mk Z :=
  match rest with
  | [] => ret i
  | _ =>
      match fuel with
      | O => nofuel
      | S fuel' =>
          let buf := bsplice 0 (take BSIZEn rest) buf in
          wsect i buf ;;;
          write_kernel fuel' (drop BSIZEn rest) buf (i + 1)
      end
  end.
Definition create_bootload_kernel (bl kern : list Z) (buf : list Z) : M mk Z :=
  match host bl with
  | None => ret (-1)
  | Some bytes =>
      match host kern with
      | None => ret (-1)
      | Some kbytes =>
          modify (fun s => set_mbr (mkMbr (bsplice 0 (take (Z.to_nat BOOTSTRAP) bytes) (mbr_bootstrap (g_mbr s)))
            (mbr_partitions (g_mbr s)) (mbr_magic (g_mbr s))) s) ;;;
          write_kernel (length kbytes) kbytes buf 1
      end
  end.

Fixpoint append_file (fuel : nat) (inum : Z) (rest : list Z) : M mk unit :=
  match rest with
  | [] => ret tt
  | _ =>
      match fuel with
      | O => nofuel
      | S fuel' => iappend inum (take BSIZEn rest) ;;; append_file fuel' inum (drop BSIZEn rest)
      end
  end.
Definition file_name (arg : list Z) : list Z := match arg with c :: l => if c =? 95 then l else arg | [] => arg end.
Definition root_handler (rootino : Z) (argv : list (list Z)) : M mk unit :=
  for_each (length argv - 2) 2 (fun i =>
    arg <- of_option "argv" (argv !! Z.to_nat i) ;;
    assert (negb (existsb (Z.eqb SLASH) arg)) ;;;
    match host arg with
    | None => exit1
    | Some bytes =>
        inum <- ialloc T_FILE ;;
        iappend rootino (dirent_bytes (mkDe (xshort inum) (name_field (file_name arg)))) ;;;
        append_file (length bytes) inum bytes
    end).

Definition init_partition (part : dpartition) (root_writer : option (Z -> M mk unit)) : M mk Z :=
  let offset := dp_offset part in
  for_each (Z.to_nat (dp_size part)) offset (fun i => wsect i zero_blk) ;;;
  let nmeta := 1 + nlog + ninodeblocks + nbitmap in
  let nblocks := s32 (dp_size part - nmeta) in
  modify (set_counts nmeta nblocks) ;;;
  modify (set_sb (mkSb (xint (dp_size part)) (xint nblocks) (xint NINODES) (xint nlog) (xint (offset + 1))
                       (xint (offset + 1 + nlog)) (xint (offset + 1 + nlog + ninodeblocks)))) ;;;
  modify (set_freeblock (u32 (offset + nmeta))) ;;;
  modify (set_freeinode 1) ;;;
  rootino <- ialloc T_DIR ;;
  assert (rootino =? ROOTINO) ;;;
  iappend rootino (dirent_bytes (mkDe (xshort rootino) (name_field [46]))) ;;;
  iappend rootino (dirent_bytes (mkDe (xshort rootino) (name_field [46; 46]))) ;;;
  (match root_writer with Some w => w rootino | None => ret tt end) ;;;
  din <- rinode rootino ;;
  let off := (xint (di_size din) / BSIZE + 1) * BSIZE in
  winode rootino (set_size (xint off) din) ;;;
  fb <- gets g_freeblock ;;
  balloc (s32 (fb - (offset + nmeta))) ;;;
  modify (fun s => let b := g_sb s in
    set_sb (mkSb (sb_size b) (sb_nblocks b) (sb_ninodes b) (sb_nlog b) (u32 (sb_logstart b - offset))
                 (u32 (sb_inodestart b - offset)) (u32 (sb_bmapstart b - offset))) s) ;;;
  sb <- gets g_sb ;;
  wsect offset (bsplice 0 (sb_bytes sb) zero_blk) ;;;
  ret rootino.

Definition BOOTBLOCK : list Z := [98; 111; 111; 116; 98; 108; 111; 99; 107].
Definition KERNEL : list Z := [107; 101; 114; 110; 101; 108].

(** [main]; [buf] and [part] are what the stack holds. *)
Definition main (argv : list (list Z)) (buf : list Z) (part : dpartition) : M mk unit :=
  if Z.of_nat (length argv) <? 2 then exit1 else
  for_each (Z.to_nat FSSIZE) 0 (fun i => wsect i zero_blk) ;;;
  initialize_mbr ;;;
  sb_off <- create_bootload_kernel BOOTBLOCK KERNEL buf ;;
  if sb_off <? 1 then exit1 else
  let part := create_partition part PART_BOOTABLE FS_INODE sb_off (xint FSSIZE) in
  add_partition part 0 ;;;
  init_partition part (Some (fun r => root_handler r argv)) ;;;
  for_each (Z.to_nat (NPARTITIONS - 1)) 1 (fun i =>
    ps <- gets (fun s => mbr_partitions (g_mbr s)) ;;
    prev <- of_option "mbr.partitions" (ps !! Z.to_nat (i - 1)) ;;
    let part := create_partition part PART_BOOTABLE FS_INODE (u32 (dp_offset prev + dp_size prev)) (xint FSSIZE) in
    add_partition part i ;;;
    init_partition part (Some (fun r => root_handler r argv)) ;;; ret tt) ;;;
  m <- gets g_mbr ;;
  wsect 0 (bsplice 0 (mbr_bytes m) zero_blk).
End Host.
