(* ===== verification/Txn.v ===== *)
(** * Concurrent system calls over one log: begin_op, log_write, end_op

    The file system calls that run at the same time share one transaction.  [sys] is the state of the block
    layer with, for every call in progress, the number of blocks it may still log; [step] interleaves the calls of [begin_op],
    [log_write] and [end_op], which run under [log.lock], with reads, writes, releases and changes of buffers.
    [end_op] with its commit is one step: while it runs, [begin_op] sleeps and no other call is in progress. *)

From S2P Require Import Mkfs Prelude Buf Ide Bio Log BlockRuns.

Section Txn.
Context {D : Type} `{BD : BlockDevice D}.
Abbreviation st := (bst D).

Record sys := mkSys { sys_st : st; sys_ops : list nat }.
Definition logged (s : st) : Z := lh_n (log_lh (st_log s)).

Inductive step : sys -> sys -> Prop :=
| step_begin s s' ops :
    begin_op s = Done tt s' ->
    step (mkSys s ops) (mkSys s' (Z.to_nat MAXOPBLOCKS :: ops))
| step_write s s' b ops1 r ops2 :
    log_write b s = Done tt s' -> logged s' - logged s <= Z.of_nat r ->
    step (mkSys s (ops1 ++ r :: ops2)) (mkSys s' (ops1 ++ (r - Z.to_nat (logged s' - logged s))%nat :: ops2))
| step_end s s' ops1 r ops2 :
    end_op s = Done tt s' ->
    step (mkSys s (ops1 ++ r :: ops2)) (mkSys s' (ops1 ++ ops2))
| step_bread s s' dev bn i ops : bread dev bn s = Done i s' -> step (mkSys s ops) (mkSys s' ops)
| step_bwrite s s' i ops : bwrite i s = Done tt s' -> step (mkSys s ops) (mkSys s' ops)
| step_brelse s s' i ops : brelse i s = Done tt s' -> step (mkSys s ops) (mkSys s' ops)
| step_data s s' i x ops : put_data i x s = Done tt s' -> step (mkSys s ops) (mkSys s' ops).

(** ** What the routines do to the log *)

Lemma same_log_iderw i : moves (@same_log D) (iderw i).
Proof. apply iderw_log. Qed.
Hint Resolve same_log_iderw : moves.
Lemma same_log_scan f g fuel p : moves (@same_log D) (scan f g fuel p).
Proof. revert p. induction fuel as [|fuel IH]; intros p; cbn [scan]; moves. Qed.
Hint Resolve same_log_scan : moves.
Lemma same_log_bread dev bn : moves (@same_log D) (bread dev bn).
Proof. unfold bread, bget. moves. Qed.
Lemma same_log_bwrite i : moves (@same_log D) (bwrite i).
Proof. unfold bwrite. moves. by apply moves_modify. Qed.
Lemma same_log_brelse i : moves (@same_log D) (brelse i).
Proof. unfold brelse. moves. Qed.
Lemma same_log_get i : moves (@same_log D) (get_data i).
Proof. unfold get_data. moves. Qed.
Lemma same_log_put i x : moves (@same_log D) (put_data i x).
Proof. unfold put_data. moves. Qed.
Lemma same_log_get_block i : moves (@same_log D) (get_block i).
Proof. unfold get_block, get_log. moves. Qed.
Hint Resolve same_log_bread same_log_bwrite same_log_brelse same_log_get same_log_put same_log_get_block : moves.
Lemma same_log_write_head : moves (@same_log D) write_head.
Proof. unfold write_head, get_log. moves. Qed.
Lemma same_log_write_log : moves (@same_log D) write_log.
Proof. unfold write_log, log_one, get_log. moves. Qed.
Lemma same_log_install : moves (@same_log D) install_trans.
Proof. unfold install_trans, install_one, get_log. moves. Qed.

Lemma set_lh_n_id l : set_lh_n (lh_n (log_lh l)) l = l.
Proof. by destruct l as [? ? ? ? ? []]. Qed.

Lemma commit_log s r s' : 0 <= logged s -> commit s = Done r s' -> st_log s' = set_lh_n 0 (st_log s).
Proof.
  intros Hn. unfold commit. intros (l & t & [= <- <-] & E)%bind_done. destruct (Z.gtb_spec (lh_n (log_lh (st_log s))) 0).
  - apply bind_done in E as (? & s1 & E1%same_log_write_log & E). apply bind_done in E as (? & s2 & E2%same_log_write_head & E).
    apply bind_done in E as (? & s3 & E3%same_log_install & E). apply bind_done in E as (? & s4 & [= _ <-] & E%same_log_write_head).
    unfold same_log in *. rewrite E. simpl. congruence.
  - injection E as _ <-. unfold logged in Hn. rewrite <- (set_lh_n_id (st_log s)) at 1. f_equal. lia.
Qed.

Lemma end_op_log s r s' : 0 <= logged s -> end_op s = Done r s' ->
  log_committing (st_log s) = 0 /\
  st_log s' = if log_outstanding (st_log s) =? 1 then set_lh_n 0 (set_outstanding 0 (st_log s))
              else set_outstanding (log_outstanding (st_log s) - 1) (st_log s).
Proof.
  intros Hn. unfold end_op. intros (l & t & [= <- <-] & E)%bind_done. apply bind_done in E as (? & s1 & [= _ <-] & E).
  destruct (Z.eqb_spec (log_committing (st_log s)) 0) as [Hc|]; [|done]. cbn [negb] in E. split; [done|].
  destruct (Z.eqb_spec (log_outstanding (st_log s)) 1) as [Ho|Ho].
  - rewrite Ho in E. simpl in E. apply bind_done in E as (? & s2 & [= _ <-] & E). apply bind_done in E as (? & s3 & E%commit_log & [= _ <-]); [|done].
    simpl in *. rewrite E. unfold set_committing, set_lh_n, set_lh, set_outstanding. simpl. by rewrite Hc.
  - rewrite (proj2 (Z.eqb_neq _ 0)) in E by lia. by injection E as _ <-.
Qed.

Lemma begin_op_log s r s' : begin_op s = Done r s' ->
  log_committing (st_log s) = 0 /\ logged s + (log_outstanding (st_log s) + 1) * MAXOPBLOCKS <= LOGSIZE /\
  st_log s' = set_outstanding (log_outstanding (st_log s) + 1) (st_log s).
Proof.
  rewrite begin_op_admits. destruct (Z.eqb_spec (log_committing (st_log s)) 0); [|done]. simpl.
  destruct (Z.leb_spec (lh_n (log_lh (st_log s)) + (log_outstanding (st_log s) + 1) * MAXOPBLOCKS) LOGSIZE); [|done]. by intros [= _ <-].
Qed.

(** The log with other blocks in it. *)
Definition relisted (l l' : log) (n' : Z) : Prop :=
  exists h, l' = set_lh h l /\ lh_n h = n' /\ length (lh_block h) = length (lh_block (log_lh l)).

Lemma set_block_log i v s r s' : set_block i v s = Done r s' ->
  st_log s' = set_lh (mkLh (logged s) (<[Z.to_nat i := v]> (lh_block (log_lh (st_log s))))) (st_log s).
Proof. unfold set_block. intros (? & t & E%same_log_get_block & [= _ <-])%bind_done. simpl. unfold logged. by rewrite E. Qed.

Lemma log_write_log b s r s' : log_write b s = Done r s' ->
  relisted (st_log s) (st_log s') (logged s) \/ relisted (st_log s) (st_log s') (logged s + 1).
Proof.
  unfold log_write. intros (l & t & [= <- <-] & E)%bind_done. destruct (_ || _); [done|]. destruct (_ <? 1); [done|].
  apply bind_done in E as (bb & s1 & E1%(moves_getb (@same_log D)) & E). apply bind_done in E as (o & s2 & E2 & E).
  assert (same_log s1 s2) as E2' by (revert E2; apply moves_for; [apply _|intros ?; moves]). unfold same_log in *. rewrite E1 in E2'. cbv zeta in E.
  apply bind_done in E as (? & s3 & E3%set_block_log & E). apply bind_done in E as (? & s4 & E4 & E%same_log_updb).
  unfold same_log in E. rewrite E. unfold logged in *. rewrite E2' in E3. destruct (_ =? _); injection E4 as _ <-; [right|left]; simpl; rewrite E3;
    eexists; (split; [done|]); (split; [done|]); simpl; by rewrite length_insert.
Qed.

(** ** The reservations *)

(** Every call in progress keeps room for the blocks it has not logged yet. *)
Record reserved (size : Z) (x : sys) : Prop := {
  rs_size : log_size (st_log (sys_st x)) = size;
  rs_count : log_outstanding (st_log (sys_st x)) = Z.of_nat (length (sys_ops x));
  rs_n : 0 <= logged (sys_st x);
  rs_len : length (lh_block (log_lh (st_log (sys_st x)))) = Z.to_nat LOGSIZE;
  rs_room : logged (sys_st x) + Z.of_nat (sum_list (sys_ops x)) <= LOGSIZE;
  rs_ops : Forall (fun r => r <= Z.to_nat MAXOPBLOCKS)%nat (sys_ops x)
}.

Lemma sum_list_split (l1 l2 : list nat) r :
  sum_list (l1 ++ r :: l2) = (r + sum_list (l1 ++ l2))%nat.
Proof. rewrite !sum_list_with_app with (f := id). simpl. lia. Qed.

Lemma sum_list_bound (l : list nat) b :
  Forall (fun r => r <= b)%nat l -> (sum_list l <= length l * b)%nat.
Proof. induction 1; simpl in *; lia. Qed.

Lemma reserved_log size s s' ops : reserved size (mkSys s ops) -> same_log s s' -> reserved size (mkSys s' ops).
Proof. unfold same_log. intros [Hz Hc Hn Hl Hr Ho] E. unfold logged in *. constructor; simpl in *; unfold logged in *; rewrite ?E; done. Qed.

Lemma step_reserved size x y : reserved size x -> step x y -> reserved size y.
Proof.
  intros [Hz Hc Hn Hl Hr Ho] Hs. destruct Hs as [s s' ops E|s s' b o1 r o2 E Hd|s s' o1 r o2 E|s s' dev bn i ops E|s s' i ops E|s s' i ops E|s s' i x ops E]; simpl in *.
  - apply begin_op_log in E as (_ & Hg & El). apply sum_list_bound in Ho as Hb. unfold logged in *.
    constructor; simpl; unfold logged; rewrite ?El; simpl; try done; try (unfold MAXOPBLOCKS in *; lia). by constructor.
  - rewrite sum_list_split in Hr. rewrite Forall_app, Forall_cons in Ho. destruct Ho as (Ho1 & Ho2 & Ho3).
    assert (exists n', relisted (st_log s) (st_log s') n' /\ (n' = logged s \/ n' = logged s + 1)) as (n' & (h & El & En & Eh) & Hn').
    { apply log_write_log in E as [E|E]; eauto. }
    assert (logged s' = n') as En' by (unfold logged; rewrite El; exact En).
    constructor; simpl; rewrite ?En', ?sum_list_split, ?El in *; simpl; rewrite ?length_app in *; simpl in *; try done; try lia.
    apply Forall_app. split; [done|]. constructor; [lia|done].
  - apply end_op_log in E as [_ El]; [|done]. rewrite sum_list_split in Hr. rewrite Forall_app, Forall_cons in Ho.
    rewrite length_app in Hc. simpl in Hc. unfold logged in *.
    destruct (Z.eqb_spec (log_outstanding (st_log s)) 1); constructor; simpl; unfold logged; rewrite ?El; simpl; try done; rewrite ?length_app; try lia;
      apply Forall_app; tauto.
  - apply (reserved_log size s); [by constructor|]. by apply same_log_bread in E.
  - apply (reserved_log size s); [by constructor|]. by apply same_log_bwrite in E.
  - apply (reserved_log size s); [by constructor|]. by apply same_log_brelse in E.
  - apply (reserved_log size s); [by constructor|]. by apply same_log_put in E.
Qed.

Lemma reserved_reach size x y : rtc step x y -> reserved size x -> reserved size y.
Proof. induction 1; eauto using step_reserved. Qed.

(** ** Booting *)

Lemma relisted_refl l : relisted l l (lh_n (log_lh l)).
Proof. exists (log_lh l). by destruct l. Qed.

(** Only [log.lh] changes. *)
Definition other_blocks (s s' : st) : Prop := exists n, relisted (st_log s) (st_log s') n.
#[local] Instance other_blocks_preorder : PreOrder other_blocks.
Proof.
  split; [intros s; eexists; apply relisted_refl|].
  intros s1 s2 s3 (n2 & h2 & E2 & _ & L2) (n3 & h3 & E3 & Hn & L3). exists n3, h3. rewrite E3, L3, E2 in *. done.
Qed.
Lemma other_same {A} (m : M st A) : moves same_log m -> moves other_blocks m.
Proof. intros Hm s r s' E%Hm. unfold same_log in E. unfold other_blocks. rewrite E. eexists. apply relisted_refl. Qed.
Lemma other_set_block i v : moves other_blocks (set_block i v).
Proof. intros s r s' E%set_block_log. eexists _, _. split; [exact E|]. split; [done|]. simpl. by rewrite length_insert. Qed.
Lemma read_head_other : moves other_blocks read_head.
Proof.
  unfold read_head, get_log, upd_log. pose proof other_set_block.
  moves; try (apply other_same; auto with moves; fail). apply moves_modify. intros s. eexists _, _. by split.
Qed.

Lemma reboot_log start size dev drv r s : reboot start size dev (powered_on drv) = Done r s ->
  reserved (s32 size) (mkSys s []).
Proof.
  unfold reboot, powered_on. intros (? & t & E & E2)%bind_done. rewrite binit_run in E. injection E as _ <-.
  unfold initlog_with in E2. change (4 + 4 * LOGSIZE >=? BSIZE) with false in E2. cbv iota in E2.
  apply bind_done in E2 as (? & s1 & [= _ <-] & E). unfold recover_from_log in E.
  apply bind_done in E as (? & s2 & (n & h & E2 & _ & L2)%read_head_other & E). apply bind_done in E as (? & s3 & E3%same_log_install & E).
  apply bind_done in E as (? & s4 & [= _ <-] & E4%same_log_write_head). unfold same_log in *. simpl in *. rewrite E3, E2 in E4.
  constructor; simpl; unfold logged; rewrite ?E4; simpl; try done. 
Qed.

Lemma wp_log_write_room (s : st) b x :
  buf_at s b x -> 1 <= log_outstanding (st_log s) -> 0 <= logged s < LOGSIZE -> logged s < log_size (st_log s) - 1 ->
  length (lh_block (log_lh (st_log s))) = Z.to_nat LOGSIZE ->
  wp (log_write b) (fun _ s' => logged s' <= logged s + 1) s.
Proof.
  intros Hb Ho Hn Hz Hl. unfold logged in Hn, Hz.
  enough (wp (log_write b) (fun _ _ => True) s) as (r & s' & E & _)%wp_inv.
  { apply wp_inv. exists r, s'. split; [done|]. apply log_write_log in E as [(h & El & En & _)|(h & El & En & _)]; unfold logged in *; rewrite El; simpl; lia. }
  assert (forall i t, 0 <= i < LOGSIZE -> other_blocks s t -> exists v, lh_block (log_lh (st_log t)) !! Z.to_nat i = Some v) as Hi.
  { intros i t Hi (n & h & -> & _ & Eh). simpl. apply lookup_lt_is_Some_2. lia. }
  unfold log_write. apply wp_bind, wp_gets. destruct (Z.geb_spec (lh_n (log_lh (st_log s))) LOGSIZE); [lia|].
  destruct (Z.geb_spec (lh_n (log_lh (st_log s))) (log_size (st_log s) - 1)); [lia|]. simpl. destruct (Z.ltb_spec (log_outstanding (st_log s)) 1); [lia|].
  apply wp_bind. eapply wp_getb; [exact Hb|]. apply wp_bind.
  assert (forall i v, 0 <= i < LOGSIZE -> wp (set_block i v ;;;
    (if i =? lh_n (log_lh (st_log s)) then upd_log (set_lh_n (lh_n (log_lh (st_log s)) + 1)) else ret tt) ;;;
    updb b (fun b => set_flags (Z.lor (b_flags b) B_DIRTY) b)) (fun _ _ => True) s) as Hset.
  { intros i v Hii. destruct (Hi i s Hii) as [w Hw]; [reflexivity|]. apply wp_bind. unfold set_block. apply wp_bind. eapply wp_get_block; [lia|exact Hw|].
    apply wp_modify. apply wp_bind. destruct (_ =? _); [apply wp_modify|apply wp_ret]; eapply wp_updb; done. }
  apply (wp_for _ _ _ (fun _ t => t = s)); [done| |intros t ->; apply Hset; lia].
  intros i t Hii ->. destruct (Hi i s) as [w Hw]; [lia|reflexivity|]. apply wp_bind. eapply wp_get_block; [lia|exact Hw|].
  apply wp_ret. destruct (_ =? _); [apply Hset; lia|done].
Qed.

(** C19. With a log area of more than LOGSIZE blocks the reservations of [begin_op] are enough.  After [reboot], in every state that
    interleaved calls of [begin_op], [log_write], [end_op] and the buffer cache reach, when every system call logs at most
    MAXOPBLOCKS blocks, a call that may still log a block can: [log_write] of a buffer returns, it does not panic, and the
    transaction has at most one block more and still fits the log. *)
Theorem reservation_suffices start size dev drv (s0 : st) x r b y :
  reboot start size dev (powered_on drv) = Done tt s0 -> LOGSIZE < size < 2 ^ 31 ->
  rtc step (mkSys s0 []) x -> S r ∈ sys_ops x -> buf_at (sys_st x) b y ->
  wp (log_write b) (fun _ s' => logged s' <= logged (sys_st x) + 1 /\ logged s' <= LOGSIZE) (sys_st x).
Proof.
  intros H0%reboot_log Hz Hx Hr Hb. apply (reserved_reach _ _ _ Hx) in H0 as [Ez Ec En El Er _].
  rewrite s32_small in Ez by zlia. apply list_elem_of_split in Hr as (o1 & o2 & Eo). rewrite Eo in *.
  rewrite sum_list_split in Er. rewrite length_app in Ec. simpl in Ec.
  eapply wp_mono; [apply (wp_log_write_room _ b y); [done|lia..|done]|]. cbv beta. intros _ s' H. lia.
Qed.

(** ** The log area of mkfs *)

Fixpoint log_updates (dev : Z) (f : list Z -> list Z) (ns : list Z) : M st unit :=
  match ns with
  | [] => ret tt
  | n :: ns' => log_update dev n f ;;; log_updates dev f ns'
  end.

Lemma wp_log_updates f ns : (forall x, blk_ok (f x)) -> forall (s : st) v,
  let l := st_log s in
  cache_rep s (quiet v (home_keys l)) -> log_wf (st_drv s) l -> 1 <= log_outstanding l ->
  logged s + Z.of_nat (length ns) < log_size l <= LOGSIZE -> NoDup (homes l ++ ns) ->
  Forall (fun n => 0 <= n < 2 ^ 31 /\ ~ in_area l (log_dev l) n /\ drv_serves (st_drv s) (log_dev l) n) ns ->
  wp (log_updates (log_dev l) f ns) (fun _ s' => logged s' = logged s + Z.of_nat (length ns) /\ log_size (st_log s') = log_size l) s.
Proof.
  intros Hf. induction ns as [|n ns IH]; intros s v l Hr Hwf Ho Hz Hnd Hns; cbn [log_updates]; [apply wp_ret; simpl; split; [lia|done]|].
  apply Forall_cons in Hns as [(Hn & Ha & Hsv) Hns]. simpl in Hz. pose proof (wf_n _ _ Hwf). unfold logged in *. fold l in Hz |- *.
  apply wp_bind. eapply wp_mono; [apply (wp_log_update s v n f); try done; fold l; unfold NBUF, LOGSIZE, MAXOPBLOCKS in *; lia|].
  intros [] s' [Hr' (El & _ & Es & _)]. fold l in Hr', El.
  assert (n ∉ homes l) as Hni by (apply NoDup_app in Hnd as (_ & Hd & _); intros Hin; apply (Hd n Hin); left).
  pose proof (homes_noted _ l n Hwf ltac:(lia)) as Eh. rewrite decide_False in Eh by done.
  assert (log_wf (st_drv s') (st_log s')) as Hwf'.
  { rewrite El. apply (log_wf_serves (st_drv s)); [intros; by rewrite Es|]. apply noted_wf; try done; fold l; lia. }
  unfold noted in *. rewrite decide_False in * by done.
  change (log_dev l) with (log_dev (set_lh (mkLh (lh_n (log_lh l) + 1) (<[Z.to_nat (lh_n (log_lh l)) := n]> (lh_block (log_lh l)))) l)).
  rewrite <- El in *. eapply wp_mono; [apply (IH s' _ Hr' Hwf')|]; rewrite ?El; simpl.
  - done.
  - lia.
  - rewrite El in Eh. rewrite Eh, <- app_assoc. done.
  - eapply Forall_impl; [exact Hns|]. intros m (H1 & H2 & H3). split_and!; [lia|lia|exact H2|by apply Es].
  - intros _ s2 [E1 E2]. split; [lia|done].
Qed.

(** C26. The log area mkfs makes has [nlog] = LOGSIZE blocks, one of them the header: it is one block smaller than what
    [begin_op] hands out.  On a disk with such an area, boot, let three system calls begin, and let them change any 29 distinct blocks
    outside the area: every call returns, and the calls have logged one block less than the 3*MAXOPBLOCKS they may log,
    but the next [log_write] panics. *)
Theorem mkfs_log_overflows drv l f ns :
  log_wf drv l -> log_size l = nlog -> drv_idle drv -> head_empty l (platter drv) ->
  NoDup ns -> Z.of_nat (length ns) + 1 = 3 * MAXOPBLOCKS -> (forall x, blk_ok (f x)) ->
  Forall (fun n => 0 <= n < 2 ^ 31 /\ ~ in_area l (log_dev l) n /\ drv_serves drv (log_dev l) n) ns ->
  wp (reboot (log_start l) nlog (log_dev l) ;;; begin_op ;;; begin_op ;;; begin_op ;;; log_updates (log_dev l) f ns)
     (fun _ s => forall b, panics (log_write b) "too big a transaction" s) (powered_on drv).
Proof.
  intros Hwf Hz Hid He Hnd Hlen Hf Hns. rewrite <- Hz. apply wp_bind. eapply wp_mono.
  { apply (reboot_yields drv l (platter drv) Hwf Hid). right. by split. }
  intros [] t (_ & _ & Hr & Hop & Hsv). pose proof Hop as ((Ed & Est & Esz & _) & Eo & Ec & En).
  set (l3 := set_outstanding 3 (st_log t)).
  enough (wp (log_updates (log_dev l) f ns) (fun _ s => forall b, panics (log_write b) "too big a transaction" s) (with_log l3 t)) as H.
  { do 3 (apply wp_bind; unfold wp at 1; rewrite begin_op_admits; cbn [st_log with_log set_outstanding log_committing log_lh log_outstanding];
      rewrite ?Eo, Ec, En; cbn -[wp log_updates]). exact H. }
  assert (homes l3 = []) as Eh by (unfold homes; simpl; by rewrite En).
  rewrite <- Ed. change (log_dev (st_log t)) with (log_dev (st_log (with_log l3 t))).
  eapply wp_mono; [apply (wp_log_updates f ns Hf (with_log l3 t) (platter (st_drv t)))|]; unfold logged; cbn [st_log with_log st_drv];
    rewrite ?Eh; simpl; rewrite ?En, ?Esz, ?Hz; try done; try (unfold nlog, LOGSIZE in *; lia).
  - unfold home_keys. rewrite Eh. by apply cache_rep_log.
  - apply (log_wf_flags _ (st_log t) 3 (log_committing (st_log t))). apply (log_open_wf _ l); [|done]. by apply (log_wf_serves drv).
  - eapply Forall_impl; [exact Hns|]. intros n (H1 & H2 & H3). split_and!; [lia|lia|..].
    + unfold in_area in *. simpl. by rewrite Ed, Est, Esz.
    + apply Hsv. by rewrite Ed.
  - intros [] s [E1 E2] b. unfold panics, log_write, bind, get_log, gets.
    destruct (Z.geb_spec (lh_n (log_lh (st_log s))) (log_size (st_log s) - 1)); [by rewrite orb_true_r|]. unfold nlog, LOGSIZE in *. lia.
Qed.
End Txn.

(** ** Runs on the memory disk *)

Definition area64 (size : Z) : log := mkLog 2 size 0 0 1 (mkLh 0 (replicate (Z.to_nat LOGSIZE) 0)).

Lemma area64_wf size : 0 < size <= 62 -> log_wf disk64 (area64 size).
Proof.
  intros Hs. constructor; simpl; unfold LOGSIZE, MAXOPBLOCKS; try lia; try done; [|constructor].
  intros j Hj. apply serves64. lia.
Qed.
Lemma area64_empty size : head_empty (area64 size) (platter disk64).
Proof. unfold head_empty. rewrite disk64_platter. by vm_compute. Qed.

Lemma reservation_suffices_witness : exists s0 x y,
  reboot 2 31 1 (powered_on disk64) = Done tt s0 /\ rtc step (mkSys s0 []) x /\ sys_ops x = [10%nat] /\ buf_at (sys_st x) 0 y /\
  wp (log_write 0) (fun _ s' => logged s' <= logged (sys_st x) + 1 /\ logged s' <= LOGSIZE) (sys_st x).
Proof.
  destruct (proj1 (wp_inv _ _ _) (reboot_yields disk64 (area64 31) (platter disk64) (area64_wf 31 ltac:(lia)) disk64_idle
    (or_intror (conj (area64_empty 31) (fun _ _ _ => eq_refl))))) as ([] & s0 & E & _ & _ & [[q Hq] _] & (_ & Eo & Ec & En) & _).
  set (s1 := with_log (set_outstanding 1 (st_log s0)) s0).
  assert (rtc step (mkSys s0 []) (mkSys s1 [10%nat])) as Hx.
  { apply rtc_once. apply (step_begin s0 s1 []). rewrite begin_op_admits, Eo, Ec, En. done. }
  destruct (ring_at s1 q 0 Hq) as [y Hy]; [unfold NBUF, MAXOPBLOCKS; lia|].
  exists s0, (mkSys s1 [10%nat]), y. split; [exact E|]. split; [exact Hx|]. split; [reflexivity|]. split; [exact Hy|].
  refine (reservation_suffices 2 31 1 disk64 s0 (mkSys s1 [10%nat]) 9 0 y E _ Hx _ Hy); [unfold LOGSIZE, MAXOPBLOCKS; lia|left].
Defined.

Lemma mkfs_log_overflows_witness :
  wp (reboot 2 nlog 1 ;;; begin_op ;;; begin_op ;;; begin_op ;;; log_updates 1 (fun _ => zero_blk) (seqZ 32 29))
     (fun _ s => forall b, panics (log_write b) "too big a transaction" s) (powered_on disk64).
Proof.
  apply (mkfs_log_overflows disk64 (area64 30) (fun _ => zero_blk) (seqZ 32 29)).
  - apply area64_wf. lia.
  - reflexivity.
  - exact disk64_idle.
  - apply area64_empty.
  - apply NoDup_seqZ.
  - reflexivity.
  - intros _. apply zero_blk_ok.
  - apply Forall_forall. intros n Hn%elem_of_seqZ. split_and!; [lia|lia|unfold in_area; simpl; lia|apply serves64; lia].
Defined.
