(* ===== verification/MkfsFile.v ===== *)
(** * Building one file: [append_block] and [iappend] of mkfs.c

    The block map mkfs writes is read with the kernel's definitions ([iaddr], [file_bytes] of FileData.v).
    Blocks are handed out in order, and a file of [n] bytes takes [nblk n] of them. *)

From S2P Require Import Prelude Buf Bio Log Blocks Fs Balloc Inode FileData Mkfs.

(** ** Sectors *)

Definition view (s : mk) (n : Z) : list Z := default zero_blk (g_img s !! n).

Lemma xint_id x : 0 <= x < 2 ^ 32 -> xint x = x.
Proof. intros Hx. unfold xint, le_val, u8. rewrite !Z.shiftr_div_pow2 by lia. change (2 ^ 16) with 65536. change (2 ^ 24) with 16777216. zlia. Qed.
Lemma xshort_id x : 0 <= x < 2 ^ 16 -> xshort x = x.
Proof. intros Hx. unfold xshort, le_val, u8. rewrite !Z.shiftr_div_pow2 by lia. zlia. Qed.
Lemma sector_id n : 0 <= n < 2 ^ 23 -> sector n = n.
Proof. intros Hn. unfold sector, BSIZE. rewrite u32_small by lia. by rewrite Z.div_mul. Qed.

(** The state after a run: the image [v'], the next free block, and everything else as it was. *)
Record evolves (s s' : mk) (v' : Z -> list Z) (fb' : Z) : Prop := {
  ev_view : forall n, view s' n = v' n;
  ev_fb : g_freeblock s' = fb';
  ev_len : g_len s <= g_len s';
  ev_sb : g_sb s' = g_sb s;
  ev_ino : g_freeinode s' = g_freeinode s;
  ev_mbr : g_mbr s' = g_mbr s
}.
Definition put (n : Z) (x : list Z) (v : Z -> list Z) : Z -> list Z := fun m => if decide (m = n) then x else v m.

Lemma evolves_refl s : evolves s s (view s) (g_freeblock s).
Proof. by split. Qed.
Lemma evolves_trans s1 s2 s3 v2 v3 fb2 fb3 : evolves s1 s2 v2 fb2 -> evolves s2 s3 v3 fb3 -> evolves s1 s3 v3 fb3.
Proof. intros [A1 A2 A3 A4 A5 A6] [B1 B2 B3 B4 B5 B6]. split; try congruence. lia. Qed.
Lemma evolves_ext s s' v v' fb : (forall n, v n = v' n) -> evolves s s' v fb -> evolves s s' v' fb.
Proof. intros E [A1 A2 A3 A4 A5 A6]. split; try done. intros n. by rewrite A1. Qed.

Lemma wp_wsect s0 s v fb n x (Q : unit -> mk -> Prop) : evolves s0 s v fb -> 0 <= n < 2 ^ 23 ->
  (forall s', evolves s0 s' (put n x v) fb -> Q tt s') -> wp (wsect n x) Q s.
Proof.
  intros [A1 A2 A3 A4 A5 A6] Hn HQ. unfold wsect. rewrite sector_id by done. apply wp_modify, HQ. split; simpl; try done; [|lia].
  intros m. unfold view, put. simpl. case_decide; [subst; by rewrite lookup_insert_eq|]. rewrite lookup_insert_ne by done. apply A1.
Qed.
Lemma wp_rsect s0 s v fb n (Q : list Z -> mk -> Prop) : evolves s0 s v fb -> 0 <= n < 2 ^ 23 -> n < g_len s0 ->
  Q (v n) s -> wp (rsect n) Q s.
Proof.
  intros [A1 A2 A3 A4 A5 A6] Hn Hl HQ. unfold wp, rsect. rewrite sector_id by done. destruct (Z.ltb_spec n (g_len s)); [|lia].
  specialize (A1 n). unfold view in A1. by rewrite A1.
Qed.
Lemma wp_next s0 s v fb (Q : Z -> mk -> Prop) : evolves s0 s v fb -> 0 <= fb < 2 ^ 23 ->
  (forall s', evolves s0 s' v (fb + 1) -> Q fb s') -> wp next_block Q s.
Proof.
  intros [A1 A2 A3 A4 A5 A6] Hn HQ. unfold next_block. wp_steps. rewrite A2. apply HQ. split; simpl; try done.
  apply u32_small. lia.
Qed.
Lemma put_same n x v : put n x v n = x.
Proof. unfold put. by rewrite decide_True. Qed.
Lemma put_ne n x v m : m <> n -> put n x v m = v m.
Proof. intros. unfold put. by rewrite decide_False. Qed.

(** ** The block map *)

Lemma iaddr_direct v v' d fbn b i : length (di_addrs d) = 13%nat -> 0 <= fbn < NDIRECT -> 0 <= i < MAXFILE ->
  (ind_of d <> 0 -> v' (ind_of d) = v (ind_of d)) ->
  ind_of (set_addr fbn b d) = ind_of d /\ iaddr v' (set_addr fbn b d) i = if decide (i = fbn) then b else iaddr v d i.
Proof.
  intros Hl Hf Hi Hv. unfold NDIRECT in *.
  assert (ind_of (set_addr fbn b d) = ind_of d) as Ei by (unfold ind_of, NDIRECT; rewrite addr_set by lia; by rewrite decide_False by lia).
  split; [done|]. rewrite (iaddr_ext v) by (by rewrite Ei). unfold iaddr. rewrite Ei, addr_set by lia.
  unfold NDIRECT. case_decide; [|done]. subst. by destruct (Z.ltb_spec fbn 12); [|lia].
Qed.
Lemma iaddr_ind v v' d b i : length (di_addrs d) = 13%nat -> 0 <= i < MAXFILE -> ind_of d = 0 -> b <> 0 -> v' b = zero_blk ->
  ind_of (set_addr NDIRECT b d) = b /\ iaddr v' (set_addr NDIRECT b d) i = iaddr v d i.
Proof.
  intros Hl Hi Hz Hb Hv.
  assert (ind_of (set_addr NDIRECT b d) = b) as Ei by (unfold ind_of, NDIRECT; rewrite addr_set by lia; by rewrite decide_True).
  split; [done|]. unfold iaddr. rewrite Ei, Hz, Z.eqb_refl. destruct (Z.ltb_spec i NDIRECT).
  - rewrite addr_set by (unfold NDIRECT in *; lia). by rewrite decide_False by lia.
  - destruct (Z.eqb_spec b 0); [lia|]. rewrite Hv. apply get32_zero.
Qed.
Lemma iaddr_entry v v' d fbn b i : NDIRECT <= fbn < MAXFILE -> 0 <= i < MAXFILE -> ind_of d <> 0 -> length (v (ind_of d)) = BSIZEn ->
  0 <= b < 2 ^ 32 -> v' (ind_of d) = put32 (Z.to_nat (4 * (fbn - NDIRECT))) b (v (ind_of d)) ->
  iaddr v' d i = if decide (i = fbn) then b else iaddr v d i.
Proof.
  intros Hf Hi Hn Hl Hb Hv. rewrite MAXFILE_val in *. unfold iaddr. destruct (Z.ltb_spec i NDIRECT); [by rewrite decide_False by lia|].
  destruct (Z.eqb_spec (ind_of d) 0); [done|]. rewrite Hv. unfold NDIRECT in *. case_decide as E.
  - subst. rewrite get_put32 by lia. apply u32_small. lia.
  - apply get32_put32_ne; lia.
Qed.

(** ** Files of a partition *)

(** The blocks of [n] bytes: data, and the indirect block. *)
Definition nblk (n : Z) : Z := (n + BSIZE - 1) / BSIZE + if NDIRECT * BSIZE <? n then 1 else 0.

Section Append.
(** The data blocks of the partition. *)
Variables base lim : Z.
Hypothesis Hbase : 0 < base.
Hypothesis Hlim : lim <= 2 ^ 23.

Definition taken_to (fb n : Z) : Prop := base <= n < fb.
(** Exactly the blocks of the first [off] bytes are mapped, all of them below [fb]. *)
Record tight v d off fb : Prop := {
  ti_wf : file_wf (taken_to fb) v d;
  ti_size : di_size d <= off <= MAXFILE * BSIZE;
  ti_map : forall i, 0 <= i < MAXFILE -> (iaddr v d i <> 0 <-> i * BSIZE < off);
  ti_ind : ind_of d <> 0 <-> NDIRECT * BSIZE < off
}.
Definition clean v fb : Prop := (forall n, blk_ok (v n)) /\ forall n, fb <= n < lim -> v n = zero_blk.
Definition same_meta d d' : Prop := di_type d' = di_type d /\ di_major d' = di_major d /\ di_minor d' = di_minor d /\
  di_nlink d' = di_nlink d /\ di_size d' = di_size d.

(** What [append_block] returns for the block at [off]. *)
Record slot v d off fb v' d' x fb' : Prop := {
  sl_wf : file_wf (taken_to fb') v' d';
  sl_meta : same_meta d d';
  sl_map : forall i, 0 <= i < MAXFILE -> iaddr v' d' i = if decide (i = off / BSIZE) then x else iaddr v d i;
  sl_x : taken_to fb' x;
  sl_old : iaddr v d (off / BSIZE) <> 0 -> x = iaddr v d (off / BSIZE);
  sl_new : iaddr v d (off / BSIZE) = 0 -> fb <= x;
  sl_view : forall n, n <> ind_of d' \/ ind_of d' = 0 -> v' n = v n;
  sl_ind : ind_of d' = ind_of d \/ ind_of d = 0 /\ fb <= ind_of d' < fb';
  sl_has : ind_of d' <> 0 <-> NDIRECT * BSIZE < off + 1;
  sl_fb : fb' = fb + nblk (off + 1) - nblk off;
  sl_clean : clean v' fb'
}.

Section Slot.
Context v d off fb (Ht : tight v d off fb) (Hc : clean v fb) (Hoff : off < MAXFILE * BSIZE) (Hfb : base <= fb).
Abbreviation fbn := (off / BSIZE).

Lemma tight_off : 0 <= off /\ 0 <= fbn < MAXFILE /\ off = BSIZE * fbn + off mod BSIZE /\ 0 <= off mod BSIZE < BSIZE.
Proof using Ht Hoff.
  pose proof (ti_size _ _ _ _ Ht) as Hs. pose proof (fw_size _ _ _ (ti_wf _ _ _ _ Ht)) as Hd. rewrite MAXFILE_val in *. unfold BSIZE in *. zlia.
Qed.
Lemma unmapped : iaddr v d fbn = 0 -> off = fbn * BSIZE.
Proof using Ht Hoff.
  intros Hz. destruct tight_off as (H0 & H1 & H2 & H3). destruct (Z.ltb_spec (fbn * BSIZE) off) as [Hlt|Hge]; [|lia].
  by apply (ti_map _ _ _ _ Ht) in Hlt.
Qed.
Lemma fresh_fb : ~ taken_to fb fb.
Proof using. unfold taken_to. lia. Qed.
Lemma taken_next n : taken_to (fb + 1) n <-> taken_to fb n \/ n = fb.
Proof using Hfb. unfold taken_to. lia. Qed.
Lemma clean_next : clean v (fb + 1).
Proof using Hc. destruct Hc as [H1 H2]. split; [done|]. intros n Hn. apply H2. lia. Qed.
Lemma clean_put n x fb' : blk_ok x -> fb <= fb' -> n < fb' -> clean (put n x v) fb'.
Proof using Hc.
  destruct Hc as [H1 H2]. intros Hx Hf Hn. split; [intros m; unfold put; by case_decide|]. intros m Hm. rewrite put_ne by lia. apply H2. lia.
Qed.
Lemma ind_taken : ind_of d <> 0 -> taken_to fb (ind_of d).
Proof using Ht. apply (fw_indused _ _ _ (ti_wf _ _ _ _ Ht)). Qed.

(** The block is there. *)
Lemma slot_old : iaddr v d fbn <> 0 -> slot v d off fb v d (iaddr v d fbn) fb.
Proof using Ht Hc Hoff.
  intros Hn. destruct tight_off as (H0 & H1 & H2 & H3). pose proof (ti_wf _ _ _ _ Ht) as Hw.
  pose proof (proj1 (ti_map _ _ _ _ Ht _ H1) Hn) as Hlt. split; try done.
  - intros i Hi. case_decide; [by subst|done].
  - by apply (fw_used _ _ _ Hw).
  - by left.
  - rewrite (ti_ind _ _ _ _ Ht). unfold NDIRECT, BSIZE in *. lia.
  - unfold nblk, NDIRECT, BSIZE in *. destruct (Z.ltb_spec (12 * 512) off), (Z.ltb_spec (12 * 512) (off + 1)); zlia.
Qed.
(** A direct block. *)
Lemma slot_direct : fbn < NDIRECT -> iaddr v d fbn = 0 -> slot v d off fb v (set_addr fbn fb d) fb (fb + 1).
Proof using Ht Hc Hoff Hbase Hfb.
  intros Hd Hz. destruct tight_off as (H0 & H1 & H2 & H3). pose proof (ti_wf _ _ _ _ Ht) as Hw. pose proof (fw_len _ _ _ Hw) as Hl.
  pose proof (unmapped Hz) as Eo.
  assert (forall i, 0 <= i < MAXFILE -> ind_of (set_addr fbn fb d) = ind_of d /\
    iaddr v (set_addr fbn fb d) i = if decide (i = fbn) then fb else iaddr v d i) as Hm by (intros i Hi; apply iaddr_direct; [done|lia|done|done]).
  destruct (Hm fbn H1) as [Ei _]. split; try done.
  - eapply (grow_data (taken_to fb) _ v d v _ fbn fb); try done; [apply fresh_fb|apply taken_next|by rewrite set_addr_length|apply Hm].
  - intros i Hi. by apply Hm.
  - unfold taken_to. lia.
  - lia.
  - rewrite Ei, (ti_ind _ _ _ _ Ht). unfold NDIRECT, BSIZE in *. lia.
  - unfold nblk, NDIRECT, BSIZE in *. destruct (Z.ltb_spec (12 * 512) off), (Z.ltb_spec (12 * 512) (off + 1)); zlia.
  - apply clean_next.
Qed.
(** An entry of the indirect block. *)
Lemma slot_entry : NDIRECT <= fbn -> ind_of d <> 0 -> iaddr v d fbn = 0 -> fb < 2 ^ 23 ->
  slot v d off fb (put (ind_of d) (put32 (Z.to_nat (4 * (fbn - NDIRECT))) fb (v (ind_of d))) v) d fb (fb + 1).
Proof using Ht Hc Hoff Hbase Hfb.
  intros Hd Hi Hz H23. destruct tight_off as (H0 & H1 & H2 & H3). pose proof (ti_wf _ _ _ _ Ht) as Hw. pose proof (unmapped Hz) as Eo.
  set (v' := put _ _ v). destruct Hc as [Hb _]. destruct (Hb (ind_of d)) as [Hlen Hby].
  assert (forall i, 0 <= i < MAXFILE -> iaddr v' d i = if decide (i = fbn) then fb else iaddr v d i) as Hm.
  { intros i Hi'. apply iaddr_entry; try done; [lia|lia|by apply put_same]. }
  pose proof (ind_taken Hi) as Hit. unfold taken_to in Hit. split; try done.
  - eapply (grow_data (taken_to fb) _ v d v' d fbn fb); try done; [apply fresh_fb|apply taken_next|apply (fw_len _ _ _ Hw)].
  - unfold taken_to. lia.
  - intros n [Hn|Hn]; [by apply put_ne|done].
  - by left.
  - rewrite (ti_ind _ _ _ _ Ht). apply (ti_ind _ _ _ _ Ht) in Hi. unfold NDIRECT, BSIZE in *. lia.
  - apply (ti_ind _ _ _ _ Ht) in Hi. unfold nblk, NDIRECT, BSIZE in *. destruct (Z.ltb_spec (12 * 512) off), (Z.ltb_spec (12 * 512) (off + 1)); zlia.
  - apply clean_put; [|lia|lia]. rewrite MAXFILE_val in H1. unfold NDIRECT in *. split; [by rewrite put32_length; lia|].
    apply bytes_ok_splice; [apply le_bytes_ok|done].
Qed.
(** The first block behind the direct ones comes with the indirect block. *)
Lemma slot_ind : NDIRECT <= fbn -> ind_of d = 0 -> fb + 1 < lim ->
  slot v d off fb (put fb (put32 (Z.to_nat (4 * (fbn - NDIRECT))) (fb + 1) zero_blk) v) (set_addr NDIRECT fb d) (fb + 1) (fb + 2).
Proof using Ht Hc Hoff Hbase Hfb Hlim.
  intros Hd Hi Hl. destruct tight_off as (H0 & H1 & H2 & H3). pose proof (ti_wf _ _ _ _ Ht) as Hw. pose proof (fw_len _ _ _ Hw) as Hlen.
  assert (iaddr v d fbn = 0) as Hz by (unfold iaddr; destruct (Z.ltb_spec fbn NDIRECT); [lia|]; by rewrite Hi, Z.eqb_refl).
  pose proof (unmapped Hz) as Eo. assert (off <= NDIRECT * BSIZE) as Ho by (destruct (Z.ltb_spec (NDIRECT * BSIZE) off) as [Hlt|]; [by apply (ti_ind _ _ _ _ Ht) in Hlt|done]).
  destruct Hc as [Hb Hzero]. assert (v fb = zero_blk) as Hvz by (apply Hzero; lia).
  set (d1 := set_addr NDIRECT fb d). set (v' := put fb _ v).
  assert (forall i, 0 <= i < MAXFILE -> ind_of d1 = fb /\ iaddr v d1 i = iaddr v d i) as Hm1 by (intros i Hi'; apply iaddr_ind; try done; lia).
  destruct (Hm1 fbn H1) as [Ei _].
  assert (forall i, 0 <= i < MAXFILE -> iaddr v' d1 i = if decide (i = fbn) then fb + 1 else iaddr v d i) as Hm.
  { intros i Hi'. rewrite <- (proj2 (Hm1 i Hi')). rewrite MAXFILE_val in *. apply iaddr_entry; rewrite ?MAXFILE_val, ?Ei, ?Hvz; try done; [lia..|by apply put_same]. }
  assert (file_wf (taken_to (fb + 1)) v d1) as Hw1.
  { eapply (grow_ind (taken_to fb) _ v d v d1 fb); try done; [apply fresh_fb|lia|apply taken_next|by unfold d1; rewrite set_addr_length|intros i Hi'; by apply Hm1]. }
  split; try done.
  - eapply (grow_data (taken_to (fb + 1)) _ v d1 v' d1 fbn (fb + 1)); try done; [unfold taken_to; lia|by rewrite (proj2 (Hm1 _ H1))|unfold taken_to; lia|
      by unfold d1; rewrite set_addr_length|]. intros i Hi'. rewrite (proj2 (Hm1 _ Hi')). by apply Hm.
  - unfold taken_to. lia.
  - lia.
  - intros n [Hn|Hn]; [|rewrite Ei in Hn; lia]. apply put_ne. by rewrite <- Ei.
  - right. split; [done|]. rewrite Ei. lia.
  - rewrite Ei. unfold NDIRECT, BSIZE in *. lia.
  - unfold nblk, NDIRECT, BSIZE in *. destruct (Z.ltb_spec (12 * 512) off), (Z.ltb_spec (12 * 512) (off + 1)); zlia.
  - apply clean_put; [|lia|lia]. rewrite MAXFILE_val in H1. unfold NDIRECT in *. pose proof zero_blk_ok as [Hzl Hzb].
    split; [by rewrite put32_length; lia|]. apply bytes_ok_splice; [apply le_bytes_ok|done].
Qed.

Lemma addr_small n : n = 0 \/ taken_to fb n -> fb <= lim -> 0 <= n < 2 ^ 23 /\ xint n = n.
Proof using Hbase Hlim. unfold taken_to. intros Hn Hf. split; [lia|]. apply xint_id. lia. Qed.
Lemma iaddr_small i : 0 <= i < MAXFILE -> iaddr v d i = 0 \/ taken_to fb (iaddr v d i).
Proof using Ht. intros Hi. destruct (decide (iaddr v d i = 0)); [by left|right]. by apply (fw_used _ _ _ (ti_wf _ _ _ _ Ht)). Qed.
Lemma ind_small : ind_of d = 0 \/ taken_to fb (ind_of d).
Proof using Ht. destruct (decide (ind_of d = 0)); [by left|right]. by apply ind_taken. Qed.

Lemma wp_append_block s0 s : evolves s0 s v fb -> fb + nblk (off + 1) - nblk off <= lim -> lim <= g_len s0 ->
  wp (append_block d fbn) (fun r s' => exists v' fb', evolves s0 s' v' fb' /\ slot v d off fb v' r.1 r.2 fb') s.
Proof using Ht Hc Hoff Hbase Hfb Hlim.
  intros He Hroom Hlen. destruct tight_off as (H0 & H1 & H2 & H3). pose proof (fw_len _ _ _ (ti_wf _ _ _ _ Ht)) as Hl13.
  assert (fb <= lim) as Hfl by (unfold nblk in Hroom; repeat case_match; unfold BSIZE, NDIRECT in *; zlia).
  destruct (addr_small _ (iaddr_small _ H1) Hfl) as [Hxs Hxi]. destruct (addr_small _ ind_small Hfl) as [His Hii]. unfold append_block.
  destruct (Z.ltb_spec fbn NDIRECT) as [Hd|Hd].
  - assert (iaddr v d fbn = addr_at d fbn) as Ea by (unfold iaddr; by destruct (Z.ltb_spec fbn NDIRECT); [|lia]).
    rewrite Ea in *. rewrite Hxi. destruct (Z.eqb_spec (addr_at d fbn) 0) as [Hz|Hz].
    + rewrite <- Ea in Hz. pose proof (slot_direct Hd Hz) as Hs. rewrite <- (sl_fb _ _ _ _ _ _ _ _ Hs) in Hroom.
      wp_step. wp_step. eapply wp_next; [exact He|lia|]. intros s1 He1. wp_steps. rewrite addr_set, decide_True by (done || unfold NDIRECT in *; lia).
      rewrite !xint_id by (rewrite ?xint_id; lia). exists v, (fb + 1). done.
    + wp_steps. exists v, fb. split; [done|]. simpl. rewrite Hxi, <- Ea. apply slot_old. by rewrite Ea.
  - fold (ind_of d). rewrite Hii. destruct (Z.eqb_spec (ind_of d) 0) as [Hz|Hz].
    + assert (iaddr v d fbn = 0) as Hz' by (unfold iaddr; destruct (Z.ltb_spec fbn NDIRECT); [lia|]; by rewrite Hz, Z.eqb_refl).
      pose proof (unmapped Hz') as Eo. assert (fb + 2 <= lim) as Hl2.
      { assert (off <= NDIRECT * BSIZE) as Ho by (destruct (Z.ltb_spec (NDIRECT * BSIZE) off) as [Hlt|]; [by apply (ti_ind _ _ _ _ Ht) in Hlt|done]).
        unfold nblk, NDIRECT, BSIZE in *. destruct (Z.ltb_spec (12 * 512) off), (Z.ltb_spec (12 * 512) (off + 1)); zlia. }
      pose proof (slot_ind Hd Hz ltac:(lia)) as Hs. wp_step. wp_step. eapply wp_next; [exact He|lia|]. intros s1 He1. wp_steps.
      rewrite addr_set, decide_True by (done || unfold NDIRECT in *; lia). rewrite !xint_id by (rewrite ?xint_id; lia).
      eapply wp_rsect; [exact He1|lia|lia|]. destruct Hc as [_ Hzero]. rewrite Hzero, get32_zero by lia. simpl (0 =? 0). cbv iota.
      wp_step. wp_step. eapply wp_next; [exact He1|lia|]. intros s2 He2. wp_step. rewrite xint_id by lia. eapply wp_wsect; [exact He2|lia|]. intros s3 He3. wp_steps.
      rewrite MAXFILE_val in H1. rewrite get_put32 by (unfold NDIRECT in *; destruct zero_blk_ok as [-> _]; lia). rewrite u32_small, xint_id by lia.
      replace (fb + 1 + 1) with (fb + 2) in He3 by lia. exists (put fb (put32 (Z.to_nat (4 * (fbn - NDIRECT))) (fb + 1) zero_blk) v), (fb + 2). done.
    + wp_step. wp_step. wp_step. fold (ind_of d). rewrite Hii. pose proof (ind_taken Hz) as Hit. unfold taken_to in Hit. eapply wp_rsect; [exact He|lia|lia|].
      assert (get32 (Z.to_nat (4 * (fbn - NDIRECT))) (v (ind_of d)) = iaddr v d fbn) as ->.
      { unfold iaddr. destruct (Z.ltb_spec fbn NDIRECT); [lia|]. by destruct (Z.eqb_spec (ind_of d) 0). }
      destruct (Z.eqb_spec (iaddr v d fbn) 0) as [Hz'|Hz'].
      * pose proof (slot_entry Hd Hz Hz') as Hs. assert (fb + 1 <= lim) as Hl1.
        { pose proof (unmapped Hz') as Eo. unfold nblk, NDIRECT, BSIZE in *. destruct (Z.ltb_spec (12 * 512) off), (Z.ltb_spec (12 * 512) (off + 1)); zlia. }
        wp_step. wp_step. eapply wp_next; [exact He|lia|]. intros s2 He2. wp_step. rewrite xint_id by lia. eapply wp_wsect; [exact He2|lia|]. intros s3 He3. wp_steps.
        rewrite MAXFILE_val in H1. destruct Hc as [Hb _]. rewrite get_put32 by (unfold NDIRECT in *; destruct (Hb (ind_of d)) as [-> _]; lia).
        rewrite u32_small, xint_id by lia. eexists _, _. split; [exact He3|]. apply Hs. lia.
      * wp_steps. assert (get32 (Z.to_nat (4 * (fbn - NDIRECT))) (v (ind_of d)) = iaddr v d fbn) as ->.
        { unfold iaddr. destruct (Z.ltb_spec fbn NDIRECT); [lia|]. by destruct (Z.eqb_spec (ind_of d) 0). }
        rewrite Hxi. exists v, fb. split; [done|]. by apply slot_old.
Qed.
End Slot.

(** ** Appending *)

(** The blocks of a file. *)
Definition has v d (n : Z) : Prop := n <> 0 /\ owns v d n.
(** The bytes [w] have been appended at [off]. *)
Record grown v d off fb (w : list Z) v' d' fb' : Prop := {
  gr_tight : tight v' d' (off + Z.of_nat (length w)) fb';
  gr_clean : clean v' fb';
  gr_meta : same_meta d d';
  gr_bytes : forall p, 0 <= p < MAXFILE * BSIZE -> content v' d' p = over off w (content v d) p;
  gr_frame : forall n, ~ has v d n -> n < fb \/ fb' <= n -> v' n = v n;
  gr_has : forall n, has v' d' n -> has v d n \/ fb <= n < fb';
  gr_fb : fb' = fb + nblk (off + Z.of_nat (length w)) - nblk off;
  gr_mono : fb <= fb'
}.
Lemma grown_refl v d off fb : tight v d off fb -> clean v fb -> grown v d off fb [] v d fb.
Proof using. intros Ht Hc. split; simpl; rewrite ?Z.add_0_r; try done; try lia; [|auto]. intros p Hp. unfold over. by rewrite decide_False by (simpl; lia). Qed.
Lemma grown_trans v d off fb w1 v1 d1 fb1 w2 v2 d2 fb2 : grown v d off fb w1 v1 d1 fb1 ->
  grown v1 d1 (off + Z.of_nat (length w1)) fb1 w2 v2 d2 fb2 -> grown v d off fb (w1 ++ w2) v2 d2 fb2.
Proof using.
  intros [A1 A2 A3 A4 A5 A6 A7 A8] [B1 B2 B3 B4 B5 B6 B7 B8]. rewrite <- Z.add_assoc, <- Nat2Z.inj_add, <- length_app in *. split; try done.
  - unfold same_meta in *. intuition congruence.
  - intros p Hp. rewrite B4, <- over_app by done. by apply over_ext, A4.
  - intros n Hn Hf. rewrite B5; [apply A5; [done|lia]| |lia]. intros Hh. apply A6 in Hh. destruct Hh; [done|lia].
  - intros n Hn. apply B6 in Hn as [Hn|]; [|lia]. apply A6 in Hn as [|]; [by left|lia].
  - lia.
  - lia.
Qed.

Section Round.
Context v d off fb (Ht : tight v d off fb) (Hc : clean v fb) (Hoff : off < MAXFILE * BSIZE) (Hfb : base <= fb).
Context v' d' x fb' (Hs : slot v d off fb v' d' x fb') (w : list Z) (Hw1 : bytes_ok w) (Hw2 : 1 <= Z.of_nat (length w)) (Hw3 : off mod BSIZE + Z.of_nat (length w) <= BSIZE) (Hroom : fb' <= lim).
Abbreviation v2 := (put x (bsplice (Z.to_nat (off mod BSIZE)) w (v' x)) v').

Lemma slot_x : x <> 0 /\ x <> ind_of d' /\ iaddr v' d' (off / BSIZE) = x /\ length (v' x) = BSIZEn.
Proof using Hbase Ht Hoff Hs w.
  destruct (tight_off _ _ _ _ Ht Hoff) as (H0 & H1 & _). pose proof (sl_x _ _ _ _ _ _ _ _ Hs) as Hx. unfold taken_to in Hx.
  assert (iaddr v' d' (off / BSIZE) = x) as Ex by (rewrite (sl_map _ _ _ _ _ _ _ _ Hs _ H1); by rewrite decide_True).
  split_and!; [lia| |done|apply (sl_clean _ _ _ _ _ _ _ _ Hs)]. rewrite <- Ex at 1. apply (fw_ind _ _ _ (sl_wf _ _ _ _ _ _ _ _ Hs)); [done|lia].
Qed.
Lemma round_map i : iaddr v2 d' i = iaddr v' d' i.
Proof using Hbase Ht Hoff Hs w. apply iaddr_ext. intros _. apply put_ne. destruct slot_x as (_ & ? & _). congruence. Qed.
Lemma round_bytes p : 0 <= p < MAXFILE * BSIZE -> content v2 d' p = over off w (content v d) p.
Proof using Hbase Ht Hc Hoff Hs Hw2 Hw3 Hroom.
  intros Hp. destruct (tight_off _ _ _ _ Ht Hoff) as (H0 & H1 & H2 & H3). destruct slot_x as (Hx0 & Hxi & Ex & Hxl).
  pose proof (div_block _ Hp) as Hb. unfold content at 1. rewrite round_map.
  pose proof (Z.div_mod p BSIZE ltac:(done)) as Hdp. pose proof (Z.mod_pos_bound p BSIZE ltac:(done)) as Hmp.
  destruct (decide (p / BSIZE = off / BSIZE)) as [E|E].
  - rewrite E, Ex. destruct (Z.eqb_spec x 0); [done|]. rewrite put_same, nth_lookup, bsplice_lookup by (rewrite Hxl; unfold BSIZE in *; lia). unfold over.
    destruct (decide (off <= p < off + Z.of_nat (length w))) as [Hin|Hout].
    + rewrite decide_True by (rewrite E in *; unfold BSIZE in *; lia). rewrite nth_lookup. do 2 f_equal. rewrite E in *. lia.
    + rewrite decide_False by (rewrite E in *; unfold BSIZE in *; lia). unfold content. rewrite E. rewrite (sl_view _ _ _ _ _ _ _ _ Hs) by (by left).
      destruct (Z.eqb_spec (iaddr v d (off / BSIZE)) 0) as [Hz|Hz]; [|by rewrite <- (sl_old _ _ _ _ _ _ _ _ Hs Hz), nth_lookup].
      pose proof (sl_new _ _ _ _ _ _ _ _ Hs Hz). pose proof (sl_x _ _ _ _ _ _ _ _ Hs) as Hx. unfold taken_to in Hx. destruct Hc as [_ Hzero].
      rewrite Hzero by lia. rewrite <- nth_lookup. apply nth_zero_blk.
  - rewrite (sl_map _ _ _ _ _ _ _ _ Hs _ Hb), decide_False by done.
    unfold over, content. rewrite decide_False by (unfold BSIZE in *; zlia). destruct (Z.eqb_spec (iaddr v d (p / BSIZE)) 0) as [|Hn]; [done|]. f_equal.
    assert (iaddr v' d' (p / BSIZE) = iaddr v d (p / BSIZE)) as Em by (rewrite (sl_map _ _ _ _ _ _ _ _ Hs _ Hb); by rewrite decide_False).
    pose proof (sl_wf _ _ _ _ _ _ _ _ Hs) as Hw'. rewrite <- Em in Hn |- *. rewrite put_ne.
    + apply (sl_view _ _ _ _ _ _ _ _ Hs). left. by apply (fw_ind _ _ _ Hw').
    + intros Eq. rewrite <- Ex in Eq. by apply E, (fw_inj _ _ _ Hw').
Qed.
Lemma round_has n : has v2 d' n -> has v d n \/ fb <= n < fb'.
Proof using Hbase Ht Hoff Hs w.
  destruct (tight_off _ _ _ _ Ht Hoff) as (_ & H1 & _). destruct slot_x as (Hx0 & Hxi & Ex & _). pose proof (sl_x _ _ _ _ _ _ _ _ Hs) as Hx. unfold taken_to in Hx.
  intros [Hn [-> |(i & Hi & ->)]].
  - destruct (sl_ind _ _ _ _ _ _ _ _ Hs) as [E|[_ ?]]; [left|by right]. rewrite E in *. split; [done|by left].
  - rewrite round_map in *. rewrite (sl_map _ _ _ _ _ _ _ _ Hs i Hi) in *. case_decide; [|left; split; [done|right; eauto]]. subst.
    destruct (decide (iaddr v d (off / BSIZE) = 0)) as [Hz|Hz]; [right; split; [by apply (sl_new _ _ _ _ _ _ _ _ Hs)|lia]|left].
    rewrite (sl_old _ _ _ _ _ _ _ _ Hs Hz). split; [done|right; eauto].
Qed.
Lemma round_grown : grown v d off fb w v2 d' fb'.
Proof using Hbase Ht Hc Hoff Hs Hw1 Hw2 Hw3 Hroom.
  destruct (tight_off _ _ _ _ Ht Hoff) as (H0 & H1 & H2 & H3). destruct slot_x as (Hx0 & Hxi & Ex & Hxl). pose proof (sl_x _ _ _ _ _ _ _ _ Hs) as Hx. unfold taken_to in Hx.
  assert (nblk (off + Z.of_nat (length w)) = nblk (off + 1)) as Enb.
  { unfold nblk, NDIRECT, BSIZE in *. destruct (Z.ltb_spec (12 * 512) (off + 1)), (Z.ltb_spec (12 * 512) (off + Z.of_nat (length w))); zlia. }
  assert (fb <= fb') as Hmono.
  { rewrite (sl_fb _ _ _ _ _ _ _ _ Hs). unfold nblk, NDIRECT, BSIZE. destruct (Z.ltb_spec (12 * 512) (off + 1)), (Z.ltb_spec (12 * 512) off); zlia. }
  split; try done.
  - split.
    + destruct (sl_wf _ _ _ _ _ _ _ _ Hs) as [W1 W2 W3 W4 W5 W6 W7]. split; try done; intros i; rewrite ?round_map; auto. intros j. rewrite ?round_map. auto.
    + pose proof (ti_size _ _ _ _ Ht) as Hsz. destruct (sl_meta _ _ _ _ _ _ _ _ Hs) as (_ & _ & _ & _ & ->). rewrite MAXFILE_val in *. unfold BSIZE in *. zlia.
    + intros i Hi. rewrite round_map, (sl_map _ _ _ _ _ _ _ _ Hs i Hi). case_decide as E; [subst; unfold BSIZE in *; lia|].
      rewrite (ti_map _ _ _ _ Ht i Hi). unfold BSIZE in *. zlia.
    + rewrite (sl_has _ _ _ _ _ _ _ _ Hs). unfold NDIRECT, BSIZE in *. zlia.
  - destruct (sl_clean _ _ _ _ _ _ _ _ Hs) as [C1 C2]. split.
    + intros n. unfold put. case_decide as Ec; [clear Ec|done]. destruct (C1 x). split; [rewrite bsplice_length by (unfold BSIZE in *; lia); done|by apply bytes_ok_splice].
    + intros n Hn. rewrite put_ne by lia. by apply C2.
  - apply (sl_meta _ _ _ _ _ _ _ _ Hs).
  - apply round_bytes.
  - intros n Hn Hf. assert (n <> x) as Hnx.
    { intros ->. destruct (decide (iaddr v d (off / BSIZE) = 0)) as [Hz|Hz]; [pose proof (sl_new _ _ _ _ _ _ _ _ Hs Hz); lia|].
      apply Hn. rewrite (sl_old _ _ _ _ _ _ _ _ Hs Hz). split; [done|right; eauto]. }
    rewrite put_ne by done. apply (sl_view _ _ _ _ _ _ _ _ Hs).
    destruct (decide (n = ind_of d')) as [->|]; [|by left]. destruct (decide (ind_of d' = 0)) as [E0|E0]; [by right|]. exfalso. destruct (sl_ind _ _ _ _ _ _ _ _ Hs) as [E|[_ ?]]; [|lia]. apply Hn. split; [done|]. by left.
  - apply round_has.
  - rewrite Enb. apply (sl_fb _ _ _ _ _ _ _ _ Hs).
Qed.
End Round.

Lemma nblk_mono m n : m <= n -> nblk m <= nblk n.
Proof using. intros Hm. unfold nblk, NDIRECT, BSIZE. destruct (Z.ltb_spec (12 * 512) m), (Z.ltb_spec (12 * 512) n); zlia. Qed.

Lemma wp_iappend_loop fuel : forall s0 s v d off fb p, evolves s0 s v fb -> tight v d off fb -> clean v fb -> base <= fb -> bytes_ok p ->
  off + Z.of_nat (length p) <= MAXFILE * BSIZE -> fb + nblk (off + Z.of_nat (length p)) - nblk off <= lim -> lim <= g_len s0 ->
  (p <> [] -> Z.of_nat (length p) + off mod BSIZE <= BSIZE * Z.of_nat fuel) ->
  wp (iappend_loop fuel d off p (Z.of_nat (length p))) (fun r s' => exists v' fb', evolves s0 s' v' fb' /\
    r.2 = off + Z.of_nat (length p) /\ grown v d off fb p v' r.1 fb') s.
Proof using Hbase Hlim.
  induction fuel as [|fuel IH]; intros s0 s v d off fb p He Ht Hc Hfb Hp Hmax Hroom Hlen Hfuel; cbn [iappend_loop].
  all: destruct (Z.gtb_spec (Z.of_nat (length p)) 0) as [Hpos|Hpos].
  all: try (assert (p = []) as -> by (apply length_zero_iff_nil; lia); apply wp_ret; exists v, fb; split_and!; [done|simpl; lia|by apply grown_refl]).
  all: assert (p <> []) as Hne by (by intros ->). all: specialize (Hfuel Hne).
  { pose proof (Z.mod_pos_bound off BSIZE ltac:(done)). lia. }
  assert (off < MAXFILE * BSIZE) as Hoff by lia. destruct (tight_off _ _ _ _ Ht Hoff) as (H0 & H1 & H2 & H3).
  wp_step. unfold assert. destruct (Z.ltb_spec (off / BSIZE) MAXFILE); [|lia]. wp_step. wp_step.
  pose proof (nblk_mono (off + 1) (off + Z.of_nat (length p)) ltac:(lia)) as Hnb.
  eapply wp_mono; [eapply (wp_append_block v d off fb Ht Hc Hoff Hfb s0 s He); lia|]. intros [d' x] s1 (v' & fb' & He1 & Hs). simpl in Hs.
  destruct (slot_x _ _ _ _ Ht Hoff _ _ _ _ Hs p) as (Hx0 & Hxi & Ex & Hxl). pose proof (sl_x _ _ _ _ _ _ _ _ Hs) as Hx. unfold taken_to in Hx.
  pose proof (sl_fb _ _ _ _ _ _ _ _ Hs) as Efb. cbv beta iota zeta. set (n1 := Z.min _ _).
  assert (n1 = Z.min (Z.of_nat (length p)) (BSIZE - off mod BSIZE)) as En by (unfold n1; f_equal; lia).
  assert (off - off / BSIZE * BSIZE = off mod BSIZE) as -> by lia. wp_step. eapply wp_rsect; [exact He1|lia|lia|].
  wp_step. eapply wp_wsect; [exact He1|lia|]. intros s2 He2.
  set (w := take (Z.to_nat n1) p). set (p' := drop (Z.to_nat n1) p).
  assert (Z.of_nat (length w) = n1) as Elw by (unfold w; rewrite length_take; lia).
  assert (Z.of_nat (length p) - n1 = Z.of_nat (length p')) as Elp by (unfold p'; rewrite length_drop; lia).
  assert (bytes_ok w) as Hbw by (by apply Forall_take). assert (bytes_ok p') as Hbp by (by apply Forall_drop).
  pose proof (round_grown v d off fb Ht Hc Hoff _ _ _ _ Hs w Hbw ltac:(unfold BSIZE in *; lia) ltac:(lia) ltac:(lia)) as Hg.
  rewrite Elp, <- Elw. pose proof (gr_fb _ _ _ _ _ _ _ _ Hg) as Efb2. pose proof (gr_mono _ _ _ _ _ _ _ _ Hg) as Hmono.
  eapply wp_mono; [apply (IH s0 s2 _ d' (off + Z.of_nat (length w)) fb' p' He2 (gr_tight _ _ _ _ _ _ _ _ Hg) (gr_clean _ _ _ _ _ _ _ _ Hg) ltac:(lia) Hbp)|]; [lia| |done| |].
  - replace (off + Z.of_nat (length w) + Z.of_nat (length p')) with (off + Z.of_nat (length p)) by lia. lia.
  - intros Hne'. destruct (decide (n1 = Z.of_nat (length p))); [destruct p'; [done|simpl in Elp; lia]|].
    assert ((off + Z.of_nat (length w)) mod BSIZE = 0) as -> by (unfold BSIZE in *; zlia). unfold BSIZE in *. lia.
  - intros [d2 o2] s3 (v2 & fb2 & He3 & Eo & Hg2). exists v2, fb2. simpl in *. split_and!; [done|lia|].
    assert (p = w ++ p') as Ep by (unfold w, p'; by rewrite take_drop). rewrite Ep. by eapply grown_trans.
Qed.
End Append.
