(* ===== verification/MkfsPart.v ===== *)
(** * Building a partition: inodes, directories and files of mkfs.c

    [built] is what a partition under construction holds: a list of files, the k-th of them under inode
    number k+1, each with its bytes in blocks of its own. *)

From S2P Require Import Prelude Buf Bio Log Blocks Fs Balloc Inode FileData Mkfs MkfsFile.

Record afile := mkAf { af_type : Z; af_bytes : list Z }.
Definition af_size (f : afile) : Z := Z.of_nat (length (af_bytes f)).

(** The blocks of all files. *)
Definition total (F : list afile) : Z := foldr (fun f n => nblk (af_size f) + n) 0 F.
Lemma nblk_nonneg n : 0 <= n -> 0 <= nblk n.
Proof. intros Hn. unfold nblk, BSIZE. destruct (_ <? n); zlia. Qed.
Lemma total_nonneg F : 0 <= total F.
Proof. induction F as [|f F IH]; [done|]. simpl. pose proof (nblk_nonneg (af_size f) ltac:(unfold af_size; lia)). lia. Qed.
Lemma total_insert F k f f' : F !! k = Some f -> total (<[k := f']> F) = total F - nblk (af_size f) + nblk (af_size f').
Proof.
  revert k. induction F as [|g F IH]; intros k Hk; [done|]. destruct k as [|k]; simpl in *; [injection Hk as ->; lia|].
  rewrite (IH k Hk). lia.
Qed.
Lemma total_app F G : total (F ++ G) = total F + total G.
Proof. induction F as [|f F IH]; simpl; [done|]. rewrite IH. lia. Qed.

(** A file keeps its bytes as long as its blocks are left alone. *)
Section Keep.
Context (base lim : Z) (Hbase : 0 < base).

Lemma has_taken v d off fb n : tight base v d off fb -> has v d n -> taken_to base fb n.
Proof.
  intros Ht [Hn [-> |(i & Hi & ->)]]; [by apply (fw_indused _ _ _ (ti_wf _ _ _ _ _ Ht))|by apply (fw_used _ _ _ (ti_wf _ _ _ _ _ Ht))].
Qed.
Lemma has_iaddr v v' d n : (forall i, iaddr v' d i = iaddr v d i) -> has v' d n <-> has v d n.
Proof.
  intros E. unfold has, owns. split; intros [Hn [-> |(i & Hi & ->)]]; (split; [done|]); try (by left); right; exists i; by rewrite ?E in *.
Qed.
Lemma tight_keep v v' d off fb fb' : tight base v d off fb -> fb <= fb' -> (forall n, has v d n -> v' n = v n) ->
  tight base v' d off fb' /\ (forall i, iaddr v' d i = iaddr v d i) /\
  (forall p, 0 <= p < MAXFILE * BSIZE -> content v' d p = content v d p).
Proof.
  intros [Hw H1 H2 H3] Hf Hv.
  assert (forall i, iaddr v' d i = iaddr v d i) as Hm by (intros i; apply iaddr_ext; intros Hi; apply Hv; split; [done|by left]).
  split_and!; [|done|].
  - split; try done; [|by intros i Hi; rewrite Hm; apply H2].
    destruct Hw as [W1 W2 W3 W4 W5 W6 W7]. split; try done; intros i; rewrite ?Hm; auto.
    + intros j. rewrite Hm. auto.
    + intros Hi Hn. specialize (W5 i Hi Hn). unfold taken_to in *. lia.
    + specialize (W6 i). unfold taken_to in *. lia.
  - intros p Hp%div_block. unfold content. rewrite Hm. destruct (Z.eqb_spec (iaddr v d (p / BSIZE)) 0) as [|Hn]; [done|].
    rewrite Hv; [done|]. split; [done|]. right. eauto.
Qed.
Lemma bytes_ext v d v' d' : di_size d' = di_size d -> di_size d <= MAXFILE * BSIZE ->
  (forall p, 0 <= p < MAXFILE * BSIZE -> content v' d' p = content v d p) -> file_bytes v' d' = file_bytes v d.
Proof.
  intros Es Hs Hc. unfold file_bytes. rewrite Es. apply map_ext_in. intros p Hp%list_elem_of_In%elem_of_seqZ. apply Hc. lia.
Qed.
Lemma iaddr_size v d sz i : iaddr v (set_size sz d) i = iaddr v d i.
Proof. done. Qed.

(** An inode whose blocks are below [fb] fits its 64 bytes. *)
Lemma tight_addrs v d off fb : tight base v d off fb -> fb <= 2 ^ 23 -> Forall (fun b => 0 <= b < 2 ^ 32) (di_addrs d).
Proof.
  intros Ht Hfb. pose proof (ti_wf _ _ _ _ _ Ht) as Hw. pose proof (fw_len _ _ _ Hw) as Hl. apply Forall_lookup_2. intros j b Hj.
  pose proof (lookup_lt_Some _ _ _ Hj) as Hlt. assert (addr_at d (Z.of_nat j) = b) as <-.
  { unfold addr_at. by rewrite Nat2Z.id, nth_lookup, Hj. }
  destruct (decide (addr_at d (Z.of_nat j) = 0)) as [-> |Hn]; [lia|]. assert (taken_to base fb (addr_at d (Z.of_nat j))) as Htk; [|unfold taken_to in Htk; lia].
  destruct (decide (j = 12)%nat) as [-> |Hne]; [by apply (fw_indused _ _ _ Hw)|].
  assert (iaddr v d (Z.of_nat j) = addr_at d (Z.of_nat j)) as E by (unfold iaddr, NDIRECT; destruct (Z.ltb_spec (Z.of_nat j) 12); [done|lia]).
  rewrite <- E in *. apply (fw_used _ _ _ Hw); [rewrite MAXFILE_val; lia|done].
Qed.
(** The appended bytes, as lists. *)
Lemma grown_bytes v d fb w v' d' fb' : grown base lim v d (di_size d) fb w v' d' fb' -> 0 <= di_size d ->
  file_bytes v' (set_size (di_size d + Z.of_nat (length w)) d') = file_bytes v d ++ w.
Proof.
  intros Hg Hs. rewrite (bytes_over v d v' _ (di_size d) w); [|lia|lia|simpl; lia|].
  - rewrite take_ge, drop_ge, app_nil_r by (rewrite bytes_length; lia). done.
  - intros p Hp. apply (gr_bytes _ _ _ _ _ _ _ _ _ _ Hg). simpl in Hp. pose proof (ti_size _ _ _ _ _ (gr_tight _ _ _ _ _ _ _ _ _ _ Hg)). lia.
Qed.
End Keep.

Lemma NINB : ninodeblocks = 26.
Proof. reflexivity. Qed.
Lemma NLOG : nlog = 30.
Proof. reflexivity. Qed.

Section Part.
Variables (offset lim : Z) (sb0 : superblock).
Definition ist : Z := offset + 1 + nlog.
Definition bst : Z := ist + ninodeblocks.
Definition base : Z := bst + 1.
Hypothesis Hoffset : 0 <= offset.
Hypothesis Hlim : base <= lim <= 2 ^ 23.
Hypothesis Hsb0 : sb_inodestart sb0 = ist.

Definition dino (v : Z -> list Z) (i : Z) : dinode := dinode_of (dinode_off i) (v (ist + i / IPB)).
(** The inode of file [f]. *)
Record node v fb (f : afile) (d : dinode) : Prop := {
  no_type : di_type d = af_type f;
  no_rest : di_major d = 0 /\ di_minor d = 0 /\ di_nlink d = 1;
  no_size : di_size d = af_size f;
  no_tight : tight base v d (af_size f) fb;
  no_bytes : file_bytes v d = af_bytes f;
  no_tail : forall p, af_size f <= p < MAXFILE * BSIZE -> content v d p = 0
}.
Record built v fb (F : list afile) : Prop := {
  bu_clean : clean lim v fb;
  bu_node : forall k f, F !! k = Some f -> node v fb f (dino v (Z.of_nat k + 1));
  bu_sep : forall j k n, (j < length F)%nat -> (k < length F)%nat -> j <> k ->
    has v (dino v (Z.of_nat j + 1)) n -> has v (dino v (Z.of_nat k + 1)) n -> False;
  bu_fb : fb = base + total F;
  bu_count : Z.of_nat (length F) < NINODES
}.
(** ** One inode *)

Lemma part_vals : base = offset + 58 /\ bst = offset + 57 /\ ist = offset + 31.
Proof. unfold base, bst, ist. rewrite NINB, NLOG. lia. Qed.

Definition with_node (i : Z) (d : dinode) (v : Z -> list Z) : Z -> list Z :=
  put (ist + i / IPB) (put_dinode (dinode_off i) d (v (ist + i / IPB))) v.
Lemma dino_with v i d j : dinode_ok d -> (forall n, blk_ok (v n)) -> 0 <= i -> 0 <= j ->
  dino (with_node i d v) j = if decide (j = i) then d else dino v j.
Proof.
  intros Hd Hv Hi Hj. unfold dino, with_node. destruct (Hv (ist + i / IPB)) as [Hl _]. pose proof (dinode_off_range i). pose proof (dinode_off_range j).
  case_decide as E; [subst; rewrite put_same; apply dinode_roundtrip; [done|lia]|].
  destruct (decide (ist + j / IPB = ist + i / IPB)) as [Eb|Eb]; [|by rewrite put_ne].
  rewrite Eb, put_same. apply dinode_other; [apply (do_len _ Hd)|lia..|]. change IPB with 8 in Eb. unfold dinode_off, SIZEOF_DINODE. change IPB with 8. zlia.
Qed.
Lemma with_node_blk i d v n : dinode_ok d -> (forall n, blk_ok (v n)) -> blk_ok (with_node i d v n).
Proof. intros Hd Hv. unfold with_node, put. case_decide; [|done]. apply put_dinode_ok; [apply (do_len _ Hd)|apply dinode_off_range|done]. Qed.
(** Inode blocks are not data blocks. *)
Lemma iblock_range i : 0 <= i <= NINODES -> ist <= ist + i / IPB < bst.
Proof. intros Hi. unfold bst. rewrite NINB. unfold NINODES in Hi. change IPB with 8. zlia. Qed.
Lemma with_node_ne i d v n : 0 <= i <= NINODES -> n < ist \/ bst <= n -> with_node i d v n = v n.
Proof. intros Hi Hn. pose proof (iblock_range i Hi). unfold with_node. apply put_ne. lia. Qed.
Lemma clean_node i d v fb : dinode_ok d -> 0 <= i <= NINODES -> clean lim v fb -> base <= fb -> clean lim (with_node i d v) fb.
Proof.
  intros Hd Hi [C1 C2] Hfb. split; [intros n; by apply with_node_blk|]. intros n Hn. rewrite with_node_ne; [by apply C2|done|]. unfold base in Hfb. lia.
Qed.

Lemma wp_winode s0 s v fb i d (Q : unit -> mk -> Prop) : evolves s0 s v fb -> g_sb s0 = sb0 -> 0 <= i <= NINODES -> lim <= g_len s0 ->
  (forall s', evolves s0 s' (with_node i d v) fb -> Q tt s') -> wp (winode i d) Q s.
Proof.
  intros He Es Hi Hl HQ. unfold winode. wp_steps. rewrite (ev_sb _ _ _ _ He), Es. pose proof (iblock_range i Hi) as Hr. pose proof part_vals.
  assert (IBLOCK i sb0 = ist + i / IPB) as -> by (unfold IBLOCK; rewrite Hsb0, u32_small by lia; lia).
  eapply wp_rsect; [exact He|lia|lia|]. eapply wp_wsect; [exact He|lia|]. done.
Qed.
Lemma wp_rinode s0 s v fb i (Q : dinode -> mk -> Prop) : evolves s0 s v fb -> g_sb s0 = sb0 -> 0 <= i <= NINODES -> lim <= g_len s0 ->
  Q (dino v i) s -> wp (rinode i) Q s.
Proof.
  intros He Es Hi Hl HQ. unfold rinode. wp_steps. rewrite (ev_sb _ _ _ _ He), Es. pose proof (iblock_range i Hi) as Hr. pose proof part_vals.
  assert (IBLOCK i sb0 = ist + i / IPB) as -> by (unfold IBLOCK; rewrite Hsb0, u32_small by lia; lia).
  eapply wp_rsect; [exact He|lia|lia|]. by wp_steps.
Qed.

(** ** The files of the partition *)

Lemma base_pos : 0 < base.
Proof. pose proof part_vals. lia. Qed.
Lemma node_keep v v' fb fb' f d : node v fb f d -> fb <= fb' -> (forall n, has v d n -> v' n = v n) ->
  node v' fb' f d /\ (forall i, iaddr v' d i = iaddr v d i).
Proof.
  intros [H1 H2 H3 H4 H5 H6] Hf Hv. destruct (tight_keep base base_pos v v' d _ fb fb' H4 Hf Hv) as (T1 & T2 & T3). split; [|done]. split; try done.
  - rewrite <- H5. apply bytes_ext; [done| |done]. pose proof (ti_size _ _ _ _ _ H4). lia.
  - intros p Hp. rewrite T3 by (unfold af_size in Hp; lia). by apply H6.
Qed.
Lemma node_has_data v fb f d n : node v fb f d -> has v d n -> base <= n < fb.
Proof. intros Hn Hh. exact (has_taken _ _ _ _ _ _ (no_tight _ _ _ _ Hn) Hh). Qed.
Lemma node_ok v fb f d : node v fb f d -> fb <= lim -> - 2 ^ 15 <= af_type f < 2 ^ 15 -> dinode_ok d.
Proof.
  intros [H1 (H2 & H3 & H4) H5 H6 _ _] Hfb Ht. pose proof part_vals. pose proof (fw_size _ _ _ (ti_wf _ _ _ _ _ H6)) as Hs. rewrite MAXFILE_val in Hs. unfold BSIZE in Hs.
  split; try lia; [apply (fw_len _ _ _ (ti_wf _ _ _ _ _ H6))|]. eapply (tight_addrs base); [exact base_pos|exact H6|lia].
Qed.
Lemma built_range v fb F : built v fb F -> base <= fb.
Proof. intros H. rewrite (bu_fb _ _ _ H). pose proof (total_nonneg F). lia. Qed.

(** File [k] is replaced: its inode is now [d'], its blocks are its old ones and new ones, and no other blocks were written. *)
Lemma built_replace v fb F k f f' v1 d' fb' : built v fb F -> F !! k = Some f ->
  (forall n, ~ has v (dino v (Z.of_nat k + 1)) n -> n < fb -> v1 n = v n) -> clean lim v1 fb' -> fb <= fb' <= lim ->
  (forall n, has v1 d' n -> has v (dino v (Z.of_nat k + 1)) n \/ fb <= n < fb') ->
  node v1 fb' f' d' -> - 2 ^ 15 <= af_type f' < 2 ^ 15 -> fb' = fb - nblk (af_size f) + nblk (af_size f') ->
  built (with_node (Z.of_nat k + 1) d' v1) fb' (<[k := f']> F).
Proof.
  intros H Hk Hfr Hcl Hfb Hhas Hn Hty Efb. pose proof (lookup_lt_Some _ _ _ Hk) as Hlt. pose proof (bu_count _ _ _ H) as Hcnt. unfold NINODES in Hcnt.
  pose proof (built_range _ _ _ H) as Hb. pose proof (node_ok _ _ _ _ Hn ltac:(lia) Hty) as Hok. pose proof part_vals as Hpv. pose proof (bu_node _ _ _ H) as Hnode.
  assert (forall n, n < base -> v1 n = v n) as Hlow.
  { intros n Hn'. apply Hfr; [|lia]. intros Hh. pose proof (node_has_data _ _ _ _ _ (Hnode _ _ Hk) Hh). lia. }
  set (v2 := with_node _ d' v1).
  assert (forall n, base <= n -> v2 n = v1 n) as Hv2 by (intros n Hn'; apply with_node_ne; [unfold NINODES; lia|unfold base in Hn'; lia]).
  assert (forall j, (j < length F)%nat -> dino v2 (Z.of_nat j + 1) = if decide (j = k) then d' else dino v (Z.of_nat j + 1)) as Hd.
  { intros j Hj. unfold v2. rewrite dino_with by (done || apply Hcl || lia). destruct (decide (j = k)) as [->|Hne]; [by rewrite decide_True|].
    rewrite decide_False by lia. unfold dino. rewrite Hlow; [done|]. pose proof (iblock_range (Z.of_nat j + 1) ltac:(unfold NINODES; lia)). unfold base. lia. }
  assert (forall j, (j < length F)%nat -> j <> k -> forall n, has v (dino v (Z.of_nat j + 1)) n -> v2 n = v n) as Hoth.
  { intros j Hj Hne n Hh. destruct (lookup_lt_is_Some_2 F j Hj) as [g Hg]. pose proof (node_has_data _ _ _ _ _ (Hnode _ _ Hg) Hh). rewrite Hv2 by lia.
    apply Hfr; [|lia]. intros Hh'. by apply (bu_sep _ _ _ H j k n). }
  assert (forall n, has v1 d' n -> v2 n = v1 n) as Hown by (intros n Hh; apply Hv2; by apply (node_has_data _ _ _ _ _ Hn)).
  destruct (node_keep v1 v2 fb' fb' f' d' Hn ltac:(lia) Hown) as [Hn2 Hia].
  split.
  - apply clean_node; [done|unfold NINODES; lia|done|lia].
  - intros j g Hj. pose proof (lookup_lt_Some _ _ _ Hj) as Hjl. rewrite length_insert in Hjl. rewrite Hd by done. destruct (decide (j = k)) as [->|Hne].
    + rewrite list_lookup_insert_eq in Hj by done. by injection Hj as <-.
    + rewrite list_lookup_insert_ne in Hj by done. apply (node_keep v v2 fb fb'); [by apply Hnode|lia|by apply Hoth].
  - assert (forall j n, (j < length F)%nat -> j <> k -> has v2 (dino v (Z.of_nat j + 1)) n -> has v (dino v (Z.of_nat j + 1)) n) as Hback.
    { intros j n Hj Hne. destruct (lookup_lt_is_Some_2 F j Hj) as [g Hg]. 
      destruct (node_keep v v2 fb fb' g _ (Hnode _ _ Hg) ltac:(lia) (Hoth j Hj Hne)) as [_ E]. by apply has_iaddr. }
    assert (forall j n, (j < length F)%nat -> j <> k -> has v2 d' n -> has v2 (dino v (Z.of_nat j + 1)) n -> False) as Hsep.
    { intros j n Hj Hne H1 H2. apply Hback in H2; [|done|done]. apply (has_iaddr _ _ _ _ Hia) in H1. apply Hhas in H1 as [H1|H1].
      - by apply (bu_sep _ _ _ H k j n).
      - destruct (lookup_lt_is_Some_2 F j Hj) as [g Hg]. pose proof (node_has_data _ _ _ _ _ (Hnode _ _ Hg) H2). lia. }
    intros i j n. rewrite length_insert. intros Hi Hj Hne. rewrite !Hd by done.
    destruct (decide (i = k)), (decide (j = k)); subst; try done; eauto. intros H1 H2. apply (bu_sep _ _ _ H i j n); auto.
  - rewrite (total_insert _ _ _ _ Hk). rewrite (bu_fb _ _ _ H) in Efb. lia.
  - rewrite length_insert. unfold NINODES. lia.
Qed.

(** A new, empty inode. *)
Definition empty_node (type : Z) : dinode := mkDi type 0 0 1 0 (replicate 13 0).
Lemma empty_addr type j : addr_at (empty_node type) j = 0.
Proof. unfold addr_at. change (di_addrs (empty_node type)) with (replicate 13 0). rewrite nth_lookup. destruct (replicate 13 0 !! Z.to_nat j) as [b|] eqn:E; [|done]. by apply lookup_replicate in E as [-> _]. Qed.
Lemma empty_iaddr v type i : iaddr v (empty_node type) i = 0.
Proof. unfold iaddr, ind_of. rewrite !empty_addr, Z.eqb_refl. by destruct (i <? NDIRECT). Qed.
Lemma empty_has v type n : ~ has v (empty_node type) n.
Proof. intros [Hn [-> |(i & _ & ->)]]; apply Hn; [apply empty_addr|apply empty_iaddr]. Qed.
Lemma node_empty v fb type : node v fb (mkAf type []) (empty_node type).
Proof.
  split; try done; [|by intros p _; unfold content; rewrite empty_iaddr]. split; try (unfold af_size; simpl; rewrite ?MAXFILE_val; unfold BSIZE; lia).
  - split; [done|simpl; rewrite MAXFILE_val; unfold BSIZE; lia| | | | |].
    + intros i j _ _ Hn. by rewrite empty_iaddr in Hn.
    + intros i _ Hn. by rewrite empty_iaddr in Hn.
    + intros i _ Hn. by rewrite empty_iaddr in Hn.
    + intros Hn. unfold ind_of in Hn. by rewrite empty_addr in Hn.
    + intros i Hi Hs. simpl in Hs. unfold BSIZE in Hs. lia.
  - intros i Hi. rewrite empty_iaddr. unfold af_size. simpl. unfold BSIZE. lia.
  - unfold ind_of. rewrite empty_addr. unfold af_size, NDIRECT, BSIZE. simpl. lia.
Qed.
Lemma built_add v fb F type : built v fb F -> fb <= lim -> Z.of_nat (length F) + 1 < NINODES -> - 2 ^ 15 <= type < 2 ^ 15 ->
  built (with_node (Z.of_nat (length F) + 1) (empty_node type) v) fb (F ++ [mkAf type []]).
Proof.
  intros H Hl Hcnt Hty. pose proof (built_range _ _ _ H) as Hb. pose proof part_vals as Hpv. pose proof (bu_node _ _ _ H) as Hnode.
  pose proof (node_ok v fb _ _ (node_empty v fb type) Hl Hty) as Hok. set (v2 := with_node _ _ v). unfold NINODES in Hcnt.
  assert (forall n, base <= n -> v2 n = v n) as Hv2 by (intros n Hn'; apply with_node_ne; [unfold NINODES; lia|unfold base in Hn'; lia]).
  assert (forall j, (j <= length F)%nat -> dino v2 (Z.of_nat j + 1) = if decide (j = length F) then empty_node type else dino v (Z.of_nat j + 1)) as Hd.
  { intros j Hj. unfold v2. rewrite dino_with by (done || apply (bu_clean _ _ _ H) || lia). destruct (decide (j = length F)) as [->|Hne]; [by rewrite decide_True|].
    by rewrite decide_False by lia. }
  assert (forall j f, F !! j = Some f -> node v2 fb f (dino v (Z.of_nat j + 1)) /\ forall n, has v2 (dino v (Z.of_nat j + 1)) n -> has v (dino v (Z.of_nat j + 1)) n) as Hold.
  { intros j f Hj. destruct (node_keep v v2 fb fb f _ (Hnode _ _ Hj) ltac:(lia)) as [Hn E]; [|split; [done|intros n; by apply has_iaddr]].
    intros n Hh. apply Hv2. by apply (node_has_data _ _ _ _ _ (Hnode _ _ Hj)). }
  split.
  - apply clean_node; [done|unfold NINODES; lia|apply (bu_clean _ _ _ H)|lia].
  - intros j f Hj. pose proof (lookup_lt_Some _ _ _ Hj) as Hjl. rewrite length_app in Hjl. simpl in Hjl. rewrite Hd by lia. destruct (decide (j = length F)) as [->|Hne].
    + rewrite list_lookup_middle in Hj by done. injection Hj as <-. apply node_empty.
    + rewrite lookup_app_l in Hj by lia. by apply Hold.
  - intros i j n. rewrite length_app. simpl. intros Hi Hj Hne. rewrite !Hd by lia.
    destruct (decide (i = length F)), (decide (j = length F)); subst; try done; try (intros Ha Hb'; by apply empty_has in Ha + by apply empty_has in Hb').
    destruct (lookup_lt_is_Some_2 F i ltac:(lia)) as [f Hf]. destruct (lookup_lt_is_Some_2 F j ltac:(lia)) as [g Hg].
    intros H1 H2. apply (bu_sep _ _ _ H i j n); [lia|lia|done|by eapply Hold|by eapply Hold].
  - rewrite total_app, (bu_fb _ _ _ H). cbn [total foldr]. change (nblk (af_size (mkAf type []))) with 0. lia.
  - rewrite length_app. simpl. unfold NINODES. lia.
Qed.

Lemma tight_set_size v d off fb : tight base v d off fb -> tight base v (set_size off d) off fb.
Proof.
  intros [[W1 W2 W3 W4 W5 W6 W7] H1 H2 H3]. split; try done; [|simpl; lia]. split; try done; [simpl; lia|].
  intros i Hi Hs. simpl in Hs. apply H2; [|done]. rewrite MAXFILE_val in *. unfold BSIZE in *. lia.
Qed.
Lemma built_ext v v' fb F : (forall n, v n = v' n) -> built v fb F -> built v' fb F.
Proof.
  intros E H. pose proof (bu_node _ _ _ H) as Hnode. assert (forall i, dino v' i = dino v i) as Ed by (intros i; unfold dino; by rewrite E).
  assert (forall j f, F !! j = Some f -> node v' fb f (dino v (Z.of_nat j + 1)) /\ forall n, has v' (dino v (Z.of_nat j + 1)) n -> has v (dino v (Z.of_nat j + 1)) n) as Hold.
  { intros j f Hj. destruct (node_keep v v' fb fb f _ (Hnode _ _ Hj) ltac:(lia)) as [Hn Ei]; [by intros n _; rewrite E|split; [done|intros n; by apply has_iaddr]]. }
  destruct H as [[C1 C2] _ H3 H4 H5]. split; try done.
  - split; intros n; rewrite <- E; auto.
  - intros k f Hk. rewrite Ed. by apply Hold.
  - intros i j n Hi Hj Hne. rewrite !Ed. intros H1 H2.
    destruct (lookup_lt_is_Some_2 F i Hi) as [f Hf]. destruct (lookup_lt_is_Some_2 F j Hj) as [g Hg]. apply (H3 i j n); [done..|by eapply Hold|by eapply Hold].
Qed.

(** ** [ialloc] and [iappend] *)

(** Blocks that building files does not write. *)
Definition outside (n : Z) : Prop := n < ist \/ n = bst \/ lim <= n.

Variables (m : mbr) (v0 : Z -> list Z).
Record building (s : mk) (F : list afile) : Prop := {
  bg_sb : g_sb s = sb0;
  bg_ino : g_freeinode s = Z.of_nat (length F) + 1;
  bg_len : lim <= g_len s;
  bg_fb : g_freeblock s <= lim;
  bg_mbr : g_mbr s = m;
  bg_built : built (view s) (g_freeblock s) F;
  bg_frame : forall n, outside n -> view s n = v0 n
}.

Lemma outside_node i d v n : 0 <= i <= NINODES -> outside n -> with_node i d v n = v n.
Proof. intros Hi Hn. apply with_node_ne; [done|]. pose proof part_vals. unfold outside in Hn. lia. Qed.
Lemma building_evolves s s' F F' v : building s F -> evolves s s' v (base + total F') -> built v (base + total F') F' -> length F' = length F ->
  base + total F' <= lim -> (forall n, outside n -> v n = view s n) -> building s' F'.
Proof.
  intros [B1 B2 B3 B4 B5 B6 B7] [E1 E2 E3 E4 E5 E6] Hb El Hl Ho. split; [congruence|lia|lia|lia|congruence| |].
  - rewrite E2. eapply built_ext; [|exact Hb]. done.
  - intros n Hn. rewrite E1, Ho by done. by apply B7.
Qed.

Lemma wp_ialloc s F type (Q : Z -> mk -> Prop) : building s F -> Z.of_nat (length F) + 1 < NINODES -> 0 <= type < 2 ^ 15 ->
  (forall s', building s' (F ++ [mkAf type []]) -> Q (Z.of_nat (length F) + 1) s') -> wp (ialloc type) Q s.
Proof.
  intros H Hcnt Hty HQ. pose proof H as [B1 B2 B3 B4 B5 B6 B7]. unfold ialloc. wp_steps. rewrite B2. unfold NINODES in *.
  rewrite u32_small by lia. set (s1 := set_freeinode _ s).
  assert (mkDi (s16 (xshort type)) 0 0 (s16 (xshort 1)) (xint 0) (replicate 13 0) = empty_node type) as ->.
  { rewrite (xshort_id type), (s16_small type) by lia. done. }
  eapply (wp_winode s1 s1); [apply evolves_refl|done|unfold NINODES; lia|done|]. intros s' [E1 E2 E3 E4 E5 E6]. apply wp_ret, HQ.
  split; rewrite ?E2, ?E4, ?E5, ?E6; try done.
  - rewrite length_app. simpl. lia.
  - simpl in E3. lia.
  - eapply built_ext; [intros n; symmetry; apply E1|]. apply built_add; [done|done|unfold NINODES; lia|lia].
  - intros n Hn. rewrite E1, outside_node by (done || unfold NINODES; lia). by apply B7.
Qed.

Lemma wp_iappend s F k f p (Q : unit -> mk -> Prop) : building s F -> F !! k = Some f -> bytes_ok p -> - 2 ^ 15 <= af_type f < 2 ^ 15 ->
  let F' := <[k := mkAf (af_type f) (af_bytes f ++ p)]> F in
  af_size f + Z.of_nat (length p) <= MAXFILE * BSIZE -> base + total F' <= lim ->
  (forall s', building s' F' -> Q tt s') -> wp (iappend (Z.of_nat k + 1) p) Q s.
Proof.
  intros H Hk Hp Hty F' Hmax Hroom HQ. pose proof H as [B1 B2 B3 B4 B5 B6 B7]. pose proof part_vals as Hpv. unfold iappend.
  pose proof (lookup_lt_Some _ _ _ Hk) as Hlt. pose proof (bu_count _ _ _ B6) as Hcnt. pose proof (built_range _ _ _ B6) as Hbr.
  set (v := view s). set (fb := g_freeblock s) in *. set (d := dino v (Z.of_nat k + 1)). pose proof (bu_node _ _ _ B6 k f Hk) as Hnode. fold v d in Hnode.
  pose proof (no_size _ _ _ _ Hnode) as Hsz. pose proof (no_tight _ _ _ _ Hnode) as Ht.
  assert (0 <= af_size f) as Hs0 by (unfold af_size; lia). rewrite MAXFILE_val in Hmax. unfold BSIZE in Hmax.
  set (f' := mkAf (af_type f) (af_bytes f ++ p)) in *. assert (af_size f' = af_size f + Z.of_nat (length p)) as Esz by (unfold af_size; simpl; rewrite length_app; lia).
  assert (base + total F' = fb - nblk (af_size f) + nblk (af_size f')) as Etot.
  { unfold F'. rewrite (total_insert _ _ _ _ Hk). pose proof (bu_fb _ _ _ B6). lia. }
  wp_step. eapply (wp_rinode s s v fb); [apply evolves_refl|done|lia|done|]. fold d. rewrite Hsz, xint_id by lia. wp_step.
  eapply wp_mono; [eapply (wp_iappend_loop base lim base_pos ltac:(lia) _ s s v d (af_size f) fb p); try done; try (apply evolves_refl)|].
  { apply (bu_clean _ _ _ B6). }
  { rewrite <- Esz. lia. }
  { intros _. unfold BSIZE. zlia. }
  intros [d1 off] s1 (v1 & fb1 & He & Eo & Hg). simpl in Eo, Hg. subst off. rewrite xint_id by lia. rewrite <- Esz. pose proof (gr_fb _ _ _ _ _ _ _ _ _ _ Hg) as Efb. rewrite <- Esz in Efb.
  assert (fb1 = base + total F') as -> by lia. pose proof (gr_mono _ _ _ _ _ _ _ _ _ _ Hg) as Hmono.
  assert (node v1 (base + total F') f' (set_size (af_size f') d1)) as Hnode'.
  { destruct (gr_meta _ _ _ _ _ _ _ _ _ _ Hg) as (M1 & M2 & M3 & M4 & _). destruct (no_rest _ _ _ _ Hnode) as (R1 & R2 & R3). split; simpl; try done.
    - rewrite M1. apply (no_type _ _ _ _ Hnode).
    - by rewrite M2, M3, M4.
    - apply tight_set_size. rewrite Esz. apply (gr_tight _ _ _ _ _ _ _ _ _ _ Hg).
    - rewrite <- (no_bytes _ _ _ _ Hnode), Esz, <- Hsz. eapply (grown_bytes base lim); [rewrite Hsz; exact Hg|rewrite Hsz; lia].
    - intros q Hq. rewrite Esz in Hq. change (content v1 (set_size (af_size f') d1) q) with (content v1 d1 q). rewrite (gr_bytes _ _ _ _ _ _ _ _ _ _ Hg) by lia.
      unfold over. rewrite decide_False by lia. apply (no_tail _ _ _ _ Hnode). lia. }
  eapply (wp_winode s s1 v1); [exact He|done|lia|done|]. intros s' He'. apply HQ. eapply building_evolves; [exact H|exact He'| |by unfold F'; rewrite length_insert|done|].
  - eapply (built_replace v fb F k f f' v1); [exact B6|exact Hk| |apply (gr_clean _ _ _ _ _ _ _ _ _ _ Hg)|lia| |exact Hnode'|done|lia].
    + intros n Hn Hnf. apply (gr_frame _ _ _ _ _ _ _ _ _ _ Hg); [done|by left].
    + intros n Hn. by apply (gr_has _ _ _ _ _ _ _ _ _ _ Hg).
  - intros n Hn. rewrite outside_node by (done || lia). apply (gr_frame _ _ _ _ _ _ _ _ _ _ Hg).
    + intros Hh. pose proof (node_has_data _ _ _ _ _ Hnode Hh). unfold outside in Hn. lia.
    + unfold outside in Hn. lia.
Qed.
End Part.
