(* ===== verification/MkfsOk.v ===== *)
(** * The image mkfs builds and the kernel reads

    [result] is the list of files a partition gets: the root directory and the files named on the
    command line.  The main theorem: when they fit, mkfs succeeds and its image, read
    with the kernel's decoders, holds four partitions with exactly these files. *)

From S2P Require Import Prelude Buf Bio Log Blocks Fs Balloc Inode FileData Dir Mkfs MkfsFile MkfsPart.

(** The names and contents of the files of the command line. *)
Abbreviation files := (list (list Z * list Z)).

Definition DOT : list Z := [46].
Definition DOTDOT : list Z := [46; 46].
Definition entry (inum : Z) (name : list Z) : list Z := dirent_bytes (mkDe inum (name_field name)).
Arguments entry : simpl never.
Definition root_bytes (fs : files) : list Z :=
  entry 1 DOT ++ entry 1 DOTDOT ++ concat (imap (fun i f => entry (Z.of_nat i + 2) (file_name f.1)) fs).
Definition result (fs : files) : list afile := mkAf T_DIR (root_bytes fs) :: map (fun f => mkAf T_FILE f.2) fs.

Lemma entry_length_16 i name : length (entry i name) = 16%nat.
Proof. apply dirent_bytes_length, name_field_length. Qed.
Lemma entry_bytes i name : bytes_ok name -> bytes_ok (entry i name).
Proof.
  intros Hn. unfold entry, dirent_bytes. apply Forall_app. split; [apply le_bytes_ok|]. unfold name_field. apply Forall_take, Forall_app. split; [done|].
  apply Forall_replicate. unfold is_byte. lia.
Qed.
Lemma root_bytes_snoc fs f : root_bytes (fs ++ [f]) = root_bytes fs ++ entry (Z.of_nat (length fs) + 2) (file_name f.1).
Proof.
  unfold root_bytes. rewrite imap_app, concat_app, <- !app_assoc. do 3 f_equal.
  refine (eq_trans (app_nil_r (entry (Z.of_nat (length fs + 0) + 2) (file_name f.1))) _). by rewrite Nat.add_0_r.
Qed.
Lemma root_bytes_length fs : length (root_bytes fs) = (16 * (length fs + 2))%nat.
Proof.
  induction fs as [|f fs IH] using rev_ind; [done|]. rewrite root_bytes_snoc, !length_app, IH, entry_length_16. cbn [length]. lia.
Qed.
Lemma total_take (fs : files) j : (j <= length fs)%nat -> total (result (take j fs)) <= total (result fs).
Proof.
  intros Hj. unfold result. cbn [total foldr]. fold (total (map (fun f => mkAf T_FILE f.2) fs)). fold (total (map (fun f => mkAf T_FILE f.2) (take j fs))).
  pose proof (nblk_mono (af_size (mkAf T_DIR (root_bytes (take j fs)))) (af_size (mkAf T_DIR (root_bytes fs)))) as Hr.
  assert (total (map (fun f => mkAf T_FILE f.2) (take j fs)) <= total (map (fun f => mkAf T_FILE f.2) fs)) as Ht.
  { rewrite <- (take_drop j fs) at 2. rewrite map_app, total_app. pose proof (total_nonneg (map (fun f => mkAf T_FILE f.2) (drop j fs))). lia. }
  enough (af_size (mkAf T_DIR (root_bytes (take j fs))) <= af_size (mkAf T_DIR (root_bytes fs))) as He by (specialize (Hr He); lia).
  unfold af_size. cbn [af_bytes]. rewrite !root_bytes_length, length_take. lia.
Qed.

(** One more file: an entry of the root directory, and the contents. *)
Lemma result_snoc fs f : result (fs ++ [f]) =
  <[S (length fs) := mkAf T_FILE f.2]> (<[0%nat := mkAf T_DIR (root_bytes (fs ++ [f]))]> (result fs ++ [mkAf T_FILE []])).
Proof.
  unfold result. rewrite map_app. cbn [map app]. change (<[0%nat := ?x]> (?y :: ?l)) with (x :: l). change (<[S ?n := ?x]> (?y :: ?l)) with (y :: <[n := x]> l).
  f_equal. rewrite insert_app_r_alt by (rewrite length_map; lia). by rewrite length_map, Nat.sub_diag.
Qed.
Lemma result_length fs : length (result fs) = S (length fs).
Proof. unfold result. cbn [length]. by rewrite length_map. Qed.

(** What mkfs needs of the files: they fit the inodes and the partition, and the root directory does not
    end at a block boundary (where mkfs would leave its size one unmapped block too large). *)
Record fits (host : list Z -> option (list Z)) (argv : list (list Z)) (fs : files) : Prop := {
  fi_names : drop 2 argv = map fst fs;
  fi_host : Forall (fun f => host f.1 = Some f.2) fs;
  fi_slash : Forall (fun f => existsb (Z.eqb SLASH) f.1 = false) fs;
  fi_bytes : Forall (fun f => bytes_ok f.1 /\ bytes_ok f.2) fs;
  fi_max : Forall (fun f => Z.of_nat (length f.2) <= MAXFILE * BSIZE) fs;
  fi_inodes : Z.of_nat (length fs) + 1 < NINODES;
  fi_root : Z.of_nat (length fs + 2) mod 32 <> 0;
  fi_room : total (result fs) <= FSSIZE - 58
}.

Section Root.
Variables (offset lim : Z) (m : mbr) (v0 : Z -> list Z) (sb0 : superblock) (host : list Z -> option (list Z)).
Hypothesis Hoffset : 0 <= offset.
Hypothesis Hlim : base offset <= lim <= 2 ^ 23.
Hypothesis Hsb0 : sb_inodestart sb0 = ist offset.
Abbreviation building := (building offset lim sb0 m v0).

Lemma wp_append_file fuel : forall s F k f rest (Q : unit -> mk -> Prop), building s F -> F !! k = Some f -> bytes_ok rest -> - 2 ^ 15 <= af_type f < 2 ^ 15 ->
  let F' := <[k := mkAf (af_type f) (af_bytes f ++ rest)]> F in
  af_size f + Z.of_nat (length rest) <= MAXFILE * BSIZE -> base offset + total F' <= lim -> (length rest <= fuel)%nat ->
  (forall s', building s' F' -> Q tt s') -> wp (append_file fuel (Z.of_nat k + 1) rest) Q s.
Proof.
  induction fuel as [|fuel IH]; intros s F k f rest Q H Hk Hb Hty F' Hmax Hroom Hf HQ.
  all: destruct rest as [|c rest]; cbn [append_file];
    [apply wp_ret, HQ; unfold F'; rewrite app_nil_r; rewrite list_insert_id; [done|by rewrite Hk; destruct f]|].
  { simpl in Hf. lia. }
  set (w := take BSIZEn (c :: rest)). set (r := drop BSIZEn (c :: rest)). assert (c :: rest = w ++ r) as Ew by (symmetry; apply take_drop).
  assert (length (c :: rest) = length w + length r)%nat as El by (by rewrite Ew, length_app).
  assert (1 <= length w)%nat as Hw1 by (unfold w; rewrite length_take; simpl length; lia).
  rewrite Ew in Hb. apply Forall_app in Hb as [Hbw Hbr]. pose proof (lookup_lt_Some _ _ _ Hk) as Hlt.
  set (f1 := mkAf (af_type f) (af_bytes f ++ w)). assert (af_size f1 = af_size f + Z.of_nat (length w)) as Es1 by (unfold f1, af_size; cbn [af_bytes]; rewrite length_app; lia).
  assert (base offset + total (<[k := f1]> F) <= lim) as Hroom1.
  { unfold F' in Hroom. rewrite (total_insert F k f _ Hk) in Hroom. rewrite (total_insert F k f f1 Hk). pose proof (nblk_mono (af_size f1) (af_size (mkAf (af_type f) (af_bytes f ++ c :: rest)))) as Hm.
    enough (af_size f1 <= af_size (mkAf (af_type f) (af_bytes f ++ c :: rest))) as He by (specialize (Hm He); lia).
    unfold f1, af_size. cbn [af_bytes]. rewrite !length_app. lia. }
  wp_step. eapply wp_iappend; [done..|lia|exact Hroom1|]. intros s1 H1.
  eapply (IH s1 (<[k := f1]> F) k f1 r); [done|by rewrite list_lookup_insert_eq|done|done|lia| |lia|].
  - rewrite list_insert_insert_eq. unfold f1. cbn [af_type af_bytes]. rewrite <- app_assoc, <- Ew. done.
  - intros s2 H2. apply HQ. unfold F'. rewrite list_insert_insert_eq in H2. unfold f1 in H2. cbn [af_type af_bytes] in H2. rewrite <- app_assoc, <- Ew in H2. done.
Qed.

(** The round for file [f], the first [length fs] being done. *)
Lemma wp_root_round s fs f i (Q : unit -> mk -> Prop) (argv : list (list Z)) : building s (result fs) -> argv !! Z.to_nat i = Some f.1 -> host f.1 = Some f.2 ->
  existsb (Z.eqb SLASH) f.1 = false -> bytes_ok f.1 -> bytes_ok f.2 -> Z.of_nat (length f.2) <= MAXFILE * BSIZE ->
  Z.of_nat (length fs) + 2 < NINODES -> base offset + total (result (fs ++ [f])) <= lim ->
  (forall s', building s' (result (fs ++ [f])) -> Q tt s') ->
  wp (arg <- of_option "argv" (argv !! Z.to_nat i) ;; assert (negb (existsb (Z.eqb SLASH) arg)) ;;;
      match host arg with
      | None => exit1
      | Some bytes =>
          inum <- ialloc T_FILE ;; iappend ROOTINO (dirent_bytes (mkDe (xshort inum) (name_field (file_name arg)))) ;;;
          append_file (length bytes) inum bytes
      end) Q s.
Proof.
  intros H Ha Hh Hs Hb1 Hb2 Hmax Hcnt Hroom HQ. wp_step. eapply wp_option; [exact Ha|]. wp_step. rewrite Hs. apply wp_ret. rewrite Hh.
  wp_step. pose proof (result_length fs) as Hl. unfold NINODES in Hcnt. rewrite MAXFILE_val in Hmax. unfold BSIZE in Hmax.
  eapply wp_ialloc; [exact Hoffset|exact Hlim|exact Hsb0|exact H|rewrite Hl; unfold NINODES; lia|unfold T_FILE; lia|]. intros s1 H1. wp_step.
  rewrite xshort_id by (rewrite Hl; lia). set (F1 := result fs ++ [mkAf T_FILE []]) in *.
  assert (entry (Z.of_nat (length (result fs)) + 1) (file_name f.1) = entry (Z.of_nat (length fs) + 2) (file_name f.1)) as Ee by (rewrite Hl; f_equal; lia).
  fold (entry (Z.of_nat (length (result fs)) + 1) (file_name f.1)). rewrite Ee.
  assert (bytes_ok (file_name f.1)) as Hbn by (destruct f.1 as [|c l]; [done|]; simpl; destruct (c =? 95); [by apply Forall_cons in Hb1 as [_ ?]|done]).
  set (F2 := <[0%nat := mkAf T_DIR (root_bytes (fs ++ [f]))]> F1). set (f2 := mkAf T_FILE f.2).
  assert (F1 !! S (length fs) = Some (mkAf T_FILE [])) as Hf1 by (unfold F1; apply list_lookup_middle; lia).
  assert (F2 !! S (length fs) = Some (mkAf T_FILE [])) as Hf2 by (unfold F2; by rewrite list_lookup_insert_ne).
  assert (total F2 <= total (result (fs ++ [f]))) as Htot.
  { rewrite result_snoc. fold F1 F2 f2. rewrite (total_insert _ _ _ _ Hf2). change (nblk (af_size (mkAf T_FILE []))) with 0. pose proof (nblk_nonneg (af_size f2) ltac:(unfold af_size; lia)). lia. }
  eapply (wp_iappend offset lim sb0 Hoffset Hlim Hsb0 m v0 s1 F1 0 (mkAf T_DIR (root_bytes fs))); cbn [af_type af_bytes]; rewrite <- ?root_bytes_snoc; fold F2.
  - exact H1.
  - done.
  - by apply entry_bytes.
  - unfold T_DIR. lia.
  - unfold af_size. cbn [af_bytes]. rewrite root_bytes_length, entry_length_16, MAXFILE_val. unfold BSIZE. lia.
  - lia.
  - intros s2 H2. replace (Z.of_nat (length (result fs)) + 1) with (Z.of_nat (S (length fs)) + 1) by lia.
    eapply wp_append_file; [exact H2|exact Hf2|done|cbn; unfold T_FILE; lia|unfold af_size; cbn [af_bytes length]; rewrite MAXFILE_val; unfold BSIZE; lia| |done|];
      cbn [af_type af_bytes app]; unfold F2, F1; rewrite <- result_snoc; done.
Qed.

Lemma wp_root_handler s argv fs (Q : unit -> mk -> Prop) : building s (result []) -> fits host argv fs -> base offset + total (result fs) <= lim ->
  (forall s', building s' (result fs) -> Q tt s') -> wp (root_handler host ROOTINO argv) Q s.
Proof.
  intros H [N1 N2 N3 N4 N5 N6 _ N7] Hroom HQ. unfold root_handler.
  assert (length argv - 2 = length fs)%nat as -> by (apply (f_equal length) in N1; rewrite length_drop, length_map in N1; done).
  eapply (wp_for_each _ _ _ (fun i t => building t (result (take (Z.to_nat (i - 2)) fs)))); [done| |].
  - intros i t Hi Ht. set (j := Z.to_nat (i - 2)) in *. destruct (lookup_lt_is_Some_2 fs j ltac:(lia)) as [f Hf].
    assert (take (Z.to_nat (i + 1 - 2)) fs = take j fs ++ [f]) as Et by (replace (Z.to_nat (i + 1 - 2)) with (S j) by lia; by apply take_S_r).
    rewrite Et. eapply wp_root_round; [exact Ht| |by apply (Forall_lookup_1 _ _ _ _ N2 Hf)|by apply (Forall_lookup_1 _ _ _ _ N3 Hf)|
      by apply (Forall_lookup_1 _ _ _ _ N4 Hf)|by apply (Forall_lookup_1 _ _ _ _ N4 Hf)|by apply (Forall_lookup_1 _ _ _ _ N5 Hf)| | |done].
    + replace (Z.to_nat i) with (2 + j)%nat by lia. rewrite <- lookup_drop, N1, list_lookup_fmap, Hf. done.
    + rewrite length_take. unfold NINODES in *. lia.
    + rewrite <- Et. pose proof (total_take fs (Z.to_nat (i + 1 - 2)) ltac:(lia)). lia.
  - intros t Ht. apply HQ. replace (Z.to_nat (2 + Z.of_nat (length fs) - 2)) with (length fs) in Ht by lia. by rewrite firstn_all in Ht.
Qed.
End Root.

(** ** What the kernel finds *)

(** The super block as [readsb] delivers it. *)
Definition disk_sb (v : Z -> list Z) (offset : Z) : superblock :=
  let sb := sb_of (v offset) in
  mkSb (sb_size sb) (sb_nblocks sb) (sb_ninodes sb) (sb_nlog sb) (u32 (sb_logstart sb + offset))
       (u32 (sb_inodestart sb + offset)) (u32 (sb_bmapstart sb + offset)).
Definition disk_inode (v : Z -> list Z) (offset i : Z) : dinode := dinode_of (dinode_off i) (v (IBLOCK i (disk_sb v offset))).
(** The data blocks the bitmap marks. *)
Definition disk_used (v : Z -> list Z) (offset n : Z) : Prop :=
  let sb := disk_sb v offset in
  exists i, 0 <= i < sb_size sb /\ n = sb_bmapstart sb + 1 + i /\ bit_of (v (sb_bmapstart sb)) i = true.
(** The root directory is padded to whole blocks. *)
Definition padded (k : nat) (bytes : list Z) : list Z :=
  match k with
  | O => bytes ++ replicate (Z.to_nat (BSIZE - Z.of_nat (length bytes) mod BSIZE)) 0
  | S _ => bytes
  end.
Record partition_ok (v : Z -> list Z) (offset : Z) (F : list afile) : Prop := {
  po_sb : disk_sb v offset = mkSb FSSIZE (FSSIZE - 58) NINODES LOGSIZE (offset + 1) (offset + 31) (offset + 57);
  po_node : forall k f, F !! k = Some f -> let d := disk_inode v offset (Z.of_nat k + 1) in
    di_type d = af_type f /\ di_nlink d = 1 /\ file_wf (disk_used v offset) v d /\ file_bytes v d = padded k (af_bytes f);
  po_sep : forall j k n, (j < length F)%nat -> (k < length F)%nat -> j <> k -> n <> 0 ->
    owns v (disk_inode v offset (Z.of_nat j + 1)) n -> owns v (disk_inode v offset (Z.of_nat k + 1)) n -> False;
  po_bitmap : forall i, 0 <= i < BPB -> bit_of (v (offset + 57)) i = true <-> i < total F
}.

Lemma sb_bytes_words b : sb_bytes b =
  concat (map (le_bytes 4) [sb_size b; sb_nblocks b; sb_ninodes b; sb_nlog b; sb_logstart b; sb_inodestart b; sb_bmapstart b]).
Proof. unfold sb_bytes. cbn [map concat]. by rewrite app_nil_r. Qed.
Lemma sb_of_bytes b : sb_of (bsplice 0 (sb_bytes b) zero_blk) =
  mkSb (u32 (sb_size b)) (u32 (sb_nblocks b)) (u32 (sb_ninodes b)) (u32 (sb_nlog b)) (u32 (sb_logstart b)) (u32 (sb_inodestart b)) (u32 (sb_bmapstart b)).
Proof.
  assert (forall j, (j < 7)%nat -> get32 (4 * j) (bsplice 0 (sb_bytes b) zero_blk) =
    u32 (nth j [sb_size b; sb_nblocks b; sb_ninodes b; sb_nlog b; sb_logstart b; sb_inodestart b; sb_bmapstart b] 0)) as Hg.
  { intros j Hj. rewrite sb_bytes_words. destruct zero_blk_ok as [Hz _]. rewrite <- (get32_concat _ j) by (simpl; lia).
    change (4 * j)%nat with (0 + 4 * j)%nat at 1. apply get32_inside; rewrite concat_le_length; [rewrite Hz; simpl; lia|simpl length; lia]. }
  unfold sb_of. f_equal; [apply (Hg 0%nat)|apply (Hg 1%nat)|apply (Hg 2%nat)|apply (Hg 3%nat)|apply (Hg 4%nat)|apply (Hg 5%nat)|apply (Hg 6%nat)]; lia.
Qed.

(** The bitmap of [balloc]. *)
Lemma bitmap_bits n i : 0 <= n <= BPB -> bit_index i -> bit_of (fold_left set_bit (seqZ 0 n) zero_blk) i = true <-> i < n.
Proof.
  intros Hn Hi. assert (exists k, n = Z.of_nat k) as [k ->] by (exists (Z.to_nat n); lia).
  enough (blk_ok (fold_left set_bit (seqZ 0 (Z.of_nat k)) zero_blk) /\ (bit_of (fold_left set_bit (seqZ 0 (Z.of_nat k)) zero_blk) i = true <-> i < Z.of_nat k)) by tauto.
  clear - Hn Hi. induction k as [|k IH].
  - split; [apply zero_blk_ok|]. unfold bit_index in Hi. simpl. unfold bit_of. rewrite nth_zero_blk. rewrite Z.land_0_l. simpl. split; [done|lia].
  - destruct IH as [IHb IHi]; [lia|]. replace (Z.of_nat (S k)) with (Z.of_nat k + 1) by lia. rewrite seqZ_app by lia. rewrite fold_left_app.
    set (x := fold_left set_bit (seqZ 0 (Z.of_nat k)) zero_blk) in *. assert (seqZ (0 + Z.of_nat k) 1 = [Z.of_nat k]) as -> by (rewrite seqZ_cons by lia; simpl; done).
    cbn [fold_left]. split; [by apply set_bit_ok|].
    rewrite bit_set_bit by (apply IHb || done || unfold bit_index; lia). case_bool_decide; simpl; [split; [lia|done]|]. rewrite IHi. lia.
Qed.

(** ** Finishing a partition *)

Section Finish.
Variables (offset : Z) (v : Z -> list Z) (F : list afile) (f0 : afile).
Abbreviation lim := (offset + FSSIZE).
Abbreviation fb := (base offset + total F).
Hypothesis Hoffset : 0 <= offset.
Hypothesis Hlim : lim <= 2 ^ 23.
Hypothesis HB : built offset lim v fb F.
Hypothesis H0 : F !! 0%nat = Some f0.
Hypothesis Hroom : total F <= FSSIZE - 58.
Hypothesis Hty : - 2 ^ 15 <= af_type f0 < 2 ^ 15.
Hypothesis Hedge : af_size f0 mod BSIZE <> 0.

Definition round_up (n : Z) : Z := (n / BSIZE + 1) * BSIZE.
Definition final_view : Z -> list Z :=
  put offset (bsplice 0 (sb_bytes (mkSb FSSIZE (FSSIZE - 58) NINODES LOGSIZE 1 31 57)) zero_blk)
    (put (bst offset) (fold_left set_bit (seqZ 0 (total F)) zero_blk)
      (with_node offset 1 (set_size (round_up (af_size f0)) (dino offset v 1)) v)).

Lemma fin_lim : base offset <= lim <= 2 ^ 23.
Proof using Hlim Hoffset. pose proof (part_vals offset). unfold FSSIZE in *. lia. Qed.
Lemma fin_vals : base offset = offset + 58 /\ bst offset = offset + 57 /\ ist offset = offset + 31.
Proof using. exact (part_vals offset). Qed.
Lemma root_node : node offset v fb f0 (dino offset v 1).
Proof using HB H0. exact (bu_node _ _ _ _ _ HB 0%nat f0 H0). Qed.
Lemma root_sizes : 0 <= af_size f0 /\ round_up (af_size f0) <= MAXFILE * BSIZE /\ af_size f0 <= round_up (af_size f0).
Proof using HB H0 Hedge.
  pose proof (ti_size _ _ _ _ _ (no_tight _ _ _ _ _ root_node)) as Hs. unfold af_size in *. unfold round_up. rewrite MAXFILE_val in *. unfold BSIZE in *. zlia.
Qed.
Lemma rounded_root_ok : dinode_ok (set_size (round_up (af_size f0)) (dino offset v 1)).
Proof using HB H0 Hedge Hlim Hoffset Hroom Hty.
  pose proof fin_lim as Hl. pose proof fin_vals. pose proof root_sizes as (Hs1 & Hs2 & Hs3). rewrite MAXFILE_val in Hs2.
  destruct (node_ok offset lim Hoffset Hl _ _ _ _ root_node ltac:(lia) Hty) as [D1 D2 D3 D4 D5 D6 D7].
  split; try done. cbn [di_size set_size]. unfold BSIZE in Hs2. lia.
Qed.
(** Where the finished image is the one before. *)
Lemma final_data n : base offset <= n -> final_view n = v n.
Proof using Hoffset Hlim.
  intros Hn. pose proof fin_vals. unfold final_view. rewrite !put_ne by lia. apply with_node_ne; [unfold NINODES; lia|lia].
Qed.
Lemma final_sb : disk_sb final_view offset = mkSb FSSIZE (FSSIZE - 58) NINODES LOGSIZE (offset + 1) (offset + 31) (offset + 57).
Proof using Hoffset Hlim.
  unfold disk_sb, final_view. rewrite put_same, sb_of_bytes. unfold FSSIZE in *. cbn [sb_size sb_nblocks sb_ninodes sb_nlog sb_logstart sb_inodestart sb_bmapstart].
  assert (forall k, 0 <= k < 100 -> u32 (u32 k + offset) = offset + k) as Hk by (intros k Hk; rewrite (u32_small k), u32_small by lia; lia).
  rewrite !Hk by lia. reflexivity.
Qed.
Lemma final_inode i : 0 <= i <= NINODES ->
  disk_inode final_view offset i = if decide (i = 1) then set_size (round_up (af_size f0)) (dino offset v 1) else dino offset v i.
Proof using HB H0 Hedge Hlim Hoffset Hroom Hty.
  intros Hi. pose proof fin_vals. pose proof fin_lim. pose proof (iblock_range offset i Hi) as Hr. unfold disk_inode. rewrite final_sb. unfold IBLOCK. cbn [sb_inodestart].
  rewrite u32_small by lia. replace (i / IPB + (offset + 31)) with (ist offset + i / IPB) by lia.
  rewrite <- (dino_with offset v 1 _ i rounded_root_ok) by (apply (bu_clean _ _ _ _ _ HB) || lia). unfold dino, final_view. by rewrite !put_ne by lia.
Qed.
Lemma final_bit i : 0 <= i < BPB -> bit_of (final_view (offset + 57)) i = true <-> i < total F.
Proof using Hoffset Hlim Hroom.
  intros Hi. pose proof fin_vals as (_ & Eb & _). unfold final_view. rewrite put_ne by lia. rewrite Eb, put_same. apply bitmap_bits; [|done].
  pose proof (total_nonneg F). unfold FSSIZE in Hroom. unfold BPB, BSIZE. lia.
Qed.
Lemma final_used n : taken_to (base offset) fb n -> disk_used final_view offset n.
Proof using Hoffset Hlim Hroom.
  unfold taken_to. intros Hn. pose proof fin_vals. unfold disk_used. rewrite final_sb. cbn [sb_size sb_bmapstart]. exists (n - base offset).
  split; [unfold FSSIZE in *; lia|]. split; [lia|]. apply final_bit; [unfold FSSIZE in *; unfold BPB, BSIZE; lia|lia].
Qed.
(** Every file is still there, under the bitmap. *)
Lemma final_file f d off : tight (base offset) v d off fb -> node offset v fb f d ->
  file_wf (disk_used final_view offset) final_view d /\ (forall i, iaddr final_view d i = iaddr v d i) /\
  (forall p, 0 <= p < MAXFILE * BSIZE -> content final_view d p = content v d p).
Proof using Hoffset Hlim Hroom.
  intros Ht Hn. pose proof fin_vals. destruct (tight_keep (base offset) ltac:(lia) v final_view d off fb fb Ht ltac:(lia)) as (T1 & T2 & T3).
  { intros n Hh. apply final_data. by apply (has_taken _ _ _ _ _ _ Ht). }
  split_and!; [|done|done]. destruct (ti_wf _ _ _ _ _ T1) as [W1 W2 W3 W4 W5 W6 W7]. split; try done.
  - intros i Hi Hz. apply final_used. by apply W5.
  - intros Hz. apply final_used. by apply W6.
Qed.

Lemma pad_size : Z.to_nat (round_up (af_size f0)) = (length (af_bytes f0) + Z.to_nat (BSIZE - Z.of_nat (length (af_bytes f0)) mod BSIZE))%nat.
Proof using Hedge. fold (af_size f0). unfold round_up, af_size, BSIZE in *. zlia. Qed.
Lemma padded_bytes v' d : di_size d = round_up (af_size f0) -> (forall p, 0 <= p < MAXFILE * BSIZE -> content v' d p = content v (dino offset v 1) p) ->
  file_bytes v' d = padded 0 (af_bytes f0).
Proof using HB H0 Hedge.
  intros Es Hc. destruct root_sizes as (Hs1 & Hs2 & Hs3). pose proof root_node as Hn. unfold padded. apply list_eq. intros i.
  destruct (decide (i < Z.to_nat (round_up (af_size f0)))%nat) as [Hi|Hi].
  2:{ rewrite !(proj2 (lookup_ge_None _ _)); [done|rewrite length_app, length_replicate, <- pad_size; lia|rewrite bytes_length; rewrite Es; lia]. }
  rewrite bytes_lookup, Hc by (rewrite ?Es; lia). destruct (decide (i < length (af_bytes f0))%nat) as [Hb|Hb].
  - rewrite lookup_app_l by done. rewrite <- (no_bytes _ _ _ _ _ Hn). symmetry. apply bytes_lookup. rewrite (no_size _ _ _ _ _ Hn). unfold af_size. lia.
  - rewrite lookup_app_r by lia. rewrite lookup_replicate_2 by (rewrite pad_size in Hi; lia). f_equal. apply (no_tail _ _ _ _ _ Hn). unfold af_size in *. lia.
Qed.
Lemma node_at k f : F !! k = Some f -> node offset v fb f (dino offset v (Z.of_nat k + 1)) /\ 0 <= Z.of_nat k + 1 <= NINODES.
Proof using HB.
  intros Hk. split; [by apply (bu_node _ _ _ _ _ HB)|]. pose proof (bu_count _ _ _ _ _ HB). pose proof (lookup_lt_Some _ _ _ Hk). lia.
Qed.
Lemma root_wf : file_wf (disk_used final_view offset) final_view (set_size (round_up (af_size f0)) (dino offset v 1)).
Proof using HB H0 Hedge Hlim Hoffset Hroom Hty.
  destruct root_sizes as (Hs1 & Hs2 & Hs3). pose proof root_node as Hn. destruct (final_file _ _ _ (no_tight _ _ _ _ _ Hn) Hn) as ([W1 W2 W3 W4 W5 W6 W7] & Hm & _).
  split; try done; [cbn [di_size set_size]; lia|]. intros i Hi Hs. cbn [di_size set_size] in Hs. rewrite iaddr_size, Hm.
  apply (ti_map _ _ _ _ _ (no_tight _ _ _ _ _ Hn)); [rewrite MAXFILE_val in *; unfold round_up, BSIZE in *; zlia|]. unfold round_up, BSIZE in *. zlia.
Qed.

Lemma finished : partition_ok final_view offset F.
Proof using HB H0 Hedge Hlim Hoffset Hroom Hty.
  assert (forall k, (k < length F)%nat -> exists f, F !! k = Some f) as Hlk by (intros k Hk; by apply lookup_lt_is_Some_2).
  split; [apply final_sb| | |apply final_bit].
  - intros k f Hk. destruct (node_at k f Hk) as [Hn Hr]. rewrite (final_inode _ Hr). destruct k as [|k].
    + rewrite H0 in Hk. injection Hk as <-. rewrite decide_True by lia. split_and!; [apply (no_type _ _ _ _ _ Hn)|apply (no_rest _ _ _ _ _ Hn)|apply root_wf|].
      apply padded_bytes; [done|]. intros p Hp. by apply (final_file _ _ _ (no_tight _ _ _ _ _ Hn) Hn).
    + rewrite decide_False by lia. destruct (final_file _ _ _ (no_tight _ _ _ _ _ Hn) Hn) as (Hw & _ & Hc).
      split_and!; [apply (no_type _ _ _ _ _ Hn)|apply (no_rest _ _ _ _ _ Hn)|done|]. simpl padded. rewrite <- (no_bytes _ _ _ _ _ Hn).
      apply bytes_ext; [done|apply (fw_size _ _ _ Hw)|done].
  - assert (forall k n, (k < length F)%nat -> n <> 0 -> owns final_view (disk_inode final_view offset (Z.of_nat k + 1)) n -> has v (dino offset v (Z.of_nat k + 1)) n) as Ho.
    { intros k n Hk Hz. destruct (Hlk k Hk) as [f Hf]. destruct (node_at k f Hf) as [Hn Hr]. destruct (final_file _ _ _ (no_tight _ _ _ _ _ Hn) Hn) as (_ & Hm & _).
      rewrite (final_inode _ Hr). intros Hown. apply (has_iaddr _ _ _ n Hm). split; [done|]. case_decide as E; [by rewrite E|done]. }
    intros j k n Hj Hk Hne Hz H1 H2. apply (bu_sep _ _ _ _ _ HB j k n); auto.
Qed.
End Finish.

(** A partition depends on its own blocks alone. *)
Lemma partition_ok_ext v v' offset F : 0 <= offset -> offset + FSSIZE <= 2 ^ 23 -> total F <= FSSIZE - 58 -> Z.of_nat (length F) < NINODES ->
  (forall n, offset <= n < offset + FSSIZE -> v' n = v n) -> partition_ok v offset F -> partition_ok v' offset F.
Proof.
  intros Ho Hl Ht Hcnt Hv [P1 P2 P3 P4]. unfold FSSIZE in *.
  assert (disk_sb v' offset = disk_sb v offset) as Esb by (unfold disk_sb; by rewrite Hv by lia).
  assert (forall k, 0 <= k <= NINODES -> disk_inode v' offset k = disk_inode v offset k) as Ei.
  { intros k Hk. unfold disk_inode. rewrite Esb, P1. unfold IBLOCK. cbn [sb_inodestart]. pose proof (iblock_range offset k Hk). pose proof (part_vals offset).
    rewrite u32_small by lia. by rewrite Hv by lia. }
  assert (forall n, disk_used v offset n -> offset <= n < offset + 1000 /\ disk_used v' offset n) as Hu.
  { intros n Hu. unfold disk_used in *. rewrite Esb. rewrite P1 in *. cbn [sb_size sb_bmapstart] in *. rewrite Hv by lia. destruct Hu as (i & Hi & -> & Hb).
    split; [|eauto]. assert (i < total F) by (apply P4; [unfold BPB, BSIZE; lia|done]). lia. }
  assert (forall k f, F !! k = Some f -> let d := disk_inode v offset (Z.of_nat k + 1) in
    (forall i, iaddr v' d i = iaddr v d i) /\ (forall p, 0 <= p < MAXFILE * BSIZE -> content v' d p = content v d p) /\ 0 <= Z.of_nat k + 1 <= NINODES) as Hk.
  { intros k f Hf d. destruct (P2 k f Hf) as (_ & _ & Hw & _). fold d in Hw. pose proof (lookup_lt_Some _ _ _ Hf).
    assert (forall i, iaddr v' d i = iaddr v d i) as Hm by (intros i; apply iaddr_ext; intros Hz; apply Hv, Hu, (fw_indused _ _ _ Hw), Hz).
    split_and!; [done| |lia|lia]. intros p Hp%div_block. unfold content. rewrite Hm. destruct (Z.eqb_spec (iaddr v d (p / BSIZE)) 0); [done|].
    by rewrite Hv by (by apply Hu, (fw_used _ _ _ Hw)). }
  split.
  - by rewrite Esb.
  - intros k f Hf. destruct (Hk k f Hf) as (Hm & Hc & Hr). destruct (P2 k f Hf) as (T1 & T2 & Hw & T3). rewrite (Ei _ Hr). split_and!; [done|done| |].
    + destruct Hw as [W1 W2 W3 W4 W5 W6 W7]. split; try done; intros i; rewrite ?Hm; auto.
      * intros j. rewrite ?Hm. auto.
      * intros Hi Hz. by apply Hu, W5.
      * by apply Hu, W6.
    + rewrite <- T3. apply bytes_ext; [done|apply (fw_size _ _ _ Hw)|done].
  - intros j k n Hj Hk' Hne Hz. destruct (lookup_lt_is_Some_2 F j Hj) as [f Hf]. destruct (lookup_lt_is_Some_2 F k Hk') as [g Hg].
    destruct (Hk j f Hf) as (Hmj & _ & Hrj). destruct (Hk k g Hg) as (Hmk & _ & Hrk). rewrite !Ei by done. intros H1 H2.
    exact (P3 j k n Hj Hk' Hne Hz (proj2 (proj1 (has_iaddr _ _ _ n Hmj) (conj Hz H1))) (proj2 (proj1 (has_iaddr _ _ _ n Hmk) (conj Hz H2)))).
  - intros i Hi. rewrite Hv by lia. by apply P4.
Qed.

(** ** [init_partition] *)

Lemma wp_seq_assoc {A B} (m1 : M mk unit) (m2 : M mk B) (k : B -> M mk A) (Q : A -> mk -> Prop) s : wp (bind (m1 ;;; m2) k) Q s -> wp (m1 ;;; bind m2 k) Q s.
Proof. unfold wp, bind. by destruct (m1 s). Qed.
Lemma wp_zero s n0 k (Q : unit -> mk -> Prop) : 0 <= n0 -> n0 + Z.of_nat k <= 2 ^ 23 ->
  (forall s', evolves s s' (fun n => if decide (n0 <= n < n0 + Z.of_nat k) then zero_blk else view s n) (g_freeblock s) ->
    (k <> 0%nat -> n0 + Z.of_nat k <= g_len s') -> Q tt s') ->
  wp (for_each k n0 (fun i => wsect i zero_blk)) Q s.
Proof.
  intros H0 Hk HQ. eapply (wp_for_each _ _ _ (fun i t => evolves s t (fun n => if decide (n0 <= n < i) then zero_blk else view s n) (g_freeblock s) /\ (i <> n0 -> i <= g_len t))).
  - split; [|done]. eapply evolves_ext; [|apply evolves_refl]. intros n. by rewrite decide_False by lia.
  - intros i t Hi [He Hl]. unfold wsect. rewrite sector_id by lia. apply wp_modify. destruct He as [E1 E2 E3 E4 E5 E6]. split; [|simpl; lia].
    split; simpl; try done; [|lia]. intros n. unfold view. simpl. destruct (decide (n = i)) as [->|Hne].
    + rewrite lookup_insert_eq. by rewrite decide_True by lia.
    + rewrite lookup_insert_ne by done. specialize (E1 n). unfold view in E1. rewrite E1. repeat case_decide; try done; lia.
  - intros t [He Hl]. apply HQ; [done|]. intros Hk0. apply Hl. lia.
Qed.

Section Init.
Variables (offset : Z) (host : list Z -> option (list Z)) (argv : list (list Z)) (fs : files).
Abbreviation lim := (offset + FSSIZE).
Hypothesis Hoffset : 0 <= offset.
Hypothesis Hlim : lim <= 2 ^ 23.
Hypothesis Hfits : fits host argv fs.

(** The super block mkfs works with, and the one it writes. *)
Definition work_sb : superblock := mkSb FSSIZE (FSSIZE - 58) NINODES LOGSIZE (offset + 1) (offset + 31) (offset + 57).

Lemma init_lim : base offset <= lim <= 2 ^ 23.
Proof using Hoffset Hlim. pose proof (part_vals offset). unfold FSSIZE in *. lia. Qed.
Lemma work_ist : sb_inodestart work_sb = ist offset.
Proof using. pose proof (part_vals offset) as (_ & _ & ->). done. Qed.
Lemma start_building s m : g_sb s = work_sb -> g_freeinode s = 1 -> g_freeblock s = base offset -> lim <= g_len s -> g_mbr s = m ->
  (forall n, blk_ok (view s n)) -> (forall n, offset <= n < lim -> view s n = zero_blk) -> building offset lim work_sb m (view s) s [].
Proof using Hoffset Hlim.
  intros E1 E2 E3 E4 E5 Hb Hz. pose proof init_lim as Hi. pose proof (part_vals offset). split; try done; [lia|]. rewrite E3. split; try done.
  - split; [done|]. intros n Hn. apply Hz. lia.
  - intros j k n Hj. simpl in Hj. lia.
  - simpl. lia.
Qed.

(** The root directory before the files. *)
Lemma wp_root s m v0 (Q : unit -> mk -> Prop) : building offset lim work_sb m v0 s [mkAf T_DIR []] ->
  (forall s', building offset lim work_sb m v0 s' (result []) -> Q tt s') ->
  wp (iappend ROOTINO (dirent_bytes (mkDe (xshort ROOTINO) (name_field DOT))) ;;;
      iappend ROOTINO (dirent_bytes (mkDe (xshort ROOTINO) (name_field DOTDOT)))) Q s.
Proof using Hoffset Hlim.
  intros H HQ. rewrite (xshort_id ROOTINO) by (unfold ROOTINO; lia). fold (entry ROOTINO DOT) (entry ROOTINO DOTDOT). pose proof init_lim as Hil. pose proof (part_vals offset) as Hpv.
  assert (forall n, 0 <= n <= 32 -> nblk n <= 1) as Hnb by (intros n Hn; unfold nblk, NDIRECT, BSIZE; destruct (Z.ltb_spec (12 * 512) n); zlia).
  assert (bytes_ok (entry ROOTINO DOT) /\ bytes_ok (entry ROOTINO DOTDOT)) as [Hb1 Hb2] by (split; apply entry_bytes; repeat constructor; unfold is_byte; lia).
  assert (forall b, (length b <= 32)%nat -> base offset + total [mkAf T_DIR b] <= lim) as Hroom.
  { intros b Hb. cbn [total foldr]. specialize (Hnb (af_size (mkAf T_DIR b))). unfold af_size in *. cbn [af_bytes] in *. unfold FSSIZE in *. lia. }
  wp_step. change ROOTINO with (Z.of_nat 0 + 1) at 1.
  eapply (wp_iappend offset lim work_sb Hoffset init_lim work_ist m v0 s _ 0 (mkAf T_DIR [])); [exact H|done|done|unfold T_DIR; cbn; lia| | |].
  { unfold af_size. cbn [af_bytes length]. rewrite entry_length_16, MAXFILE_val. unfold BSIZE. lia. }
  { apply Hroom. cbn [af_bytes app]. rewrite entry_length_16. lia. }
  cbn [af_type af_bytes app insert list_insert]. intros s1 H1. change ROOTINO with (Z.of_nat 0 + 1) at 1.
  eapply (wp_iappend offset lim work_sb Hoffset init_lim work_ist m v0 s1 _ 0 (mkAf T_DIR (entry ROOTINO DOT))); [exact H1|done|done|unfold T_DIR; cbn; lia| | |].
  { unfold af_size. cbn [af_bytes]. rewrite !entry_length_16, MAXFILE_val. unfold BSIZE. lia. }
  { apply Hroom. cbn [af_bytes]. rewrite length_app, !entry_length_16. lia. }
  cbn [af_type af_bytes insert list_insert]. intros s2 H2. apply HQ. unfold result, root_bytes. cbn [map imap]. rewrite app_nil_r. exact H2.
Qed.

Abbreviation f0 := (mkAf T_DIR (root_bytes fs)).
Lemma root_size : af_size f0 = 16 * (Z.of_nat (length fs) + 2) /\ af_size f0 mod BSIZE <> 0 /\ 0 <= af_size f0 < 2 ^ 16.
Proof using Hfits.
  assert (af_size f0 = 16 * (Z.of_nat (length fs) + 2)) as E by (unfold af_size; cbn [af_bytes]; rewrite root_bytes_length; lia).
  pose proof (fi_inodes _ _ _ Hfits) as Hi. pose proof (fi_root _ _ _ Hfits) as Hr. rewrite E. unfold NINODES in Hi. unfold BSIZE. split; [done|]. zlia.
Qed.
Lemma META : 1 + nlog + ninodeblocks + nbitmap = 58.
Proof using. reflexivity. Qed.

Lemma wp_finish s m v0 (Q : Z -> mk -> Prop) : building offset lim work_sb m v0 s (result fs) ->
  (forall s', (forall n, view s' n = final_view offset (view s) (result fs) f0 n) -> g_mbr s' = m -> Q ROOTINO s') ->
  wp (din <- rinode ROOTINO ;;
      let off := (xint (di_size din) / BSIZE + 1) * BSIZE in
      winode ROOTINO (set_size (xint off) din) ;;;
      fb <- gets g_freeblock ;;
      balloc (s32 (fb - (offset + (1 + nlog + ninodeblocks + nbitmap)))) ;;;
      modify (fun s => let b := g_sb s in
        set_sb (mkSb (sb_size b) (sb_nblocks b) (sb_ninodes b) (sb_nlog b) (u32 (sb_logstart b - offset))
                     (u32 (sb_inodestart b - offset)) (u32 (sb_bmapstart b - offset))) s) ;;;
      sb <- gets g_sb ;;
      wsect offset (bsplice 0 (sb_bytes sb) zero_blk) ;;;
      ret ROOTINO) Q s.
Proof using Hoffset Hlim Hfits.
  intros H HQ. pose proof H as [B1 B2 B3 B4 B5 B6 B7]. pose proof init_lim as Hil. pose proof (part_vals offset) as Hpv. rewrite META.
  destruct root_size as (Es & Hed & Hsz). pose proof (fi_room _ _ _ Hfits) as Hroom. pose proof (total_nonneg (result fs)) as Htn. unfold FSSIZE in *.
  pose proof (bu_node _ _ _ _ _ B6 0%nat f0 eq_refl) as Hn. pose proof (bu_fb _ _ _ _ _ B6) as Efb. set (v := view s) in *.
  wp_step. eapply (wp_rinode offset lim work_sb Hoffset init_lim work_ist s s v); [apply evolves_refl|done|unfold ROOTINO, NINODES; lia|done|].
  cbv zeta. change (Z.of_nat 0 + 1) with ROOTINO in Hn. rewrite (no_size _ _ _ _ _ Hn). rewrite (xint_id (af_size f0)) by lia. fold (round_up (af_size f0)).
  rewrite (xint_id (round_up _)) by (unfold round_up, BSIZE; zlia).
  wp_step. eapply (wp_winode offset lim work_sb Hoffset init_lim work_ist s s v); [apply evolves_refl|done|unfold ROOTINO, NINODES; lia|done|].
  intros s1 He1. wp_steps. rewrite (ev_fb _ _ _ _ He1). replace (s32 (g_freeblock s - (offset + 58))) with (total (result fs)) by (rewrite s32_small; lia).
  unfold balloc. wp_step. unfold assert. assert ((total (result fs) <? BSIZE * 8) = true) as -> by (unfold BSIZE; lia). wp_step. wp_steps. rewrite (ev_sb _ _ _ _ He1), B1.
  replace (sb_bmapstart work_sb) with (bst offset) by (cbn; lia).
  eapply wp_wsect; [exact He1|lia|]. intros s2 He2. wp_steps. cbn [g_sb set_sb]. rewrite (ev_sb _ _ _ _ He2), B1.
  match goal with |- wp _ _ ?t => assert (evolves t t (view t) (g_freeblock t)) as He3 by apply evolves_refl end.
  eapply wp_wsect; [exact He3|lia|]. intros s3 He4. wp_steps. apply HQ.
  - intros n. rewrite (ev_view _ _ _ _ He4). unfold final_view, put. case_decide; [|apply (ev_view _ _ _ _ He2 n)].
    do 2 f_equal. cbn [g_sb set_sb work_sb sb_size sb_nblocks sb_ninodes sb_nlog sb_logstart sb_inodestart sb_bmapstart].
    rewrite !u32_small by lia. f_equal; lia.
  - rewrite (ev_mbr _ _ _ _ He4). cbn [g_mbr set_sb]. by rewrite (ev_mbr _ _ _ _ He2).
Qed.

Lemma final_frame v n : n < offset \/ lim <= n -> final_view offset v (result fs) f0 n = v n.
Proof using Hoffset Hlim.
  intros Hn. pose proof init_lim. pose proof (part_vals offset). unfold final_view. rewrite !put_ne by (unfold FSSIZE in *; lia).
  apply with_node_ne; [unfold NINODES; lia|unfold FSSIZE in *; lia].
Qed.
Lemma final_blk v n : (forall n, blk_ok (v n)) -> dinode_ok (set_size (round_up (af_size f0)) (dino offset v 1)) -> blk_ok (final_view offset v (result fs) f0 n).
Proof using.
  intros Hv Hok. unfold final_view, put. repeat case_decide.
  - destruct zero_blk_ok as [Hz Hzb]. rewrite sb_bytes_words. split; [rewrite bsplice_length; [done|rewrite concat_le_length, Hz; simpl; lia]|].
    apply bytes_ok_splice; [|done]. apply Forall_concat, Forall_fmap, Forall_forall. intros; apply le_bytes_ok.
  - generalize (seqZ 0 (total (result fs))). intros l. assert (forall x, blk_ok x -> blk_ok (fold_left set_bit l x)) as Hf; [|apply Hf, zero_blk_ok].
    induction l as [|i l IH]; intros x Hx; [done|]. simpl. by apply IH, set_bit_ok.
  - by apply with_node_blk.
Qed.

Lemma wp_init_partition s part (Q : Z -> mk -> Prop) : dp_offset part = offset -> dp_size part = FSSIZE -> (forall n, blk_ok (view s n)) ->
  (forall s', partition_ok (view s') offset (result fs) -> (forall n, n < offset \/ lim <= n -> view s' n = view s n) ->
    (forall n, blk_ok (view s' n)) -> g_mbr s' = g_mbr s -> Q ROOTINO s') ->
  wp (init_partition part (Some (fun r => root_handler host r argv))) Q s.
Proof using Hoffset Hlim Hfits.
  intros Eo Es Hb HQ. pose proof init_lim as Hil. pose proof (part_vals offset) as Hpv. pose proof (fi_room _ _ _ Hfits) as Hroom. destruct root_size as (_ & Hed & Hsz).
  unfold init_partition. rewrite Eo, Es. cbv zeta. wp_step. eapply wp_zero; [done|unfold FSSIZE in *; lia|]. intros s1 He1 Hl1. wp_steps.
  rewrite !(xint_id FSSIZE), (xint_id NINODES), (xint_id nlog) by (unfold FSSIZE, NINODES, nlog, LOGSIZE, MAXOPBLOCKS; lia).
  assert (s32 (FSSIZE - (1 + nlog + ninodeblocks + nbitmap)) = FSSIZE - 58) as -> by reflexivity. rewrite !xint_id by (unfold FSSIZE in *; rewrite ?NINB, ?NLOG; lia).
  match goal with |- wp _ _ ?t => set (s2 := t) end.
  assert (building offset lim work_sb (g_mbr s) (view s2) s2 []) as H2.
  { apply start_building; unfold s2; cbn [g_sb g_freeinode g_freeblock g_len g_mbr set_freeinode set_freeblock set_sb set_counts].
    - unfold work_sb. f_equal; rewrite ?NINB, ?NLOG; lia.
    - done.
    - rewrite META, u32_small; lia.
    - specialize (Hl1 ltac:(done)). unfold FSSIZE in *. lia.
    - apply (ev_mbr _ _ _ _ He1).
    - intros n. change (view _ n) with (view s1 n). rewrite (ev_view _ _ _ _ He1). case_decide; [apply zero_blk_ok|done].
    - intros n Hn. change (view _ n) with (view s1 n). rewrite (ev_view _ _ _ _ He1). rewrite decide_True; [done|]. unfold FSSIZE in *. lia. }
  eapply (wp_ialloc offset lim work_sb Hoffset init_lim work_ist); [exact H2|unfold NINODES; simpl; lia|unfold T_DIR; lia|].
  cbn [app length]. intros s3 H3. change (Z.of_nat 0 + 1) with ROOTINO. wp_step. unfold assert. simpl (ROOTINO =? ROOTINO). cbv iota. wp_step.
  apply wp_seq_assoc. wp_step. eapply wp_root; [exact H3|]. intros s4 H4. wp_step.
  eapply (wp_root_handler offset lim _ _ work_sb host Hoffset init_lim work_ist); [exact H4|exact Hfits|unfold FSSIZE in *; lia|]. intros s5 H5.
  eapply (wp_finish s5 _ _ _ H5). intros s6 Hv6 Hm6. pose proof H5 as [B1 B2 B3 B4 B5 B6 B7]. pose proof (bu_fb _ _ _ _ _ B6) as Efb. rewrite Efb in B6.
  assert (partition_ok (final_view offset (view s5) (result fs) f0) offset (result fs)) as Hok by (apply finished; try done; unfold T_DIR; cbn; lia).
  apply HQ.
  - eapply partition_ok_ext; [done|done|done|apply (bu_count _ _ _ _ _ B6)|intros n _; apply Hv6|exact Hok].
  - intros n Hn. rewrite Hv6, final_frame, B7 by (done || unfold outside, FSSIZE in *; lia). assert (view s2 n = view s1 n) as -> by done.
    rewrite (ev_view _ _ _ _ He1). rewrite decide_False; [done|]. unfold FSSIZE in *. lia.
  - intros n. rewrite Hv6. apply final_blk; [apply (bu_clean _ _ _ _ _ B6)|]. apply rounded_root_ok with (F := result fs); try done; unfold T_DIR; cbn; lia.
  - done.
Qed.
End Init.
