(* ===== verification/MkfsMain.v ===== *)
(** * [main] of mkfs.c: the whole image *)

From S2P Require Import Prelude Buf Bio Log Blocks Fs Balloc Inode FileData Dir Mkfs MkfsFile MkfsPart MkfsOk.

(** ** The kernel behind the boot sector *)

Definition sectors (l : list Z) : Z := (Z.of_nat (length l) + BSIZE - 1) / BSIZE.
(** The bytes of [l] lie in the sectors from [i] on. *)
Definition holds (v : Z -> list Z) (i : Z) (l : list Z) : Prop :=
  forall j, 0 <= j < Z.of_nat (length l) -> nth (Z.to_nat (j mod BSIZE)) (v (i + j / BSIZE)) 0 = nth (Z.to_nat j) l 0.
Lemma holds_ext v v' i l : (forall n, i <= n < i + sectors l -> v' n = v n) -> holds v i l -> holds v' i l.
Proof. intros Hv Hh j Hj. rewrite Hv; [by apply Hh|]. unfold sectors, BSIZE. zlia. Qed.
Lemma sectors_nonneg l : 0 <= sectors l.
Proof. unfold sectors, BSIZE. zlia. Qed.
Lemma sectors_cons c l : sectors (c :: l) = 1 + sectors (drop BSIZEn (c :: l)).
Proof. unfold sectors, BSIZE. rewrite length_drop. simpl length. zlia. Qed.

Lemma wp_write_kernel s0 fuel : forall s v fb rest buf i (Q : Z -> mk -> Prop), evolves s0 s v fb -> (forall n, blk_ok (v n)) -> blk_ok buf -> bytes_ok rest ->
  0 <= i -> i + sectors rest <= 2 ^ 23 -> (length rest <= fuel)%nat ->
  (forall s' v', evolves s0 s' v' fb -> (forall n, blk_ok (v' n)) -> holds v' i rest -> (forall n, n < i \/ i + sectors rest <= n -> v' n = v n) ->
    Q (i + sectors rest) s') -> wp (write_kernel fuel rest buf i) Q s.
Proof.
  induction fuel as [|fuel IH]; intros s v fb rest buf i Q He Hv Hbuf Hb Hi Hl Hf HQ.
  all: destruct rest as [|c rest]; cbn [write_kernel];
    [apply wp_ret; replace i with (i + sectors []) at 1 by (unfold sectors, BSIZE; simpl; zlia); eapply HQ; [exact He|done| |done]; intros j Hj; simpl in Hj; lia|].
  { simpl in Hf. lia. }
  set (w := take BSIZEn (c :: rest)). set (r := drop BSIZEn (c :: rest)). pose proof (sectors_cons c rest) as Es. fold r in Es.
  assert (c :: rest = w ++ r) as Ew by (symmetry; apply take_drop). pose proof (f_equal length Ew) as El. rewrite length_app in El.
  assert (length w = Nat.min 512 (length (c :: rest))) as Elw by (unfold w; by rewrite length_take).
  assert (length r = length (c :: rest) - 512)%nat as Elr by (unfold r; by rewrite length_drop).
  rewrite Ew in Hb. apply Forall_app in Hb as [Hbw Hbr]. destruct Hbuf as [Hbl Hbb].
  assert (blk_ok (bsplice 0 w buf)) as Hbuf' by (split; [rewrite bsplice_length; lia|by apply bytes_ok_splice]).
  pose proof (sectors_nonneg r) as Hsr.
  wp_step. eapply wp_wsect; [exact He|lia|]. intros s1 He1.
  eapply (IH s1 _ fb r _ (i + 1) Q He1); [intros n; unfold put; by case_decide|done|done|lia|lia|simpl in Hf, Elr; lia|].
  intros s2 v2 He2 Hv2 Hh2 Hfr2. replace (i + 1 + sectors r) with (i + sectors (c :: rest)) in * by lia.
  eapply HQ; [exact He2|done| |].
  - intros j Hj. destruct (decide (j < BSIZE)) as [Hlt|Hge].
    + rewrite (Z.div_small j), (Z.mod_small j) by lia. rewrite Z.add_0_r, Hfr2, put_same by lia. rewrite Ew, !nth_lookup, bsplice_lookup by lia.
      unfold BSIZE in *. rewrite decide_True by lia. rewrite lookup_app_l by lia. by rewrite Nat.sub_0_r.
    + unfold BSIZE in *. specialize (Hh2 (j - 512) ltac:(lia)). unfold BSIZE in Hh2. rewrite <- (Z_mod_plus_full (j - 512) 1), Z.mul_1_l in Hh2.
      replace (j - 512 + 512) with j in Hh2 by lia. replace (i + 1 + (j - 512) / 512) with (i + j / 512) in Hh2 by zlia.
      rewrite Hh2, Ew, app_nth2 by lia. f_equal. lia.
  - intros n Hn. rewrite Hfr2, put_ne by lia. done.
Qed.

(** ** The partition table *)

Lemma dp_words p : dpartition_bytes p = concat (map (le_bytes 4) [dp_flags p; dp_type p; dp_offset p; dp_size p]).
Proof. unfold dpartition_bytes. cbn [map concat]. by rewrite app_nil_r. Qed.
Lemma dp_length p : length (dpartition_bytes p) = 16%nat.
Proof. rewrite dp_words, concat_le_length. done. Qed.
Definition dp_ok (p : dpartition) : Prop := 0 <= dp_flags p < 2 ^ 32 /\ 0 <= dp_type p < 2 ^ 32 /\ 0 <= dp_offset p < 2 ^ 32 /\ 0 <= dp_size p < 2 ^ 32.
Lemma dp_roundtrip p l : dp_ok p -> dpartition_of 0 (dpartition_bytes p ++ l) = p.
Proof.
  intros (H1 & H2 & H3 & H4). pose proof (dp_length p) as Hl.
  assert (forall j, (j < 4)%nat -> get32 (4 * j) (dpartition_bytes p ++ l) = u32 (nth j [dp_flags p; dp_type p; dp_offset p; dp_size p] 0)) as Hg.
  { intros j Hj. rewrite <- get32_concat by (simpl; lia). rewrite <- dp_words. unfold get32, bslice. rewrite drop_app_le by lia.
    rewrite take_app_le; [done|]. rewrite length_drop. lia. }
  unfold dpartition_of. change (0 + 4)%nat with (4 * 1)%nat. change (0 + 8)%nat with (4 * 2)%nat. change (0 + 12)%nat with (4 * 3)%nat. change 0%nat with (4 * 0)%nat at 1.
  rewrite !Hg by lia. cbn [nth]. rewrite !u32_small by lia. by destruct p.
Qed.
Lemma dpartition_skip k w l : dpartition_of (length w + k) (w ++ l) = dpartition_of k l.
Proof. unfold dpartition_of. by rewrite <- !Nat.add_assoc, !get32_skip. Qed.
Lemma concat_dp_length ps : length (concat (map dpartition_bytes ps)) = (16 * length ps)%nat.
Proof. induction ps as [|p ps IH]; [done|]. cbn [map concat]. rewrite length_app, dp_length, IH. cbn [length]. lia. Qed.
(** The kernel decodes the table mkfs writes. *)
Lemma mbr_roundtrip m i p : length (mbr_bootstrap m) = 446%nat -> mbr_partitions m !! i = Some p -> length (mbr_partitions m) = 4%nat -> dp_ok p ->
  mbr_of (mbr_bytes m) !! i = Some p.
Proof.
  intros Hb Hi Hl Hp. pose proof (lookup_lt_Some _ _ _ Hi) as Hlt. unfold mbr_of. rewrite list_lookup_fmap, lookup_seqZ_lt by (unfold NPARTITIONS; lia).
  cbn [fmap option_fmap option_map]. f_equal. rewrite Z.add_0_l. unfold mbr_bytes, BOOTSTRAP.
  destruct (list_elem_of_split_length _ _ _ Hi) as (l1 & l2 & El & Hl1). rewrite El, map_app, concat_app. cbn [map concat].
  replace (Z.to_nat (446 + 16 * Z.of_nat i)) with (length (mbr_bootstrap m) + (length (concat (map dpartition_bytes l1)) + 0))%nat by (rewrite concat_dp_length; lia).
  rewrite dpartition_skip, <- !app_assoc, dpartition_skip. by apply dp_roundtrip.
Qed.

(** ** [main] *)

Section Main.
Variables (host : list Z -> option (list Z)) (argv : list (list Z)) (fs : files) (bl kern buf : list Z) (part : dpartition).
Hypothesis Hfits : fits host argv fs.
Hypothesis Hargc : (2 <= length argv)%nat.
Hypothesis Hbl : host BOOTBLOCK = Some bl /\ bytes_ok bl.
Hypothesis Hkern : host KERNEL = Some kern /\ bytes_ok kern.
Hypothesis Hbuf : blk_ok buf.
Hypothesis Hflags : 0 <= dp_flags part < 2 ^ 32.

(** The first sector of partition [i]. *)
Definition start (i : Z) : Z := 1 + sectors kern + FSSIZE * i.
Hypothesis Hsize : start NPARTITIONS <= 2 ^ 23.

Definition flags : Z := dp_flags part - dp_flags part mod 256 + PART_BOOTABLE.
Definition the_part (i : Z) : dpartition := mkDp flags FS_INODE (start i) FSSIZE.
Definition boot : list Z := bsplice 0 (take (Z.to_nat BOOTSTRAP) bl) (replicate (Z.to_nat BOOTSTRAP) 0).
Definition table (i : Z) : mbr := mkMbr boot (map the_part (seqZ 0 i) ++ replicate (Z.to_nat (NPARTITIONS - i)) (mkDp 0 0 0 0)) [0x55; 0xAA].

Lemma start_range i : 0 <= i <= NPARTITIONS -> 1 <= start i /\ start i + FSSIZE * (NPARTITIONS - i) <= 2 ^ 23.
Proof using All. intros Hi. unfold start, NPARTITIONS, FSSIZE in *. pose proof (sectors_nonneg kern). lia. Qed.
Lemma table_insert i : 0 <= i < NPARTITIONS -> <[Z.to_nat i := the_part i]> (mbr_partitions (table i)) = mbr_partitions (table (i + 1)).
Proof using All.
  intros Hi. unfold table. cbn [mbr_partitions]. unfold NPARTITIONS in *. rewrite insert_app_r_alt by (rewrite length_map, length_seqZ; lia).
  rewrite length_map, length_seqZ, Nat.sub_diag. replace (Z.to_nat (4 - i)) with (S (Z.to_nat (4 - (i + 1)))) by lia. cbn [replicate].
  change (<[0%nat := ?x]> (?y :: ?l)) with (x :: l). rewrite (seqZ_app 0 i 1) by lia. rewrite map_app, <- app_assoc.
  by rewrite (seqZ_cons (0 + i)), Z.add_0_l by lia.
Qed.
Lemma table_prev i : 1 <= i <= NPARTITIONS -> mbr_partitions (table i) !! Z.to_nat (i - 1) = Some (the_part (i - 1)).
Proof using All.
  intros Hi. unfold table. cbn [mbr_partitions]. rewrite lookup_app_l by (rewrite length_map, length_seqZ; lia).
  rewrite list_lookup_fmap, lookup_seqZ_lt by lia. cbn. do 2 f_equal. lia.
Qed.
Lemma flags_range : 0 <= flags < 2 ^ 32 /\ flags mod 256 = PART_BOOTABLE.
Proof using All. unfold flags, PART_BOOTABLE in *. zlia. Qed.
Lemma create_same p i : dp_flags p - dp_flags p mod 256 + u8 PART_BOOTABLE = flags -> create_partition p PART_BOOTABLE FS_INODE (start i) (xint FSSIZE) = the_part i.
Proof using All. intros E. unfold create_partition. rewrite E, xint_id by (unfold FSSIZE; lia). done. Qed.

(** The image after [i] partitions. *)
Record image (i : Z) (s : mk) : Prop := {
  im_mbr : g_mbr s = table i;
  im_blk : forall n, blk_ok (view s n);
  im_kern : holds (view s) 1 kern;
  im_parts : forall j, 0 <= j < i -> partition_ok (view s) (start j) (result fs)
}.
Lemma wp_add_partition i s (Q : Z -> mk -> Prop) : 0 <= i < NPARTITIONS -> image i s -> (forall s', image (i + 1) s' -> Q ROOTINO s') ->
  wp (add_partition (the_part i) i ;;; init_partition (the_part i) (Some (fun r => root_handler host r argv))) Q s.
Proof using All.
  intros Hi [I1 I2 I3 I4] HQ. pose proof (sectors_nonneg kern) as Hsk. pose proof (start_range i ltac:(lia)) as Hr. unfold NPARTITIONS, FSSIZE in *. unfold add_partition. wp_steps.
  eapply (wp_init_partition (start i) host argv fs); [lia|unfold FSSIZE; lia|done|done|done|exact I2|]. cbn [g_mbr set_mbr]. change (view (set_mbr _ s)) with (view s).
  intros s' Hok Hfr Hb Hm. apply HQ. split.
  - rewrite Hm, I1. rewrite table_insert by (unfold NPARTITIONS; lia). done.
  - done.
  - eapply holds_ext; [|exact I3]. intros n Hn. apply Hfr. unfold start, FSSIZE in *. lia.
  - intros j Hj. destruct (decide (j = i)) as [->|Hne]; [done|].
    eapply partition_ok_ext; [| | | | |apply (I4 j); lia]; unfold start, FSSIZE in *; try lia.
    + apply (fi_room _ _ _ Hfits).
    + rewrite result_length. pose proof (fi_inodes _ _ _ Hfits). lia.
    + intros n Hn. apply Hfr. lia.
Qed.

Lemma wp_boot s (Q : Z -> mk -> Prop) : (forall n, blk_ok (view s n)) -> (forall s', image 0 s' -> Q (1 + sectors kern) s') ->
  wp (initialize_mbr ;;; create_bootload_kernel host BOOTBLOCK KERNEL buf) Q s.
Proof using All.
  intros Hb HQ. unfold initialize_mbr, create_bootload_kernel. destruct Hbl as [-> Hblb]. destruct Hkern as [-> Hkb]. wp_steps.
  pose proof (start_range 0 ltac:(unfold NPARTITIONS; lia)) as Hr. unfold start in Hr. pose proof (sectors_nonneg kern). unfold NPARTITIONS, FSSIZE in Hr.
  eapply wp_write_kernel; [apply evolves_refl|exact Hb|exact Hbuf|exact Hkb|lia|lia|lia|]. intros s' v' He Hv Hh _. apply HQ. split.
  - by rewrite (ev_mbr _ _ _ _ He).
  - intros n. by rewrite (ev_view _ _ _ _ He).
  - eapply holds_ext; [|exact Hh]. intros n _. apply (ev_view _ _ _ _ He).
  - intros j Hj. lia.
Qed.
Lemma boot_length : length boot = 446%nat.
Proof using All. unfold boot. rewrite bsplice_length; [done|]. rewrite length_take, length_replicate. lia. Qed.
Lemma wp_main s : g_img s = ∅ -> wp (main host argv buf part) (fun _ s' => exists s1, image NPARTITIONS s1 /\
  forall n, view s' n = if decide (n = 0) then mbr_bytes (table NPARTITIONS) else view s1 n) s.
Proof using All.
  intros Hs. unfold main. destruct (Z.ltb_spec (Z.of_nat (length argv)) 2); [lia|]. wp_step. eapply wp_zero; [lia|unfold FSSIZE; lia|]. intros s1 He1 _.
  assert (forall n, blk_ok (view s1 n)) as Hb1.
  { intros n. rewrite (ev_view _ _ _ _ He1). case_decide; [apply zero_blk_ok|]. unfold view. rewrite Hs, lookup_empty. apply zero_blk_ok. }
  apply wp_seq_assoc. wp_step. eapply wp_boot; [exact Hb1|]. intros s2 H2. pose proof (sectors_nonneg kern).
  destruct (Z.ltb_spec (1 + sectors kern) 1); [lia|]. replace (1 + sectors kern) with (start 0) by (unfold start; lia).
  pose proof flags_range as [Hf1 Hf2]. rewrite (create_same part 0) by done. cbv zeta. apply wp_seq_assoc. wp_step.
  eapply wp_add_partition; [unfold NPARTITIONS; lia|exact H2|]. intros s3 H3. wp_step.
  eapply (wp_for_each _ _ _ image); [exact H3| |].
  - intros i t Hi Ht. unfold NPARTITIONS in Hi. wp_steps. rewrite (im_mbr _ _ Ht). eapply wp_option; [apply table_prev; unfold NPARTITIONS; lia|].
    assert (u32 (dp_offset (the_part (i - 1)) + dp_size (the_part (i - 1))) = start i) as ->.
    { cbn [the_part dp_offset dp_size]. pose proof (start_range i ltac:(unfold NPARTITIONS; lia)). unfold start, FSSIZE, NPARTITIONS in *. rewrite u32_small; lia. }
    rewrite create_same by (cbn [dp_flags the_part]; rewrite Hf2; unfold PART_BOOTABLE, u8; zlia). apply wp_seq_assoc. wp_step.
    eapply wp_add_partition; [unfold NPARTITIONS; lia|exact Ht|]. intros t' Ht'. by apply wp_ret.
  - intros t Ht. wp_steps. change (1 + Z.of_nat (Z.to_nat (NPARTITIONS - 1))) with NPARTITIONS in Ht. rewrite (im_mbr _ _ Ht).
    eapply wp_wsect; [apply evolves_refl|lia|]. intros s' He. exists t. split; [done|]. intros n. rewrite (ev_view _ _ _ _ He). unfold put. case_decide; [|done].
    apply bsplice_all. unfold mbr_bytes. rewrite !length_app, concat_dp_length. cbn [table mbr_bootstrap mbr_partitions mbr_magic]. rewrite boot_length. done.
Qed.
End Main.

(** The files of a finished partition are well-formed files of the kernel: what [readi_slice], [writei_bytes] and the other
    theorems about fs.c ask of an inode holds of every inode mkfs made. *)
Lemma kernel_wf {S} `{BK : Blocks S} (e : benv) (part : partition) (a : cache) F k f :
  partition_ok (c_view a (be_dev e)) (Balloc.offset part) F -> F !! k = Some f ->
  let d := dinode_at e part a (Z.of_nat k + 1) in
  file_wf (used e part a) (c_view a (be_dev e)) d /\ file_bytes (c_view a (be_dev e)) d = padded k (af_bytes f).
Proof. intros [_ HP _ _] Hk. destruct (HP k f Hk) as (_ & _ & Hw & Hb). done. Qed.

(** C5. mkfs builds the image the kernel reads.  When the files named on the command line can be opened and fit (their
    blocks, inodes and names, and a root directory that does not end at a block boundary), mkfs ends
    normally, and its image, read with the decoders of the kernel, holds the boot loader and the kernel, four bootable
    partitions one behind the other, and in each of them under inodes 1, 2, ... the root directory with one entry per file and the
    files themselves: well-formed block maps into blocks the bitmap marks, no block in two files, and the bytes of the host's
    files. *)
Theorem mkfs_image_readable host argv fs bl kern buf part s :
  fits host argv fs -> (2 <= length argv)%nat -> host BOOTBLOCK = Some bl -> host KERNEL = Some kern -> bytes_ok bl -> bytes_ok kern ->
  blk_ok buf -> 0 <= dp_flags part < 2 ^ 32 -> 1 + sectors kern + FSSIZE * NPARTITIONS <= 2 ^ 23 -> g_img s = ∅ ->
  exists s', main host argv buf part s = Done tt s' /\ let v := view s' in
    holds v 0 (take (Z.to_nat BOOTSTRAP) bl) /\ holds v 1 kern /\
    forall i, 0 <= i < NPARTITIONS -> exists p, mbr_of (v 0) !! Z.to_nat i = Some p /\ GET_BOOT p = PART_BOOTABLE /\
      dp_offset p = 1 + sectors kern + FSSIZE * i /\ dp_size p = FSSIZE /\ partition_ok v (dp_offset p) (result fs).
Proof.
  intros Hf Ha Hb Hk Hbb Hkb Hbuf Hfl Hsz Hs. pose proof (wp_main host argv fs bl kern buf part Hf Ha (conj Hb Hbb) (conj Hk Hkb) Hbuf Hfl Hsz s Hs) as Hw.
  apply wp_inv in Hw as ([] & s' & E & s1 & Him & Hv). exists s'. split; [done|]. cbv zeta.
  pose proof (boot_length host argv fs bl kern buf part Hf Ha (conj Hb Hbb) (conj Hk Hkb) Hbuf Hfl Hsz) as Hbl.
  pose proof (flags_range host argv fs bl kern buf part Hf Ha (conj Hb Hbb) (conj Hk Hkb) Hbuf Hfl Hsz) as [Hf1 Hf2].
  assert (view s' 0 = mbr_bytes (table bl kern part NPARTITIONS)) as E0 by (by rewrite Hv, decide_True).
  assert (forall n, n <> 0 -> view s' n = view s1 n) as En by (intros n Hn; by rewrite Hv, decide_False). pose proof (sectors_nonneg kern) as Hsk. split_and!.
  - intros j Hj. rewrite length_take in Hj. unfold BOOTSTRAP, BSIZE in *. rewrite (Z.div_small j), (Z.mod_small j), Z.add_0_l, E0 by lia.
    unfold mbr_bytes. cbn [table mbr_bootstrap]. rewrite app_nth1 by lia. unfold boot. rewrite !nth_lookup, bsplice_lookup, decide_True by (rewrite length_take, ?length_replicate; unfold BOOTSTRAP; lia).
    by rewrite Nat.sub_0_r.
  - eapply holds_ext; [|apply (im_kern _ _ _ _ _ _ Him)]. intros n Hn. apply En. lia.
  - intros i Hi. unfold NPARTITIONS, FSSIZE in *. exists (the_part kern part i). split_and!.
    + rewrite E0. apply mbr_roundtrip; [done| |done|].
      * cbn [table mbr_partitions]. rewrite lookup_app_l by (rewrite length_map, length_seqZ; unfold NPARTITIONS; lia).
        rewrite list_lookup_fmap, lookup_seqZ_lt by (unfold NPARTITIONS; lia). cbn. do 2 f_equal. lia.
      * unfold dp_ok, the_part, start, FS_INODE, FSSIZE. cbn [dp_flags dp_type dp_offset dp_size]. lia.
    + unfold GET_BOOT, s8, u8. cbn [the_part dp_flags]. change (2 ^ 8) with 256. by rewrite Hf2.
    + done.
    + done.
    + eapply partition_ok_ext; [| | | | |apply (im_parts _ _ _ _ _ _ Him i); unfold NPARTITIONS; lia]; cbn [the_part dp_offset]; unfold start, FSSIZE; try lia.
      * apply (fi_room _ _ _ Hf).
      * rewrite result_length. pose proof (fi_inodes _ _ _ Hf). lia.
      * intros n Hn. apply En. lia.
Qed.

(** A build with one program, [_ls], a boot loader of three bytes and a kernel of two sectors. *)
Definition LS : list Z := [95; 108; 115].
Definition small_host (name : list Z) : option (list Z) :=
  if decide (name = BOOTBLOCK) then Some [1; 2; 3]
  else if decide (name = KERNEL) then Some (replicate 600 7)
  else if decide (name = LS) then Some [127; 69; 76; 70] else None.
Definition small_files : files := [(LS, [127; 69; 76; 70])].
Definition blank : mk := mkMk ∅ 0 (mkSb 0 0 0 0 0 0 0) 1 0 0 0 (mkMbr [] [] []).

Lemma mkfs_image_readable_witness : exists s', main small_host [[]; []; LS] zero_blk (mkDp 0 0 0 0) blank = Done tt s' /\ let v := view s' in
    holds v 0 (take (Z.to_nat BOOTSTRAP) [1; 2; 3]) /\ holds v 1 (replicate 600 7) /\
    forall i, 0 <= i < NPARTITIONS -> exists p, mbr_of (v 0) !! Z.to_nat i = Some p /\ GET_BOOT p = PART_BOOTABLE /\
      dp_offset p = 1 + sectors (replicate 600 7) + FSSIZE * i /\ dp_size p = FSSIZE /\ partition_ok v (dp_offset p) (result small_files).
Proof.
  refine (mkfs_image_readable small_host [[]; []; LS] small_files [1; 2; 3] (replicate 600 7) zero_blk (mkDp 0 0 0 0) blank _ _ _ _ _ _ _ _ _ _).
  - split.
    + reflexivity.
    + constructor; [reflexivity|constructor].
    + constructor; [reflexivity|constructor].
    + constructor; [|constructor]. split; repeat constructor; unfold is_byte; simpl; lia.
    + constructor; [|constructor]. vm_compute. discriminate.
    + vm_compute. reflexivity.
    + vm_compute. discriminate.
    + vm_compute. discriminate.
  - simpl. lia.
  - reflexivity.
  - reflexivity.
  - repeat constructor; unfold is_byte; lia.
  - apply Forall_replicate. unfold is_byte. lia.
  - apply zero_blk_ok.
  - simpl. lia.
  - vm_compute. discriminate.
  - reflexivity.
Defined.

(** With 30 files the 32 entries of the root directory fill its block, and mkfs gives the directory a second block it never allocates. *)
Example full_root_directory : round_up (16 * (30 + 2)) = 1024 /\ nblk (16 * (30 + 2)) = 1.
Proof. done. Qed.
